(* ===== verification/_CoqProject ===== *)
-Q . S2P
Prelude.v
Effects.v
Bytes.v
Ring.v
Packet.v
WcpData.v
WcpCodec.v
WcpSend.v
WcpSendProofs.v
WcpRecv.v
WcpRecvProofs.v
WcpState.v
WcpStateProofs.v
Address.v
Wcp.v
WcpProofs.v
Formula.v
Xxtea.v
Obfuscate.v
Tlp.v
Dh.v
DhProofs.v
SocketData.v
SocketTlp.v
SockFns.v
SocketBase.v
Socket.v
SocketLaws.v
SocketSim.v
SocketSendProofs.v
SocketRecvProofs.v
SocketComm.v
SocketQuiet.v
SocketLife.v
SocketErrors.v
Observer.v
Epoll.v
Wpoll.v
Select.v
SocketObserver.v
ObserverSpec.v
EpollProofs.v
EpollSim.v
SocketObserverProofs.v
SharedMutex.v
SharedMutexProofs.v
MuxStream.v
MuxStreamProofs.v
MuxCargo.v
MuxLink.v
MuxProofs.v
MuxSystem.v
Ros.v
MuxSocket.v
MuxErrors.v
SmartPtr.v
SmartPtrProofs.v
Scheduler.v
SchedulerProofs.v
Dispatcher.v
RosProofs.v
Cargo.v
Strings.v
StringsProofs.v
Ticker.v
PeerProxy.v
Node.v
Http.v
HttpProofs.v
