(* ===== verification/Prelude.v ===== *)
(** * wawo: a verification library

    wawo ([src/] of the repository) is a C++ network library.  This development models
    its parts from the buffers up to the nodes of a program, and proves what they
    deliver: the reliable transport over UDP (WCP), the sockets over it and over the
    system's, the protocols that frame and encrypt messages, the observers that wait for
    events, the peers that exchange messages, streams and HTTP, and the tasks, locks and
    counted pointers below all of them.

    ** Parts, files and their correspondence to the code

    Foundations.
    - Prelude (this file): results of fallible code ([res]: a value, or the way the code
      stopped), machine integers (a w-bit integer is a [Z], wrap-around written out with
      [u8] ... [u64], [i32]), flag words, memory blocks ([slice] and [splice] are [memcpy]
      out of and into a block; class [memory] is the allocator), shared lemmas, hint
      databases and tactics.  Effects: the state and error monad [M], its total ([wp]) and
      partial ([wlp]) correctness.

    Buffers and values.
    - Bytes: [include/wawo/bytes_helper.hpp], the big-endian readers and writers.  Ring:
      [bytes_ringbuffer.hpp]; class [byte_queue] is the bounded FIFO its clients rely on,
      the ring its instance; also the generic [ringbuffer.hpp].  Packet: [packet.hpp];
      [packet.holds] is what clients use.
    - Strings, StringsProofs: [string.hpp], C strings in their blocks, [len_cstr], and
      trimming, replacing, splitting and joining.
    - Formula: [math/formula.hpp], [security/dh.hpp].  Xxtea: [security/xxtea.hpp].
      Obfuscate: [security/obfuscate.hpp].
    - Address: [net/address.hpp], the 64-bit identity, and [four_tuple_hash].

    The transport over UDP ([net/wcp.hpp], [src/net/wcp.cpp]).
    - WcpData: the control block ([WCB] has every member of the C++ class), the control
      packs, the estimators.  WcpCodec: the datagrams.  WcpSend, WcpSendProofs:
      [check_flights], [check_send].  WcpRecv, WcpRecvProofs: [check_recv].  WcpState,
      WcpStateProofs: [update] (the connection diagram) and the calls on a block.  Wcp,
      WcpProofs: [class wcp], over a heap of shared blocks.

    Protocols on a connection ([net/tlp/]).
    - Tlp: [hlen_packet.hpp], [stream.hpp], over any [byte_queue].  Dh, DhProofs:
      [symmetric_encrypt.hpp] over [cipher_abstract], and [dh_symmetric_encrypt.hpp].

    Sockets ([net/socket_base.hpp], [net/socket.hpp] and their [.cpp]).
    - SocketData: the members, flags and states.  SocketTlp: the protocols a socket can
      hold (class [tlp_abstract]).  SockFns: the tables of calls, of the system and of
      [class wcp].  SocketBase, Socket: the two classes.
    - SocketLaws, SocketSim: what a socket relies on, and a system in memory that has it.
      SocketSendProofs, SocketRecvProofs, SocketComm: the two halves and two sockets.
      SocketQuiet, SocketLife: what a method leaves alone; the life of a socket.
      SocketErrors: what it does not do.

    Observers ([net/observer_abstract.hpp], [net/observer_impl/], [net/socket_observer.hpp]).
    - Observer, Epoll, Wpoll, Select, SocketObserver: the contexts as shared objects, the
      three observers, the queue in front of them.  ObserverSpec (the table an observer
      stands for, the interfaces [watch_laws] and [check_laws]), EpollProofs, EpollSim,
      SocketObserverProofs.

    Threads.
    - SharedMutex, SharedMutexProofs: [thread/impl/shared_mutex.hpp].  Ticker:
      [thread/ticker.hpp].  Scheduler, SchedulerProofs: [include/wawo/task], [src/task].
      SmartPtr, SmartPtrProofs: [smart_ptr.hpp].

    Events, peers and nodes.
    - Dispatcher: [net/dispatcher_abstract.hpp].
    - MuxStream, MuxStreamProofs, MuxCargo, MuxLink, MuxProofs, MuxSystem, MuxSocket,
      MuxErrors: [net/peer/mux_cargo.hpp] and its messages, streams over one socket, up to
      a system of two peers; class [peer_socket] is what a peer asks of its socket, and
      MuxSocket gives it [class socket].
    - Ros, RosProofs: [net/peer/ros.hpp] and its messages.  Cargo: [net/peer/cargo.hpp].
      Http, HttpProofs: [net/protocol/http.hpp], [net/peer/http.hpp], [src/net/peer/http.cpp]
      and the messages, over any parser.
    - PeerProxy: [net/peer_proxy.hpp].  Node: [net/node_abstract.hpp], over PeerProxy.

    Files named ...Proofs hold the theorems about the file they are named after; files
    without one hold their own.

    ** How state and operations correspond

    A class is a [Record] with the source's members (setters [set_m] for those that
    change); a method is a [Definition], from the state and the arguments to the new state
    and the result in [res], or in [M].  A failed [WAWO_ASSERT] is [Fault AssertFailed]
    (assertions are compiled in and throw), a throw is [Fault Thrown], undefined behaviour
    is [Fault Undefined], a call that waits for what only another thread can do, a lock of
    its own thread among them, is [Fault Waits].  Objects shared by pointer (control
    blocks, poll entries, contexts, streams, messages) live in a heap keyed by numbers.
    What a method leaves to others (events, tasks, callbacks) is recorded in the state; a
    callback that works on the same object is an argument.

    Where threads matter they are explicit: shared_mutex, the scheduler and the counted
    pointers are transition systems whose steps are the sections others cannot interrupt,
    with any interleaving and, for conditions, spurious wake-ups; two peers are a system of
    calls, ticks and arrivals.  Elsewhere a method under its mutex is one step, and the
    mutexes are in the state where a method can wait for its own thread.

    The environment is a parameter: UDP sockets, clock and random numbers of WCP
    ([wcp_env], [wcp_sockets]), system calls ([system], [epoll_system]), sockets below a
    peer ([peer_socket]), all that a node asks ([node_env]), the parser of HTTP.  Answers
    are arbitrary unless a theorem names a law, and each law has an instance that is
    computed with:
    [system_laws] and [epoll_laws] (the documented behaviour of the calls), [stream_out]
    and [stream_in] (a transport that keeps the order, from [system_laws] or from
    [class wcp]), [peer_socket_laws] (a packet is taken whole or not at all),
    [node_laws] (a round of accept that reports more leaves fewer).  Callbacks of a user
    are taken not to work on the object that calls them where a theorem says so, and lemmas
    show what happens when they do.

    ** What the theorems show

    - WCP data phase: a round of [update] keeps the invariant of the control block
      ([data_phase]), fails no assertion, and delivers exactly the next packs of the peer's
      stream, once and in order, whatever is lost, repeated or reordered; the flight
      accounting is exact; the state follows the connection diagram.
    - Sockets: bytes accepted by [send] reach the transport once and in order; packets sent
      reach the listeners of the other side in order; every session keeps the socket well
      formed, follows the diagram of its states, and never waits for its own locks.
    - Observers: [update] performs the queued requests in order and serves each ready entry
      once, as the table says.
    - Peers: streams over one socket deliver their bytes in order in every interleaving of
      two peers; a request is pending, answered, timed out or refused, exactly one of them,
      and heard of once; events reach the listeners as if each registration took effect at
      once; a response of HTTP goes to the request that waits.  A proxy's peers are those
      that have a socket; every connection a node accepts gets a peer or is closed once.
    - Threads: a writer is alone and no wake-up is lost (without upgrades); tasks are run
      once and in order; a ticker follows the list of its functions with one loop; counted
      pointers never touch what is gone and leave nothing behind.
    - Formats: packs, frames, messages of the peers and of HTTP, enciphered messages and
      joined strings are read back as written.  Connections: framed packets cut anywhere
      arrive unchanged; the key exchange completes with one key on both sides.
    - Errors: where the code stops, waits for ever, loses data or misbehaves on legal or
      hostile input, a theorem exhibits it.

    ** Fuel

    Loops over a list are structural.  The others carry fuel and answer [Fault Diverged]
    without it; the theorems show that this never happens with enough of it:
    packet growth ([extend_fuel], 2083: the 16 MiB limit is reached in at most 2081 steps),
    [Q_mulmod] and [Q_powmod] (64: one round per bit), the decoders (one more than the
    bytes in the buffer: each round takes one), [WCB::check_send] ([send_fuel]: packs come
    from the queues or hold a byte of the buffer), SACK packs (a pack takes a byte), a
    socket's [flush] (2 rounds: the first wait ends it), its read loop (more than twice the
    weight of what is to come), the update of a stream (2; the loop that chooses its ring 33,
    one for each bit of a size), [replace] and [split] (one more than the characters),
    [execute_loop] of a proxy (one more than the operations), [accept_loop] (more than the
    backlog).  Where the code itself never ends (a handshake in pieces, a receiver on an
    empty non-blocking socket, [replace] of a string by itself) a lemma gives [Diverged] for
    every fuel.  Two loops have no such theorem: a listener's update (the number of control blocks
    bounds the nesting of listeners) and the search for a non-zero private key, which ends
    with the list of random numbers; the theorems give it one.

    ** Not modelled

    - Allocation failure, logging, the destructors of objects that only free memory;
      counters of pointers are unbounded, stream numbers are used once.
    - Name resolution and text notation of addresses; printing and parsing of numbers; the
      wide versions of the string functions, which repeat the narrow ones.
    - The parser object of [http_utils.cpp] and [parse_url], which hand everything to the
      vendored http_parser; [peer::http::connect].
    - Spin locks and the creation of threads, which are calls of the system; singletons;
      the map of services; configuration, environment, signals, time.
    - The context switch in assembly, vendored code, examples, tests and tools. *)

From stdpp Require Export base list numbers strings gmap.
From Stdlib Require Export ZArith Lia Bool.

#[global] Open Scope Z_scope.

(** ** Results of fallible code

    [WAWO_ASSERT] (enabled in release builds, see [include/wawo/macros.h])
    calls [wawo::assert_failed], which throws; [WAWO_CONDITION_CHECK] and
    [WAWO_THROW] throw too.  [Undefined] stands for C++ undefined behaviour
    (an out of bounds access, a division by zero).  [Diverged] is what a loop
    of the model answers when its fuel is used up; the termination theorems
    show that it never does.  [Waits] is a call that waits for what only another
    thread can do: a blocking call without data, or a lock the caller itself
    holds (a deadlock). *)
Inductive fault : Type :=
| AssertFailed
| Thrown
| Undefined
| Diverged
| Waits.

Inductive res (A : Type) : Type :=
| Ok (a : A)
| Fault (f : fault).
Arguments Ok {A} a.
Arguments Fault {A} f.

#[export] Instance fault_eq_dec : EqDecision fault.
Proof. solve_decision. Defined.

#[export] Instance res_ret : MRet res := fun A a => Ok a.
#[export] Instance res_bind : MBind res :=
  fun A B k m => match m with Ok a => k a | Fault f => Fault f end.

(** [guard_ b f] is [Ok tt] when the check passes and the fault otherwise. *)
Definition check (b : bool) (f : fault) : res unit := if b then Ok tt else Fault f.

Abbreviation wawo_assert b := (check b AssertFailed).
Abbreviation condition_check b := (check b Thrown).

Definition is_ok {A} (r : res A) : bool := match r with Ok _ => true | Fault _ => false end.

Lemma bind_ok {A B} (m : res A) (k : A -> res B) b :
  (m ≫= k) = Ok b -> exists a, m = Ok a /\ k a = Ok b.
Proof. destruct m as [a|f]; simpl; [eauto | discriminate]. Qed.

Lemma check_ok b f u : check b f = Ok u -> b = true.
Proof. destruct b; simpl; [done | discriminate]. Qed.

(** Decompose every successful bind and check of the context. *)
Ltac res_inv :=
  repeat match goal with
  | H : (_ ≫= _) = Ok _ |- _ =>
      let a := fresh "r" in let H1 := fresh "Hr" in let H2 := fresh "Hk" in
      apply bind_ok in H; destruct H as (a & H1 & H2)
  | H : check _ _ = Ok _ |- _ => apply check_ok in H
  | H : Ok _ = Ok _ |- _ => injection H as H; try subst
  | H : Fault _ = Ok _ |- _ => discriminate H
  end.

(** Reduce binds and checks only. *)
Ltac res_simpl := cbn [mbind res_bind mret res_ret check].

(** ** Machine integers

    An unsigned w-bit integer is a [Z] in [0, 2^w); the arithmetic of the
    code wraps, which the model writes out with [u8], [u16], [u32], [u64].
    [i32] is the two's complement reading of a 32-bit value. *)
Definition u8 (z : Z) : Z := z mod 256.
Definition u16 (z : Z) : Z := z mod 65536.
Definition u32 (z : Z) : Z := z mod 4294967296.
Definition u64 (z : Z) : Z := z mod 18446744073709551616.
Definition i32 (z : Z) : Z := (z + 2147483648) mod 4294967296 - 2147483648.

Definition is_u8 (z : Z) : Prop := 0 <= z < 256.
Definition is_u16 (z : Z) : Prop := 0 <= z < 65536.
Definition is_u32 (z : Z) : Prop := 0 <= z < 4294967296.
Definition is_u64 (z : Z) : Prop := 0 <= z < 18446744073709551616.

Declare Scope wawo_scope.
Delimit Scope wawo_scope with wawo.
Notation "x +₃₂ y" := (u32 (x + y)) (at level 50, left associativity) : wawo_scope.
Notation "x -₃₂ y" := (u32 (x - y)) (at level 50, left associativity) : wawo_scope.
Notation "x *₃₂ y" := (u32 (x * y)) (at level 40, left associativity) : wawo_scope.
Notation "x +₆₄ y" := (u64 (x + y)) (at level 50, left associativity) : wawo_scope.
Notation "x -₆₄ y" := (u64 (x - y)) (at level 50, left associativity) : wawo_scope.
#[global] Open Scope wawo_scope.

Lemma u8_range z : is_u8 (u8 z).
Proof. apply Z.mod_pos_bound; lia. Qed.
Lemma u16_range z : is_u16 (u16 z).
Proof. apply Z.mod_pos_bound; lia. Qed.
Lemma u32_range z : is_u32 (u32 z).
Proof. apply Z.mod_pos_bound; lia. Qed.
Lemma u64_range z : is_u64 (u64 z).
Proof. apply Z.mod_pos_bound; lia. Qed.

Lemma u8_small z : is_u8 z -> u8 z = z.
Proof. apply Z.mod_small. Qed.
Lemma u16_small z : is_u16 z -> u16 z = z.
Proof. apply Z.mod_small. Qed.
Lemma u32_small z : is_u32 z -> u32 z = z.
Proof. apply Z.mod_small. Qed.
Lemma u64_small z : is_u64 z -> u64 z = z.
Proof. apply Z.mod_small. Qed.

Lemma u32_add_l a b : u32 (u32 a + b) = u32 (a + b).
Proof. apply Zplus_mod_idemp_l. Qed.
Lemma u32_add_r a b : u32 (a + u32 b) = u32 (a + b).
Proof. apply Zplus_mod_idemp_r. Qed.
Lemma u32_sub_l a b : u32 (u32 a - b) = u32 (a - b).
Proof. apply Zminus_mod_idemp_l. Qed.
Lemma u32_sub_r a b : u32 (a - u32 b) = u32 (a - b).
Proof. apply Zminus_mod_idemp_r. Qed.

Lemma u32_add_sub a b : is_u32 a -> (a +₃₂ b) -₃₂ b = a.
Proof. intros. rewrite u32_sub_l. rewrite Z.add_simpl_r. by apply u32_small. Qed.

Create HintDb wawo.
Create HintDb u32.
Create HintDb flags.
Create HintDb wlist.
#[export] Hint Resolve u8_range u16_range u32_range u64_range : wawo.
#[export] Hint Rewrite u32_add_l u32_add_r u32_sub_l u32_sub_r : u32.

(** Unfold the range predicates and call [lia]. *)
Ltac range_lia := unfold is_u8, is_u16, is_u32, is_u64 in *; lia.

(** Remove the wrap-around of every [u32] whose argument is in range. *)
Ltac u32_clear := repeat (rewrite u32_small by range_lia).

(** ** Flag words *)
Definition flag_on (f m : Z) : bool := negb (Z.land f m =? 0).
Definition flag_set (f m : Z) : Z := Z.lor f m.
Definition flag_clear (f m : Z) : Z := Z.ldiff f m.

Lemma flag_on_set f m m' :
  flag_on (flag_set f m) m' = flag_on f m' || flag_on m m'.
Proof.
  unfold flag_on, flag_set. rewrite Z.land_lor_distr_l.
  destruct (Z.eqb_spec (Z.land f m') 0) as [E|E], (Z.eqb_spec (Z.land m m') 0) as [E'|E'];
    destruct (Z.eqb_spec (Z.lor (Z.land f m') (Z.land m m')) 0) as [E2|E2]; try done;
    try (apply Z.lor_eq_0_iff in E2; naive_solver);
    exfalso; apply E2; rewrite E, E'; done.
Qed.

Lemma flag_on_clear f m m' :
  flag_on (flag_clear f m) m' = flag_on f (Z.ldiff m' m).
Proof.
  unfold flag_on, flag_clear. do 2 f_equal.
  apply Z.bits_inj'. intros n Hn.
  rewrite !Z.land_spec, !Z.ldiff_spec.
  by destruct (Z.testbit f n), (Z.testbit m n), (Z.testbit m' n).
Qed.

Lemma flag_on_none f : flag_on f 0 = false.
Proof. unfold flag_on. by rewrite Z.land_0_r. Qed.

#[export] Hint Rewrite flag_on_set flag_on_clear flag_on_none : flags.

(** ** Memory blocks

    A C buffer is a list of byte values; [slice] is what a [memcpy] from it
    reads and [splice] what a [memcpy] into it leaves. *)
Definition byte_ok (b : Z) : Prop := is_u8 b.

Definition slice (m : list Z) (off n : Z) : list Z :=
  take (Z.to_nat n) (drop (Z.to_nat off) m).

Definition splice (m : list Z) (off : Z) (src : list Z) : list Z :=
  take (Z.to_nat off) m ++ src ++ drop (Z.to_nat off + length src) m.

Definition zlen {A} (l : list A) : Z := Z.of_nat (length l).

Lemma zlen_nonneg {A} (l : list A) : 0 <= zlen l.
Proof. unfold zlen. lia. Qed.

Lemma zlen_app {A} (l1 l2 : list A) : zlen (l1 ++ l2) = zlen l1 + zlen l2.
Proof. unfold zlen. rewrite length_app. lia. Qed.

Lemma zlen_take {A} (l : list A) n : 0 <= n -> zlen (take (Z.to_nat n) l) = Z.min n (zlen l).
Proof. unfold zlen. intros. rewrite length_take. lia. Qed.
Lemma zlen_drop {A} (l : list A) n : 0 <= n -> zlen (drop (Z.to_nat n) l) = Z.max 0 (zlen l - n).
Proof. unfold zlen. intros. rewrite length_drop. lia. Qed.

Lemma zlen_splice m off src :
  0 <= off -> off + zlen src <= zlen m -> zlen (splice m off src) = zlen m.
Proof.
  unfold zlen, splice. intros. rewrite !length_app, length_take, length_drop. lia.
Qed.

Lemma zlen_slice m off n :
  0 <= off -> 0 <= n -> off + n <= zlen m -> zlen (slice m off n) = n.
Proof. unfold zlen, slice. intros. rewrite length_take, length_drop. lia. Qed.

Lemma lookup_slice m off n i :
  (i < Z.to_nat n)%nat -> slice m off n !! i = m !! (Z.to_nat off + i)%nat.
Proof. intros. unfold slice. rewrite lookup_take_lt by lia. apply lookup_drop. Qed.

(** The C allocator: a block of the requested size, of unspecified value. *)
Class memory := {
  malloc : Z -> list Z;
  malloc_size n : 0 <= n -> zlen (malloc n) = n
}.

(** An allocator that hands out zeroed blocks. *)
#[export] Program Instance zeroed : memory := {| malloc n := replicate (Z.to_nat n) 0 |}.
Next Obligation. intros n Hn. unfold zlen. rewrite length_replicate. lia. Qed.

(** Reading back what was just copied in. *)
Lemma slice_splice m off src :
  0 <= off -> off + zlen src <= zlen m -> slice (splice m off src) off (zlen src) = src.
Proof.
  unfold slice, splice, zlen. intros.
  rewrite drop_app_length' by (rewrite length_take; lia).
  by rewrite take_app_length' by lia.
Qed.

(** A copy leaves the bytes before it alone. *)
Lemma slice_splice_before m off src o n :
  0 <= o -> 0 <= n -> o + n <= off -> off <= zlen m ->
  slice (splice m off src) o n = slice m o n.
Proof.
  unfold slice, splice, zlen. intros.
  rewrite drop_app_le by (rewrite length_take; lia).
  rewrite take_app_le by (rewrite length_drop, length_take; lia).
  rewrite skipn_firstn_comm, take_take. f_equal. lia.
Qed.

(** ... and the bytes after it. *)
Lemma slice_splice_after m off src o n :
  0 <= off -> off + zlen src <= o -> off + zlen src <= zlen m ->
  slice (splice m off src) o n = slice m o n.
Proof.
  unfold slice, splice, zlen. intros. f_equal.
  rewrite app_assoc, drop_app_ge by (rewrite length_app, length_take; lia).
  rewrite drop_drop. f_equal. rewrite length_app, length_take. lia.
Qed.

(** Adjacent slices concatenate. *)
Lemma slice_app m off n1 n2 :
  0 <= off -> 0 <= n1 -> 0 <= n2 ->
  slice m off n1 ++ slice m (off + n1) n2 = slice m off (n1 + n2).
Proof.
  intros. unfold slice.
  replace (Z.to_nat (off + n1)) with (Z.to_nat off + Z.to_nat n1)%nat by lia.
  rewrite <- drop_drop.
  replace (Z.to_nat (n1 + n2)) with (Z.to_nat n1 + Z.to_nat n2)%nat by lia.
  by rewrite take_take_drop.
Qed.

Lemma slice_take_drop m off n : take (Z.to_nat n) (drop (Z.to_nat off) m) = slice m off n.
Proof. done. Qed.

Lemma slice_zero m off : slice m off 0 = [].
Proof. done. Qed.

#[export] Hint Rewrite @zlen_app slice_zero : wlist.

Lemma take_slice m off n k :
  0 <= k -> take (Z.to_nat k) (slice m off n) = slice m off (Z.min k n).
Proof. intros. unfold slice. rewrite take_take. f_equal. lia. Qed.

Lemma drop_slice m off n k :
  0 <= off -> 0 <= k -> drop (Z.to_nat k) (slice m off n) = slice m (off + k) (n - k).
Proof.
  intros. unfold slice. rewrite skipn_firstn_comm, drop_drop.
  f_equal; [lia | f_equal; lia].
Qed.

Lemma slice_neg m off n : n <= 0 -> slice m off n = [].
Proof. intros. unfold slice. by replace (Z.to_nat n) with 0%nat by lia. Qed.

Lemma slice_whole m n : n = zlen m -> slice m 0 n = m.
Proof. intros ->. unfold slice, zlen. rewrite drop_0. apply take_ge. lia. Qed.

Lemma slice_app_l l1 l2 n : n = zlen l1 -> slice (l1 ++ l2) 0 n = l1.
Proof. intros ->. unfold slice, zlen. rewrite drop_0, Nat2Z.id. by apply take_app_length. Qed.

Lemma splice_bytes m off src :
  Forall byte_ok m -> Forall byte_ok src -> Forall byte_ok (splice m off src).
Proof.
  intros Hm Hs. unfold splice.
  apply Forall_app; split; [by apply Forall_take|].
  apply Forall_app; split; [done | by apply Forall_drop].
Qed.

Lemma slice_bytes m off n : Forall byte_ok m -> Forall byte_ok (slice m off n).
Proof. intros Hm. unfold slice. by apply Forall_take, Forall_drop. Qed.

#[export] Hint Resolve splice_bytes slice_bytes : wawo.

(** Filtering with what every element satisfies. *)
Lemma filter_all {A} (P : A -> Prop) `{!forall x, Decision (P x)} (l : list A) :
  Forall P l -> filter P l = l.
Proof.
  induction 1 as [|x l Hx _ IH]; [done|]. by rewrite filter_cons_True, IH.
Qed.

(** A sum of two indices below the modulus wraps at most once. *)
Lemma mod_once a c : 0 < c -> c <= a < 2 * c -> a mod c = a - c.
Proof. intros. symmetry. apply Z.mod_unique with (q := 1); lia. Qed.

(** Or-ing a value below a shifted one adds them. *)
Lemma shiftl_lor_add k i p : 0 <= k -> 0 <= p < 2 ^ k -> Z.lor (Z.shiftl i k) p = i * 2 ^ k + p.
Proof.
  intros Hk Hp. apply Z.bits_inj'. intros n Hn. rewrite Z.lor_spec, Z.shiftl_spec by lia.
  destruct (Z.lt_ge_cases n k) as [Hlt|Hge].
  - rewrite (Z.testbit_neg_r i) by lia. rewrite <- (Z.mod_pow2_bits_low (i * 2 ^ k + p) k n) by lia.
    rewrite Z.add_comm, Z_mod_plus_full, Z.mod_small by lia. done.
  - replace (Z.testbit p n) with false.
    2:{ symmetry. rewrite <- (Z.mod_small p (2 ^ k)) by lia. apply Z.mod_pow2_bits_high. lia. }
    rewrite orb_false_r. replace n with ((n - k) + k) at 2 by lia.
    rewrite <- Z.shiftr_spec, Z.shiftr_div_pow2 by lia.
    rewrite Z.div_add_l, (Z.div_small p), Z.add_0_r by lia. done.
Qed.
