(* ===== verification/Effects.v ===== *)
(** * Effects: the state and error monad of the stateful components

    A method that reads and writes a shared state [W] and may stop is
    [M W A := W -> res (W * A)]: explicit state passing behind the bind notation
    of stdpp.  Theorems are stated through [wp m w Q]: run in [w], the method
    comes to its end without a fault, in a state and with a result for which [Q]
    holds (total correctness).  The rules of [wp] follow the constructors and
    are collected in the tactic [wp_simpl]. *)

From S2P Require Import Prelude.

Definition M (W A : Type) : Type := W -> res (W * A).

#[export] Instance M_ret W : MRet (M W) := fun A a w => Ok (w, a).
#[export] Instance M_bind W : MBind (M W) :=
  fun A B k m w => match m w with Ok (w', a) => k a w' | Fault f => Fault f end.

Definition gets {W A} (f : W -> A) : M W A := fun w => Ok (w, f w).
Definition modify {W} (f : W -> W) : M W unit := fun w => Ok (f w, tt).
Definition fail {W A} (f : fault) : M W A := fun _ => Fault f.

(** A computation without state. *)
Definition lift {W A} (r : res A) : M W A :=
  fun w => match r with Ok a => Ok (w, a) | Fault f => Fault f end.

(** [WAWO_ASSERT] and [WAWO_CONDITION_CHECK] in a method. *)
Definition assertM {W} (b : bool) : M W unit := lift (wawo_assert b).
Definition conditionM {W} (b : bool) : M W unit := lift (condition_check b).

(** A method of a part of the state. *)
Definition zoom {W V A} (get : W -> V) (put : V -> W -> W) (m : M V A) : M W A :=
  fun w => match m (get w) with
           | Ok (v, a) => Ok (put v w, a)
           | Fault f => Fault f
           end.

Definition when {W} (b : bool) (m : M W unit) : M W unit := if b then m else mret tt.

(** The loop [for (x : l) body]. *)
Fixpoint iterM {W X} (body : X -> M W unit) (l : list X) : M W unit :=
  match l with
  | [] => mret tt
  | x :: l' => body x;; iterM body l'
  end.

(** ** Total correctness *)
Definition wp {W A} (m : M W A) (w : W) (Q : W -> A -> Prop) : Prop :=
  match m w with Ok (w', a) => Q w' a | Fault _ => False end.

Section wp.
Context {W : Type}.

Lemma wp_ret {A} (a : A) (w : W) Q : wp (mret a) w Q <-> Q w a.
Proof. done. Qed.

Lemma wp_bind {A B} (m : M W A) (k : A -> M W B) w Q :
  wp (m ≫= k) w Q <-> wp m w (fun w' a => wp (k a) w' Q).
Proof. unfold wp, mbind, M_bind. by destruct (m w) as [[w' a]|f]. Qed.

Lemma wp_gets {A} (f : W -> A) w Q : wp (gets f) w Q <-> Q w (f w).
Proof. done. Qed.

Lemma wp_modify f (w : W) Q : wp (modify f) w Q <-> Q (f w) tt.
Proof. done. Qed.

Lemma wp_lift {A} (a : A) (w : W) Q : wp (lift (Ok a)) w Q <-> Q w a.
Proof. done. Qed.

Lemma wp_assert b (w : W) Q : wp (assertM b) w Q <-> b = true /\ Q w tt.
Proof. unfold wp, assertM, lift. destruct b; simpl; [tauto|]. split; [done | by intros [? _]]. Qed.

Lemma wp_zoom {V A} (get : W -> V) put (m : M V A) w Q :
  wp (zoom get put m) w Q <-> wp m (get w) (fun v a => Q (put v w) a).
Proof. unfold wp, zoom. by destruct (m (get w)) as [[v a]|f]. Qed.

Lemma wp_when b (m : M W unit) w Q :
  wp (when b m) w Q <-> if b then wp m w Q else Q w tt.
Proof. by destruct b. Qed.

Lemma wp_mono {A} (m : M W A) w (P Q : W -> A -> Prop) :
  wp m w P -> (forall w' a, P w' a -> Q w' a) -> wp m w Q.
Proof. unfold wp. destruct (m w) as [[w' a]|f]; eauto. Qed.

Lemma wp_and {A} (m : M W A) w (P Q : W -> A -> Prop) :
  wp m w P -> wp m w Q -> wp m w (fun w' a => P w' a /\ Q w' a).
Proof. unfold wp. destruct (m w) as [[w' a]|f]; eauto. Qed.

(** From [wp] to the equation of the run, and back. *)
Lemma wp_run {A} (m : M W A) w Q :
  wp m w Q <-> exists w' a, m w = Ok (w', a) /\ Q w' a.
Proof.
  unfold wp. destruct (m w) as [[w' a]|f]; split.
  - intros HQ. by exists w', a.
  - by intros (w1 & a1 & [= <- <-] & HQ).
  - done.
  - by intros (w1 & a1 & E & _).
Qed.

(** An invariant of the body is one of the loop. *)
Lemma wp_iter {X} (body : X -> M W unit) (I : list X -> W -> Prop) l : forall w,
  I l w -> (forall x l' w', I (x :: l') w' -> wp (body x) w' (fun w2 _ => I l' w2)) ->
  wp (iterM body l) w (fun w' _ => I [] w').
Proof.
  induction l as [|x l IH]; intros w HI Hb; [done|]. cbn [iterM]. apply wp_bind.
  eapply wp_mono; [by apply Hb|]. intros w' [] HI'. by apply IH.
Qed.
End wp.

Create Rewrite HintDb wp.
#[export] Hint Rewrite @wp_ret @wp_bind @wp_gets @wp_modify @wp_lift @wp_assert
  @wp_zoom @wp_when : wp.

(** Push [wp] through the constructors. *)
Ltac wp_simpl := autorewrite with wp; cbn beta; unfold id.

(** ** Partial correctness

    [wlp N m w Q]: when [m] comes to an end without a fault, then in a state and with
    a result for which [Q] holds; and it waits for another thread only if [N].  What
    a method does to its state whatever happens around it is stated this way. *)
Definition wlp {W A} (N : Prop) (m : M W A) (w : W) (Q : W -> A -> Prop) : Prop :=
  match m w with Ok (w', a) => Q w' a | Fault f => f = Waits -> N end.

Section wlp.
Context {W : Type} (N : Prop).

Lemma wlp_ret {A} (a : A) (w : W) (Q : W -> A -> Prop) : Q w a -> wlp N (mret a) w Q.
Proof. done. Qed.

Lemma wlp_bind {A B} (m : M W A) (k : A -> M W B) w Q :
  wlp N m w (fun w' a => wlp N (k a) w' Q) -> wlp N (m ≫= k) w Q.
Proof. unfold wlp, mbind, M_bind. by destruct (m w) as [[w' a]|f]. Qed.

Lemma wlp_gets {A} (f : W -> A) w (Q : W -> A -> Prop) : Q w (f w) -> wlp N (gets f) w Q.
Proof. done. Qed.

Lemma wlp_modify f (w : W) (Q : W -> unit -> Prop) : Q (f w) tt -> wlp N (modify f) w Q.
Proof. done. Qed.

Lemma wlp_fail {A} f (w : W) (Q : W -> A -> Prop) : f <> Waits -> wlp N (fail f) w Q.
Proof. intros Hf E. by destruct (Hf E). Qed.

Lemma wlp_assert b (w : W) (Q : W -> unit -> Prop) : (b = true -> Q w tt) -> wlp N (assertM b) w Q.
Proof. unfold wlp, assertM, lift. destruct b; simpl; [auto | done]. Qed.

Lemma wlp_mono {A} (m : M W A) w (P Q : W -> A -> Prop) :
  wlp N m w P -> (forall w' a, P w' a -> Q w' a) -> wlp N m w Q.
Proof. unfold wlp. destruct (m w) as [[w' a]|f]; eauto. Qed.

Lemma wlp_ok {A} (m : M W A) w w' a Q : wlp N m w Q -> m w = Ok (w', a) -> Q w' a.
Proof. unfold wlp. intros HQ E. by rewrite E in HQ. Qed.

Lemma wlp_waits {A} (m : M W A) w Q : wlp N m w Q -> m w = Fault Waits -> N.
Proof. unfold wlp. intros HQ E. rewrite E in HQ. by apply HQ. Qed.
End wlp.

(** A computation that never waits. *)
Definition prompt {W A} (m : M W A) : Prop := forall w, m w <> Fault Waits.

Lemma prompt_bind {W A B} (m : M W A) (k : A -> M W B) :
  prompt m -> (forall a, prompt (k a)) -> prompt (m ≫= k).
Proof.
  intros Hm Hk w. unfold mbind, M_bind. specialize (Hm w). destruct (m w) as [[w' a]|f]; [apply Hk|].
  intros [= ->]. done.
Qed.
Lemma prompt_ret {W A} (a : A) : prompt (W := W) (mret a).
Proof. by intros w. Qed.
Lemma prompt_gets {W A} (f : W -> A) : prompt (gets f).
Proof. by intros w. Qed.
Lemma prompt_fail {W A} f : f <> Waits -> prompt (W := W) (A := A) (fail f).
Proof. intros Hf w [= ->]. done. Qed.
Lemma prompt_assert {W} b : prompt (W := W) (assertM b).
Proof. intros w. unfold assertM, lift. by destruct b. Qed.

Create HintDb prompt.
#[export] Hint Resolve prompt_ret prompt_gets prompt_assert : prompt.

(** A pure computation that does not answer [Waits]. *)
Definition calm {A} (r : res A) : Prop := r <> Fault Waits.

Lemma calm_ok {A} (a : A) : calm (Ok a).
Proof. discriminate. Qed.
Lemma calm_bind {A B} (r : res A) (k : A -> res B) : calm r -> (forall a, calm (k a)) -> calm (r ≫= k).
Proof. intros Hr Hk. destruct r as [a|f]; [apply Hk|]. intros [= ->]. done. Qed.
Lemma calm_check b f : f <> Waits -> calm (check b f).
Proof. intros Hf. destruct b; [done|]. intros [= ->]. done. Qed.
Lemma calm_fault {A} f : f <> Waits -> calm (Fault (A := A) f).
Proof. intros Hf [= ->]. done. Qed.
Lemma prompt_lift {W A} (r : res A) : calm r -> prompt (W := W) (lift r).
Proof. intros Hr w. unfold lift. destruct r as [a|f]; [done|]. intros [= ->]. done. Qed.

Create HintDb calm.

(** Go through the binds and the tests; the leaves are in the database [calm]. *)
Ltac calm_step :=
  match goal with
  | |- calm (Ok _) => apply calm_ok
  | |- calm (Fault _) => apply calm_fault; discriminate
  | |- calm (check _ _) => apply calm_check; discriminate
  | |- calm (_ ≫= _) => apply calm_bind; [|intros ?]
  | |- calm (match ?x with _ => _ end) => destruct x
  | |- calm _ => solve [eauto with calm]
  | |- calm (let _ := _ in _) => cbv zeta
  end.
Ltac calm_tac := repeat calm_step.
