(* ===== verification/Bytes.v ===== *)
(** * Bytes: [include/wawo/bytes_helper.hpp]

    The big-endian reader and writer every wire format of the library uses
    (packets, the WCP header, the hlen framing, mux and ROS messages).  A
    value of a type [T] of [n] bytes is written as the list of its [n] bytes,
    most significant first, and read back from a list of bytes. *)

From S2P Require Import Prelude.

Module bytes_helper.

(** [write_impl]: the loop [for i = sizeof(T)-1 downto 0] storing
    [(val >> (i*8)) & 0xff].  [val] may be negative (signed [T]). *)
Fixpoint write_impl (n : nat) (val : Z) : list Z :=
  match n with
  | O => []
  | S i => Z.land (Z.shiftr val (Z.of_nat i * 8)) 255 :: write_impl i val
  end.

(** [read_impl]: the loop of [sizeof(T)] rounds [ret <<= 8; ret |= byte],
    [ret] being a [T] of [w] bits; it reads the first bytes of [start]. *)
Fixpoint read_loop (w : Z) (i : nat) (ret : Z) (start : list Z) : Z :=
  match i, start with
  | S i', b :: rest => read_loop w i' (Z.lor (Z.shiftl ret 8 mod 2 ^ w) b) rest
  | _, _ => ret
  end.

Definition read_impl (n : nat) (start : list Z) : Z :=
  read_loop (8 * Z.of_nat n) n 0 start.

Definition write_u8 (v : Z) : list Z := write_impl 1 v.
Definition write_u16 (v : Z) : list Z := write_impl 2 v.
Definition write_u32 (v : Z) : list Z := write_impl 4 v.
Definition write_u64 (v : Z) : list Z := write_impl 8 v.
Definition read_u8 (start : list Z) : Z := read_impl 1 start.
Definition read_u16 (start : list Z) : Z := read_impl 2 start.
Definition read_u32 (start : list Z) : Z := read_impl 4 start.
Definition read_u64 (start : list Z) : Z := read_impl 8 start.
Definition read_i32 (start : list Z) : Z := i32 (read_impl 4 start).

#[global] Arguments write_u8 : simpl never.
#[global] Arguments write_u16 : simpl never.
#[global] Arguments write_u32 : simpl never.
#[global] Arguments write_u64 : simpl never.
#[global] Arguments read_u8 : simpl never.
#[global] Arguments read_u16 : simpl never.
#[global] Arguments read_u32 : simpl never.
#[global] Arguments read_u64 : simpl never.

(** [read_bytes] and [write_bytes]: byte by byte copies of [len] bytes; the
    result is the number of bytes copied. *)
Fixpoint copy_loop (fuel : nat) (idx : Z) (len : Z) (target src : list Z) : list Z * Z :=
  match fuel with
  | O => (target, idx)
  | S fuel' =>
      if idx <? len then
        copy_loop fuel' (idx + 1) len
          (<[Z.to_nat idx := default 0 (src !! Z.to_nat idx)]> target) src
      else (target, idx)
  end.

Definition read_bytes (target : list Z) (len : Z) (start : list Z) : list Z * Z :=
  copy_loop (Z.to_nat len) 0 len target start.
Definition write_bytes (buffer : list Z) (len : Z) (out : list Z) : list Z * Z :=
  copy_loop (Z.to_nat len) 0 len out buffer.

(** ** Lemmas *)

Lemma write_impl_length n v : length (write_impl n v) = n.
Proof. induction n as [|n IH]; simpl; [done | by rewrite IH]. Qed.

Lemma zlen_write_impl n v : zlen (write_impl n v) = Z.of_nat n.
Proof. unfold zlen. by rewrite write_impl_length. Qed.

Lemma write_impl_bytes n v : Forall byte_ok (write_impl n v).
Proof.
  induction n as [|n IH]; simpl; constructor; [|done].
  change 255 with (Z.ones 8). rewrite Z.land_ones by lia.
  apply Z.mod_pos_bound. lia.
Qed.

(** One byte, appended below the bytes already read. *)
Lemma lor_byte a b : byte_ok b -> Z.lor (a * 256) b = a * 256 + b.
Proof.
  intros Hb. rewrite <- Z.lxor_lor; [symmetry; apply Z.add_nocarry_lxor|];
  (apply Z.bits_inj'; intros k Hk; rewrite Z.land_spec, Z.bits_0;
   change 256 with (2 ^ 8);
   destruct (Z.lt_ge_cases k 8);
   [ rewrite Z.mul_pow2_bits_low by lia; done
   | replace b with (b mod 2 ^ 8) by (apply Z.mod_small; unfold byte_ok, is_u8 in Hb; lia);
     rewrite (Z.mod_pow2_bits_high b 8 k) by lia; apply andb_false_r ]).
Qed.

(** The value of a byte string in base 256. *)
Definition be_val (l : list Z) : Z := fold_left (fun a b => a * 256 + b) l 0.

Lemma be_val_from a l :
  fold_left (fun a b => a * 256 + b) l a = a * 256 ^ zlen l + be_val l.
Proof.
  unfold be_val. revert a. induction l as [|b l IH]; intros a; cbn [fold_left].
  - unfold zlen. simpl. lia.
  - rewrite IH, (IH (0 * 256 + b)). unfold zlen. simpl length.
    rewrite Nat2Z.inj_succ, Z.pow_succ_r by lia. ring.
Qed.

Lemma be_val_cons b l : be_val (b :: l) = b * 256 ^ zlen l + be_val l.
Proof. unfold be_val at 1. cbn [fold_left]. by rewrite be_val_from. Qed.

Lemma be_val_range l : Forall byte_ok l -> 0 <= be_val l < 256 ^ zlen l.
Proof.
  induction 1 as [|b l Hb _ IH]; [done|].
  rewrite be_val_cons. unfold zlen in *. simpl length.
  rewrite Nat2Z.inj_succ, Z.pow_succ_r by lia. unfold byte_ok, is_u8 in Hb. nia.
Qed.

Lemma read_loop_val w l : forall i ret rest,
  Forall byte_ok l -> 8 * zlen l <= w -> i = length l ->
  0 <= ret -> ret * 256 ^ zlen l + be_val l < 2 ^ w ->
  read_loop w i ret (l ++ rest) = ret * 256 ^ zlen l + be_val l.
Proof.
  induction l as [|b l IH]; intros i ret rest Hl Hw -> Hr Hlt.
  - unfold zlen, be_val in *. cbn in *. lia.
  - inversion Hl as [|?? Hb Hl']; subst. simpl.
    rewrite be_val_cons in *. unfold zlen in *. simpl length in *.
    rewrite Nat2Z.inj_succ, Z.pow_succ_r in * by lia.
    pose proof (be_val_range l Hl') as Hbl. unfold zlen in Hbl.
    assert (0 < 256 ^ Z.of_nat (length l)) by (apply Z.pow_pos_nonneg; lia).
    rewrite Z.shiftl_mul_pow2 by lia. change (2 ^ 8) with 256.
    rewrite Z.mod_small by (unfold byte_ok, is_u8 in Hb; nia).
    rewrite lor_byte by done.
    rewrite IH; [ring | done | lia | done | unfold byte_ok, is_u8 in Hb; lia |].
    nia.
Qed.

(** Reading [n] bytes yields their base 256 value, whatever follows. *)
Lemma read_impl_val n l rest :
  Forall byte_ok l -> length l = n -> read_impl n (l ++ rest) = be_val l.
Proof.
  intros Hl <-. unfold read_impl.
  rewrite (read_loop_val _ l); [unfold zlen; lia | done | unfold zlen; lia | done | lia |].
  pose proof (be_val_range l Hl). rewrite Z.pow_mul_r by lia.
  change (2 ^ 8) with 256. unfold zlen in *. lia.
Qed.

Lemma be_val_write n v : be_val (write_impl n v) = v mod 256 ^ Z.of_nat n.
Proof.
  induction n as [|n IH]; [simpl; by rewrite Z.mod_1_r|].
  simpl write_impl. rewrite be_val_cons, IH, zlen_write_impl.
  rewrite Nat2Z.inj_succ, Z.pow_succ_r by lia.
  change 255 with (Z.ones 8). rewrite Z.land_ones by lia. change (2 ^ 8) with 256.
  rewrite Z.shiftr_div_pow2 by lia. rewrite (Z.mul_comm (Z.of_nat n)), Z.pow_mul_r by lia.
  change (2 ^ 8) with 256.
  assert (0 < 256 ^ Z.of_nat n) by (apply Z.pow_pos_nonneg; lia).
  rewrite (Z.mul_comm 256), Z.rem_mul_r by lia. lia.
Qed.

(** What [write_impl] wrote, [read_impl] reads back (modulo the width). *)
Lemma read_write n v rest :
  read_impl n (write_impl n v ++ rest) = v mod 256 ^ Z.of_nat n.
Proof.
  rewrite read_impl_val by (apply write_impl_bytes || apply write_impl_length).
  apply be_val_write.
Qed.

Lemma be_val_inj l1 l2 :
  Forall byte_ok l1 -> Forall byte_ok l2 -> length l1 = length l2 ->
  be_val l1 = be_val l2 -> l1 = l2.
Proof.
  intros H1. revert l2. induction H1 as [|b l Hb Hl IH]; intros [|b' l'] H2 Hlen E;
    try discriminate; [done|].
  inversion H2 as [|?? Hb' Hl']; subst. simpl in Hlen. injection Hlen as Hlen.
  rewrite !be_val_cons in E.
  assert (HL : zlen l = zlen l') by (unfold zlen; lia). rewrite HL in E.
  pose proof (be_val_range l Hl) as R1. pose proof (be_val_range l' Hl') as R2.
  rewrite HL in R1. assert (b = b') by nia. subst b'.
  f_equal. apply IH; [done | done | lia].
Qed.

(** Re-encoding what was read gives the same bytes back. *)
Lemma write_read l :
  Forall byte_ok l -> write_impl (length l) (read_impl (length l) l) = l.
Proof.
  intros Hl. apply be_val_inj; [apply write_impl_bytes | done | apply write_impl_length |].
  rewrite be_val_write. pose proof (read_impl_val (length l) l [] Hl eq_refl) as E.
  rewrite app_nil_r in E. rewrite E. apply Z.mod_small. by apply be_val_range.
Qed.

Lemma read_u32_write v rest : is_u32 v -> read_u32 (write_u32 v ++ rest) = v.
Proof. intros. unfold read_u32, write_u32. rewrite read_write. by apply Z.mod_small. Qed.
Lemma read_u16_write v rest : is_u16 v -> read_u16 (write_u16 v ++ rest) = v.
Proof. intros. unfold read_u16, write_u16. rewrite read_write. by apply Z.mod_small. Qed.
Lemma read_u64_write v rest : is_u64 v -> read_u64 (write_u64 v ++ rest) = v.
Proof. intros. unfold read_u64, write_u64. rewrite read_write. by apply Z.mod_small. Qed.
Lemma read_u8_write v rest : is_u8 v -> read_u8 (write_u8 v ++ rest) = v.
Proof. intros. unfold read_u8, write_u8. rewrite read_write. by apply Z.mod_small. Qed.

(** The value read by [read_impl] is in range of the type. *)
Lemma read_impl_range n l :
  Forall byte_ok l -> (n <= length l)%nat -> 0 <= read_impl n l < 256 ^ Z.of_nat n.
Proof.
  intros Hl Hn. rewrite <- (take_drop n l).
  assert (length (take n l) = n) by (rewrite length_take; lia).
  rewrite read_impl_val by (try apply Forall_take; done).
  pose proof (be_val_range (take n l) (Forall_take _ _ _ Hl)) as R.
  unfold zlen in R. by rewrite H in R.
Qed.

(** The copy loops terminate after [len] rounds, with [len] bytes copied. *)
Lemma copy_loop_spec fuel : forall idx len target src,
  0 <= idx <= len -> Z.to_nat (len - idx) = fuel ->
  len <= zlen target -> len <= zlen src ->
  copy_loop fuel idx len target src
  = (splice target idx (slice src idx (len - idx)), len).
Proof.
  induction fuel as [|f IH]; intros idx len target src Hi Hf Ht Hs; simpl.
  - assert (idx = len) by lia. subst. rewrite Z.sub_diag, slice_zero.
    unfold splice. simpl. by rewrite Nat.add_0_r, take_drop.
  - destruct (Z.ltb_spec idx len); [|lia].
    rewrite IH; [|lia|lia|unfold zlen in *; rewrite length_insert; lia|lia].
    f_equal. unfold zlen in *.
    destruct (lookup_lt_is_Some_2 src (Z.to_nat idx)) as [b Hb]; [lia|].
    rewrite Hb. simpl. unfold slice, splice.
    replace (Z.to_nat (len - idx)) with (S (Z.to_nat (len - (idx + 1)))) by lia.
    replace (Z.to_nat (idx + 1)) with (S (Z.to_nat idx)) by lia.
    rewrite (drop_S src b (Z.to_nat idx)) by done. simpl take.
    rewrite (take_S_r _ (Z.to_nat idx) b) by (rewrite list_lookup_insert_eq; [done|lia]).
    rewrite take_insert_ge by lia. rewrite <- app_assoc. simpl. do 3 f_equal.
    rewrite drop_insert_lt by lia. f_equal. lia.
Qed.
End bytes_helper.
