(* ===== verification/Ring.v ===== *)
(** * Ring: the two ring buffers

    - [Module bytes_ringbuffer]: [include/wawo/bytes_ringbuffer.hpp], the byte
      FIFO under every stream socket, under the TLP decoders and under the
      send and receive windows of WCP; it implements the interface
      [byte_queue] its clients are verified against.
    - [Module ringbuffer]: [include/wawo/ringbuffer.hpp], the generic ring of
      items; its tests for "full" and its count use the indices with the
      opposite roles of [push] and [pop]. *)

From S2P Require Import Prelude Bytes.

(** ** The interface of a bounded byte FIFO

    What the clients of a ring buffer rely on: an abstract content (the
    queued bytes, oldest first), a capacity, and the effect of [read] (move
    or peek) and [write] on the content. *)
Class byte_queue (Q : Type) := {
  bq_wf : Q -> Prop;
  bq_contents : Q -> list Z;
  bq_capacity : Q -> Z;
  bq_count : Q -> Z;
  bq_read : Q -> Z -> bool -> res (Q * list Z * Z);
  bq_write : Q -> list Z -> Z -> res (Q * Z);
  bq_bound q : bq_wf q -> 0 < bq_capacity q < 4294967296;
  bq_fits q : bq_wf q -> zlen (bq_contents q) <= bq_capacity q;
  bq_count_spec q : bq_wf q -> bq_count q = zlen (bq_contents q);
  bq_read_spec q s mv : bq_wf q -> is_u32 s ->
    exists q', bq_read q s mv = Ok (q', take (Z.to_nat s) (bq_contents q),
                                    Z.min s (zlen (bq_contents q)))
      /\ bq_wf q' /\ bq_capacity q' = bq_capacity q
      /\ bq_contents q' = if mv then drop (Z.to_nat s) (bq_contents q) else bq_contents q;
  bq_write_spec q bytes s : bq_wf q -> 0 < s -> is_u32 s -> s <= zlen bytes ->
    let n := Z.min s (bq_capacity q - zlen (bq_contents q)) in
    exists q', bq_write q bytes s = Ok (q', n)
      /\ bq_wf q' /\ bq_capacity q' = bq_capacity q
      /\ bq_contents q' = bq_contents q ++ take (Z.to_nat n) bytes
}.

(** The typed readers, for any byte queue: [read<T>()] with [sizeof(T) = n]
    bytes and [try_read<T>(t)]. *)
Section typed.
Context `{byte_queue Q}.

Definition read_T (n : nat) (q : Q) : res (Q * Z) :=
  _ ← wawo_assert (Z.of_nat n <=? bq_count q);
  '(q', tmp, rnbytes) ← bq_read q (Z.of_nat n) true;
  _ ← wawo_assert (rnbytes =? Z.of_nat n);
  Ok (q', bytes_helper.read_impl n tmp).

Definition try_read_T (n : nat) (q : Q) : res (Q * option Z) :=
  if bq_count q <? Z.of_nat n then Ok (q, None)
  else '(q', v) ← read_T n q; Ok (q', Some v).

Lemma try_read_T_spec n q :
  bq_wf q -> Forall byte_ok (bq_contents q) -> (n <= 8)%nat ->
  if zlen (bq_contents q) <? Z.of_nat n then try_read_T n q = Ok (q, None)
  else exists q', try_read_T n q
         = Ok (q', Some (bytes_helper.be_val (take n (bq_contents q))))
       /\ bq_wf q' /\ bq_capacity q' = bq_capacity q
       /\ bq_contents q' = drop n (bq_contents q).
Proof.
  intros W Hb Hn. unfold try_read_T, read_T. rewrite bq_count_spec by done.
  destruct (Z.ltb_spec (zlen (bq_contents q)) (Z.of_nat n)) as [Hlt|Hge]; [done|].
  rewrite (proj2 (Z.leb_le _ _)) by done. simpl.
  destruct (bq_read_spec q (Z.of_nat n) true W) as (q' & E & W' & C' & D'); [range_lia|].
  rewrite E. simpl. rewrite Z.min_l, Z.eqb_refl by done. simpl. rewrite Nat2Z.id in *.
  exists q'. split; [|auto]. do 3 f_equal.
  rewrite <- (app_nil_r (take n (bq_contents q))) at 1.
  apply bytes_helper.read_impl_val; [by apply Forall_take|].
  rewrite length_take. unfold zlen in Hge. lia.
Qed.
End typed.

Module bytes_ringbuffer.

Definition MAX_RING_BUFFER_SIZE : Z := 1024 * 1024 * 32.
Definition MIN_RING_BUFFER_SIZE : Z := 1024 * 2.

Record t := mk {
  m_capacity : Z; (* total capacity, one more than the usable bytes *)
  m_begin : Z;    (* read *)
  m_end : Z;      (* write *)
  m_buffer : list Z
}.

(** The constructor: [reset] allocates the block, [m_capacity] bytes. *)
Definition make `{memory} (capacity : Z) : res t :=
  let cap := capacity +₃₂ 1 in
  _ ← wawo_assert ((MIN_RING_BUFFER_SIZE <=? cap -₃₂ 1) && (cap -₃₂ 1 <=? MAX_RING_BUFFER_SIZE));
  Ok (mk cap 0 0 (malloc cap)).

Definition reset (r : t) : t := mk (m_capacity r) 0 0 (m_buffer r).

Definition is_empty (r : t) : bool := m_begin r =? m_end r.
Definition is_full (r : t) : bool := (m_end r +₃₂ 1) mod m_capacity r =? m_begin r.
Definition capacity (r : t) : Z := m_capacity r -₃₂ 1.
Definition count (r : t) : Z :=
  ((m_end r -₃₂ m_begin r) +₃₂ m_capacity r) mod m_capacity r.
Definition left_capacity (r : t) : Z := capacity r -₃₂ count r.

Definition skip (r : t) (s : Z) : res t :=
  _ ← wawo_assert ((0 <=? s) && (s <=? count r));
  let r' := mk (m_capacity r) ((m_begin r +₃₂ s) mod m_capacity r) (m_end r) (m_buffer r) in
  Ok (if is_empty r' then reset r' else r').

(** [read(target, s, move)]: the bytes copied to [target], their number, and
    the ring left behind. *)
Definition read (r : t) (s : Z) (move : bool) : res (t * list Z * Z) :=
  let avail_c := count r in
  if avail_c =? 0 then Ok (r, [], 0)
  else
    let copy_c := if s <? avail_c then s else avail_c in
    let bytes :=
      if m_begin r <? m_end r then slice (m_buffer r) (m_begin r) copy_c
      else
        let tail_c := m_capacity r -₃₂ m_begin r in
        if copy_c <=? tail_c then slice (m_buffer r) (m_begin r) copy_c
        else
          let head_c := copy_c -₃₂ tail_c in
          slice (m_buffer r) (m_begin r) tail_c ++ slice (m_buffer r) 0 head_c in
    r' ← (if move then skip r copy_c else Ok r);
    Ok (r', bytes, copy_c).

Definition peek (r : t) (size : Z) := read r size false.

Definition try_read (r : t) (size : Z) : res (t * option (list Z)) :=
  if size <=? count r then
    '(r', bytes, read_count) ← read r size true;
    _ ← wawo_assert (read_count =? size);
    Ok (r', Some bytes)
  else Ok (r, None).

Definition write (r : t) (bytes : list Z) (s : Z) : res (t * Z) :=
  _ ← wawo_assert (negb (s =? 0));
  let avail_s := left_capacity r in
  if avail_s =? 0 then Ok (r, 0)
  else
    let '(e, b) := if m_end r =? m_begin r then (0, 0) else (m_end r, m_begin r) in
    let to_write_c := if s <? avail_s then s else avail_s in
    if e <=? b then
      Ok (mk (m_capacity r) b ((e +₃₂ to_write_c) mod m_capacity r)
             (splice (m_buffer r) e (slice bytes 0 to_write_c)), to_write_c)
    else
      let tail_s := m_capacity r -₃₂ e in
      if to_write_c <=? tail_s then
        Ok (mk (m_capacity r) b ((e +₃₂ to_write_c) mod m_capacity r)
               (splice (m_buffer r) e (slice bytes 0 to_write_c)), to_write_c)
      else
        let buf1 := splice (m_buffer r) e (slice bytes 0 tail_s) in
        let e' := to_write_c -₃₂ tail_s in
        Ok (mk (m_capacity r) b e' (splice buf1 0 (slice bytes tail_s e')), to_write_c).

(** ** Invariant and abstract content *)

Record wf (r : t) : Prop := {
  wf_cap : 1 < m_capacity r <= MAX_RING_BUFFER_SIZE + 1;
  wf_begin : 0 <= m_begin r < m_capacity r;
  wf_end : 0 <= m_end r < m_capacity r;
  wf_buffer : zlen (m_buffer r) = m_capacity r
}.

Definition contents (r : t) : list Z :=
  if m_begin r <=? m_end r then slice (m_buffer r) (m_begin r) (m_end r - m_begin r)
  else slice (m_buffer r) (m_begin r) (m_capacity r - m_begin r)
       ++ slice (m_buffer r) 0 (m_end r).

Ltac ring_range := unfold MAX_RING_BUFFER_SIZE in *; range_lia.

(** The count without its modular arithmetic. *)
Lemma count_val r : wf r ->
  count r = if m_begin r <=? m_end r then m_end r - m_begin r
            else m_capacity r - m_begin r + m_end r.
Proof.
  intros [C B E _]. unfold count. rewrite u32_add_l.
  rewrite u32_small by ring_range.
  destruct (Z.leb_spec (m_begin r) (m_end r)).
  - replace (m_end r - m_begin r + m_capacity r)
      with (m_end r - m_begin r + 1 * m_capacity r) by lia.
    rewrite Z_mod_plus_full. apply Z.mod_small. lia.
  - rewrite Z.mod_small by lia. lia.
Qed.

Lemma zlen_contents r : wf r -> zlen (contents r) = count r.
Proof.
  intros W. rewrite count_val by done. destruct W as [C B E L]. unfold contents.
  destruct (Z.leb_spec (m_begin r) (m_end r)).
  - apply zlen_slice; lia.
  - rewrite zlen_app, !zlen_slice by lia. lia.
Qed.

Lemma count_range r : wf r -> 0 <= count r <= m_capacity r - 1.
Proof.
  intros W. rewrite count_val by done. destruct W as [C B E L].
  destruct (Z.leb_spec (m_begin r) (m_end r)); lia.
Qed.

Lemma capacity_val r : wf r -> capacity r = m_capacity r - 1.
Proof. intros [C _ _ _]. unfold capacity. apply u32_small. ring_range. Qed.

Lemma left_capacity_val r : wf r -> left_capacity r = m_capacity r - 1 - count r.
Proof.
  intros W. unfold left_capacity. rewrite capacity_val by done.
  pose proof (count_range r W). destruct W as [C _ _ _]. apply u32_small. ring_range.
Qed.

Lemma make_wf `{memory} capacity r :
  is_u32 capacity -> make capacity = Ok r ->
  wf r /\ contents r = [] /\ m_capacity r = capacity + 1.
Proof.
  unfold make. intros Hc H'. res_inv. apply andb_true_iff in Hr as [H1 H2].
  unfold MIN_RING_BUFFER_SIZE, MAX_RING_BUFFER_SIZE in *.
  apply Z.leb_le in H1, H2.
  rewrite u32_sub_l, Z.add_simpl_r, u32_small in * by done.
  rewrite u32_small by range_lia.
  split; [constructor; simpl; unfold MAX_RING_BUFFER_SIZE; try lia; apply malloc_size; lia
         | done].
Qed.

(** [skip] drops from the front of the queue. *)
Lemma skip_spec r s : wf r -> 0 <= s <= count r ->
  exists r', skip r s = Ok r' /\ wf r' /\ m_capacity r' = m_capacity r
    /\ contents r' = drop (Z.to_nat s) (contents r).
Proof.
  intros W Hs. pose proof (zlen_contents r W) as HL.
  assert (Hs' : 0 <= s < m_capacity r) by (pose proof (count_range r W); lia).
  unfold skip.
  rewrite (proj2 (andb_true_iff _ _)) by (split; apply Z.leb_le; lia). simpl.
  rewrite count_val in Hs, HL by done. destruct W as [C B E L].
  rewrite u32_small by ring_range.
  set (b' := (m_begin r + s) mod m_capacity r).
  assert (Hb' : 0 <= b' < m_capacity r) by (apply Z.mod_pos_bound; lia).
  eexists. split; [done|]. unfold is_empty. simpl.
  destruct (Z.eqb_spec b' (m_end r)) as [Ee|Ne]; simpl.
  - split; [constructor; simpl; lia|]. split; [done|].
    unfold contents at 1. simpl. symmetry. apply drop_ge.
    unfold zlen in HL. destruct (Z.leb_spec (m_begin r) (m_end r)).
    + assert (b' = m_begin r + s) by (apply Z.mod_small; lia). lia.
    + unfold b' in Ee. destruct (Z.lt_ge_cases (m_begin r + s) (m_capacity r)).
      * rewrite Z.mod_small in Ee by lia. lia.
      * rewrite mod_once in Ee by lia. lia.
  - split; [constructor; simpl; lia|]. split; [done|].
    unfold contents. simpl. destruct (Z.leb_spec (m_begin r) (m_end r)).
    + assert (b' = m_begin r + s) as -> by (apply Z.mod_small; lia).
      destruct (Z.leb_spec (m_begin r + s) (m_end r)); [|lia].
      rewrite drop_slice by lia. f_equal; lia.
    + destruct (Z.lt_ge_cases (m_begin r + s) (m_capacity r)).
      * assert (b' = m_begin r + s) as Hb by (apply Z.mod_small; lia). rewrite Hb.
        destruct (Z.leb_spec (m_begin r + s) (m_end r)); [lia|].
        rewrite drop_app_le by (pose proof (zlen_slice (m_buffer r) (m_begin r)
          (m_capacity r - m_begin r)); unfold zlen in *; lia).
        rewrite drop_slice by lia. do 2 f_equal; lia.
      * assert (b' = m_begin r + s - m_capacity r) as Hb
          by (apply mod_once; lia).
        rewrite Hb. destruct (Z.leb_spec (m_begin r + s - m_capacity r) (m_end r)); [|lia].
        pose proof (zlen_slice (m_buffer r) (m_begin r) (m_capacity r - m_begin r)) as Hz.
        rewrite drop_app_ge by (unfold zlen in *; lia).
        replace (Z.to_nat s - length (slice (m_buffer r) (m_begin r)
          (m_capacity r - m_begin r)))%nat with (Z.to_nat (s - (m_capacity r - m_begin r)))
          by (unfold zlen in *; lia).
        rewrite drop_slice by lia. f_equal; lia.
Qed.

(** What [read] copies out is the front of the queue. *)
Lemma read_bytes_val r copy_c : wf r -> 0 <= copy_c <= count r -> 0 < count r ->
  (if m_begin r <? m_end r then slice (m_buffer r) (m_begin r) copy_c
   else let tail_c := m_capacity r -₃₂ m_begin r in
        if copy_c <=? tail_c then slice (m_buffer r) (m_begin r) copy_c
        else slice (m_buffer r) (m_begin r) tail_c
             ++ slice (m_buffer r) 0 (copy_c -₃₂ tail_c))
  = take (Z.to_nat copy_c) (contents r).
Proof.
  intros W Hc Hn. rewrite count_val in * by done. destruct W as [C B E L]. unfold contents.
  destruct (Z.leb_spec (m_begin r) (m_end r)) as [Hle|Hgt].
  - destruct (Z.ltb_spec (m_begin r) (m_end r)); [|lia].
    rewrite take_slice by lia. f_equal. lia.
  - destruct (Z.ltb_spec (m_begin r) (m_end r)); [lia|]. simpl.
    rewrite (u32_small (m_capacity r - m_begin r)) by ring_range.
    pose proof (zlen_slice (m_buffer r) (m_begin r) (m_capacity r - m_begin r)) as Hz.
    destruct (Z.leb_spec copy_c (m_capacity r - m_begin r)).
    + rewrite take_app_le by (unfold zlen in *; lia).
      rewrite take_slice by lia. f_equal. lia.
    + rewrite u32_small by ring_range.
      rewrite take_app_ge by (unfold zlen in *; lia). f_equal.
      replace (Z.to_nat copy_c - _)%nat with (Z.to_nat (copy_c - (m_capacity r - m_begin r)))
        by (unfold zlen in *; lia).
      rewrite take_slice by lia. f_equal. lia.
Qed.

Lemma read_spec r s mv : wf r -> is_u32 s ->
  exists r', read r s mv = Ok (r', take (Z.to_nat s) (contents r), Z.min s (zlen (contents r)))
    /\ wf r' /\ m_capacity r' = m_capacity r
    /\ contents r' = if mv then drop (Z.to_nat s) (contents r) else contents r.
Proof.
  intros W Hs. pose proof (zlen_contents r W) as HL. pose proof (count_range r W) as HR.
  unfold read. destruct (Z.eqb_spec (count r) 0) as [E|E].
  - exists r. rewrite E in HL. assert (contents r = []) as ->.
    { destruct (contents r); [done | unfold zlen in HL; simpl in HL; lia]. }
    rewrite take_nil, drop_nil. unfold zlen. simpl. rewrite Z.min_r by range_lia.
    split; [done|]. split; [done|]. split; [done|]. by destruct mv.
  - set (copy_c := if s <? count r then s else count r).
    assert (Hcopy : copy_c = Z.min s (count r)).
    { unfold copy_c. destruct (Z.ltb_spec s (count r)); lia. }
    cbv zeta. rewrite read_bytes_val by (try done; range_lia).
    assert (Ht : take (Z.to_nat copy_c) (contents r) = take (Z.to_nat s) (contents r)).
    { rewrite Hcopy. destruct (Z.le_ge_cases s (count r)).
      - by rewrite Z.min_l by lia.
      - rewrite !take_ge; [done | unfold zlen in HL; lia..]. }
    assert (Hd : drop (Z.to_nat copy_c) (contents r) = drop (Z.to_nat s) (contents r)).
    { rewrite Hcopy. destruct (Z.le_ge_cases s (count r)).
      - by rewrite Z.min_l by lia.
      - rewrite !drop_ge; [done | unfold zlen in HL; lia..]. }
    rewrite Ht, HL, <- Hcopy. destruct mv.
    + destruct (skip_spec r copy_c W ltac:(range_lia)) as (r' & -> & W' & C' & D').
      exists r'. simpl. rewrite D'. auto.
    + exists r. simpl. auto.
Qed.

(** The write cursor in the gap before the read cursor. *)
Lemma contents_write_gap c b e buf src :
  wf (mk c b e buf) -> e < b -> e + zlen src < b ->
  contents (mk c b (e + zlen src) (splice buf e src)) = contents (mk c b e buf) ++ src.
Proof.
  intros [C B E L] Heb Hn. simpl in *. unfold contents. simpl.
  pose proof (zlen_nonneg src).
  destruct (Z.leb_spec b (e + zlen src)); [lia|]. destruct (Z.leb_spec b e); [lia|].
  rewrite slice_splice_after by lia. rewrite <- app_assoc. f_equal.
  rewrite <- (slice_app _ 0 e (zlen src)) by lia.
  rewrite slice_splice_before, Z.add_0_l, slice_splice by lia. done.
Qed.

(** The write cursor after the read cursor, no wrap. *)
Lemma contents_write_tail c b e buf src :
  wf (mk c b e buf) -> b <= e -> e + zlen src < c ->
  contents (mk c b (e + zlen src) (splice buf e src)) = contents (mk c b e buf) ++ src.
Proof.
  intros [C B E L] Heb Hn. simpl in *. unfold contents. simpl.
  pose proof (zlen_nonneg src).
  destruct (Z.leb_spec b (e + zlen src)); [|lia]. destruct (Z.leb_spec b e); [|lia].
  replace (e + zlen src - b) with ((e - b) + zlen src) by lia.
  rewrite <- slice_app by lia. rewrite slice_splice_before by lia. f_equal.
  replace (b + (e - b)) with e by lia. apply slice_splice; lia.
Qed.

(** ... and with a wrap: [src1] fills the tail, [src2] starts at 0. *)
Lemma contents_write_wrap c b e buf src1 src2 :
  wf (mk c b e buf) -> b < e -> e + zlen src1 = c -> zlen src2 < b ->
  contents (mk c b (zlen src2) (splice (splice buf e src1) 0 src2))
  = contents (mk c b e buf) ++ src1 ++ src2.
Proof.
  intros [C B E L] Heb Hc Hn. simpl in *. unfold contents. simpl.
  pose proof (zlen_nonneg src1). pose proof (zlen_nonneg src2).
  destruct (Z.leb_spec b (zlen src2)); [lia|]. destruct (Z.leb_spec b e); [|lia].
  rewrite slice_splice by (rewrite ?zlen_splice; lia).
  rewrite slice_splice_after by (rewrite ?zlen_splice; lia).
  replace (c - b) with ((e - b) + zlen src1) by lia.
  rewrite <- slice_app by lia. rewrite slice_splice_before by lia.
  replace (b + (e - b)) with e by lia. rewrite slice_splice by lia. by rewrite app_assoc.
Qed.

Lemma contents_empty c b e buf : b = e -> contents (mk c b e buf) = [].
Proof.
  intros ->. unfold contents. simpl. rewrite Z.leb_refl, Z.sub_diag. apply slice_zero.
Qed.

Lemma slice_take (l : list Z) n : slice l 0 n = take (Z.to_nat n) l.
Proof. done. Qed.

(** Bytes put behind the stored ones, the cursor going back to 0 at the end of
    the array. *)
Lemma put_tail c b e buf src :
  wf (mk c b e buf) -> b <= e -> e + zlen src <= c -> 0 < b < e \/ e + zlen src < c ->
  let r' := mk c b ((e + zlen src) mod c) (splice buf e src) in
  wf r' /\ m_capacity r' = c /\ contents r' = contents (mk c b e buf) ++ src.
Proof.
  intros W Hbe He Hr. pose proof W as [C B E L]. simpl in *. pose proof (zlen_nonneg src).
  destruct (Z.eq_dec (e + zlen src) c) as [Ec|Nc].
  - rewrite Ec, Z_mod_same_full.
    split; [constructor; simpl; rewrite ?zlen_splice by lia; lia|]. split; [done|].
    assert (Hnil : zlen (@nil Z) = 0) by done.
    pose proof (contents_write_wrap c b e buf src [] W) as HC.
    rewrite Hnil, app_nil_r in HC. by rewrite <- HC by lia.
  - rewrite Z.mod_small by lia.
    split; [constructor; simpl; rewrite ?zlen_splice by lia; lia|]. split; [done|].
    apply contents_write_tail; [done | lia..].
Qed.

(** [write] appends as much as fits. *)
Lemma write_spec r bytes s : wf r -> 0 < s -> is_u32 s -> s <= zlen bytes ->
  let n := Z.min s (m_capacity r - 1 - count r) in
  exists r', write r bytes s = Ok (r', n) /\ wf r' /\ m_capacity r' = m_capacity r
    /\ contents r' = contents r ++ take (Z.to_nat n) bytes.
Proof.
  intros W Hs0 Hs Hb n. unfold write. rewrite (proj2 (Z.eqb_neq s 0)) by lia. simpl.
  rewrite left_capacity_val by done. pose proof (count_range r W) as HR.
  destruct (Z.eqb_spec (m_capacity r - 1 - count r) 0) as [E0|N0].
  { exists r. unfold n. rewrite Z.min_r by lia. rewrite E0. simpl. rewrite app_nil_r. auto. }
  assert (Hn : (if s <? m_capacity r - 1 - count r then s else m_capacity r - 1 - count r) = n).
  { unfold n. destruct (Z.ltb_spec s (m_capacity r - 1 - count r)); lia. }
  rewrite Hn. assert (Hn1 : 0 < n <= s) by (unfold n; lia).
  assert (Hn2 : n <= m_capacity r - 1 - count r) by (unfold n; lia). clear Hn E0 || clear Hn.
  rewrite count_val in Hn2 by done. destruct r as [c b e buf].
  assert (Hz : zlen (slice bytes 0 n) = n) by (apply zlen_slice; lia).
  rewrite <- (slice_take bytes n). pose proof W as [C B E L]. simpl in *.
  destruct (Z.eqb_spec e b) as [->|Neb].
  - (* empty: both cursors restart at 0 *)
    rewrite Z.leb_refl, Z.sub_diag in Hn2. cbn [Z.leb Z.compare].
    rewrite Z.add_0_l, u32_small by ring_range. rewrite Z.mod_small by lia.
    eexists. split; [done|]. rewrite (contents_empty c b b) by done.
    assert (W0 : wf (mk c 0 0 buf)) by (constructor; simpl; lia).
    pose proof (put_tail c 0 0 buf (slice bytes 0 n) W0) as HC.
    rewrite Hz, (contents_empty c 0 0), Z.add_0_l, Z.mod_small in HC by (done || lia).
    apply HC; lia.
  - destruct (Z.leb_spec e b) as [Hle|Hgt].
    + destruct (Z.leb_spec b e); [lia|]. rewrite u32_small by ring_range.
      rewrite Z.mod_small by lia. eexists. split; [done|].
      split; [constructor; simpl; rewrite ?zlen_splice by lia; lia|]. split; [done|].
      pose proof (contents_write_gap c b e buf (slice bytes 0 n) W) as HC.
      rewrite Hz in HC. apply HC; lia.
    + destruct (Z.leb_spec b e); [|lia]. rewrite (u32_small (c - e)) by ring_range.
      destruct (Z.leb_spec n (c - e)) as [Ht|Ht].
      * rewrite u32_small by ring_range. eexists. split; [done|].
        pose proof (put_tail c b e buf (slice bytes 0 n) W) as HC.
        rewrite Hz in HC. apply HC; lia.
      * rewrite u32_small by ring_range. eexists. split; [done|].
        assert (Hz1 : zlen (slice bytes 0 (c - e)) = c - e) by (apply zlen_slice; lia).
        assert (Hz2 : zlen (slice bytes (c - e) (n - (c - e))) = n - (c - e))
          by (apply zlen_slice; lia).
        pose proof (contents_write_wrap c b e buf (slice bytes 0 (c - e))
          (slice bytes (c - e) (n - (c - e))) W) as HC.
        rewrite Hz2 in HC.
        split; [constructor; simpl; rewrite ?zlen_splice; rewrite ?zlen_splice; lia|].
        split; [done|]. rewrite HC by lia. f_equal.
        rewrite (slice_app bytes 0) by lia. f_equal. lia.
Qed.

(** The ring implements the byte queue. *)
#[global] Program Instance ring_byte_queue : byte_queue t := {|
  bq_wf := wf;
  bq_contents := contents;
  bq_capacity := capacity;
  bq_count := count;
  bq_read := read;
  bq_write := write
|}.
Next Obligation. intros r W. rewrite capacity_val by done. destruct W. ring_range. Qed.
Next Obligation.
  intros r W. rewrite capacity_val, zlen_contents by done. apply count_range in W. lia.
Qed.
Next Obligation. intros r W. by rewrite zlen_contents. Qed.
Next Obligation.
  intros r s mv W Hs. destruct (read_spec r s mv W Hs) as (r' & E & W' & C' & D').
  exists r'. split; [done|]. split; [done|]. split; [|done].
  rewrite !capacity_val by done. lia.
Qed.
Next Obligation.
  intros r bytes s W Hs0 Hs Hb n.
  destruct (write_spec r bytes s W Hs0 Hs Hb) as (r' & E & W' & C' & D').
  exists r'. subst n. rewrite !capacity_val, zlen_contents by done.
  split; [done|]. split; [done|]. split; [lia | done].
Qed.
End bytes_ringbuffer.

(** ** Refinement: a ring is a bounded FIFO

    A session of reads, peeks and writes on a ring, and the same session on
    the specification: a list of bytes with a capacity. *)
Module fifo.

Inductive op :=
| Write (bytes : list Z)
| Read (s : Z)
| Peek (s : Z).

(** What the caller sees of an operation: the count and the bytes. *)
Inductive answer :=
| Wrote (n : Z)
| Got (bytes : list Z) (n : Z).

Definition step `{byte_queue Q} (q : Q) (o : op) : res (Q * answer) :=
  match o with
  | Write bytes => '(q', n) ← bq_write q bytes (zlen bytes); Ok (q', Wrote n)
  | Read s => '(q', bytes, n) ← bq_read q s true; Ok (q', Got bytes n)
  | Peek s => '(q', bytes, n) ← bq_read q s false; Ok (q', Got bytes n)
  end.

Fixpoint run `{byte_queue Q} (q : Q) (os : list op) : res (Q * list answer) :=
  match os with
  | [] => Ok (q, [])
  | o :: os' => '(q', a) ← step q o; '(q'', l) ← run q' os'; Ok (q'', a :: l)
  end.

Definition spec_step (cap : Z) (l : list Z) (o : op) : list Z * answer :=
  match o with
  | Write bytes =>
      let n := Z.min (zlen bytes) (cap - zlen l) in (l ++ take (Z.to_nat n) bytes, Wrote n)
  | Read s => (drop (Z.to_nat s) l, Got (take (Z.to_nat s) l) (Z.min s (zlen l)))
  | Peek s => (l, Got (take (Z.to_nat s) l) (Z.min s (zlen l)))
  end.

Fixpoint spec_run (cap : Z) (l : list Z) (os : list op) : list Z * list answer :=
  match os with
  | [] => (l, [])
  | o :: os' => let '(l', a) := spec_step cap l o in
                let '(l'', r) := spec_run cap l' os' in (l'', a :: r)
  end.

(** The requests the code accepts: no empty write (it asserts), sizes of 32
    bits. *)
Definition op_ok (o : op) : Prop :=
  match o with
  | Write bytes => 0 < zlen bytes /\ is_u32 (zlen bytes)
  | Read s | Peek s => is_u32 s
  end.

Section refine.
Context `{byte_queue Q}.

Lemma step_refines q o : bq_wf q -> op_ok o ->
  exists q', step q o = Ok (q', (spec_step (bq_capacity q) (bq_contents q) o).2)
    /\ bq_wf q' /\ bq_capacity q' = bq_capacity q
    /\ bq_contents q' = (spec_step (bq_capacity q) (bq_contents q) o).1.
Proof.
  intros W. destruct o as [bytes|s|s]; simpl; [intros [H0 H1]|intros H1..].
  - destruct (bq_write_spec q bytes (zlen bytes) W H0 H1) as (q' & E & H'); [lia|].
    exists q'. by rewrite E.
  - destruct (bq_read_spec q s true W H1) as (q' & E & H'). exists q'. by rewrite E.
  - destruct (bq_read_spec q s false W H1) as (q' & E & H'). exists q'. by rewrite E.
Qed.

Lemma run_refines os : forall q, bq_wf q -> Forall op_ok os ->
  exists q', run q os = Ok (q', (spec_run (bq_capacity q) (bq_contents q) os).2)
    /\ bq_wf q' /\ bq_contents q' = (spec_run (bq_capacity q) (bq_contents q) os).1.
Proof.
  induction os as [|o os IH]; intros q W Hos; simpl; [eauto|].
  inversion Hos as [|?? Ho Hos']; subst.
  destruct (step_refines q o W Ho) as (q1 & -> & W1 & C1 & D1). simpl.
  destruct (spec_step _ _ o) as [l1 a1]. simpl in *.
  destruct (IH q1 W1 Hos') as (q' & -> & W' & D'). rewrite C1, D1 in *. simpl.
  destruct (spec_run _ _ os). simpl in *. eauto.
Qed.
End refine.
End fifo.

(** C28: Every session of writes, reads and peeks on a well-formed
    [bytes_ringbuffer], wherever its cursors are in the block, gives the
    caller exactly the bytes and counts a bounded FIFO queue gives, ends with
    the content of that queue, and never trips an assertion. *)
Theorem ring_refines_fifo r os :
  bytes_ringbuffer.wf r -> Forall fifo.op_ok os ->
  exists r', fifo.run r os
      = Ok (r', (fifo.spec_run (bytes_ringbuffer.capacity r) (bytes_ringbuffer.contents r) os).2)
    /\ bytes_ringbuffer.wf r'
    /\ bytes_ringbuffer.contents r'
       = (fifo.spec_run (bytes_ringbuffer.capacity r) (bytes_ringbuffer.contents r) os).1.
Proof. apply (@fifo.run_refines _ bytes_ringbuffer.ring_byte_queue os r). Qed.

Lemma ring_refines_fifo_witness :
  let r := bytes_ringbuffer.mk 5 3 3 [0; 0; 0; 0; 0] in
  let os := [fifo.Write [1; 2; 3]; fifo.Read 1; fifo.Write [4; 5; 6]; fifo.Peek 9] in
  exists r', fifo.run r os
      = Ok (r', [fifo.Wrote 3; fifo.Got [1] 1; fifo.Wrote 2; fifo.Got [2; 3; 4; 5] 4])
    /\ bytes_ringbuffer.wf r' /\ bytes_ringbuffer.contents r' = [2; 3; 4; 5].
Proof.
  intros r os. apply (ring_refines_fifo r os).
  - constructor; vm_compute; intuition discriminate.
  - repeat constructor; vm_compute; intuition discriminate.
Defined.

(** ** The generic ring

    [m_begin] is the index [push] writes at and [m_end] the one [pop] reads
    at, but [is_full] and [Count] are written for the opposite roles.  [push]
    stores through [*(m_buffer[i])]: the list holds the object each slot
    refers to. *)
Module ringbuffer.
Section item.
Context {A : Type}.

Record t := mk { m_buffer : list A; m_space : Z; m_begin : Z; m_end : Z }.

Definition make (space : Z) (fresh : list A) : res t :=
  _ ← wawo_assert (0 <? space);
  Ok (mk fresh (space +₃₂ 1) 0 0).

Definition capacity (r : t) : Z := m_space r -₃₂ 1.
Definition Count (r : t) : Z := ((m_end r -₃₂ m_begin r) +₃₂ m_space r) mod m_space r.
Definition left_capacity (r : t) : Z := capacity r -₃₂ Count r.
Definition is_empty (r : t) : bool := m_begin r =? m_end r.
Definition is_full (r : t) : bool := (m_end r +₃₂ 1) mod m_space r =? m_begin r.

Definition push (r : t) (item : A) : t * bool :=
  if is_full r then (r, false)
  else (mk (<[Z.to_nat (m_begin r) := item]> (m_buffer r)) (m_space r)
           ((m_begin r +₃₂ 1) mod m_space r) (m_end r), true).

Definition pop (r : t) : t * option A :=
  if is_empty r then (r, None)
  else (mk (m_buffer r) (m_space r) (m_begin r) ((m_end r +₃₂ 1) mod m_space r),
        m_buffer r !! Z.to_nat (m_end r)).

Record wf (r : t) : Prop := {
  wf_space : 1 < m_space r < 4294967296;
  wf_len : zlen (m_buffer r) = m_space r;
  wf_b : 0 <= m_begin r < m_space r;
  wf_e : 0 <= m_end r < m_space r;
}.

Lemma step_range r k : wf r -> 0 <= k < m_space r -> 0 <= (k +₃₂ 1) mod m_space r < m_space r.
Proof. intros [S _ _ _] Hk. apply Z.mod_pos_bound. lia. Qed.

Lemma push_wf r x : wf r -> wf (push r x).1.
Proof.
  intros W. unfold push. destruct (is_full r); [done|].
  destruct W as [S L B E] eqn:HW. constructor; simpl; try done.
  - unfold zlen in *. by rewrite length_insert.
  - by apply step_range.
Qed.

Lemma pop_wf r : wf r -> wf (pop r).1.
Proof.
  intros W. unfold pop. destruct (is_empty r); [done|].
  destruct W as [S L B E] eqn:HW. constructor; simpl; try done. by apply step_range.
Qed.

(** A generic ring holds at most one item, whatever its capacity: as soon
    as one item was pushed into an empty ring the ring tests as full, so the
    next [push] is refused, although [capacity] reports [space] places. *)
Theorem push_fills (r : t) (x y : A) :
  wf r -> is_empty r = true ->
  (push r x).2 = true /\ is_full (push r x).1 = true /\ (push (push r x).1 y).2 = false
  /\ pop (push r x).1 = (mk (<[Z.to_nat (m_begin r) := x]> (m_buffer r)) (m_space r)
       ((m_begin r +₃₂ 1) mod m_space r) ((m_begin r +₃₂ 1) mod m_space r), Some x).
Proof.
  intros [S L B E] He. unfold is_empty in He. apply Z.eqb_eq in He.
  assert (Hne : m_begin r <> (m_begin r +₃₂ 1) mod m_space r).
  { rewrite u32_small by range_lia. destruct (Z.eq_dec (m_begin r + 1) (m_space r)) as [Ew|].
    - rewrite Ew, Z_mod_same_full. lia.
    - rewrite Z.mod_small by lia. lia. }
  assert (Hnf : is_full r = false).
  { unfold is_full. rewrite <- He. apply Z.eqb_neq. congruence. }
  assert (Hf : is_full (push r x).1 = true).
  { unfold push. rewrite Hnf. unfold is_full. simpl. rewrite <- He. apply Z.eqb_refl. }
  split; [unfold push; by rewrite Hnf|]. split; [done|].
  split; [unfold push at 1; by rewrite Hf|].
  unfold push. rewrite Hnf. unfold pop, is_empty. simpl.
  rewrite <- He, (proj2 (Z.eqb_neq _ _)) by congruence.
  f_equal. apply list_lookup_insert_eq. unfold zlen in L. lia.
Qed.
End item.
Arguments t : clear implicits.
End ringbuffer.

Lemma push_fills_witness :
  let r := ringbuffer.mk [0; 0; 0; 0; 0] 5 4 4 in
  (ringbuffer.push r 7).2 = true /\ (ringbuffer.push (ringbuffer.push r 7).1 8).2 = false.
Proof.
  intros r.
  destruct (ringbuffer.push_fills r 7 8) as (H1 & _ & H2 & _);
    [constructor; simpl; unfold zlen; simpl; lia | reflexivity | split; assumption].
Defined.
