(* ===== verification/Packet.v ===== *)
(** * Packet: [include/wawo/packet.hpp]

    A packet is a malloc'ed block with free room on both sides of its data:
    [write] appends on the right, [write_left] prepends a header on the left,
    [read] and [skip] consume from the left.  Both sides grow by fixed
    increments up to a limit past which [WAWO_CONDITION_CHECK] throws. *)

From S2P Require Import Prelude Bytes.

Module packet.

Definition MIN_LEFT_CAPACITY : Z := 128.
Definition MAX_LEFT_CAPACITY : Z := 1024 * 1024 * 16.
Definition MIN_RIGHT_CAPACITY : Z := 256.
Definition MAX_RIGHT_CAPACITY : Z := 1024 * 1024 * 16.
Definition INIT_LEFT_CAPACITY : Z := 128.
Definition INIT_RIGHT_CAPACITY : Z := (1024 * 4 - 128) - 128.
Definition INCREMENT_LEFT_SIZE : Z := 1024 * 8 - 128.
Definition INCREMENT_RIGHT_SIZE : Z := 1024 * 8 - 128.

Record t := mk {
  m_buffer : list Z;
  m_left_capacity : Z;
  m_read_idx : Z;
  m_right_capacity : Z;
  m_write_idx : Z
}.

Definition _capacity (p : t) : Z := m_left_capacity p +₃₂ m_right_capacity p.

Definition reset (p : t) : res t :=
  _ ← wawo_assert (0 <? m_left_capacity p);
  _ ← wawo_assert (m_left_capacity p <? MAX_LEFT_CAPACITY);
  Ok (mk (m_buffer p) (m_left_capacity p) (m_left_capacity p)
         (m_right_capacity p) (m_left_capacity p)).

Definition len (p : t) : res Z :=
  _ ← wawo_assert (m_read_idx p <=? m_write_idx p);
  Ok (m_write_idx p -₃₂ m_read_idx p).

Definition left_left_capacity (p : t) : Z := m_read_idx p.
Definition left_right_capacity (p : t) : Z := _capacity p -₃₂ m_write_idx p.

(** The bytes between [begin()] and [end()]. *)
Definition data (p : t) : list Z :=
  slice (m_buffer p) (m_read_idx p) (m_write_idx p - m_read_idx p).

Definition swap (p other : t) : t * t := (other, p).

Section alloc.
Context `{memory}.

Definition _init_buffer (p : t) (left right : Z) : res t :=
  let l := if MIN_LEFT_CAPACITY <? left then left else MIN_LEFT_CAPACITY in
  let r := if MIN_RIGHT_CAPACITY <? right then right else MIN_RIGHT_CAPACITY in
  p1 ← reset (mk (m_buffer p) l (m_read_idx p) r (m_write_idx p));
  _ ← condition_check (l <=? MAX_LEFT_CAPACITY);
  _ ← condition_check (r <=? MAX_RIGHT_CAPACITY);
  _ ← condition_check (negb (_capacity p1 =? 0));
  Ok (mk (malloc (_capacity p1)) l (m_read_idx p1) r (m_write_idx p1)).

(** [packet(right_capacity, left_capacity)]. *)
Definition make (right_capacity left_capacity : Z) : res t :=
  _init_buffer (mk [] left_capacity 0 right_capacity 0) left_capacity right_capacity.

(** [packet(right_capacity)] with the default left capacity. *)
Definition make_right (right_capacity : Z) : res t := make right_capacity INIT_LEFT_CAPACITY.

(** The copy constructor copies the whole block. *)
Definition copy (c : t) : t :=
  if _capacity c =? 0 then mk [] (m_left_capacity c) (m_read_idx c) (m_right_capacity c) (m_write_idx c)
  else mk (splice (malloc (_capacity c)) 0 (slice (m_buffer c) 0 (_capacity c)))
          (m_left_capacity c) (m_read_idx c) (m_right_capacity c) (m_write_idx c).

Definition assign (p other : t) : t := (swap (copy other) p).2.

(** [realloc] keeps the old bytes; the new ones are unspecified. *)
Definition realloc (buf : list Z) (n : Z) : list Z :=
  slice buf 0 n ++ malloc (n - zlen buf).

Definition _extend_leftbuffer_capacity__ (p : t) : res t :=
  _ ← condition_check (m_left_capacity p +₃₂ INCREMENT_LEFT_SIZE <=? MAX_LEFT_CAPACITY);
  let p1 := mk (m_buffer p) (m_left_capacity p +₃₂ INCREMENT_LEFT_SIZE) (m_read_idx p)
               (m_right_capacity p) (m_write_idx p) in
  let buf := realloc (m_buffer p1) (_capacity p1) in
  _len ← len p1;
  let new_left := m_read_idx p1 +₃₂ INCREMENT_LEFT_SIZE in
  if negb (new_left =? m_read_idx p1) && (0 <? i32 _len) then
    Ok (mk (splice buf new_left (slice buf (m_read_idx p1) (i32 _len)))
           (m_left_capacity p1) new_left (m_right_capacity p1)
           (m_write_idx p1 +₃₂ INCREMENT_LEFT_SIZE))
  else Ok (mk buf (m_left_capacity p1) (m_read_idx p1) (m_right_capacity p1) (m_write_idx p1)).

Definition _extend_rightbuffer_capacity__ (p : t) : res t :=
  _ ← condition_check (negb (m_right_capacity p =? 0));
  _ ← condition_check (m_right_capacity p +₃₂ INCREMENT_RIGHT_SIZE <=? MAX_RIGHT_CAPACITY);
  let p1 := mk (m_buffer p) (m_left_capacity p) (m_read_idx p)
               (m_right_capacity p +₃₂ INCREMENT_RIGHT_SIZE) (m_write_idx p) in
  Ok (mk (realloc (m_buffer p1) (_capacity p1)) (m_left_capacity p1) (m_read_idx p1)
         (m_right_capacity p1) (m_write_idx p1)).

(** The loops [while (length > left_..._capacity()) extend]. *)
Fixpoint extend_left_loop (fuel : nat) (p : t) (length : Z) : res t :=
  match fuel with
  | O => Fault Diverged
  | S fuel' =>
      if left_left_capacity p <? length then
        p' ← _extend_leftbuffer_capacity__ p; extend_left_loop fuel' p' length
      else Ok p
  end.

Fixpoint extend_right_loop (fuel : nat) (p : t) (length : Z) : res t :=
  match fuel with
  | O => Fault Diverged
  | S fuel' =>
      if left_right_capacity p <? length then
        p' ← _extend_rightbuffer_capacity__ p; extend_right_loop fuel' p' length
      else Ok p
  end.

(** More rounds than the capacity limits allow (16 MiB / 8064). *)
Definition extend_fuel : nat := 2083.

Definition write_left (p : t) (buffer : list Z) : res t :=
  p1 ← extend_left_loop extend_fuel p (u32 (zlen buffer));
  let idx := m_read_idx p1 -₃₂ zlen buffer in
  Ok (mk (splice (m_buffer p1) idx buffer) (m_left_capacity p1) idx
         (m_right_capacity p1) (m_write_idx p1)).

(** [write_left<T>(t)] with [sizeof(T) = n]. *)
Definition write_left_T (n : nat) (p : t) (v : Z) : res t :=
  p1 ← extend_left_loop extend_fuel p (Z.of_nat n);
  let idx := m_read_idx p1 -₃₂ Z.of_nat n in
  Ok (mk (splice (m_buffer p1) idx (bytes_helper.write_impl n v)) (m_left_capacity p1) idx
         (m_right_capacity p1) (m_write_idx p1)).

Definition write (p : t) (buffer : list Z) : res t :=
  p1 ← extend_right_loop extend_fuel p (u32 (zlen buffer));
  Ok (mk (splice (m_buffer p1) (m_write_idx p1) buffer) (m_left_capacity p1) (m_read_idx p1)
         (m_right_capacity p1) (m_write_idx p1 +₃₂ zlen buffer)).

Definition write_T (n : nat) (p : t) (v : Z) : res t :=
  p1 ← extend_right_loop extend_fuel p (Z.of_nat n);
  let bytes := bytes_helper.write_impl n v in
  Ok (mk (splice (m_buffer p1) (m_write_idx p1) bytes) (m_left_capacity p1) (m_read_idx p1)
         (m_right_capacity p1) (m_write_idx p1 +₃₂ zlen bytes)).
End alloc.

Definition forward_write_index (p : t) (bytes : Z) : res t :=
  _ ← condition_check (bytes <=? _capacity p -₃₂ m_write_idx p);
  Ok (mk (m_buffer p) (m_left_capacity p) (m_read_idx p) (m_right_capacity p)
         (m_write_idx p +₃₂ bytes)).

(** A [memcpy] by the caller into [begin()], the write cursor of an empty
    packet (the decoders fill a packet this way before
    [forward_write_index]). *)
Definition store_at_begin (p : t) (bytes : list Z) : t :=
  mk (splice (m_buffer p) (m_read_idx p) bytes) (m_left_capacity p) (m_read_idx p)
     (m_right_capacity p) (m_write_idx p).

Definition with_read_idx (p : t) (i : Z) : t :=
  mk (m_buffer p) (m_left_capacity p) i (m_right_capacity p) (m_write_idx p).

Definition read_T (n : nat) (p : t) : res (t * Z) :=
  l ← len p;
  _ ← wawo_assert (Z.of_nat n <=? l);
  Ok (with_read_idx p (m_read_idx p +₃₂ Z.of_nat n),
      bytes_helper.read_impl n (drop (Z.to_nat (m_read_idx p)) (m_buffer p))).

Definition read (p : t) (length : Z) : res (t * list Z * Z) :=
  l ← len p;
  _ ← wawo_assert ((length <=? l) && (0 <? length));
  Ok (with_read_idx p (m_read_idx p +₃₂ length),
      slice (m_buffer p) (m_read_idx p) length, length).

Definition skip (p : t) (length : Z) : res t :=
  l ← len p;
  _ ← wawo_assert (length <=? l);
  Ok (with_read_idx p (m_read_idx p +₃₂ length)).

Definition peek_T (n : nat) (p : t) : res Z :=
  l ← len p;
  _ ← wawo_assert (Z.of_nat n <=? l);
  Ok (bytes_helper.read_impl n (drop (Z.to_nat (m_read_idx p)) (m_buffer p))).

Definition peek (p : t) (size : Z) : res (list Z * Z) :=
  l ← len p;
  let can_peek_size := if l <=? size then l else size in
  Ok (slice (m_buffer p) (m_read_idx p) can_peek_size, can_peek_size).

(** ** Invariant *)

Record wf (p : t) : Prop := {
  wf_left : 0 < m_left_capacity p <= MAX_LEFT_CAPACITY;
  wf_right : 0 < m_right_capacity p <= MAX_RIGHT_CAPACITY;
  wf_read : 0 <= m_read_idx p <= m_write_idx p;
  wf_write : m_write_idx p <= m_left_capacity p + m_right_capacity p;
  wf_buffer : zlen (m_buffer p) = m_left_capacity p + m_right_capacity p
}.

Ltac pack_range :=
  unfold MAX_LEFT_CAPACITY, MAX_RIGHT_CAPACITY, INCREMENT_LEFT_SIZE,
    INCREMENT_RIGHT_SIZE, MIN_LEFT_CAPACITY, MIN_RIGHT_CAPACITY in *; range_lia.

Lemma pack_capacity_val p : wf p -> _capacity p = m_left_capacity p + m_right_capacity p.
Proof. intros [L R _ _ _]. unfold _capacity. apply u32_small. pack_range. Qed.

Lemma len_val p : wf p -> len p = Ok (zlen (data p)).
Proof.
  intros [L R I W B]. unfold len. rewrite (proj2 (Z.leb_le _ _)) by lia. simpl.
  rewrite u32_small by pack_range. unfold data. rewrite zlen_slice by lia. done.
Qed.

Lemma zlen_data p : wf p -> zlen (data p) = m_write_idx p - m_read_idx p.
Proof. intros [L R I W B]. unfold data. apply zlen_slice; lia. Qed.

Lemma left_right_val p :
  wf p -> left_right_capacity p = m_left_capacity p + m_right_capacity p - m_write_idx p.
Proof.
  intros Wf. unfold left_right_capacity. rewrite pack_capacity_val by done.
  destruct Wf. apply u32_small. pack_range.
Qed.

(** ** Consuming operations *)

Lemma drop_buffer_data p n :
  wf p -> (n <= length (data p))%nat ->
  exists rest, drop (Z.to_nat (m_read_idx p)) (m_buffer p) = take n (data p) ++ rest.
Proof.
  intros Wf Hn. pose proof (zlen_data p Wf) as HL. destruct Wf as [L R I W B].
  unfold data in *. unfold slice in *.
  exists (drop n (drop (Z.to_nat (m_read_idx p)) (m_buffer p))).
  rewrite take_take, Nat.min_l by (unfold zlen in HL; lia). by rewrite take_drop.
Qed.

Lemma with_read_wf p k :
  wf p -> 0 <= k <= zlen (data p) ->
  wf (with_read_idx p (m_read_idx p +₃₂ k))
  /\ data (with_read_idx p (m_read_idx p +₃₂ k)) = drop (Z.to_nat k) (data p).
Proof.
  intros Wf Hk. rewrite zlen_data in Hk by done. destruct Wf as [L R I W B].
  rewrite u32_small by pack_range. split; [constructor; simpl; lia|].
  unfold data. simpl. rewrite drop_slice by lia. f_equal. lia.
Qed.

Lemma read_impl_buffer n p :
  wf p -> Forall byte_ok (data p) -> Z.of_nat n <= zlen (data p) ->
  bytes_helper.read_impl n (drop (Z.to_nat (m_read_idx p)) (m_buffer p))
  = bytes_helper.be_val (take n (data p)).
Proof.
  intros Wf Hb Hn. destruct (drop_buffer_data p n Wf) as [rest ->]; [unfold zlen in Hn; lia|].
  apply bytes_helper.read_impl_val; [by apply Forall_take|].
  rewrite length_take. unfold zlen in Hn. lia.
Qed.

(** Reading a [T] takes its bytes off the front. *)
Lemma read_T_spec n p :
  wf p -> Forall byte_ok (data p) -> Z.of_nat n <= zlen (data p) ->
  exists p', read_T n p = Ok (p', bytes_helper.be_val (take n (data p)))
    /\ wf p' /\ data p' = drop n (data p).
Proof.
  intros Wf Hb Hn. unfold read_T. rewrite len_val by done. simpl.
  rewrite (proj2 (Z.leb_le _ _)) by done. simpl.
  rewrite read_impl_buffer by done.
  destruct (with_read_wf p (Z.of_nat n) Wf) as [W' D']; [lia|].
  rewrite Nat2Z.id in D'. eauto.
Qed.

Lemma pack_read_spec p k :
  wf p -> 0 < k <= zlen (data p) ->
  exists p', read p k = Ok (p', take (Z.to_nat k) (data p), k)
    /\ wf p' /\ data p' = drop (Z.to_nat k) (data p).
Proof.
  intros Wf Hk. unfold read. rewrite len_val by done. simpl.
  rewrite (proj2 (Z.leb_le _ _)), (proj2 (Z.ltb_lt _ _)) by lia. simpl.
  destruct (with_read_wf p k Wf) as [W' D']; [lia|].
  eexists. split; [|done]. do 3 f_equal.
  rewrite zlen_data in Hk by done. unfold data. rewrite take_slice by lia. f_equal. lia.
Qed.

Lemma pack_skip_spec p k :
  wf p -> 0 <= k <= zlen (data p) ->
  exists p', skip p k = Ok p' /\ wf p' /\ data p' = drop (Z.to_nat k) (data p).
Proof.
  intros Wf Hk. unfold skip. rewrite len_val by done. simpl.
  rewrite (proj2 (Z.leb_le _ _)) by lia. simpl.
  destruct (with_read_wf p k Wf) as [W' D']; [lia|]. eauto.
Qed.

Lemma peek_spec p size :
  wf p -> 0 <= size ->
  peek p size = Ok (take (Z.to_nat size) (data p), Z.min size (zlen (data p))).
Proof.
  intros Wf Hs. unfold peek. rewrite len_val by done. simpl.
  rewrite zlen_data by done. destruct Wf as [L R I W B].
  do 2 f_equal; [|destruct (Z.leb_spec (m_write_idx p - m_read_idx p) size); lia].
  unfold data. rewrite take_slice by lia. f_equal.
  destruct (Z.leb_spec (m_write_idx p - m_read_idx p) size); lia.
Qed.

(** ** Allocation and growth *)
Section alloc_spec.
Context `{memory}.

Lemma make_spec right left p :
  is_u32 right -> is_u32 left -> make right left = Ok p ->
  wf p /\ data p = [] /\ right <= m_right_capacity p /\ left <= m_left_capacity p
  /\ m_write_idx p = m_left_capacity p /\ m_read_idx p = m_left_capacity p.
Proof.
  unfold make, _init_buffer, reset. intros Hr Hl E. simpl in E. res_inv.
  set (l := if MIN_LEFT_CAPACITY <? left then left else MIN_LEFT_CAPACITY) in *.
  set (r' := if MIN_RIGHT_CAPACITY <? right then right else MIN_RIGHT_CAPACITY) in *.
  assert (left <= l /\ 128 <= l).
  { unfold l, MIN_LEFT_CAPACITY. destruct (Z.ltb_spec 128 left); lia. }
  assert (right <= r' /\ 256 <= r').
  { unfold r', MIN_RIGHT_CAPACITY. destruct (Z.ltb_spec 256 right); lia. }
  unfold _capacity in *. simpl in *. rewrite ?Z.leb_le, ?Z.ltb_lt in *.
  rewrite (u32_small (l + r')) in * by pack_range.
  split; [constructor; simpl; pack_range || (apply malloc_size; lia)|].
  split; [unfold data; simpl; rewrite Z.sub_diag; apply slice_zero|]. simpl. lia.
Qed.

(** A packet of a supported size can always be made. *)
Lemma make_ok right left :
  0 <= right <= MAX_RIGHT_CAPACITY -> 0 <= left < MAX_LEFT_CAPACITY ->
  exists p, make right left = Ok p.
Proof.
  intros Hr Hl. unfold make, _init_buffer, reset. simpl.
  set (l := if MIN_LEFT_CAPACITY <? left then left else MIN_LEFT_CAPACITY).
  set (r' := if MIN_RIGHT_CAPACITY <? right then right else MIN_RIGHT_CAPACITY).
  assert (128 <= l < MAX_LEFT_CAPACITY).
  { unfold l, MIN_LEFT_CAPACITY, MAX_LEFT_CAPACITY in *. destruct (Z.ltb_spec 128 left); lia. }
  assert (256 <= r' <= MAX_RIGHT_CAPACITY).
  { unfold r', MIN_RIGHT_CAPACITY, MAX_RIGHT_CAPACITY in *.
    destruct (Z.ltb_spec 256 right); lia. }
  rewrite (proj2 (Z.ltb_lt 0 l)), (proj2 (Z.ltb_lt l _)) by lia. simpl.
  rewrite !(proj2 (Z.leb_le _ _)) by lia. simpl.
  unfold _capacity. simpl. rewrite u32_small by pack_range.
  rewrite (proj2 (Z.eqb_neq _ _)) by lia. simpl. eauto.
Qed.

Lemma zlen_realloc buf n : zlen buf <= n -> zlen (realloc buf n) = n.
Proof.
  intros. unfold realloc. pose proof (zlen_nonneg buf).
  rewrite zlen_app, malloc_size by lia.
  unfold slice, zlen in *. rewrite drop_0, length_take. lia.
Qed.

Lemma slice_realloc buf n o k :
  zlen buf <= n -> 0 <= o -> 0 <= k -> o + k <= zlen buf ->
  slice (realloc buf n) o k = slice buf o k.
Proof.
  intros Hn Ho Hk Hb. unfold realloc.
  assert (slice buf 0 n = buf) as ->.
  { unfold slice, zlen in *. rewrite drop_0. apply take_ge. lia. }
  unfold slice, zlen in *. rewrite drop_app_le by lia.
  apply take_app_le. rewrite length_drop. lia.
Qed.

(** Growing to the right keeps the data and adds room. *)
Lemma extend_right_spec p :
  wf p -> m_right_capacity p + INCREMENT_RIGHT_SIZE <= MAX_RIGHT_CAPACITY ->
  exists p', _extend_rightbuffer_capacity__ p = Ok p' /\ wf p' /\ data p' = data p
    /\ m_read_idx p' = m_read_idx p /\ m_write_idx p' = m_write_idx p
    /\ m_left_capacity p' = m_left_capacity p
    /\ m_right_capacity p' = m_right_capacity p + INCREMENT_RIGHT_SIZE.
Proof.
  intros Wf Hr. unfold _extend_rightbuffer_capacity__. destruct Wf as [L R I W B].
  rewrite (proj2 (Z.eqb_neq _ _)) by lia. simpl.
  rewrite !(u32_small (m_right_capacity p + INCREMENT_RIGHT_SIZE)) by pack_range.
  rewrite (proj2 (Z.leb_le _ _)) by lia. simpl.
  eexists. split; [done|]. unfold _capacity. simpl. rewrite u32_small by pack_range.
  split; [|split; [|done]].
  - constructor; simpl; rewrite ?zlen_realloc by pack_range; pack_range.
  - unfold data. simpl. apply slice_realloc; pack_range.
Qed.

Lemma extend_right_throws p :
  wf p -> MAX_RIGHT_CAPACITY < m_right_capacity p + INCREMENT_RIGHT_SIZE ->
  _extend_rightbuffer_capacity__ p = Fault Thrown.
Proof.
  intros Wf Hr. unfold _extend_rightbuffer_capacity__. destruct Wf as [L R I W B].
  rewrite (proj2 (Z.eqb_neq _ _)) by lia. simpl.
  rewrite !(u32_small (m_right_capacity p + INCREMENT_RIGHT_SIZE)) by pack_range.
  by rewrite (proj2 (Z.leb_gt _ _)) by lia.
Qed.

(** The growth loop always ends: with room for [length] bytes, or by the
    capacity check. *)
Lemma extend_right_loop_spec fuel : forall p length,
  wf p -> MAX_RIGHT_CAPACITY - m_right_capacity p < Z.of_nat fuel * INCREMENT_RIGHT_SIZE ->
  (exists p', extend_right_loop fuel p length = Ok p' /\ wf p' /\ data p' = data p
     /\ m_read_idx p' = m_read_idx p /\ m_write_idx p' = m_write_idx p
     /\ m_left_capacity p' = m_left_capacity p
     /\ length <= left_right_capacity p')
  \/ (extend_right_loop fuel p length = Fault Thrown
      /\ MAX_RIGHT_CAPACITY
         < m_write_idx p - m_left_capacity p + length + INCREMENT_RIGHT_SIZE).
Proof.
  induction fuel as [|f IH]; intros p length Wf Hf.
  { exfalso. destruct Wf. lia. }
  cbn [extend_right_loop]. destruct (Z.ltb_spec (left_right_capacity p) length) as [Hlt|Hge];
    [|left; exists p; auto 10].
  rewrite left_right_val in Hlt by done.
  destruct (Z.le_gt_cases (m_right_capacity p + INCREMENT_RIGHT_SIZE) MAX_RIGHT_CAPACITY).
  - destruct (extend_right_spec p Wf) as (p1 & E & W1 & D1 & R1 & Wr1 & L1 & C1); [done|].
    rewrite E. simpl. destruct (IH p1 length W1) as [(p' & E' & H')|[E' H']]; [pack_range| |].
    + left. exists p'. rewrite <- D1, <- R1, <- Wr1, <- L1. auto.
    + right. rewrite <- Wr1, <- L1. auto.
  - right. rewrite extend_right_throws by done. split; [done|]. destruct Wf. pack_range.
Qed.

(** Growing to the left moves the data right, keeping it, when there is
    some; an empty packet keeps its read cursor. *)
Lemma extend_left_spec p :
  wf p -> m_left_capacity p + INCREMENT_LEFT_SIZE <= MAX_LEFT_CAPACITY ->
  let shift := if 0 <? zlen (data p) then INCREMENT_LEFT_SIZE else 0 in
  exists p', _extend_leftbuffer_capacity__ p = Ok p' /\ wf p' /\ data p' = data p
    /\ m_read_idx p' = m_read_idx p + shift /\ m_write_idx p' = m_write_idx p + shift
    /\ m_right_capacity p' = m_right_capacity p
    /\ m_left_capacity p' = m_left_capacity p + INCREMENT_LEFT_SIZE.
Proof.
  intros Wf Hl shift. unfold _extend_leftbuffer_capacity__. pose proof (zlen_data p Wf) as HD.
  destruct Wf as [L R I W B]. unfold len, _capacity. cbn [m_left_capacity m_read_idx m_write_idx
    m_right_capacity m_buffer].
  rewrite !(u32_small (m_left_capacity p + INCREMENT_LEFT_SIZE)) by pack_range.
  rewrite (proj2 (Z.leb_le (m_left_capacity p + _) _)) by lia.
  rewrite (proj2 (Z.leb_le (m_read_idx p) _)) by lia. simpl.
  rewrite (u32_small (m_write_idx p - m_read_idx p)) by pack_range.
  rewrite (u32_small (m_read_idx p + INCREMENT_LEFT_SIZE)) by pack_range.
  rewrite (u32_small (m_left_capacity p + INCREMENT_LEFT_SIZE + m_right_capacity p)) by pack_range.
  rewrite (proj2 (Z.eqb_neq _ _)) by (unfold INCREMENT_LEFT_SIZE; lia). simpl.
  assert (Hi : i32 (m_write_idx p - m_read_idx p) = m_write_idx p - m_read_idx p).
  { unfold i32. rewrite Z.mod_small by pack_range. lia. }
  rewrite Hi. subst shift. rewrite HD.
  set (buf := realloc _ _).
  assert (Hbuf : zlen buf = m_left_capacity p + INCREMENT_LEFT_SIZE + m_right_capacity p)
    by (apply zlen_realloc; pack_range).
  destruct (Z.ltb_spec 0 (m_write_idx p - m_read_idx p)); eexists; (split; [done|]).
  - rewrite (u32_small (m_write_idx p + INCREMENT_LEFT_SIZE)) by pack_range.
    assert (Hz : zlen (slice buf (m_read_idx p) (m_write_idx p - m_read_idx p))
      = m_write_idx p - m_read_idx p) by (apply zlen_slice; pack_range).
    split; [constructor; simpl; rewrite ?zlen_splice by pack_range; pack_range|].
    split; [|done]. unfold data. simpl.
    replace (m_write_idx p + INCREMENT_LEFT_SIZE - (m_read_idx p + INCREMENT_LEFT_SIZE))
      with (zlen (slice buf (m_read_idx p) (m_write_idx p - m_read_idx p))) by lia.
    rewrite slice_splice by pack_range. apply slice_realloc; pack_range.
  - rewrite !Z.add_0_r. split; [constructor; simpl; pack_range|].
    split; [|done]. unfold data. simpl. apply slice_realloc; pack_range.
Qed.

Lemma extend_left_throws p :
  wf p -> MAX_LEFT_CAPACITY < m_left_capacity p + INCREMENT_LEFT_SIZE ->
  _extend_leftbuffer_capacity__ p = Fault Thrown.
Proof.
  intros Wf Hr. unfold _extend_leftbuffer_capacity__. destruct Wf as [L R I W B].
  rewrite !(u32_small (m_left_capacity p + INCREMENT_LEFT_SIZE)) by pack_range.
  by rewrite (proj2 (Z.leb_gt _ _)) by lia.
Qed.

Lemma extend_left_loop_spec fuel : forall p length,
  wf p -> MAX_LEFT_CAPACITY - m_left_capacity p < Z.of_nat fuel * INCREMENT_LEFT_SIZE ->
  0 < zlen (data p) ->
  (exists p', extend_left_loop fuel p length = Ok p' /\ wf p' /\ data p' = data p
     /\ length <= m_read_idx p')
  \/ (extend_left_loop fuel p length = Fault Thrown
      /\ MAX_LEFT_CAPACITY
         < m_left_capacity p - m_read_idx p + length + INCREMENT_LEFT_SIZE).
Proof.
  induction fuel as [|f IH]; intros p length Wf Hf Hd.
  { exfalso. destruct Wf. lia. }
  cbn [extend_left_loop]. unfold left_left_capacity.
  destruct (Z.ltb_spec (m_read_idx p) length) as [Hlt|Hge]; [|left; exists p; auto 10].
  destruct (Z.le_gt_cases (m_left_capacity p + INCREMENT_LEFT_SIZE) MAX_LEFT_CAPACITY).
  - destruct (extend_left_spec p Wf) as (p1 & E & W1 & D1 & R1 & Wr1 & L1 & C1); [done|].
    rewrite (proj2 (Z.ltb_lt _ _)) in R1 by done.
    rewrite E. simpl. rewrite <- D1 in Hd.
    destruct (IH p1 length W1) as [(p' & E' & H')|[E' H']]; [pack_range|done| |].
    + left. exists p'. rewrite <- D1. auto.
    + right. split; [done|]. pack_range.
  - right. rewrite extend_left_throws by done. split; [done|]. destruct Wf. pack_range.
Qed.

(** An empty packet never gains left room: the loop runs into the limit. *)
Lemma extend_left_loop_empty fuel : forall p length,
  wf p -> MAX_LEFT_CAPACITY - m_left_capacity p < Z.of_nat fuel * INCREMENT_LEFT_SIZE ->
  zlen (data p) = 0 -> m_read_idx p < length ->
  extend_left_loop fuel p length = Fault Thrown.
Proof.
  induction fuel as [|f IH]; intros p length Wf Hf Hd Hl.
  { exfalso. destruct Wf. lia. }
  cbn [extend_left_loop]. unfold left_left_capacity. rewrite (proj2 (Z.ltb_lt _ _)) by done.
  destruct (Z.le_gt_cases (m_left_capacity p + INCREMENT_LEFT_SIZE) MAX_LEFT_CAPACITY).
  - destruct (extend_left_spec p Wf) as (p1 & E & W1 & D1 & R1 & Wr1 & L1 & C1); [done|].
    rewrite Hd, Z.add_0_r in R1. rewrite E. simpl.
    apply IH; [done | pack_range | by rewrite D1 | lia].
  - by rewrite extend_left_throws.
Qed.

Lemma extend_fuel_left p :
  wf p -> MAX_LEFT_CAPACITY - m_left_capacity p < Z.of_nat extend_fuel * INCREMENT_LEFT_SIZE.
Proof.
  intros [L _ _ _ _]. change (Z.of_nat extend_fuel) with 2083. pack_range.
Qed.

Lemma extend_fuel_right p :
  wf p -> MAX_RIGHT_CAPACITY - m_right_capacity p < Z.of_nat extend_fuel * INCREMENT_RIGHT_SIZE.
Proof.
  intros [_ R _ _ _]. change (Z.of_nat extend_fuel) with 2083. pack_range.
Qed.

(** What both right writes do once there is room. *)
Lemma append_spec p bytes :
  wf p -> zlen bytes <= left_right_capacity p ->
  let p' := mk (splice (m_buffer p) (m_write_idx p) bytes) (m_left_capacity p) (m_read_idx p)
               (m_right_capacity p) (m_write_idx p +₃₂ zlen bytes) in
  wf p' /\ data p' = data p ++ bytes.
Proof.
  intros Wf Hl p'. rewrite left_right_val in Hl by done. pose proof (zlen_nonneg bytes).
  destruct Wf as [L R I W B]. subst p'.
  rewrite u32_small by pack_range.
  split; [constructor; simpl; rewrite ?zlen_splice by lia; lia|].
  unfold data. simpl.
  replace (m_write_idx p + zlen bytes - m_read_idx p)
    with ((m_write_idx p - m_read_idx p) + zlen bytes) by lia.
  rewrite <- slice_app by lia. rewrite slice_splice_before by lia. f_equal.
  replace (m_read_idx p + (m_write_idx p - m_read_idx p)) with (m_write_idx p) by lia.
  apply slice_splice; lia.
Qed.

Lemma prepend_spec p bytes :
  wf p -> zlen bytes <= m_read_idx p ->
  let idx := m_read_idx p -₃₂ zlen bytes in
  let p' := mk (splice (m_buffer p) idx bytes) (m_left_capacity p) idx
               (m_right_capacity p) (m_write_idx p) in
  wf p' /\ data p' = bytes ++ data p.
Proof.
  intros Wf Hl idx p'. pose proof (zlen_nonneg bytes).
  destruct Wf as [L R I W B]. subst idx p'.
  rewrite u32_small by pack_range.
  split; [constructor; simpl; rewrite ?zlen_splice by lia; lia|].
  unfold data. simpl.
  replace (m_write_idx p - (m_read_idx p - zlen bytes))
    with (zlen bytes + (m_write_idx p - m_read_idx p)) by lia.
  rewrite <- slice_app by lia. rewrite slice_splice by lia. f_equal.
  replace (m_read_idx p - zlen bytes + zlen bytes) with (m_read_idx p) by lia.
  apply slice_splice_after; lia.
Qed.

(** [write] either appends all the bytes or throws at the size limit. *)
Lemma pack_write_spec p bytes :
  wf p -> is_u32 (zlen bytes) ->
  (exists p', write p bytes = Ok p' /\ wf p' /\ data p' = data p ++ bytes)
  \/ (write p bytes = Fault Thrown
      /\ MAX_RIGHT_CAPACITY
         < m_write_idx p - m_left_capacity p + zlen bytes + INCREMENT_RIGHT_SIZE).
Proof.
  intros Wf Hb. unfold write. rewrite (u32_small (zlen bytes)) by done.
  destruct (extend_right_loop_spec extend_fuel p (zlen bytes) Wf (extend_fuel_right p Wf))
    as [(p1 & E & W1 & D1 & _ & _ & _ & Hroom)|[E H1]]; rewrite E; simpl; [left|right; auto].
  destruct (append_spec p1 bytes W1 Hroom) as [W2 D2]. rewrite D1 in D2. eauto.
Qed.

Lemma write_T_eq n p v :
  (n <= 8)%nat -> write_T n p v = write p (bytes_helper.write_impl n v).
Proof.
  intros Hn. unfold write_T, write. rewrite bytes_helper.zlen_write_impl.
  by rewrite u32_small by range_lia.
Qed.

Lemma write_T_spec n p v :
  wf p -> (n <= 8)%nat ->
  (exists p', write_T n p v = Ok p' /\ wf p'
     /\ data p' = data p ++ bytes_helper.write_impl n v)
  \/ (write_T n p v = Fault Thrown
      /\ MAX_RIGHT_CAPACITY
         < m_write_idx p - m_left_capacity p + Z.of_nat n + INCREMENT_RIGHT_SIZE).
Proof.
  intros Wf Hn. unfold write_T.
  destruct (extend_right_loop_spec extend_fuel p (Z.of_nat n) Wf (extend_fuel_right p Wf))
    as [(p1 & E & W1 & D1 & _ & _ & _ & Hroom)|[E H1]]; rewrite E; simpl; [left|right; auto].
  destruct (append_spec p1 (bytes_helper.write_impl n v) W1) as [W2 D2];
    [by rewrite bytes_helper.zlen_write_impl|].
  rewrite D1 in D2. eauto.
Qed.

(** [write_left] prepends to a packet that holds data. *)
Lemma write_left_spec p bytes :
  wf p -> is_u32 (zlen bytes) -> 0 < zlen (data p) \/ zlen bytes <= m_read_idx p ->
  (exists p', write_left p bytes = Ok p' /\ wf p' /\ data p' = bytes ++ data p)
  \/ (write_left p bytes = Fault Thrown
      /\ MAX_LEFT_CAPACITY
         < m_left_capacity p - m_read_idx p + zlen bytes + INCREMENT_LEFT_SIZE).
Proof.
  intros Wf Hb Hd. unfold write_left. rewrite (u32_small (zlen bytes)) by done.
  assert (Hloop : (exists p', extend_left_loop extend_fuel p (zlen bytes) = Ok p' /\ wf p'
      /\ data p' = data p /\ zlen bytes <= m_read_idx p')
    \/ (extend_left_loop extend_fuel p (zlen bytes) = Fault Thrown
      /\ MAX_LEFT_CAPACITY
         < m_left_capacity p - m_read_idx p + zlen bytes + INCREMENT_LEFT_SIZE)).
  { destruct Hd as [Hd|Hd].
    - by apply (extend_left_loop_spec extend_fuel p (zlen bytes) Wf (extend_fuel_left p Wf)).
    - left. exists p. split; [|auto]. change extend_fuel with (S 2082). cbn [extend_left_loop].
      unfold left_left_capacity. by rewrite (proj2 (Z.ltb_ge _ _)) by lia. }
  destruct Hloop as [(p1 & E & W1 & D1 & Hroom)|[E H1]]; rewrite E; simpl; [left|right; auto].
  destruct (prepend_spec p1 bytes W1 Hroom) as [W2 D2]. rewrite D1 in D2. eauto.
Qed.

Lemma write_left_T_eq n p v :
  (n <= 8)%nat -> write_left_T n p v = write_left p (bytes_helper.write_impl n v).
Proof.
  intros Hn. unfold write_left_T, write_left. rewrite bytes_helper.zlen_write_impl.
  by rewrite u32_small by range_lia.
Qed.

Lemma copy_spec p : wf p -> wf (copy p) /\ data (copy p) = data p
  /\ m_read_idx (copy p) = m_read_idx p /\ m_left_capacity (copy p) = m_left_capacity p.
Proof.
  intros Wf. pose proof (pack_capacity_val p Wf) as C. destruct Wf as [L R I W B]. unfold copy.
  rewrite C. rewrite (proj2 (Z.eqb_neq _ _)) by lia.
  rewrite (slice_whole (m_buffer p)) by lia.
  assert (Hm : zlen (malloc (m_left_capacity p + m_right_capacity p)) = zlen (m_buffer p))
    by (rewrite malloc_size; lia).
  assert (Hs : splice (malloc (m_left_capacity p + m_right_capacity p)) 0 (m_buffer p)
               = m_buffer p).
  { unfold splice. simpl. rewrite drop_ge by (unfold zlen in *; lia). apply app_nil_r. }
  rewrite Hs. split; [constructor; simpl; assumption|].
  split; [reflexivity|]. split; reflexivity.
Qed.
(** ** A packet with its bytes and the room before them

    [holds p bytes room]: the packet is well formed, its data is [bytes], it was made with the
    default left capacity and [room] bytes are free before the data. *)
Definition holds (p : t) (bytes : list Z) (room : Z) : Prop :=
  wf p /\ data p = bytes /\ m_left_capacity p = INIT_LEFT_CAPACITY /\ m_read_idx p = room.

Lemma make_holds right : 0 <= right <= MAX_RIGHT_CAPACITY ->
  exists p, make_right right = Ok p /\ holds p [] INIT_LEFT_CAPACITY
    /\ right <= left_right_capacity p.
Proof.
  intros Hr. unfold make_right. destruct (make_ok right INIT_LEFT_CAPACITY) as [p E];
    [done | by unfold INIT_LEFT_CAPACITY, MAX_LEFT_CAPACITY |]. exists p. split; [done|].
  destruct (make_spec right INIT_LEFT_CAPACITY p) as (W & D & R & L & Wi & Ri); [pack_range | done | done |].
  assert (HL : m_left_capacity p = INIT_LEFT_CAPACITY).
  { unfold make, _init_buffer in E. res_inv. done. }
  split; [split; [done|]; split; [done|]; split; congruence|].
  rewrite left_right_val by done. lia.
Qed.

Lemma write_fits p bytes b room : holds p b room -> zlen bytes <= left_right_capacity p ->
  is_u32 (zlen bytes) ->
  exists q, write p bytes = Ok q /\ holds q (b ++ bytes) room.
Proof.
  intros (W & <- & L & R) Hf Hb. unfold write. rewrite (u32_small (zlen bytes)) by done.
  change extend_fuel with (S 2082). cbn [extend_right_loop].
  rewrite (proj2 (Z.ltb_ge _ _)) by done. res_simpl. destruct (append_spec p bytes W Hf) as [W2 D2].
  eexists. split; [done|]. by split.
Qed.

Lemma write_holds p bytes b room : holds p b room -> room <= INIT_LEFT_CAPACITY ->
  zlen b + zlen bytes + INIT_LEFT_CAPACITY + INCREMENT_RIGHT_SIZE <= MAX_RIGHT_CAPACITY ->
  exists q, write p bytes = Ok q /\ holds q (b ++ bytes) room.
Proof.
  intros (W & <- & L & R) Hr Hm. pose proof (zlen_data p W) as Hd. pose proof (zlen_nonneg bytes).
  pose proof (zlen_nonneg (data p)).
  unfold write. rewrite (u32_small (zlen bytes)) by (unfold INIT_LEFT_CAPACITY in *; pack_range).
  destruct (extend_right_loop_spec extend_fuel p (zlen bytes) W (extend_fuel_right p W))
    as [(p1 & E & W1 & D1 & R1 & _ & L1 & Hroom)|[E HX]]; rewrite E; res_simpl.
  - destruct (append_spec p1 bytes W1 Hroom) as [W2 D2]. rewrite D1 in D2.
    eexists. split; [done|]. split; [done|]. split; [done|]. cbn. split; congruence.
  - exfalso. unfold INIT_LEFT_CAPACITY in *. lia.
Qed.

Lemma write_T_holds n p v b room : holds p b room -> room <= INIT_LEFT_CAPACITY -> (n <= 8)%nat ->
  zlen b + Z.of_nat n + INIT_LEFT_CAPACITY + INCREMENT_RIGHT_SIZE <= MAX_RIGHT_CAPACITY ->
  exists q, write_T n p v = Ok q /\ holds q (b ++ bytes_helper.write_impl n v) room.
Proof.
  intros Hp Hr Hn Hm. rewrite write_T_eq by done. apply write_holds; [done..|].
  by rewrite bytes_helper.zlen_write_impl.
Qed.

Lemma write_left_holds p bytes b room : holds p b room -> zlen bytes <= room ->
  room <= INIT_LEFT_CAPACITY ->
  exists q, write_left p bytes = Ok q /\ holds q (bytes ++ b) (room - zlen bytes).
Proof.
  intros (W & <- & L & R) Hb Hr. pose proof (zlen_nonneg bytes). unfold write_left.
  rewrite (u32_small (zlen bytes)) by (unfold INIT_LEFT_CAPACITY in *; range_lia).
  change extend_fuel with (S 2082). cbn [extend_left_loop]. unfold left_left_capacity.
  rewrite (proj2 (Z.ltb_ge _ _)) by lia. res_simpl.
  destruct (prepend_spec p bytes W ltac:(lia)) as [W2 D2]. eexists. split; [done|].
  split; [done|]. split; [done|]. split; [done|]. cbn. rewrite R. apply u32_small.
  unfold INIT_LEFT_CAPACITY in *. range_lia.
Qed.

Lemma write_left_T_holds n p v b room : holds p b room -> (n <= 8)%nat -> Z.of_nat n <= room ->
  room <= INIT_LEFT_CAPACITY ->
  exists q, write_left_T n p v = Ok q /\ holds q (bytes_helper.write_impl n v ++ b) (room - Z.of_nat n).
Proof.
  intros Hp Hn Hr Hi. rewrite write_left_T_eq by done.
  rewrite <- (bytes_helper.zlen_write_impl n v). apply write_left_holds; [done | | done].
  by rewrite bytes_helper.zlen_write_impl.
Qed.

Lemma copy_holds p b room : holds p b room -> holds (copy p) b room.
Proof.
  intros (W & D & L & R). destruct (copy_spec p W) as (W' & D' & R' & L').
  split; [done|]. split; [congruence|]. split; congruence.
Qed.

End alloc_spec.
End packet.

(** ** Properties *)
Section properties.
Context `{memory}.
Import packet.

(** [write] on a packet either appends exactly the given bytes to the data,
    keeping everything written before, or throws at the 16 MiB limit of the
    right side; the growth loop always terminates, and it cannot throw while
    the data written so far and the new bytes leave one increment below the
    limit. *)
Theorem packet_write_appends p bytes :
  wf p -> is_u32 (zlen bytes) ->
  (exists p', write p bytes = Ok p' /\ wf p' /\ data p' = data p ++ bytes)
  \/ (write p bytes = Fault Thrown
      /\ MAX_RIGHT_CAPACITY
         < m_write_idx p - m_left_capacity p + zlen bytes + INCREMENT_RIGHT_SIZE).
Proof. apply pack_write_spec. Qed.

(** A 32-bit header prepended with [write_left] to a packet that holds data
    is read back by [read] unchanged, and the payload behind it is intact,
    whether or not the block had to grow (memmove) to make room. *)
Theorem packet_header_roundtrip p v :
  wf p -> Forall byte_ok (data p) -> 0 < zlen (data p) -> is_u32 v ->
  m_left_capacity p - m_read_idx p + 4 + INCREMENT_LEFT_SIZE <= MAX_LEFT_CAPACITY ->
  exists p1 p2, write_left_T 4 p v = Ok p1 /\ read_T 4 p1 = Ok (p2, v)
    /\ wf p2 /\ data p2 = data p.
Proof.
  intros Wf Hb Hd Hv Hroom. rewrite write_left_T_eq by lia.
  pose proof (bytes_helper.zlen_write_impl 4 v) as H4.
  destruct (write_left_spec p (bytes_helper.write_impl 4 v) Wf) as [(p1 & E1 & W1 & D1)|[_ Hbad]];
    [rewrite H4; range_lia | auto | | exfalso; rewrite H4 in Hbad; clear -Hbad Hroom; lia].
  assert (HT : forall l, take 4 (bytes_helper.write_impl 4 v ++ l) = bytes_helper.write_impl 4 v)
    by (intros; apply take_app_length'; by rewrite bytes_helper.write_impl_length).
  destruct (read_T_spec 4 p1 W1) as (p2 & E2 & W2 & D2).
  { rewrite D1. apply Forall_app. split; [apply bytes_helper.write_impl_bytes | done]. }
  { rewrite D1, zlen_app, H4. pose proof (zlen_nonneg (data p)). lia. }
  exists p1, p2. rewrite E1, E2, D2, D1, HT, bytes_helper.be_val_write.
  rewrite Z.mod_small by done. auto.
Qed.

(** Prepending a header longer than the left room of an EMPTY packet always
    throws: the growth step moves the cursors only when there is data, so the
    loop grows the block up to the 16 MiB limit without ever making room on
    the left. *)
Theorem packet_write_left_empty_throws p bytes :
  wf p -> data p = [] -> m_read_idx p < zlen bytes -> is_u32 (zlen bytes) ->
  write_left p bytes = Fault Thrown.
Proof.
  intros Wf Hd Hl Hb. unfold write_left. rewrite (u32_small (zlen bytes)) by done.
  pose proof (extend_left_loop_empty extend_fuel p (zlen bytes) Wf (extend_fuel_left p Wf)) as HE.
  rewrite Hd in HE. rewrite (HE eq_refl Hl). reflexivity.
Qed.
End properties.

Definition sample_packet : packet.t :=
  packet.mk (replicate 128 0 ++ [1; 2; 3] ++ replicate 253 0) 128 128 256 131.

Lemma sample_packet_wf : packet.wf sample_packet.
Proof. constructor; vm_compute; intuition discriminate. Qed.

Lemma packet_write_appends_witness :
  (exists p', packet.write sample_packet [9; 8] = Ok p' /\ packet.wf p'
     /\ packet.data p' = packet.data sample_packet ++ [9; 8])
  \/ (packet.write sample_packet [9; 8] = Fault Thrown
      /\ packet.MAX_RIGHT_CAPACITY < 131 - 128 + 2 + packet.INCREMENT_RIGHT_SIZE).
Proof.
  apply (packet_write_appends sample_packet [9; 8] sample_packet_wf).
  vm_compute. intuition discriminate.
Defined.

Lemma packet_header_roundtrip_witness :
  exists p1 p2, packet.write_left_T 4 sample_packet 3 = Ok p1 /\ packet.read_T 4 p1 = Ok (p2, 3)
    /\ packet.wf p2 /\ packet.data p2 = [1; 2; 3].
Proof.
  apply (packet_header_roundtrip sample_packet 3 sample_packet_wf).
  - repeat constructor; vm_compute; intuition discriminate.
  - reflexivity.
  - vm_compute. intuition discriminate.
  - vm_compute. discriminate.
Defined.

Lemma packet_write_left_empty_throws_witness :
  packet.write_left (packet.mk (replicate 384 0) 128 128 256 128) (replicate 129 7)
  = Fault Thrown.
Proof.
  apply packet_write_left_empty_throws.
  - constructor; vm_compute; intuition discriminate.
  - reflexivity.
  - reflexivity.
  - vm_compute. intuition discriminate.
Defined.
