(* ===== verification/WcpData.v ===== *)
(** * WcpData: the data of the WCP transport ([include/wawo/net/wcp.hpp])

    WCP is a reliable, congestion controlled stream transport over UDP.  Its
    control block [WCB] (a TCP TCB) is a flat record with one setter per
    field.  This file has the constants, the packets, the control block, the
    operations that queue control packets, and the estimators of the
    congestion window and of the retransmission timeout.

    - An [address] is its 48-bit identity, 0 for the null address.
    - A packet's payload is the byte content of its [wawo::packet].
    - [s_sending_ignore_seq_space] may hold the same shared pointer several
      times in a row (a SACK is queued twice): an entry is a pack with its
      number of references, so that a change of the pack shows in all.
    - [so_sent], [so_calls]: the datagrams the UDP socket accepted and the
      number of [sendto] calls; [cond_notified], [r_cond_notified]: whether
      the condition variables were notified. *)

From S2P Require Import Prelude Bytes Ring.

(** ** Constants *)
Definition WCP_MTU : Z := 1400.
Definition WCP_HeaderLen : Z := 16.
Definition WCP_MDU : Z := WCP_MTU - WCP_HeaderLen.
Definition WCP_RCV_BUFFER_MAX : Z := 1024 * 1024.
Definition WCP_RCV_BUFFER_MIN : Z := WCP_MDU * 4.
Definition WCP_RCV_WND_DEFAULT : Z := 64 * 1024.
Definition WCP_SND_BUFFER_MAX : Z := 1024 * 1024.
Definition WCP_SND_BUFFER_MIN : Z := WCP_MDU * 4.
Definition WCP_SND_WND_DEFAULT : Z := 64 * 1024.
Definition WCP_SND_SSTHRESH_MAX : Z := 1024 * 1024 * 2.
Definition WCP_SND_SSTHRESH_MIN : Z := 4 * WCP_MTU.
Definition WCP_SND_SSTHRESH_DEFAULT : Z := WCP_SND_SSTHRESH_MAX.
Definition WCP_SND_CWND_MAX : Z := WCP_SND_SSTHRESH_MAX * 4.
Definition WCP_SND_SACK_DUP_COUNT : nat := 1.
Definition WCP_RWND_CHECK_GRANULARITY : Z := 1000.
(** [(1/8)] and [(1/4)] are divisions of [int]s. *)
Definition WCP_SRTT_ALPHA : Z := 1 / 8.
Definition WCP_RTTVAR_BETA : Z := 1 / 4.
Definition WCP_RTO_CLOCK_GRANULARITY : Z := 5.
Definition WCP_RTO_INIT : Z := 1000.
Definition WCP_RTO_MIN : Z := 100.
Definition WCP_RTO_MAX : Z := 60 * 1000.
Definition WCP_LOST_THRESHOLD : Z := 3.
Definition WCP_SYN_MAX_TIME : Z := 30 * 1000.
Definition WCP_FIN_MAX_TIME : Z := 2 * 60 * 1000.
Definition WCP_TIMEWAIT_MAX_TIME : Z := 2 * 60 * 1000.
Definition WCP_LAST_ACK_MAX_TIME : Z := 30 * 1000.
Definition WCP_IW : Z := 10.
Definition WCP_LW : Z := 5.

(** Packet flags. *)
Definition WCP_FLAG_SYN : Z := 1.
Definition WCP_FLAG_ACK : Z := 2.
Definition WCP_FLAG_SACK : Z := 4.
Definition WCP_FLAG_FIN : Z := 8.
Definition WCP_FLAG_RST : Z := 16.
Definition WCP_FLAG_WND : Z := 32.
Definition WCP_FLAG_DAT : Z := 64.
Definition WCP_FLAG_KEEP_ALIVE : Z := 128.
Definition WCP_FLAG_KEEP_ALIVE_REPLY : Z := 256.

(** Control block flags. *)
Definition SND_BIGGEST_SACK_UPDATE : Z := 2.
Definition SND_UNA_UPDATE : Z := 4.
Definition SND_FAST_RECOVERED : Z := 8.
Definition SND_CWND_SLOW_START : Z := 16.
Definition SND_CWND_CONGEST_AVOIDANCE : Z := 32.
Definition SND_LOST_DETECTED : Z := 64.
Definition WCB_FLAG_IS_LISTENER : Z := 128.
Definition WCB_FLAG_IS_PASSIVE_OPEN : Z := 256.
Definition WCB_FLAG_FIRST_RTT_DONE : Z := 1024.
Definition WCB_FLAG_CLOSED_CALLED : Z := 2048.

Definition WCP_O_NONBLOCK : Z := 1.

Definition READ_RWND_LESS_THAN_MTU : Z := 1.
Definition READ_RWND_MORE_THAN_MTU : Z := 2.
Definition READ_REMOTE_FIN_RECEIVED : Z := 4.
Definition READ_REMOTE_FIN_READ_BY_USER : Z := 8.
Definition READ_LOCAL_READ_SHUTDOWNED : Z := 16.
Definition READ_RECV_ERROR : Z := 32.

Definition WRITE_LOCAL_FIN_SENT : Z := 1.
Definition WRITE_LOCAL_WRITE_SHUTDOWNED : Z := 2.
Definition WRITE_SEND_ERROR : Z := 4.

(** Error codes ([include/wawo/constants.h]). *)
Definition OK : Z := 0.
Definition E_EBADF : Z := -9.
Definition E_EMFILE : Z := -24.
Definition E_EOPNOTSUPP : Z := -95.
Definition E_EADDRINUSE : Z := -98.
Definition E_ECONNABORTED : Z := -103.
Definition E_ECONNRESET : Z := -104.
Definition E_ENOTCONN : Z := -107.
Definition E_ETIMEOUT : Z := -110.
Definition E_EALREADY : Z := -114.
Definition E_INVALID_OPERATION : Z := -20002.
Definition E_INVALID_STATE : Z := -20003.
Definition E_SOCKET_SEND_BLOCK : Z := -30001.
Definition E_SOCKET_RECV_BLOCK : Z := -30004.
Definition E_SOCKET_FORCE_CLOSE : Z := -30005.
Definition E_WCP_INTERNAL_ERROR : Z := -31000.
Definition E_WCP_WPOLL_HANDLE_NOT_EXISTS : Z := -31001.
Definition E_WCP_WPOLL_INVALID_OP : Z := -31002.

(** ** Data *)
Record WCP_Header : Type := mk_header {
  seq : Z; ack : Z; wnd : Z; flag : Z; dlen : Z
}.

Record WCB_pack : Type := mk_pack {
  header : WCP_Header;
  data : option (list Z);
  sent_ts : Z;
  sent_times : Z
}.

Record WCB_received_pack : Type := mk_received {
  rheader : WCP_Header;
  rdata : option (list Z);
  from : Z
}.

Inductive WCB_State : Type :=
| WCB_CLOSED | WCB_LISTEN | WCB_SYNING | WCB_SYN_SENT | WCB_SYN_RECEIVED
| WCB_FIN_WAIT_1 | WCB_CLOSING | WCB_FIN_WAIT_2 | WCB_ESTABLISHED
| WCB_CLOSE_WAIT | WCB_TIME_WAIT | WCB_LAST_ACK | WCB_RECYCLE.

#[export] Instance WCB_State_eq_dec : EqDecision WCB_State.
Proof. solve_decision. Defined.

Record WCB_SndInfo : Type := mk_snd {
  dsn : Z; next : Z; una : Z; ssthresh : Z; cwnd : Z; rwnd : Z
}.

Record WCB_RcvInfo : Type := mk_rcv { rwnd_ : Z; rnext : Z }.

Record WCB_keepalive_vals : Type := mk_keepalive { idle : Z; interval : Z; probes : Z }.

(** The control block. *)
Record WCB : Type := mk_WCB {
  fd : Z;
  four_tuple_hash_id : Z;
  state : WCB_State;
  timer_state : Z;
  wcb_errno : Z;
  wcb_option : Z;
  wcb_flag : Z;
  r_flag : Z;
  s_flag : Z;
  local_addr : Z;
  remote_addr : Z;
  rto : Z;
  srtt : Z;
  rttvar : Z;
  received_vec : list WCB_received_pack;
  received_vec_standby : list WCB_received_pack;
  rcv_info : WCB_RcvInfo;
  rcv_received : list WCB_received_pack;
  rb : bytes_ringbuffer.t;
  rb_standby : bytes_ringbuffer.t;
  r_timer_last_rwnd_update : Z;
  backloglist_pending : list Z;
  backlogq : list Z;
  backlog_size : Z;
  snd_biggest_ack : Z;
  snd_lost_detected_timer : Z;
  snd_lost_biggest_seq : Z;
  snd_lost_cwnd_for_fast_recovery_compensation : Z;
  snd_lost_bigger_than_lost_seq_time : Z;
  snd_timer_cwnd_congest_avoidance : Z;
  snd_info : WCB_SndInfo;
  snd_sending : list WCB_pack;
  snd_nflight_bytes : Z;
  snd_nflight_bytes_max : Z;
  snd_flights : list WCB_pack;
  snd_last_rto_timer : Z;
  snd_sacked_pack_tmp : list Z;
  sb : bytes_ringbuffer.t;
  s_sending_standby : list WCB_pack;
  s_sending_ignore_seq_space : list (WCB_pack * nat);
  keepalive_timer_last_received_pack : Z;
  keepalive_vals : WCB_keepalive_vals;
  keepalive_probes_sent : Z;
  so_sent : list (Z * list Z);
  so_calls : nat;
  cond_notified : bool;
  r_cond_notified : bool
}.

Definition set_fd (v : Z) (w : WCB) : WCB :=
  mk_WCB v (four_tuple_hash_id w) (state w)
    (timer_state w) (wcb_errno w) (wcb_option w) (wcb_flag w) (r_flag w) (s_flag w)
    (local_addr w) (remote_addr w) (rto w) (srtt w) (rttvar w) (received_vec w)
    (received_vec_standby w) (rcv_info w) (rcv_received w) (rb w) (rb_standby w)
    (r_timer_last_rwnd_update w) (backloglist_pending w) (backlogq w) (backlog_size w)
    (snd_biggest_ack w) (snd_lost_detected_timer w) (snd_lost_biggest_seq w)
    (snd_lost_cwnd_for_fast_recovery_compensation w) (snd_lost_bigger_than_lost_seq_time w)
    (snd_timer_cwnd_congest_avoidance w) (snd_info w) (snd_sending w) (snd_nflight_bytes w)
    (snd_nflight_bytes_max w) (snd_flights w) (snd_last_rto_timer w) (snd_sacked_pack_tmp w)
    (sb w) (s_sending_standby w) (s_sending_ignore_seq_space w)
    (keepalive_timer_last_received_pack w) (keepalive_vals w) (keepalive_probes_sent w)
    (so_sent w) (so_calls w) (cond_notified w) (r_cond_notified w).
Definition set_four_tuple_hash_id (v : Z) (w : WCB) : WCB :=
  mk_WCB (fd w) v (state w)
    (timer_state w) (wcb_errno w) (wcb_option w) (wcb_flag w) (r_flag w) (s_flag w)
    (local_addr w) (remote_addr w) (rto w) (srtt w) (rttvar w) (received_vec w)
    (received_vec_standby w) (rcv_info w) (rcv_received w) (rb w) (rb_standby w)
    (r_timer_last_rwnd_update w) (backloglist_pending w) (backlogq w) (backlog_size w)
    (snd_biggest_ack w) (snd_lost_detected_timer w) (snd_lost_biggest_seq w)
    (snd_lost_cwnd_for_fast_recovery_compensation w) (snd_lost_bigger_than_lost_seq_time w)
    (snd_timer_cwnd_congest_avoidance w) (snd_info w) (snd_sending w) (snd_nflight_bytes w)
    (snd_nflight_bytes_max w) (snd_flights w) (snd_last_rto_timer w) (snd_sacked_pack_tmp w)
    (sb w) (s_sending_standby w) (s_sending_ignore_seq_space w)
    (keepalive_timer_last_received_pack w) (keepalive_vals w) (keepalive_probes_sent w)
    (so_sent w) (so_calls w) (cond_notified w) (r_cond_notified w).
Definition set_state (v : WCB_State) (w : WCB) : WCB :=
  mk_WCB (fd w) (four_tuple_hash_id w) v
    (timer_state w) (wcb_errno w) (wcb_option w) (wcb_flag w) (r_flag w) (s_flag w)
    (local_addr w) (remote_addr w) (rto w) (srtt w) (rttvar w) (received_vec w)
    (received_vec_standby w) (rcv_info w) (rcv_received w) (rb w) (rb_standby w)
    (r_timer_last_rwnd_update w) (backloglist_pending w) (backlogq w) (backlog_size w)
    (snd_biggest_ack w) (snd_lost_detected_timer w) (snd_lost_biggest_seq w)
    (snd_lost_cwnd_for_fast_recovery_compensation w) (snd_lost_bigger_than_lost_seq_time w)
    (snd_timer_cwnd_congest_avoidance w) (snd_info w) (snd_sending w) (snd_nflight_bytes w)
    (snd_nflight_bytes_max w) (snd_flights w) (snd_last_rto_timer w) (snd_sacked_pack_tmp w)
    (sb w) (s_sending_standby w) (s_sending_ignore_seq_space w)
    (keepalive_timer_last_received_pack w) (keepalive_vals w) (keepalive_probes_sent w)
    (so_sent w) (so_calls w) (cond_notified w) (r_cond_notified w).
Definition set_timer_state (v : Z) (w : WCB) : WCB :=
  mk_WCB (fd w) (four_tuple_hash_id w)
    (state w) v (wcb_errno w) (wcb_option w) (wcb_flag w) (r_flag w) (s_flag w) (local_addr w)
    (remote_addr w) (rto w) (srtt w) (rttvar w) (received_vec w) (received_vec_standby w)
    (rcv_info w) (rcv_received w) (rb w) (rb_standby w) (r_timer_last_rwnd_update w)
    (backloglist_pending w) (backlogq w) (backlog_size w) (snd_biggest_ack w)
    (snd_lost_detected_timer w) (snd_lost_biggest_seq w)
    (snd_lost_cwnd_for_fast_recovery_compensation w) (snd_lost_bigger_than_lost_seq_time w)
    (snd_timer_cwnd_congest_avoidance w) (snd_info w) (snd_sending w) (snd_nflight_bytes w)
    (snd_nflight_bytes_max w) (snd_flights w) (snd_last_rto_timer w) (snd_sacked_pack_tmp w)
    (sb w) (s_sending_standby w) (s_sending_ignore_seq_space w)
    (keepalive_timer_last_received_pack w) (keepalive_vals w) (keepalive_probes_sent w)
    (so_sent w) (so_calls w) (cond_notified w) (r_cond_notified w).
Definition set_wcb_errno (v : Z) (w : WCB) : WCB :=
  mk_WCB (fd w) (four_tuple_hash_id w)
    (state w) (timer_state w) v (wcb_option w) (wcb_flag w) (r_flag w) (s_flag w) (local_addr w)
    (remote_addr w) (rto w) (srtt w) (rttvar w) (received_vec w) (received_vec_standby w)
    (rcv_info w) (rcv_received w) (rb w) (rb_standby w) (r_timer_last_rwnd_update w)
    (backloglist_pending w) (backlogq w) (backlog_size w) (snd_biggest_ack w)
    (snd_lost_detected_timer w) (snd_lost_biggest_seq w)
    (snd_lost_cwnd_for_fast_recovery_compensation w) (snd_lost_bigger_than_lost_seq_time w)
    (snd_timer_cwnd_congest_avoidance w) (snd_info w) (snd_sending w) (snd_nflight_bytes w)
    (snd_nflight_bytes_max w) (snd_flights w) (snd_last_rto_timer w) (snd_sacked_pack_tmp w)
    (sb w) (s_sending_standby w) (s_sending_ignore_seq_space w)
    (keepalive_timer_last_received_pack w) (keepalive_vals w) (keepalive_probes_sent w)
    (so_sent w) (so_calls w) (cond_notified w) (r_cond_notified w).
Definition set_wcb_option (v : Z) (w : WCB) : WCB :=
  mk_WCB (fd w) (four_tuple_hash_id w)
    (state w) (timer_state w) (wcb_errno w) v (wcb_flag w) (r_flag w) (s_flag w) (local_addr w)
    (remote_addr w) (rto w) (srtt w) (rttvar w) (received_vec w) (received_vec_standby w)
    (rcv_info w) (rcv_received w) (rb w) (rb_standby w) (r_timer_last_rwnd_update w)
    (backloglist_pending w) (backlogq w) (backlog_size w) (snd_biggest_ack w)
    (snd_lost_detected_timer w) (snd_lost_biggest_seq w)
    (snd_lost_cwnd_for_fast_recovery_compensation w) (snd_lost_bigger_than_lost_seq_time w)
    (snd_timer_cwnd_congest_avoidance w) (snd_info w) (snd_sending w) (snd_nflight_bytes w)
    (snd_nflight_bytes_max w) (snd_flights w) (snd_last_rto_timer w) (snd_sacked_pack_tmp w)
    (sb w) (s_sending_standby w) (s_sending_ignore_seq_space w)
    (keepalive_timer_last_received_pack w) (keepalive_vals w) (keepalive_probes_sent w)
    (so_sent w) (so_calls w) (cond_notified w) (r_cond_notified w).
Definition set_wcb_flag (v : Z) (w : WCB) : WCB :=
  mk_WCB (fd w) (four_tuple_hash_id w)
    (state w) (timer_state w) (wcb_errno w) (wcb_option w) v (r_flag w) (s_flag w)
    (local_addr w) (remote_addr w) (rto w) (srtt w) (rttvar w) (received_vec w)
    (received_vec_standby w) (rcv_info w) (rcv_received w) (rb w) (rb_standby w)
    (r_timer_last_rwnd_update w) (backloglist_pending w) (backlogq w) (backlog_size w)
    (snd_biggest_ack w) (snd_lost_detected_timer w) (snd_lost_biggest_seq w)
    (snd_lost_cwnd_for_fast_recovery_compensation w) (snd_lost_bigger_than_lost_seq_time w)
    (snd_timer_cwnd_congest_avoidance w) (snd_info w) (snd_sending w) (snd_nflight_bytes w)
    (snd_nflight_bytes_max w) (snd_flights w) (snd_last_rto_timer w) (snd_sacked_pack_tmp w)
    (sb w) (s_sending_standby w) (s_sending_ignore_seq_space w)
    (keepalive_timer_last_received_pack w) (keepalive_vals w) (keepalive_probes_sent w)
    (so_sent w) (so_calls w) (cond_notified w) (r_cond_notified w).
Definition set_r_flag (v : Z) (w : WCB) : WCB :=
  mk_WCB (fd w) (four_tuple_hash_id w)
    (state w) (timer_state w) (wcb_errno w) (wcb_option w) (wcb_flag w) v (s_flag w)
    (local_addr w) (remote_addr w) (rto w) (srtt w) (rttvar w) (received_vec w)
    (received_vec_standby w) (rcv_info w) (rcv_received w) (rb w) (rb_standby w)
    (r_timer_last_rwnd_update w) (backloglist_pending w) (backlogq w) (backlog_size w)
    (snd_biggest_ack w) (snd_lost_detected_timer w) (snd_lost_biggest_seq w)
    (snd_lost_cwnd_for_fast_recovery_compensation w) (snd_lost_bigger_than_lost_seq_time w)
    (snd_timer_cwnd_congest_avoidance w) (snd_info w) (snd_sending w) (snd_nflight_bytes w)
    (snd_nflight_bytes_max w) (snd_flights w) (snd_last_rto_timer w) (snd_sacked_pack_tmp w)
    (sb w) (s_sending_standby w) (s_sending_ignore_seq_space w)
    (keepalive_timer_last_received_pack w) (keepalive_vals w) (keepalive_probes_sent w)
    (so_sent w) (so_calls w) (cond_notified w) (r_cond_notified w).
Definition set_s_flag (v : Z) (w : WCB) : WCB :=
  mk_WCB (fd w) (four_tuple_hash_id w)
    (state w) (timer_state w) (wcb_errno w) (wcb_option w) (wcb_flag w) (r_flag w) v
    (local_addr w) (remote_addr w) (rto w) (srtt w) (rttvar w) (received_vec w)
    (received_vec_standby w) (rcv_info w) (rcv_received w) (rb w) (rb_standby w)
    (r_timer_last_rwnd_update w) (backloglist_pending w) (backlogq w) (backlog_size w)
    (snd_biggest_ack w) (snd_lost_detected_timer w) (snd_lost_biggest_seq w)
    (snd_lost_cwnd_for_fast_recovery_compensation w) (snd_lost_bigger_than_lost_seq_time w)
    (snd_timer_cwnd_congest_avoidance w) (snd_info w) (snd_sending w) (snd_nflight_bytes w)
    (snd_nflight_bytes_max w) (snd_flights w) (snd_last_rto_timer w) (snd_sacked_pack_tmp w)
    (sb w) (s_sending_standby w) (s_sending_ignore_seq_space w)
    (keepalive_timer_last_received_pack w) (keepalive_vals w) (keepalive_probes_sent w)
    (so_sent w) (so_calls w) (cond_notified w) (r_cond_notified w).
Definition set_local_addr (v : Z) (w : WCB) : WCB :=
  mk_WCB (fd w) (four_tuple_hash_id w)
    (state w) (timer_state w) (wcb_errno w) (wcb_option w) (wcb_flag w) (r_flag w) (s_flag w) v
    (remote_addr w) (rto w) (srtt w) (rttvar w) (received_vec w) (received_vec_standby w)
    (rcv_info w) (rcv_received w) (rb w) (rb_standby w) (r_timer_last_rwnd_update w)
    (backloglist_pending w) (backlogq w) (backlog_size w) (snd_biggest_ack w)
    (snd_lost_detected_timer w) (snd_lost_biggest_seq w)
    (snd_lost_cwnd_for_fast_recovery_compensation w) (snd_lost_bigger_than_lost_seq_time w)
    (snd_timer_cwnd_congest_avoidance w) (snd_info w) (snd_sending w) (snd_nflight_bytes w)
    (snd_nflight_bytes_max w) (snd_flights w) (snd_last_rto_timer w) (snd_sacked_pack_tmp w)
    (sb w) (s_sending_standby w) (s_sending_ignore_seq_space w)
    (keepalive_timer_last_received_pack w) (keepalive_vals w) (keepalive_probes_sent w)
    (so_sent w) (so_calls w) (cond_notified w) (r_cond_notified w).
Definition set_remote_addr (v : Z) (w : WCB) : WCB :=
  mk_WCB (fd w) (four_tuple_hash_id w)
    (state w) (timer_state w) (wcb_errno w) (wcb_option w) (wcb_flag w) (r_flag w) (s_flag w)
    (local_addr w) v (rto w) (srtt w) (rttvar w) (received_vec w) (received_vec_standby w)
    (rcv_info w) (rcv_received w) (rb w) (rb_standby w) (r_timer_last_rwnd_update w)
    (backloglist_pending w) (backlogq w) (backlog_size w) (snd_biggest_ack w)
    (snd_lost_detected_timer w) (snd_lost_biggest_seq w)
    (snd_lost_cwnd_for_fast_recovery_compensation w) (snd_lost_bigger_than_lost_seq_time w)
    (snd_timer_cwnd_congest_avoidance w) (snd_info w) (snd_sending w) (snd_nflight_bytes w)
    (snd_nflight_bytes_max w) (snd_flights w) (snd_last_rto_timer w) (snd_sacked_pack_tmp w)
    (sb w) (s_sending_standby w) (s_sending_ignore_seq_space w)
    (keepalive_timer_last_received_pack w) (keepalive_vals w) (keepalive_probes_sent w)
    (so_sent w) (so_calls w) (cond_notified w) (r_cond_notified w).
Definition set_rto (v : Z) (w : WCB) : WCB :=
  mk_WCB (fd w) (four_tuple_hash_id w) (state w)
    (timer_state w) (wcb_errno w) (wcb_option w) (wcb_flag w) (r_flag w) (s_flag w)
    (local_addr w) (remote_addr w) v (srtt w) (rttvar w) (received_vec w)
    (received_vec_standby w) (rcv_info w) (rcv_received w) (rb w) (rb_standby w)
    (r_timer_last_rwnd_update w) (backloglist_pending w) (backlogq w) (backlog_size w)
    (snd_biggest_ack w) (snd_lost_detected_timer w) (snd_lost_biggest_seq w)
    (snd_lost_cwnd_for_fast_recovery_compensation w) (snd_lost_bigger_than_lost_seq_time w)
    (snd_timer_cwnd_congest_avoidance w) (snd_info w) (snd_sending w) (snd_nflight_bytes w)
    (snd_nflight_bytes_max w) (snd_flights w) (snd_last_rto_timer w) (snd_sacked_pack_tmp w)
    (sb w) (s_sending_standby w) (s_sending_ignore_seq_space w)
    (keepalive_timer_last_received_pack w) (keepalive_vals w) (keepalive_probes_sent w)
    (so_sent w) (so_calls w) (cond_notified w) (r_cond_notified w).
Definition set_srtt (v : Z) (w : WCB) : WCB :=
  mk_WCB (fd w) (four_tuple_hash_id w) (state w)
    (timer_state w) (wcb_errno w) (wcb_option w) (wcb_flag w) (r_flag w) (s_flag w)
    (local_addr w) (remote_addr w) (rto w) v (rttvar w) (received_vec w)
    (received_vec_standby w) (rcv_info w) (rcv_received w) (rb w) (rb_standby w)
    (r_timer_last_rwnd_update w) (backloglist_pending w) (backlogq w) (backlog_size w)
    (snd_biggest_ack w) (snd_lost_detected_timer w) (snd_lost_biggest_seq w)
    (snd_lost_cwnd_for_fast_recovery_compensation w) (snd_lost_bigger_than_lost_seq_time w)
    (snd_timer_cwnd_congest_avoidance w) (snd_info w) (snd_sending w) (snd_nflight_bytes w)
    (snd_nflight_bytes_max w) (snd_flights w) (snd_last_rto_timer w) (snd_sacked_pack_tmp w)
    (sb w) (s_sending_standby w) (s_sending_ignore_seq_space w)
    (keepalive_timer_last_received_pack w) (keepalive_vals w) (keepalive_probes_sent w)
    (so_sent w) (so_calls w) (cond_notified w) (r_cond_notified w).
Definition set_rttvar (v : Z) (w : WCB) : WCB :=
  mk_WCB (fd w) (four_tuple_hash_id w)
    (state w) (timer_state w) (wcb_errno w) (wcb_option w) (wcb_flag w) (r_flag w) (s_flag w)
    (local_addr w) (remote_addr w) (rto w) (srtt w) v (received_vec w) (received_vec_standby w)
    (rcv_info w) (rcv_received w) (rb w) (rb_standby w) (r_timer_last_rwnd_update w)
    (backloglist_pending w) (backlogq w) (backlog_size w) (snd_biggest_ack w)
    (snd_lost_detected_timer w) (snd_lost_biggest_seq w)
    (snd_lost_cwnd_for_fast_recovery_compensation w) (snd_lost_bigger_than_lost_seq_time w)
    (snd_timer_cwnd_congest_avoidance w) (snd_info w) (snd_sending w) (snd_nflight_bytes w)
    (snd_nflight_bytes_max w) (snd_flights w) (snd_last_rto_timer w) (snd_sacked_pack_tmp w)
    (sb w) (s_sending_standby w) (s_sending_ignore_seq_space w)
    (keepalive_timer_last_received_pack w) (keepalive_vals w) (keepalive_probes_sent w)
    (so_sent w) (so_calls w) (cond_notified w) (r_cond_notified w).
Definition set_received_vec (v : list WCB_received_pack) (w : WCB) : WCB :=
  mk_WCB (fd w)
    (four_tuple_hash_id w) (state w) (timer_state w) (wcb_errno w) (wcb_option w) (wcb_flag w)
    (r_flag w) (s_flag w) (local_addr w) (remote_addr w) (rto w) (srtt w) (rttvar w) v
    (received_vec_standby w) (rcv_info w) (rcv_received w) (rb w) (rb_standby w)
    (r_timer_last_rwnd_update w) (backloglist_pending w) (backlogq w) (backlog_size w)
    (snd_biggest_ack w) (snd_lost_detected_timer w) (snd_lost_biggest_seq w)
    (snd_lost_cwnd_for_fast_recovery_compensation w) (snd_lost_bigger_than_lost_seq_time w)
    (snd_timer_cwnd_congest_avoidance w) (snd_info w) (snd_sending w) (snd_nflight_bytes w)
    (snd_nflight_bytes_max w) (snd_flights w) (snd_last_rto_timer w) (snd_sacked_pack_tmp w)
    (sb w) (s_sending_standby w) (s_sending_ignore_seq_space w)
    (keepalive_timer_last_received_pack w) (keepalive_vals w) (keepalive_probes_sent w)
    (so_sent w) (so_calls w) (cond_notified w) (r_cond_notified w).
Definition set_received_vec_standby (v : list WCB_received_pack) (w : WCB) : WCB :=
  mk_WCB
    (fd w) (four_tuple_hash_id w) (state w) (timer_state w) (wcb_errno w) (wcb_option w)
    (wcb_flag w) (r_flag w) (s_flag w) (local_addr w) (remote_addr w) (rto w) (srtt w)
    (rttvar w) (received_vec w) v (rcv_info w) (rcv_received w) (rb w) (rb_standby w)
    (r_timer_last_rwnd_update w) (backloglist_pending w) (backlogq w) (backlog_size w)
    (snd_biggest_ack w) (snd_lost_detected_timer w) (snd_lost_biggest_seq w)
    (snd_lost_cwnd_for_fast_recovery_compensation w) (snd_lost_bigger_than_lost_seq_time w)
    (snd_timer_cwnd_congest_avoidance w) (snd_info w) (snd_sending w) (snd_nflight_bytes w)
    (snd_nflight_bytes_max w) (snd_flights w) (snd_last_rto_timer w) (snd_sacked_pack_tmp w)
    (sb w) (s_sending_standby w) (s_sending_ignore_seq_space w)
    (keepalive_timer_last_received_pack w) (keepalive_vals w) (keepalive_probes_sent w)
    (so_sent w) (so_calls w) (cond_notified w) (r_cond_notified w).
Definition set_rcv_info (v : WCB_RcvInfo) (w : WCB) : WCB :=
  mk_WCB (fd w)
    (four_tuple_hash_id w) (state w) (timer_state w) (wcb_errno w) (wcb_option w) (wcb_flag w)
    (r_flag w) (s_flag w) (local_addr w) (remote_addr w) (rto w) (srtt w) (rttvar w)
    (received_vec w) (received_vec_standby w) v (rcv_received w) (rb w) (rb_standby w)
    (r_timer_last_rwnd_update w) (backloglist_pending w) (backlogq w) (backlog_size w)
    (snd_biggest_ack w) (snd_lost_detected_timer w) (snd_lost_biggest_seq w)
    (snd_lost_cwnd_for_fast_recovery_compensation w) (snd_lost_bigger_than_lost_seq_time w)
    (snd_timer_cwnd_congest_avoidance w) (snd_info w) (snd_sending w) (snd_nflight_bytes w)
    (snd_nflight_bytes_max w) (snd_flights w) (snd_last_rto_timer w) (snd_sacked_pack_tmp w)
    (sb w) (s_sending_standby w) (s_sending_ignore_seq_space w)
    (keepalive_timer_last_received_pack w) (keepalive_vals w) (keepalive_probes_sent w)
    (so_sent w) (so_calls w) (cond_notified w) (r_cond_notified w).
Definition set_rcv_received (v : list WCB_received_pack) (w : WCB) : WCB :=
  mk_WCB (fd w)
    (four_tuple_hash_id w) (state w) (timer_state w) (wcb_errno w) (wcb_option w) (wcb_flag w)
    (r_flag w) (s_flag w) (local_addr w) (remote_addr w) (rto w) (srtt w) (rttvar w)
    (received_vec w) (received_vec_standby w) (rcv_info w) v (rb w) (rb_standby w)
    (r_timer_last_rwnd_update w) (backloglist_pending w) (backlogq w) (backlog_size w)
    (snd_biggest_ack w) (snd_lost_detected_timer w) (snd_lost_biggest_seq w)
    (snd_lost_cwnd_for_fast_recovery_compensation w) (snd_lost_bigger_than_lost_seq_time w)
    (snd_timer_cwnd_congest_avoidance w) (snd_info w) (snd_sending w) (snd_nflight_bytes w)
    (snd_nflight_bytes_max w) (snd_flights w) (snd_last_rto_timer w) (snd_sacked_pack_tmp w)
    (sb w) (s_sending_standby w) (s_sending_ignore_seq_space w)
    (keepalive_timer_last_received_pack w) (keepalive_vals w) (keepalive_probes_sent w)
    (so_sent w) (so_calls w) (cond_notified w) (r_cond_notified w).
Definition set_rb (v : bytes_ringbuffer.t) (w : WCB) : WCB :=
  mk_WCB (fd w)
    (four_tuple_hash_id w) (state w) (timer_state w) (wcb_errno w) (wcb_option w) (wcb_flag w)
    (r_flag w) (s_flag w) (local_addr w) (remote_addr w) (rto w) (srtt w) (rttvar w)
    (received_vec w) (received_vec_standby w) (rcv_info w) (rcv_received w) v (rb_standby w)
    (r_timer_last_rwnd_update w) (backloglist_pending w) (backlogq w) (backlog_size w)
    (snd_biggest_ack w) (snd_lost_detected_timer w) (snd_lost_biggest_seq w)
    (snd_lost_cwnd_for_fast_recovery_compensation w) (snd_lost_bigger_than_lost_seq_time w)
    (snd_timer_cwnd_congest_avoidance w) (snd_info w) (snd_sending w) (snd_nflight_bytes w)
    (snd_nflight_bytes_max w) (snd_flights w) (snd_last_rto_timer w) (snd_sacked_pack_tmp w)
    (sb w) (s_sending_standby w) (s_sending_ignore_seq_space w)
    (keepalive_timer_last_received_pack w) (keepalive_vals w) (keepalive_probes_sent w)
    (so_sent w) (so_calls w) (cond_notified w) (r_cond_notified w).
Definition set_rb_standby (v : bytes_ringbuffer.t) (w : WCB) : WCB :=
  mk_WCB (fd w)
    (four_tuple_hash_id w) (state w) (timer_state w) (wcb_errno w) (wcb_option w) (wcb_flag w)
    (r_flag w) (s_flag w) (local_addr w) (remote_addr w) (rto w) (srtt w) (rttvar w)
    (received_vec w) (received_vec_standby w) (rcv_info w) (rcv_received w) (rb w) v
    (r_timer_last_rwnd_update w) (backloglist_pending w) (backlogq w) (backlog_size w)
    (snd_biggest_ack w) (snd_lost_detected_timer w) (snd_lost_biggest_seq w)
    (snd_lost_cwnd_for_fast_recovery_compensation w) (snd_lost_bigger_than_lost_seq_time w)
    (snd_timer_cwnd_congest_avoidance w) (snd_info w) (snd_sending w) (snd_nflight_bytes w)
    (snd_nflight_bytes_max w) (snd_flights w) (snd_last_rto_timer w) (snd_sacked_pack_tmp w)
    (sb w) (s_sending_standby w) (s_sending_ignore_seq_space w)
    (keepalive_timer_last_received_pack w) (keepalive_vals w) (keepalive_probes_sent w)
    (so_sent w) (so_calls w) (cond_notified w) (r_cond_notified w).
Definition set_r_timer_last_rwnd_update (v : Z) (w : WCB) : WCB :=
  mk_WCB (fd w)
    (four_tuple_hash_id w) (state w) (timer_state w) (wcb_errno w) (wcb_option w) (wcb_flag w)
    (r_flag w) (s_flag w) (local_addr w) (remote_addr w) (rto w) (srtt w) (rttvar w)
    (received_vec w) (received_vec_standby w) (rcv_info w) (rcv_received w) (rb w)
    (rb_standby w) v (backloglist_pending w) (backlogq w) (backlog_size w) (snd_biggest_ack w)
    (snd_lost_detected_timer w) (snd_lost_biggest_seq w)
    (snd_lost_cwnd_for_fast_recovery_compensation w) (snd_lost_bigger_than_lost_seq_time w)
    (snd_timer_cwnd_congest_avoidance w) (snd_info w) (snd_sending w) (snd_nflight_bytes w)
    (snd_nflight_bytes_max w) (snd_flights w) (snd_last_rto_timer w) (snd_sacked_pack_tmp w)
    (sb w) (s_sending_standby w) (s_sending_ignore_seq_space w)
    (keepalive_timer_last_received_pack w) (keepalive_vals w) (keepalive_probes_sent w)
    (so_sent w) (so_calls w) (cond_notified w) (r_cond_notified w).
Definition set_backloglist_pending (v : list Z) (w : WCB) : WCB :=
  mk_WCB (fd w)
    (four_tuple_hash_id w) (state w) (timer_state w) (wcb_errno w) (wcb_option w) (wcb_flag w)
    (r_flag w) (s_flag w) (local_addr w) (remote_addr w) (rto w) (srtt w) (rttvar w)
    (received_vec w) (received_vec_standby w) (rcv_info w) (rcv_received w) (rb w)
    (rb_standby w) (r_timer_last_rwnd_update w) v (backlogq w) (backlog_size w)
    (snd_biggest_ack w) (snd_lost_detected_timer w) (snd_lost_biggest_seq w)
    (snd_lost_cwnd_for_fast_recovery_compensation w) (snd_lost_bigger_than_lost_seq_time w)
    (snd_timer_cwnd_congest_avoidance w) (snd_info w) (snd_sending w) (snd_nflight_bytes w)
    (snd_nflight_bytes_max w) (snd_flights w) (snd_last_rto_timer w) (snd_sacked_pack_tmp w)
    (sb w) (s_sending_standby w) (s_sending_ignore_seq_space w)
    (keepalive_timer_last_received_pack w) (keepalive_vals w) (keepalive_probes_sent w)
    (so_sent w) (so_calls w) (cond_notified w) (r_cond_notified w).
Definition set_backlogq (v : list Z) (w : WCB) : WCB :=
  mk_WCB (fd w) (four_tuple_hash_id w)
    (state w) (timer_state w) (wcb_errno w) (wcb_option w) (wcb_flag w) (r_flag w) (s_flag w)
    (local_addr w) (remote_addr w) (rto w) (srtt w) (rttvar w) (received_vec w)
    (received_vec_standby w) (rcv_info w) (rcv_received w) (rb w) (rb_standby w)
    (r_timer_last_rwnd_update w) (backloglist_pending w) v (backlog_size w) (snd_biggest_ack w)
    (snd_lost_detected_timer w) (snd_lost_biggest_seq w)
    (snd_lost_cwnd_for_fast_recovery_compensation w) (snd_lost_bigger_than_lost_seq_time w)
    (snd_timer_cwnd_congest_avoidance w) (snd_info w) (snd_sending w) (snd_nflight_bytes w)
    (snd_nflight_bytes_max w) (snd_flights w) (snd_last_rto_timer w) (snd_sacked_pack_tmp w)
    (sb w) (s_sending_standby w) (s_sending_ignore_seq_space w)
    (keepalive_timer_last_received_pack w) (keepalive_vals w) (keepalive_probes_sent w)
    (so_sent w) (so_calls w) (cond_notified w) (r_cond_notified w).
Definition set_backlog_size (v : Z) (w : WCB) : WCB :=
  mk_WCB (fd w) (four_tuple_hash_id w)
    (state w) (timer_state w) (wcb_errno w) (wcb_option w) (wcb_flag w) (r_flag w) (s_flag w)
    (local_addr w) (remote_addr w) (rto w) (srtt w) (rttvar w) (received_vec w)
    (received_vec_standby w) (rcv_info w) (rcv_received w) (rb w) (rb_standby w)
    (r_timer_last_rwnd_update w) (backloglist_pending w) (backlogq w) v (snd_biggest_ack w)
    (snd_lost_detected_timer w) (snd_lost_biggest_seq w)
    (snd_lost_cwnd_for_fast_recovery_compensation w) (snd_lost_bigger_than_lost_seq_time w)
    (snd_timer_cwnd_congest_avoidance w) (snd_info w) (snd_sending w) (snd_nflight_bytes w)
    (snd_nflight_bytes_max w) (snd_flights w) (snd_last_rto_timer w) (snd_sacked_pack_tmp w)
    (sb w) (s_sending_standby w) (s_sending_ignore_seq_space w)
    (keepalive_timer_last_received_pack w) (keepalive_vals w) (keepalive_probes_sent w)
    (so_sent w) (so_calls w) (cond_notified w) (r_cond_notified w).
Definition set_snd_biggest_ack (v : Z) (w : WCB) : WCB :=
  mk_WCB (fd w) (four_tuple_hash_id w)
    (state w) (timer_state w) (wcb_errno w) (wcb_option w) (wcb_flag w) (r_flag w) (s_flag w)
    (local_addr w) (remote_addr w) (rto w) (srtt w) (rttvar w) (received_vec w)
    (received_vec_standby w) (rcv_info w) (rcv_received w) (rb w) (rb_standby w)
    (r_timer_last_rwnd_update w) (backloglist_pending w) (backlogq w) (backlog_size w) v
    (snd_lost_detected_timer w) (snd_lost_biggest_seq w)
    (snd_lost_cwnd_for_fast_recovery_compensation w) (snd_lost_bigger_than_lost_seq_time w)
    (snd_timer_cwnd_congest_avoidance w) (snd_info w) (snd_sending w) (snd_nflight_bytes w)
    (snd_nflight_bytes_max w) (snd_flights w) (snd_last_rto_timer w) (snd_sacked_pack_tmp w)
    (sb w) (s_sending_standby w) (s_sending_ignore_seq_space w)
    (keepalive_timer_last_received_pack w) (keepalive_vals w) (keepalive_probes_sent w)
    (so_sent w) (so_calls w) (cond_notified w) (r_cond_notified w).
Definition set_snd_lost_detected_timer (v : Z) (w : WCB) : WCB :=
  mk_WCB (fd w)
    (four_tuple_hash_id w) (state w) (timer_state w) (wcb_errno w) (wcb_option w) (wcb_flag w)
    (r_flag w) (s_flag w) (local_addr w) (remote_addr w) (rto w) (srtt w) (rttvar w)
    (received_vec w) (received_vec_standby w) (rcv_info w) (rcv_received w) (rb w)
    (rb_standby w) (r_timer_last_rwnd_update w) (backloglist_pending w) (backlogq w)
    (backlog_size w) (snd_biggest_ack w) v (snd_lost_biggest_seq w)
    (snd_lost_cwnd_for_fast_recovery_compensation w) (snd_lost_bigger_than_lost_seq_time w)
    (snd_timer_cwnd_congest_avoidance w) (snd_info w) (snd_sending w) (snd_nflight_bytes w)
    (snd_nflight_bytes_max w) (snd_flights w) (snd_last_rto_timer w) (snd_sacked_pack_tmp w)
    (sb w) (s_sending_standby w) (s_sending_ignore_seq_space w)
    (keepalive_timer_last_received_pack w) (keepalive_vals w) (keepalive_probes_sent w)
    (so_sent w) (so_calls w) (cond_notified w) (r_cond_notified w).
Definition set_snd_lost_biggest_seq (v : Z) (w : WCB) : WCB :=
  mk_WCB (fd w)
    (four_tuple_hash_id w) (state w) (timer_state w) (wcb_errno w) (wcb_option w) (wcb_flag w)
    (r_flag w) (s_flag w) (local_addr w) (remote_addr w) (rto w) (srtt w) (rttvar w)
    (received_vec w) (received_vec_standby w) (rcv_info w) (rcv_received w) (rb w)
    (rb_standby w) (r_timer_last_rwnd_update w) (backloglist_pending w) (backlogq w)
    (backlog_size w) (snd_biggest_ack w) (snd_lost_detected_timer w) v
    (snd_lost_cwnd_for_fast_recovery_compensation w) (snd_lost_bigger_than_lost_seq_time w)
    (snd_timer_cwnd_congest_avoidance w) (snd_info w) (snd_sending w) (snd_nflight_bytes w)
    (snd_nflight_bytes_max w) (snd_flights w) (snd_last_rto_timer w) (snd_sacked_pack_tmp w)
    (sb w) (s_sending_standby w) (s_sending_ignore_seq_space w)
    (keepalive_timer_last_received_pack w) (keepalive_vals w) (keepalive_probes_sent w)
    (so_sent w) (so_calls w) (cond_notified w) (r_cond_notified w).
Definition set_snd_lost_cwnd_for_fast_recovery_compensation (v : Z) (w : WCB) : WCB :=
  mk_WCB
    (fd w) (four_tuple_hash_id w) (state w) (timer_state w) (wcb_errno w) (wcb_option w)
    (wcb_flag w) (r_flag w) (s_flag w) (local_addr w) (remote_addr w) (rto w) (srtt w)
    (rttvar w) (received_vec w) (received_vec_standby w) (rcv_info w) (rcv_received w) (rb w)
    (rb_standby w) (r_timer_last_rwnd_update w) (backloglist_pending w) (backlogq w)
    (backlog_size w) (snd_biggest_ack w) (snd_lost_detected_timer w) (snd_lost_biggest_seq w) v
    (snd_lost_bigger_than_lost_seq_time w) (snd_timer_cwnd_congest_avoidance w) (snd_info w)
    (snd_sending w) (snd_nflight_bytes w) (snd_nflight_bytes_max w) (snd_flights w)
    (snd_last_rto_timer w) (snd_sacked_pack_tmp w) (sb w) (s_sending_standby w)
    (s_sending_ignore_seq_space w) (keepalive_timer_last_received_pack w) (keepalive_vals w)
    (keepalive_probes_sent w) (so_sent w) (so_calls w) (cond_notified w) (r_cond_notified w).
Definition set_snd_lost_bigger_than_lost_seq_time (v : Z) (w : WCB) : WCB :=
  mk_WCB (fd w)
    (four_tuple_hash_id w) (state w) (timer_state w) (wcb_errno w) (wcb_option w) (wcb_flag w)
    (r_flag w) (s_flag w) (local_addr w) (remote_addr w) (rto w) (srtt w) (rttvar w)
    (received_vec w) (received_vec_standby w) (rcv_info w) (rcv_received w) (rb w)
    (rb_standby w) (r_timer_last_rwnd_update w) (backloglist_pending w) (backlogq w)
    (backlog_size w) (snd_biggest_ack w) (snd_lost_detected_timer w) (snd_lost_biggest_seq w)
    (snd_lost_cwnd_for_fast_recovery_compensation w) v (snd_timer_cwnd_congest_avoidance w)
    (snd_info w) (snd_sending w) (snd_nflight_bytes w) (snd_nflight_bytes_max w) (snd_flights w)
    (snd_last_rto_timer w) (snd_sacked_pack_tmp w) (sb w) (s_sending_standby w)
    (s_sending_ignore_seq_space w) (keepalive_timer_last_received_pack w) (keepalive_vals w)
    (keepalive_probes_sent w) (so_sent w) (so_calls w) (cond_notified w) (r_cond_notified w).
Definition set_snd_timer_cwnd_congest_avoidance (v : Z) (w : WCB) : WCB :=
  mk_WCB (fd w)
    (four_tuple_hash_id w) (state w) (timer_state w) (wcb_errno w) (wcb_option w) (wcb_flag w)
    (r_flag w) (s_flag w) (local_addr w) (remote_addr w) (rto w) (srtt w) (rttvar w)
    (received_vec w) (received_vec_standby w) (rcv_info w) (rcv_received w) (rb w)
    (rb_standby w) (r_timer_last_rwnd_update w) (backloglist_pending w) (backlogq w)
    (backlog_size w) (snd_biggest_ack w) (snd_lost_detected_timer w) (snd_lost_biggest_seq w)
    (snd_lost_cwnd_for_fast_recovery_compensation w) (snd_lost_bigger_than_lost_seq_time w) v
    (snd_info w) (snd_sending w) (snd_nflight_bytes w) (snd_nflight_bytes_max w) (snd_flights w)
    (snd_last_rto_timer w) (snd_sacked_pack_tmp w) (sb w) (s_sending_standby w)
    (s_sending_ignore_seq_space w) (keepalive_timer_last_received_pack w) (keepalive_vals w)
    (keepalive_probes_sent w) (so_sent w) (so_calls w) (cond_notified w) (r_cond_notified w).
Definition set_snd_info (v : WCB_SndInfo) (w : WCB) : WCB :=
  mk_WCB (fd w)
    (four_tuple_hash_id w) (state w) (timer_state w) (wcb_errno w) (wcb_option w) (wcb_flag w)
    (r_flag w) (s_flag w) (local_addr w) (remote_addr w) (rto w) (srtt w) (rttvar w)
    (received_vec w) (received_vec_standby w) (rcv_info w) (rcv_received w) (rb w)
    (rb_standby w) (r_timer_last_rwnd_update w) (backloglist_pending w) (backlogq w)
    (backlog_size w) (snd_biggest_ack w) (snd_lost_detected_timer w) (snd_lost_biggest_seq w)
    (snd_lost_cwnd_for_fast_recovery_compensation w) (snd_lost_bigger_than_lost_seq_time w)
    (snd_timer_cwnd_congest_avoidance w) v (snd_sending w) (snd_nflight_bytes w)
    (snd_nflight_bytes_max w) (snd_flights w) (snd_last_rto_timer w) (snd_sacked_pack_tmp w)
    (sb w) (s_sending_standby w) (s_sending_ignore_seq_space w)
    (keepalive_timer_last_received_pack w) (keepalive_vals w) (keepalive_probes_sent w)
    (so_sent w) (so_calls w) (cond_notified w) (r_cond_notified w).
Definition set_snd_sending (v : list WCB_pack) (w : WCB) : WCB :=
  mk_WCB (fd w)
    (four_tuple_hash_id w) (state w) (timer_state w) (wcb_errno w) (wcb_option w) (wcb_flag w)
    (r_flag w) (s_flag w) (local_addr w) (remote_addr w) (rto w) (srtt w) (rttvar w)
    (received_vec w) (received_vec_standby w) (rcv_info w) (rcv_received w) (rb w)
    (rb_standby w) (r_timer_last_rwnd_update w) (backloglist_pending w) (backlogq w)
    (backlog_size w) (snd_biggest_ack w) (snd_lost_detected_timer w) (snd_lost_biggest_seq w)
    (snd_lost_cwnd_for_fast_recovery_compensation w) (snd_lost_bigger_than_lost_seq_time w)
    (snd_timer_cwnd_congest_avoidance w) (snd_info w) v (snd_nflight_bytes w)
    (snd_nflight_bytes_max w) (snd_flights w) (snd_last_rto_timer w) (snd_sacked_pack_tmp w)
    (sb w) (s_sending_standby w) (s_sending_ignore_seq_space w)
    (keepalive_timer_last_received_pack w) (keepalive_vals w) (keepalive_probes_sent w)
    (so_sent w) (so_calls w) (cond_notified w) (r_cond_notified w).
Definition set_snd_nflight_bytes (v : Z) (w : WCB) : WCB :=
  mk_WCB (fd w)
    (four_tuple_hash_id w) (state w) (timer_state w) (wcb_errno w) (wcb_option w) (wcb_flag w)
    (r_flag w) (s_flag w) (local_addr w) (remote_addr w) (rto w) (srtt w) (rttvar w)
    (received_vec w) (received_vec_standby w) (rcv_info w) (rcv_received w) (rb w)
    (rb_standby w) (r_timer_last_rwnd_update w) (backloglist_pending w) (backlogq w)
    (backlog_size w) (snd_biggest_ack w) (snd_lost_detected_timer w) (snd_lost_biggest_seq w)
    (snd_lost_cwnd_for_fast_recovery_compensation w) (snd_lost_bigger_than_lost_seq_time w)
    (snd_timer_cwnd_congest_avoidance w) (snd_info w) (snd_sending w) v
    (snd_nflight_bytes_max w) (snd_flights w) (snd_last_rto_timer w) (snd_sacked_pack_tmp w)
    (sb w) (s_sending_standby w) (s_sending_ignore_seq_space w)
    (keepalive_timer_last_received_pack w) (keepalive_vals w) (keepalive_probes_sent w)
    (so_sent w) (so_calls w) (cond_notified w) (r_cond_notified w).
Definition set_snd_nflight_bytes_max (v : Z) (w : WCB) : WCB :=
  mk_WCB (fd w)
    (four_tuple_hash_id w) (state w) (timer_state w) (wcb_errno w) (wcb_option w) (wcb_flag w)
    (r_flag w) (s_flag w) (local_addr w) (remote_addr w) (rto w) (srtt w) (rttvar w)
    (received_vec w) (received_vec_standby w) (rcv_info w) (rcv_received w) (rb w)
    (rb_standby w) (r_timer_last_rwnd_update w) (backloglist_pending w) (backlogq w)
    (backlog_size w) (snd_biggest_ack w) (snd_lost_detected_timer w) (snd_lost_biggest_seq w)
    (snd_lost_cwnd_for_fast_recovery_compensation w) (snd_lost_bigger_than_lost_seq_time w)
    (snd_timer_cwnd_congest_avoidance w) (snd_info w) (snd_sending w) (snd_nflight_bytes w) v
    (snd_flights w) (snd_last_rto_timer w) (snd_sacked_pack_tmp w) (sb w) (s_sending_standby w)
    (s_sending_ignore_seq_space w) (keepalive_timer_last_received_pack w) (keepalive_vals w)
    (keepalive_probes_sent w) (so_sent w) (so_calls w) (cond_notified w) (r_cond_notified w).
Definition set_snd_flights (v : list WCB_pack) (w : WCB) : WCB :=
  mk_WCB (fd w)
    (four_tuple_hash_id w) (state w) (timer_state w) (wcb_errno w) (wcb_option w) (wcb_flag w)
    (r_flag w) (s_flag w) (local_addr w) (remote_addr w) (rto w) (srtt w) (rttvar w)
    (received_vec w) (received_vec_standby w) (rcv_info w) (rcv_received w) (rb w)
    (rb_standby w) (r_timer_last_rwnd_update w) (backloglist_pending w) (backlogq w)
    (backlog_size w) (snd_biggest_ack w) (snd_lost_detected_timer w) (snd_lost_biggest_seq w)
    (snd_lost_cwnd_for_fast_recovery_compensation w) (snd_lost_bigger_than_lost_seq_time w)
    (snd_timer_cwnd_congest_avoidance w) (snd_info w) (snd_sending w) (snd_nflight_bytes w)
    (snd_nflight_bytes_max w) v (snd_last_rto_timer w) (snd_sacked_pack_tmp w) (sb w)
    (s_sending_standby w) (s_sending_ignore_seq_space w) (keepalive_timer_last_received_pack w)
    (keepalive_vals w) (keepalive_probes_sent w) (so_sent w) (so_calls w) (cond_notified w)
    (r_cond_notified w).
Definition set_snd_last_rto_timer (v : Z) (w : WCB) : WCB :=
  mk_WCB (fd w)
    (four_tuple_hash_id w) (state w) (timer_state w) (wcb_errno w) (wcb_option w) (wcb_flag w)
    (r_flag w) (s_flag w) (local_addr w) (remote_addr w) (rto w) (srtt w) (rttvar w)
    (received_vec w) (received_vec_standby w) (rcv_info w) (rcv_received w) (rb w)
    (rb_standby w) (r_timer_last_rwnd_update w) (backloglist_pending w) (backlogq w)
    (backlog_size w) (snd_biggest_ack w) (snd_lost_detected_timer w) (snd_lost_biggest_seq w)
    (snd_lost_cwnd_for_fast_recovery_compensation w) (snd_lost_bigger_than_lost_seq_time w)
    (snd_timer_cwnd_congest_avoidance w) (snd_info w) (snd_sending w) (snd_nflight_bytes w)
    (snd_nflight_bytes_max w) (snd_flights w) v (snd_sacked_pack_tmp w) (sb w)
    (s_sending_standby w) (s_sending_ignore_seq_space w) (keepalive_timer_last_received_pack w)
    (keepalive_vals w) (keepalive_probes_sent w) (so_sent w) (so_calls w) (cond_notified w)
    (r_cond_notified w).
Definition set_snd_sacked_pack_tmp (v : list Z) (w : WCB) : WCB :=
  mk_WCB (fd w)
    (four_tuple_hash_id w) (state w) (timer_state w) (wcb_errno w) (wcb_option w) (wcb_flag w)
    (r_flag w) (s_flag w) (local_addr w) (remote_addr w) (rto w) (srtt w) (rttvar w)
    (received_vec w) (received_vec_standby w) (rcv_info w) (rcv_received w) (rb w)
    (rb_standby w) (r_timer_last_rwnd_update w) (backloglist_pending w) (backlogq w)
    (backlog_size w) (snd_biggest_ack w) (snd_lost_detected_timer w) (snd_lost_biggest_seq w)
    (snd_lost_cwnd_for_fast_recovery_compensation w) (snd_lost_bigger_than_lost_seq_time w)
    (snd_timer_cwnd_congest_avoidance w) (snd_info w) (snd_sending w) (snd_nflight_bytes w)
    (snd_nflight_bytes_max w) (snd_flights w) (snd_last_rto_timer w) v (sb w)
    (s_sending_standby w) (s_sending_ignore_seq_space w) (keepalive_timer_last_received_pack w)
    (keepalive_vals w) (keepalive_probes_sent w) (so_sent w) (so_calls w) (cond_notified w)
    (r_cond_notified w).
Definition set_sb (v : bytes_ringbuffer.t) (w : WCB) : WCB :=
  mk_WCB (fd w)
    (four_tuple_hash_id w) (state w) (timer_state w) (wcb_errno w) (wcb_option w) (wcb_flag w)
    (r_flag w) (s_flag w) (local_addr w) (remote_addr w) (rto w) (srtt w) (rttvar w)
    (received_vec w) (received_vec_standby w) (rcv_info w) (rcv_received w) (rb w)
    (rb_standby w) (r_timer_last_rwnd_update w) (backloglist_pending w) (backlogq w)
    (backlog_size w) (snd_biggest_ack w) (snd_lost_detected_timer w) (snd_lost_biggest_seq w)
    (snd_lost_cwnd_for_fast_recovery_compensation w) (snd_lost_bigger_than_lost_seq_time w)
    (snd_timer_cwnd_congest_avoidance w) (snd_info w) (snd_sending w) (snd_nflight_bytes w)
    (snd_nflight_bytes_max w) (snd_flights w) (snd_last_rto_timer w) (snd_sacked_pack_tmp w) v
    (s_sending_standby w) (s_sending_ignore_seq_space w) (keepalive_timer_last_received_pack w)
    (keepalive_vals w) (keepalive_probes_sent w) (so_sent w) (so_calls w) (cond_notified w)
    (r_cond_notified w).
Definition set_s_sending_standby (v : list WCB_pack) (w : WCB) : WCB :=
  mk_WCB (fd w)
    (four_tuple_hash_id w) (state w) (timer_state w) (wcb_errno w) (wcb_option w) (wcb_flag w)
    (r_flag w) (s_flag w) (local_addr w) (remote_addr w) (rto w) (srtt w) (rttvar w)
    (received_vec w) (received_vec_standby w) (rcv_info w) (rcv_received w) (rb w)
    (rb_standby w) (r_timer_last_rwnd_update w) (backloglist_pending w) (backlogq w)
    (backlog_size w) (snd_biggest_ack w) (snd_lost_detected_timer w) (snd_lost_biggest_seq w)
    (snd_lost_cwnd_for_fast_recovery_compensation w) (snd_lost_bigger_than_lost_seq_time w)
    (snd_timer_cwnd_congest_avoidance w) (snd_info w) (snd_sending w) (snd_nflight_bytes w)
    (snd_nflight_bytes_max w) (snd_flights w) (snd_last_rto_timer w) (snd_sacked_pack_tmp w)
    (sb w) v (s_sending_ignore_seq_space w) (keepalive_timer_last_received_pack w)
    (keepalive_vals w) (keepalive_probes_sent w) (so_sent w) (so_calls w) (cond_notified w)
    (r_cond_notified w).
Definition set_s_sending_ignore_seq_space (v : list (WCB_pack * nat)) (w : WCB) : WCB :=
  mk_WCB
    (fd w) (four_tuple_hash_id w) (state w) (timer_state w) (wcb_errno w) (wcb_option w)
    (wcb_flag w) (r_flag w) (s_flag w) (local_addr w) (remote_addr w) (rto w) (srtt w)
    (rttvar w) (received_vec w) (received_vec_standby w) (rcv_info w) (rcv_received w) (rb w)
    (rb_standby w) (r_timer_last_rwnd_update w) (backloglist_pending w) (backlogq w)
    (backlog_size w) (snd_biggest_ack w) (snd_lost_detected_timer w) (snd_lost_biggest_seq w)
    (snd_lost_cwnd_for_fast_recovery_compensation w) (snd_lost_bigger_than_lost_seq_time w)
    (snd_timer_cwnd_congest_avoidance w) (snd_info w) (snd_sending w) (snd_nflight_bytes w)
    (snd_nflight_bytes_max w) (snd_flights w) (snd_last_rto_timer w) (snd_sacked_pack_tmp w)
    (sb w) (s_sending_standby w) v (keepalive_timer_last_received_pack w) (keepalive_vals w)
    (keepalive_probes_sent w) (so_sent w) (so_calls w) (cond_notified w) (r_cond_notified w).
Definition set_keepalive_timer_last_received_pack (v : Z) (w : WCB) : WCB :=
  mk_WCB (fd w)
    (four_tuple_hash_id w) (state w) (timer_state w) (wcb_errno w) (wcb_option w) (wcb_flag w)
    (r_flag w) (s_flag w) (local_addr w) (remote_addr w) (rto w) (srtt w) (rttvar w)
    (received_vec w) (received_vec_standby w) (rcv_info w) (rcv_received w) (rb w)
    (rb_standby w) (r_timer_last_rwnd_update w) (backloglist_pending w) (backlogq w)
    (backlog_size w) (snd_biggest_ack w) (snd_lost_detected_timer w) (snd_lost_biggest_seq w)
    (snd_lost_cwnd_for_fast_recovery_compensation w) (snd_lost_bigger_than_lost_seq_time w)
    (snd_timer_cwnd_congest_avoidance w) (snd_info w) (snd_sending w) (snd_nflight_bytes w)
    (snd_nflight_bytes_max w) (snd_flights w) (snd_last_rto_timer w) (snd_sacked_pack_tmp w)
    (sb w) (s_sending_standby w) (s_sending_ignore_seq_space w) v (keepalive_vals w)
    (keepalive_probes_sent w) (so_sent w) (so_calls w) (cond_notified w) (r_cond_notified w).
Definition set_keepalive_vals (v : WCB_keepalive_vals) (w : WCB) : WCB :=
  mk_WCB (fd w)
    (four_tuple_hash_id w) (state w) (timer_state w) (wcb_errno w) (wcb_option w) (wcb_flag w)
    (r_flag w) (s_flag w) (local_addr w) (remote_addr w) (rto w) (srtt w) (rttvar w)
    (received_vec w) (received_vec_standby w) (rcv_info w) (rcv_received w) (rb w)
    (rb_standby w) (r_timer_last_rwnd_update w) (backloglist_pending w) (backlogq w)
    (backlog_size w) (snd_biggest_ack w) (snd_lost_detected_timer w) (snd_lost_biggest_seq w)
    (snd_lost_cwnd_for_fast_recovery_compensation w) (snd_lost_bigger_than_lost_seq_time w)
    (snd_timer_cwnd_congest_avoidance w) (snd_info w) (snd_sending w) (snd_nflight_bytes w)
    (snd_nflight_bytes_max w) (snd_flights w) (snd_last_rto_timer w) (snd_sacked_pack_tmp w)
    (sb w) (s_sending_standby w) (s_sending_ignore_seq_space w)
    (keepalive_timer_last_received_pack w) v (keepalive_probes_sent w) (so_sent w) (so_calls w)
    (cond_notified w) (r_cond_notified w).
Definition set_keepalive_probes_sent (v : Z) (w : WCB) : WCB :=
  mk_WCB (fd w)
    (four_tuple_hash_id w) (state w) (timer_state w) (wcb_errno w) (wcb_option w) (wcb_flag w)
    (r_flag w) (s_flag w) (local_addr w) (remote_addr w) (rto w) (srtt w) (rttvar w)
    (received_vec w) (received_vec_standby w) (rcv_info w) (rcv_received w) (rb w)
    (rb_standby w) (r_timer_last_rwnd_update w) (backloglist_pending w) (backlogq w)
    (backlog_size w) (snd_biggest_ack w) (snd_lost_detected_timer w) (snd_lost_biggest_seq w)
    (snd_lost_cwnd_for_fast_recovery_compensation w) (snd_lost_bigger_than_lost_seq_time w)
    (snd_timer_cwnd_congest_avoidance w) (snd_info w) (snd_sending w) (snd_nflight_bytes w)
    (snd_nflight_bytes_max w) (snd_flights w) (snd_last_rto_timer w) (snd_sacked_pack_tmp w)
    (sb w) (s_sending_standby w) (s_sending_ignore_seq_space w)
    (keepalive_timer_last_received_pack w) (keepalive_vals w) v (so_sent w) (so_calls w)
    (cond_notified w) (r_cond_notified w).
Definition set_so_sent (v : list (Z * list Z)) (w : WCB) : WCB :=
  mk_WCB (fd w)
    (four_tuple_hash_id w) (state w) (timer_state w) (wcb_errno w) (wcb_option w) (wcb_flag w)
    (r_flag w) (s_flag w) (local_addr w) (remote_addr w) (rto w) (srtt w) (rttvar w)
    (received_vec w) (received_vec_standby w) (rcv_info w) (rcv_received w) (rb w)
    (rb_standby w) (r_timer_last_rwnd_update w) (backloglist_pending w) (backlogq w)
    (backlog_size w) (snd_biggest_ack w) (snd_lost_detected_timer w) (snd_lost_biggest_seq w)
    (snd_lost_cwnd_for_fast_recovery_compensation w) (snd_lost_bigger_than_lost_seq_time w)
    (snd_timer_cwnd_congest_avoidance w) (snd_info w) (snd_sending w) (snd_nflight_bytes w)
    (snd_nflight_bytes_max w) (snd_flights w) (snd_last_rto_timer w) (snd_sacked_pack_tmp w)
    (sb w) (s_sending_standby w) (s_sending_ignore_seq_space w)
    (keepalive_timer_last_received_pack w) (keepalive_vals w) (keepalive_probes_sent w) v
    (so_calls w) (cond_notified w) (r_cond_notified w).
Definition set_so_calls (v : nat) (w : WCB) : WCB :=
  mk_WCB (fd w) (four_tuple_hash_id w)
    (state w) (timer_state w) (wcb_errno w) (wcb_option w) (wcb_flag w) (r_flag w) (s_flag w)
    (local_addr w) (remote_addr w) (rto w) (srtt w) (rttvar w) (received_vec w)
    (received_vec_standby w) (rcv_info w) (rcv_received w) (rb w) (rb_standby w)
    (r_timer_last_rwnd_update w) (backloglist_pending w) (backlogq w) (backlog_size w)
    (snd_biggest_ack w) (snd_lost_detected_timer w) (snd_lost_biggest_seq w)
    (snd_lost_cwnd_for_fast_recovery_compensation w) (snd_lost_bigger_than_lost_seq_time w)
    (snd_timer_cwnd_congest_avoidance w) (snd_info w) (snd_sending w) (snd_nflight_bytes w)
    (snd_nflight_bytes_max w) (snd_flights w) (snd_last_rto_timer w) (snd_sacked_pack_tmp w)
    (sb w) (s_sending_standby w) (s_sending_ignore_seq_space w)
    (keepalive_timer_last_received_pack w) (keepalive_vals w) (keepalive_probes_sent w)
    (so_sent w) v (cond_notified w) (r_cond_notified w).
Definition set_cond_notified (v : bool) (w : WCB) : WCB :=
  mk_WCB (fd w)
    (four_tuple_hash_id w) (state w) (timer_state w) (wcb_errno w) (wcb_option w) (wcb_flag w)
    (r_flag w) (s_flag w) (local_addr w) (remote_addr w) (rto w) (srtt w) (rttvar w)
    (received_vec w) (received_vec_standby w) (rcv_info w) (rcv_received w) (rb w)
    (rb_standby w) (r_timer_last_rwnd_update w) (backloglist_pending w) (backlogq w)
    (backlog_size w) (snd_biggest_ack w) (snd_lost_detected_timer w) (snd_lost_biggest_seq w)
    (snd_lost_cwnd_for_fast_recovery_compensation w) (snd_lost_bigger_than_lost_seq_time w)
    (snd_timer_cwnd_congest_avoidance w) (snd_info w) (snd_sending w) (snd_nflight_bytes w)
    (snd_nflight_bytes_max w) (snd_flights w) (snd_last_rto_timer w) (snd_sacked_pack_tmp w)
    (sb w) (s_sending_standby w) (s_sending_ignore_seq_space w)
    (keepalive_timer_last_received_pack w) (keepalive_vals w) (keepalive_probes_sent w)
    (so_sent w) (so_calls w) v (r_cond_notified w).
Definition set_r_cond_notified (v : bool) (w : WCB) : WCB :=
  mk_WCB (fd w)
    (four_tuple_hash_id w) (state w) (timer_state w) (wcb_errno w) (wcb_option w) (wcb_flag w)
    (r_flag w) (s_flag w) (local_addr w) (remote_addr w) (rto w) (srtt w) (rttvar w)
    (received_vec w) (received_vec_standby w) (rcv_info w) (rcv_received w) (rb w)
    (rb_standby w) (r_timer_last_rwnd_update w) (backloglist_pending w) (backlogq w)
    (backlog_size w) (snd_biggest_ack w) (snd_lost_detected_timer w) (snd_lost_biggest_seq w)
    (snd_lost_cwnd_for_fast_recovery_compensation w) (snd_lost_bigger_than_lost_seq_time w)
    (snd_timer_cwnd_congest_avoidance w) (snd_info w) (snd_sending w) (snd_nflight_bytes w)
    (snd_nflight_bytes_max w) (snd_flights w) (snd_last_rto_timer w) (snd_sacked_pack_tmp w)
    (sb w) (s_sending_standby w) (s_sending_ignore_seq_space w)
    (keepalive_timer_last_received_pack w) (keepalive_vals w) (keepalive_probes_sent w)
    (so_sent w) (so_calls w) (cond_notified w) v.

Definition WCPPACK_TEST_FLAG (h : WCP_Header) (f : Z) : bool := flag_on (flag h) f.

Definition set_dsn (v : Z) (s : WCB_SndInfo) := mk_snd v (next s) (una s) (ssthresh s) (cwnd s) (rwnd s).
Definition set_next (v : Z) (s : WCB_SndInfo) := mk_snd (dsn s) v (una s) (ssthresh s) (cwnd s) (rwnd s).
Definition set_una (v : Z) (s : WCB_SndInfo) := mk_snd (dsn s) (next s) v (ssthresh s) (cwnd s) (rwnd s).
Definition set_ssthresh (v : Z) (s : WCB_SndInfo) := mk_snd (dsn s) (next s) (una s) v (cwnd s) (rwnd s).
Definition set_cwnd (v : Z) (s : WCB_SndInfo) := mk_snd (dsn s) (next s) (una s) (ssthresh s) v (rwnd s).
Definition set_rwnd (v : Z) (s : WCB_SndInfo) := mk_snd (dsn s) (next s) (una s) (ssthresh s) (cwnd s) v.

(** Update of the send information and of the flag words. *)
Definition upd_snd (f : WCB_SndInfo -> WCB_SndInfo) (w : WCB) : WCB := set_snd_info (f (snd_info w)) w.
Definition wflag_set (m : Z) (w : WCB) : WCB := set_wcb_flag (flag_set (wcb_flag w) m) w.
Definition wflag_clear (m : Z) (w : WCB) : WCB := set_wcb_flag (flag_clear (wcb_flag w) m) w.
Definition rflag_set (m : Z) (w : WCB) : WCB := set_r_flag (flag_set (r_flag w) m) w.
Definition rflag_clear (m : Z) (w : WCB) : WCB := set_r_flag (flag_clear (r_flag w) m) w.
Definition sflag_set (m : Z) (w : WCB) : WCB := set_s_flag (flag_set (s_flag w) m) w.
Definition notify (w : WCB) : WCB := set_cond_notified true w.
Definition r_notify (w : WCB) : WCB := set_r_cond_notified true w.

(** ** The environment

    The UDP socket and the clock: the result code of the [n]-th [sendto], of
    [connect] on the UDP socket, and the reading of the millisecond clock. *)
Class wcp_env := {
  sendto_ec : nat -> Z -> list Z -> Z;
  connect_ec : Z -> Z;
  curr_milliseconds : WCB -> Z
}.

(** ** Control packets

    [ack] and [wnd] are stamped when the pack is sent. *)
Definition ctl_pack (s f : Z) : WCB_pack := mk_pack (mk_header s 0 0 f 0) None 0 0.

(** A control packet that takes a sequence number ([snd_info.dsn++]). *)
Definition push_standby (f : Z) (w : WCB) : WCB :=
  let p := ctl_pack (dsn (snd_info w)) f in
  upd_snd (fun s => set_dsn (dsn s +₃₂ 1) s) (set_s_sending_standby (s_sending_standby w ++ [p]) w).

Definition SYN (w : WCB) : res WCB :=
  _ ← wawo_assert (bool_decide (state w = WCB_CLOSED)); Ok (push_standby WCP_FLAG_SYN w).
Definition SYNACK (w : WCB) : WCB := push_standby WCP_FLAG_ACK w.
Definition SYNSYNACK (w : WCB) : WCB := push_standby (Z.lor WCP_FLAG_SYN WCP_FLAG_ACK) w.
Definition FIN (w : WCB) : WCB := push_standby WCP_FLAG_FIN w.
Definition FINACK (w : WCB) : WCB := push_standby WCP_FLAG_ACK w.

(** One outside the sequence space ([snd_info.dsn], not incremented). *)
Definition push_ignore (p : WCB_pack) (copies : nat) (w : WCB) : WCB :=
  set_s_sending_ignore_seq_space (s_sending_ignore_seq_space w ++ [(p, copies)]) w.

Definition keepalive (w : WCB) : WCB :=
  push_ignore (ctl_pack (dsn (snd_info w)) WCP_FLAG_KEEP_ALIVE) 1 w.
Definition keepalive_reply (w : WCB) : WCB :=
  push_ignore (ctl_pack (dsn (snd_info w)) WCP_FLAG_KEEP_ALIVE_REPLY) 1 w.
Definition update_rwnd (w : WCB) : WCB :=
  push_ignore (ctl_pack (dsn (snd_info w)) WCP_FLAG_WND) 1 w.

Definition pack_acked_max_bytes : Z := (WCP_MDU / 4) * 4.

(** [SACK(sacked_packet)]: the acknowledged sequence numbers, cut in packs of
    at most [pack_acked_max_bytes]; every pack is queued
    [1 + WCP_SND_SACK_DUP_COUNT] times. *)
Fixpoint SACK_loop (fuel : nat) (sacked : list Z) (w : WCB) : res WCB :=
  match sacked with
  | [] => Ok w
  | _ =>
      match fuel with
      | O => Fault Diverged
      | S fuel' =>
          let wlen := if pack_acked_max_bytes <=? zlen sacked then pack_acked_max_bytes
                      else zlen sacked in
          let d := take (Z.to_nat wlen) sacked in
          let p := mk_pack (mk_header (dsn (snd_info w)) 0 0 WCP_FLAG_SACK
                              (Z.land (zlen d) 65535)) (Some d) 0 0 in
          SACK_loop fuel' (drop (Z.to_nat wlen) sacked)
            (push_ignore p (1 + WCP_SND_SACK_DUP_COUNT) w)
      end
  end.

Definition SACK (sacked : list Z) (w : WCB) : res WCB := SACK_loop (length sacked) sacked w.

(** ** Congestion window and retransmission timeout *)
Definition WAWO_MIN (a b : Z) : Z := if b <? a then b else a.
Definition WAWO_MAX (a b : Z) : Z := if b <? a then a else b.
Definition WAWO_ABS2 (a b : Z) : Z := if b <? a then a - b else b - a.

Section estimators.
Context `{wcp_env}.

Definition _check_cwnd (check_size : Z) (w : WCB) : WCB :=
  let w1 :=
    if flag_on (wcb_flag w) SND_CWND_SLOW_START then
      let w' := upd_snd (fun s => set_cwnd (cwnd s +₃₂ check_size) s) w in
      if ssthresh (snd_info w') <=? cwnd (snd_info w')
      then wflag_clear SND_CWND_SLOW_START (wflag_set SND_CWND_CONGEST_AVOIDANCE w')
      else w'
    else if flag_on (wcb_flag w) SND_CWND_CONGEST_AVOIDANCE then
      let now := curr_milliseconds w in
      if srtt w <=? now -₆₄ snd_timer_cwnd_congest_avoidance w
      then set_snd_timer_cwnd_congest_avoidance now
             (upd_snd (fun s => set_cwnd (cwnd s +₃₂ WCP_MTU) s) w)
      else w
    else w in
  upd_snd (fun s => set_cwnd (WAWO_MIN (cwnd s) WCP_SND_CWND_MAX) s) w1.

Definition clamp_rto (r : Z) : Z :=
  if WCP_RTO_MAX <? r then WCP_RTO_MAX else if r <? WCP_RTO_MIN then WCP_RTO_MIN else r.

(** The round trip sample of a pack acknowledged at its first transmission. *)
Definition rtt_sample (p : WCB_pack) (now : Z) (w : WCB) : WCB :=
  if sent_times p =? 1 then
    let rtt := u32 (now - sent_ts p) in
    let w1 :=
      if negb (flag_on (wcb_flag w) WCB_FLAG_FIRST_RTT_DONE) then
        let w' := set_rttvar (Z.shiftr rtt 1) (set_srtt rtt (wflag_set WCB_FLAG_FIRST_RTT_DONE w)) in
        set_rto (srtt w' +₃₂ WAWO_MAX WCP_RTO_CLOCK_GRANULARITY (2 *₃₂ rttvar w')) w'
      else
        let w' := set_rttvar (((1 - WCP_RTTVAR_BETA) *₃₂ rttvar w)
                    +₃₂ (WCP_RTTVAR_BETA *₃₂ WAWO_ABS2 (srtt w) rtt)) w in
        let w'' := set_srtt (((1 - WCP_SRTT_ALPHA) *₃₂ srtt w') +₃₂ (WCP_SRTT_ALPHA *₃₂ rtt)) w' in
        set_rto (srtt w'' +₃₂ WAWO_MAX WCP_RTO_CLOCK_GRANULARITY (2 *₃₂ rttvar w'')) w'' in
    set_rto (clamp_rto (rto w1)) w1
  else w.

(** The bytes a pack counts for in the flight size. *)
Definition ntotal_bytes (p : WCB_pack) : Z := dlen (header p) + WCP_HeaderLen.

Definition _handle_pack_acked (p : WCB_pack) (now : Z) (w : WCB) : res WCB :=
  let w1 := rtt_sample p now w in
  let n := ntotal_bytes p in
  _ ← wawo_assert (n <=? snd_nflight_bytes w1);
  Ok (_check_cwnd n (set_snd_nflight_bytes (snd_nflight_bytes w1 -₃₂ n) w1)).
End estimators.

(** ** Samples for concrete evaluations: an environment where every [sendto]
    and [connect] succeeds, and an established block with empty queues. *)
Definition sample_env : wcp_env :=
  {| sendto_ec _ _ _ := OK; connect_ec _ := OK; curr_milliseconds _ := 5000 |}.

Definition sample_ring : bytes_ringbuffer.t :=
  bytes_ringbuffer.mk 2049 0 0 (replicate 2049 0).

(** The first bytes of its buffer are the contents. *)
Definition sample_ring_with (bytes : list Z) : bytes_ringbuffer.t :=
  bytes_ringbuffer.mk 2049 0 (zlen bytes) (bytes ++ replicate (2049 - length bytes) 0).

Definition sample_wcb : WCB :=
  mk_WCB 7 0 WCB_ESTABLISHED 0 0 0 SND_CWND_SLOW_START 0 0 11 22 WCP_RTO_INIT 0 0
    [] [] (mk_rcv WCP_RCV_WND_DEFAULT 0) [] sample_ring sample_ring 0 [] [] 128
    0 0 0 0 0 0 (mk_snd 0 0 0 WCP_SND_SSTHRESH_DEFAULT (WCP_IW * WCP_MTU) WCP_RCV_WND_DEFAULT)
    [] 0 0 [] 0 [] sample_ring [] [] 0 (mk_keepalive 60 60 5) 0 [] 0 false false.
