(* ===== verification/WcpCodec.v ===== *)
(** * WcpCodec: the WCP datagram ([src/net/wcp.cpp], the two macros)

    A datagram is the 16 byte big-endian header (seq, ack, wnd, flag, dlen)
    followed by [dlen] bytes of payload.  The decoder asserts on every length
    it reads from the network. *)

From S2P Require Import Prelude Bytes Ring WcpData.
Import bytes_helper.

(** [WCPPACK_TO_UDPMESSAGE]: the first [wlen] bytes of [mbuffer]. *)
Definition WCPPACK_TO_UDPMESSAGE (p : WCB_pack) (size : Z) : res (list Z) :=
  let h := header p in
  _ ← wawo_assert (WCP_HeaderLen <=? size);
  _ ← wawo_assert (match data p with None => true | Some d => zlen d <=? WCP_MDU end);
  let hdr := write_u32 (seq h) ++ write_u32 (ack h) ++ write_u32 (wnd h) ++ write_u16 (flag h) in
  match data p with
  | Some (b :: d) =>
      _ ← wawo_assert (16 + zlen (b :: d) <=? size);
      Ok (hdr ++ write_u16 (zlen (b :: d)) ++ b :: d)
  | _ => Ok (hdr ++ write_u16 0)
  end.

(** [WCP_RECEIVED_PACK_FROM_UDPMESSAGE], from a datagram of [zlen m] bytes. *)
Definition WCP_RECEIVED_PACK_FROM_UDPMESSAGE (m : list Z) (sender : Z) : res WCB_received_pack :=
  _ ← wawo_assert (WCP_HeaderLen <=? zlen m);
  let h := mk_header (read_u32 m) (read_u32 (drop 4 m)) (read_u32 (drop 8 m))
             (read_u16 (drop 12 m)) (read_u16 (drop 14 m)) in
  if negb (dlen h =? 0) then
    _ ← wawo_assert (dlen h <=? WCP_MDU);
    _ ← wawo_assert (dlen h =? zlen m - 16);
    Ok (mk_received h (Some (slice m 16 (dlen h))) sender)
  else Ok (mk_received h None sender).

(** ** Round trip *)

(** A pack the sender builds: fields in range, and [dlen] the length of the
    payload, which is absent when empty. *)
Record pack_ok (p : WCB_pack) : Prop := {
  ok_seq : is_u32 (seq (header p));
  ok_ack : is_u32 (ack (header p));
  ok_wnd : is_u32 (wnd (header p));
  ok_flag : is_u16 (flag (header p));
  ok_data : match data p with
            | None => dlen (header p) = 0
            | Some d => dlen (header p) = zlen d /\ 0 < zlen d <= WCP_MDU /\ Forall byte_ok d
            end
}.

Lemma zlen_write_u32 v : zlen (write_u32 v) = 4.
Proof. apply zlen_write_impl. Qed.
Lemma zlen_write_u16 v : zlen (write_u16 v) = 2.
Proof. apply zlen_write_impl. Qed.

Lemma drop_write_u32 v l k : drop (4 + k) (write_u32 v ++ l) = drop k l.
Proof. apply drop_app_add'. symmetry. apply write_impl_length. Qed.
Lemma drop_write_u16 v l k : drop (2 + k) (write_u16 v ++ l) = drop k l.
Proof. apply drop_app_add'. symmetry. apply write_impl_length. Qed.

Lemma drop_header_4 a l : drop 4 (write_u32 a ++ l) = l.
Proof. apply (drop_write_u32 a l 0). Qed.
Lemma drop_header_8 a b l : drop 8 (write_u32 a ++ write_u32 b ++ l) = l.
Proof. rewrite (drop_write_u32 a _ 4). apply drop_header_4. Qed.
Lemma drop_header_12 a b c l : drop 12 (write_u32 a ++ write_u32 b ++ write_u32 c ++ l) = l.
Proof. rewrite (drop_write_u32 a _ 8). apply drop_header_8. Qed.
Lemma drop_header_14 a b c d l :
  drop 14 (write_u32 a ++ write_u32 b ++ write_u32 c ++ write_u16 d ++ l) = l.
Proof.
  rewrite (drop_write_u32 a _ 10), (drop_write_u32 b _ 6), (drop_write_u32 c _ 2).
  apply (drop_write_u16 d l 0).
Qed.
Lemma drop_header_16 a b c d e l :
  drop 16 (write_u32 a ++ write_u32 b ++ write_u32 c ++ write_u16 d ++ write_u16 e ++ l) = l.
Proof.
  rewrite (drop_write_u32 a _ 12), (drop_write_u32 b _ 8), (drop_write_u32 c _ 4),
    (drop_write_u16 d _ 2). apply (drop_write_u16 e l 0).
Qed.

Lemma decode_header a b c d e rest sender :
  is_u32 a -> is_u32 b -> is_u32 c -> is_u16 d -> is_u16 e ->
  WCP_RECEIVED_PACK_FROM_UDPMESSAGE
    (write_u32 a ++ write_u32 b ++ write_u32 c ++ write_u16 d ++ write_u16 e ++ rest) sender
  = if negb (e =? 0) then
      _ ← wawo_assert (e <=? WCP_MDU);
      _ ← wawo_assert (e =? zlen rest);
      Ok (mk_received (mk_header a b c d e) (Some (slice rest 0 e)) sender)
    else Ok (mk_received (mk_header a b c d e) None sender).
Proof.
  intros Ha Hb Hc Hd He. unfold WCP_RECEIVED_PACK_FROM_UDPMESSAGE.
  set (m := _ ++ _).
  assert (Hm : zlen m = 16 + zlen rest).
  { unfold m. rewrite !zlen_app, !zlen_write_u32, !zlen_write_u16. lia. }
  rewrite Hm, (proj2 (Z.leb_le WCP_HeaderLen _))
    by (pose proof (zlen_nonneg rest); unfold WCP_HeaderLen; lia).
  assert (H16 : slice m 16 e = slice rest 0 e).
  { unfold slice, m. change (Z.to_nat 16) with 16%nat. by rewrite drop_header_16. }
  assert (R0 : read_u32 m = a) by (by apply read_u32_write).
  assert (R4 : read_u32 (drop 4 m) = b).
  { unfold m. rewrite drop_header_4. by apply read_u32_write. }
  assert (R8 : read_u32 (drop 8 m) = c).
  { unfold m. rewrite drop_header_8. by apply read_u32_write. }
  assert (R12 : read_u16 (drop 12 m) = d).
  { unfold m. rewrite drop_header_12. by apply read_u16_write. }
  assert (R14 : read_u16 (drop 14 m) = e).
  { unfold m. rewrite drop_header_14. by apply read_u16_write. }
  rewrite R0, R4, R8, R12, R14. simpl dlen. rewrite H16.
  replace (16 + zlen rest - 16) with (zlen rest) by lia. reflexivity.
Qed.

(** C31: Encoding a pack built by the sender into a datagram and decoding that
    datagram gives back the same header and the same payload, and the datagram
    fits the MTU buffer, so none of the length assertions fails. *)
Theorem wcp_codec_roundtrip p sender :
  pack_ok p ->
  exists m, WCPPACK_TO_UDPMESSAGE p WCP_MTU = Ok m /\ zlen m <= WCP_MTU
    /\ WCP_RECEIVED_PACK_FROM_UDPMESSAGE m sender = Ok (mk_received (header p) (data p) sender).
Proof.
  intros [Hs Ha Hw Hf Hd]. destruct p as [[s a w f l] d ts n]. simpl in *.
  unfold WCPPACK_TO_UDPMESSAGE. cbn [header data seq ack wnd flag].
  change (WCP_HeaderLen <=? WCP_MTU) with true. res_simpl. destruct d as [d|].
  - destruct Hd as (-> & Hlen & Hbytes).
    rewrite (proj2 (Z.leb_le (zlen d) _)) by lia. res_simpl.
    destruct d as [|b d]; [unfold zlen in Hlen; simpl in Hlen; lia|].
    rewrite (proj2 (Z.leb_le _ WCP_MTU)) by (unfold WCP_MDU, WCP_MTU, WCP_HeaderLen in *; lia).
    res_simpl. eexists. split; [done|]. rewrite <- !app_assoc.
    split.
    { rewrite !zlen_app, !zlen_write_u32, !zlen_write_u16.
      unfold WCP_MDU, WCP_MTU, WCP_HeaderLen in *. lia. }
    rewrite decode_header by (try done; unfold WCP_MDU, WCP_MTU, WCP_HeaderLen in *; range_lia).
    rewrite (proj2 (Z.eqb_neq (zlen (b :: d)) 0)) by lia.
    rewrite (proj2 (Z.leb_le _ WCP_MDU)), Z.eqb_refl by lia. simpl.
    by rewrite slice_whole.
  - rewrite Hd. eexists. split; [done|]. rewrite <- !app_assoc. split.
    { rewrite !zlen_app, !zlen_write_u32, !zlen_write_u16. unfold WCP_MTU. lia. }
    rewrite <- (app_nil_r (write_u16 0)).
    by rewrite decode_header by (try done; range_lia).
Qed.

Definition sample_pack : WCB_pack :=
  mk_pack (mk_header 70000 3 65536 (Z.lor WCP_FLAG_DAT WCP_FLAG_ACK) 3) (Some [7; 8; 255]) 0 0.

Lemma wcp_codec_roundtrip_witness :
  exists m, WCPPACK_TO_UDPMESSAGE sample_pack WCP_MTU = Ok m /\ zlen m <= WCP_MTU
    /\ WCP_RECEIVED_PACK_FROM_UDPMESSAGE m 5
       = Ok (mk_received (header sample_pack) (Some [7; 8; 255]) 5).
Proof.
  apply (wcp_codec_roundtrip sample_pack 5).
  constructor; vm_compute; intuition (try discriminate).
  repeat constructor; discriminate.
Defined.
