(* ===== verification/WcpSend.v ===== *)
(** * WcpSend: the sending half of a control block ([src/net/wcp.cpp])

    [send_pack], [check_flights] (retransmission and loss detection) and
    [check_send] (window manual update, control packs, first transmissions,
    cutting the send buffer in packs), with the flight size invariant. *)

From S2P Require Import Prelude Bytes Ring WcpData WcpCodec.

Section send.
Context `{wcp_env}.

(** [so->sendto]: the datagram leaves when the socket answers [OK]. *)
Definition sendto (m : list Z) (to : Z) (w : WCB) : WCB * Z :=
  let ec := sendto_ec (so_calls w) to m in
  let w1 := set_so_calls (S (so_calls w)) w in
  (if ec =? OK then set_so_sent (so_sent w1 ++ [(to, m)]) w1 else w1, ec).

(** [inject_to_address]: both returns give back [ec]. *)
Definition inject_to_address (p : WCB_pack) (to : Z) (w : WCB) : res (WCB * Z) :=
  _ ← wawo_assert (negb (to =? 0));
  m ← WCPPACK_TO_UDPMESSAGE p WCP_MTU;
  Ok (sendto m to w).

Definition reply_rst_to_address (s : Z) (to : Z) (w : WCB) : res (WCB * Z) :=
  inject_to_address (ctl_pack s WCP_FLAG_RST) to w.

(** [send_pack] stamps the pack, which is shared with its queue. *)
Definition stamp (w : WCB) (p : WCB_pack) : WCB_pack :=
  let h := header p in
  mk_pack (mk_header (seq h) (rnext (rcv_info w)) (rwnd_ (rcv_info w)) (flag h) (dlen h))
          (data p) (sent_ts p) (sent_times p).

Definition send_pack (p : WCB_pack) (w : WCB) : res (WCB * WCB_pack * Z) :=
  _ ← wawo_assert (negb (remote_addr w =? 0));
  let p' := stamp w p in
  '(w', ec) ← inject_to_address p' (remote_addr w) w;
  Ok (w', p', ec).

(** A send failure other than "would block" marks the block. *)
Definition send_failed (ec : Z) (w : WCB) : WCB :=
  if negb (ec =? E_SOCKET_SEND_BLOCK) then sflag_set WRITE_SEND_ERROR (set_wcb_errno ec w) else w.

(** ** [check_flights] *)

(** The decision for one pack in flight: retransmit reason (0 none, 1 ack
    skip, 2 fast recovery, 3 timeout). *)
Definition retransmit_reason (w : WCB) (now : Z) (p : WCB_pack) : Z :=
  let timediff := u32 (now - sent_ts p) in
  let skip := i32 (snd_biggest_ack w - seq (header p)) in
  let early := srtt w +₃₂ Z.shiftr (rttvar w) 2 in
  if (1 <=? skip) && (early <=? timediff) then 1
  else if flag_on (wcb_flag w) SND_FAST_RECOVERED && (early <=? timediff) then 2
  else if rto w <=? timediff then 3
  else 0.

Definition resent (p : WCB_pack) (now : Z) : WCB_pack :=
  mk_pack (header p) (data p) now (sent_times p +₃₂ 1).

(** The loop over [snd_flights]; [kept] is the part of the list already
    passed.  The result carries [lost_count] and [max_sent_time]. *)
Fixpoint flights_loop (fl kept : list WCB_pack) (now lost maxt : Z) (w : WCB)
    : res (WCB * Z * Z) :=
  match fl with
  | [] => Ok (set_snd_flights kept w, lost, maxt)
  | p :: rest =>
      if flag_on (wcb_flag w) SND_UNA_UPDATE && (seq (header p) <? una (snd_info w)) then
        w' ← _handle_pack_acked p now w;
        flights_loop rest kept now lost maxt w'
      else
        let r := retransmit_reason w now p in
        let lost' := if r =? 3 then lost +₃₂ 1 else lost in
        let w1 := if (r =? 3) && negb (flag_on (wcb_flag w) SND_LOST_DETECTED)
                     && (snd_lost_biggest_seq w <? seq (header p))
                  then set_snd_lost_biggest_seq (seq (header p)) w else w in
        let maxt' := if (r =? 3) && (maxt <? sent_times p) then sent_times p else maxt in
        if 0 <? r then
          '(w2, p', ec) ← send_pack p w1;
          if negb (ec =? OK) then
            Ok (set_snd_flights (kept ++ p' :: rest) (send_failed ec w2), lost', maxt')
          else flights_loop rest (kept ++ [resent p' now]) now lost' maxt' w2
        else flights_loop rest (kept ++ [p]) now lost' maxt' w1
  end.

(** The reaction to losses. *)
Definition on_lost (now : Z) (w : WCB) : res WCB :=
  _ ← wawo_assert (WCP_RTO_MIN <=? rto w);
  let w1 := set_rto (WAWO_MIN (Z.shiftr (rto w) 1 +₃₂ rto w) WCP_RTO_MAX) w in
  if bool_decide (state w1 = WCB_ESTABLISHED)
     && (WAWO_MAX (srtt w1) 30 <=? now -₆₄ snd_lost_detected_timer w1) then
    let w2 := set_snd_lost_bigger_than_lost_seq_time 0 (set_snd_lost_detected_timer now w1) in
    let half_flight_max := Z.shiftr (snd_nflight_bytes_max w2) 1 in
    let new_ssthresh := WAWO_MAX half_flight_max WCP_SND_SSTHRESH_MIN in
    _ ← wawo_assert (snd_nflight_bytes w2 <=? snd_nflight_bytes_max w2);
    let w3 := set_snd_lost_cwnd_for_fast_recovery_compensation
                (new_ssthresh -₃₂ Z.shiftr (snd_nflight_bytes w2) 1) w2 in
    let w4 := upd_snd (fun s => set_ssthresh (WAWO_MIN new_ssthresh (ssthresh s)) s) w3 in
    let w5 := set_snd_nflight_bytes_max
                (WAWO_MAX (Z.shiftr (snd_nflight_bytes_max w4) 1) (snd_nflight_bytes w4)) w4 in
    let w6 := wflag_clear SND_CWND_CONGEST_AVOIDANCE
                (wflag_set (Z.lor SND_CWND_SLOW_START SND_LOST_DETECTED) w5) in
    Ok (upd_snd (fun s => set_cwnd (WCP_LW * WCP_MTU) s) w6)
  else Ok w1.

Definition UPDATE_FLAGS : Z := Z.lor SND_UNA_UPDATE (Z.lor SND_FAST_RECOVERED SND_BIGGEST_SACK_UPDATE).

Definition check_flights (now : Z) (w : WCB) : res WCB :=
  if negb (flag_on (wcb_flag w) UPDATE_FLAGS)
     && (now <? snd_last_rto_timer w +₆₄ WCP_RTO_CLOCK_GRANULARITY) then Ok w
  else
    '(w1, lost_count, max_sent_time) ←
       flights_loop (snd_flights w) [] now 0 0 (set_snd_last_rto_timer now w);
    let w2 := wflag_clear UPDATE_FLAGS w1 in
    if (WCP_LOST_THRESHOLD <=? lost_count) || (5 <=? max_sent_time) then on_lost now w2
    else Ok w2.

(** ** [check_send] *)

Inductive loop_exit : Type := Drained | Returned.

(** The control packs outside the sequence space. *)
Fixpoint send_ignored (q : list (WCB_pack * nat)) (w : WCB) {struct q} : res (WCB * loop_exit) :=
  match q with
  | [] => Ok (set_s_sending_ignore_seq_space [] w, Drained)
  | (p, copies) :: rest =>
      (fix again (k : nat) (p : WCB_pack) (w : WCB) : res (WCB * loop_exit) :=
         match k with
         | O => send_ignored rest w
         | S k' =>
             '(w', p', ec) ← send_pack p w;
             if negb (ec =? OK)
             then Ok (set_s_sending_ignore_seq_space ((p', k) :: rest) (send_failed ec w'), Returned)
             else again k' p' w'
         end) copies p w
  end.

(** The forced window update: a WND pack, or the WND flag on the first one. *)
Definition rwnd_update (now : Z) (w : WCB) : WCB :=
  if flag_on (r_flag w) READ_RWND_MORE_THAN_MTU
     && (WCP_RWND_CHECK_GRANULARITY <? now -₆₄ r_timer_last_rwnd_update w) then
    let w' := match s_sending_ignore_seq_space w with
              | [] => update_rwnd w
              | (p, k) :: rest =>
                  let h := header p in
                  let p' := mk_pack (mk_header (seq h) (ack h) (wnd h)
                                       (flag_set (flag h) WCP_FLAG_WND) (dlen h))
                              (data p) (sent_ts p) (sent_times p) in
                  set_s_sending_ignore_seq_space ((p', k) :: rest) w
              end in
    set_r_timer_last_rwnd_update now w'
  else w.

(** The first transmission of the pack at the front of [snd_sending]. *)
Definition first_sent (p : WCB_pack) (now : Z) : WCB_pack := mk_pack (header p) (data p) now 1.

Definition on_flight (p : WCB_pack) (now : Z) (w : WCB) : WCB :=
  let w1 := set_snd_flights (snd_flights w ++ [first_sent p now]) w in
  let w2 := set_snd_nflight_bytes (snd_nflight_bytes w1 +₃₂ ntotal_bytes p) w1 in
  let w3 := if snd_nflight_bytes_max w2 <? snd_nflight_bytes w2
            then set_snd_nflight_bytes_max (snd_nflight_bytes w2) w2 else w2 in
  upd_snd (fun s => set_next (next s +₃₂ 1) s) w3.

(** After a FIN went out: the state change, or the "state logic" assertion. *)
Definition fin_sent (now : Z) (w : WCB) : res WCB :=
  match state w with
  | WCB_ESTABLISHED =>
      Ok (sflag_set WRITE_LOCAL_FIN_SENT (set_state WCB_FIN_WAIT_1 (set_timer_state now w)))
  | WCB_CLOSE_WAIT => Ok (set_timer_state now (set_state WCB_LAST_ACK w))
  | _ => Fault AssertFailed
  end.

Definition syn_sent (w : WCB) : res WCB :=
  _ ← wawo_assert (bool_decide (state w = WCB_SYNING) || bool_decide (state w = WCB_SYN_RECEIVED));
  Ok (if decide (state w = WCB_SYNING) then set_state WCB_SYN_SENT w else w).

(** The loop [while (snd_sending.size())].  After a FIN the code leaves the
    loop with [break], before the [pop]: the FIN stays in the queue. *)
Fixpoint sending_loop (q : list WCB_pack) (now : Z) (w : WCB) : res (WCB * loop_exit) :=
  match q with
  | [] => Ok (set_snd_sending [] w, Drained)
  | p :: rest =>
      if WAWO_MIN (cwnd (snd_info w)) (rwnd (snd_info w))
           <=? ntotal_bytes p +₃₂ snd_nflight_bytes w
      then Ok (set_snd_sending q w, Returned)
      else
        _ ← wawo_assert (seq (header p) =? next (snd_info w));
        _ ← wawo_assert (una (snd_info w) <=? seq (header p));
        '(w1, p', ec) ← send_pack p w;
        if negb (ec =? OK) then Ok (set_snd_sending (p' :: rest) (send_failed ec w1), Returned)
        else
          _ ← wawo_assert (negb (flag_on (flag (header p'))
                 (Z.lor WCP_FLAG_SACK (Z.lor WCP_FLAG_KEEP_ALIVE WCP_FLAG_KEEP_ALIVE_REPLY))));
          let w2 := on_flight p' now w1 in
          if WCPPACK_TEST_FLAG (header p') WCP_FLAG_FIN then
            w3 ← fin_sent now w2;
            Ok (set_snd_sending (first_sent p' now :: rest) w3, Drained)
          else if WCPPACK_TEST_FLAG (header p') WCP_FLAG_SYN then
            w3 ← syn_sent w2; sending_loop rest now w3
          else sending_loop rest now w2
  end.

(** A pack of at most [WCP_MDU] bytes of the send buffer. *)
Definition data_pack (s : Z) (bytes : list Z) : WCB_pack :=
  mk_pack (mk_header s 0 0 (Z.lor WCP_FLAG_DAT WCP_FLAG_ACK) (Z.land (zlen bytes) 65535))
    (Some bytes) 0 0.

(** The body of the loop that cuts the send buffer, the pack's bytes read. *)
Definition cut_one (bytes : list Z) (sb' : bytes_ringbuffer.t) (w : WCB) : WCB :=
  upd_snd (fun s => set_dsn (dsn s +₃₂ 1) s)
    (set_snd_sending (snd_sending w ++ [data_pack (dsn (snd_info w)) bytes]) (set_sb sb' w)).

(** Cutting the send buffer; [nmax_try_bytes] is a [u32]. *)
Fixpoint cut_loop (fuel : nat) (nmax : Z) (w : WCB) : res WCB :=
  if (0 <? bytes_ringbuffer.count (sb w)) && (0 <? nmax) then
    match fuel with
    | O => Fault Diverged
    | S fuel' =>
        '(sb', bytes, nread) ← bytes_ringbuffer.read (sb w) WCP_MDU true;
        cut_loop fuel' (nmax -₃₂ nread) (cut_one bytes sb' w)
    end
  else Ok w.

(** The queue refill between two rounds of sending. *)
Definition refill (w : WCB) : res WCB :=
  let w1 := set_s_sending_standby []
              (set_snd_sending (snd_sending w ++ s_sending_standby w) w) in
  let nmax := cwnd (snd_info w1) -₃₂ snd_nflight_bytes w1 in
  if negb (flag_on (s_flag w1) WRITE_LOCAL_FIN_SENT) && (WCP_MTU <? nmax)
  then cut_loop (Z.to_nat (bytes_ringbuffer.count (sb w1))) nmax w1
  else Ok w1.

(** The rounds of [_begin_send]. *)
Fixpoint send_rounds (fuel : nat) (now : Z) (w : WCB) : res WCB :=
  match fuel with
  | O => Fault Diverged
  | S fuel' =>
      '(w1, e) ← sending_loop (snd_sending w) now w;
      match e with
      | Returned => Ok w1
      | Drained =>
          w2 ← refill w1;
          match snd_sending w2 with
          | [] => Ok w2
          | _ => send_rounds fuel' now w2
          end
      end
  end.

(** More rounds than packs that can be sent. *)
Definition send_fuel (w : WCB) : nat :=
  (3 + length (snd_sending w) + 2 * length (s_sending_standby w)
   + 2 * Z.to_nat (bytes_ringbuffer.count (sb w)))%nat.

Definition check_send (now : Z) (w : WCB) : res WCB :=
  if flag_on (s_flag w) WRITE_SEND_ERROR then Ok w
  else
    let w1 := rwnd_update now w in
    '(w2, e) ← send_ignored (s_sending_ignore_seq_space w1) w1;
    match e with
    | Returned => Ok w2
    | Drained => send_rounds (send_fuel w2) now w2
    end.
End send.
