(* ===== verification/WcpSendProofs.v ===== *)
(** * WcpSendProofs: what the sending half guarantees

    The flight size accounting, the window bound, the timer bounds, the
    absence of assertion failures on well-formed queues, and what goes wrong
    with a FIN. *)

From S2P Require Import Prelude Bytes Ring WcpData WcpCodec WcpSend.

(** Destruct the conditionals of the goal, innermost first. *)
Ltac split_ifs :=
  repeat match goal with
  | |- context [if ?b then _ else _] =>
      lazymatch b with context [if _ then _ else _] => fail | _ => destruct b eqn:? end
  end.

(** ** Flight size *)
Definition flight_size (l : list WCB_pack) : Z := foldr (fun p a => ntotal_bytes p + a) 0 l.

Definition pack_size_ok (p : WCB_pack) : Prop :=
  0 <= dlen (header p) <= WCP_MDU
  /\ match data p with None => True | Some d => zlen d <= WCP_MDU end.

Lemma flight_size_app l1 l2 : flight_size (l1 ++ l2) = flight_size l1 + flight_size l2.
Proof. induction l1 as [|p l IH]; simpl; [done | rewrite IH; lia]. Qed.

Lemma flight_size_nonneg l : Forall pack_size_ok l -> 0 <= flight_size l.
Proof.
  induction 1 as [|p l [Hp _] _ IH]; simpl; [done|].
  unfold ntotal_bytes, WCP_HeaderLen. lia.
Qed.

(** The accounting invariant, for a list [l] of packs in flight (inside the
    loop over [snd_flights] the list is split). *)
Record flight_inv (l : list WCB_pack) (w : WCB) : Prop := {
  inv_flight : snd_nflight_bytes w = flight_size l;
  inv_packs : Forall pack_size_ok l;
  inv_max : snd_nflight_bytes w <= snd_nflight_bytes_max w <= WCP_SND_CWND_MAX;
  inv_cwnd : 0 <= cwnd (snd_info w) <= WCP_SND_CWND_MAX;
  inv_rto : WCP_RTO_MIN <= rto w <= WCP_RTO_MAX
}.

Definition snd_inv (w : WCB) : Prop := flight_inv (snd_flights w) w.

(** Two blocks with the same send accounting. *)
Record snd_same (w w' : WCB) : Prop := {
  same_nflight : snd_nflight_bytes w' = snd_nflight_bytes w;
  same_nmax : snd_nflight_bytes_max w' = snd_nflight_bytes_max w;
  same_info : snd_info w' = snd_info w;
  same_rto : rto w' = rto w;
  same_addr : remote_addr w' = remote_addr w;
  same_flag : wcb_flag w' = wcb_flag w;
  same_state : state w' = state w;
  same_sb : sb w' = sb w;
  same_stby : s_sending_standby w' = s_sending_standby w
}.

#[export] Instance snd_same_refl : Reflexive snd_same.
Proof. by constructor. Qed.
#[export] Instance snd_same_trans : Transitive snd_same.
Proof. intros x y z [] []. constructor; congruence. Qed.

(** Solve a [snd_same] between a block and setters applied to it. *)
Ltac same := constructor; simpl; (reflexivity || assumption || congruence).

Section proofs.
Context `{wcp_env}.

Lemma sendto_same m to w : snd_same w (sendto m to w).1.
Proof. unfold sendto. simpl. destruct (_ =? OK); same. Qed.

Lemma send_failed_same ec w : snd_same w (send_failed ec w).
Proof. unfold send_failed. destruct (negb _); same. Qed.

(** [send_pack] cannot fail an assertion on a pack that fits, with a peer. *)
Lemma encode_ok p : pack_size_ok p -> exists m, WCPPACK_TO_UDPMESSAGE p WCP_MTU = Ok m.
Proof.
  intros [_ Hd]. unfold WCPPACK_TO_UDPMESSAGE.
  change (WCP_HeaderLen <=? WCP_MTU) with true. res_simpl.
  destruct (data p) as [[|b d]|].
  - change (zlen [] <=? WCP_MDU) with true. res_simpl. eauto.
  - rewrite (proj2 (Z.leb_le _ WCP_MDU)) by done. res_simpl.
    rewrite (proj2 (Z.leb_le _ WCP_MTU)) by (unfold WCP_MDU, WCP_MTU, WCP_HeaderLen in *; lia).
    res_simpl. eauto.
  - res_simpl. eauto.
Qed.

Lemma send_pack_ok p w :
  pack_size_ok p -> remote_addr w <> 0 ->
  exists w' ec, send_pack p w = Ok (w', stamp w p, ec) /\ snd_same w w'
    /\ snd_sending w' = snd_sending w /\ snd_flights w' = snd_flights w
    /\ s_flag w' = s_flag w
    /\ ((forall n to m, sendto_ec n to m = OK) -> ec = OK).
Proof.
  intros Hp Hr. unfold send_pack, inject_to_address.
  rewrite (proj2 (Z.eqb_neq _ 0)) by done. res_simpl.
  destruct (encode_ok (stamp w p)) as [m Hm]; [exact Hp|].
  simpl. rewrite Hm. res_simpl.
  pose proof (sendto_same m (remote_addr w) w) as Hs. unfold sendto in *. simpl in *.
  eexists _, _. split; [reflexivity|]. split; [exact Hs|].
  destruct (_ =? OK); auto.
Qed.

Lemma rtt_sample_spec p now w :
  snd_nflight_bytes (rtt_sample p now w) = snd_nflight_bytes w
  /\ snd_nflight_bytes_max (rtt_sample p now w) = snd_nflight_bytes_max w
  /\ snd_info (rtt_sample p now w) = snd_info w
  /\ snd_flights (rtt_sample p now w) = snd_flights w
  /\ remote_addr (rtt_sample p now w) = remote_addr w
  /\ state (rtt_sample p now w) = state w
  /\ (WCP_RTO_MIN <= rto w <= WCP_RTO_MAX ->
      WCP_RTO_MIN <= rto (rtt_sample p now w) <= WCP_RTO_MAX).
Proof.
  unfold rtt_sample. destruct (sent_times p =? 1); [|tauto].
  destruct (negb (flag_on (wcb_flag w) WCB_FLAG_FIRST_RTT_DONE)); simpl;
    (repeat (split; [reflexivity|])); intros _; unfold clamp_rto;
    match goal with |- context [WCP_RTO_MAX <? ?r] => generalize r end; intros r;
    destruct (Z.ltb_spec WCP_RTO_MAX r); try destruct (Z.ltb_spec r WCP_RTO_MIN);
    unfold WCP_RTO_MIN, WCP_RTO_MAX in *; lia.
Qed.

Lemma wawo_min_spec a b : WAWO_MIN a b = Z.min a b.
Proof. unfold WAWO_MIN. destruct (Z.ltb_spec b a); lia. Qed.
Lemma wawo_max_spec a b : WAWO_MAX a b = Z.max a b.
Proof. unfold WAWO_MAX. destruct (Z.ltb_spec b a); lia. Qed.

Lemma check_cwnd_spec n w :
  snd_nflight_bytes (_check_cwnd n w) = snd_nflight_bytes w
  /\ snd_nflight_bytes_max (_check_cwnd n w) = snd_nflight_bytes_max w
  /\ snd_flights (_check_cwnd n w) = snd_flights w
  /\ remote_addr (_check_cwnd n w) = remote_addr w
  /\ state (_check_cwnd n w) = state w
  /\ rto (_check_cwnd n w) = rto w
  /\ next (snd_info (_check_cwnd n w)) = next (snd_info w)
  /\ dsn (snd_info (_check_cwnd n w)) = dsn (snd_info w)
  /\ una (snd_info (_check_cwnd n w)) = una (snd_info w)
  /\ (0 <= cwnd (snd_info w) -> 0 <= cwnd (snd_info (_check_cwnd n w)) <= WCP_SND_CWND_MAX).
Proof.
  unfold _check_cwnd.
  destruct (flag_on _ SND_CWND_SLOW_START);
    [destruct (_ <=? _)
    | destruct (flag_on _ SND_CWND_CONGEST_AVOIDANCE); [destruct (_ <=? _)|]];
    simpl; rewrite wawo_min_spec;
    (repeat (split; [reflexivity|])); intros Hc;
    try pose proof (u32_range (cwnd (snd_info w) + n));
    try pose proof (u32_range (cwnd (snd_info w) + WCP_MTU));
    unfold WCP_SND_CWND_MAX, WCP_SND_SSTHRESH_MAX in *; range_lia.
Qed.

(** Acknowledging the pack [p] leaves the accounting of the others. *)
Lemma handle_pack_acked_inv p l l' now w :
  flight_inv l w -> pack_size_ok p -> Forall pack_size_ok l' ->
  flight_size l = ntotal_bytes p + flight_size l' ->
  exists w', _handle_pack_acked p now w = Ok w' /\ flight_inv l' w'
    /\ snd_nflight_bytes w' <= snd_nflight_bytes w
    /\ remote_addr w' = remote_addr w /\ state w' = state w
    /\ snd_flights w' = snd_flights w.
Proof.
  intros [HF HP HM HC HR] Hp Hl Hn. unfold _handle_pack_acked.
  destruct (rtt_sample_spec p now w) as (E1 & E2 & E3 & E4 & E5 & E6 & E7).
  set (w1 := rtt_sample p now w) in *.
  pose proof (flight_size_nonneg l' Hl) as Hl0. destruct Hp as [Hd _].
  rewrite (proj2 (Z.leb_le _ _)) by lia. res_simpl. eexists. split; [reflexivity|].
  set (w2 := set_snd_nflight_bytes _ w1).
  destruct (check_cwnd_spec (ntotal_bytes p) w2) as (F1 & F2 & F3 & F4 & F5 & F6 & _ & _ & _ & F7).
  assert (Hn2 : snd_nflight_bytes w2 = flight_size l').
  { unfold w2. simpl. rewrite E1, HF, Hn.
    unfold ntotal_bytes, WCP_HeaderLen, WCP_SND_CWND_MAX, WCP_SND_SSTHRESH_MAX in *.
    rewrite u32_small by range_lia. lia. }
  assert (Hm2 : snd_nflight_bytes_max w2 = snd_nflight_bytes_max w) by exact E2.
  assert (Hc2 : snd_info w2 = snd_info w) by exact E3.
  assert (Hr2 : rto w2 = rto w1) by reflexivity.
  rewrite Hc2 in F7. unfold ntotal_bytes, WCP_HeaderLen in Hn.
  split; [constructor|split; [|split; [|split]]].
  - by rewrite F1.
  - done.
  - rewrite F1, F2, Hn2, Hm2. lia.
  - apply F7. lia.
  - rewrite F6, Hr2. auto.
  - rewrite F1, Hn2. lia.
  - rewrite F4. exact E5.
  - rewrite F5. exact E6.
  - rewrite F3. exact E4.
Qed.

(** Frame rule of the invariant. *)
Lemma flight_inv_same l l' w w' :
  flight_inv l w -> snd_same w w' -> flight_size l' = flight_size l ->
  Forall pack_size_ok l' -> flight_inv l' w'.
Proof.
  intros [] [] E Hl. constructor; congruence.
Qed.

(** The pack the socket accepts again, the pack it refuses. *)
Lemma flight_resend kept p rest now w w1 :
  flight_inv (kept ++ p :: rest) w -> remote_addr w <> 0 -> snd_same w w1 ->
  exists w2 ec, send_pack p w1 = Ok (w2, stamp w1 p, ec) /\ snd_same w w2
    /\ flight_inv ((kept ++ [resent (stamp w1 p) now]) ++ rest) w2
    /\ snd_inv (set_snd_flights (kept ++ stamp w1 p :: rest) (send_failed ec w2))
    /\ snd_same w (set_snd_flights (kept ++ stamp w1 p :: rest) (send_failed ec w2)).
Proof.
  intros HI Hr S1. pose proof (inv_packs _ _ HI) as HP.
  apply Forall_app in HP as [HPk HPf]. inversion HPf as [|?? Hp HPr]; subst.
  destruct (send_pack_ok p w1 Hp) as (w2 & ec & E2 & S2 & _); [by rewrite (same_addr _ _ S1)|].
  assert (S12 : snd_same w w2) by (etrans; eauto).
  assert (Hst : pack_size_ok (stamp w1 p)) by exact Hp.
  assert (Hrs : pack_size_ok (resent (stamp w1 p) now)) by exact Hp.
  assert (S3 : snd_same w (set_snd_flights (kept ++ stamp w1 p :: rest) (send_failed ec w2))).
  { etrans; [exact S12|]. etrans; [apply (send_failed_same ec)|]. same. }
  exists w2, ec. split; [done|]. split; [done|]. split; [|split; [|done]].
  - eapply flight_inv_same; [exact HI | exact S12 | |].
    + rewrite !flight_size_app. simpl.
      change (ntotal_bytes (resent (stamp w1 p) now)) with (ntotal_bytes p). lia.
    + rewrite !Forall_app. auto.
  - eapply flight_inv_same; [exact HI | exact S3 | simpl; by rewrite !flight_size_app |].
    apply Forall_app. auto.
Qed.

(** The loop over the packs in flight never fails an assertion and keeps the
    accounting, whatever the socket answers. *)
Lemma flights_loop_inv fl : forall kept now lost maxt w,
  flight_inv (kept ++ fl) w -> remote_addr w <> 0 ->
  exists w' lost' maxt', flights_loop fl kept now lost maxt w = Ok (w', lost', maxt')
    /\ snd_inv w' /\ snd_nflight_bytes w' <= snd_nflight_bytes w
    /\ remote_addr w' = remote_addr w /\ state w' = state w.
Proof.
  induction fl as [|p rest IH]; intros kept now lost maxt w HI Hr.
  { eexists _, _, _. split; [reflexivity|]. rewrite app_nil_r in HI.
    split; [|split; [reflexivity|split; reflexivity]].
    eapply flight_inv_same; [exact HI | same | done | apply HI]. }
  pose proof (inv_packs _ _ HI) as HP.
  apply Forall_app in HP as [HPk HPf]. inversion HPf as [|?? Hp HPr]; subst.
  cbn [flights_loop]. destruct (flag_on (wcb_flag w) SND_UNA_UPDATE && _).
  - destruct (handle_pack_acked_inv p (kept ++ p :: rest) (kept ++ rest) now w HI Hp)
      as (w1 & E & HI1 & Hle & Hr1 & Hs1 & _).
    { by apply Forall_app. }
    { rewrite !flight_size_app. simpl. lia. }
    rewrite E. res_simpl. destruct (IH kept now lost maxt w1) as (w' & l' & m' & E' & H1 & H2 & H3 & H4);
      [done | congruence |].
    exists w', l', m'. rewrite E'. split; [done|]. split; [done|]. split; [lia|]. split; congruence.
  - set (r := retransmit_reason w now p).
    set (lost' := if r =? 3 then _ else _). set (maxt' := if _ && (maxt <? _) then _ else _).
    set (w1 := if (r =? 3) && _ && _ then _ else w).
    assert (S1 : snd_same w w1) by (unfold w1; destruct (_ && _ && _); same).
    assert (E16 : flight_size ((kept ++ [p]) ++ rest) = flight_size (kept ++ p :: rest)).
    { rewrite !flight_size_app. simpl. lia. }
    destruct (0 <? r).
    + destruct (flight_resend kept p rest now w w1 HI Hr S1) as (w2 & ec & E2 & S2 & HI2 & HI3 & S3).
      rewrite E2. res_simpl. destruct (negb (ec =? OK)).
      * eexists _, _, _. split; [reflexivity|]. split; [exact HI3|].
        rewrite (same_nflight _ _ S3), (same_addr _ _ S3), (same_state _ _ S3). auto with lia.
      * destruct (IH (kept ++ [resent (stamp w1 p) now]) now lost' maxt' w2)
          as (w' & l' & m' & E' & H1 & H2 & H3 & H4); [done | by rewrite (same_addr _ _ S2) |].
        exists w', l', m'. rewrite E'. split; [done|]. split; [done|].
        rewrite <- (same_nflight _ _ S2), <- (same_addr _ _ S2), <- (same_state _ _ S2). auto.
    + destruct (IH (kept ++ [p]) now lost' maxt' w1) as (w' & l' & m' & E' & H1 & H2 & H3 & H4).
      { eapply flight_inv_same; [exact HI | exact S1 | exact E16 |]. rewrite !Forall_app. auto. }
      { by rewrite (same_addr _ _ S1). }
      exists w', l', m'. rewrite E'. split; [done|]. split; [done|].
      rewrite <- (same_nflight _ _ S1), <- (same_addr _ _ S1), <- (same_state _ _ S1). auto.
Qed.

Lemma on_lost_inv now w :
  snd_inv w ->
  exists w', on_lost now w = Ok w' /\ snd_inv w'
    /\ snd_nflight_bytes w' = snd_nflight_bytes w
    /\ remote_addr w' = remote_addr w /\ state w' = state w.
Proof.
  intros [HF HP HM HC HR]. unfold on_lost.
  rewrite (proj2 (Z.leb_le WCP_RTO_MIN (rto w))) by lia. res_simpl.
  pose proof (flight_size_nonneg _ HP) as H0.
  assert (HR' : WCP_RTO_MIN <= WAWO_MIN (Z.shiftr (rto w) 1 +₃₂ rto w) WCP_RTO_MAX <= WCP_RTO_MAX).
  { rewrite wawo_min_spec, Z.shiftr_div_pow2 by lia. unfold WCP_RTO_MIN, WCP_RTO_MAX in *.
    change (2 ^ 1) with 2.
    assert (0 <= rto w / 2 <= rto w)
      by (split; [apply Z.div_pos | apply Z.div_le_upper_bound]; lia).
    rewrite u32_small by range_lia. lia. }
  destruct (_ && _).
  - simpl. rewrite (proj2 (Z.leb_le (snd_nflight_bytes w) _)) by lia. res_simpl.
    eexists. split; [reflexivity|]. split; [|split; [|split]]; try reflexivity.
    constructor; simpl.
    + done.
    + done.
    + rewrite wawo_max_spec, Z.shiftr_div_pow2 by lia. change (2 ^ 1) with 2.
      unfold WCP_SND_CWND_MAX, WCP_SND_SSTHRESH_MAX in *.
      assert (snd_nflight_bytes_max w / 2 <= 8388608) by (apply Z.div_le_upper_bound; lia). lia.
    + unfold WCP_LW, WCP_MTU, WCP_SND_CWND_MAX, WCP_SND_SSTHRESH_MAX. lia.
    + exact HR'.
  - eexists. split; [reflexivity|]. split; [|split; [|split]]; try reflexivity.
    constructor; simpl; done.
Qed.

Lemma check_flights_inv now w :
  snd_inv w -> remote_addr w <> 0 ->
  exists w', check_flights now w = Ok w' /\ snd_inv w'
    /\ snd_nflight_bytes w' <= snd_nflight_bytes w
    /\ remote_addr w' = remote_addr w /\ state w' = state w.
Proof.
  intros HI Hr. unfold check_flights. destruct (negb _ && _).
  { exists w. auto with lia. }
  destruct (flights_loop_inv (snd_flights w) [] now 0 0 (set_snd_last_rto_timer now w))
    as (w1 & l1 & m1 & E & H1 & H2 & H3 & H4).
  { simpl. eapply flight_inv_same; [exact HI | same | done | apply HI]. }
  { done. }
  rewrite E. res_simpl. simpl in H2, H3, H4.
  assert (HI2 : snd_inv (wflag_clear UPDATE_FLAGS w1)).
  { destruct H1. constructor; simpl; done. }
  destruct ((WCP_LOST_THRESHOLD <=? l1) || (5 <=? m1)).
  - destruct (on_lost_inv now _ HI2) as (w' & E' & H' & N' & R' & S'). exists w'.
    simpl in *. split; [done|]. split; [done|]. split; [lia|]. split; congruence.
  - eexists. split; [reflexivity|]. simpl. auto.
Qed.

(** ** The sending queue *)

(** Consecutive sequence numbers (no wrap: see [queue_inv]). *)
Fixpoint consec (n : Z) (l : list WCB_pack) : Prop :=
  match l with [] => True | p :: r => seq (header p) = n /\ consec (n + 1) r end.

Lemma consec_app n l1 l2 : consec n (l1 ++ l2) <-> consec n l1 /\ consec (n + zlen l1) l2.
Proof.
  revert n. induction l1 as [|p l IH]; intros n; simpl.
  - unfold zlen. simpl. rewrite Z.add_0_r. tauto.
  - rewrite IH. unfold zlen. simpl length. rewrite Nat2Z.inj_succ.
    replace (n + 1 + Z.of_nat (length l)) with (n + Z.succ (Z.of_nat (length l))) by lia. tauto.
Qed.

(** A pack of the data phase: neither SYN, FIN nor a pack outside the sequence
    space. *)
Definition CTL_FLAGS : Z :=
  Z.lor (Z.lor WCP_FLAG_SYN WCP_FLAG_FIN)
        (Z.lor WCP_FLAG_SACK (Z.lor WCP_FLAG_KEEP_ALIVE WCP_FLAG_KEEP_ALIVE_REPLY)).

Definition plain (p : WCB_pack) : Prop :=
  pack_size_ok p /\ flag_on (flag (header p)) CTL_FLAGS = false.

Lemma flag_on_sub f m m' : flag_on f m = false -> Z.land m m' = m' -> flag_on f m' = false.
Proof.
  unfold flag_on. rewrite !negb_false_iff, !Z.eqb_eq. intros E <-.
  by rewrite Z.land_assoc, E.
Qed.

Definition payload (p : WCB_pack) : list Z := default [] (data p).
Definition payloads (l : list WCB_pack) : list Z := mjoin (payload <$> l).

Lemma payloads_app l1 l2 : payloads (l1 ++ l2) = payloads l1 ++ payloads l2.
Proof. unfold payloads. by rewrite fmap_app, join_app. Qed.

Lemma payloads_cons p l : payloads (p :: l) = payload p ++ payloads l.
Proof. done. Qed.

(** The queue [q ++ s_sending_standby] holds the next sequence numbers, and
    neither they nor the bytes still to be cut reach the end of the 32-bit
    sequence space. *)
Record queue_inv (q : list WCB_pack) (w : WCB) : Prop := {
  q_plain : Forall plain (q ++ s_sending_standby w);
  q_consec : consec (next (snd_info w)) (q ++ s_sending_standby w);
  q_dsn : dsn (snd_info w) = next (snd_info w) + zlen (q ++ s_sending_standby w);
  q_una : 0 <= una (snd_info w) <= next (snd_info w);
  q_sb : bytes_ringbuffer.wf (sb w);
  q_room : dsn (snd_info w) + bytes_ringbuffer.count (sb w) < 4294967296;
  q_remote : remote_addr w <> 0
}.

(** Everything the peer has not acknowledged and the user has queued. *)
Definition stream_of (q : list WCB_pack) (w : WCB) : list Z :=
  payloads (snd_flights w) ++ payloads (q ++ s_sending_standby w)
  ++ bytes_ringbuffer.contents (sb w).

(** Blocks that differ in the queue position only. *)
Record window_same (w w' : WCB) : Prop := {
  win_cwnd : cwnd (snd_info w') = cwnd (snd_info w);
  win_rwnd : rwnd (snd_info w') = rwnd (snd_info w);
  win_una : una (snd_info w') = una (snd_info w);
  win_state : state w' = state w
}.

#[local] Instance window_same_trans : Transitive window_same.
Proof. intros x y z [] []. constructor; congruence. Qed.

Definition window (w : WCB) : Z := Z.min (cwnd (snd_info w)) (rwnd (snd_info w)).

Lemma window_eq w w' : window_same w w' -> window w' = window w.
Proof. intros []. unfold window. congruence. Qed.

(** The outcome of a stage of [check_send]. *)
Record stage (q q' : list WCB_pack) (w w' : WCB) : Prop := {
  st_flight : snd_inv w';
  st_queue : queue_inv q' w';
  st_same : window_same w w';
  st_stream : stream_of q' w' = stream_of q w;
  st_window : snd_nflight_bytes w' <= Z.max (snd_nflight_bytes w) (window w - 1)
}.

Lemma stage_refl q w : snd_inv w -> queue_inv q w -> stage q q w w.
Proof. intros H1 H2. constructor; auto; [constructor; reflexivity | lia]. Qed.

Lemma stage_trans q1 q2 q3 w1 w2 w3 : stage q1 q2 w1 w2 -> stage q2 q3 w2 w3 -> stage q1 q3 w1 w3.
Proof.
  intros [? ? S1 E1 W1] [? ? S2 E2 W2]. constructor; auto.
  - by etrans.
  - congruence.
  - rewrite (window_eq _ _ S1) in W2. lia.
Qed.

(** Setters outside the send accounting keep the invariants. *)
Lemma stage_same q w w' :
  snd_inv w -> queue_inv q w -> snd_same w w' -> snd_flights w' = snd_flights w ->
  stage q q w w'.
Proof.
  intros HI HQ [] HF. constructor.
  - unfold snd_inv. destruct HI. constructor; congruence.
  - destruct HQ. constructor; congruence.
  - constructor; congruence.
  - unfold stream_of. congruence.
  - lia.
Qed.

Lemma on_flight_stage p q now w w1 :
  snd_inv w -> queue_inv (p :: q) w -> snd_same w w1 -> snd_flights w1 = snd_flights w ->
  ntotal_bytes p + snd_nflight_bytes w < window w ->
  let p' := stamp w p in
  stage (p :: q) q w (on_flight p' now w1).
Proof.
  intros HI HQ S HF Hw p'. destruct HI as [IF IP IM IC IR]. destruct HQ as [QP QC QD QU QS QR QA].
  destruct S as [S1 S2 S3 S4 S5 S6 S7 S8 S9].
  inversion QP as [|?? [Hp Hpl] QP']; subst. destruct Hp as [Hd Hdata].
  simpl in QC. destruct QC as [QC1 QC2].
  pose proof (flight_size_nonneg _ IP) as H0.
  assert (Hz : zlen ((p :: q) ++ s_sending_standby w) = 1 + zlen (q ++ s_sending_standby w)).
  { unfold zlen. simpl. lia. }
  pose proof (zlen_nonneg (q ++ s_sending_standby w)) as Hz0.
  pose proof (bytes_ringbuffer.count_range _ QS) as HC.
  assert (Hnt : ntotal_bytes p' = ntotal_bytes p) by reflexivity.
  assert (Hnt0 : 16 <= ntotal_bytes p <= 1400).
  { unfold ntotal_bytes, WCP_HeaderLen, WCP_MDU, WCP_MTU, WCP_HeaderLen in *. lia. }
  assert (Hwin : window w <= WCP_SND_CWND_MAX) by (unfold window; lia).
  assert (Hadd : snd_nflight_bytes w1 +₃₂ ntotal_bytes p' = snd_nflight_bytes w + ntotal_bytes p).
  { rewrite S1, Hnt. unfold WCP_SND_CWND_MAX, WCP_SND_SSTHRESH_MAX in *. apply u32_small. range_lia. }
  assert (Hnext : next (snd_info w) +₃₂ 1 = next (snd_info w) + 1).
  { apply u32_small. range_lia. }
  unfold on_flight. simpl. rewrite Hadd, S2.
  set (w3 := if _ <? _ then _ else _).
  assert (E3 : snd_nflight_bytes w3 = snd_nflight_bytes w + ntotal_bytes p
    /\ snd_flights w3 = snd_flights w ++ [first_sent p' now]
    /\ snd_info w3 = snd_info w /\ rto w3 = rto w /\ remote_addr w3 = remote_addr w
    /\ state w3 = state w /\ sb w3 = sb w /\ s_sending_standby w3 = s_sending_standby w
    /\ snd_nflight_bytes w3 <= snd_nflight_bytes_max w3 <= WCP_SND_CWND_MAX).
  { unfold w3. destruct (Z.ltb_spec (snd_nflight_bytes_max w) (snd_nflight_bytes w + ntotal_bytes p));
      simpl; rewrite ?S2, ?S3, ?S4, ?S5, ?S7, ?S8, ?S9, ?HF; repeat split; lia. }
  clearbody w3. destruct E3 as (E1 & E2 & E4 & E5 & E6 & E7 & E8 & E9 & E10).
  constructor.
  - unfold snd_inv. simpl. rewrite E2. constructor; simpl; rewrite ?E1, ?E4, ?E5; try lia.
    + rewrite flight_size_app, IF. simpl. change (ntotal_bytes (first_sent p' now)) with (ntotal_bytes p). lia.
    + apply Forall_app. split; [done|]. constructor; [split; done | done].
  - constructor; simpl; rewrite ?E4, ?E6, ?E8, ?E9; simpl; try done.
    + by rewrite Hnext.
    + rewrite Hnext. lia.
    + rewrite Hnext. lia.
  - constructor; simpl; rewrite ?E4; done.
  - unfold stream_of. cbn [snd_flights s_sending_standby sb upd_snd set_snd_info].
    rewrite E2, E8, E9, (payloads_app (snd_flights w)), <- app_comm_cons, payloads_cons, <- !app_assoc.
    rewrite payloads_cons, <- !app_assoc. reflexivity.
  - simpl. rewrite E1. lia.
Qed.

Lemma set_sending_stage q q' qs w w' :
  stage q q' w w' -> stage q q' w (set_snd_sending qs w').
Proof.
  intros [HI HQ [] HS HW]. constructor; simpl; auto.
  - destruct HI. constructor; simpl; auto.
  - destruct HQ. constructor; simpl; auto.
  - constructor; simpl; auto.
Qed.

(** The sum compared with the window does not wrap. *)
Lemma window_sum p w : pack_size_ok p -> snd_inv w ->
  ntotal_bytes p +₃₂ snd_nflight_bytes w = ntotal_bytes p + snd_nflight_bytes w.
Proof.
  intros [Hd _] HI. apply u32_small. pose proof (inv_max _ _ HI). pose proof (inv_flight _ _ HI).
  pose proof (flight_size_nonneg _ (inv_packs _ _ HI)).
  unfold ntotal_bytes, WCP_HeaderLen, WCP_MDU, WCP_MTU, WCP_HeaderLen, WCP_SND_CWND_MAX,
    WCP_SND_SSTHRESH_MAX in *. range_lia.
Qed.

(** A pack the socket refuses stays at the head of the queue. *)
Lemma send_failed_stage p q ec w w1 :
  snd_inv w -> queue_inv (p :: q) w -> snd_same w w1 -> snd_flights w1 = snd_flights w ->
  stage (p :: q) (stamp w p :: q) w (send_failed ec w1).
Proof.
  intros HI HQ S1 F1.
  assert (HF : snd_flights (send_failed ec w1) = snd_flights w1)
    by (unfold send_failed; by destruct (negb _)).
  pose proof (stage_same (p :: q) w w1 HI HQ S1 F1) as ST1.
  eapply stage_trans; [exact ST1|]. destruct ST1 as [HI1 HQ1 _ _ _].
  destruct (stage_same (p :: q) w1 _ HI1 HQ1 (send_failed_same ec w1) HF) as [HI2 HQ2 ? HS2 ?].
  destruct HQ2 as [QP2 QC2' QD2 QU2 QS2 QR2 QA2]. constructor; auto.
  constructor; auto. inversion QP2; subst. constructor; auto.
Qed.

(** The loop over [snd_sending] in the data phase: no assertion fails, nothing
    of the stream is lost, and the flight size stays below the window. *)
Lemma sending_loop_stage q : forall now w,
  snd_inv w -> queue_inv q w ->
  exists w' e, sending_loop q now w = Ok (w', e) /\ stage q (snd_sending w') w w'
    /\ (e = Drained -> snd_sending w' = [])
    /\ s_sending_standby w' = s_sending_standby w /\ sb w' = sb w
    /\ (length (snd_sending w') <= length q)%nat.
Proof.
  induction q as [|p q IH]; intros now w HI HQ.
  { eexists _, _. split; [reflexivity|]. split; [|auto].
    apply set_sending_stage, stage_refl; auto. }
  cbn [sending_loop]. rewrite wawo_min_spec. fold (window w).
  pose proof (q_plain _ _ HQ) as QP. inversion QP as [|?? [Hp Hpl] QP']; subst.
  pose proof (q_consec _ _ HQ) as QC. simpl in QC. destruct QC as [QC1 QC2].
  pose proof (q_una _ _ HQ) as QU.
  rewrite (window_sum p w Hp HI).
  destruct (Z.leb_spec (window w) (ntotal_bytes p + snd_nflight_bytes w)) as [Hfull|Hw].
  { eexists _, _. split; [reflexivity|]. split; [|by auto].
    apply set_sending_stage, stage_refl; auto. }
  rewrite QC1, Z.eqb_refl, (proj2 (Z.leb_le (una (snd_info w)) _)) by lia. res_simpl.
  destruct (send_pack_ok p w Hp (q_remote _ _ HQ)) as (w1 & ec & E1 & S1 & _ & F1 & _).
  rewrite E1. res_simpl. destruct (negb (ec =? OK)).
  - eexists _, _. split; [reflexivity|].
    pose proof (send_failed_stage p q ec w w1 HI HQ S1 F1) as Hst.
    split; [by apply set_sending_stage|]. split; [discriminate|].
    simpl. unfold send_failed. destruct (negb _); simpl; rewrite (same_stby _ _ S1), (same_sb _ _ S1); auto.
  - assert (Hfl : flag_on (flag (header (stamp w p)))
      (Z.lor WCP_FLAG_SACK (Z.lor WCP_FLAG_KEEP_ALIVE WCP_FLAG_KEEP_ALIVE_REPLY)) = false)
      by (eapply flag_on_sub; [exact Hpl | reflexivity]).
    assert (Hfin : WCPPACK_TEST_FLAG (header (stamp w p)) WCP_FLAG_FIN = false)
      by (eapply flag_on_sub; [exact Hpl | reflexivity]).
    assert (Hsyn : WCPPACK_TEST_FLAG (header (stamp w p)) WCP_FLAG_SYN = false)
      by (eapply flag_on_sub; [exact Hpl | reflexivity]).
    rewrite Hfl. res_simpl. rewrite Hfin, Hsyn.
    pose proof (on_flight_stage p q now w w1 HI HQ S1 F1 Hw) as HS. cbv zeta in HS.
    assert (Hb : s_sending_standby (on_flight (stamp w p) now w1) = s_sending_standby w
      /\ sb (on_flight (stamp w p) now w1) = sb w).
    { unfold on_flight. destruct (_ <? _); simpl; by rewrite (same_stby _ _ S1), (same_sb _ _ S1). }
    destruct Hb as [Hb1 Hb2].
    destruct (IH now _ (st_flight _ _ _ _ HS) (st_queue _ _ _ _ HS)) as (w' & e & E & ST & D & B1 & B2 & L).
    exists w', e. rewrite E. split; [done|]. split; [eapply stage_trans; eauto|].
    split; [done|]. split; [congruence|]. split; [congruence|]. simpl. lia.
Qed.

(** ** Cutting the send buffer *)
Lemma data_pack_plain n bytes : zlen bytes <= WCP_MDU -> plain (data_pack n bytes).
Proof.
  intros Hb. pose proof (zlen_nonneg bytes). split; [split|].
  - simpl. change 65535 with (Z.ones 16). rewrite Z.land_ones by lia.
    rewrite Z.mod_small; unfold WCP_MDU, WCP_MTU, WCP_HeaderLen in *; lia.
  - exact Hb.
  - reflexivity.
Qed.

(** One pack cut: nothing of the stream is lost, and the buffer shrinks. *)
Lemma cut_one_stage w :
  snd_inv w -> queue_inv (snd_sending w) w -> s_sending_standby w = [] ->
  0 < bytes_ringbuffer.count (sb w) ->
  exists sb' bytes nread, bytes_ringbuffer.read (sb w) WCP_MDU true = Ok (sb', bytes, nread)
    /\ bytes_ringbuffer.count sb' <= bytes_ringbuffer.count (sb w) - 1
    /\ stage (snd_sending w) (snd_sending (cut_one bytes sb' w)) w (cut_one bytes sb' w).
Proof.
  intros HI HQ Hst Hc.
  destruct HQ as [QP QC QD QU QS QR QA]. rewrite Hst, app_nil_r in QP, QC, QD.
  destruct (bytes_ringbuffer.read_spec (sb w) WCP_MDU true QS) as (sb' & Er & W' & C' & D');
    [unfold WCP_MDU, WCP_MTU, WCP_HeaderLen; range_lia|].
  pose proof (bytes_ringbuffer.zlen_contents _ QS) as HLs.
  pose proof (bytes_ringbuffer.zlen_contents _ W') as HLs'.
  set (bytes := take (Z.to_nat WCP_MDU) (bytes_ringbuffer.contents (sb w))) in *.
  assert (Hbl : zlen bytes <= WCP_MDU).
  { unfold bytes, zlen. rewrite length_take. unfold WCP_MDU, WCP_MTU, WCP_HeaderLen. lia. }
  assert (Hcnt : bytes_ringbuffer.count sb' <= bytes_ringbuffer.count (sb w) - 1).
  { rewrite <- HLs', <- HLs, D'. rewrite <- HLs in Hc. unfold zlen in *. rewrite length_drop.
    unfold WCP_MDU, WCP_MTU, WCP_HeaderLen. lia. }
  pose proof (bytes_ringbuffer.count_range _ W') as Hcr.
  assert (Hdsn : dsn (snd_info w) +₃₂ 1 = dsn (snd_info w) + 1).
  { apply u32_small. pose proof (zlen_nonneg (snd_sending w)). range_lia. }
  set (p := data_pack (dsn (snd_info w)) bytes).
  eexists _, _, _. split; [exact Er|]. split; [done|]. unfold cut_one.
  fold bytes p.
  constructor.
  - destruct HI. constructor; simpl; done.
  - constructor; simpl; rewrite ?Hst, ?app_nil_r, ?Hdsn; auto.
    + apply Forall_app. split; [done|]. constructor; [by apply data_pack_plain | done].
    + apply consec_app. split; [done|]. simpl. split; [|done]. lia.
    + rewrite zlen_app. unfold zlen at 2. simpl. lia.
    + lia.
  - constructor; done.
  - assert (Hbs : bytes ++ bytes_ringbuffer.contents sb' = bytes_ringbuffer.contents (sb w))
      by (rewrite D'; apply take_drop).
    unfold stream_of. cbn [snd_flights s_sending_standby sb upd_snd set_snd_info snd_sending
      set_snd_sending set_sb]. rewrite Hst, !app_nil_r, <- Hbs, payloads_app, <- !app_assoc.
    change (payloads [p]) with (bytes ++ []). by rewrite app_nil_r.
  - simpl. lia.
Qed.

(** What cutting keeps: as [stage], with an empty standby queue. *)
Lemma cut_loop_stage fuel : forall nmax w,
  snd_inv w -> queue_inv (snd_sending w) w -> s_sending_standby w = [] ->
  bytes_ringbuffer.count (sb w) <= Z.of_nat fuel ->
  exists w', cut_loop fuel nmax w = Ok w' /\ stage (snd_sending w) (snd_sending w') w w'
    /\ s_sending_standby w' = []
    /\ zlen (snd_sending w') + bytes_ringbuffer.count (sb w')
       <= zlen (snd_sending w) + bytes_ringbuffer.count (sb w).
Proof.
  induction fuel as [|f IH]; intros nmax w HI HQ Hst Hf; cbn [cut_loop].
  { rewrite (proj2 (Z.ltb_ge 0 _)) by (simpl in Hf; lia). simpl.
    exists w. split; [done|]. split; [by apply stage_refl|]. split; [done|]. lia. }
  destruct (Z.ltb_spec 0 (bytes_ringbuffer.count (sb w))) as [Hc|Hc];
    [|simpl; exists w; split; [done|]; split; [by apply stage_refl|]; split; [done|]; lia].
  destruct (0 <? nmax); simpl;
    [|exists w; split; [done|]; split; [by apply stage_refl|]; split; [done|]; lia].
  destruct (cut_one_stage w HI HQ Hst Hc) as (sb' & bytes & nread & Er & Hcnt & H1).
  rewrite Er. res_simpl. set (w1 := cut_one _ _ _) in *.
  destruct (IH (nmax -₃₂ nread) w1
      (st_flight _ _ _ _ H1) (st_queue _ _ _ _ H1)) as (w' & E & ST & B & L).
  { exact Hst. }
  { simpl. lia. }
  exists w'. split; [exact E|]. split; [by eapply stage_trans|]. split; [done|].
  simpl in L. rewrite zlen_app in L. unfold zlen at 3 in L. simpl in L. lia.
Qed.

Lemma refill_stage w :
  snd_inv w -> queue_inv (snd_sending w) w ->
  exists w', refill w = Ok w' /\ stage (snd_sending w) (snd_sending w') w w'
    /\ s_sending_standby w' = []
    /\ zlen (snd_sending w') + bytes_ringbuffer.count (sb w')
       <= zlen (snd_sending w) + zlen (s_sending_standby w) + bytes_ringbuffer.count (sb w).
Proof.
  intros HI HQ. unfold refill. set (w1 := set_s_sending_standby [] _).
  assert (H1 : stage (snd_sending w) (snd_sending w1) w w1).
  { constructor.
    - destruct HI. constructor; simpl; done.
    - destruct HQ. constructor; simpl; rewrite ?app_nil_r; done.
    - constructor; done.
    - unfold stream_of. simpl. by rewrite app_nil_r.
    - simpl. lia. }
  assert (HL : zlen (snd_sending w1) = zlen (snd_sending w) + zlen (s_sending_standby w))
    by (simpl; apply zlen_app).
  destruct (negb _ && _).
  - destruct (cut_loop_stage (Z.to_nat (bytes_ringbuffer.count (sb w1)))
      (cwnd (snd_info w1) -₃₂ snd_nflight_bytes w1) w1) as (w' & E & ST & B & L);
      [apply H1 | apply H1 | done | simpl; pose proof (bytes_ringbuffer.count_range _ (q_sb _ _ HQ)); lia |].
    exists w'. split; [exact E|]. split; [by eapply stage_trans|]. split; [done|].
    change (sb w1) with (sb w) in L. lia.
  - exists w1. split; [done|]. split; [done|]. split; [done|]. change (sb w1) with (sb w). lia.
Qed.

Lemma send_rounds_stage fuel : forall now w,
  snd_inv w -> queue_inv (snd_sending w) w ->
  zlen (snd_sending w) + 2 * zlen (s_sending_standby w)
    + 2 * bytes_ringbuffer.count (sb w) < Z.of_nat fuel ->
  exists w', send_rounds fuel now w = Ok w' /\ stage (snd_sending w) (snd_sending w') w w'.
Proof.
  induction fuel as [|f IH]; intros now w HI HQ Hf.
  { exfalso. pose proof (zlen_nonneg (snd_sending w)). pose proof (zlen_nonneg (s_sending_standby w)).
    pose proof (bytes_ringbuffer.count_range _ (q_sb _ _ HQ)). simpl in Hf. lia. }
  cbn [send_rounds].
  destruct (sending_loop_stage (snd_sending w) now w HI HQ) as (w1 & e & E & ST & D & B1 & B2 & L).
  rewrite E. res_simpl. destruct e.
  - rewrite D in ST by done.
    destruct (refill_stage w1) as (w2 & E2 & ST2 & B3 & L2).
    { apply ST. }
    { rewrite D by done. apply ST. }
    rewrite E2. res_simpl. rewrite D in ST2, L2 by done.
    assert (ST3 : stage (snd_sending w) (snd_sending w2) w w2) by (by eapply stage_trans).
    rewrite B1, B2 in L2. change (zlen (@nil WCB_pack)) with 0 in L2.
    destruct (snd_sending w2) as [|p q] eqn:Eq.
    + exists w2. by rewrite Eq.
    + rewrite <- Eq in *. destruct (IH now w2) as (w' & E' & ST').
      { apply ST3. }
      { apply ST3. }
      { rewrite B3. change (zlen (@nil WCB_pack)) with 0.
        assert (1 <= zlen (snd_sending w2)) by (rewrite Eq; unfold zlen; simpl; lia).
        pose proof (zlen_nonneg (snd_sending w)). lia. }
      exists w'. split; [done|]. by eapply stage_trans.
  - exists w1. split; [done|]. done.
Qed.

(** The control packs outside the sequence space. *)
Definition ignored_ok (q : list (WCB_pack * nat)) : Prop := Forall (fun pk => pack_size_ok pk.1) q.

Lemma send_ignored_stage q : forall w,
  snd_inv w -> queue_inv (snd_sending w) w -> ignored_ok q ->
  exists w' e, send_ignored q w = Ok (w', e) /\ stage (snd_sending w) (snd_sending w') w w'
    /\ snd_sending w' = snd_sending w /\ s_sending_standby w' = s_sending_standby w
    /\ sb w' = sb w.
Proof.
  induction q as [|[p k] q IH]; intros w HI HQ Hq.
  { eexists _, _. split; [reflexivity|]. split; [|auto].
    apply stage_same; [done | done | same | done]. }
  inversion Hq as [|?? Hp Hq']; subst. simpl in Hp. cbn [send_ignored].
  revert p w Hp HI HQ Hq. induction k as [|k IHk]; intros p w Hp HI HQ Hq.
  - by apply IH.
  - destruct (send_pack_ok p w Hp (q_remote _ _ HQ)) as (w1 & ec & E1 & S1 & N1 & F1 & _).
    rewrite E1. res_simpl.
    pose proof (stage_same _ w w1 HI HQ S1 F1) as ST1. destruct (negb (ec =? OK)).
    + eexists _, _. split; [reflexivity|].
      set (w2 := set_s_sending_ignore_seq_space _ _).
      assert (S2 : snd_same w1 w2) by (etrans; [apply (send_failed_same ec)|same]).
      assert (F2 : snd_flights w2 = snd_flights w1)
        by (unfold w2, send_failed; by destruct (negb _)).
      assert (N2 : snd_sending w2 = snd_sending w)
        by (unfold w2, send_failed; destruct (negb _); exact N1).
      rewrite N2. split.
      { eapply stage_trans; [exact ST1|]. apply stage_same; [apply ST1 | apply ST1 | done | done]. }
      rewrite (same_stby _ _ S2), (same_stby _ _ S1), (same_sb _ _ S2), (same_sb _ _ S1). auto.
    + destruct (IHk (stamp w p) w1) as (w' & e & E & ST & N & B1 & B2).
      * exact Hp.
      * apply ST1.
      * rewrite N1. apply ST1.
      * constructor; [exact Hp | done].
      * exists w', e. split; [exact E|]. rewrite N1 in ST, N.
        split; [by eapply stage_trans|]. split; [done|].
        rewrite B1, B2, (same_stby _ _ S1), (same_sb _ _ S1). auto.
Qed.

Lemma rwnd_update_stage now w :
  snd_inv w -> queue_inv (snd_sending w) w -> ignored_ok (s_sending_ignore_seq_space w) ->
  stage (snd_sending w) (snd_sending w) w (rwnd_update now w)
  /\ snd_sending (rwnd_update now w) = snd_sending w
  /\ s_sending_standby (rwnd_update now w) = s_sending_standby w
  /\ sb (rwnd_update now w) = sb w
  /\ ignored_ok (s_sending_ignore_seq_space (rwnd_update now w)).
Proof.
  intros HI HQ Hq. unfold rwnd_update. destruct (_ && _);
    [|split; [by apply stage_refl | auto]].
  destruct (s_sending_ignore_seq_space w) as [|[p k] rest] eqn:Eq; simpl.
  - split; [apply stage_same; [done|done|same|done]|].
    rewrite Eq. simpl. repeat split. constructor; [|constructor].
    split; [simpl; unfold WCP_MDU, WCP_MTU, WCP_HeaderLen; lia | done].
  - split; [apply stage_same; [done|done|same|done]|]. repeat split.
    inversion Hq as [|?? Hp Hq']; subst. constructor; done.
Qed.

(** A refill whose budget exceeds the send buffer empties it. *)
Lemma cut_loop_drains fuel : forall nmax w,
  bytes_ringbuffer.wf (sb w) -> bytes_ringbuffer.count (sb w) <= Z.of_nat fuel ->
  bytes_ringbuffer.count (sb w) < nmax -> nmax < 4294967296 ->
  exists w', cut_loop fuel nmax w = Ok w' /\ bytes_ringbuffer.count (sb w') = 0.
Proof.
  induction fuel as [|f IH]; intros nmax w W Hf Hn Hn2; cbn [cut_loop];
    pose proof (bytes_ringbuffer.count_range _ W) as HR.
  { rewrite (proj2 (Z.ltb_ge 0 _)) by (simpl in Hf; lia). simpl.
    exists w. split; [done|]. simpl in Hf. lia. }
  destruct (Z.ltb_spec 0 (bytes_ringbuffer.count (sb w))) as [Hc|Hc];
    [|simpl; exists w; split; [done|]; lia].
  rewrite (proj2 (Z.ltb_lt 0 nmax)) by lia. simpl.
  destruct (bytes_ringbuffer.read_spec (sb w) WCP_MDU true W) as (sb' & Er & W' & C' & D');
    [unfold WCP_MDU, WCP_MTU, WCP_HeaderLen; range_lia|].
  rewrite Er. res_simpl.
  pose proof (bytes_ringbuffer.zlen_contents _ W) as HL.
  pose proof (bytes_ringbuffer.zlen_contents _ W') as HL'.
  assert (Hcnt : bytes_ringbuffer.count sb'
    = bytes_ringbuffer.count (sb w) - Z.min WCP_MDU (bytes_ringbuffer.count (sb w))).
  { rewrite <- HL', D', <- HL. unfold zlen. rewrite length_drop.
    unfold WCP_MDU, WCP_MTU, WCP_HeaderLen. lia. }
  rewrite HL. rewrite u32_small by (unfold WCP_MDU, WCP_MTU, WCP_HeaderLen in *; range_lia).
  apply IH; simpl; unfold WCP_MDU, WCP_MTU, WCP_HeaderLen in *; (done || lia).
Qed.

(** The front of the queue when it is not the next number of the sequence. *)
Lemma sending_loop_bad_seq p rest now w :
  ntotal_bytes p +₃₂ snd_nflight_bytes w < window w -> seq (header p) <> next (snd_info w) ->
  sending_loop (p :: rest) now w = Fault AssertFailed.
Proof.
  intros Hw Hn. cbn [sending_loop]. rewrite wawo_min_spec. fold (window w).
  rewrite (proj2 (Z.leb_gt (window w) _)) by lia. by rewrite (proj2 (Z.eqb_neq _ _)) by done.
Qed.

(** The transmission of a FIN at the front of the queue. *)
Lemma sending_loop_fin p rest now w :
  flag (header p) = WCP_FLAG_FIN -> seq (header p) = next (snd_info w) ->
  pack_size_ok p -> remote_addr w <> 0 -> state w = WCB_ESTABLISHED ->
  una (snd_info w) <= next (snd_info w) -> 0 <= next (snd_info w) < 4294967295 ->
  0 <= snd_nflight_bytes w -> ntotal_bytes p + snd_nflight_bytes w < window w ->
  window w < 4294967296 -> (forall n to m, sendto_ec n to m = OK) ->
  exists w', sending_loop (p :: rest) now w = Ok (w', Drained)
    /\ snd_sending w' = first_sent (stamp w p) now :: rest
    /\ s_flag w' = flag_set (s_flag w) WRITE_LOCAL_FIN_SENT
    /\ window w' = window w /\ next (snd_info w') = next (snd_info w) + 1
    /\ snd_nflight_bytes w' = ntotal_bytes p + snd_nflight_bytes w.
Proof.
  intros Hfl Hseq Hp Hr Hst Hu Hn H0 Hw Hw2 Hec.
  assert (Hd : 16 <= ntotal_bytes p <= 1400).
  { destruct Hp as [Hd _].
    unfold ntotal_bytes, WCP_HeaderLen, WCP_MDU, WCP_MTU, WCP_HeaderLen in *. lia. }
  cbn [sending_loop]. rewrite wawo_min_spec. fold (window w).
  rewrite u32_small by range_lia. rewrite (proj2 (Z.leb_gt (window w) _)) by lia.
  rewrite Hseq, Z.eqb_refl, (proj2 (Z.leb_le (una (snd_info w)) _)) by lia. res_simpl.
  destruct (send_pack_ok p w Hp Hr) as (w1 & ec & E & S & _ & F & Fl & Hok).
  rewrite E, (Hok Hec). res_simpl. cbn [Z.eqb negb OK].
  unfold WCPPACK_TEST_FLAG. change (flag (header (stamp w p))) with (flag (header p)).
  rewrite Hfl. change (flag_on WCP_FLAG_FIN WCP_FLAG_FIN) with true.
  change (flag_on WCP_FLAG_FIN
    (Z.lor WCP_FLAG_SACK (Z.lor WCP_FLAG_KEEP_ALIVE WCP_FLAG_KEEP_ALIVE_REPLY))) with false.
  cbn [negb]. res_simpl.
  assert (Hn2 : snd_nflight_bytes w1 +₃₂ ntotal_bytes (stamp w p)
    = ntotal_bytes p + snd_nflight_bytes w).
  { change (ntotal_bytes (stamp w p)) with (ntotal_bytes p). rewrite (same_nflight _ _ S).
    rewrite u32_small by range_lia. lia. }
  assert (Hn1 : next (snd_info w) +₃₂ 1 = next (snd_info w) + 1) by (apply u32_small; range_lia).
  set (w2 := on_flight _ _ _).
  assert (H2 : state w2 = WCB_ESTABLISHED /\ window w2 = window w /\ s_flag w2 = s_flag w
    /\ next (snd_info w2) = next (snd_info w) + 1
    /\ snd_nflight_bytes w2 = ntotal_bytes p + snd_nflight_bytes w).
  { unfold w2, on_flight, window. simpl. rewrite Hn2.
    destruct (_ <? _); simpl; rewrite (same_info _ _ S), (same_state _ _ S), Fl, Hn1; auto. }
  clearbody w2. destruct H2 as (H1 & H2 & H3 & H4 & H5).
  unfold fin_sent. rewrite H1. res_simpl. eexists. split; [reflexivity|]. simpl.
  split; [done|]. split; [by rewrite H3|]. unfold window in *. simpl. auto.
Qed.

(** A whole [check_send]: the stages in sequence. *)
Lemma check_send_inv now w :
  snd_inv w -> queue_inv (snd_sending w) w -> ignored_ok (s_sending_ignore_seq_space w) ->
  exists w', check_send now w = Ok w' /\ snd_inv w' /\ queue_inv (snd_sending w') w'
    /\ stream_of (snd_sending w') w' = stream_of (snd_sending w) w
    /\ snd_nflight_bytes w' <= Z.max (snd_nflight_bytes w) (window w - 1)
    /\ state w' = state w.
Proof.
  intros HI HQ Hq. unfold check_send. destruct (flag_on (s_flag w) WRITE_SEND_ERROR).
  { exists w. split; [done|]. split; [done|]. split; [done|]. split; [done|]. split; [lia|done]. }
  destruct (rwnd_update_stage now w HI HQ Hq) as (ST1 & N1 & B1 & B2 & Hq1).
  set (w1 := rwnd_update now w) in *. rewrite <- N1 in ST1 at 2.
  destruct (send_ignored_stage (s_sending_ignore_seq_space w1) w1
    (st_flight _ _ _ _ ST1) (st_queue _ _ _ _ ST1) Hq1) as (w2 & e & E & ST2 & N2 & B3 & B4).
  rewrite E. res_simpl. assert (ST12 : stage (snd_sending w) (snd_sending w2) w w2)
    by (by eapply stage_trans).
  destruct e.
  - destruct (send_rounds_stage (send_fuel w2) now w2) as (w' & E' & ST').
    { apply ST12. }
    { apply ST12. }
    { unfold send_fuel, zlen.
      pose proof (bytes_ringbuffer.count_range _ (q_sb _ _ (st_queue _ _ _ _ ST12))). lia. }
    destruct (stage_trans _ _ _ _ _ _ ST12 ST') as [H1 H2 [_ _ _ H3] H4 H5].
    exists w'. auto 10.
  - destruct ST12 as [H1 H2 [_ _ _ H3] H4 H5]. exists w2. auto 10.
Qed.

(** ** Properties *)


(** C29: [check_flights] never fails an assertion whatever the socket answers: it
    acknowledges, retransmits and reacts to losses keeping the flight size
    equal to the bytes of the packs in flight, the window within its maximum,
    and the retransmission timeout between 100 ms and 60 s. *)
Theorem wcp_check_flights_keeps_accounting now w :
  snd_inv w -> remote_addr w <> 0 ->
  exists w', check_flights now w = Ok w' /\ snd_inv w'
    /\ snd_nflight_bytes w' <= snd_nflight_bytes w
    /\ remote_addr w' = remote_addr w /\ state w' = state w.
Proof. apply check_flights_inv. Qed.

(** Once the first round trip time was measured, no later sample changes the
    smoothed round trip time or its variance: the weights [(1/8)] and [(1/4)]
    are integer divisions, equal to 0. *)
Theorem wcp_rtt_never_updated p now w :
  flag_on (wcb_flag w) WCB_FLAG_FIRST_RTT_DONE = true -> is_u32 (srtt w) -> is_u32 (rttvar w) ->
  srtt (rtt_sample p now w) = srtt w /\ rttvar (rtt_sample p now w) = rttvar w.
Proof.
  intros HF Hs Hv. unfold rtt_sample. destruct (sent_times p =? 1); [|done]. rewrite HF. simpl.
  change WCP_SRTT_ALPHA with 0. change WCP_RTTVAR_BETA with 0. rewrite !Z.mul_0_l, !Z.sub_0_r.
  rewrite !Z.mul_1_l. change (u32 0) with 0. rewrite !Z.add_0_r.
  by rewrite !(u32_small (srtt w)), !(u32_small (rttvar w)) by done.
Qed.

(** Sending a FIN always ends in a failed assertion: after a FIN left in
    the ESTABLISHED state the loop is left by [break] before the [pop], the FIN
    stays at the front of the queue, and the next round of [_begin_send] finds
    it with a sequence number below [snd_info.next]. *)
Theorem wcp_fin_asserts now w p rest :
  snd_sending w = p :: rest -> flag (header p) = WCP_FLAG_FIN -> seq (header p) = next (snd_info w) ->
  pack_size_ok p -> remote_addr w <> 0 -> state w = WCB_ESTABLISHED ->
  una (snd_info w) <= next (snd_info w) -> 0 <= next (snd_info w) < 4294967295 ->
  0 <= snd_nflight_bytes w -> 2 * ntotal_bytes p + snd_nflight_bytes w < window w ->
  window w < 4294967296 ->
  s_flag w = 0 -> r_flag w = 0 -> s_sending_ignore_seq_space w = [] ->
  (forall n to m, sendto_ec n to m = OK) ->
  check_send now w = Fault AssertFailed.
Proof.
  intros Eq Hfl Hseq Hp Hr Hst Hu Hn H0 Hw Hw2 Hs Hrf Hig Hec.
  unfold check_send, rwnd_update. rewrite Hs, Hrf.
  change (flag_on 0 WRITE_SEND_ERROR) with false.
  change (flag_on 0 READ_RWND_MORE_THAN_MTU) with false. cbn [andb]. rewrite Hig.
  cbn [send_ignored]. res_simpl. set (w0 := set_s_sending_ignore_seq_space [] w).
  change (send_fuel w0) with (S (S (S (length (snd_sending w) + 2 * length (s_sending_standby w)
    + 2 * Z.to_nat (bytes_ringbuffer.count (sb w)))))).
  generalize (length (snd_sending w) + 2 * length (s_sending_standby w)
    + 2 * Z.to_nat (bytes_ringbuffer.count (sb w)))%nat. intros fuel.
  assert (Hd : 16 <= ntotal_bytes p).
  { destruct Hp as [Hd _]. unfold ntotal_bytes, WCP_HeaderLen. lia. }
  destruct (sending_loop_fin p rest now w0 Hfl Hseq Hp Hr Hst Hu Hn H0) as
    (w1 & E & Q1 & S1 & W1 & N1 & B1); [change (window w0) with (window w);
    change (snd_nflight_bytes w0) with (snd_nflight_bytes w); lia | exact Hw2 | exact Hec |].
  remember (S (S fuel)) as fuel' eqn:Ef. cbn [send_rounds].
  change (snd_sending w0) with (snd_sending w). rewrite Eq, E. res_simpl.
  unfold refill. cbn [s_flag set_snd_sending set_s_sending_standby]. rewrite S1.
  change (s_flag w0) with (s_flag w). rewrite Hs.
  change (flag_on (flag_set 0 WRITE_LOCAL_FIN_SENT) WRITE_LOCAL_FIN_SENT) with true.
  cbn [negb andb]. res_simpl. cbn [snd_sending set_snd_sending set_s_sending_standby].
  rewrite Q1, Ef. cbn [app send_rounds snd_sending set_snd_sending
    set_s_sending_standby].
  rewrite sending_loop_bad_seq; [reflexivity | |].
  - change (ntotal_bytes (first_sent (stamp w0 p) now)) with (ntotal_bytes p).
    unfold window in *. cbn [snd_nflight_bytes snd_info set_snd_sending set_s_sending_standby].
    rewrite B1, W1. change (snd_nflight_bytes w0) with (snd_nflight_bytes w).
    change (snd_info w0) with (snd_info w). rewrite u32_small by range_lia. lia.
  - cbn [snd_info set_snd_sending set_s_sending_standby]. rewrite N1.
    change (seq (header (first_sent (stamp w0 p) now))) with (seq (header p)).
    rewrite Hseq. change (snd_info w0) with (snd_info w). lia.
Qed.

(** C40: When losses have shrunk the congestion window below the bytes in
    flight, the refill does not stop: the budget [cwnd - nflight] wraps around
    to almost 2^32 and the whole send buffer is cut in packs. *)
Theorem wcp_refill_budget_wraps w :
  bytes_ringbuffer.wf (sb w) -> flag_on (s_flag w) WRITE_LOCAL_FIN_SENT = false ->
  0 <= cwnd (snd_info w) -> cwnd (snd_info w) < snd_nflight_bytes w <= WCP_SND_CWND_MAX ->
  exists w', refill w = Ok w' /\ bytes_ringbuffer.count (sb w') = 0.
Proof.
  intros W Hf Hc Hn. unfold refill. simpl. rewrite Hf. simpl.
  pose proof (bytes_ringbuffer.count_range _ W) as HR. pose proof W as [WC _ _ _].
  unfold bytes_ringbuffer.MAX_RING_BUFFER_SIZE, WCP_SND_CWND_MAX, WCP_SND_SSTHRESH_MAX in *.
  assert (Hb : cwnd (snd_info w) -₃₂ snd_nflight_bytes w
    = cwnd (snd_info w) - snd_nflight_bytes w + 4294967296).
  { unfold u32. symmetry. apply Z.mod_unique with (q := -1); lia. }
  rewrite Hb. rewrite (proj2 (Z.ltb_lt WCP_MTU _)) by (unfold WCP_MTU; lia).
  apply cut_loop_drains; simpl; (done || lia).
Qed.
End proofs.

(** ** Witnesses *)
#[local] Existing Instance sample_env.

(** The user queued three bytes; one pack is in flight. *)
Definition sending_wcb : WCB :=
  set_sb (sample_ring_with [10; 20; 30])
    (upd_snd (fun s => set_dsn 1 (set_next 1 s))
       (set_snd_nflight_bytes_max 18 (set_snd_nflight_bytes 18
          (set_snd_flights [mk_pack (mk_header 0 0 0 WCP_FLAG_DAT 2) (Some [1; 2]) 0 1] sample_wcb)))).

Lemma sending_wcb_inv : snd_inv sending_wcb.
Proof.
  constructor; try reflexivity; try (vm_compute; intuition discriminate).
  constructor; [|constructor]. split; vm_compute; intuition discriminate.
Qed.


Lemma wcp_check_flights_keeps_accounting_witness :
  exists w', check_flights 5000 sending_wcb = Ok w' /\ snd_inv w'
    /\ snd_nflight_bytes w' <= snd_nflight_bytes sending_wcb
    /\ remote_addr w' = remote_addr sending_wcb /\ state w' = state sending_wcb.
Proof.
  apply (wcp_check_flights_keeps_accounting 5000 sending_wcb).
  - exact sending_wcb_inv.
  - discriminate.
Defined.

Definition measured_wcb : WCB :=
  set_srtt 40 (set_rttvar 20 (set_wcb_flag WCB_FLAG_FIRST_RTT_DONE sample_wcb)).

Lemma wcp_rtt_never_updated_witness :
  let p := mk_pack (mk_header 3 0 0 WCP_FLAG_DAT 2) (Some [1; 2]) 1000 1 in
  srtt (rtt_sample p 9000 measured_wcb) = 40 /\ rttvar (rtt_sample p 9000 measured_wcb) = 20.
Proof.
  apply (wcp_rtt_never_updated _ 9000 measured_wcb); [reflexivity | split; discriminate || reflexivity ..].
Defined.

Definition fin_wcb : WCB := set_snd_sending [ctl_pack 0 WCP_FLAG_FIN] sample_wcb.

Lemma wcp_fin_asserts_witness : check_send 5000 fin_wcb = Fault AssertFailed.
Proof.
  apply (wcp_fin_asserts 5000 fin_wcb (ctl_pack 0 WCP_FLAG_FIN) []);
    try reflexivity; try (vm_compute; intuition discriminate).
Defined.

Definition shrunk_wcb : WCB :=
  set_sb (sample_ring_with [10; 20; 30])
    (upd_snd (set_cwnd (WCP_LW * WCP_MTU)) (set_snd_nflight_bytes 14000 sample_wcb)).

Lemma wcp_refill_budget_wraps_witness :
  exists w', refill shrunk_wcb = Ok w' /\ bytes_ringbuffer.count (sb w') = 0.
Proof.
  apply (wcp_refill_budget_wraps shrunk_wcb); try reflexivity.
  - constructor; vm_compute; intuition discriminate.
  - discriminate.
  - split; [reflexivity | discriminate].
Defined.
