(* ===== verification/WcpRecv.v ===== *)
(** * WcpRecv: the receiving half of a control block ([src/net/wcp.cpp])

    [check_recv]: the datagrams queued by the reader are sorted into
    [rcv_received], acknowledged (SACK), their acknowledgements applied to the
    packs in flight, and the packs that continue the sequence are delivered:
    payload to the receive ring, SYN, ACK, FIN and RST to the state machine. *)

From S2P Require Import Prelude Bytes Ring WcpData WcpCodec WcpSend.
Import bytes_helper.

(** ** Sorting a pack into [rcv_received]

    The code walks the list backwards; [ins_back] does on the reversed list,
    [None] when the sequence number is already there. *)
Fixpoint ins_back (p : WCB_received_pack) (rl : list WCB_received_pack)
    : option (list WCB_received_pack) :=
  match rl with
  | [] => Some [p]
  | q :: r =>
      if seq (rheader q) =? seq (rheader p) then None
      else if seq (rheader p) <? seq (rheader q) then cons q <$> ins_back p r
      else Some (p :: q :: r)
  end.

Definition rcv_insert (p : WCB_received_pack) (l : list WCB_received_pack)
    : list WCB_received_pack :=
  match ins_back p (rev l) with Some rl => rev rl | None => l end.

(** The sequence numbers of a SACK, read until the payload is empty: [read]
    asserts on a remainder shorter than four bytes. *)
Fixpoint sacked_seqs (bytes : list Z) : res (list Z) :=
  match bytes with
  | [] => Ok []
  | a :: b :: c :: d :: r => l ← sacked_seqs r; Ok (read_u32 [a; b; c; d] :: l)
  | _ => Fault AssertFailed
  end.

(** ** One received pack (the loop over [received_vec]) *)
Definition upd_rcv (f : WCB_RcvInfo -> WCB_RcvInfo) (w : WCB) : WCB := set_rcv_info (f (rcv_info w)) w.
Definition set_rwnd_ (v : Z) (r : WCB_RcvInfo) : WCB_RcvInfo := mk_rcv v (rnext r).
Definition set_rnext (v : Z) (r : WCB_RcvInfo) : WCB_RcvInfo := mk_rcv (rwnd_ r) v.

(** The acknowledgement and the window the header carries. *)
Definition recv_ack (h : WCP_Header) (w : WCB) : WCB :=
  let w1 := if una (snd_info w) <? ack h
            then upd_snd (set_rwnd (wnd h)) (wflag_set SND_UNA_UPDATE (upd_snd (set_una (ack h)) w))
            else w in
  if WCPPACK_TEST_FLAG h WCP_FLAG_WND then upd_snd (set_rwnd (wnd h)) w1 else w1.

(** [acked] is [acked_queue]. *)
Definition recv_one (p : WCB_received_pack) (acked : list Z) (w : WCB) : res (WCB * list Z) :=
  let h := rheader p in
  let w1 := recv_ack h w in
  if WCPPACK_TEST_FLAG h WCP_FLAG_SACK then
    match rdata p with
    | Some ((_ :: _) as d) => l ← sacked_seqs d; Ok (w1, acked ++ l)
    | _ => Fault AssertFailed
    end
  else if WCPPACK_TEST_FLAG h WCP_FLAG_KEEP_ALIVE then Ok (keepalive_reply w1, acked)
  else if WCPPACK_TEST_FLAG h WCP_FLAG_KEEP_ALIVE_REPLY then Ok (w1, acked)
  else
    let w2 := set_snd_sacked_pack_tmp (snd_sacked_pack_tmp w1 ++ write_u32 (seq h)) w1 in
    if seq h <? rnext (rcv_info w2) then Ok (w2, acked)
    else Ok (set_rcv_received (rcv_insert p (rcv_received w2)) w2, acked).

Fixpoint recv_loop (l : list WCB_received_pack) (acked : list Z) (w : WCB) : res (WCB * list Z) :=
  match l with
  | [] => Ok (w, acked)
  | p :: r => '(w', acked') ← recv_one p acked w; recv_loop r acked' w'
  end.

(** The acknowledgement of everything received in this round. *)
Definition send_sacks (w : WCB) : res WCB :=
  match snd_sacked_pack_tmp w with
  | [] => Ok w
  | s => w' ← SACK s w; Ok (set_snd_sacked_pack_tmp [] w')
  end.

(** ** Selective acknowledgements (the loop over [acked_queue]) *)
Section recv.
Context `{wcp_env}.

(** [std::find_if] and [erase]. *)
Fixpoint find_flight (a : Z) (l : list WCB_pack) : option (WCB_pack * list WCB_pack) :=
  match l with
  | [] => None
  | p :: r =>
      if seq (header p) =? a then Some (p, r)
      else '(q, r') ← find_flight a r; Some (q, p :: r')
  end.

(** Fast recovery: the window lost to the detected loss is given back. *)
Definition fast_recover (w : WCB) : WCB :=
  let w1 := upd_snd (fun s => set_cwnd
              (WAWO_MIN (cwnd s +₃₂ snd_lost_cwnd_for_fast_recovery_compensation w) WCP_SND_CWND_MAX) s) w in
  let new_ssthresh := WAWO_MIN (cwnd (snd_info w1)) WCP_SND_SSTHRESH_MAX in
  let w2 := upd_snd (fun s => set_ssthresh (WAWO_MAX new_ssthresh (ssthresh s)) s) w1 in
  wflag_clear SND_LOST_DETECTED (wflag_set SND_FAST_RECOVERED
    (set_snd_lost_cwnd_for_fast_recovery_compensation 0 w2)).

Definition ack_one (a now : Z) (w : WCB) : res WCB :=
  if a <? una (snd_info w) then Ok w
  else
    let w1 := if snd_biggest_ack w <? a
              then wflag_set SND_BIGGEST_SACK_UPDATE (set_snd_biggest_ack a w) else w in
    w2 ← match find_flight a (snd_flights w1) with
         | Some (p, rest) => w' ← _handle_pack_acked p now w1; Ok (set_snd_flights rest w')
         | None => Ok w1
         end;
    if flag_on (wcb_flag w2) SND_LOST_DETECTED && (snd_lost_biggest_seq w2 <? a) then
      let w3 := set_snd_lost_bigger_than_lost_seq_time
                  (u8 (snd_lost_bigger_than_lost_seq_time w2 + 1)) w2 in
      if (1 <=? snd_lost_bigger_than_lost_seq_time w3)
         && (snd_lost_biggest_seq w3 <? una (snd_info w3))
      then Ok (fast_recover w3) else Ok w3
    else Ok w2.

Fixpoint ack_loop (acked : list Z) (now : Z) (w : WCB) : res WCB :=
  match acked with
  | [] => Ok w
  | a :: r => w' ← ack_one a now w; ack_loop r now w'
  end.

(** ** Delivery (the loop over [rcv_received]) *)
Inductive deliver_exit : Type := Continue | Break_erased | Break_kept.

(** The payload of the pack in sequence. *)
Definition deliver_data (p : WCB_received_pack) (w : WCB) : res (WCB * deliver_exit) :=
  let h := rheader p in
  if 0 <? dlen h then
    _ ← wawo_assert (WCPPACK_TEST_FLAG h WCP_FLAG_DAT);
    _ ← wawo_assert (negb (WCPPACK_TEST_FLAG h (Z.lor WCP_FLAG_SYN WCP_FLAG_FIN)));
    if negb (from p =? remote_addr w) then
      '(w', _) ← reply_rst_to_address (ack h) (from p) w;
      Ok (set_wcb_errno E_ECONNABORTED (set_state WCB_CLOSED w'), Break_erased)
    else if bytes_ringbuffer.left_capacity (rb_standby w) <? dlen h then
      Ok (rflag_set READ_RWND_LESS_THAN_MTU w, Break_kept)
    else
      bytes ← match rdata p with
              | Some d => _ ← check (dlen h <=? zlen d) Undefined; Ok d
              | None => Fault Undefined
              end;
      '(q, _) ← bytes_ringbuffer.write (rb_standby w) bytes (dlen h);
      let w1 := upd_rcv (set_rwnd_ (bytes_ringbuffer.left_capacity q)) (set_rb_standby q w) in
      Ok (if rwnd_ (rcv_info w1) <=? WCP_MTU then rflag_set READ_RWND_LESS_THAN_MTU w1
          else rflag_clear (Z.lor READ_RWND_LESS_THAN_MTU READ_RWND_MORE_THAN_MTU) w1, Continue)
  else Ok (w, Continue).

Definition nonblocking (w : WCB) : bool := flag_on (wcb_option w) WCP_O_NONBLOCK.

Definition deliver_syn (p : WCB_received_pack) (w : WCB) : res (WCB * deliver_exit) :=
  if WCPPACK_TEST_FLAG (rheader p) WCP_FLAG_SYN then
    match state w with
    | WCB_SYN_RECEIVED => Ok (SYNSYNACK w, Continue)
    | WCB_SYN_SENT => Ok (SYNACK (set_remote_addr (from p) w), Continue)
    | _ =>
        '(w', _) ← reply_rst_to_address (ack (rheader p)) (from p) w;
        Ok (notify (set_state WCB_CLOSED (set_wcb_errno E_ECONNABORTED w')), Break_erased)
    end
  else Ok (w, Continue).

Definition deliver_ack (p : WCB_received_pack) (now : Z) (w : WCB) : res WCB :=
  if WCPPACK_TEST_FLAG (rheader p) WCP_FLAG_ACK then
    match state w with
    | WCB_SYN_SENT =>
        _ ← wawo_assert (negb (remote_addr w =? 0));
        _ ← wawo_assert (remote_addr w =? from p);
        let connrt := connect_ec (remote_addr w) in
        let w1 := if connrt =? OK then set_state WCB_ESTABLISHED w
                  else set_state WCB_CLOSED (set_wcb_errno connrt w) in
        Ok (if negb (nonblocking w1) then notify w1 else w1)
    | WCB_SYN_RECEIVED => Ok (set_state WCB_ESTABLISHED w)
    | WCB_FIN_WAIT_1 => Ok (set_state WCB_FIN_WAIT_2 w)
    | WCB_LAST_ACK => Ok (set_state WCB_CLOSED w)
    | WCB_CLOSING => Ok (set_state WCB_TIME_WAIT (set_timer_state now w))
    | WCB_ESTABLISHED | WCB_FIN_WAIT_2 | WCB_CLOSE_WAIT | WCB_TIME_WAIT => Ok w
    | _ => Fault AssertFailed
    end
  else Ok w.

Definition deliver_fin (p : WCB_received_pack) (now : Z) (w : WCB) : res WCB :=
  if WCPPACK_TEST_FLAG (rheader p) WCP_FLAG_FIN then
    w1 ← match state w with
         | WCB_ESTABLISHED =>
             Ok (r_notify (notify (rflag_clear READ_REMOTE_FIN_READ_BY_USER
                   (rflag_set READ_REMOTE_FIN_RECEIVED (set_state WCB_CLOSE_WAIT w)))))
         | WCB_FIN_WAIT_1 => Ok (set_state WCB_CLOSING w)
         | WCB_FIN_WAIT_2 => Ok (set_state WCB_TIME_WAIT (set_timer_state now w))
         | _ =>
             '(w', _) ← reply_rst_to_address (ack (rheader p)) (from p)
                          (set_wcb_errno E_ECONNABORTED (set_state WCB_CLOSED w));
             Ok w'
         end;
    Ok (FINACK w1)
  else Ok w.

(** After the payload: the sequence moves on and the control flags act. *)
Definition deliver_ctl (p : WCB_received_pack) (now : Z) (w : WCB) : res (WCB * deliver_exit) :=
  let w2 := upd_rcv (fun r => set_rnext (rnext r +₃₂ 1) r) w in
  if WCPPACK_TEST_FLAG (rheader p) WCP_FLAG_RST then
    Ok (r_notify (notify (set_state WCB_CLOSED (set_wcb_errno E_ECONNRESET w2))), Break_kept)
  else
    '(w3, e) ← deliver_syn p w2;
    match e with
    | Continue => w4 ← deliver_ack p now w3; w5 ← deliver_fin p now w4; Ok (w5, Continue)
    | e => Ok (w3, e)
    end.

Definition deliver_one (p : WCB_received_pack) (now : Z) (w : WCB) : res (WCB * deliver_exit) :=
  '(w1, e) ← deliver_data p w;
  match e with
  | Continue => deliver_ctl p now w1
  | e => Ok (w1, e)
  end.

Fixpoint deliver_loop (l : list WCB_received_pack) (now : Z) (w : WCB) : res WCB :=
  match l with
  | [] => Ok (set_rcv_received [] w)
  | p :: rest =>
      _ ← wawo_assert (rnext (rcv_info w) <=? seq (rheader p));
      if negb (seq (rheader p) =? rnext (rcv_info w)) then Ok (set_rcv_received l w)
      else
        '(w', e) ← deliver_one p now w;
        match e with
        | Continue => deliver_loop rest now w'
        | Break_erased => Ok (set_rcv_received rest w')
        | Break_kept => Ok (set_rcv_received l w')
        end
  end.

(** ** [check_recv] *)

(** The receive vectors are swapped; [received_vec] was cleared before. *)
Definition swap_received (w : WCB) : WCB :=
  match received_vec_standby w with
  | [] => set_received_vec [] w
  | l => set_received_vec_standby [] (set_received_vec l w)
  end.

(** Nothing was received. *)
Definition recv_idle (now : Z) (w : WCB) : WCB :=
  let k := keepalive_vals w in
  let timediff := (now -₆₄ keepalive_timer_last_received_pack w) / 1000 in
  if probes k <=? keepalive_probes_sent w then
    set_wcb_errno E_ETIMEOUT (rflag_set READ_RECV_ERROR w)
  else if u64 (idle k + interval k * keepalive_probes_sent w) <=? timediff then
    set_keepalive_probes_sent (u8 (keepalive_probes_sent w + 1)) (keepalive w)
  else w.

(** The delivery ring becomes the user's ring once that one is empty. *)
Definition swap_rings (w : WCB) : WCB :=
  if (bytes_ringbuffer.count (rb w) =? 0) && negb (bytes_ringbuffer.count (rb_standby w) =? 0) then
    let w1 := set_rb_standby (rb w) (set_rb (rb_standby w) w) in
    let w2 := if flag_on (r_flag w1) READ_RWND_LESS_THAN_MTU
              then upd_rcv (set_rwnd_ (bytes_ringbuffer.left_capacity (rb_standby w1)))
                     (rflag_set READ_RWND_MORE_THAN_MTU w1)
              else w1 in
    if negb (nonblocking w2) then r_notify w2 else w2
  else w.

Definition wake_readers (w : WCB) : WCB :=
  if negb (nonblocking w) && flag_on (r_flag w) (Z.lor READ_RECV_ERROR READ_LOCAL_READ_SHUTDOWNED)
  then r_notify (notify w) else w.

Definition recv_busy (now : Z) (w : WCB) : res WCB :=
  let w1 := set_keepalive_probes_sent 0 (set_keepalive_timer_last_received_pack now w) in
  '(w2, acked) ← recv_loop (received_vec w1) [] w1;
  w3 ← send_sacks w2;
  w4 ← ack_loop acked now w3;
  deliver_loop (rcv_received w4) now w4.

Definition check_recv (now : Z) (w : WCB) : res WCB :=
  let w1 := swap_received w in
  w2 ← match received_vec w1 with
       | [] => Ok (recv_idle now w1)
       | _ => recv_busy now w1
       end;
  Ok (wake_readers (swap_rings w2)).
End recv.
