(* ===== verification/WcpRecvProofs.v ===== *)
(** * WcpRecvProofs: what the receiving half guarantees

    The reordering buffer stays sorted without duplicates, the bytes handed to
    the user are the peer's stream in order and once, whatever the network
    loses, repeats or reorders, and no assertion fails on what the peer's
    implementation sends. *)

From stdpp Require Import sorting.
From S2P Require Import Prelude Bytes Ring WcpData WcpCodec WcpSend WcpSendProofs WcpRecv.
Import bytes_helper.

(** ** The reordering buffer *)
Definition rseq (p : WCB_received_pack) : Z := seq (rheader p).

(** Strictly increasing sequence numbers. *)
Definition seq_lt (p q : WCB_received_pack) : Prop := rseq p < rseq q.
Definition rsorted (l : list WCB_received_pack) : Prop := StronglySorted seq_lt l.

Lemma rcv_insert_snoc p l q :
  rcv_insert p (l ++ [q]) =
    if rseq q =? rseq p then l ++ [q]
    else if rseq p <? rseq q then rcv_insert p l ++ [q]
    else l ++ [q; p].
Proof.
  unfold rcv_insert, rseq. rewrite rev_unit. simpl.
  destruct (seq (rheader q) =? seq (rheader p)); [done|].
  destruct (seq (rheader p) <? seq (rheader q)).
  - destruct (ins_back p (rev l)) as [rl|]; simpl; [done|done].
  - simpl. by rewrite rev_involutive, <- app_assoc.
Qed.

Lemma rsorted_snoc l q : rsorted (l ++ [q]) <-> rsorted l /\ Forall (fun x => seq_lt x q) l.
Proof.
  unfold rsorted. rewrite StronglySorted_app, Forall_forall. split.
  - intros (H1 & H2 & _). split; [done|]. intros x Hx. apply H1; [done|]. by apply list_elem_of_singleton.
  - intros (H1 & H2). split; [|split; [done|repeat constructor]].
    intros x y Hx ->%list_elem_of_singleton. auto.
Qed.

Lemma rcv_insert_new p l :
  rsorted l -> (forall q, q ∈ l -> rseq q <> rseq p) -> rcv_insert p l ≡ₚ p :: l.
Proof.
  induction l as [|q l IH] using rev_ind; intros HS Hn; [done|].
  apply rsorted_snoc in HS as [HS HF]. rewrite rcv_insert_snoc.
  rewrite (proj2 (Z.eqb_neq _ _)) by (apply Hn; set_solver).
  destruct (rseq p <? rseq q).
  - rewrite IH by set_solver. done.
  - rewrite (Permutation_cons_append (l ++ [q]) p), <- app_assoc. done.
Qed.

Lemma rcv_insert_dup p l q :
  rsorted l -> q ∈ l -> rseq q = rseq p -> rcv_insert p l = l.
Proof.
  induction l as [|r l IH] using rev_ind; intros HS Hq Hr; [set_solver|].
  apply rsorted_snoc in HS as [HS HF]. rewrite rcv_insert_snoc.
  destruct (Z.eqb_spec (rseq r) (rseq p)) as [|Hne]; [done|].
  apply elem_of_app in Hq as [Hq|Hq%list_elem_of_singleton]; [|congruence].
  rewrite Forall_forall in HF. specialize (HF _ Hq). unfold seq_lt in HF.
  rewrite (proj2 (Z.ltb_lt _ _)) by lia. by rewrite IH.
Qed.

Lemma rcv_insert_cases p l :
  rsorted l ->
  (rcv_insert p l = l /\ exists r, r ∈ l /\ rseq r = rseq p)
  \/ (rcv_insert p l ≡ₚ p :: l /\ forall r, r ∈ l -> rseq r <> rseq p).
Proof.
  intros HS.
  destruct (decide (Exists (fun r => rseq r = rseq p) l)) as [(r & Hr & Er)%Exists_exists|Hno].
  - left. split; [by apply (rcv_insert_dup p l r) | eauto].
  - right. assert (Hn : forall r, r ∈ l -> rseq r <> rseq p).
    { intros r Hr Er. apply Hno, Exists_exists. eauto. }
    split; [by apply rcv_insert_new | done].
Qed.

Lemma rcv_insert_sorted p l : rsorted l -> rsorted (rcv_insert p l).
Proof.
  induction l as [|q l IH] using rev_ind; intros HS; [repeat constructor|].
  pose proof HS as HS0. apply rsorted_snoc in HS as [HS HF]. rewrite rcv_insert_snoc.
  destruct (Z.eqb_spec (rseq q) (rseq p)); [done|].
  destruct (Z.ltb_spec (rseq p) (rseq q)).
  - apply rsorted_snoc. split; [auto|].
    destruct (rcv_insert_cases p l HS) as [[-> _]|[-> _]]; [done | by constructor].
  - change [q; p] with ([q] ++ [p]). rewrite app_assoc. apply rsorted_snoc. split; [done|].
    apply Forall_app. split; [|repeat constructor; unfold seq_lt; lia].
    eapply Forall_impl; [exact HF|]. unfold seq_lt. simpl. intros. lia.
Qed.

(** ** SACK payloads *)
Lemma mjoin_cons {A} (x : list A) l : mjoin (x :: l) = x ++ mjoin l.
Proof. done. Qed.

Lemma sacked_seqs_cons v r :
  is_u32 v -> sacked_seqs (write_u32 v ++ r) = (l ← sacked_seqs r; Ok (v :: l)).
Proof.
  intros Hv. pose proof (write_impl_length 4 v) as HL.
  pose proof (read_u32_write v [] Hv) as HR. rewrite app_nil_r in HR. unfold write_u32 in *.
  destruct (write_impl 4 v) as [|a [|b [|c [|d [|]]]]]; try discriminate.
  rewrite <- HR. reflexivity.
Qed.

Lemma sacked_seqs_write l : Forall is_u32 l -> sacked_seqs (mjoin (write_u32 <$> l)) = Ok l.
Proof.
  induction 1 as [|v l Hv _ IH]; [done|]. rewrite fmap_cons, mjoin_cons.
  rewrite sacked_seqs_cons by done. by rewrite IH.
Qed.

Lemma zlen_sack l : zlen (mjoin (write_u32 <$> l)) = 4 * zlen l.
Proof.
  induction l as [|v l IH]; [done|]. rewrite fmap_cons, mjoin_cons.
  rewrite zlen_app, zlen_write_u32, IH. unfold zlen. simpl length. lia.
Qed.

Lemma take_sack l k : take (4 * k) (mjoin (write_u32 <$> l)) = mjoin (write_u32 <$> take k l).
Proof.
  revert l. induction k as [|k IH]; intros [|v l]; try done.
  replace (4 * S k)%nat with (4 + 4 * k)%nat by lia.
  rewrite firstn_cons, !fmap_cons, !mjoin_cons.
  rewrite take_app_add' by (symmetry; apply write_impl_length). f_equal. apply IH.
Qed.

Lemma drop_sack l k : drop (4 * k) (mjoin (write_u32 <$> l)) = mjoin (write_u32 <$> drop k l).
Proof.
  revert l. induction k as [|k IH]; intros [|v l]; try done.
  replace (4 * S k)%nat with (4 + 4 * k)%nat by lia.
  rewrite skipn_cons, fmap_cons, mjoin_cons, drop_write_u32. apply IH.
Qed.

(** The packs a SACK queues: twice each, within the MDU, whole numbers. *)
Definition is_sack_entry (w : WCB) (pk : WCB_pack * nat) (l : list Z) : Prop :=
  pk.2 = 2%nat /\ header pk.1 = mk_header (dsn (snd_info w)) 0 0 WCP_FLAG_SACK (4 * zlen l)
  /\ data pk.1 = Some (mjoin (write_u32 <$> l)) /\ l <> [] /\ 4 * zlen l <= pack_acked_max_bytes.

Definition with_entries (w : WCB) (e : list (WCB_pack * nat)) : WCB :=
  set_s_sending_ignore_seq_space (s_sending_ignore_seq_space w ++ e) w.

Lemma SACK_loop_spec fuel : forall l w, (length l <= fuel)%nat ->
  exists entries chunks,
    SACK_loop fuel (mjoin (write_u32 <$> l)) w = Ok (with_entries w entries)
    /\ Forall2 (is_sack_entry w) entries chunks /\ mjoin chunks = l.
Proof.
  induction fuel as [|fuel IH]; intros l w Hf.
  - destruct l; [|simpl in Hf; lia]. exists [], []. split; [|by split].
    unfold with_entries. rewrite app_nil_r. by destruct w.
  - destruct l as [|v l].
    { exists [], []. split; [|by split]. unfold with_entries. rewrite app_nil_r. by destruct w. }
    set (L := v :: l). set (k := Nat.min 346 (length L)).
    assert (Hk : (1 <= k)%nat) by (unfold k, L; simpl; lia).
    assert (Hw : (if pack_acked_max_bytes <=? zlen (mjoin (write_u32 <$> L)) then pack_acked_max_bytes
                  else zlen (mjoin (write_u32 <$> L))) = Z.of_nat (4 * k)).
    { rewrite zlen_sack. change pack_acked_max_bytes with 1384. unfold k, zlen.
      destruct (Z.leb_spec 1384 (4 * Z.of_nat (length L))); lia. }
    assert (Hne : exists b r, mjoin (write_u32 <$> L) = b :: r).
    { pose proof (zlen_sack L) as HZ. destruct (mjoin _) as [|b r]; [|eauto].
      unfold zlen, L in HZ. simpl length in HZ. lia. }
    assert (HS : forall n m w', (exists b r, m = b :: r) -> SACK_loop (S n) m w' =
      (let wlen := if pack_acked_max_bytes <=? zlen m then pack_acked_max_bytes else zlen m in
       let d := take (Z.to_nat wlen) m in
       let p := mk_pack (mk_header (dsn (snd_info w')) 0 0 WCP_FLAG_SACK (Z.land (zlen d) 65535))
                  (Some d) 0 0 in
       SACK_loop n (drop (Z.to_nat wlen) m) (push_ignore p (1 + WCP_SND_SACK_DUP_COUNT) w'))).
    { intros n m w' (b & r & ->). reflexivity. }
    rewrite HS by done. cbv zeta. rewrite Hw, Nat2Z.id, take_sack, drop_sack.
    set (p := mk_pack _ _ _ _).
    destruct (IH (drop k L) (push_ignore p (1 + WCP_SND_SACK_DUP_COUNT) w)) as (es & cs & E & HF & HJ).
    { rewrite length_drop. unfold L in *. simpl in *. lia. }
    exists ((p, 2%nat) :: es), (take k L :: cs). split; [|split].
    + rewrite E. unfold with_entries, push_ignore. simpl. by rewrite <- app_assoc.
    + constructor; [|exact HF].
      assert (HT : zlen (take k L) = Z.of_nat k) by (unfold zlen; rewrite length_take; unfold k; lia).
      unfold is_sack_entry, p. cbn [fst snd header data]. rewrite zlen_sack, HT.
      change pack_acked_max_bytes with 1384.
      assert (Hk2 : (k <= 346)%nat) by (unfold k; lia).
      change 65535 with (Z.ones 16). rewrite Z.land_ones by lia.
      rewrite Z.mod_small by lia. repeat split; [|lia].
      unfold L. destruct k; [lia|done].
    + rewrite mjoin_cons, HJ. apply take_drop.
Qed.

(** Blocks with the same receive side and sending queue. *)
Record rest_same (w w' : WCB) : Prop := {
  rs_state : state w' = state w;
  rs_addr : remote_addr w' = remote_addr w;
  rs_info : rcv_info w' = rcv_info w;
  rs_received : rcv_received w' = rcv_received w;
  rs_rb : rb w' = rb w;
  rs_rbs : rb_standby w' = rb_standby w;
  rs_sending : snd_sending w' = snd_sending w;
  rs_stby : s_sending_standby w' = s_sending_standby w;
  rs_ign : s_sending_ignore_seq_space w' = s_sending_ignore_seq_space w;
  rs_sb : sb w' = sb w;
  rs_dsn : dsn (snd_info w') = dsn (snd_info w);
  rs_next : next (snd_info w') = next (snd_info w);
  rs_una : una (snd_info w') = una (snd_info w);
  rs_tmp : snd_sacked_pack_tmp w' = snd_sacked_pack_tmp w
}.

#[export] Instance rest_same_refl : Reflexive rest_same.
Proof. by constructor. Qed.
#[export] Instance rest_same_trans : Transitive rest_same.
Proof. intros x y z [] []. constructor; congruence. Qed.

(** ** The stream of the peer

    [str s] is the payload of the peer's pack number [s]. *)
Section stream.
Context `{wcp_env} (str : Z -> list Z).

(** Its bytes from pack [n] on, [k] packs. *)
Fixpoint segment (n : Z) (k : nat) : list Z :=
  match k with O => [] | S k' => str n ++ segment (n + 1) k' end.

Definition NOT_DATA : Z := Z.lor WCP_FLAG_SYN (Z.lor WCP_FLAG_FIN WCP_FLAG_RST).

(** A pack of the stream, as the peer's implementation sends it. *)
Record stream_pack (peer : Z) (p : WCB_received_pack) : Prop := {
  sp_seq : 0 <= rseq p < 4294967295;
  sp_from : from p = peer;
  sp_flag : flag_on (flag (rheader p)) NOT_DATA = false;
  sp_len : dlen (rheader p) = zlen (str (rseq p)) /\ dlen (rheader p) <= WCP_MDU;
  sp_data : 0 < dlen (rheader p) ->
    rdata p = Some (str (rseq p)) /\ WCPPACK_TEST_FLAG (rheader p) WCP_FLAG_DAT = true
}.

(** What the peer sends in the data phase: selective acknowledgements, keep
    alive probes and packs of the stream, acknowledging nothing above [hi]. *)
Definition peer_pack (peer hi : Z) (p : WCB_received_pack) : Prop :=
  0 <= ack (rheader p) <= hi /\
  if WCPPACK_TEST_FLAG (rheader p) WCP_FLAG_SACK
  then exists l, l <> [] /\ Forall is_u32 l /\ rdata p = Some (mjoin (write_u32 <$> l))
  else WCPPACK_TEST_FLAG (rheader p) WCP_FLAG_KEEP_ALIVE = true
       \/ WCPPACK_TEST_FLAG (rheader p) WCP_FLAG_KEEP_ALIVE_REPLY = true
       \/ stream_pack peer p.

(** The receive side of a block in the data phase. *)
Record rcv_inv (w : WCB) : Prop := {
  ri_sorted : rsorted (rcv_received w);
  ri_low : Forall (fun p => rnext (rcv_info w) <= rseq p) (rcv_received w);
  ri_packs : Forall (stream_pack (remote_addr w)) (rcv_received w);
  ri_next : is_u32 (rnext (rcv_info w));
  ri_rb : bytes_ringbuffer.wf (rb w);
  ri_rbs : bytes_ringbuffer.wf (rb_standby w);
  ri_state : state w = WCB_ESTABLISHED
}.

Lemma rtt_sample_rest p now w : rest_same w (rtt_sample p now w).
Proof.
  unfold rtt_sample. destruct (_ =? 1); [|reflexivity].
  destruct (negb _); constructor; reflexivity.
Qed.

Lemma check_cwnd_rest n w : rest_same w (_check_cwnd n w).
Proof. unfold _check_cwnd. split_ifs; constructor; reflexivity. Qed.

Lemma handle_pack_acked_rest p now w w' :
  _handle_pack_acked p now w = Ok w' -> rest_same w w'.
Proof.
  unfold _handle_pack_acked. intros E. res_inv. etrans; [apply (rtt_sample_rest p now)|].
  eapply rest_same_trans; [|apply check_cwnd_rest]. constructor; reflexivity.
Qed.

Lemma find_flight_spec a l :
  match find_flight a l with
  | Some (p, rest) => exists l1 l2, l = l1 ++ p :: l2 /\ rest = l1 ++ l2 /\ seq (header p) = a
  | None => Forall (fun p => seq (header p) <> a) l
  end.
Proof.
  induction l as [|p r IH]; simpl; [done|]. destruct (Z.eqb_spec (seq (header p)) a).
  - by exists [], r.
  - destruct (find_flight a r) as [[q r']|]; simpl; [|by constructor].
    destruct IH as (l1 & l2 & -> & -> & E). by exists (p :: l1), l2.
Qed.

Lemma fast_recover_inv w : snd_inv w -> snd_inv (fast_recover w) /\ rest_same w (fast_recover w).
Proof.
  intros []. split; [|constructor; reflexivity]. constructor; simpl; try done.
  rewrite wawo_min_spec.
  pose proof (u32_range (cwnd (snd_info w) + snd_lost_cwnd_for_fast_recovery_compensation w)).
  unfold WCP_SND_CWND_MAX, WCP_SND_SSTHRESH_MAX in *. range_lia.
Qed.

(** One selective acknowledgement: no assertion fails. *)
Lemma ack_one_inv a now w :
  snd_inv w -> exists w', ack_one a now w = Ok w' /\ snd_inv w' /\ rest_same w w'.
Proof.
  intros HI. unfold ack_one. destruct (a <? una (snd_info w)).
  { exists w. split; [done|]. split; [done|reflexivity]. }
  set (w1 := if snd_biggest_ack w <? a then _ else w).
  assert (H1 : snd_inv w1 /\ rest_same w w1).
  { unfold w1. destruct (_ <? a); [|by split].
    split; [destruct HI; constructor; done | constructor; reflexivity]. }
  clearbody w1. destruct H1 as [HI1 R1].
  assert (exists w2, match find_flight a (snd_flights w1) with
     | Some (p, rest) => w' ← _handle_pack_acked p now w1; Ok (set_snd_flights rest w')
     | None => Ok w1 end = Ok w2 /\ snd_inv w2 /\ rest_same w w2) as (w2 & E2 & HI2 & R2).
  { pose proof (find_flight_spec a (snd_flights w1)) as HF.
    destruct (find_flight a (snd_flights w1)) as [[p rest]|]; [|by exists w1].
    destruct HF as (l1 & l2 & El & -> & _). pose proof (inv_packs _ _ HI1) as HP.
    rewrite El, Forall_app in HP. destruct HP as [HP1 HP2]. inversion HP2; subst.
    destruct (handle_pack_acked_inv p (snd_flights w1) (l1 ++ l2) now w1 HI1)
      as (w2 & E & HI2 & _ & _ & _ & _); [done | by apply Forall_app | |].
    { rewrite El, !flight_size_app. simpl. lia. }
    rewrite E. res_simpl. eexists. split; [reflexivity|]. split.
    - destruct HI2. constructor; done.
    - etrans; [exact R1|]. etrans; [by eapply handle_pack_acked_rest|]. constructor; reflexivity. }
  rewrite E2. res_simpl. destruct (flag_on _ _ && _); [|by exists w2].
  destruct (_ && _).
  - eexists. split; [reflexivity|].
    match goal with |- context [fast_recover ?w] => destruct (fast_recover_inv w) as [HI3 R3] end.
    { destruct HI2. constructor; done. }
    split; [done|]. etrans; [exact R2|]. etrans; [|exact R3]. constructor; reflexivity.
  - eexists. split; [reflexivity|]. split; [destruct HI2; constructor; done|].
    etrans; [exact R2|]. constructor; reflexivity.
Qed.

Lemma ack_loop_inv acked now : forall w,
  snd_inv w -> exists w', ack_loop acked now w = Ok w' /\ snd_inv w' /\ rest_same w w'.
Proof.
  induction acked as [|a l IH]; intros w HI; simpl; [by exists w|].
  destruct (ack_one_inv a now w HI) as (w1 & E & HI1 & R1). rewrite E. res_simpl.
  destruct (IH w1 HI1) as (w' & E' & HI' & R'). exists w'. split; [done|]. split; [done|]. by etrans.
Qed.

(** ** Effect of the receive loop *)

(** What receiving packs that acknowledge at most [hi] may change. *)
Record recv_mono (hi : Z) (w w' : WCB) : Prop := {
  rm_state : state w' = state w;
  rm_addr : remote_addr w' = remote_addr w;
  rm_info : rcv_info w' = rcv_info w;
  rm_rb : rb w' = rb w;
  rm_rbs : rb_standby w' = rb_standby w;
  rm_sending : snd_sending w' = snd_sending w;
  rm_stby : s_sending_standby w' = s_sending_standby w;
  rm_sb : sb w' = sb w;
  rm_dsn : dsn (snd_info w') = dsn (snd_info w);
  rm_next : next (snd_info w') = next (snd_info w);
  rm_una : 0 <= una (snd_info w) <= hi -> 0 <= una (snd_info w') <= hi;
  rm_keep q : q ∈ rcv_received w -> q ∈ rcv_received w';
  rm_ign : ignored_ok (s_sending_ignore_seq_space w) -> ignored_ok (s_sending_ignore_seq_space w')
}.

#[local] Instance recv_mono_refl hi : Reflexive (recv_mono hi).
Proof. by constructor. Qed.
#[local] Instance recv_mono_trans hi : Transitive (recv_mono hi).
Proof. intros x y z [] []. constructor; auto; congruence. Qed.

Lemma rest_mono hi w w' : rest_same w w' -> recv_mono hi w w'.
Proof. intros []. constructor; congruence. Qed.

Lemma rcv_inv_mono hi w w' :
  rcv_inv w -> recv_mono hi w w' -> rcv_received w' = rcv_received w -> rcv_inv w'.
Proof. intros [] [] E. constructor; rewrite ?rm_info0, ?rm_addr0, ?E; congruence. Qed.

(** The pack is in the reordering buffer or was delivered before. *)
Definition accounted (w : WCB) (p : WCB_received_pack) : Prop :=
  rseq p < rnext (rcv_info w) \/ exists q, q ∈ rcv_received w /\ rseq q = rseq p.

Lemma accounted_mono hi w w' p : recv_mono hi w w' -> accounted w p -> accounted w' p.
Proof.
  intros R [Hl|(q & Hq & E)]; [left; by rewrite (rm_info _ _ _ R)|].
  right. exists q. split; [by apply (rm_keep _ _ _ R)|done].
Qed.

Lemma recv_ack_spec hi h w :
  0 <= ack h <= hi -> snd_inv w ->
  snd_inv (recv_ack h w) /\ recv_mono hi w (recv_ack h w)
  /\ rcv_received (recv_ack h w) = rcv_received w
  /\ s_sending_ignore_seq_space (recv_ack h w) = s_sending_ignore_seq_space w.
Proof.
  intros Ha []. unfold recv_ack. destruct (una (snd_info w) <? ack h);
    destruct (WCPPACK_TEST_FLAG h WCP_FLAG_WND);
    (split; [constructor; simpl; done | split; [constructor; simpl; auto; lia | done]]).
Qed.

(** A pack of the sequence space goes to the reordering buffer. *)
Lemma insert_spec p w :
  rcv_inv w -> stream_pack (remote_addr w) p -> rnext (rcv_info w) <= rseq p ->
  rcv_inv (set_rcv_received (rcv_insert p (rcv_received w)) w)
  /\ accounted (set_rcv_received (rcv_insert p (rcv_received w)) w) p
  /\ (forall q, q ∈ rcv_received w -> q ∈ rcv_insert p (rcv_received w)).
Proof.
  intros [HS HL HP HN Hb Hbs Hst] Hp Hge.
  pose proof (rcv_insert_sorted p _ HS) as HS'.
  destruct (rcv_insert_cases p _ HS) as [[E (r & Hr & Er)]|[E _]].
  - split; [constructor; simpl; rewrite ?E; done|]. split; [|by rewrite E].
    right. exists r. simpl. by rewrite E.
  - split; [constructor; simpl; try done; rewrite E; by constructor|]. split.
    + right. exists p. simpl. split; [rewrite E; set_solver | done].
    + intros q Hq. rewrite E. set_solver.
Qed.

Lemma recv_one_spec hi p acked w :
  peer_pack (remote_addr w) hi p -> snd_inv w -> rcv_inv w ->
  exists w' acked', recv_one p acked w = Ok (w', acked') /\ snd_inv w' /\ rcv_inv w'
    /\ recv_mono hi w w' /\ (WCPPACK_TEST_FLAG (rheader p) (Z.lor WCP_FLAG_SACK
         (Z.lor WCP_FLAG_KEEP_ALIVE WCP_FLAG_KEEP_ALIVE_REPLY)) = false -> accounted w' p).
Proof.
  intros [Ha Hp] HI HR. destruct (recv_ack_spec hi (rheader p) w Ha HI) as (HI1 & M1 & E1 & G1).
  unfold recv_one. set (w1 := recv_ack (rheader p) w) in *.
  pose proof (rcv_inv_mono hi _ _ HR M1 E1) as HR1.
  destruct (WCPPACK_TEST_FLAG (rheader p) WCP_FLAG_SACK) eqn:FS.
  { destruct Hp as (l & Hl & Hu & ->). pose proof (zlen_sack l) as HZ.
    pose proof (sacked_seqs_write l Hu) as HW. destruct (mjoin (write_u32 <$> l)) as [|b r] eqn:Em.
    { destruct l; [done|]. unfold zlen in HZ. simpl length in HZ. lia. }
    rewrite HW. res_simpl. eexists _, _. split; [reflexivity|]. repeat (split; [done|]).
    intros Hn. unfold WCPPACK_TEST_FLAG in *. by rewrite (flag_on_sub _ _ WCP_FLAG_SACK Hn) in FS. }
  destruct (WCPPACK_TEST_FLAG (rheader p) WCP_FLAG_KEEP_ALIVE) eqn:FK.
  { eexists _, _. split; [reflexivity|]. split; [destruct HI1; constructor; done|].
    assert (M2 : recv_mono hi w1 (keepalive_reply w1)).
    { constructor; simpl; auto. intros Hi. apply Forall_app. split; [done|].
      constructor; [|constructor]. split; [|done]. vm_compute. split; discriminate. }
    split; [by eapply rcv_inv_mono|]. split; [by etrans|].
    intros Hn. unfold WCPPACK_TEST_FLAG in *. by rewrite (flag_on_sub _ _ WCP_FLAG_KEEP_ALIVE Hn) in FK. }
  destruct (WCPPACK_TEST_FLAG (rheader p) WCP_FLAG_KEEP_ALIVE_REPLY) eqn:FR.
  { eexists _, _. split; [reflexivity|]. repeat (split; [done|]).
    intros Hn. unfold WCPPACK_TEST_FLAG in *.
    by rewrite (flag_on_sub _ _ WCP_FLAG_KEEP_ALIVE_REPLY Hn) in FR. }
  destruct Hp as [Hp|[Hp|Hp]]; [congruence.. |].
  set (w2 := set_snd_sacked_pack_tmp _ w1).
  assert (HI2 : snd_inv w2) by (destruct HI1; constructor; done).
  assert (M2 : recv_mono hi w w2) by (etrans; [exact M1|]; constructor; auto).
  assert (HR2 : rcv_inv w2) by (destruct HR1; constructor; done).
  destruct (Z.ltb_spec (seq (rheader p)) (rnext (rcv_info w2))) as [Hlt|Hge].
  { eexists _, _. split; [reflexivity|]. repeat (split; [done|]). intros _. by left. }
  destruct (insert_spec p w2 HR2) as (HR3 & HA & HK); [|done|].
  { by rewrite (rm_addr _ _ _ M2). }
  eexists _, _. split; [reflexivity|]. split; [destruct HI2; constructor; done|].
  split; [done|]. split; [|done]. etrans; [exact M2|]. constructor; simpl; auto.
Qed.

Definition in_sequence_space (p : WCB_received_pack) : Prop :=
  WCPPACK_TEST_FLAG (rheader p)
    (Z.lor WCP_FLAG_SACK (Z.lor WCP_FLAG_KEEP_ALIVE WCP_FLAG_KEEP_ALIVE_REPLY)) = false.

Lemma recv_loop_spec hi l : forall acked w,
  Forall (peer_pack (remote_addr w) hi) l -> snd_inv w -> rcv_inv w ->
  exists w' acked', recv_loop l acked w = Ok (w', acked') /\ snd_inv w' /\ rcv_inv w'
    /\ recv_mono hi w w' /\ Forall (fun p => in_sequence_space p -> accounted w' p) l.
Proof.
  induction l as [|p l IH]; intros acked w HF HI HR; simpl.
  { eexists _, _. split; [reflexivity|]. repeat (split; [done|]). constructor. }
  inversion HF as [|?? Hp HF']; subst.
  destruct (recv_one_spec hi p acked w Hp HI HR) as (w1 & acked1 & E & HI1 & HR1 & M1 & A1).
  rewrite E. res_simpl.
  destruct (IH acked1 w1) as (w' & acked' & E' & HI' & HR' & M' & A').
  { by rewrite (rm_addr _ _ _ M1). }
  { done. }
  { done. }
  exists w', acked'. split; [done|]. split; [done|]. split; [done|]. split; [by etrans|].
  constructor; [|done]. intros Hs. eapply accounted_mono; [exact M'|]. by apply A1.
Qed.

(** The SACK of the round, when the buffer of sequence numbers is whole. *)
Definition whole_tmp (w : WCB) : Prop :=
  exists l, snd_sacked_pack_tmp w = mjoin (write_u32 <$> l).

Lemma recv_loop_whole l : forall acked w w' acked',
  recv_loop l acked w = Ok (w', acked') -> whole_tmp w -> whole_tmp w'.
Proof.
  induction l as [|p l IH]; intros acked w w' acked' E HW; simpl in E; [by simplify_eq|].
  destruct (recv_one p acked w) as [[w1 acked1]|] eqn:E1; [|discriminate]. cbn [mbind res_bind] in E.
  eapply IH; [exact E|]. clear E IH.
  assert (HW1 : whole_tmp (recv_ack (rheader p) w)).
  { unfold whole_tmp, recv_ack in *. split_ifs; exact HW. }
  unfold recv_one in E1. cbv zeta in E1. set (w2 := recv_ack (rheader p) w) in *. clearbody w2.
  destruct (WCPPACK_TEST_FLAG _ WCP_FLAG_SACK).
  { destruct (rdata p) as [[|b d]|]; try discriminate.
    destruct (sacked_seqs (b :: d)); [|discriminate]. simpl in E1. by simplify_eq. }
  destruct (WCPPACK_TEST_FLAG _ WCP_FLAG_KEEP_ALIVE); [by simplify_eq|].
  destruct (WCPPACK_TEST_FLAG _ WCP_FLAG_KEEP_ALIVE_REPLY); [by simplify_eq|].
  destruct HW1 as [s Es].
  assert (HN : forall r, whole_tmp (set_rcv_received r (set_snd_sacked_pack_tmp
            (snd_sacked_pack_tmp w2 ++ write_u32 (seq (rheader p))) w2))).
  { intros r. exists (s ++ [seq (rheader p)]). rewrite fmap_app, join_app, <- Es.
    cbn [snd_sacked_pack_tmp set_rcv_received set_snd_sacked_pack_tmp]. by f_equal. }
  destruct (_ <? _); simplify_eq; [exact (HN (rcv_received w2)) | exact (HN _)].
Qed.

Lemma send_sacks_spec hi w :
  whole_tmp w -> snd_inv w -> rcv_inv w ->
  exists w', send_sacks w = Ok w' /\ snd_inv w' /\ rcv_inv w' /\ recv_mono hi w w'
    /\ snd_sacked_pack_tmp w' = [] /\ rcv_received w' = rcv_received w.
Proof.
  intros [s Es] HI HR. unfold send_sacks.
  destruct (snd_sacked_pack_tmp w) as [|b r] eqn:Et; [by exists w|].
  unfold SACK. rewrite Es.
  destruct (SACK_loop_spec (length (mjoin (write_u32 <$> s))) s w) as (es & cs & E & HF & _).
  { pose proof (zlen_sack s). unfold zlen in *. lia. }
  rewrite E. res_simpl. eexists. split; [reflexivity|].
  split; [destruct HI; constructor; done|]. split; [destruct HR; constructor; done|].
  split; [|done]. constructor; simpl; auto. intros Hi. apply Forall_app. split; [done|].
  clear -HF. induction HF as [|[p n] c es cs He _ IH]; constructor; [|done].
  destruct He as (_ & Hh & Hd & _ & Hm). simpl in *. change pack_acked_max_bytes with 1384 in Hm.
  pose proof (zlen_nonneg c). cbn [fst].
  split; rewrite ?Hh, ?Hd; cbn [dlen]; rewrite ?zlen_sack; change WCP_MDU with 1384; lia.
Qed.

(** ** Delivery *)
Lemma segment_app n k1 k2 : segment n (k1 + k2) = segment n k1 ++ segment (n + Z.of_nat k1) k2.
Proof.
  revert n. induction k1 as [|k IH]; intros n; cbn [segment Nat.add app];
    [by rewrite Z.add_0_r|].
  rewrite IH, <- app_assoc.
  by replace (n + 1 + Z.of_nat k) with (n + Z.of_nat (S k)) by lia.
Qed.

(** Fields delivery leaves alone. *)
Record deliver_same (w w' : WCB) : Prop := {
  ds_snd : snd_same w w';
  ds_flights : snd_flights w' = snd_flights w;
  ds_sending : snd_sending w' = snd_sending w;
  ds_ign : s_sending_ignore_seq_space w' = s_sending_ignore_seq_space w;
  ds_rb : rb w' = rb w;
  ds_tmp : snd_sacked_pack_tmp w' = snd_sacked_pack_tmp w
}.

#[local] Instance deliver_same_refl : Reflexive deliver_same.
Proof. by constructor. Qed.
#[local] Instance deliver_same_trans : Transitive deliver_same.
Proof. intros x y z [] []. constructor; [by etrans | congruence..]. Qed.

(** One pack in sequence: delivered, or kept because the ring is full. *)
Lemma deliver_one_spec p now w :
  stream_pack (remote_addr w) p -> rseq p = rnext (rcv_info w) ->
  state w = WCB_ESTABLISHED -> bytes_ringbuffer.wf (rb_standby w) ->
  exists w' e, deliver_one p now w = Ok (w', e) /\ deliver_same w w'
    /\ bytes_ringbuffer.wf (rb_standby w')
    /\ ((e = Continue /\ rnext (rcv_info w') = rseq p + 1
         /\ bytes_ringbuffer.contents (rb_standby w')
            = bytes_ringbuffer.contents (rb_standby w) ++ str (rseq p))
        \/ (e = Break_kept /\ w' = rflag_set READ_RWND_LESS_THAN_MTU w)).
Proof.
  intros [Hs Hf Hfl [Hl Hm] Hd] Hn Hst HW. unfold deliver_one.
  assert (Hnn : forall m, Z.land NOT_DATA m = m -> WCPPACK_TEST_FLAG (rheader p) m = false).
  { intros m Hm'. unfold WCPPACK_TEST_FLAG. by apply (flag_on_sub _ NOT_DATA). }
  assert (Hrest : forall w1, state w1 = WCB_ESTABLISHED -> rnext (rcv_info w1) = rseq p ->
    exists w', deliver_ctl p now w1 = Ok (w', Continue) /\ deliver_same w1 w' /\ rb_standby w' = rb_standby w1
      /\ rnext (rcv_info w') = rseq p + 1).
  { intros w1 Hst1 Hn1. unfold deliver_ctl. cbv zeta. rewrite (Hnn WCP_FLAG_RST) by done.
    unfold deliver_syn. rewrite (Hnn WCP_FLAG_SYN) by done. res_simpl.
    unfold deliver_ack, deliver_fin. rewrite (Hnn WCP_FLAG_FIN) by done. simpl.
    rewrite Hst1. eexists. split; [by destruct (WCPPACK_TEST_FLAG _ WCP_FLAG_ACK)|].
    split; [constructor; try reflexivity; same|]. split; [done|].
    simpl. rewrite Hn1. apply u32_small. range_lia. }
  unfold deliver_data. destruct (Z.ltb_spec 0 (dlen (rheader p))) as [Hpos|Hz].
  - destruct (Hd Hpos) as [Hdata Hdat]. rewrite Hdat. res_simpl.
    rewrite (Hnn (Z.lor WCP_FLAG_SYN WCP_FLAG_FIN)) by done. cbn [negb]. res_simpl.
    rewrite Hf, Z.eqb_refl. cbn [negb]. res_simpl.
    destruct (Z.ltb_spec (bytes_ringbuffer.left_capacity (rb_standby w)) (dlen (rheader p))) as [Hlt|Hge].
    { eexists _, _. split; [reflexivity|]. split; [constructor; try reflexivity; same|].
      split; [done|]. by right. }
    rewrite Hdata. res_simpl. rewrite <- Hl, Z.leb_refl. res_simpl.
    rewrite bytes_ringbuffer.left_capacity_val in Hge by done.
    destruct (bytes_ringbuffer.write_spec (rb_standby w) (str (rseq p)) (dlen (rheader p)) HW Hpos)
      as (q & E & Wq & _ & Cq).
    { unfold WCP_MDU, WCP_MTU, WCP_HeaderLen in Hm. range_lia. }
    { lia. }
    rewrite Z.min_l in E, Cq by lia. rewrite E. res_simpl.
    set (w1 := if _ <=? _ then _ else _).
    assert (H1 : state w1 = WCB_ESTABLISHED /\ rnext (rcv_info w1) = rseq p
      /\ deliver_same w w1 /\ rb_standby w1 = q).
    { unfold w1. destruct (_ <=? _); (split; [done|]; split; [done|];
        split; [constructor; try reflexivity; same | done]). }
    clearbody w1. destruct H1 as (S1 & N1 & D1 & B1).
    destruct (Hrest w1 S1 N1) as (w' & -> & D' & B' & N').
    exists w', Continue. split; [done|]. split; [by etrans|]. rewrite B', B1. split; [done|].
    left. split; [done|]. split; [done|]. rewrite Cq. f_equal. apply take_ge.
    unfold zlen in Hl. lia.
  - res_simpl. destruct (Hrest w Hst (eq_sym Hn)) as (w' & E & D' & B' & N'). rewrite E.
    exists w', Continue. split; [done|]. split; [done|]. rewrite B'. split; [done|].
    left. split; [done|]. split; [done|].
    destruct (str (rseq p)); [by rewrite app_nil_r | unfold zlen in Hl; simpl in Hl; lia].
Qed.

(** What remains after delivery waits for a missing pack or for room. *)
Definition as_far_as_possible (w : WCB) : Prop :=
  forall q, q ∈ rcv_received w ->
    rnext (rcv_info w) < rseq q \/ flag_on (r_flag w) READ_RWND_LESS_THAN_MTU = true.

Record delivered (l : list WCB_received_pack) (w w' : WCB) (k : nat) : Prop := {
  de_same : deliver_same w w';
  de_wf : bytes_ringbuffer.wf (rb_standby w');
  de_next : rnext (rcv_info w') = rnext (rcv_info w) + Z.of_nat k;
  de_range : is_u32 (rnext (rcv_info w'));
  de_bytes : bytes_ringbuffer.contents (rb_standby w')
             = bytes_ringbuffer.contents (rb_standby w) ++ segment (rnext (rcv_info w)) k;
  de_rest : exists l1, l = l1 ++ rcv_received w';
  de_low : Forall (fun p => rnext (rcv_info w') <= rseq p) (rcv_received w');
  de_acc : Forall (accounted w') l;
  de_far : as_far_as_possible w'
}.

(** Nothing more can be delivered: the list [l] is kept. *)
Lemma delivered_stop l w w' :
  deliver_same w w' -> bytes_ringbuffer.wf (rb_standby w') -> rcv_info w' = rcv_info w ->
  is_u32 (rnext (rcv_info w)) -> rb_standby w' = rb_standby w -> rcv_received w' = l ->
  Forall (fun p => rnext (rcv_info w) <= rseq p) l ->
  (forall q, q ∈ l -> rnext (rcv_info w) < rseq q \/ flag_on (r_flag w') READ_RWND_LESS_THAN_MTU = true) ->
  delivered l w w' 0.
Proof.
  intros D W Ei Hr Eb El HL HF. constructor; rewrite ?Ei, ?Eb, ?El; auto.
  - by rewrite <- Eb.
  - lia.
  - simpl. by rewrite app_nil_r.
  - by exists [].
  - apply Forall_forall. intros p Hp. right. exists p. by rewrite El.
  - intros q. rewrite El, Ei. auto.
Qed.

Lemma deliver_loop_spec now l : forall w,
  rsorted l -> Forall (fun p => rnext (rcv_info w) <= rseq p) l ->
  Forall (stream_pack (remote_addr w)) l -> is_u32 (rnext (rcv_info w)) ->
  state w = WCB_ESTABLISHED -> bytes_ringbuffer.wf (rb_standby w) ->
  exists w' k, deliver_loop l now w = Ok w' /\ delivered l w w' k.
Proof.
  induction l as [|p l IH]; intros w HS HL HP Hr Hst HW.
  { exists (set_rcv_received [] w), 0%nat. split; [done|].
    apply delivered_stop; auto; [constructor; try reflexivity; same|]. set_solver. }
  pose proof HS as HS0. apply StronglySorted_cons in HS as [HF HS].
  pose proof HL as HL0. pose proof HP as HP0.
  inversion HL as [|?? Hp HL']; subst. inversion HP as [|?? Hsp HP']; subst.
  cbn [deliver_loop]. rewrite (proj2 (Z.leb_le _ _)) by exact Hp. res_simpl.
  destruct (Z.eqb_spec (seq (rheader p)) (rnext (rcv_info w))) as [Eq|Ne]; cbn [negb].
  2:{ exists (set_rcv_received (p :: l) w), 0%nat. split; [done|].
      apply delivered_stop; auto; [constructor; try reflexivity; same|].
      intros q Hq. left. change (seq (rheader p)) with (rseq p) in Ne. apply elem_of_cons in Hq as [->|Hq]; [lia|].
      rewrite Forall_forall in HF. specialize (HF q Hq). unfold seq_lt in HF. lia. }
  destruct (deliver_one_spec p now w Hsp Eq Hst HW) as (w1 & e & E & D1 & W1 & HC).
  rewrite E. res_simpl. destruct HC as [(-> & N1 & B1)|(-> & ->)].
  2:{ exists (set_rcv_received (p :: l) (rflag_set READ_RWND_LESS_THAN_MTU w)), 0%nat. split; [done|].
      apply delivered_stop; auto; [constructor; try reflexivity; same|].
      intros q _. right. simpl. rewrite flag_on_set. apply orb_true_r. }
  assert (Ha : remote_addr w1 = remote_addr w) by apply D1.
  assert (Hst1 : state w1 = WCB_ESTABLISHED) by (rewrite <- Hst; apply D1).
  destruct (IH w1) as (w' & k & E' & [DS DW DN DR DB DRe DL DA DF]); auto.
  { eapply Forall_impl; [exact HF|]. unfold seq_lt. intros q. rewrite N1. lia. }
  { by rewrite Ha. }
  { rewrite N1. destruct Hsp. range_lia. }
  exists w', (S k). split; [exact E'|]. change (seq (rheader p)) with (rseq p) in Eq.
  constructor; auto.
  - by etrans.
  - rewrite DN, N1. lia.
  - rewrite DB, B1, N1, <- app_assoc, Eq. reflexivity.
  - destruct DRe as [l1 ->]. by exists (p :: l1).
  - constructor; [|done]. left. lia.
Qed.

(** [accounted] only needs the receive side. *)
Lemma accounted_sub w w' l p :
  rcv_received w = l -> accounted w p -> rnext (rcv_info w) <= rnext (rcv_info w') ->
  Forall (accounted w') l -> accounted w' p.
Proof.
  intros <- [Hl|(q & Hq & E)] Hn HA; [left; lia|]. rewrite Forall_forall in HA.
  destruct (HA q Hq) as [Hl|(r & Hr & Er)]; [left; lia|]. right. exists r. split; [done|congruence].
Qed.

(** The bytes received in order and not yet read by the user. *)
Definition readable (w : WCB) : list Z :=
  bytes_ringbuffer.contents (rb w) ++ bytes_ringbuffer.contents (rb_standby w).

Lemma contents_nil r : bytes_ringbuffer.wf r -> bytes_ringbuffer.count r = 0 ->
  bytes_ringbuffer.contents r = [].
Proof.
  intros W E. pose proof (bytes_ringbuffer.zlen_contents r W) as HZ. rewrite E in HZ.
  destruct (bytes_ringbuffer.contents r); [done | unfold zlen in HZ; simpl in HZ; lia].
Qed.

(** The last steps of [check_recv] keep all but the roles of the rings. *)
Lemma finish_recv_spec w :
  rcv_inv w -> snd_inv w ->
  let w' := wake_readers (swap_rings w) in
  rcv_inv w' /\ snd_inv w' /\ readable w' = readable w /\ rcv_received w' = rcv_received w
  /\ rnext (rcv_info w') = rnext (rcv_info w)
  /\ (flag_on (r_flag w) READ_RWND_LESS_THAN_MTU = true ->
      flag_on (r_flag w') READ_RWND_LESS_THAN_MTU = true)
  /\ snd_info w' = snd_info w /\ snd_sending w' = snd_sending w
  /\ s_sending_standby w' = s_sending_standby w /\ sb w' = sb w
  /\ remote_addr w' = remote_addr w
  /\ s_sending_ignore_seq_space w' = s_sending_ignore_seq_space w
  /\ snd_sacked_pack_tmp w' = snd_sacked_pack_tmp w.
Proof.
  intros HR HI w'.
  assert (HA : forall v, rcv_inv v -> snd_inv v -> rcv_inv (wake_readers v) /\ snd_inv (wake_readers v)).
  { intros v [] []. unfold wake_readers. destruct (_ && _); split; constructor; done. }
  assert (HS : rcv_inv (swap_rings w) /\ snd_inv (swap_rings w)
    /\ readable (swap_rings w) = readable w).
  { unfold swap_rings. destruct (Z.eqb_spec (bytes_ringbuffer.count (rb w)) 0) as [E0|]; [|by cbn [andb]].
    cbn [andb]. destruct (negb _); [|done].
    pose proof (contents_nil _ (ri_rb _ HR) E0) as EC.
    assert (HX : forall v, rb v = rb_standby w -> rb_standby v = rb w -> readable v = readable w).
    { intros v E1 E2. unfold readable. by rewrite E1, E2, EC, app_nil_r. }
    destruct HR, HI. split_ifs; (split; [constructor; done | split; [constructor; done | by apply HX]]). }
  destruct HS as (HR1 & HI1 & ER). destruct (HA _ HR1 HI1) as [HR2 HI2].
  split; [done|]. split; [done|].
  unfold w', readable, wake_readers in *. split; [destruct (_ && _); exact ER|].
  unfold swap_rings. split_ifs; simpl; rewrite ?flag_on_set; repeat split; auto;
    intros ->; reflexivity.
Qed.

(** Everything [check_recv] guarantees in the data phase. *)
Record recv_ok (hi : Z) (w w' : WCB) (k : nat) : Prop := {
  ro_rcv : rcv_inv w';
  ro_snd : snd_inv w';
  ro_bytes : readable w' = readable w ++ segment (rnext (rcv_info w)) k;
  ro_next : rnext (rcv_info w') = rnext (rcv_info w) + Z.of_nat k;
  ro_acc : Forall (fun p => in_sequence_space p -> accounted w' p) (received_vec_standby w);
  ro_far : as_far_as_possible w -> as_far_as_possible w';
  ro_sending : snd_sending w' = snd_sending w;
  ro_stby : s_sending_standby w' = s_sending_standby w;
  ro_sb : sb w' = sb w;
  ro_dsn : dsn (snd_info w') = dsn (snd_info w);
  ro_nxt : next (snd_info w') = next (snd_info w);
  ro_una : 0 <= una (snd_info w) <= hi -> 0 <= una (snd_info w') <= hi;
  ro_ign : ignored_ok (s_sending_ignore_seq_space w) -> ignored_ok (s_sending_ignore_seq_space w');
  ro_tmp : snd_sacked_pack_tmp w' = []
}.

Lemma recv_busy_spec hi now w :
  rcv_inv w -> snd_inv w -> snd_sacked_pack_tmp w = [] ->
  Forall (peer_pack (remote_addr w) hi) (received_vec w) ->
  exists w' k, recv_busy now w = Ok w' /\ rcv_inv w' /\ snd_inv w' /\ snd_sacked_pack_tmp w' = []
    /\ (exists w4, recv_mono hi w w4 /\ delivered (rcv_received w4) w4 w' k
        /\ Forall (fun p => in_sequence_space p -> accounted w4 p) (received_vec w)).
Proof.
  intros HR HI HT HF. unfold recv_busy.
  set (w1 := set_keepalive_probes_sent 0 _).
  assert (HR1 : rcv_inv w1) by (destruct HR; constructor; done).
  assert (HI1 : snd_inv w1) by (destruct HI; constructor; done).
  destruct (recv_loop_spec hi (received_vec w1) [] w1 HF HI1 HR1)
    as (w2 & acked & E2 & HI2 & HR2 & M2 & A2).
  assert (HW2 : whole_tmp w2) by (eapply recv_loop_whole; [exact E2 | by exists []]).
  cbv zeta. rewrite E2. res_simpl.
  destruct (send_sacks_spec hi w2 HW2 HI2 HR2) as (w3 & E3 & HI3 & HR3 & M3 & T3 & K3).
  rewrite E3. res_simpl.
  destruct (ack_loop_inv acked now w3 HI3) as (w4 & E4 & HI4 & R4). rewrite E4. res_simpl.
  pose proof (rest_mono hi _ _ R4) as M4.
  assert (HR4 : rcv_inv w4) by (eapply rcv_inv_mono; [exact HR3 | exact M4 | apply R4]).
  destruct (deliver_loop_spec now (rcv_received w4) w4) as (w' & k & E' & D'); try apply HR4.
  exists w', k. split; [exact E'|].
  assert (M : recv_mono hi w w4).
  { etrans; [|exact M4]. etrans; [|exact M3]. etrans; [|exact M2]. by constructor. }
  split; [|split; [|split]].
  - destruct HR4, D' as [[[] ? ? ? Erb ?] DW DN DR DB [l1 El] DL DA DF].
    rewrite El in ri_sorted0, ri_packs0. apply StronglySorted_app_1_r in ri_sorted0.
    apply Forall_app in ri_packs0 as [_ ?]. constructor; unfold rsorted; congruence.
  - destruct D' as [[[] HFl _ _ _ _] _ _ _ _ _ _ _ _], HI4. constructor; congruence.
  - by rewrite (ds_tmp _ _ (de_same _ _ _ _ D')), (rs_tmp _ _ R4).
  - exists w4. split; [exact M|]. split; [exact D'|].
    eapply Forall_impl; [exact A2|]. intros p Hp Hs.
    eapply accounted_mono; [exact M4|]. eapply accounted_mono; [exact M3|]. auto.
Qed.

Lemma recv_idle_spec now w :
  rcv_inv w -> snd_inv w ->
  rcv_inv (recv_idle now w) /\ snd_inv (recv_idle now w)
  /\ recv_mono 0 w (recv_idle now w) /\ rcv_received (recv_idle now w) = rcv_received w
  /\ snd_info (recv_idle now w) = snd_info w
  /\ snd_sacked_pack_tmp (recv_idle now w) = snd_sacked_pack_tmp w
  /\ (flag_on (r_flag w) READ_RWND_LESS_THAN_MTU = true ->
      flag_on (r_flag (recv_idle now w)) READ_RWND_LESS_THAN_MTU = true).
Proof.
  intros HR HI. unfold recv_idle. destruct (_ <=? _).
  - destruct HR, HI. split; [constructor; done|]. split; [constructor; done|].
    split; [by constructor|]. split; [done|]. split; [done|]. split; [done|]. simpl.
    rewrite flag_on_set. by intros ->.
  - destruct (_ <=? _); [|by split_and!].
    destruct HR, HI. split; [constructor; done|]. split; [constructor; done|].
    split; [|done]. constructor; simpl; auto. intros Hi. apply Forall_app. split; [done|].
    constructor; [|constructor]. split; [vm_compute; split; discriminate | done].
Qed.

Lemma as_far_mono w w' :
  rcv_received w' = rcv_received w -> rnext (rcv_info w') = rnext (rcv_info w) ->
  (flag_on (r_flag w) READ_RWND_LESS_THAN_MTU = true ->
   flag_on (r_flag w') READ_RWND_LESS_THAN_MTU = true) ->
  as_far_as_possible w -> as_far_as_possible w'.
Proof.
  intros E1 E2 E3 HF q Hq. rewrite E1 in Hq. rewrite E2. destruct (HF q Hq); auto.
Qed.

(** One round without packs received ... *)
Lemma check_recv_idle hi now w :
  rcv_inv w -> snd_inv w -> snd_sacked_pack_tmp w = [] -> received_vec_standby w = [] ->
  exists w', check_recv now w = Ok w' /\ recv_ok hi w w' 0 /\ remote_addr w' = remote_addr w.
Proof.
  intros HR HI HT El. unfold check_recv, swap_received. rewrite El.
  cbn [received_vec set_received_vec]. res_simpl.
  assert (HR0 : rcv_inv (set_received_vec [] w)) by (destruct HR; constructor; done).
  assert (HI0 : snd_inv (set_received_vec [] w)) by (destruct HI; constructor; done).
  destruct (recv_idle_spec now _ HR0 HI0) as (HR1 & HI1 & M1 & K1 & J1 & T1 & F1).
  set (w1 := recv_idle now (set_received_vec [] w)) in *.
  destruct (finish_recv_spec w1 HR1 HI1) as (HR2 & HI2 & Hb & Hr & Hn & Hf & Hs & Hq & Hy & Hsb & Ha & Hig & Ht).
  eexists. split; [reflexivity|].
  destruct M1. split; [|by rewrite Ha].
  constructor; try done.
  - rewrite Hb. simpl. rewrite app_nil_r. unfold readable. by rewrite rm_rb0, rm_rbs0.
  - rewrite Hn, rm_info0. simpl. lia.
  - by rewrite El.
  - intros HA. eapply as_far_mono; [exact Hr | exact Hn | exact Hf|].
    eapply (as_far_mono w); [exact K1 | by rewrite rm_info0 | exact F1 | exact HA].
  - by rewrite Hq.
  - by rewrite Hy.
  - by rewrite Hsb.
  - by rewrite Hs, J1.
  - by rewrite Hs, J1.
  - by rewrite Hs, J1.
  - rewrite Hig. auto.
  - by rewrite Ht, T1.
Qed.

(** ... and with some. *)
Lemma check_recv_busy hi now w :
  rcv_inv w -> snd_inv w -> snd_sacked_pack_tmp w = [] -> received_vec_standby w <> [] ->
  Forall (peer_pack (remote_addr w) hi) (received_vec_standby w) ->
  exists w' k, check_recv now w = Ok w' /\ recv_ok hi w w' k /\ remote_addr w' = remote_addr w.
Proof.
  intros HR HI HT Hne HF. unfold check_recv, swap_received.
  destruct (received_vec_standby w) as [|p0 l0] eqn:El; [done|].
  cbn [received_vec set_received_vec set_received_vec_standby].
  set (w1 := set_received_vec_standby [] _).
  assert (HR1 : rcv_inv w1) by (destruct HR; constructor; done).
  assert (HI1 : snd_inv w1) by (destruct HI; constructor; done).
  destruct (recv_busy_spec hi now w1 HR1 HI1 HT HF)
    as (w2 & k & E2 & HR2 & HI2 & T2 & w4 & M4 & D2 & A4).
  rewrite E2. res_simpl.
  destruct (finish_recv_spec w2 HR2 HI2) as (HR3 & HI3 & Hb & Hr & Hn & Hf & Hs & Hq & Hy & Hsb & Ha & Hig & Ht).
  destruct M4, D2 as [[[] Dfl Dsn Dig Drb Dtmp] DW DN DR DB DRe DL DA DF].
  eexists _, k. split; [reflexivity|]. split; [|by rewrite Ha, same_addr, rm_addr0].
  constructor; try done.
  - rewrite Hb. unfold readable. rewrite Drb, DB, rm_rb0, rm_rbs0, rm_info0, app_assoc. done.
  - by rewrite Hn, DN, rm_info0.
  - rewrite El. eapply Forall_impl; [exact A4|]. intros p Hp Hsp.
    assert (H2 : accounted w2 p).
    { eapply (accounted_sub w4); [reflexivity | by apply Hp | lia | exact DA]. }
    destruct H2 as [Hl|(q & Hq' & Eq)]; [left; by rewrite Hn|].
    right. exists q. by rewrite Hr.
  - intros _. eapply as_far_mono; [exact Hr | exact Hn | exact Hf | exact DF].
  - by rewrite Hq, Dsn, rm_sending0.
  - by rewrite Hy, same_stby, rm_stby0.
  - by rewrite Hsb, same_sb, rm_sb0.
  - by rewrite Hs, same_info, rm_dsn0.
  - by rewrite Hs, same_info, rm_next0.
  - rewrite Hs, same_info. auto.
  - rewrite Hig, Dig. auto.
  - by rewrite Ht.
Qed.

Lemma check_recv_spec hi now w :
  rcv_inv w -> snd_inv w -> snd_sacked_pack_tmp w = [] ->
  Forall (peer_pack (remote_addr w) hi) (received_vec_standby w) ->
  exists w' k, check_recv now w = Ok w' /\ recv_ok hi w w' k /\ remote_addr w' = remote_addr w.
Proof.
  intros HR HI HT HF. destruct (decide (received_vec_standby w = [])) as [E|E].
  - destruct (check_recv_idle hi now w HR HI HT E) as (w1 & Hw1). by exists w1, 0%nat.
  - by apply check_recv_busy.
Qed.

(** ** Properties *)


(** A datagram with the SACK flag whose payload is not a whole number of
    32-bit words makes [check_recv] fail an assertion: the length comes from the
    network and is not checked before. *)
Theorem wcp_bad_sack_asserts p l d now w :
  received_vec_standby w = p :: l -> WCPPACK_TEST_FLAG (rheader p) WCP_FLAG_SACK = true ->
  rdata p = Some d -> zlen d mod 4 <> 0 -> check_recv now w = Fault AssertFailed.
Proof.
  intros El Hs Hd Hm. unfold check_recv, swap_received. rewrite El.
  cbn [received_vec set_received_vec set_received_vec_standby]. unfold recv_busy.
  cbn [received_vec set_received_vec set_received_vec_standby set_keepalive_probes_sent
       set_keepalive_timer_last_received_pack recv_loop].
  assert (HS : forall n d, length d = n -> zlen d mod 4 <> 0 -> sacked_seqs d = Fault AssertFailed).
  { clear. intros n. induction n as [n IH] using lt_wf_ind. intros d Hn Hm.
    destruct d as [|a [|b [|c [|e r]]]]; try done. cbn [sacked_seqs].
    rewrite (IH (length r)) with (d := r); [done | simpl in Hn; lia | done |].
    intros E. apply Hm. unfold zlen in *. simpl length.
    replace (Z.of_nat (S (S (S (S (length r)))))) with (Z.of_nat (length r) + 1 * 4) by lia.
    by rewrite Z_mod_plus_full. }
  unfold recv_one. rewrite Hs, Hd. destruct d as [|b r]; [done|].
  by rewrite (HS _ _ eq_refl Hm).
Qed.
End stream.

(** Sorting a received pack into the reordering buffer keeps it strictly
    sorted, adds the pack exactly when its sequence number is new, and loses
    none of those already there. *)
Theorem wcp_insert_sorted p l :
  rsorted l ->
  rsorted (rcv_insert p l)
  /\ (if decide (Exists (fun r => rseq r = rseq p) l) then rcv_insert p l = l
      else rcv_insert p l ≡ₚ p :: l).
Proof.
  intros HS. split; [by apply rcv_insert_sorted|]. destruct (decide _) as [He|Hn].
  - apply Exists_exists in He as (r & Hr & Er). by apply (rcv_insert_dup p l r).
  - apply rcv_insert_new; [done|]. intros r Hr Er. apply Hn, Exists_exists. eauto.
Qed.

(** The acknowledgement of any list of sequence numbers is cut in SACK packs
    that fit the maximum payload, each queued twice, and reading their payloads
    back gives the list again, in order. *)
Theorem wcp_sack_roundtrip l w :
  Forall is_u32 l ->
  exists entries chunks,
    SACK (mjoin (write_u32 <$> l)) w
      = Ok (set_s_sending_ignore_seq_space (s_sending_ignore_seq_space w ++ entries) w)
    /\ ignored_ok entries /\ mjoin chunks = l
    /\ Forall2 (fun e c => e.2 = 2%nat /\ WCPPACK_TEST_FLAG (header e.1) WCP_FLAG_SACK = true
                  /\ sacked_seqs (payload e.1) = Ok c) entries chunks.
Proof.
  intros Hl. unfold SACK.
  destruct (SACK_loop_spec (length (mjoin (write_u32 <$> l))) l w) as (es & cs & E & HF & HJ).
  { pose proof (zlen_sack l). unfold zlen in *. lia. }
  exists es, cs. split; [exact E|]. rewrite <- HJ in Hl. split; [|split; [done|]]; clear -HF Hl.
  - induction HF as [|[p n] c es cs He _ IH]; constructor.
    + destruct He as (_ & Hh & Hd & _ & Hm). change pack_acked_max_bytes with 1384 in Hm.
      cbn [fst] in *. pose proof (zlen_nonneg c).
      split; rewrite ?Hh, ?Hd; cbn [dlen]; rewrite ?zlen_sack; change WCP_MDU with 1384; lia.
    + apply IH. rewrite mjoin_cons in Hl. by apply Forall_app in Hl as [_ ?].
  - induction HF as [|[p n] c es cs He _ IH]; constructor.
    + destruct He as (Hn & Hh & Hd & _ & _). cbn [fst snd] in *. split; [done|].
      split; [by rewrite Hh|]. unfold payload. rewrite Hd. cbn [default].
      apply sacked_seqs_write. rewrite mjoin_cons in Hl. by apply Forall_app in Hl as [? _].
    + apply IH. rewrite mjoin_cons in Hl. by apply Forall_app in Hl as [_ ?].
Qed.

(** ** Witnesses *)
#[local] Existing Instance sample_env.

Definition rcv_pack (s : Z) (d : list Z) : WCB_received_pack :=
  mk_received (mk_header s 0 70000 (Z.lor WCP_FLAG_DAT WCP_FLAG_ACK) (zlen d)) (Some d) 22.

Definition sample_str (s : Z) : list Z := if s =? 0 then [65; 66] else if s =? 1 then [67] else [68; 69].

(** Packs 1, 0 and 1 again arrive; pack 2 is still missing. *)
Definition receiving_wcb : WCB :=
  set_received_vec_standby [rcv_pack 1 [67]; rcv_pack 0 [65; 66]; rcv_pack 1 [67]; rcv_pack 3 [68; 69]]
    sample_wcb.

Lemma receiving_inv : rcv_inv sample_str receiving_wcb /\ snd_inv receiving_wcb.
Proof.
  split; constructor; try constructor; vm_compute; intuition discriminate.
Qed.


Lemma wcp_bad_sack_asserts_witness :
  check_recv 5000 (set_received_vec_standby
    [mk_received (mk_header 0 0 0 WCP_FLAG_SACK 3) (Some [1; 2; 3]) 22] sample_wcb) = Fault AssertFailed.
Proof. by eapply wcp_bad_sack_asserts. Defined.

Lemma wcp_insert_sorted_witness :
  let l := [rcv_pack 2 [1]; rcv_pack 5 [2]] in
  rsorted (rcv_insert (rcv_pack 3 [9]) l)
  /\ (if decide (Exists (fun r => rseq r = rseq (rcv_pack 3 [9])) l)
      then rcv_insert (rcv_pack 3 [9]) l = l
      else rcv_insert (rcv_pack 3 [9]) l ≡ₚ rcv_pack 3 [9] :: l).
Proof.
  apply (wcp_insert_sorted (rcv_pack 3 [9]) [rcv_pack 2 [1]; rcv_pack 5 [2]]).
  repeat constructor.
Defined.

Lemma wcp_sack_roundtrip_witness :
  exists entries chunks,
    SACK (mjoin (write_u32 <$> [5; 70000])) sample_wcb
      = Ok (set_s_sending_ignore_seq_space (s_sending_ignore_seq_space sample_wcb ++ entries) sample_wcb)
    /\ ignored_ok entries /\ mjoin chunks = [5; 70000]
    /\ Forall2 (fun e c => e.2 = 2%nat /\ WCPPACK_TEST_FLAG (header e.1) WCP_FLAG_SACK = true
                  /\ sacked_seqs (payload e.1) = Ok c) entries chunks.
Proof.
  apply (wcp_sack_roundtrip [5; 70000] sample_wcb). repeat constructor; vm_compute; intuition discriminate.
Defined.
