(* ===== verification/WcpState.v ===== *)
(** * WcpState: the life of a control block ([wcp.hpp], [src/net/wcp.cpp])

    Creation and buffer sizes, the calls of the user ([connect], [shutdown],
    [close], [listen]), the reader of the UDP socket ([pump_packs]) and the
    periodic [update].  The case of a listener, which works on other blocks, is
    [listen_handle_syn] of file Wcp.

    A call returns the block, its result and the value it stores in [errno],
    if any. *)

From S2P Require Import Prelude Bytes Ring WcpData WcpCodec WcpSend WcpRecv.

Definition WCB_SHUT_RD : Z := 0.
Definition WCB_SHUT_WR : Z := 1.
Definition WCB_SHUT_RDWR : Z := 2.
(** [WAWO_NEGATIVE(EINPROGRESS)] and [EWOULDBLOCK] on Linux. *)
Definition EINPROGRESS : Z := -115.
Definition EWOULDBLOCK : Z := 11.
Definition WAWO_NEGATIVE (a : Z) : Z := if a <? 0 then a else - a.

(** ** Creation *)
Section create.
Context `{memory} `{wcp_env}.

(** [init]: the fields it does not assign keep the value of [w]; the rings are
    allocated (the code asserts that they are not yet). *)
Definition init (w : WCB) : res WCB :=
  rb1 ← bytes_ringbuffer.make WCP_RCV_WND_DEFAULT;
  rb2 ← bytes_ringbuffer.make WCP_RCV_WND_DEFAULT;
  sb1 ← bytes_ringbuffer.make WCP_SND_WND_DEFAULT;
  Ok (mk_WCB (fd w) (four_tuple_hash_id w) WCB_CLOSED 0 0 0 SND_CWND_SLOW_START 0 0
        (local_addr w) (remote_addr w) WCP_RTO_INIT (srtt w) (rttvar w) [] []
        (mk_rcv WCP_RCV_WND_DEFAULT 0) (rcv_received w) rb1 rb2 0
        (backloglist_pending w) (backlogq w) 128 0 0 0
        (snd_lost_cwnd_for_fast_recovery_compensation w) (snd_lost_bigger_than_lost_seq_time w) 0
        (mk_snd 0 0 0 WCP_SND_SSTHRESH_DEFAULT (WCP_IW * WCP_MTU) WCP_RCV_WND_DEFAULT)
        (snd_sending w) 0 0 (snd_flights w) 0 [] sb1 (s_sending_standby w)
        (s_sending_ignore_seq_space w) (curr_milliseconds w) (mk_keepalive 60 60 5) 0
        (so_sent w) (so_calls w) (cond_notified w) (r_cond_notified w)).

Definition get_rcv_buffer_size (w : WCB) : Z := Z.shiftr (bytes_ringbuffer.capacity (rb w)) 1.
Definition get_snd_buffer_size (w : WCB) : Z := Z.shiftr (bytes_ringbuffer.capacity (sb w)) 1.

(** The clamped size: the minimum is taken on [int], the maximum on [u32]. *)
Definition clamp_size (size lo hi : Z) : Z := WAWO_MAX (u32 (WAWO_MIN size hi)) lo.

Definition set_rcv_buffer_size (size : Z) (w : WCB) : res (WCB * Z) :=
  if negb (bool_decide (state w = WCB_CLOSED)) then Ok (w, E_INVALID_OPERATION)
  else
    let _size := clamp_size size WCP_RCV_BUFFER_MIN WCP_RCV_BUFFER_MAX in
    _ ← wawo_assert (bytes_ringbuffer.count (rb w) =? 0);
    r1 ← bytes_ringbuffer.make (u32 (Z.shiftl _size 1));
    let w1 := set_rb r1 w in
    _ ← wawo_assert (bytes_ringbuffer.count (rb_standby w1) =? 0);
    r2 ← bytes_ringbuffer.make (u32 (Z.shiftl _size 1));
    let w2 := set_rb_standby r2 w1 in
    Ok (upd_rcv (set_rwnd_ (bytes_ringbuffer.capacity (rb w2))) w2, OK).

Definition set_snd_buffer_size (size : Z) (w : WCB) : res (WCB * Z) :=
  if negb (bool_decide (state w = WCB_CLOSED)) then Ok (w, E_INVALID_OPERATION)
  else
    let _size := clamp_size size WCP_SND_BUFFER_MIN WCP_SND_BUFFER_MAX in
    _ ← wawo_assert (bytes_ringbuffer.count (sb w) =? 0);
    r ← bytes_ringbuffer.make (u32 (Z.shiftl _size 1));
    Ok (set_sb r w, OK).
End create.

(** The first pack of an accepted connection. *)
Definition SYN_RCVD (synpack : WCB_received_pack) (w : WCB) : res WCB :=
  _ ← wawo_assert (bool_decide (state w = WCB_CLOSED));
  Ok (set_state WCB_SYN_RECEIVED
        (set_received_vec_standby (received_vec_standby w ++ [synpack]) w)).

(** ** The calls of the user *)

(** The start of [connect]; a blocking caller ([None]) then waits until
    [connect_done] has a result. *)
Definition connect `{wcp_env} (addr : Z) (w : WCB) : res (WCB * option Z) :=
  _ ← wawo_assert (remote_addr w =? 0);
  let w1 := set_remote_addr addr w in
  _ ← wawo_assert (bool_decide (state w1 = WCB_CLOSED));
  w2 ← SYN w1;
  let w3 := set_timer_state (curr_milliseconds w2) (set_state WCB_SYNING w2) in
  Ok (w3, if nonblocking w3 then Some EINPROGRESS else None).

Definition connect_done (w : WCB) : res (option Z) :=
  if (wcb_errno w =? 0) && negb (bool_decide (state w = WCB_ESTABLISHED)) then Ok None
  else
    _ ← wawo_assert (if decide (state w = WCB_ESTABLISHED) then wcb_errno w =? 0 else true);
    Ok (Some (wcb_errno w)).

Definition shutdown (shutdown_flag : Z) (w : WCB) : res (WCB * Z * option Z) :=
  _ ← wawo_assert ((shutdown_flag =? WCB_SHUT_RD) || (shutdown_flag =? WCB_SHUT_WR)
                   || (shutdown_flag =? WCB_SHUT_RDWR));
  let '(w1, ec1) :=
    if ((shutdown_flag =? WCB_SHUT_WR) || (shutdown_flag =? WCB_SHUT_RDWR))
       && negb (flag_on (s_flag w) WRITE_LOCAL_WRITE_SHUTDOWNED)
    then (sflag_set WRITE_LOCAL_WRITE_SHUTDOWNED (FIN w), OK) else (w, E_ENOTCONN) in
  let '(w2, ec2) :=
    if ((shutdown_flag =? WCB_SHUT_RD) || (shutdown_flag =? WCB_SHUT_RDWR))
       && negb (flag_on (r_flag w1) READ_LOCAL_READ_SHUTDOWNED)
    then (r_notify (rflag_set READ_LOCAL_READ_SHUTDOWNED w1), OK) else (w1, ec1) in
  if negb (ec2 =? OK) then Ok (w2, -1, Some ec2) else Ok (w2, OK, None).

(** The second test reads [state == WCB_SYN_SENT || state == WCB_SYNING ||
    WCB_SYN_RECEIVED], whose last operand is a non-zero constant. *)
Definition close_aborts (w : WCB) : bool :=
  bool_decide (state w = WCB_SYN_SENT) || bool_decide (state w = WCB_SYNING) || true.

Definition close (w : WCB) : res (WCB * Z * option Z) :=
  if flag_on (wcb_flag w) WCB_FLAG_CLOSED_CALLED then Ok (w, E_EALREADY, Some E_EALREADY)
  else
    let w1 := wflag_set WCB_FLAG_CLOSED_CALLED w in
    let w2 := if decide (state w1 = WCB_LISTEN) then set_state WCB_CLOSED w1 else w1 in
    let w3 := if close_aborts w2
              then let v := set_state WCB_CLOSED w2 in
                   if wcb_errno v =? OK then set_wcb_errno E_ECONNABORTED v else v
              else w2 in
    match state w3 with
    | WCB_CLOSED =>
        Ok (r_notify (rflag_set READ_LOCAL_READ_SHUTDOWNED
              (sflag_set WRITE_LOCAL_WRITE_SHUTDOWNED w3)), OK, None)
    | WCB_ESTABLISHED | WCB_CLOSE_WAIT =>
        let w4 := if negb (flag_on (s_flag w3) WRITE_LOCAL_WRITE_SHUTDOWNED)
                  then sflag_set WRITE_LOCAL_WRITE_SHUTDOWNED (FIN w3) else w3 in
        let w5 := if negb (flag_on (r_flag w4) READ_LOCAL_READ_SHUTDOWNED)
                  then rflag_set READ_LOCAL_READ_SHUTDOWNED w4 else w4 in
        Ok (r_notify w5, OK, None)
    | _ => Fault Thrown
    end.

Definition listen (backlog : Z) (w : WCB) : res (WCB * Z * option Z) :=
  if local_addr w =? 0 then Ok (w, E_EOPNOTSUPP, Some E_EOPNOTSUPP)
  else
    _ ← wawo_assert (bool_decide (state w = WCB_CLOSED));
    Ok (wflag_set WCB_FLAG_IS_LISTENER (set_backlog_size (u32 backlog) (set_state WCB_LISTEN w)),
        OK, None).

(** ** The reader of the UDP socket

    What successive [recvfrom] answer: a datagram and its sender, or an error
    code ([E_SOCKET_RECV_BLOCK] when there is nothing more). *)
Inductive recvfrom_result : Type :=
| Datagram (bytes : list Z) (sender : Z)
| RecvError (ec : Z).

(** One iteration of [pump_packs]; the flag says whether the loop goes on. *)
Definition pump_one (r : recvfrom_result) (w : WCB) : res (WCB * bool) :=
  match r with
  | RecvError ec =>
      Ok (if negb (ec =? E_SOCKET_RECV_BLOCK)
          then rflag_set READ_RECV_ERROR (set_wcb_errno ec w) else w, false)
  | Datagram m sender =>
      _ ← wawo_assert (WCP_HeaderLen <=? zlen m);
      p ← WCP_RECEIVED_PACK_FROM_UDPMESSAGE m sender;
      Ok (set_received_vec_standby (received_vec_standby w ++ [p]) w, true)
  end.

(** An empty list of answers stands for a socket with nothing to read. *)
Fixpoint pump_packs (answers : list recvfrom_result) (w : WCB) : res WCB :=
  match answers with
  | [] => Ok w
  | r :: l => '(w', go) ← pump_one r w; if (go : bool) then pump_packs l w' else Ok w'
  end.

(** ** The periodic update *)
Section update.
Context `{wcp_env}.

Definition exchange (now : Z) (w : WCB) : res WCB :=
  w1 ← check_recv now w; w2 ← check_flights now w1; check_send now w2.

Definition update (now : Z) (w : WCB) : res WCB :=
  match state w with
  | WCB_CLOSED =>
      Ok (if flag_on (r_flag w) READ_LOCAL_READ_SHUTDOWNED
             && flag_on (s_flag w) WRITE_LOCAL_WRITE_SHUTDOWNED
             && flag_on (wcb_flag w) WCB_FLAG_CLOSED_CALLED
          then set_state WCB_RECYCLE w else w)
  | WCB_LISTEN => Ok w
  | WCB_SYNING => w1 ← check_flights now w; check_send now w1
  | WCB_SYN_SENT =>
      if WCP_SYN_MAX_TIME <=? now -₆₄ timer_state w
      then Ok (notify (set_wcb_errno E_ETIMEOUT (set_state WCB_CLOSED w)))
      else exchange now w
  | WCB_SYN_RECEIVED | WCB_ESTABLISHED | WCB_CLOSE_WAIT =>
      if negb (wcb_errno w =? 0) then Ok (set_state WCB_CLOSED w) else exchange now w
  | WCB_FIN_WAIT_1 | WCB_CLOSING | WCB_FIN_WAIT_2 =>
      if negb (wcb_errno w =? 0) || (WCP_FIN_MAX_TIME <=? now -₆₄ timer_state w)
      then Ok (set_state WCB_CLOSED w) else exchange now w
  | WCB_LAST_ACK =>
      w1 ← exchange now w;
      Ok (if negb (wcb_errno w1 =? 0) || (WCP_LAST_ACK_MAX_TIME <=? now -₆₄ timer_state w1)
          then set_state WCB_CLOSED w1 else w1)
  | WCB_TIME_WAIT =>
      Ok (if WCP_TIMEWAIT_MAX_TIME <=? now -₆₄ timer_state w then set_state WCB_CLOSED w else w)
  | WCB_RECYCLE => Ok w
  end.
End update.
