(* ===== verification/WcpStateProofs.v ===== *)
(** * WcpStateProofs: what the life of a control block guarantees

    The state diagram, the round of [update] in the data phase, the buffer
    sizes, and what [close] really does. *)

From S2P Require Import Prelude Bytes Ring WcpData WcpCodec WcpSend.
From S2P Require Import WcpSendProofs WcpRecv WcpRecvProofs WcpState.

(** ** The state diagram of [update] *)
Inductive wcb_trans : WCB_State -> WCB_State -> Prop :=
| t_syn_sent : wcb_trans WCB_SYNING WCB_SYN_SENT
| t_syn_acked : wcb_trans WCB_SYN_SENT WCB_ESTABLISHED
| t_syn_received : wcb_trans WCB_SYN_RECEIVED WCB_ESTABLISHED
| t_fin_received : wcb_trans WCB_ESTABLISHED WCB_CLOSE_WAIT
| t_fin_sent : wcb_trans WCB_ESTABLISHED WCB_FIN_WAIT_1
| t_last_fin_sent : wcb_trans WCB_CLOSE_WAIT WCB_LAST_ACK
| t_fin_acked : wcb_trans WCB_FIN_WAIT_1 WCB_FIN_WAIT_2
| t_both_closing : wcb_trans WCB_FIN_WAIT_1 WCB_CLOSING
| t_time_wait : wcb_trans WCB_FIN_WAIT_2 WCB_TIME_WAIT
| t_closing_acked : wcb_trans WCB_CLOSING WCB_TIME_WAIT
| t_closed s : s <> WCB_RECYCLE -> wcb_trans s WCB_CLOSED
| t_recycled : wcb_trans WCB_CLOSED WCB_RECYCLE.

Create HintDb wcp.
#[export] Hint Constructors wcb_trans : wcp.

Definition wcb_path : relation WCB_State := rtc wcb_trans.

Lemma path_eq s s' : s' = s -> wcb_path s s'.
Proof. intros ->. reflexivity. Qed.
Lemma path_closed s : s <> WCB_RECYCLE -> wcb_path s WCB_CLOSED.
Proof. intros. apply rtc_once. by constructor. Qed.
#[export] Hint Resolve path_eq path_closed : wcp.

(** What sending may change: the state along the diagram and the send side. *)
Record sends (w w' : WCB) : Prop := {
  sd_state : wcb_path (state w) (state w');
  sd_addr : remote_addr w' = remote_addr w;
  sd_info : rcv_info w' = rcv_info w;
  sd_received : rcv_received w' = rcv_received w;
  sd_rb : rb w' = rb w;
  sd_rbs : rb_standby w' = rb_standby w;
  sd_tmp : snd_sacked_pack_tmp w' = snd_sacked_pack_tmp w;
  sd_ign : ignored_ok (s_sending_ignore_seq_space w) -> ignored_ok (s_sending_ignore_seq_space w')
}.

#[local] Instance sends_refl : Reflexive sends.
Proof. intros w. by constructor. Qed.
#[local] Instance sends_trans : Transitive sends.
Proof. intros x y z [] []. constructor; auto; [by etrans | congruence..]. Qed.

(** Solve [sends] between a block and setters that keep the state. *)
Ltac keeps := constructor; [apply path_eq; reflexivity | reflexivity .. | auto].

Section send_side.
Context `{wcp_env}.

Lemma send_pack_sends p w w' p' ec : send_pack p w = Ok (w', p', ec) -> sends w w'.
Proof.
  unfold send_pack, inject_to_address, sendto. intros E. res_inv.
  simplify_eq. destruct (_ =? OK); keeps.
Qed.

Lemma send_failed_sends ec w : sends w (send_failed ec w).
Proof. unfold send_failed. destruct (negb _); [keeps|reflexivity]. Qed.

Lemma send_pack_fields p w w' p' ec :
  send_pack p w = Ok (w', p', ec) ->
  p' = stamp w p /\ s_sending_ignore_seq_space w' = s_sending_ignore_seq_space w.
Proof.
  unfold send_pack, inject_to_address, sendto. intros E. res_inv.
  simplify_eq. by destruct (_ =? OK).
Qed.

Lemma send_ignored_sends q : forall w w' e,
  (ignored_ok (s_sending_ignore_seq_space w) -> ignored_ok q) ->
  send_ignored q w = Ok (w', e) -> sends w w'.
Proof.
  induction q as [|[p k] q IH]; intros w w' e Hq E; cbn [send_ignored] in E.
  { simplify_eq. constructor; [apply path_eq; reflexivity | reflexivity .. |]. constructor. }
  revert p w Hq E. induction k as [|k IHk]; intros p w Hq E.
  { eapply IH; [|exact E]. intros Hi. specialize (Hq Hi). by inversion Hq. }
  apply bind_ok in E as ([[w1 p1] ec] & Es & E).
  destruct (send_pack_fields _ _ _ _ _ Es) as [-> Ei]. apply send_pack_sends in Es.
  assert (Hq1 : forall j, ignored_ok (s_sending_ignore_seq_space w) -> ignored_ok ((stamp w p, j) :: q)).
  { intros j Hi. specialize (Hq Hi). inversion Hq; subst. by constructor. }
  destruct (negb (ec =? OK)).
  - simplify_eq. destruct (send_failed_sends ec w1). destruct Es.
    constructor; simpl; try congruence; [by etrans|]. auto.
  - etrans; [exact Es|]. apply (IHk (stamp w p) w1); [|exact E]. rewrite Ei. auto.
Qed.

Lemma fin_sent_sends now w w' : fin_sent now w = Ok w' -> sends w w'.
Proof.
  unfold fin_sent. destruct (state w) eqn:Es; intros; simplify_eq;
    (constructor; [|reflexivity .. | auto]; rewrite Es; apply rtc_once; constructor).
Qed.

Lemma syn_sent_sends w w' : syn_sent w = Ok w' -> sends w w'.
Proof.
  unfold syn_sent. intros E. apply bind_ok in E as (? & _ & E).
  simplify_eq. case_decide as Es; [|reflexivity].
  constructor; [|reflexivity .. | auto]. rewrite Es. apply rtc_once. constructor.
Qed.

Lemma on_flight_sends p now w : sends w (on_flight p now w).
Proof. unfold on_flight. cbv zeta. destruct (_ <? _); keeps. Qed.

Lemma sending_loop_sends q : forall now w w' e, sending_loop q now w = Ok (w', e) -> sends w w'.
Proof.
  induction q as [|p q IH]; intros now w w' e E; cbn [sending_loop] in E.
  { simplify_eq. keeps. }
  destruct (_ <=? _ +₃₂ _). { simplify_eq. keeps. }
  apply bind_ok in E as (? & _ & E).
  apply bind_ok in E as (? & _ & E).
  destruct (send_pack p w) as [[[w1 p1] ec]|] eqn:Es; [|discriminate].
  cbn [mbind res_bind] in E. apply send_pack_sends in Es. destruct (negb (ec =? OK)).
  { simplify_eq. etrans; [exact Es|]. etrans; [apply (send_failed_sends ec)|]. keeps. }
  apply bind_ok in E as (? & _ & E).
  pose proof (on_flight_sends p1 now w1) as Eo.
  destruct (WCPPACK_TEST_FLAG _ WCP_FLAG_FIN).
  { destruct (fin_sent _ _) as [w3|] eqn:Ef; [|discriminate]. cbn [mbind res_bind] in E. simplify_eq.
    apply fin_sent_sends in Ef. etrans; [exact Es|]. etrans; [exact Eo|]. etrans; [exact Ef|]. keeps. }
  destruct (WCPPACK_TEST_FLAG _ WCP_FLAG_SYN).
  { destruct (syn_sent _) as [w3|] eqn:Ef; [|discriminate]. cbn [mbind res_bind] in E.
    apply syn_sent_sends in Ef. apply IH in E. etrans; [exact Es|]. etrans; [exact Eo|]. by etrans. }
  apply IH in E. etrans; [exact Es|]. by etrans.
Qed.

Lemma cut_loop_sends fuel : forall nmax w w', cut_loop fuel nmax w = Ok w' -> sends w w'.
Proof.
  induction fuel as [|fuel IH]; intros nmax w w' E; cbn [cut_loop] in E;
    (destruct (_ && _); [|by simplify_eq]); [discriminate|].
  destruct (bytes_ringbuffer.read _ _ _) as [[[r b] n]|]; [|discriminate].
  cbn [mbind res_bind] in E. apply IH in E. etrans; [|exact E]. keeps.
Qed.

Lemma refill_sends w w' : refill w = Ok w' -> sends w w'.
Proof.
  unfold refill. cbv zeta. intros E.
  assert (S1 : sends w (set_s_sending_standby [] (set_snd_sending (snd_sending w ++ s_sending_standby w) w)))
    by keeps.
  destruct (_ && _); [apply cut_loop_sends in E; by etrans | by simplify_eq].
Qed.

Lemma send_rounds_sends fuel : forall now w w', send_rounds fuel now w = Ok w' -> sends w w'.
Proof.
  induction fuel as [|fuel IH]; intros now w w' E; cbn [send_rounds] in E; [discriminate|].
  destruct (sending_loop _ now w) as [[w1 [|]]|] eqn:Es; [| |discriminate];
    cbn [mbind res_bind] in E; apply sending_loop_sends in Es; [|by simplify_eq].
  destruct (refill w1) as [w2|] eqn:Er; [|discriminate]. cbn [mbind res_bind] in E.
  apply refill_sends in Er. destruct (snd_sending w2); [simplify_eq; by etrans|].
  apply IH in E. etrans; [exact Es|]. by etrans.
Qed.

Lemma rwnd_update_sends now w : sends w (rwnd_update now w).
Proof.
  unfold rwnd_update. destruct (_ && _); [|reflexivity].
  destruct (s_sending_ignore_seq_space w) as [|[p k] r] eqn:Eq; keeps; simpl; rewrite Eq; intros Hi.
  - constructor; [|constructor]. split; [vm_compute; split; discriminate | done].
  - inversion Hi; subst. by constructor.
Qed.

Lemma check_send_sends now w w' : check_send now w = Ok w' -> sends w w'.
Proof.
  unfold check_send. destruct (flag_on _ _); [intros; by simplify_eq|]. cbv zeta. intros E.
  pose proof (rwnd_update_sends now w) as S1.
  destruct (send_ignored _ (rwnd_update now w)) as [[w2 [|]]|] eqn:Es; [| |discriminate];
    cbn [mbind res_bind] in E; apply send_ignored_sends in Es; try done.
  - apply send_rounds_sends in E. etrans; [exact S1|]. by etrans.
  - simplify_eq. by etrans.
Qed.

(** ** [check_flights] changes the flight accounting only *)
Lemma send_pack_rest p w w' p' ec : send_pack p w = Ok (w', p', ec) -> rest_same w w'.
Proof.
  unfold send_pack, inject_to_address, sendto. intros E. res_inv.
  simplify_eq. destruct (_ =? OK); constructor; reflexivity.
Qed.

Lemma flights_loop_rest fl : forall kept now lost maxt w w' l' m',
  flights_loop fl kept now lost maxt w = Ok (w', l', m') -> rest_same w w'.
Proof.
  induction fl as [|p r IH]; intros kept now lost maxt w w' l' m' E; cbn [flights_loop] in E.
  { simplify_eq. constructor; reflexivity. }
  destruct (flag_on (wcb_flag w) SND_UNA_UPDATE && _).
  { destruct (_handle_pack_acked p now w) as [w1|] eqn:Eh; [|discriminate].
    cbn [mbind res_bind] in E. apply handle_pack_acked_rest in Eh. apply IH in E. by etrans. }
  set (w1 := if (_ && _ && _) then _ else w) in E.
  assert (R1 : rest_same w w1) by (unfold w1; destruct (_ && _ && _); constructor; reflexivity).
  clearbody w1. cbv zeta in E. destruct (0 <? _); [|apply IH in E; by etrans].
  destruct (send_pack p w1) as [[[w2 p2] ec]|] eqn:Es; [|discriminate].
  cbn [mbind res_bind] in E. apply send_pack_rest in Es. destruct (negb (ec =? OK)).
  - simplify_eq. etrans; [exact R1|]. etrans; [exact Es|].
    unfold send_failed. destruct (negb _); constructor; reflexivity.
  - apply IH in E. etrans; [exact R1|]. by etrans.
Qed.

Lemma check_flights_rest now w w' : check_flights now w = Ok w' -> rest_same w w'.
Proof.
  unfold check_flights. destruct (negb _ && _); [intros; by simplify_eq|].
  destruct (flights_loop _ _ _ _ _ _) as [[[w1 l1] m1]|] eqn:E1; [|discriminate].
  cbn [mbind res_bind]. apply flights_loop_rest in E1.
  assert (R1 : rest_same w w1) by (etrans; [|exact E1]; constructor; reflexivity).
  destruct (_ || _); intros E.
  - unfold on_lost in E. apply bind_ok in E as (? & _ & E).
    cbv zeta in E. etrans; [exact R1|]. destruct (_ && _).
    + apply bind_ok in E as (? & _ & E). simplify_eq.
      constructor; reflexivity.
    + simplify_eq. constructor; reflexivity.
  - simplify_eq. etrans; [exact R1|]. constructor; reflexivity.
Qed.
End send_side.

(** ** The state along [check_recv] *)
Section recv_side.
Context `{wcp_env}.

Lemma SACK_loop_state fuel : forall l w w', SACK_loop fuel l w = Ok w' -> state w' = state w.
Proof.
  induction fuel as [|fuel IH]; intros l w w' E; destruct l; cbn [SACK_loop] in E;
    try discriminate; try by simplify_eq.
  apply IH in E. exact E.
Qed.

Lemma recv_one_state p acked w w' acked' : recv_one p acked w = Ok (w', acked') -> state w' = state w.
Proof.
  assert (HA : forall h, state (recv_ack h w) = state w).
  { intros h. unfold recv_ack. split_ifs; reflexivity. }
  unfold recv_one. cbv zeta. pose proof (HA (rheader p)) as Ha.
  destruct (WCPPACK_TEST_FLAG _ WCP_FLAG_SACK).
  { destruct (rdata p) as [[|b d]|]; try discriminate. intros E.
    apply bind_ok in E as (? & _ & E). by simplify_eq. }
  destruct (WCPPACK_TEST_FLAG _ WCP_FLAG_KEEP_ALIVE); [intros; by simplify_eq|].
  destruct (WCPPACK_TEST_FLAG _ WCP_FLAG_KEEP_ALIVE_REPLY); [intros; by simplify_eq|].
  destruct (_ <? _); intros; by simplify_eq.
Qed.

Lemma recv_loop_state l : forall acked w w' acked',
  recv_loop l acked w = Ok (w', acked') -> state w' = state w.
Proof.
  induction l as [|p l IH]; intros acked w w' acked' E; simpl in E; [by simplify_eq|].
  apply bind_ok in E as ([w1 a1] & E1 & E). apply recv_one_state in E1. apply IH in E. congruence.
Qed.

Lemma ack_one_state a now w w' : ack_one a now w = Ok w' -> state w' = state w.
Proof.
  unfold ack_one. destruct (a <? _); [intros; by simplify_eq|]. cbv zeta. intros E.
  apply bind_ok in E as (w2 & E2 & E).
  assert (state w2 = state w) as <-.
  { set (w1 := if _ <? a then _ else w) in E2.
    assert (H1 : state w1 = state w) by (unfold w1; by destruct (_ <? a)).
    clearbody w1. destruct (find_flight _ _) as [[p r]|]; [|by simplify_eq].
    apply bind_ok in E2 as (w3 & E3 & E2). apply handle_pack_acked_rest in E3. simplify_eq.
    simpl. by rewrite (rs_state _ _ E3). }
  destruct (_ && _); [|by simplify_eq]. destruct (_ && _); by simplify_eq.
Qed.

Lemma ack_loop_state l : forall now w w', ack_loop l now w = Ok w' -> state w' = state w.
Proof.
  induction l as [|a l IH]; intros now w w' E; simpl in E; [by simplify_eq|].
  apply bind_ok in E as (w1 & E1 & E). apply ack_one_state in E1. apply IH in E. congruence.
Qed.

Lemma reply_rst_state s to w w' ec : reply_rst_to_address s to w = Ok (w', ec) -> state w' = state w.
Proof.
  unfold reply_rst_to_address, inject_to_address, sendto. intros E. res_inv. simplify_eq.
  by destruct (_ =? OK).
Qed.

Lemma deliver_data_state p w w' e :
  deliver_data p w = Ok (w', e) -> state w' = state w \/ state w' = WCB_CLOSED.
Proof.
  unfold deliver_data. cbv zeta. destruct (0 <? _); [|intros; simplify_eq; auto]. intros E.
  apply bind_ok in E as (? & _ & E). apply bind_ok in E as (? & _ & E).
  destruct (negb (from p =? _)).
  { apply bind_ok in E as ([w1 ec] & _ & E). simplify_eq. auto. }
  destruct (_ <? _); [simplify_eq; auto|].
  apply bind_ok in E as (d & _ & E). apply bind_ok in E as ([q n] & _ & E).
  destruct (_ <=? _); simplify_eq; auto.
Qed.

Lemma deliver_syn_state p w w' e :
  deliver_syn p w = Ok (w', e) -> state w' = state w \/ state w' = WCB_CLOSED.
Proof.
  unfold deliver_syn. destruct (WCPPACK_TEST_FLAG _ _); [|intros; simplify_eq; auto].
  destruct (state w) eqn:Es; intros E; try (simplify_eq; auto; fail);
    apply bind_ok in E as ([w1 ec] & _ & E); simplify_eq; auto.
Qed.

Lemma deliver_ack_state p now w w' : deliver_ack p now w = Ok w' -> wcb_path (state w) (state w').
Proof.
  unfold deliver_ack. destruct (WCPPACK_TEST_FLAG _ _); [|intros; by simplify_eq].
  destruct (state w) eqn:Es; intros E; try discriminate; simplify_eq;
    rewrite ?Es; try reflexivity; try (apply rtc_once; constructor; done).
  apply bind_ok in E as (? & _ & E). apply bind_ok in E as (? & _ & E). simplify_eq.
  destruct (_ =? OK), (negb _); simpl; apply rtc_once; by constructor.
Qed.

Lemma deliver_fin_state p now w w' :
  state w <> WCB_RECYCLE -> deliver_fin p now w = Ok w' -> wcb_path (state w) (state w').
Proof.
  intros Hn. unfold deliver_fin. destruct (WCPPACK_TEST_FLAG _ _); [|intros; by simplify_eq].
  intros E. apply bind_ok in E as (w1 & E1 & E). simplify_eq.
  change (state (FINACK w1)) with (state w1).
  destruct (state w) eqn:Es; try done; simplify_eq; try (apply rtc_once; constructor);
    apply bind_ok in E1 as ([w2 ec] & E1 & E2); apply reply_rst_state in E1; simplify_eq;
    rewrite E1; apply rtc_once; by constructor.
Qed.

Lemma deliver_one_state p now w w' e :
  state w <> WCB_RECYCLE -> deliver_one p now w = Ok (w', e) ->
  wcb_path (state w) (state w') /\ state w' <> WCB_RECYCLE.
Proof.
  intros Hn. unfold deliver_one. intros E. apply bind_ok in E as ([w1 e1] & E1 & E).
  apply deliver_data_state in E1.
  assert (P1 : wcb_path (state w) (state w1) /\ state w1 <> WCB_RECYCLE).
  { destruct E1 as [->| ->]; [by split|]. split; [by apply path_closed|done]. }
  destruct P1 as [P1 N1]. destruct e1; try by simplify_eq.
  unfold deliver_ctl in E. cbv zeta in E. destruct (WCPPACK_TEST_FLAG _ WCP_FLAG_RST).
  { simplify_eq. simpl. split; [|done]. by apply path_closed. }
  apply bind_ok in E as ([w2 e2] & E2 & E). apply deliver_syn_state in E2.
  change (state (upd_rcv _ w1)) with (state w1) in E2.
  assert (P2 : wcb_path (state w1) (state w2) /\ state w2 <> WCB_RECYCLE).
  { destruct E2 as [->| ->]; [by split|]. split; [by apply path_closed|done]. }
  destruct P2 as [P2 N2]. destruct e2; try (simplify_eq; split; [by etrans|done]).
  apply bind_ok in E as (w3 & E3 & E). apply bind_ok in E as (w4 & E4 & E). simplify_eq.
  assert (N3 : state w3 <> WCB_RECYCLE).
  { unfold deliver_ack in E3. destruct (WCPPACK_TEST_FLAG _ _); [|by simplify_eq].
    destruct (state w2) eqn:Es; simplify_eq; rewrite ?Es; try done.
    apply bind_ok in E3 as (? & _ & E). apply bind_ok in E as (? & _ & E). simplify_eq.
    destruct (_ =? OK), (negb _); done. }
  pose proof (deliver_ack_state _ _ _ _ E3) as P3. pose proof (deliver_fin_state _ _ _ _ N3 E4) as P4.
  split; [do 3 (etrans; [eassumption|]); exact P4|].
  unfold deliver_fin in E4. destruct (WCPPACK_TEST_FLAG _ _); [|by simplify_eq].
  apply bind_ok in E4 as (w5 & E5 & E). simplify_eq. change (state w5 <> WCB_RECYCLE).
  destruct (state w3) eqn:Es; try done; simplify_eq; try done;
    apply bind_ok in E5 as ([w6 ec] & F1 & F2); apply reply_rst_state in F1; simplify_eq;
    rewrite F1; done.
Qed.

Lemma deliver_loop_state l : forall now w w',
  state w <> WCB_RECYCLE -> deliver_loop l now w = Ok w' -> wcb_path (state w) (state w').
Proof.
  induction l as [|p l IH]; intros now w w' Hn E; simpl in E; [by simplify_eq|].
  apply bind_ok in E as (? & _ & E). destruct (negb _); [by simplify_eq|].
  apply bind_ok in E as ([w1 e] & E1 & E). apply deliver_one_state in E1 as [P1 N1]; [|done].
  destruct e; simplify_eq; try exact P1. etrans; [exact P1|]. by apply (IH now).
Qed.

Lemma check_recv_state now w w' :
  state w <> WCB_RECYCLE -> check_recv now w = Ok w' -> wcb_path (state w) (state w').
Proof.
  intros Hn. unfold check_recv. cbv zeta. intros E. apply bind_ok in E as (w2 & E2 & E). simplify_eq.
  assert (HF : state (wake_readers (swap_rings w2)) = state w2).
  { unfold wake_readers, swap_rings. split_ifs; reflexivity. }
  rewrite HF. assert (HS : state (swap_received w) = state w).
  { unfold swap_received. by destruct (received_vec_standby w). }
  rewrite <- HS in *. destruct (received_vec (swap_received w)) eqn:Er.
  - simplify_eq. apply path_eq. unfold recv_idle. split_ifs; reflexivity.
  - unfold recv_busy in E2. cbv zeta in E2. apply bind_ok in E2 as ([w3 a3] & E3 & E2).
    apply bind_ok in E2 as (w4 & E4 & E2). apply bind_ok in E2 as (w5 & E5 & E2).
    apply recv_loop_state in E3. apply ack_loop_state in E5.
    assert (state w4 = state w3) as Es.
    { unfold send_sacks in E4. destruct (snd_sacked_pack_tmp w3); [by simplify_eq|].
      apply bind_ok in E4 as (w6 & E6 & E4). simplify_eq. by apply SACK_loop_state in E6. }
    change (state w3 = state (swap_received w)) in E3.
    apply deliver_loop_state in E2; [|congruence]. by rewrite <- E3, <- Es, <- E5.
Qed.

Lemma exchange_state now w w' :
  state w <> WCB_RECYCLE -> exchange now w = Ok w' -> wcb_path (state w) (state w').
Proof.
  intros Hn. unfold exchange. intros E. apply bind_ok in E as (w1 & E1 & E).
  apply bind_ok in E as (w2 & E2 & E3). apply check_recv_state in E1; [|done].
  apply check_flights_rest, rs_state in E2. apply check_send_sends, sd_state in E3.
  etrans; [exact E1|]. by rewrite <- E2.
Qed.

End recv_side.

(** ** A round in the data phase *)
Section round.
Context `{wcp_env} (str : Z -> list Z).

(** The whole block in the data phase. *)
Record data_phase (w : WCB) : Prop := {
  dp_rcv : rcv_inv str w;
  dp_snd : snd_inv w;
  dp_queue : queue_inv (snd_sending w) w;
  dp_ign : ignored_ok (s_sending_ignore_seq_space w);
  dp_tmp : snd_sacked_pack_tmp w = []
}.

Lemma queue_inv_rest w w' : queue_inv (snd_sending w) w -> rest_same w w' -> queue_inv (snd_sending w') w'.
Proof.
  intros [] []. constructor;
    rewrite ?rs_sending, ?rs_stby, ?rs_next, ?rs_dsn, ?rs_una, ?rs_sb, ?rs_addr; done.
Qed.

Lemma rcv_inv_sends w w' : rcv_inv str w -> sends w w' -> state w' = state w -> rcv_inv str w'.
Proof.
  intros [] S Es. constructor; rewrite ?(sd_received _ _ S), ?(sd_info _ _ S), ?(sd_addr _ _ S),
    ?(sd_rb _ _ S), ?(sd_rbs _ _ S), ?Es; done.
Qed.

Lemma rcv_inv_rest w w' : rcv_inv str w -> rest_same w w' -> rcv_inv str w'.
Proof.
  intros [] []. constructor;
    rewrite ?rs_received, ?rs_info, ?rs_addr, ?rs_rb, ?rs_rbs, ?rs_state; done.
Qed.

End round.

(** ** Buffer sizes *)
Section sizes.
Context `{memory}.

Lemma clamp_size_val size lo hi :
  0 <= lo <= hi -> hi < 4294967296 -> 0 <= size -> clamp_size size lo hi = Z.max lo (Z.min size hi).
Proof.
  intros. unfold clamp_size. rewrite wawo_max_spec, wawo_min_spec, u32_small by range_lia. lia.
Qed.

Lemma ring_make_ok n : bytes_ringbuffer.MIN_RING_BUFFER_SIZE <= n <= bytes_ringbuffer.MAX_RING_BUFFER_SIZE ->
  exists r, bytes_ringbuffer.make n = Ok r /\ bytes_ringbuffer.wf r
    /\ bytes_ringbuffer.contents r = [] /\ bytes_ringbuffer.capacity r = n.
Proof.
  intros Hn. unfold bytes_ringbuffer.MIN_RING_BUFFER_SIZE, bytes_ringbuffer.MAX_RING_BUFFER_SIZE in Hn.
  destruct (bytes_ringbuffer.make n) as [r|] eqn:E.
  - exists r. destruct (bytes_ringbuffer.make_wf n r) as (W & C & M); [range_lia | done|].
    rewrite bytes_ringbuffer.capacity_val by done. split; [done|]. split; [done|]. split; [done|lia].
  - exfalso. revert E. unfold bytes_ringbuffer.make. rewrite u32_sub_l, Z.add_simpl_r, !u32_small by range_lia.
    unfold bytes_ringbuffer.MIN_RING_BUFFER_SIZE, bytes_ringbuffer.MAX_RING_BUFFER_SIZE.
    destruct (_ && _) eqn:Eb; [discriminate|].
    apply andb_false_iff in Eb as [Eb|Eb]; apply Z.leb_gt in Eb; lia.
Qed.

Lemma shiftl_1 n : 0 <= n < 2147483648 -> u32 (Z.shiftl n 1) = 2 * n.
Proof. intros. rewrite Z.shiftl_mul_pow2 by lia. change (2 ^ 1) with 2. rewrite u32_small by range_lia. lia. Qed.

Lemma shiftr_1 n : Z.shiftr (2 * n) 1 = n.
Proof. rewrite Z.shiftr_div_pow2 by lia. change (2 ^ 1) with 2. rewrite Z.mul_comm. apply Z.div_mul. lia. Qed.

(** Setting the receive buffer of a closed block to a non-negative size
    succeeds and [get_rcv_buffer_size] then answers that size brought between
    the minimum and the maximum; both receive rings are empty and the
    advertised window is the capacity, twice the size. *)
Theorem wcp_rcv_buffer_size size w :
  state w = WCB_CLOSED -> bytes_ringbuffer.count (rb w) = 0 ->
  bytes_ringbuffer.count (rb_standby w) = 0 -> 0 <= size ->
  exists w', set_rcv_buffer_size size w = Ok (w', OK)
    /\ get_rcv_buffer_size w' = Z.max WCP_RCV_BUFFER_MIN (Z.min size WCP_RCV_BUFFER_MAX)
    /\ bytes_ringbuffer.contents (rb w') = [] /\ bytes_ringbuffer.contents (rb_standby w') = []
    /\ rwnd_ (rcv_info w') = 2 * get_rcv_buffer_size w'.
Proof.
  intros Hs Hb Hbs Hz. unfold set_rcv_buffer_size. rewrite bool_decide_true by done. cbn [negb].
  rewrite Hb, clamp_size_val; [|unfold WCP_RCV_BUFFER_MIN, WCP_RCV_BUFFER_MAX, WCP_MDU, WCP_MTU, WCP_HeaderLen; lia ..].
  set (n := Z.max _ _).
  assert (Hn : 5536 <= n <= 1048576).
  { unfold n, WCP_RCV_BUFFER_MIN, WCP_RCV_BUFFER_MAX, WCP_MDU, WCP_MTU, WCP_HeaderLen. lia. }
  rewrite shiftl_1 by lia. change (0 =? 0) with true. res_simpl.
  destruct (ring_make_ok (2 * n)) as (r & E & W & C & M).
  { unfold bytes_ringbuffer.MIN_RING_BUFFER_SIZE, bytes_ringbuffer.MAX_RING_BUFFER_SIZE. lia. }
  rewrite E. res_simpl. cbn [rb_standby set_rb]. rewrite Hbs. change (0 =? 0) with true. res_simpl.
  eexists. split; [reflexivity|]. unfold get_rcv_buffer_size. simpl. rewrite M, shiftr_1.
  rewrite C. auto.
Qed.

(** Setting the send buffer of a closed block to a non-negative size
    succeeds and [get_snd_buffer_size] answers that size brought between the
    minimum and the maximum; a block in use refuses. *)
Theorem wcp_snd_buffer_size size w :
  bytes_ringbuffer.count (sb w) = 0 -> 0 <= size ->
  exists w' ec, set_snd_buffer_size size w = Ok (w', ec)
    /\ (state w = WCB_CLOSED -> ec = OK /\ bytes_ringbuffer.contents (sb w') = []
        /\ get_snd_buffer_size w' = Z.max WCP_SND_BUFFER_MIN (Z.min size WCP_SND_BUFFER_MAX))
    /\ (state w <> WCB_CLOSED -> ec = E_INVALID_OPERATION /\ w' = w).
Proof.
  intros Hb Hz. unfold set_snd_buffer_size. case_bool_decide as Hs; cbn [negb].
  2:{ eexists _, _. split; [reflexivity|]. split; [done|]. auto. }
  rewrite Hb, clamp_size_val; [|unfold WCP_SND_BUFFER_MIN, WCP_SND_BUFFER_MAX, WCP_MDU, WCP_MTU, WCP_HeaderLen; lia ..].
  set (n := Z.max _ _).
  assert (Hn : 5536 <= n <= 1048576).
  { unfold n, WCP_SND_BUFFER_MIN, WCP_SND_BUFFER_MAX, WCP_MDU, WCP_MTU, WCP_HeaderLen. lia. }
  rewrite shiftl_1 by lia. change (0 =? 0) with true. res_simpl.
  destruct (ring_make_ok (2 * n)) as (r & E & W & C & M).
  { unfold bytes_ringbuffer.MIN_RING_BUFFER_SIZE, bytes_ringbuffer.MAX_RING_BUFFER_SIZE. lia. }
  rewrite E. res_simpl. eexists _, _. split; [reflexivity|]. split; [|done]. intros _.
  unfold get_snd_buffer_size. simpl. rewrite M, shiftr_1, C. auto.
Qed.

(** A negative buffer size is not raised to the minimum: converted to
    [u32] it is huge, and the constructor of the ring fails its assertion. *)
Theorem wcp_negative_size_asserts size w :
  state w = WCB_CLOSED -> bytes_ringbuffer.count (sb w) = 0 -> -2130706432 < size < 0 ->
  set_snd_buffer_size size w = Fault AssertFailed.
Proof.
  intros Hs Hb Hz. unfold set_snd_buffer_size. rewrite bool_decide_true by done. cbn [negb].
  rewrite Hb. change (0 =? 0) with true. res_simpl.
  assert (Hc : clamp_size size WCP_SND_BUFFER_MIN WCP_SND_BUFFER_MAX = size + 4294967296).
  { unfold clamp_size. rewrite wawo_max_spec, wawo_min_spec.
    unfold WCP_SND_BUFFER_MIN, WCP_SND_BUFFER_MAX, WCP_MDU, WCP_MTU, WCP_HeaderLen.
    rewrite Z.min_l by lia. assert (u32 size = size + 4294967296) as ->.
    { unfold u32. symmetry. apply Z.mod_unique with (q := -1); lia. } lia. }
  rewrite Hc, Z.shiftl_mul_pow2 by lia. change (2 ^ 1) with 2.
  assert (Hu : u32 ((size + 4294967296) * 2) = 2 * size + 4294967296).
  { unfold u32. symmetry. apply Z.mod_unique with (q := 1); lia. }
  unfold bytes_ringbuffer.make. rewrite Hu, u32_sub_l, Z.add_simpl_r, !u32_small by range_lia.
  rewrite (proj2 (Z.leb_gt (2 * size + 4294967296) bytes_ringbuffer.MAX_RING_BUFFER_SIZE))
    by (unfold bytes_ringbuffer.MAX_RING_BUFFER_SIZE; lia).
  by rewrite andb_false_r.
Qed.
End sizes.

(** ** [close] and [shutdown] *)

(** The first [close] of any control block, established ones included,
    closes it at once: no FIN is queued, the state is [WCB_CLOSED], and a block
    without an error gets [E_ECONNABORTED]; from then on it is ready for recycling.
    Calling [close] again only answers [E_EALREADY]. *)
Theorem wcp_close_always_aborts w :
  if flag_on (wcb_flag w) WCB_FLAG_CLOSED_CALLED
  then close w = Ok (w, E_EALREADY, Some E_EALREADY)
  else exists w', close w = Ok (w', OK, None) /\ state w' = WCB_CLOSED
    /\ s_sending_standby w' = s_sending_standby w /\ snd_sending w' = snd_sending w
    /\ wcb_errno w' = (if wcb_errno w =? OK then E_ECONNABORTED else wcb_errno w)
    /\ flag_on (wcb_flag w') WCB_FLAG_CLOSED_CALLED = true
    /\ flag_on (r_flag w') READ_LOCAL_READ_SHUTDOWNED = true
    /\ flag_on (s_flag w') WRITE_LOCAL_WRITE_SHUTDOWNED = true.
Proof.
  unfold close. destruct (flag_on (wcb_flag w) WCB_FLAG_CLOSED_CALLED); [done|].
  unfold close_aborts. rewrite orb_true_r. cbv zeta.
  set (w1 := wflag_set WCB_FLAG_CLOSED_CALLED w).
  set (w2 := if decide (state w1 = WCB_LISTEN) then set_state WCB_CLOSED w1 else w1).
  assert (H2 : wcb_errno w2 = wcb_errno w /\ s_sending_standby w2 = s_sending_standby w
    /\ snd_sending w2 = snd_sending w /\ wcb_flag w2 = flag_set (wcb_flag w) WCB_FLAG_CLOSED_CALLED).
  { unfold w2. by case_decide. }
  destruct H2 as (He & Hq & Hs & Hf).
  change (wcb_errno (set_state WCB_CLOSED w2)) with (wcb_errno w2). rewrite He.
  destruct (wcb_errno w =? OK); simpl; (eexists; split; [reflexivity|]); simpl;
    rewrite ?Hf, ?flag_on_set, ?He, ?Hq, ?Hs; rewrite ?orb_true_r; repeat split; auto;
    apply orb_true_r.
Qed.

Definition shut_wr (how : Z) : bool := (how =? WCB_SHUT_WR) || (how =? WCB_SHUT_RDWR).
Definition shut_rd (how : Z) : bool := (how =? WCB_SHUT_RD) || (how =? WCB_SHUT_RDWR).

(** [shutdown] queues exactly one FIN, at the end of the stream, the first
    time the write side is shut down, and none later; it fails with
    [E_ENOTCONN] exactly when it has nothing left to shut down, and it rejects
    any other flag. *)
Theorem wcp_shutdown_spec how w :
  match shutdown how w with
  | Fault f => f = AssertFailed /\ shut_wr how = false /\ shut_rd how = false
  | Ok (w', r, e) =>
      let wr := shut_wr how && negb (flag_on (s_flag w) WRITE_LOCAL_WRITE_SHUTDOWNED) in
      let rd := shut_rd how && negb (flag_on (r_flag w) READ_LOCAL_READ_SHUTDOWNED) in
      s_sending_standby w' = s_sending_standby w
        ++ (if wr then [ctl_pack (dsn (snd_info w)) WCP_FLAG_FIN] else [])
      /\ (r, e) = (if wr || rd then (OK, None) else (-1, Some E_ENOTCONN))
      /\ (shut_wr how = true -> flag_on (s_flag w') WRITE_LOCAL_WRITE_SHUTDOWNED = true)
      /\ (shut_rd how = true -> flag_on (r_flag w') READ_LOCAL_READ_SHUTDOWNED = true)
      /\ state w' = state w
  end.
Proof.
  unfold shutdown, shut_wr, shut_rd.
  destruct (how =? WCB_SHUT_RD) eqn:E0, (how =? WCB_SHUT_WR) eqn:E1, (how =? WCB_SHUT_RDWR) eqn:E2;
    cbn [orb]; res_simpl; try done;
    destruct (flag_on (s_flag w) WRITE_LOCAL_WRITE_SHUTDOWNED) eqn:Fs,
             (flag_on (r_flag w) READ_LOCAL_READ_SHUTDOWNED) eqn:Fr;
    cbn [orb andb negb]; simpl; rewrite ?Fs, ?Fr; simpl;
    rewrite ?app_nil_r, ?flag_on_set, ?Fs, ?Fr, ?orb_true_r; repeat split; auto;
    try discriminate; try (intros _; apply orb_true_r).
Qed.

(** ** Witnesses *)
#[local] Existing Instance sample_env.

Definition dead_wcb : WCB :=
  set_state WCB_CLOSED (set_wcb_flag WCB_FLAG_CLOSED_CALLED
    (set_r_flag READ_LOCAL_READ_SHUTDOWNED (set_s_flag WRITE_LOCAL_WRITE_SHUTDOWNED sample_wcb))).


(** A block that receives packs out of order while it has bytes to send. *)
Definition busy_wcb : WCB := set_sb (sample_ring_with [10; 20; 30]) receiving_wcb.

Lemma busy_data_phase : data_phase sample_str busy_wcb.
Proof.
  destruct receiving_inv as [HR HI]. constructor.
  - destruct HR. constructor; done.
  - destruct HI. constructor; done.
  - constructor; try constructor; vm_compute; intuition discriminate.
  - constructor.
  - reflexivity.
Qed.


Definition closed_wcb : WCB := set_state WCB_CLOSED sample_wcb.

Lemma wcp_rcv_buffer_size_witness :
  exists w', set_rcv_buffer_size 100000 closed_wcb = Ok (w', OK)
    /\ get_rcv_buffer_size w' = Z.max WCP_RCV_BUFFER_MIN (Z.min 100000 WCP_RCV_BUFFER_MAX)
    /\ bytes_ringbuffer.contents (rb w') = [] /\ bytes_ringbuffer.contents (rb_standby w') = []
    /\ rwnd_ (rcv_info w') = 2 * get_rcv_buffer_size w'.
Proof. apply (wcp_rcv_buffer_size 100000 closed_wcb); reflexivity || discriminate. Defined.

Lemma wcp_snd_buffer_size_witness :
  exists w' ec, set_snd_buffer_size 3 closed_wcb = Ok (w', ec)
    /\ (state closed_wcb = WCB_CLOSED -> ec = OK /\ bytes_ringbuffer.contents (sb w') = []
        /\ get_snd_buffer_size w' = Z.max WCP_SND_BUFFER_MIN (Z.min 3 WCP_SND_BUFFER_MAX))
    /\ (state closed_wcb <> WCB_CLOSED -> ec = E_INVALID_OPERATION /\ w' = closed_wcb).
Proof. apply (wcp_snd_buffer_size 3 closed_wcb); reflexivity || discriminate. Defined.

Lemma wcp_negative_size_asserts_witness :
  set_snd_buffer_size (-1) closed_wcb = Fault AssertFailed.
Proof. apply (wcp_negative_size_asserts (-1) closed_wcb); [reflexivity | reflexivity | split; reflexivity]. Defined.
