(* ===== verification/Address.v ===== *)
(** * Address: socket addresses ([include/wawo/net/address.hpp],
    [src/net/address.cpp])

    An address is a 64-bit identity: the IPv4 address in network order shifted
    by 16 bits, or-ed with the port in network order.  Also here:
    [four_tuple_hash] of [src/net/wcp.cpp].

    The functions that resolve names or parse dotted notations call the system
    resolver and [inet_pton] and are not modelled. *)

From S2P Require Import Prelude.

(** POSIX [ntohl] and [ntohs] on a little-endian host. *)
Definition ntohs (v : Z) : Z := Z.lor (Z.shiftl (Z.land v 255) 8) (Z.land (Z.shiftr v 8) 255).
Definition ntohl (v : Z) : Z :=
  Z.lor (Z.shiftl (ntohs (Z.land v 65535)) 16) (ntohs (Z.land (Z.shiftr v 16) 65535)).

Module address.
Definition t : Type := Z.

Definition is_null (a : t) : bool := 0 =? a.

(** [address(sockaddr_in const&)] from [sin_addr.s_addr] and [sin_port]. *)
Definition of_sockaddr (s_addr sin_port : Z) : t :=
  let i := u64 (Z.shiftl (Z.lor 0 (Z.land s_addr 4294967295)) 16) in
  Z.lor i (Z.land sin_port 65535).

Definition get_netsequence_port (a : t) : Z := u16 (Z.land a 65535).
Definition get_netsequence_ulongip (a : t) : Z := Z.land (Z.shiftr a 16) 4294967295.
Definition get_hostsequence_ulongip (a : t) : Z := ntohl (get_netsequence_ulongip a).
Definition get_hostsequence_port (a : t) : Z := ntohs (get_netsequence_port a).
Definition get_port (a : t) : Z := get_hostsequence_port a.

(** [Ip] is an [unsigned long], 64 bits here; nothing masks it. *)
Definition set_netsequence_ulongip (ulongIp : Z) (a : t) : t :=
  let port := u16 (Z.land a 65535) in
  Z.lor (u64 (Z.shiftl (Z.lor 0 ulongIp) 16)) port.
Definition set_netsequence_port (port : Z) (a : t) : t :=
  let current_ip := Z.land (Z.shiftr a 16) 4294967295 in
  Z.lor (u64 (Z.shiftl (Z.lor 0 current_ip) 16)) (Z.land port 65535).

Definition lt (a b : t) : bool := a <? b.
Definition eqb (a b : t) : bool := a =? b.
End address.

Definition four_tuple_hash (addr1 addr2 : address.t) : Z :=
  Z.lxor (Z.lxor (Z.lxor (u32 (address.get_hostsequence_ulongip addr1) *₃₂ 59)
                         (u32 (address.get_hostsequence_ulongip addr2)))
                 (u32 (Z.shiftl (u32 (address.get_port addr1)) 16)))
         (u32 (address.get_port addr2)).

(** ** Round trips *)
Lemma shift_or_add i p : 0 <= p < 65536 -> Z.lor (Z.shiftl i 16) p = i * 65536 + p.
Proof. apply (shiftl_lor_add 16). lia. Qed.

Lemma shiftr_16 i p : 0 <= p < 65536 -> Z.shiftr (i * 65536 + p) 16 = i.
Proof.
  intros. rewrite Z.shiftr_div_pow2 by lia. change (2 ^ 16) with 65536.
  rewrite Z.div_add_l, Z.div_small by lia. lia.
Qed.

Lemma land_65535 v : Z.land v 65535 = v mod 65536.
Proof. change 65535 with (Z.ones 16). by rewrite Z.land_ones by lia. Qed.
Lemma land_u32 v : Z.land v 4294967295 = v mod 4294967296.
Proof. change 4294967295 with (Z.ones 32). by rewrite Z.land_ones by lia. Qed.
Lemma land_255 v : Z.land v 255 = v mod 256.
Proof. change 255 with (Z.ones 8). by rewrite Z.land_ones by lia. Qed.

(** The numeric reading of an address: ip * 2^16 + port. *)
Lemma of_sockaddr_val ip port :
  is_u32 ip -> is_u16 port -> address.of_sockaddr ip port = ip * 65536 + port.
Proof.
  intros Hi Hp. unfold address.of_sockaddr. rewrite Z.lor_0_l, land_u32, land_65535.
  rewrite !Z.mod_small by range_lia. rewrite Z.shiftl_mul_pow2 by lia. change (2 ^ 16) with 65536.
  rewrite u64_small by range_lia. rewrite <- (shift_or_add ip port) by range_lia.
  by rewrite Z.shiftl_mul_pow2 by lia.
Qed.

Lemma ip_val ip port :
  is_u32 ip -> is_u16 port -> address.get_netsequence_ulongip (ip * 65536 + port) = ip.
Proof.
  intros Hi Hp. unfold address.get_netsequence_ulongip.
  rewrite shiftr_16, land_u32 by range_lia. apply Z.mod_small. range_lia.
Qed.

Lemma port_val ip port :
  is_u16 port -> address.get_netsequence_port (ip * 65536 + port) = port.
Proof.
  intros Hp. unfold address.get_netsequence_port.
  rewrite land_65535, Z.add_comm, Z_mod_plus_full, Z.mod_small, u16_small by range_lia. done.
Qed.

Lemma ntohs_val v : is_u16 v -> ntohs v = v mod 256 * 256 + v / 256.
Proof.
  intros Hv. unfold ntohs. rewrite !land_255, Z.shiftr_div_pow2 by lia. change (2 ^ 8) with 256.
  assert (Hd : 0 <= v / 256 < 256) by (split; [apply Z.div_pos | apply Z.div_lt_upper_bound]; range_lia).
  pose proof (Z.mod_pos_bound v 256). rewrite (Z.mod_small (v / 256)) by lia.
  apply (shiftl_lor_add 8); lia.
Qed.

Lemma ntohs_involutive v : is_u16 v -> ntohs (ntohs v) = v.
Proof.
  intros Hv. assert (Hd : 0 <= v / 256 < 256)
    by (split; [apply Z.div_pos | apply Z.div_lt_upper_bound]; range_lia).
  pose proof (Z.mod_pos_bound v 256). pose proof (Z.div_mod v 256).
  rewrite (ntohs_val v), ntohs_val by range_lia.
  replace ((v mod 256 * 256 + v / 256) mod 256) with (v / 256)
    by (rewrite Z.add_comm, Z_mod_plus_full, Z.mod_small; lia).
  rewrite Z.div_add_l, (Z.div_small (v / 256)) by lia. lia.
Qed.

(** An address built from a 32-bit IP and a 16-bit port gives both back;
    the setters change one and keep the other; two addresses are equal exactly
    when their IP and their port are, and the null address is the one with
    neither; the host order port converts back to the network order one. *)
Theorem address_fields_roundtrip ip port ip' port' :
  is_u32 ip -> is_u16 port -> is_u32 ip' -> is_u16 port' ->
  let a := address.of_sockaddr ip port in
  (address.get_netsequence_ulongip a = ip /\ address.get_netsequence_port a = port)
  /\ address.set_netsequence_ulongip ip' a = address.of_sockaddr ip' port
  /\ address.set_netsequence_port port' a = address.of_sockaddr ip port'
  /\ (address.eqb a (address.of_sockaddr ip' port') = true <-> ip = ip' /\ port = port')
  /\ (address.is_null a = true <-> ip = 0 /\ port = 0)
  /\ ntohs (address.get_hostsequence_port a) = port.
Proof.
  intros Hi Hp Hi' Hp'. cbv zeta. rewrite !of_sockaddr_val by done.
  assert (HS : forall v, is_u32 v -> u64 (Z.shiftl (Z.lor 0 v) 16) = Z.shiftl v 16).
  { intros v Hv. rewrite Z.lor_0_l. apply u64_small. rewrite Z.shiftl_mul_pow2 by lia. range_lia. }
  split; [split; [by apply ip_val | by apply port_val]|].
  split; [|split; [|split; [|split]]].
  - unfold address.set_netsequence_ulongip. rewrite HS by done.
    rewrite land_65535, Z.add_comm, Z_mod_plus_full, Z.mod_small, u16_small by range_lia.
    apply shift_or_add. range_lia.
  - unfold address.set_netsequence_port. rewrite shiftr_16, land_u32, Z.mod_small, HS by range_lia.
    rewrite land_65535, Z.mod_small by range_lia. apply shift_or_add. range_lia.
  - unfold address.eqb. rewrite Z.eqb_eq. range_lia.
  - unfold address.is_null. rewrite Z.eqb_eq. range_lia.
  - unfold address.get_hostsequence_port. rewrite port_val by done. by apply ntohs_involutive.
Qed.

Lemma address_fields_roundtrip_witness :
  let a := address.of_sockaddr 16777343 36895 in
  (address.get_netsequence_ulongip a = 16777343 /\ address.get_netsequence_port a = 36895)
  /\ address.set_netsequence_ulongip 5 a = address.of_sockaddr 5 36895
  /\ address.set_netsequence_port 80 a = address.of_sockaddr 16777343 80
  /\ (address.eqb a (address.of_sockaddr 5 80) = true <-> 16777343 = 5 /\ 36895 = 80)
  /\ (address.is_null a = true <-> 16777343 = 0 /\ 36895 = 0)
  /\ ntohs (address.get_hostsequence_port a) = 36895.
Proof. apply (address_fields_roundtrip 16777343 36895 5 80); split; discriminate || reflexivity. Defined.
