(* ===== verification/Wcp.v ===== *)
(** * Wcp: the socket interface of WCP ([class wcp], [src/net/wcp.cpp])

    The singleton keeps the control blocks by descriptor, those not yet
    connected or listening apart, the blocks of accepted connections by the hash
    of their four-tuple, a queue of blocks to watch, and the poll sets.

    Control blocks are shared (by the maps, the backlogs of listeners and the
    poll sets): they live in a heap, [objs], and everything else holds their
    keys.  Poll entries are shared with the pending events, so they live in the
    heap [watches].

    A call returns the state and its [int] result; [None] stands for a caller
    that has to wait on a condition variable. *)

From stdpp Require Import sorting.
From S2P Require Import Prelude Bytes Ring Address WcpData WcpCodec WcpSend WcpRecv WcpState.

(** The UDP socket of a new connection of a listener: the calls in order. *)
Inductive accept_call : Type :=
| Open | Reuse_addr | Reuse_port | Bind | Connect_udp | Nonblocking.

Definition accept_calls : list accept_call :=
  [Open; Reuse_addr; Reuse_port; Bind; Connect_udp; Nonblocking].

(** What the UDP sockets under the control blocks answer: those of the blocks
    (by object) and those of the connections a listener accepts (by peer).
    [uninit] has the values of the members a new block leaves uninitialised. *)
Class wcp_sockets := {
  open_udp : Z * Z; (* result and errno *)
  turnon_nonblocking : Z -> Z;
  bind_udp : Z -> Z -> Z * Z;
  listen_udp : Z -> Z -> Z;
  accept_udp : accept_call -> Z -> Z;
  accepted_local_addr : Z -> Z;
  so_local_addr : Z -> Z;
  so_is_nonblocking : Z -> bool;
  so_getsockopt : Z -> Z -> Z * Z;
  so_setsockopt : Z -> Z -> Z;
  uninit : WCB
}.

Definition WCP_FD_MAX : Z := 2048.

(** [WPOLLIN], [WPOLLOUT], [WPOLLERR]. *)
Definition WPOLLIN : Z := 1.
Definition WPOLLOUT : Z := 2.
Definition WPOLLERR : Z := 4.

Inductive wpoll_op : Type := WPOLL_CTL_ADD | WPOLL_CTL_DEL.

Record wpoll_event : Type := mk_event { e_fd : Z; e_evts : Z; e_cookie : Z }.
Record wpoll_watch_event : Type := mk_watch { w_fd : Z; w_evts : Z; w_cookie : Z; w_wcb : Z }.

Inductive wcp_state : Type := S_IDLE | S_RUN | S_EXIT.
#[export] Instance wcp_state_eq_dec : EqDecision wcp_state.
Proof. solve_decision. Defined.

Record wcp : Type := mk_wcp {
  objs : gmap Z WCB;
  obj_next : Z;
  m_state : wcp_state;
  m_wcb_map : gmap Z Z;
  m_wcb_create_pending_map : gmap Z Z;
  m_wcb_four_tuple_map : gmap Z Z;
  m_ops : list Z;
  s_wcb_auto_increament_id : Z;
  m_wpoll_map : gmap Z (list Z);
  watches : gmap Z wpoll_watch_event;
  watch_next : Z;
  m_event_pending_queue : list (wpoll_event * Z);
  s_wpoll_auto_increament_id : Z;
  last_errno : Z;
  reading : list Z;            (* objects whose socket is read asynchronously *)
  so_closed : list (Z * Z)     (* objects whose socket was closed, with the code *)
}.

(** *** Setters *)
Definition set_objs v s := mk_wcp v (obj_next s) (m_state s) (m_wcb_map s)
  (m_wcb_create_pending_map s) (m_wcb_four_tuple_map s) (m_ops s) (s_wcb_auto_increament_id s)
  (m_wpoll_map s) (watches s) (watch_next s) (m_event_pending_queue s)
  (s_wpoll_auto_increament_id s) (last_errno s) (reading s) (so_closed s).
Definition set_m_state v s := mk_wcp (objs s) (obj_next s) v (m_wcb_map s)
  (m_wcb_create_pending_map s) (m_wcb_four_tuple_map s) (m_ops s) (s_wcb_auto_increament_id s)
  (m_wpoll_map s) (watches s) (watch_next s) (m_event_pending_queue s)
  (s_wpoll_auto_increament_id s) (last_errno s) (reading s) (so_closed s).
Definition set_m_wcb_map v s := mk_wcp (objs s) (obj_next s) (m_state s) v
  (m_wcb_create_pending_map s) (m_wcb_four_tuple_map s) (m_ops s) (s_wcb_auto_increament_id s)
  (m_wpoll_map s) (watches s) (watch_next s) (m_event_pending_queue s)
  (s_wpoll_auto_increament_id s) (last_errno s) (reading s) (so_closed s).
Definition set_pending_map v s := mk_wcp (objs s) (obj_next s) (m_state s) (m_wcb_map s)
  v (m_wcb_four_tuple_map s) (m_ops s) (s_wcb_auto_increament_id s)
  (m_wpoll_map s) (watches s) (watch_next s) (m_event_pending_queue s)
  (s_wpoll_auto_increament_id s) (last_errno s) (reading s) (so_closed s).
Definition set_four_tuple_map v s := mk_wcp (objs s) (obj_next s) (m_state s) (m_wcb_map s)
  (m_wcb_create_pending_map s) v (m_ops s) (s_wcb_auto_increament_id s)
  (m_wpoll_map s) (watches s) (watch_next s) (m_event_pending_queue s)
  (s_wpoll_auto_increament_id s) (last_errno s) (reading s) (so_closed s).
Definition set_m_ops v s := mk_wcp (objs s) (obj_next s) (m_state s) (m_wcb_map s)
  (m_wcb_create_pending_map s) (m_wcb_four_tuple_map s) v (s_wcb_auto_increament_id s)
  (m_wpoll_map s) (watches s) (watch_next s) (m_event_pending_queue s)
  (s_wpoll_auto_increament_id s) (last_errno s) (reading s) (so_closed s).
Definition set_auto_id v s := mk_wcp (objs s) (obj_next s) (m_state s) (m_wcb_map s)
  (m_wcb_create_pending_map s) (m_wcb_four_tuple_map s) (m_ops s) v
  (m_wpoll_map s) (watches s) (watch_next s) (m_event_pending_queue s)
  (s_wpoll_auto_increament_id s) (last_errno s) (reading s) (so_closed s).
Definition set_wpoll_map v s := mk_wcp (objs s) (obj_next s) (m_state s) (m_wcb_map s)
  (m_wcb_create_pending_map s) (m_wcb_four_tuple_map s) (m_ops s) (s_wcb_auto_increament_id s)
  v (watches s) (watch_next s) (m_event_pending_queue s)
  (s_wpoll_auto_increament_id s) (last_errno s) (reading s) (so_closed s).
Definition set_watches v s := mk_wcp (objs s) (obj_next s) (m_state s) (m_wcb_map s)
  (m_wcb_create_pending_map s) (m_wcb_four_tuple_map s) (m_ops s) (s_wcb_auto_increament_id s)
  (m_wpoll_map s) v (watch_next s) (m_event_pending_queue s)
  (s_wpoll_auto_increament_id s) (last_errno s) (reading s) (so_closed s).
Definition set_pending_queue v s := mk_wcp (objs s) (obj_next s) (m_state s) (m_wcb_map s)
  (m_wcb_create_pending_map s) (m_wcb_four_tuple_map s) (m_ops s) (s_wcb_auto_increament_id s)
  (m_wpoll_map s) (watches s) (watch_next s) v
  (s_wpoll_auto_increament_id s) (last_errno s) (reading s) (so_closed s).
Definition set_wpoll_id v s := mk_wcp (objs s) (obj_next s) (m_state s) (m_wcb_map s)
  (m_wcb_create_pending_map s) (m_wcb_four_tuple_map s) (m_ops s) (s_wcb_auto_increament_id s)
  (m_wpoll_map s) (watches s) (watch_next s) (m_event_pending_queue s)
  v (last_errno s) (reading s) (so_closed s).
Definition set_last_errno v s := mk_wcp (objs s) (obj_next s) (m_state s) (m_wcb_map s)
  (m_wcb_create_pending_map s) (m_wcb_four_tuple_map s) (m_ops s) (s_wcb_auto_increament_id s)
  (m_wpoll_map s) (watches s) (watch_next s) (m_event_pending_queue s)
  (s_wpoll_auto_increament_id s) v (reading s) (so_closed s).
Definition set_reading v s := mk_wcp (objs s) (obj_next s) (m_state s) (m_wcb_map s)
  (m_wcb_create_pending_map s) (m_wcb_four_tuple_map s) (m_ops s) (s_wcb_auto_increament_id s)
  (m_wpoll_map s) (watches s) (watch_next s) (m_event_pending_queue s)
  (s_wpoll_auto_increament_id s) (last_errno s) v (so_closed s).
Definition set_so_closed v s := mk_wcp (objs s) (obj_next s) (m_state s) (m_wcb_map s)
  (m_wcb_create_pending_map s) (m_wcb_four_tuple_map s) (m_ops s) (s_wcb_auto_increament_id s)
  (m_wpoll_map s) (watches s) (watch_next s) (m_event_pending_queue s)
  (s_wpoll_auto_increament_id s) (last_errno s) (reading s) v.

(** *** The heaps *)
Definition alloc (w : WCB) (s : wcp) : wcp * Z :=
  let s1 := set_objs (<[obj_next s := w]> (objs s)) s in
  (mk_wcp (objs s1) (obj_next s + 1) (m_state s1) (m_wcb_map s1)
     (m_wcb_create_pending_map s1) (m_wcb_four_tuple_map s1) (m_ops s1) (s_wcb_auto_increament_id s1)
     (m_wpoll_map s1) (watches s1) (watch_next s1) (m_event_pending_queue s1)
     (s_wpoll_auto_increament_id s1) (last_errno s1) (reading s1) (so_closed s1), obj_next s).

Definition alloc_watch (e : wpoll_watch_event) (s : wcp) : wcp * Z :=
  (mk_wcp (objs s) (obj_next s) (m_state s) (m_wcb_map s)
     (m_wcb_create_pending_map s) (m_wcb_four_tuple_map s) (m_ops s) (s_wcb_auto_increament_id s)
     (m_wpoll_map s) (<[watch_next s := e]> (watches s)) (watch_next s + 1)
     (m_event_pending_queue s) (s_wpoll_auto_increament_id s) (last_errno s) (reading s)
     (so_closed s), watch_next s).

(** Dereferencing: a dangling key is undefined behaviour (the pointers are
    counted references, so it does not happen). *)
Definition get (id : Z) (s : wcp) : res WCB :=
  match objs s !! id with Some w => Ok w | None => Fault Undefined end.
Definition put (id : Z) (w : WCB) (s : wcp) : wcp := set_objs (<[id := w]> (objs s)) s.

(** [std::map::insert] keeps the entry that is already there. *)
Definition map_insert {A} (k : Z) (v : A) (m : gmap Z A) : gmap Z A :=
  match m !! k with Some _ => m | None => <[k := v]> m end.

(** Return after [set_last_errno]. *)
Definition ret_errno (ec : Z) (s : wcp) : res (wcp * Z) := Ok (set_last_errno ec s, ec).

Section wcp.
Context `{memory} `{wcp_env} `{wcp_sockets}.

(** [make_wcb_fd]: [atomic_increment] returns the old value of an [int]. *)
Definition make_wcb_fd (s : wcp) : wcp * Z :=
  let id := s_wcb_auto_increament_id s in
  (set_auto_id (i32 (id + 1)) s, i32 (Z.rem id WCP_FD_MAX + 16777215)).

(** [new WCB()]: the members with constructors are empty. *)
Definition new_WCB : WCB :=
  set_so_sent [] (set_so_calls 0 (set_local_addr 0 (set_remote_addr 0 (set_rcv_received []
    (set_backloglist_pending [] (set_backlogq [] (set_snd_sending [] (set_snd_flights []
      (set_s_sending_standby [] (set_s_sending_ignore_seq_space []
        (set_cond_notified false (set_r_cond_notified false uninit)))))))))))).

(** The block of a descriptor: among those in use, or also among those waiting
    for [connect] or [listen]. *)
Definition find_used (fd : Z) (s : wcp) : option Z := m_wcb_map s !! fd.
Definition find_any (fd : Z) (s : wcp) : option Z :=
  match m_wcb_map s !! fd with
  | Some id => Some id
  | None => m_wcb_create_pending_map s !! fd
  end.

Definition begin_async_read (id : Z) (s : wcp) : wcp := set_reading (reading s ++ [id]) s.
Definition close_so (id ec : Z) (s : wcp) : wcp := set_so_closed (so_closed s ++ [(id, ec)]) s.

(** Result of a call on a block. *)
Definition finish (id : Z) (r : WCB * Z * option Z) (s : wcp) : wcp * Z :=
  let '(w, ret, e) := r in
  let s1 := put id w s in
  (match e with Some ec => set_last_errno ec s1 | None => s1 end, ret).

(** ** Sockets *)

(** [AF_INET], [SOCK_DGRAM], [IPPROTO_UDP]. *)
Definition socket (family socket_type protocol : Z) (s : wcp) : res (wcp * Z) :=
  _ ← wawo_assert (family =? 2);
  _ ← wawo_assert (socket_type =? 2);
  _ ← wawo_assert (protocol =? 17);
  let '(openrt, errno) := open_udp in
  if negb (openrt =? OK) then Ok (s, WAWO_NEGATIVE errno)
  else
    w ← init new_WCB;
    let '(s1, fd) := make_wcb_fd s in
    match m_wcb_create_pending_map s1 !! fd with
    | Some _ => ret_errno E_WCP_INTERNAL_ERROR s1
    | None =>
        let '(s2, id) := alloc (set_fd fd w) s1 in
        Ok (set_pending_map (map_insert fd id (m_wcb_create_pending_map s2)) s2, fd)
    end.

(** [None] when the caller blocks until [connect_done]. *)
Definition api_connect (fd addr : Z) (s : wcp) : res (wcp * option Z) :=
  match m_wcb_create_pending_map s !! fd with
  | None => Ok (set_last_errno E_EBADF s, Some E_EBADF)
  | Some id =>
      let nb := turnon_nonblocking id in
      if negb (nb =? OK) then Ok (s, Some nb)
      else
        let s1 := set_pending_map (delete fd (m_wcb_create_pending_map s)) s in
        let s2 := set_m_wcb_map (map_insert fd id (m_wcb_map s1)) s1 in
        let s3 := begin_async_read id s2 in
        w ← get id s3;
        '(w', r) ← connect addr w;
        let s4 := put id w' s3 in
        Ok (match r with Some _ => set_last_errno EINPROGRESS s4 | None => s4 end, r)
  end.

Definition bind (fd addr : Z) (s : wcp) : res (wcp * Z) :=
  match m_wcb_create_pending_map s !! fd with
  | None => ret_errno E_EBADF s
  | Some id =>
      w ← get id s;
      let w1 := set_local_addr addr w in
      let '(bindrt, errno) := bind_udp id addr in
      if negb (bindrt =? OK) then
        let w2 := set_wcb_errno (WAWO_NEGATIVE errno) w1 in
        Ok (put id w2 s, wcb_errno w2)
      else Ok (put id w1 s, OK)
  end.

(** When the UDP socket cannot listen, the result returned is that of the
    earlier call ([nonblocking]), which is [OK]. *)
Definition api_listen (fd backlog : Z) (s : wcp) : res (wcp * Z) :=
  match m_wcb_create_pending_map s !! fd with
  | None => ret_errno E_EBADF s
  | Some id =>
      let nb := turnon_nonblocking id in
      if negb (nb =? OK) then Ok (s, nb)
      else if negb (listen_udp id backlog =? OK) then Ok (s, nb)
      else
        w ← get id s;
        r ← listen backlog w;
        let '(s1, listenrt) := finish id r s in
        if negb (listenrt =? OK) then Ok (s1, listenrt)
        else
          let s2 := set_pending_map (delete fd (m_wcb_create_pending_map s1)) s1 in
          let s3 := set_m_wcb_map (map_insert fd id (m_wcb_map s2)) s2 in
          Ok (begin_async_read id s3, OK)
  end.

(** The descriptor and the peer of the first connection of the backlog. *)
Definition accept (fd : Z) (s : wcp) : res (wcp * Z * option Z) :=
  match find_used fd s with
  | None => '(s', r) ← ret_errno E_EBADF s; Ok (s', r, None)
  | Some id =>
      w ← get id s;
      if flag_on (r_flag w) (Z.lor READ_RECV_ERROR READ_LOCAL_READ_SHUTDOWNED) then
        '(s', r) ← ret_errno
                     (if negb (wcb_errno w =? 0) then wcb_errno w else E_ECONNABORTED) s;
        Ok (s', r, None)
      else
        match backlogq w with
        | [] => Ok (set_last_errno EWOULDBLOCK s, WAWO_NEGATIVE EWOULDBLOCK, None)
        | c :: rest =>
            child ← get c s;
            _ ← wawo_assert (negb (remote_addr child =? 0));
            Ok (put id (set_backlogq rest w) s, WcpData.fd child, Some (remote_addr child))
        end
  end.

Definition api_shutdown (fd flag : Z) (s : wcp) : res (wcp * Z) :=
  match find_used fd s with
  | None => ret_errno E_EBADF s
  | Some id =>
      w ← get id s;
      if flag_on (wcb_flag w) WCB_FLAG_IS_LISTENER then ret_errno E_EOPNOTSUPP s
      else r ← shutdown flag w; Ok (finish id r s)
  end.

Definition api_close (fd : Z) (s : wcp) : res (wcp * Z) :=
  match m_wcb_map s !! fd with
  | Some id => w ← get id s; r ← close w; Ok (finish id r s)
  | None =>
      match m_wcb_create_pending_map s !! fd with
      | Some id =>
          let s1 := set_pending_map (delete fd (m_wcb_create_pending_map s)) s in
          w ← get id s1; r ← close w; Ok (finish id r s1)
      | None => ret_errno E_EBADF s
      end
  end.

(** ** Data *)
Definition send (fd : Z) (buffer : list Z) (len : Z) (s : wcp) : res (wcp * Z) :=
  match find_used fd s with
  | None => ret_errno E_EBADF s
  | Some id =>
      w ← get id s;
      if flag_on (s_flag w) (Z.lor WRITE_SEND_ERROR WRITE_LOCAL_WRITE_SHUTDOWNED) then
        ret_errno (if negb (wcb_errno w =? 0) then wcb_errno w else E_ECONNABORTED) s
      else
        let left_capacity := bytes_ringbuffer.left_capacity (sb w) in
        if (left_capacity <? len) && (left_capacity <? 2 * WCP_MDU) then
          Ok (set_last_errno EWOULDBLOCK s, WAWO_NEGATIVE EWOULDBLOCK)
        else
          '(q, n) ← bytes_ringbuffer.write (sb w) buffer len;
          Ok (put id (set_sb q w) s, n)
  end.

(** The bytes read and the result; [None] when a blocking caller waits. *)
Definition recv (fd size : Z) (s : wcp) : res (wcp * option (Z * list Z)) :=
  match find_used fd s with
  | None => Ok (set_last_errno E_EBADF s, Some (E_EBADF, []))
  | Some id =>
      w ← get id s;
      if flag_on (r_flag w) READ_LOCAL_READ_SHUTDOWNED then
        Ok (set_last_errno E_ECONNABORTED s, Some (E_ECONNABORTED, []))
      else if 0 <? bytes_ringbuffer.count (rb w) then
        '(q, bytes, nbytes) ← bytes_ringbuffer.read (rb w) size true;
        _ ← wawo_assert (0 <? nbytes);
        Ok (put id (set_rb q w) s, Some (nbytes, bytes))
      else
        _ ← wawo_assert (bytes_ringbuffer.count (rb w) =? 0);
        if flag_on (r_flag w) READ_REMOTE_FIN_RECEIVED then
          if flag_on (r_flag w) READ_REMOTE_FIN_READ_BY_USER then
            Ok (set_last_errno E_ECONNRESET s, Some (E_ECONNRESET, []))
          else
            Ok (set_last_errno OK (put id (rflag_set READ_REMOTE_FIN_READ_BY_USER w) s), Some (OK, []))
        else if flag_on (r_flag w) READ_RECV_ERROR then
          _ ← wawo_assert (negb (wcb_errno w =? 0));
          Ok (set_last_errno (wcb_errno w) s, Some (WAWO_NEGATIVE (wcb_errno w), []))
        else
          _ ← wawo_assert (wcb_errno w =? 0);
          if nonblocking w then
            Ok (set_last_errno EWOULDBLOCK s, Some (WAWO_NEGATIVE EWOULDBLOCK, []))
          else Ok (s, None)
  end.

(** ** Names and options *)
Definition getsockname (fd : Z) (s : wcp) : res (wcp * Z * option Z) :=
  match find_used fd s with
  | None => '(s', r) ← ret_errno E_EBADF s; Ok (s', r, None)
  | Some id =>
      w ← get id s;
      let w1 := if local_addr w =? 0 then set_local_addr (so_local_addr id) w else w in
      Ok (put id w1 s, OK, Some (local_addr w1))
  end.

(** Linux values. *)
Definition SO_REUSEADDR : Z := 2.
Definition SO_ERROR : Z := 4.
Definition SO_SNDBUF : Z := 7.
Definition SO_RCVBUF : Z := 8.
Definition SO_REUSEPORT : Z := 15.
Definition IP_TOS : Z := 1.

(** The result and the value stored. *)
Definition getsockopt (fd option_name : Z) (s : wcp) : res (wcp * Z * option Z) :=
  match find_any fd s with
  | None => '(s', r) ← ret_errno E_EBADF s; Ok (s', r, None)
  | Some id =>
      w ← get id s;
      if (option_name =? SO_REUSEADDR) || (option_name =? SO_REUSEPORT) then
        let '(r, v) := so_getsockopt id option_name in Ok (s, r, Some v)
      else if option_name =? SO_ERROR then Ok (s, OK, Some (wcb_errno w))
      else if option_name =? SO_RCVBUF then Ok (s, OK, Some (get_rcv_buffer_size w))
      else if option_name =? SO_SNDBUF then Ok (s, OK, Some (get_snd_buffer_size w))
      else Fault AssertFailed
  end.

Definition setsockopt (fd option_name value : Z) (s : wcp) : res (wcp * Z) :=
  match find_any fd s with
  | None => ret_errno E_EBADF s
  | Some id =>
      w ← get id s;
      if (option_name =? SO_REUSEADDR) || (option_name =? SO_REUSEPORT) then
        Ok (s, so_setsockopt id option_name)
      else if option_name =? SO_RCVBUF then
        '(w', r) ← set_rcv_buffer_size value w; Ok (put id w' s, r)
      else if option_name =? SO_SNDBUF then
        '(w', r) ← set_snd_buffer_size value w; Ok (put id w' s, r)
      else if option_name =? IP_TOS then Ok (s, OK)
      else Fault AssertFailed
  end.

Definition fcntl_getfl (fd : Z) (s : wcp) : res (wcp * Z * option Z) :=
  match find_any fd s with
  | None => '(s', r) ← ret_errno E_EBADF s; Ok (s', r, None)
  | Some id => w ← get id s; Ok (s, OK, Some (wcb_option w))
  end.

Definition fcntl_setfl (fd flag : Z) (s : wcp) : res (wcp * Z) :=
  match find_any fd s with
  | None => ret_errno E_EBADF s
  | Some id => w ← get id s; Ok (put id (set_wcb_option flag w) s, OK)
  end.

(** ** The four-tuple map and the queue of blocks to watch *)
Definition add_to_four_tuple_hash_map (id : Z) (w : WCB) (s : wcp) : res (wcp * Z) :=
  _ ← wawo_assert (negb (four_tuple_hash_id w =? 0));
  if WCP_FD_MAX <=? Z.of_nat (size (m_wcb_four_tuple_map s)) then ret_errno E_EMFILE s
  else
    match m_wcb_four_tuple_map s !! four_tuple_hash_id w with
    | Some _ => ret_errno E_EADDRINUSE s
    | None => Ok (set_four_tuple_map (<[four_tuple_hash_id w := id]> (m_wcb_four_tuple_map s)) s, OK)
    end.

Definition remove_from_four_tuple_hash_map (w : WCB) (s : wcp) : res (wcp * Z) :=
  _ ← wawo_assert (negb (four_tuple_hash_id w =? 0));
  _ ← wawo_assert (flag_on (wcb_flag w) WCB_FLAG_IS_PASSIVE_OPEN);
  match m_wcb_four_tuple_map s !! four_tuple_hash_id w with
  | None => Ok (s, -1)
  | Some _ => Ok (set_four_tuple_map (delete (four_tuple_hash_id w) (m_wcb_four_tuple_map s)) s, OK)
  end.

Definition watch (id : Z) (s : wcp) : wcp := set_m_ops (m_ops s ++ [id]) s.

(** [_execute_ops]: every queued operation is a watch. *)
Fixpoint execute_ops_loop (ops : list Z) (s : wcp) : res wcp :=
  match ops with
  | [] => Ok (set_m_ops [] s)
  | id :: rest =>
      w ← get id s;
      _ ← wawo_assert (so_is_nonblocking id);
      execute_ops_loop rest
        (begin_async_read id (set_m_wcb_map (map_insert (WcpData.fd w) id (m_wcb_map s)) s))
  end.
Definition _execute_ops (s : wcp) : res wcp := execute_ops_loop (m_ops s) s.

(** ** Listeners *)

(** The first failing call on the accepted UDP socket, if any. *)
Fixpoint accept_socket (calls : list accept_call) (from : Z) : Z :=
  match calls with
  | [] => OK
  | c :: rest => let ec := accept_udp c from in if negb (ec =? OK) then ec else accept_socket rest from
  end.

(** The block of a new connection: [id] is the listener [l]. *)
Definition accepted_WCB (l : WCB) (p : WCB_received_pack) (s : wcp) : res (wcp * WCB) :=
  w ← init new_WCB;
  let w1 := set_remote_addr (from p) (set_local_addr (accepted_local_addr (from p))
              (set_four_tuple_hash_id (four_tuple_hash (local_addr l) (from p))
                 (wflag_set WCB_FLAG_IS_PASSIVE_OPEN w))) in
  let '(s1, nfd) := make_wcb_fd s in
  '(w2, _) ← set_rcv_buffer_size (get_rcv_buffer_size l) (set_fd nfd w1);
  '(w3, _) ← set_snd_buffer_size (get_snd_buffer_size l) w2;
  w4 ← SYN_RCVD p w3;
  Ok (s1, w4).

(** One pack received by the listener. *)
Definition listen_one (id : Z) (p : WCB_received_pack) (s : wcp) : res wcp :=
  l ← get id s;
  let h := rheader p in
  let reject (to : Z) (s : wcp) (l : WCB) : res wcp :=
    '(l', _) ← reply_rst_to_address (ack h) to l; Ok (put id l' s) in
  if Z.of_nat (length (backlogq l)) + Z.of_nat (length (backloglist_pending l)) =? backlog_size l then
    reject (from p) s l
  else if WCPPACK_TEST_FLAG h WCP_FLAG_RST then
    _ ← wawo_assert (bool_decide (state l = WCB_LISTEN)); Ok s
  else if negb (WCPPACK_TEST_FLAG h WCP_FLAG_SYN) then reject (from p) s l
  else if negb (accept_socket accept_calls (from p) =? OK) then reject (from p) s l
  else
    '(s1, w) ← accepted_WCB l p s;
    let '(s2, c) := alloc w s1 in
    '(s3, ec) ← add_to_four_tuple_hash_map c w s2;
    if ec <? 0 then reject (remote_addr w) s3 l
    else
      let s4 := watch c s3 in
      Ok (put id (set_backloglist_pending (backloglist_pending l ++ [c]) l) s4).

Fixpoint listen_packs (id : Z) (l : list WCB_received_pack) (s : wcp) : res wcp :=
  match l with
  | [] => Ok s
  | p :: rest => s' ← listen_one id p s; listen_packs id rest s'
  end.

Definition listen_handle_syn (id : Z) (s : wcp) : res wcp :=
  l ← get id s;
  _ ← wawo_assert (flag_on (wcb_flag l) WCB_FLAG_IS_LISTENER);
  s' ← listen_packs id (received_vec_standby l) s;
  l' ← get id s';
  Ok (put id (set_received_vec_standby [] l') s').

(** [update] of the object [id]; a listener updates its pending connections,
    so the recursion is bounded by the number of objects. *)
Fixpoint update_obj (fuel : nat) (now id : Z) (s : wcp) : res (wcp * WCB_State) :=
  w ← get id s;
  match state w with
  | WCB_LISTEN =>
      match fuel with
      | O => Fault Diverged
      | S fuel' =>
          _ ← wawo_assert (flag_on (wcb_flag w) WCB_FLAG_IS_LISTENER);
          s1 ← (if negb (flag_on (r_flag w) READ_LOCAL_READ_SHUTDOWNED)
                then listen_handle_syn id s else Ok s);
          w1 ← get id s1;
          s2 ← (fix pending (l kept : list Z) (s : wcp) : res wcp :=
                  match l with
                  | [] => w ← get id s; Ok (put id (set_backloglist_pending kept w) s)
                  | c :: rest =>
                      '(s', cs) ← update_obj fuel' now c s;
                      match cs with
                      | WCB_ESTABLISHED =>
                          w ← get id s';
                          _ ← wawo_assert (Z.of_nat (length (backlogq w)) <=? backlog_size w);
                          pending rest kept (put id (set_backlogq (backlogq w ++ [c]) w) s')
                      | WCB_CLOSE_WAIT | WCB_CLOSED =>
                          child ← get c s'; r ← close child;
                          pending rest kept (finish c r s').1
                      | WCB_SYN_RECEIVED => pending rest (kept ++ [c]) s'
                      | _ => Fault Thrown
                      end
                  end) (backloglist_pending w1) [] s1;
          w2 ← get id s2; Ok (s2, state w2)
      end
  | _ => w' ← update now w; Ok (put id w' s, state w')
  end.

(** [_update]: all blocks in use, by increasing descriptor; the recycled ones
    are closed and then forgotten. *)
Definition fd_le (a b : Z * Z) : Prop := a.1 <= b.1.
#[local] Instance fd_le_dec a b : Decision (fd_le a b).
Proof. unfold fd_le. apply _. Defined.

Definition by_fd (m : gmap Z Z) : list (Z * Z) := merge_sort fd_le (map_to_list m).

Fixpoint update_all (l : list (Z * Z)) (dead : list Z) (s : wcp) : res (wcp * list Z) :=
  match l with
  | [] => Ok (s, dead)
  | (_, id) :: rest =>
      w ← get id s;
      '(s1, st) ← update_obj (S (size (objs s))) (curr_milliseconds w) id s;
      match st with
      | WCB_RECYCLE =>
          w1 ← get id s1; update_all rest (dead ++ [id]) (close_so id (wcb_errno w1) s1)
      | _ => update_all rest dead s1
      end
  end.

Fixpoint forget (dead : list Z) (s : wcp) : res wcp :=
  match dead with
  | [] => Ok s
  | id :: rest =>
      w ← get id s;
      s1 ← (if flag_on (wcb_flag w) WCB_FLAG_IS_PASSIVE_OPEN
            then '(s', _) ← remove_from_four_tuple_hash_map w s; Ok s' else Ok s);
      forget rest (set_m_wcb_map (delete (WcpData.fd w) (m_wcb_map s1)) s1)
  end.

Definition _update (s : wcp) : res wcp :=
  '(s1, dead) ← update_all (by_fd (m_wcb_map s)) [] s; forget dead s1.

(** The ticker, [start] and [stop]. *)
Definition run (s : wcp) : res wcp :=
  if negb (bool_decide (m_state s = S_RUN)) then Ok s
  else s1 ← _execute_ops s; _update s1.

Definition on_start (s : wcp) : wcp := set_m_state S_RUN s.

Fixpoint stop_all (l : list (Z * Z)) (s : wcp) : res wcp :=
  match l with
  | [] => Ok s
  | (_, id) :: rest =>
      w ← get id s; r ← close w;
      stop_all rest (close_so id E_SOCKET_FORCE_CLOSE (finish id r s).1)
  end.

Definition stop (s : wcp) : res wcp :=
  if bool_decide (m_state s = S_EXIT) then Ok s
  else
    let s1 := set_m_state S_EXIT s in
    s2 ← stop_all (by_fd (m_wcb_map s1)) s1;
    Ok (set_wpoll_map ∅ (set_four_tuple_map ∅ (set_m_wcb_map ∅ s2))).

(** ** Poll sets *)
Definition wpoll_create (s : wcp) : res (wcp * Z) :=
  let id := s_wpoll_auto_increament_id s in
  let s1 := set_wpoll_id (i32 (id + 1)) s in
  if negb (bool_decide (m_state s1 = S_RUN)) then ret_errno E_INVALID_STATE s1
  else Ok (set_wpoll_map (map_insert id [] (m_wpoll_map s1)) s1, id).

Definition wpoll_close (handle : Z) (s : wcp) : res (wcp * Z) :=
  if negb (bool_decide (m_state s = S_RUN)) then ret_errno E_INVALID_STATE s
  else
    match m_wpoll_map s !! handle with
    | None => ret_errno E_WCP_WPOLL_HANDLE_NOT_EXISTS s
    | Some _ => Ok (set_wpoll_map (delete handle (m_wpoll_map s)) s, OK)
    end.

Definition get_watch (k : Z) (s : wcp) : res wpoll_watch_event :=
  match watches s !! k with Some e => Ok e | None => Fault Undefined end.
Definition put_watch (k : Z) (e : wpoll_watch_event) (s : wcp) : wcp :=
  set_watches (<[k := e]> (watches s)) s.
Definition set_evts (v : Z) (e : wpoll_watch_event) : wpoll_watch_event :=
  mk_watch (w_fd e) v (w_cookie e) (w_wcb e).

(** [std::find_if] on the descriptor. *)
Fixpoint find_watch (fd : Z) (l : list Z) (s : wcp) : res (option (Z * wpoll_watch_event)) :=
  match l with
  | [] => Ok None
  | k :: rest => e ← get_watch k s; if fd =? w_fd e then Ok (Some (k, e)) else find_watch fd rest s
  end.

(** A null cookie is 0. *)
Definition wpoll_ctl (handle : Z) (op : wpoll_op) (evt : wpoll_event) (s : wcp) : res (wcp * Z) :=
  _ ← wawo_assert (0 <? e_fd evt);
  _ ← wawo_assert (0 <? handle);
  if negb (bool_decide (m_state s = S_RUN)) then ret_errno E_INVALID_STATE s
  else
    match m_wpoll_map s !! handle with
    | None => ret_errno E_WCP_WPOLL_HANDLE_NOT_EXISTS s
    | Some evts =>
        match m_wcb_map s !! e_fd evt with
        | None => ret_errno E_EBADF s
        | Some id =>
            match op with
            | WPOLL_CTL_ADD =>
                _ ← wawo_assert (negb (e_cookie evt =? 0));
                o ← find_watch (e_fd evt) evts s;
                match o with
                | Some (k, e) =>
                    _ ← wawo_assert (w_cookie e =? e_cookie evt);
                    Ok (put_watch k (set_evts (flag_set (w_evts e) (e_evts evt)) e) s, OK)
                | None =>
                    let '(s1, k) := alloc_watch (mk_watch (e_fd evt) (e_evts evt) (e_cookie evt) id) s in
                    Ok (set_wpoll_map (<[handle := evts ++ [k]]> (m_wpoll_map s1)) s1, OK)
                end
            | WPOLL_CTL_DEL =>
                o ← find_watch (e_fd evt) evts s;
                match o with
                | None => ret_errno E_EBADF s
                | Some (k, e) =>
                    let v := flag_clear (w_evts e) (e_evts evt) in
                    let s1 := put_watch k (set_evts v e) s in
                    Ok (if v =? 0
                        then set_wpoll_map (<[handle := filter (fun j => j <> k) evts]> (m_wpoll_map s1)) s1
                        else s1, OK)
                end
            end
        end
    end.

(** The events of one watched block, and its new mask ([WPOLLOUT] is removed
    once the block cannot send any more). *)
Definition poll_one (e : wpoll_watch_event) (w : WCB) : res (Z * Z) :=
  v1 ← (if flag_on (w_evts e) WPOLLIN then
          let v := if flag_on (wcb_flag w) WCB_FLAG_IS_LISTENER
                   then (if negb (Z.of_nat (length (backlogq w)) =? 0) then WPOLLIN else 0)
                   else (if negb (bytes_ringbuffer.count (rb w) =? 0)
                            || (flag_on (r_flag w) READ_REMOTE_FIN_RECEIVED
                                && negb (flag_on (r_flag w) READ_REMOTE_FIN_READ_BY_USER))
                         then WPOLLIN else 0) in
          if flag_on (r_flag w) (Z.lor READ_RECV_ERROR READ_LOCAL_READ_SHUTDOWNED) then
            _ ← wawo_assert (negb (wcb_errno w =? OK)); Ok (flag_set v WPOLLERR)
          else Ok v
        else Ok 0);
  '(v2, m2) ← (if flag_on (w_evts e) WPOLLOUT then
          _ ← wawo_assert (negb (flag_on (wcb_flag w) WCB_FLAG_IS_LISTENER));
          if flag_on (s_flag w) (Z.lor WRITE_LOCAL_WRITE_SHUTDOWNED WRITE_SEND_ERROR) then
            _ ← wawo_assert (negb (wcb_errno w =? OK));
            Ok (flag_set v1 WPOLLERR, flag_clear (w_evts e) WPOLLOUT)
          else if bool_decide (state w = WCB_ESTABLISHED)
                  && (WCP_MDU * 2 <? bytes_ringbuffer.left_capacity (sb w))
          then Ok (flag_set v1 WPOLLOUT, w_evts e)
          else Ok (v1, w_evts e)
        else Ok (v1, w_evts e));
  Ok (if negb (wcb_errno w =? 0) then flag_set v2 WPOLLERR else v2, m2).

(** The events left over by the last call: those whose watch is still set. *)
Fixpoint take_pending (q : list (wpoll_event * Z)) (evts : list wpoll_event) (sz : Z) (s : wcp)
    : res (wcp * list wpoll_event) :=
  if Z.of_nat (length evts) <? sz then
    match q with
    | [] => Ok (set_pending_queue [] s, evts)
    | (ev, k) :: rest =>
        e ← get_watch k s;
        take_pending rest (if negb (w_evts e =? 0) then evts ++ [ev] else evts) sz s
    end
  else Ok (set_pending_queue q s, evts).

(** The scan of a poll set: [kept] are the entries already passed. *)
Fixpoint poll_scan (l kept : list Z) (evts : list wpoll_event) (sz : Z) (handle : Z) (s : wcp)
    : res (wcp * list wpoll_event) :=
  match l with
  | [] => Ok (set_wpoll_map (<[handle := kept]> (m_wpoll_map s)) s, evts)
  | k :: rest =>
      e ← get_watch k s;
      w ← get (w_wcb e) s;
      if bool_decide (state w = WCB_RECYCLE) then poll_scan rest kept evts sz handle s
      else
        '(v, m) ← poll_one e w;
        let s1 := put_watch k (set_evts m e) s in
        let ev := mk_event (w_fd e) v (w_cookie e) in
        if negb (v =? 0) then
          if Z.of_nat (length evts) <? sz then
            poll_scan rest (kept ++ [k]) (evts ++ [ev]) sz handle s1
          else
            _ ← wawo_assert (Z.of_nat (length evts) =? sz);
            poll_scan rest (kept ++ [k]) evts sz handle
              (set_pending_queue (m_event_pending_queue s1 ++ [(ev, k)]) s1)
        else poll_scan rest (kept ++ [k]) evts sz handle s1
  end.

(** The events stored in [evts] and the result, their count. *)
Definition wpoll_wait (handle sz : Z) (s : wcp) : res (wcp * list wpoll_event * Z) :=
  if negb (bool_decide (m_state s = S_RUN)) then
    '(s', r) ← ret_errno E_INVALID_STATE s; Ok (s', [], r)
  else
    match m_wpoll_map s !! handle with
    | None => '(s', r) ← ret_errno E_WCP_WPOLL_HANDLE_NOT_EXISTS s; Ok (s', [], r)
    | Some l =>
        '(s1, evts) ← take_pending (m_event_pending_queue s) [] sz s;
        if 0 <? Z.of_nat (length evts) then Ok (s1, evts, Z.of_nat (length evts))
        else
          _ ← wawo_assert (Z.of_nat (length (m_event_pending_queue s1)) =? 0);
          '(s2, evts2) ← poll_scan l [] [] sz handle s1;
          Ok (s2, evts2, Z.of_nat (length evts2))
    end.
End wcp.
