(* ===== verification/WcpProofs.v ===== *)
(** * WcpProofs: what the socket interface of WCP guarantees

    The data calls as operations on byte queues, the poll sets, and the flaws
    of the descriptor table, of [listen], of the poll sets and of [recv]
    after a reset. *)

From S2P Require Import Prelude Bytes Ring Address WcpData WcpCodec WcpSend.
From S2P Require Import WcpSendProofs WcpRecv WcpRecvProofs WcpState WcpStateProofs Wcp.

Section api.
Context `{memory} `{wcp_env} `{wcp_sockets}.

Lemma get_put id w s : get id (put id w s) = Ok w.
Proof. unfold get, put. simpl. by rewrite lookup_insert_eq. Qed.

(** ** Data *)

(** [send] on a block in use answers the block's error when writing is over;
    otherwise it appends to the send buffer the longest
    prefix of the data that fits and answers its length, except that a buffer
    with too little room refuses the whole data with [EWOULDBLOCK]. *)
Theorem wcp_send_spec fd buffer len id w s :
  find_used fd s = Some id -> get id s = Ok w -> bytes_ringbuffer.wf (sb w) ->
  0 < len -> is_u32 len -> len <= zlen buffer ->
  let n := Z.min len (bytes_ringbuffer.left_capacity (sb w)) in
  if flag_on (s_flag w) (Z.lor WRITE_SEND_ERROR WRITE_LOCAL_WRITE_SHUTDOWNED) then
    exists ec, send fd buffer len s = Ok (set_last_errno ec s, ec) /\ ec <> 0
  else if (n <? len) && (n <? 2 * WCP_MDU) then
    send fd buffer len s = Ok (set_last_errno EWOULDBLOCK s, - EWOULDBLOCK)
  else exists q, send fd buffer len s = Ok (put id (set_sb q w) s, n) /\ bytes_ringbuffer.wf q
    /\ bytes_ringbuffer.contents q = bytes_ringbuffer.contents (sb w) ++ take (Z.to_nat n) buffer.
Proof.
  intros Hf Hg HW Hp0 Hu Hl n. unfold send. rewrite Hf, Hg. res_simpl.
  destruct (flag_on (s_flag w) _).
  { eexists. split; [reflexivity|]. destruct (Z.eqb_spec (wcb_errno w) 0); cbn [negb]; [discriminate|assumption]. }
  set (left := bytes_ringbuffer.left_capacity (sb w)) in *.
  assert (Hn : (left <? len) && (left <? 2 * WCP_MDU) = (n <? len) && (n <? 2 * WCP_MDU)).
  { unfold n. destruct (Z.ltb_spec left len).
    - rewrite Z.min_r by lia. by rewrite (proj2 (Z.ltb_lt left len)).
    - rewrite Z.min_l by lia. by rewrite Z.ltb_irrefl. }
  cbv zeta. rewrite Hn. destruct ((n <? len) && (n <? 2 * WCP_MDU)); [reflexivity|].
  destruct (bytes_ringbuffer.write_spec (sb w) buffer len HW Hp0 Hu Hl) as (q & E & Wq & _ & Cq).
  rewrite <- bytes_ringbuffer.left_capacity_val in E, Cq by done. fold left n in E, Cq.
  rewrite E. res_simpl. exists q. auto.
Qed.

(** [recv] on a readable block takes the oldest bytes, at most [size], out
    of the receive ring; on an empty ring it answers, in this order: the end
    of the stream once (0) and then [E_ECONNRESET] after the peer's FIN, the
    error of the socket, [EWOULDBLOCK], or it waits. *)
Theorem wcp_recv_spec fd size id w s :
  find_used fd s = Some id -> get id s = Ok w -> bytes_ringbuffer.wf (rb w) ->
  0 < size -> is_u32 size -> flag_on (r_flag w) READ_LOCAL_READ_SHUTDOWNED = false ->
  let l := bytes_ringbuffer.contents (rb w) in
  match l with
  | _ :: _ => exists q, bytes_ringbuffer.contents q = drop (Z.to_nat size) l /\ bytes_ringbuffer.wf q
      /\ recv fd size s = Ok (put id (set_rb q w) s,
                              Some (Z.min size (zlen l), take (Z.to_nat size) l))
  | [] =>
      (flag_on (r_flag w) READ_REMOTE_FIN_RECEIVED = true ->
         flag_on (r_flag w) READ_REMOTE_FIN_READ_BY_USER = false ->
         exists w', recv fd size s = Ok (set_last_errno OK (put id w' s), Some (0, []))
           /\ flag_on (r_flag w') READ_REMOTE_FIN_READ_BY_USER = true)
      /\ (flag_on (r_flag w) READ_REMOTE_FIN_RECEIVED = true ->
         flag_on (r_flag w) READ_REMOTE_FIN_READ_BY_USER = true ->
         recv fd size s = Ok (set_last_errno E_ECONNRESET s, Some (E_ECONNRESET, [])))
      /\ (flag_on (r_flag w) READ_REMOTE_FIN_RECEIVED = false ->
         flag_on (r_flag w) READ_RECV_ERROR = true -> wcb_errno w <> 0 ->
         exists ec, recv fd size s = Ok (set_last_errno (wcb_errno w) s, Some (ec, [])) /\ ec < 0)
      /\ (flag_on (r_flag w) READ_REMOTE_FIN_RECEIVED = false ->
         flag_on (r_flag w) READ_RECV_ERROR = false -> wcb_errno w = 0 ->
         if nonblocking w then recv fd size s = Ok (set_last_errno EWOULDBLOCK s, Some (- EWOULDBLOCK, []))
         else recv fd size s = Ok (s, None))
  end.
Proof.
  intros Hf Hg HW Hp0 Hu Hs l. unfold recv. rewrite Hf, Hg. res_simpl. rewrite Hs.
  pose proof (bytes_ringbuffer.zlen_contents _ HW) as HZ.
  destruct (bytes_ringbuffer.contents (rb w)) as [|b r] eqn:El; subst l.
  - rewrite <- HZ. change (zlen (@nil Z)) with 0. change (0 <? 0) with false. change (0 =? 0) with true.
    res_simpl. split; [|split; [|split]].
    + intros -> ->. eexists. split; [reflexivity|]. simpl. by rewrite flag_on_set, orb_true_r.
    + by intros -> ->.
    + intros -> -> He. rewrite (proj2 (Z.eqb_neq _ 0)) by done. res_simpl.
      eexists. split; [reflexivity|]. unfold WAWO_NEGATIVE.
      destruct (Z.ltb_spec (wcb_errno w) 0); lia.
    + intros -> -> ->. change (0 =? 0) with true. res_simpl. by destruct (nonblocking w).
  - rewrite <- HZ. assert (Hz : 0 < zlen (b :: r)) by (unfold zlen; simpl length; lia).
    rewrite (proj2 (Z.ltb_lt 0 _)) by done.
    destruct (bytes_ringbuffer.read_spec (rb w) size true HW Hu) as (q & E & Wq & _ & Cq).
    rewrite El in E, Cq. rewrite E. res_simpl. rewrite (proj2 (Z.ltb_lt 0 _)) by lia. res_simpl.
    exists q. auto.
Qed.

(** After the peer resets a connection (an RST in sequence on an established
    block with nothing left to read), the next [recv] of the user fails an
    assertion instead of reporting [E_ECONNRESET]: the reset stores the error
    without setting [READ_RECV_ERROR]. *)
Theorem wcp_recv_after_reset_asserts fd size id s p now w :
  find_used fd s = Some id ->
  WCPPACK_TEST_FLAG (rheader p) WCP_FLAG_RST = true -> dlen (rheader p) = 0 ->
  bytes_ringbuffer.count (rb w) = 0 -> r_flag w = 0 ->
  exists w', deliver_one p now w = Ok (w', Break_kept)
    /\ state w' = WCB_CLOSED /\ wcb_errno w' = E_ECONNRESET
    /\ recv fd size (put id w' s) = Fault AssertFailed.
Proof.
  intros Hf Hr Hd Hc Hfl. unfold deliver_one, deliver_data, deliver_ctl. rewrite Hd.
  change (0 <? 0) with false. cbv zeta. res_simpl. rewrite Hr. eexists. split; [reflexivity|].
  split; [done|]. split; [done|]. unfold recv. change (find_used fd (put id _ s)) with (find_used fd s).
  rewrite Hf, get_put. res_simpl. simpl. by rewrite Hc, Hfl.
Qed.

(** ** Descriptors *)

(** A new block: closed, without a peer, and ready for [connect]. *)
Lemma init_ok w : exists w', init w = Ok w' /\ state w' = WCB_CLOSED /\ remote_addr w' = remote_addr w
  /\ wcb_errno w' = 0 /\ wcb_option w' = 0.
Proof.
  destruct (ring_make_ok WCP_RCV_WND_DEFAULT) as (r1 & E1 & _); [split; discriminate|].
  destruct (ring_make_ok WCP_SND_WND_DEFAULT) as (r2 & E2 & _); [split; discriminate|].
  unfold init. rewrite E1. res_simpl. rewrite E2. res_simpl. eexists. split; [reflexivity|]. done.
Qed.

Lemma connect_ok addr w :
  state w = WCB_CLOSED -> remote_addr w = 0 -> exists w' r, connect addr w = Ok (w', r).
Proof.
  intros Hs Hr. unfold connect, SYN. rewrite Hr. change (0 =? 0) with true. res_simpl.
  simpl. rewrite bool_decide_true by done. res_simpl. eauto.
Qed.

(** Descriptors come back every 2048 sockets, and [socket] only looks for the
    new one among the blocks not connected yet: when the descriptor is still
    in use by a connected block [old], it is handed out again, and after
    [connect] it designates the old connection while the new one has no
    descriptor any more. *)
Theorem wcp_descriptor_reuse s old addr e fd :
  0 <= s_wcb_auto_increament_id s < 2147483648 - 2048 -> fd = (make_wcb_fd s).2 ->
  open_udp = (OK, e) -> turnon_nonblocking (obj_next s) = OK ->
  m_wcb_map s !! fd = Some old -> m_wcb_create_pending_map s !! fd = None ->
  (make_wcb_fd (set_auto_id (s_wcb_auto_increament_id s + 2048) s)).2 = fd
  /\ exists s1 s2 r, socket 2 2 17 s = Ok (s1, fd) /\ api_connect fd addr s1 = Ok (s2, r)
    /\ m_wcb_create_pending_map s1 !! fd = Some (obj_next s)
    /\ m_wcb_create_pending_map s2 !! fd = None /\ find_any fd s2 = Some old.
Proof.
  intros Hr Ef Ho Hn Hm Hp. split.
  { rewrite Ef. unfold make_wcb_fd. simpl. f_equal. f_equal. unfold WCP_FD_MAX.
    rewrite !Z.rem_mod_nonneg by lia.
    replace (s_wcb_auto_increament_id s + 2048) with (s_wcb_auto_increament_id s + 1 * 2048) by lia.
    apply Z_mod_plus_full. }
  destruct (init_ok new_WCB) as (w & Ei & Hs & Ha & _). change (remote_addr new_WCB) with 0 in Ha.
  set (s0 := (make_wcb_fd s).1). set (s1 := (alloc (set_fd fd w) s0).1).
  set (s2 := set_pending_map (map_insert fd (obj_next s) (m_wcb_create_pending_map s)) s1).
  assert (Es : socket 2 2 17 s = Ok (s2, fd)).
  { unfold socket. change (2 =? 2) with true. change (17 =? 17) with true. res_simpl.
    rewrite Ho. change (negb (OK =? OK)) with false. cbv iota. rewrite Ei. res_simpl.
    unfold s2, s1, s0. rewrite (surjective_pairing (make_wcb_fd s)), <- Ef.
    change (m_wcb_create_pending_map (make_wcb_fd s).1) with (m_wcb_create_pending_map s).
    rewrite Hp. reflexivity. }
  assert (Ep : m_wcb_create_pending_map s2 !! fd = Some (obj_next s)).
  { unfold s2, map_insert. rewrite Hp. apply lookup_insert_eq. }
  destruct (connect_ok addr (set_fd fd w) Hs Ha) as (w' & r & Ec).
  assert (Eg : forall m1 m2 l, get (obj_next s) (set_reading l (set_m_wcb_map m1 (set_pending_map m2 s2)))
    = Ok (set_fd fd w)).
  { intros. unfold get, s2, s1. simpl. by rewrite lookup_insert_eq. }
  exists s2. unfold api_connect. rewrite Ep, Hn. change (negb (OK =? OK)) with false. cbv iota zeta.
  unfold begin_async_read. rewrite Eg. res_simpl. rewrite Ec. res_simpl.
  eexists _, r. split; [exact Es|]. split; [reflexivity|]. split; [done|].
  assert (Em : m_wcb_map s2 !! fd = Some old) by exact Hm.
  clearbody s2. unfold find_any, map_insert. destruct r; simpl;
    (split; [apply lookup_delete_eq|]); rewrite !Em; simpl; by rewrite ?Em.
Qed.

(** When the UDP socket cannot listen, [listen] still answers [OK], and the
    block is not listening. *)
Theorem wcp_listen_hides_failure fd backlog id s :
  m_wcb_create_pending_map s !! fd = Some id -> turnon_nonblocking id = OK ->
  listen_udp id backlog <> OK -> api_listen fd backlog s = Ok (s, OK).
Proof.
  intros Hp Hn Hl. unfold api_listen. rewrite Hp, Hn. change (negb (OK =? OK)) with false. cbv iota zeta.
  by rewrite (proj2 (Z.eqb_neq _ _)) by done.
Qed.

(** ** Poll sets *)
Definition watched (handle fd : Z) (s : wcp) : option Z :=
  match m_wpoll_map s !! handle with
  | Some evts => match find_watch fd evts s with Ok (Some (_, e)) => Some (w_evts e) | _ => None end
  | None => None
  end.

Lemma filter_others (k : Z) (l : list Z) : (forall j, j ∈ l -> j <> k) -> filter (fun j => j <> k) l = l.
Proof.
  induction l as [|j l IH]; intros HF; [done|].
  rewrite filter_cons_True by set_solver. f_equal. apply IH. set_solver.
Qed.

Lemma find_watch_frame fd l s s' :
  (forall k, k ∈ l -> watches s' !! k = watches s !! k) -> find_watch fd l s' = find_watch fd l s.
Proof.
  induction l as [|k l IH]; intros HF; simpl; [done|].
  unfold get_watch. rewrite HF by set_solver.
  destruct (watches s !! k); simpl; [|done]. destruct (_ =? _); [done|]. apply IH. set_solver.
Qed.

Lemma find_watch_snoc fd l k s :
  find_watch fd l s = Ok None ->
  find_watch fd (l ++ [k]) s =
    (e ← get_watch k s; if fd =? w_fd e then Ok (Some (k, e)) else Ok None).
Proof.
  induction l as [|j l IH]; simpl; intros E.
  - destruct (get_watch k s); simpl; [|done]. by destruct (_ =? _).
  - destruct (get_watch j s) as [e|]; simpl in *; [|discriminate].
    destruct (_ =? _); [discriminate|]. by apply IH.
Qed.

(** Adding a descriptor that is not watched to a poll set watches it for the
    given events; removing the same events then restores the poll set. *)
Theorem wcp_poll_add_del handle evts evt id s :
  m_state s = S_RUN -> 0 < handle -> 0 < e_fd evt -> e_cookie evt <> 0 ->
  m_wpoll_map s !! handle = Some evts -> Forall (fun k => k < watch_next s) evts ->
  m_wcb_map s !! e_fd evt = Some id -> find_watch (e_fd evt) evts s = Ok None ->
  exists s1 s2, wpoll_ctl handle WPOLL_CTL_ADD evt s = Ok (s1, OK)
    /\ watched handle (e_fd evt) s1 = Some (e_evts evt)
    /\ wpoll_ctl handle WPOLL_CTL_DEL evt s1 = Ok (s2, OK)
    /\ m_wpoll_map s2 = m_wpoll_map s /\ watched handle (e_fd evt) s2 = None.
Proof.
  intros Hr Hh Hfd Hc Hm HF Hw Hn.
  set (k := watch_next s). set (e := mk_watch (e_fd evt) (e_evts evt) (e_cookie evt) id).
  set (s1 := set_wpoll_map (<[handle := evts ++ [k]]> (m_wpoll_map s)) (alloc_watch e s).1).
  assert (Hk : forall j, j ∈ evts -> j <> k).
  { intros j Hj. rewrite Forall_forall in HF. specialize (HF j Hj). unfold k. lia. }
  assert (Hfind : find_watch (e_fd evt) evts s1 = Ok None).
  { rewrite <- Hn. apply find_watch_frame. intros j Hj. unfold s1. simpl.
    apply lookup_insert_ne. intros <-. by apply (Hk (watch_next s)). }
  assert (Hms : m_wpoll_map s1 !! handle = Some (evts ++ [k])) by apply lookup_insert_eq.
  assert (Hget : get_watch k s1 = Ok e).
  { unfold get_watch, s1. simpl. by rewrite lookup_insert_eq. }
  assert (Hsnoc : find_watch (e_fd evt) (evts ++ [k]) s1 = Ok (Some (k, e))).
  { rewrite find_watch_snoc by done. rewrite Hget. simpl. by rewrite Z.eqb_refl. }
  set (s2 := if flag_clear (e_evts evt) (e_evts evt) =? 0
             then set_wpoll_map (<[handle := filter (fun j => j <> k) (evts ++ [k])]> (m_wpoll_map s1))
                    (put_watch k (set_evts (flag_clear (e_evts evt) (e_evts evt)) e) s1)
             else put_watch k (set_evts (flag_clear (e_evts evt) (e_evts evt)) e) s1).
  exists s1, s2. split; [|split; [|split]].
  - unfold wpoll_ctl. rewrite !(proj2 (Z.ltb_lt 0 _)) by done. res_simpl.
    rewrite bool_decide_true, Hm, Hw by done. cbn [negb]. rewrite (proj2 (Z.eqb_neq _ 0)) by done.
    res_simpl. rewrite Hn. reflexivity.
  - unfold watched. by rewrite Hms, Hsnoc.
  - unfold wpoll_ctl. rewrite !(proj2 (Z.ltb_lt 0 _)) by done. res_simpl.
    rewrite bool_decide_true, Hms by done. cbn [negb].
    change (m_wcb_map s1) with (m_wcb_map s). by rewrite Hw, Hsnoc.
  - assert (Hz0 : flag_clear (e_evts evt) (e_evts evt) = 0) by (unfold flag_clear; apply Z.ldiff_diag).
    assert (Hfil : filter (fun j => j <> k) (evts ++ [k]) = evts).
    { rewrite filter_app, filter_cons_False, filter_nil, app_nil_r by (intros Hx; by apply Hx).
      by apply filter_others. }
    assert (Hmap : m_wpoll_map s2 = m_wpoll_map s).
    { unfold s2. rewrite Hz0. change (0 =? 0) with true. cbv iota. rewrite Hfil. simpl.
      rewrite insert_insert_eq. by apply insert_id. }
    split; [exact Hmap|]. unfold watched. rewrite Hmap, Hm.
    erewrite find_watch_frame; [by rewrite Hfind|]. intros j Hj. unfold s2.
    destruct (_ =? 0); simpl; by rewrite lookup_insert_ne by (intros <-; by apply (Hk k)).
Qed.

(** The events left over when a poll answer is too small are kept in one
    queue for all the poll sets: the next [wpoll_wait] on any other set, even
    an empty one, gets them. *)
Theorem wcp_poll_sets_share_events handle l ev k e rest s :
  m_state s = S_RUN -> m_wpoll_map s !! handle = Some l ->
  m_event_pending_queue s = (ev, k) :: rest -> watches s !! k = Some e -> w_evts e <> 0 ->
  wpoll_wait handle 1 s = Ok (set_pending_queue rest s, [ev], 1).
Proof.
  intros Hr Hm Hq Hk He. unfold wpoll_wait. rewrite bool_decide_true, Hm, Hq by done. cbn [negb].
  cbn [take_pending length]. change (Z.of_nat 0 <? 1) with true. cbv iota. unfold get_watch. rewrite Hk.
  res_simpl. rewrite (proj2 (Z.eqb_neq _ 0)) by done. cbn [negb app].
  destruct rest as [|[ev' k'] rest]; reflexivity.
Qed.

(** Once the user shut down the read side of a healthy block that is polled
    for reading, polling it fails an assertion: the code expects an error to
    be set whenever reading is over. *)
Theorem wcp_poll_after_shutdown_asserts e w :
  flag_on (w_evts e) WPOLLIN = true -> wcb_errno w = OK ->
  flag_on (r_flag w) READ_LOCAL_READ_SHUTDOWNED = false ->
  exists w', shutdown WCB_SHUT_RD w = Ok (w', OK, None) /\ poll_one e w' = Fault AssertFailed.
Proof.
  intros He Hw Hf. unfold shutdown. change (WCB_SHUT_RD =? WCB_SHUT_RD) with true.
  change (WCB_SHUT_RD =? WCB_SHUT_WR) with false. change (WCB_SHUT_RD =? WCB_SHUT_RDWR) with false.
  cbn [orb andb]. res_simpl. rewrite Hf. cbn [negb]. eexists. split; [reflexivity|].
  unfold poll_one. rewrite He. cbv zeta. simpl. rewrite flag_on_set.
  change (flag_on READ_LOCAL_READ_SHUTDOWNED (Z.lor READ_RECV_ERROR READ_LOCAL_READ_SHUTDOWNED)) with true.
  rewrite orb_true_r, Hw. reflexivity.
Qed.
End api.

(** ** Witnesses *)
#[local] Existing Instance sample_env.

(** Every call on the UDP sockets succeeds, [listen] excepted. *)
#[local] Instance sample_sockets : wcp_sockets := {|
  open_udp := (OK, 0); turnon_nonblocking _ := OK; bind_udp _ _ := (OK, 0); listen_udp _ _ := -95;
  accept_udp _ _ := OK; accepted_local_addr _ := 11; so_local_addr _ := 11;
  so_is_nonblocking _ := true; so_getsockopt _ _ := (OK, 1); so_setsockopt _ _ := OK;
  uninit := sample_wcb |}.

(** One connection, object 1 under descriptor 7, and one empty poll set. *)
Definition sample_wcp (w : WCB) : wcp :=
  mk_wcp {[1 := w]} 2 S_RUN {[7 := 1]} ∅ ∅ [] 5 {[1 := []]} ∅ 1 [] 2 0 [1] [].

Lemma wcp_send_spec_witness :
  let w := sample_wcb in let s := sample_wcp w in
  let n := Z.min 3 (bytes_ringbuffer.left_capacity (sb w)) in
  if flag_on (s_flag w) (Z.lor WRITE_SEND_ERROR WRITE_LOCAL_WRITE_SHUTDOWNED) then
    exists ec, send 7 [4; 5; 6] 3 s = Ok (set_last_errno ec s, ec) /\ ec <> 0
  else if (n <? 3) && (n <? 2 * WCP_MDU) then
    send 7 [4; 5; 6] 3 s = Ok (set_last_errno EWOULDBLOCK s, - EWOULDBLOCK)
  else exists q, send 7 [4; 5; 6] 3 s = Ok (put 1 (set_sb q w) s, n) /\ bytes_ringbuffer.wf q
    /\ bytes_ringbuffer.contents q = bytes_ringbuffer.contents (sb w) ++ take (Z.to_nat n) [4; 5; 6].
Proof.
  apply (wcp_send_spec 7 [4; 5; 6] 3 1 sample_wcb (sample_wcp sample_wcb));
    try reflexivity; try discriminate; try (split; discriminate || reflexivity).
  constructor; vm_compute; intuition discriminate.
Defined.

Definition readable_wcb : WCB := set_rb (sample_ring_with [10; 20; 30]) sample_wcb.

Lemma wcp_recv_spec_witness :
  exists q, bytes_ringbuffer.contents q = [30] /\ bytes_ringbuffer.wf q
      /\ recv 7 2 (sample_wcp readable_wcb) = Ok (put 1 (set_rb q readable_wcb) (sample_wcp readable_wcb),
                              Some (2, [10; 20])).
Proof.
  apply (wcp_recv_spec 7 2 1 readable_wcb (sample_wcp readable_wcb));
    try reflexivity; try (split; discriminate || reflexivity).
  constructor; vm_compute; intuition discriminate.
Defined.

Lemma wcp_recv_after_reset_asserts_witness :
  exists w', deliver_one (mk_received (mk_header 0 0 0 WCP_FLAG_RST 0) None 22) 9000 sample_wcb
      = Ok (w', Break_kept)
    /\ state w' = WCB_CLOSED /\ wcb_errno w' = E_ECONNRESET
    /\ recv 7 100 (put 1 w' (sample_wcp sample_wcb)) = Fault AssertFailed.
Proof.
  apply (wcp_recv_after_reset_asserts 7 100 1 (sample_wcp sample_wcb)); reflexivity.
Defined.

(** The counter is back at the value that gave the descriptor in use. *)
Definition wrapped_wcp : wcp :=
  set_m_wcb_map {[16777220 := 1]} (sample_wcp sample_wcb).

Lemma wcp_descriptor_reuse_witness :
  (make_wcb_fd (set_auto_id (5 + 2048) wrapped_wcp)).2 = 16777220
  /\ exists s1 s2 r, socket 2 2 17 wrapped_wcp = Ok (s1, 16777220)
    /\ api_connect 16777220 33 s1 = Ok (s2, r)
    /\ m_wcb_create_pending_map s1 !! 16777220 = Some 2
    /\ m_wcb_create_pending_map s2 !! 16777220 = None /\ find_any 16777220 s2 = Some 1.
Proof.
  apply (wcp_descriptor_reuse wrapped_wcp 1 33 0 16777220); try reflexivity.
  split; [discriminate | reflexivity].
Defined.

Lemma wcp_listen_hides_failure_witness :
  let s := set_pending_map {[9 := 1]} (sample_wcp sample_wcb) in api_listen 9 10 s = Ok (s, OK).
Proof.
  apply (wcp_listen_hides_failure 9 10 1); [reflexivity | reflexivity | discriminate].
Defined.

Lemma wcp_poll_add_del_witness :
  let s := sample_wcp sample_wcb in let evt := mk_event 7 WPOLLIN 77 in
  exists s1 s2, wpoll_ctl 1 WPOLL_CTL_ADD evt s = Ok (s1, OK)
    /\ watched 1 (e_fd evt) s1 = Some (e_evts evt)
    /\ wpoll_ctl 1 WPOLL_CTL_DEL evt s1 = Ok (s2, OK)
    /\ m_wpoll_map s2 = m_wpoll_map s /\ watched 1 (e_fd evt) s2 = None.
Proof.
  apply (wcp_poll_add_del 1 [] (mk_event 7 WPOLLIN 77) 1 (sample_wcp sample_wcb));
    try reflexivity; try discriminate. constructor.
Defined.

Lemma wcp_poll_sets_share_events_witness :
  let ev := mk_event 7 WPOLLIN 77 in
  let s := set_pending_queue [(ev, 4)] (set_watches {[4 := mk_watch 7 WPOLLIN 77 1]} (sample_wcp sample_wcb)) in
  wpoll_wait 1 1 s = Ok (set_pending_queue [] s, [ev], 1).
Proof.
  apply (wcp_poll_sets_share_events 1 [] (mk_event 7 WPOLLIN 77) 4 (mk_watch 7 WPOLLIN 77 1) []);
    reflexivity || discriminate.
Defined.

Lemma wcp_poll_after_shutdown_asserts_witness :
  exists w', shutdown WCB_SHUT_RD sample_wcb = Ok (w', OK, None)
    /\ poll_one (mk_watch 7 WPOLLIN 77 1) w' = Fault AssertFailed.
Proof. apply (wcp_poll_after_shutdown_asserts (mk_watch 7 WPOLLIN 77 1) sample_wcb); reflexivity. Defined.
