(* ===== verification/Formula.v ===== *)
(** * Formula: modular arithmetic and the Diffie-Hellman exchange

    [include/wawo/math/formula.hpp] (products and powers modulo a 64-bit number,
    without a wider type) and [include/wawo/security/dh.hpp]. *)

From S2P Require Import Prelude.

(** ** Definitions

    The loops halve a 64-bit counter: 64 rounds are enough. *)
Fixpoint mulmod_loop (fuel : nat) (rt a b q : Z) : res Z :=
  if b =? 0 then Ok rt
  else
    match fuel with
    | O => Fault Diverged
    | S fuel' =>
        let q_a := u64 (q - a) in
        let rt' := if Z.testbit b 0
                   then (if q_a <=? rt then u64 (rt - q_a) else u64 (rt + a)) else rt in
        let a' := if q_a <=? a then u64 (a - q_a) else u64 (a + a) in
        mulmod_loop fuel' rt' a' (Z.shiftr b 1) q
    end.

Definition Q_mulmod (a b q : Z) : res Z := mulmod_loop 64 0 a b q.

Fixpoint powmod_loop (fuel : nat) (rt a b q : Z) : res Z :=
  if b =? 0 then Ok rt
  else
    match fuel with
    | O => Fault Diverged
    | S fuel' =>
        rt' ← (if Z.testbit b 0 then Q_mulmod rt a q else Ok rt);
        a' ← Q_mulmod a a q;
        powmod_loop fuel' rt' a' (Z.shiftr b 1) q
    end.

Definition Q_powmod (a b q : Z) : res Z :=
  let a' := if q <? a then u64 (a - q) else a in
  let b' := if q <? b then u64 (b - q) else b in
  powmod_loop 64 1 a' b' q.

Definition DH_q : Z := 0xffffffffffffffc5.
Definition DH_g : Z := 5.

Record DH_Factor : Type := mk_factor { priv_key : Z; pub_key : Z }.

(** [dh_generate_factor] from the number [random_u64] returned. *)
Definition dh_generate_factor (random : Z) : res DH_Factor :=
  p ← Q_powmod DH_g random DH_q; Ok (mk_factor random p).
Definition dh_generate_key (factor2_pub factor1_priv : Z) : res Z :=
  Q_powmod factor2_pub factor1_priv DH_q.

(** ** Products *)

(** The low bit and the rest of a number. *)
Lemma low_bit b : b = 2 * Z.shiftr b 1 + (if Z.testbit b 0 then 1 else 0).
Proof.
  rewrite Z.shiftr_div_pow2, Z.bit0_odd by lia. change (2 ^ 1) with 2.
  rewrite (Z.div_mod b 2) at 1 by lia. rewrite Zmod_odd. by destruct (Z.odd b).
Qed.

Lemma shiftr_bound b n : 0 <= b < 2 ^ Z.of_nat (S n) -> 0 <= Z.shiftr b 1 < 2 ^ Z.of_nat n.
Proof.
  intros Hb. rewrite Z.shiftr_div_pow2 by lia. change (2 ^ 1) with 2.
  rewrite Nat2Z.inj_succ, Z.pow_succ_r in Hb by lia.
  split; [apply Z.div_pos | apply Z.div_lt_upper_bound]; lia.
Qed.

(** One modular addition as the code does it. *)
Lemma addmod q x a : 0 < q < 18446744073709551616 -> 0 <= x < q -> 0 <= a < q ->
  (if u64 (q - a) <=? x then u64 (x - u64 (q - a)) else u64 (x + a)) = (x + a) mod q.
Proof.
  intros Hq Hx Ha. rewrite (u64_small (q - a)) by range_lia.
  destruct (Z.leb_spec (q - a) x); rewrite u64_small by range_lia.
  - rewrite mod_once by lia. lia.
  - by rewrite Z.mod_small by lia.
Qed.

Lemma mulmod_loop_spec q n : 0 < q < 18446744073709551616 ->
  forall rt a b, 0 <= rt < q -> 0 <= a < q -> 0 <= b < 2 ^ Z.of_nat n ->
  mulmod_loop n rt a b q = Ok ((rt + a * b) mod q).
Proof.
  intros Hq. induction n as [|n IH]; intros rt a b Hrt Ha Hb; cbn [mulmod_loop].
  - replace b with 0 by (simpl in Hb; lia). rewrite Z.mul_0_r, Z.add_0_r, Z.mod_small by lia. done.
  - destruct (Z.eqb_spec b 0) as [->|Hb0].
    { rewrite Z.mul_0_r, Z.add_0_r, Z.mod_small by lia. done. }
    cbv zeta. rewrite addmod by lia. rewrite addmod by lia.
    assert (Hm : forall x, 0 <= x mod q < q) by (intros; apply Z.mod_pos_bound; lia).
    rewrite IH; [|by destruct (Z.testbit b 0)|done|by apply shiftr_bound].
    f_equal. rewrite (low_bit b) at 3. destruct (Z.testbit b 0).
    + rewrite Z.add_mod_idemp_l, <- Z.add_mod_idemp_r, Z.mul_mod_idemp_l, Z.add_mod_idemp_r by lia.
      f_equal. lia.
    + rewrite <- Z.add_mod_idemp_r, Z.mul_mod_idemp_l, Z.add_mod_idemp_r by lia. f_equal. lia.
Qed.

(** A factor equal to the modulus acts as 0. *)
Lemma mulmod_loop_q q n : 0 < q < 18446744073709551616 ->
  forall rt b, 0 <= rt < q -> 0 <= b < 2 ^ Z.of_nat n -> mulmod_loop n rt q b q = Ok rt.
Proof.
  intros Hq. induction n as [|n IH]; intros rt b Hrt Hb; cbn [mulmod_loop].
  - replace b with 0 by (simpl in Hb; lia). done.
  - destruct (b =? 0); [done|]. cbv zeta. rewrite Z.sub_diag. change (u64 0) with 0.
    rewrite !(proj2 (Z.leb_le 0 _)), !Z.sub_0_r, !u64_small by range_lia.
    destruct (Z.testbit b 0); by apply IH, shiftr_bound.
Qed.

Lemma mulmod_val a b q :
  0 < q < 18446744073709551616 -> 0 <= a <= q -> is_u64 b -> Q_mulmod a b q = Ok (a * b mod q).
Proof.
  intros Hq Ha Hb. unfold Q_mulmod. destruct (Z.eq_dec a q) as [->|Hne].
  - rewrite mulmod_loop_q by (try done; lia). by rewrite Z.mul_comm, Z_mod_mult.
  - rewrite mulmod_loop_spec by (try done; lia). by rewrite Z.add_0_l.
Qed.

(** ** Powers *)
Lemma powmod_loop_spec q n : 1 < q < 18446744073709551616 ->
  forall rt a b, 0 <= rt < q -> 0 <= a <= q -> 0 <= b < 2 ^ Z.of_nat n ->
  powmod_loop n rt a b q = Ok (rt * a ^ b mod q).
Proof.
  intros Hq. induction n as [|n IH]; intros rt a b Hrt Ha Hb; cbn [powmod_loop].
  - replace b with 0 by (simpl in Hb; lia). rewrite Z.pow_0_r, Z.mul_1_r, Z.mod_small by lia. done.
  - destruct (Z.eqb_spec b 0) as [->|Hb0].
    { rewrite Z.pow_0_r, Z.mul_1_r, Z.mod_small by lia. done. }
    pose proof (shiftr_bound b n Hb) as Hs.
    assert (Hm : forall x, 0 <= x mod q < q) by (intros; apply Z.mod_pos_bound; lia).
    rewrite (mulmod_val a a) by range_lia.
    assert (E : (if Z.testbit b 0 then Q_mulmod rt a q else Ok rt)
                = Ok ((if Z.testbit b 0 then rt * a else rt) mod q)).
    { destruct (Z.testbit b 0); [apply mulmod_val; range_lia | by rewrite Z.mod_small by lia]. }
    rewrite E. res_simpl. rewrite IH; [|done|pose proof (Hm (a * a)); lia|done].
    f_equal. rewrite (low_bit b) at 3. rewrite Z.pow_add_r, Z.pow_mul_r, Z.pow_2_r by
      (destruct (Z.testbit b 0); lia).
    assert (Hp : (a * a mod q) ^ Z.shiftr b 1 mod q = (a * a) ^ Z.shiftr b 1 mod q)
      by apply Z.mod_pow_l.
    rewrite Z.mul_mod_idemp_l by lia. rewrite <- Z.mul_mod_idemp_r, Hp, Z.mul_mod_idemp_r by lia.
    destruct (Z.testbit b 0); [rewrite Z.pow_1_r | rewrite Z.pow_0_r]; f_equal; lia.
Qed.

(** What the code takes the exponent for. *)
Definition powmod_exponent (b q : Z) : Z := if q <? b then b - q else b.

(** [Q_mulmod] is the product modulo q for every modulus and every pair of 64-bit numbers
    (a at most q), although no intermediate value is wider than 64 bits, and it returns after
    at most 64 rounds. *)
Theorem Q_mulmod_spec a b q :
  is_u64 q -> 0 < q -> 0 <= a <= q -> is_u64 b -> Q_mulmod a b q = Ok (a * b mod q).
Proof. intros Hq Hq0 Ha Hb. apply mulmod_val; range_lia. Qed.

Lemma Q_mulmod_spec_witness :
  Q_mulmod 0xffffffffffffff00 0xffffffffffffffff DH_q
  = Ok (0xffffffffffffff00 * 0xffffffffffffffff mod DH_q).
Proof. apply Q_mulmod_spec; unfold DH_q; range_lia. Defined.

Lemma powmod_val a b q : is_u64 q -> 1 < q -> 0 <= a <= 2 * q -> is_u64 a -> is_u64 b ->
  Q_powmod a b q = Ok (a ^ powmod_exponent b q mod q).
Proof.
  intros Hq Hq1 Ha Hau Hb. unfold Q_powmod, powmod_exponent. cbv zeta.
  assert (E : forall n, 0 <= n -> (if q <? a then u64 (a - q) else a) ^ n mod q = a ^ n mod q).
  { intros n Hn. destruct (Z.ltb_spec q a); [|done]. rewrite u64_small by range_lia.
    rewrite <- Z.mod_pow_l, <- (Z.mod_pow_l a). f_equal. f_equal.
    replace (a - q) with (a + (-1) * q) by lia. by rewrite Z_mod_plus_full. }
  assert (Hb' : (if q <? b then u64 (b - q) else b) = if q <? b then b - q else b).
  { destruct (Z.ltb_spec q b); [|done]. apply u64_small. range_lia. }
  rewrite Hb'. assert (Hn : is_u64 (if q <? b then b - q else b)).
  { destruct (Z.ltb_spec q b); range_lia. }
  rewrite powmod_loop_spec.
  - rewrite Z.mul_1_l. f_equal. apply E. range_lia.
  - range_lia.
  - lia.
  - destruct (Z.ltb_spec q a); [rewrite u64_small by range_lia|]; lia.
  - done.
Qed.

(** [Q_powmod] returns for every 64-bit base up to twice the modulus and every 64-bit
    exponent, and gives the power modulo q, of the exponent reduced once by q. *)
Theorem Q_powmod_spec a b q :
  is_u64 q -> 1 < q -> 0 <= a <= 2 * q -> is_u64 a -> is_u64 b ->
  Q_powmod a b q = Ok (a ^ (if q <? b then b - q else b) mod q).
Proof. exact (powmod_val a b q). Qed.

Lemma Q_powmod_spec_witness :
  Q_powmod 7 (DH_q + 3) DH_q = Ok (7 ^ (if DH_q <? DH_q + 3 then DH_q + 3 - DH_q else DH_q + 3) mod DH_q).
Proof. apply Q_powmod_spec; unfold DH_q; range_lia. Defined.

(** ** Diffie-Hellman *)

(** The public key is a reduced residue. *)
Lemma factor_ok r : is_u64 r ->
  dh_generate_factor r = Ok (mk_factor r (DH_g ^ powmod_exponent r DH_q mod DH_q)).
Proof.
  intros Hr. unfold dh_generate_factor. rewrite powmod_val by (unfold DH_g, DH_q; range_lia). done.
Qed.

Lemma key_ok p r : 0 <= p < DH_q -> is_u64 r ->
  dh_generate_key p r = Ok (p ^ powmod_exponent r DH_q mod DH_q).
Proof. intros Hp Hr. apply powmod_val; unfold DH_q in *; range_lia. Qed.

Lemma exponent_nonneg r : is_u64 r -> 0 <= powmod_exponent r DH_q.
Proof. unfold powmod_exponent. destruct (Z.ltb_spec DH_q r); range_lia. Qed.

(** C38: the key exchange agrees: for any two 64-bit numbers drawn as private keys both
    generations return, and each side's key, computed from its own private key and the peer's
    public key, is the same 64-bit number. *)
Theorem dh_agreement r1 r2 : is_u64 r1 -> is_u64 r2 ->
  exists f1 f2 k, dh_generate_factor r1 = Ok f1 /\ dh_generate_factor r2 = Ok f2 /\
    dh_generate_key (pub_key f2) (priv_key f1) = Ok k /\
    dh_generate_key (pub_key f1) (priv_key f2) = Ok k /\ 0 <= k < DH_q.
Proof.
  intros H1 H2. rewrite (factor_ok r1), (factor_ok r2) by done.
  assert (Hm : forall x, 0 <= x mod DH_q < DH_q) by (intros; apply Z.mod_pos_bound; done).
  do 3 eexists. do 2 (split; [done|]). cbn [pub_key priv_key].
  rewrite (key_ok _ r1), (key_ok _ r2) by done. split; [done|]. split; [|apply Hm].
  f_equal. rewrite !Z.mod_pow_l. rewrite <- !Z.pow_mul_r by (by apply exponent_nonneg).
  by rewrite Z.mul_comm.
Qed.

Lemma dh_agreement_witness :
  exists f1 f2 k, dh_generate_factor 0xfffffffffffffffe = Ok f1 /\ dh_generate_factor 1234567 = Ok f2 /\
    dh_generate_key (pub_key f2) (priv_key f1) = Ok k /\
    dh_generate_key (pub_key f1) (priv_key f2) = Ok k /\ 0 <= k < DH_q.
Proof. apply dh_agreement; range_lia. Defined.

(** The exponent is reduced by q where Fermat's theorem would allow q - 1, so the value is not
    the power the caller asked for. *)
Lemma powmod_not_the_power : Q_powmod 2 7 5 <> Ok (2 ^ 7 mod 5).
Proof. vm_compute. discriminate. Qed.
