(* ===== verification/Xxtea.v ===== *)
(** * Xxtea: the block cipher of the encrypted transport
    ([include/wawo/security/xxtea.hpp])

    The cipher works on arrays of 32-bit words.  Bytes are copied to and from the
    words by [memcpy] on a little-endian machine and by shifts on a big-endian
    one; [little] says which machine runs the code.  The model has no failing
    allocation: [calloc(0)] too answers a pointer, as glibc's does. *)

From S2P Require Import Prelude Packet.

Definition WAWO_XXTEA_DELTA : Z := 0x9e3779b9.

(** [z>>5^y<<2] and the rest of the mixing expression, each sum at 32 bits. *)
Definition WAWO_XXTEA_MX (key : list Z) (sum e : Z) (p : nat) (y z : Z) : Z :=
  Z.lxor (Z.lxor (Z.shiftr z 5) (u32 (Z.shiftl y 2)) +₃₂ Z.lxor (Z.shiftr y 3) (u32 (Z.shiftl z 4)))
         (Z.lxor sum y +₃₂ Z.lxor (key !!! Z.to_nat (Z.lxor (Z.land (Z.of_nat p) 3) e)) z).

(** ** The cipher

    [n] is the length of [v] in both calls of the code. *)
Definition btea_e (sum : Z) : Z := Z.land (Z.shiftr sum 2) 3.

(** [for (p = 0; p<n-1; p++)]: [k] rounds are left. *)
Fixpoint encrypt_for (key : list Z) (sum : Z) (k p : nat) (v : list Z) (z : Z) : list Z * Z :=
  match k with
  | O => (v, z)
  | S k' =>
      let y := v !!! S p in
      let z' := (v !!! p) +₃₂ WAWO_XXTEA_MX key sum (btea_e sum) p y z in
      encrypt_for key sum k' (S p) (<[p := z']> v) z'
  end.

(** The [do ... while (--rounds)] loop; [rounds] is at least 6. *)
Fixpoint encrypt_do (key : list Z) (n : nat) (rounds : nat) (sum : Z) (v : list Z) (z : Z) : list Z :=
  match rounds with
  | O => v
  | S rounds' =>
      let sum' := sum +₃₂ WAWO_XXTEA_DELTA in
      let '(v1, z1) := encrypt_for key sum' (n - 1) 0 v z in
      let y := v1 !!! 0%nat in
      let z' := (v1 !!! (n - 1)%nat) +₃₂ WAWO_XXTEA_MX key sum' (btea_e sum') (n - 1) y z1 in
      encrypt_do key n rounds' sum' (<[(n - 1)%nat := z']> v1) z'
  end.

(** [6 + 52 / n] divides by zero when there is no word. *)
Definition btea_rounds (n : nat) : res nat :=
  if (n =? 0)%nat then Fault Undefined else Ok (6 + 52 / n)%nat.

Definition wikipedia_btea_encrypt (v : list Z) (n : nat) (key : list Z) : res (list Z) :=
  rounds ← btea_rounds n;
  Ok (encrypt_do key n rounds 0 v (v !!! (n - 1)%nat)).

(** [for (p = n-1; p>0; p--)]. *)
Fixpoint decrypt_for (key : list Z) (sum : Z) (p : nat) (v : list Z) (y : Z) : list Z * Z :=
  match p with
  | O => (v, y)
  | S p' =>
      let z := v !!! p' in
      let y' := (v !!! p) -₃₂ WAWO_XXTEA_MX key sum (btea_e sum) p y z in
      decrypt_for key sum p' (<[p := y']> v) y'
  end.

Fixpoint decrypt_do (key : list Z) (n : nat) (rounds : nat) (sum : Z) (v : list Z) (y : Z) : list Z :=
  match rounds with
  | O => v
  | S rounds' =>
      let '(v1, y1) := decrypt_for key sum (n - 1) v y in
      let z := v1 !!! (n - 1)%nat in
      let y' := (v1 !!! 0%nat) -₃₂ WAWO_XXTEA_MX key sum (btea_e sum) 0 y1 z in
      decrypt_do key n rounds' (sum -₃₂ WAWO_XXTEA_DELTA) (<[0%nat := y']> v1) y'
  end.

Definition wikipedia_btea_decrypt (v : list Z) (n : nat) (key : list Z) : res (list Z) :=
  rounds ← btea_rounds n;
  Ok (decrypt_do key n rounds (Z.of_nat rounds *₃₂ WAWO_XXTEA_DELTA) v (v !!! 0%nat)).

(** ** Words and bytes *)

(** A word and its four bytes in the memory of a little-endian machine. *)
Definition le_word (b0 b1 b2 b3 : Z) : Z :=
  Z.lor b0 (Z.lor (Z.shiftl b1 8) (Z.lor (Z.shiftl b2 16) (Z.shiftl b3 24))).
Definition le_bytes (w : Z) : list Z := [u8 w; u8 (Z.shiftr w 8); u8 (Z.shiftr w 16); u8 (Z.shiftr w 24)].

Fixpoint words_of (bs : list Z) : list Z :=
  match bs with
  | b0 :: b1 :: b2 :: b3 :: r => le_word b0 b1 b2 b3 :: words_of r
  | _ => []
  end.
Fixpoint bytes_of (ws : list Z) : list Z :=
  match ws with
  | [] => []
  | w :: ws' => le_bytes w ++ bytes_of ws'
  end.

Section endian.
Context (little : bool).

(** The byte written at index [i]; a read past the last word is out of bounds. *)
Definition to_byte (data : list Z) (i : nat) : res Z :=
  match data !! (i / 4)%nat with
  | Some w => Ok (u8 (Z.shiftr w (Z.of_nat (i mod 4) * 8)))
  | None => Fault Undefined
  end.

Fixpoint to_bytes_loop (data : list Z) (k i : nat) : res (list Z) :=
  match k with
  | O => Ok []
  | S k' => b ← to_byte data i; r ← to_bytes_loop data k' (S i); Ok (b :: r)
  end.

(** [alength] bytes from the words [data]; the assertion is on [dlen] words. *)
Definition xxtea_to_bytes_array (alength : Z) (data : list Z) (dlen : Z) : res (list Z) :=
  wawo_assert (Z.shiftr dlen 2 <=? alength);;
  if little then
    check (alength <=? 4 * zlen data) Undefined;;
    Ok (take (Z.to_nat alength) (bytes_of data))
  else to_bytes_loop data (Z.to_nat alength) 0.

Fixpoint to_words_loop (arr data : list Z) (i : nat) : list Z :=
  match data with
  | [] => arr
  | b :: data' =>
      to_words_loop (<[(i / 4)%nat := Z.lor (arr !!! (i / 4)%nat) (Z.shiftl b (Z.of_nat (i mod 4) * 8))]> arr)
                    data' (S i)
  end.

(** The words [arr] after [data] is copied over their first bytes. *)
Definition xxtea_to_uint32_array (arr : list Z) (alength : Z) (data : list Z) (dlen : Z) : res (list Z) :=
  wawo_assert (Z.shiftr dlen 2 <=? alength);;
  if little then Ok (words_of (splice (bytes_of arr) 0 (take (Z.to_nat dlen) data)))
  else Ok (to_words_loop arr (take (Z.to_nat dlen) data) 0).

(** ** Messages *)
Definition E_XXTEA_INVALID_DATA : Z := -20012.

(** The four key words: the first 16 bytes of the key, padded with zeros. *)
Definition xxtea_key (key : list Z) : res (list Z) :=
  wawo_assert (0 <? zlen key);;
  let tmp := splice (replicate 16 0) 0 (take 16 key) in
  xxtea_to_uint32_array (replicate 4 0) 4 tmp 16.

Definition xxtea_encrypt (data key : list Z) : res (list Z) :=
  u32k ← xxtea_key key;
  let dlen := zlen data in
  let u32len := if Z.land dlen 3 =? 0 then Z.shiftr dlen 2 else Z.shiftr dlen 2 + 1 in
  let u32data := replicate (Z.to_nat (u32len + 1)) 0 in
  let u32data := <[Z.to_nat u32len := dlen]> u32data in
  u32data ← xxtea_to_uint32_array u32data u32len data dlen;
  u32data ← wikipedia_btea_encrypt u32data (Z.to_nat (u32len + 1)) u32k;
  let encrypted_data_length := u32 (Z.shiftl (u32len + 1) 2) in
  xxtea_to_bytes_array encrypted_data_length u32data u32len.

(** The error code, and the bytes when there is none. *)
Definition xxtea_decrypt (data key : list Z) : res (Z * option (list Z)) :=
  let dlen := zlen data in
  if negb (Z.land dlen 3 =? 0) then
    wawo_assert (0 <? zlen key);; Ok (E_XXTEA_INVALID_DATA, None)
  else
    u32k ← xxtea_key key;
    let u32len := Z.shiftr dlen 2 in
    u32data ← xxtea_to_uint32_array (replicate (Z.to_nat u32len) 0) u32len data dlen;
    u32data ← wikipedia_btea_decrypt u32data (Z.to_nat u32len) u32k;
    let decrypted_data_length := u32data !!! Z.to_nat (u32len - 1) in
    if dlen <? decrypted_data_length then Ok (E_XXTEA_INVALID_DATA, None)
    else
      decrypted ← xxtea_to_bytes_array decrypted_data_length u32data (u32len - 1);
      Ok (0, Some decrypted).
End endian.

(** ** [class xxtea]: the key and the packet interface *)
Module xxtea.
Record t : Type := mk { m_key : list Z }.

(** A key longer than 16 bytes is copied past the end of the member. *)
Definition set_key (k : list Z) : res t :=
  wawo_assert (0 <? zlen k);;
  check (zlen k <=? 16) Undefined;;
  Ok (mk (k ++ replicate (Z.to_nat (16 - zlen k)) 122)).

Definition make : res t := set_key (replicate 16 0).

Section alloc.
Context `{memory} (little : bool).

Definition encrypt (c : t) (inp : packet.t) : res packet.t :=
  l ← packet.len inp;
  tea ← xxtea_encrypt little (packet.data inp) (m_key c);
  encrypted ← packet.make_right (zlen tea);
  packet.write encrypted tea.

(** The assertion [ec == OK] comes before the test of the returned pointer. *)
Definition decrypt (c : t) (inp : packet.t) : res packet.t :=
  l ← packet.len inp;
  '(ec, tea) ← xxtea_decrypt little (packet.data inp) (m_key c);
  wawo_assert (ec =? 0);;
  match tea with
  | None => Fault Undefined
  | Some bytes => decrypted ← packet.make_right (zlen bytes); packet.write decrypted bytes
  end.
End alloc.
End xxtea.

(** ** The rounds undo each other *)

(** Steps that leave enough in the state to be undone, undone in reverse order. *)
Lemma undo_fold {A B} (P : A -> Prop) (Q : B -> Prop) (f g : A -> B -> A) l : forall v,
  (forall v x, Q x -> P v -> P (f v x) /\ g (f v x) x = v) ->
  Forall Q l -> P v -> P (fold_left f l v) /\ fold_left g (rev l) (fold_left f l v) = v.
Proof.
  intros v0 Hs Hl. revert v0. induction Hl as [|x l Hx _ IH]; intros v Hv; [by split|].
  cbn [fold_left rev].
  destruct (Hs v x Hx Hv) as [H1 H2]. destruct (IH _ H1) as [H3 H4]. split; [done|].
  by rewrite fold_left_app, H4.
Qed.

Section inverse.
Context (key : list Z) (n : nat) (Hn : (2 <= n)%nat).

Definition nextp (p : nat) : nat := if (p =? n - 1)%nat then 0%nat else S p.
Definition prevp (p : nat) : nat := if (p =? 0)%nat then (n - 1)%nat else (p - 1)%nat.

Definition enc_step (sum : Z) (v : list Z) (p : nat) : list Z :=
  <[p := (v !!! p) +₃₂ WAWO_XXTEA_MX key sum (btea_e sum) p (v !!! nextp p) (v !!! prevp p)]> v.
Definition dec_step (sum : Z) (v : list Z) (p : nat) : list Z :=
  <[p := (v !!! p) -₃₂ WAWO_XXTEA_MX key sum (btea_e sum) p (v !!! nextp p) (v !!! prevp p)]> v.

Definition words (v : list Z) : Prop := length v = n /\ Forall is_u32 v.

Lemma neighbours p : (p < n)%nat -> nextp p <> p /\ prevp p <> p.
Proof.
  unfold nextp, prevp. destruct (Nat.eqb_spec p (n - 1)), (Nat.eqb_spec p 0); lia.
Qed.

Lemma steps_undo sum v p : (p < n)%nat -> words v ->
  words (enc_step sum v p) /\ dec_step sum (enc_step sum v p) p = v.
Proof.
  intros Hp [L W]. destruct (neighbours p Hp) as [Nn Np]. split.
  - split; [by unfold enc_step; rewrite length_insert|].
    apply Forall_insert; [done | apply u32_range].
  - unfold dec_step, enc_step. rewrite (list_lookup_total_insert_ne _ p (nextp p)) by congruence.
    rewrite (list_lookup_total_insert_ne _ p (prevp p)) by congruence.
    rewrite list_lookup_total_insert_eq by lia. rewrite list_insert_insert_eq.
    rewrite u32_add_sub; [apply list_insert_id, list_lookup_lookup_total_lt; lia|].
    eapply Forall_lookup_total_1; [done | lia].
Qed.

Definition enc_round (v : list Z) (sum : Z) : list Z := fold_left (enc_step sum) (seq 0 n) v.
Definition dec_round (v : list Z) (sum : Z) : list Z := fold_left (dec_step sum) (rev (seq 0 n)) v.

Lemma rounds_undo v sum : words v -> words (enc_round v sum) /\ dec_round (enc_round v sum) sum = v.
Proof.
  apply (undo_fold words (fun p => (p < n)%nat)).
  - intros w p Hp Hw. by apply steps_undo.
  - apply Forall_forall. intros p Hp%elem_of_seq. lia.
Qed.

(** ** The code's loops are those rounds *)
Lemma encrypt_for_steps sum k : forall p v z,
  (p + k = n - 1)%nat -> length v = n -> z = v !!! prevp p ->
  let r := fold_left (enc_step sum) (seq p k) v in
  encrypt_for key sum k p v z = (r, r !!! prevp (p + k)).
Proof.
  induction k as [|k IH]; intros p v z Hp L ->; cbn [encrypt_for seq fold_left].
  - by rewrite Nat.add_0_r.
  - assert (HP : nextp p = S p) by (unfold nextp; destruct (Nat.eqb_spec p (n - 1)); lia).
    assert (Hq : prevp (S p) = p) by (unfold prevp; simpl; lia).
    cbv zeta. rewrite IH; [| lia | by rewrite length_insert
      | rewrite Hq; symmetry; apply list_lookup_total_insert_eq; lia].
    replace (p + S k)%nat with (S p + k)%nat by lia.
    assert (E : enc_step sum v p = <[p := (v !!! p) +₃₂
      WAWO_XXTEA_MX key sum (btea_e sum) p (v !!! S p) (v !!! prevp p)]> v)
      by (unfold enc_step; by rewrite HP).
    by rewrite E.
Qed.

Lemma steps_length (f : Z -> list Z -> nat -> list Z) sum l :
  (forall v p, length (f sum v p) = length v) ->
  forall v, length (fold_left (f sum) l v) = length v.
Proof. intros Hf. induction l as [|p l IH]; intros v; [done|]. cbn. by rewrite IH. Qed.

Lemma encrypt_do_rounds r : forall sum v z, length v = n -> z = v !!! (n - 1)%nat ->
  encrypt_do key n r sum v z
  = fold_left enc_round (map (fun i => u32 (sum + Z.of_nat i * WAWO_XXTEA_DELTA)) (seq 1 r)) v.
Proof.
  induction r as [|r IH]; intros sum v z L Hz; [done|]. cbn [encrypt_do seq map fold_left]. cbv zeta.
  set (s1 := sum +₃₂ WAWO_XXTEA_DELTA).
  rewrite (encrypt_for_steps s1 (n - 1) 0 v z) by (done || (unfold prevp; simpl; done)).
  set (v1 := fold_left _ _ v).
  assert (L1 : length v1 = n) by (unfold v1; rewrite (steps_length enc_step); [done|];
    intros; apply length_insert).
  assert (E : enc_round v s1 = enc_step s1 v1 (n - 1)).
  { unfold enc_round. replace n with (n - 1 + 1)%nat at 1 by lia.
    by rewrite seq_app, fold_left_app. }
  assert (Ex : enc_step s1 v1 (n - 1) = <[(n - 1)%nat := (v1 !!! (n - 1)%nat) +₃₂
    WAWO_XXTEA_MX key s1 (btea_e s1) (n - 1) (v1 !!! 0%nat) (v1 !!! prevp (0 + (n - 1)))]> v1).
  { unfold enc_step, nextp. by rewrite Nat.eqb_refl. }
  rewrite IH; [| by rewrite length_insert | symmetry; apply list_lookup_total_insert_eq; lia].
  rewrite <- Ex, <- E. replace (u32 (sum + Z.of_nat 1 * WAWO_XXTEA_DELTA)) with s1
    by (unfold s1; f_equal; lia).
  f_equal. rewrite <- (seq_shift r 1), map_map. apply map_ext. intros i. unfold s1.
  rewrite u32_add_l. f_equal. lia.
Qed.

Lemma decrypt_for_steps sum p : forall v y,
  (p <= n - 1)%nat -> length v = n -> y = v !!! nextp p ->
  let r := fold_left (dec_step sum) (rev (seq 1 p)) v in
  decrypt_for key sum p v y = (r, r !!! nextp 0).
Proof.
  induction p as [|p IH]; intros v y Hp L ->; [done|]. cbn [decrypt_for].
  assert (HP : prevp (S p) = p) by (unfold prevp; simpl; lia).
  assert (Hq : nextp p = S p) by (unfold nextp; destruct (Nat.eqb_spec p (n - 1)); lia).
  cbv zeta. rewrite IH; [| lia | by rewrite length_insert
    | rewrite Hq; symmetry; apply list_lookup_total_insert_eq; lia].
  rewrite (seq_S p 1), rev_app_distr. cbn [rev app fold_left Nat.add].
  assert (E : dec_step sum v (S p) = <[S p := (v !!! S p) -₃₂
    WAWO_XXTEA_MX key sum (btea_e sum) (S p) (v !!! nextp (S p)) (v !!! p)]> v)
    by (unfold dec_step; by rewrite HP).
  by rewrite E.
Qed.

Lemma decrypt_do_rounds r : forall sum v y, length v = n -> y = v !!! 0%nat ->
  decrypt_do key n r (u32 (sum + Z.of_nat r * WAWO_XXTEA_DELTA)) v y
  = fold_left dec_round (rev (map (fun i => u32 (sum + Z.of_nat i * WAWO_XXTEA_DELTA)) (seq 1 r))) v.
Proof.
  induction r as [|r IH]; intros sum v y L Hy; [done|].
  rewrite (seq_S r 1), map_app, rev_app_distr. cbn [decrypt_do map rev app fold_left].
  set (s1 := u32 (sum + Z.of_nat (S r) * WAWO_XXTEA_DELTA)).
  rewrite (decrypt_for_steps s1 (n - 1) v y);
    [| lia | done | unfold nextp; by rewrite Nat.eqb_refl].
  set (v1 := fold_left _ _ v).
  assert (L1 : length v1 = n) by (unfold v1; rewrite (steps_length dec_step); [done|];
    intros; apply length_insert).
  assert (E : dec_round v s1 = dec_step s1 v1 0).
  { unfold dec_round. replace n with (1 + (n - 1))%nat at 1 by lia.
    by rewrite seq_app, rev_app_distr, fold_left_app. }
  assert (Ex : dec_step s1 v1 0 = <[0%nat := (v1 !!! 0%nat) -₃₂
    WAWO_XXTEA_MX key s1 (btea_e s1) 0 (v1 !!! nextp 0) (v1 !!! (n - 1)%nat)]> v1) by done.
  cbv zeta. rewrite <- Ex, <- E.
  replace (s1 -₃₂ WAWO_XXTEA_DELTA) with (u32 (sum + Z.of_nat r * WAWO_XXTEA_DELTA))
    by (unfold s1; rewrite u32_sub_l; f_equal; lia).
  rewrite IH; [| by rewrite E, Ex, length_insert
    | rewrite E, Ex; symmetry; apply list_lookup_total_insert_eq; lia].
  done.
Qed.

Lemma btea_inverse v : words v ->
  exists w, wikipedia_btea_encrypt v n key = Ok w /\ words w /\ wikipedia_btea_decrypt w n key = Ok v.
Proof.
  intros W. unfold wikipedia_btea_encrypt, wikipedia_btea_decrypt, btea_rounds.
  destruct (Nat.eqb_spec n 0); [lia|]. set (r := (6 + 52 / n)%nat). res_simpl.
  set (sums := map (fun i => u32 (0 + Z.of_nat i * WAWO_XXTEA_DELTA)) (seq 1 r)).
  rewrite encrypt_do_rounds by (apply W || done). fold sums.
  destruct (undo_fold words (fun _ => True) enc_round dec_round sums v) as [H1 H2];
    [intros; by apply rounds_undo | by apply Forall_true | done |].
  eexists. split; [done|]. split; [done|]. f_equal.
  change (Z.of_nat r *₃₂ WAWO_XXTEA_DELTA) with (u32 (0 + Z.of_nat r * WAWO_XXTEA_DELTA)).
  rewrite decrypt_do_rounds by (apply H1 || done). exact H2.
Qed.
End inverse.

(** ** Bytes in words *)
Lemma le_word_sum b0 b1 b2 b3 : is_u8 b0 -> is_u8 b1 -> is_u8 b2 -> is_u8 b3 ->
  le_word b0 b1 b2 b3 = b0 + b1 * 256 + b2 * 65536 + b3 * 16777216.
Proof.
  assert (L : forall k x y, 0 <= k -> 0 <= x < 2 ^ k -> Z.lor x (y * 2 ^ k) = x + y * 2 ^ k).
  { intros k x y Hk Hx. rewrite Z.lor_comm, <- Z.shiftl_mul_pow2 at 1 by done.
    rewrite shiftl_lor_add by done. lia. }
  intros. unfold le_word. rewrite !Z.shiftl_mul_pow2 by lia.
  assert (E1 : Z.lor (b2 * 2 ^ 16) (b3 * 2 ^ 24) = b2 * 2 ^ 16 + b3 * 2 ^ 24).
  { replace (b2 * 2 ^ 16) with (Z.shiftl b2 16) by (rewrite Z.shiftl_mul_pow2 by lia; lia).
    replace (b3 * 2 ^ 24) with (Z.shiftl (b3 * 2 ^ 8) 16) by (rewrite Z.shiftl_mul_pow2 by lia; lia).
    rewrite <- Z.shiftl_lor, L by (simpl; range_lia). rewrite !Z.shiftl_mul_pow2 by lia. lia. }
  rewrite E1. replace (b2 * 2 ^ 16 + b3 * 2 ^ 24) with (Z.shiftl (b2 * 2 ^ 8 + b3 * 2 ^ 16) 8)
    by (rewrite Z.shiftl_mul_pow2 by lia; lia).
  replace (b1 * 2 ^ 8) with (Z.shiftl b1 8) by (rewrite Z.shiftl_mul_pow2 by lia; lia).
  rewrite <- Z.shiftl_lor. replace (b2 * 2 ^ 8 + b3 * 2 ^ 16) with ((b2 + b3 * 2 ^ 8) * 2 ^ 8) by lia.
  rewrite L by (simpl; range_lia). rewrite Z.shiftl_mul_pow2, L by (simpl; range_lia). lia.
Qed.

Lemma le_bytes_word b0 b1 b2 b3 : is_u8 b0 -> is_u8 b1 -> is_u8 b2 -> is_u8 b3 ->
  le_bytes (le_word b0 b1 b2 b3) = [b0; b1; b2; b3].
Proof.
  intros. rewrite le_word_sum by done. unfold le_bytes, u8. rewrite !Z.shiftr_div_pow2 by lia.
  change (2 ^ 8) with 256. change (2 ^ 16) with 65536. change (2 ^ 24) with 16777216.
  unfold is_u8 in *. repeat f_equal; Z.div_mod_to_equations; lia.
Qed.

Lemma le_word_bytes w : is_u32 w ->
  le_word (u8 w) (u8 (Z.shiftr w 8)) (u8 (Z.shiftr w 16)) (u8 (Z.shiftr w 24)) = w.
Proof.
  intros. rewrite le_word_sum by apply u8_range. unfold u8. rewrite !Z.shiftr_div_pow2 by lia.
  change (2 ^ 8) with 256. change (2 ^ 16) with 65536. change (2 ^ 24) with 16777216.
  unfold is_u32 in *. Z.div_mod_to_equations. lia.
Qed.

Lemma le_word_range b0 b1 b2 b3 : is_u8 b0 -> is_u8 b1 -> is_u8 b2 -> is_u8 b3 ->
  is_u32 (le_word b0 b1 b2 b3).
Proof. intros. rewrite le_word_sum by done. range_lia. Qed.

Lemma words_of_bytes ws rest : Forall is_u32 ws ->
  words_of (bytes_of ws ++ rest) = ws ++ words_of rest.
Proof.
  induction 1 as [|w ws Hw _ IH]; [done|]. cbn [bytes_of le_bytes app words_of].
  by rewrite le_word_bytes, IH.
Qed.

Lemma words_of_bytes_id ws : Forall is_u32 ws -> words_of (bytes_of ws) = ws.
Proof.
  intros W. rewrite <- (app_nil_r (bytes_of ws)), words_of_bytes by done. apply app_nil_r.
Qed.

Lemma bytes_of_length ws : length (bytes_of ws) = (4 * length ws)%nat.
Proof. induction ws as [|w ws IH]; [done|]. simpl. lia. Qed.

Lemma bytes_of_app ws ws' : bytes_of (ws ++ ws') = bytes_of ws ++ bytes_of ws'.
Proof. induction ws as [|w ws IH]; [done|]. simpl. by rewrite IH. Qed.

Lemma bytes_of_range ws : Forall byte_ok (bytes_of ws).
Proof. induction ws as [|w ws IH]; simpl; repeat constructor; try apply u8_range; done. Qed.

Lemma bytes_of_zeros k : bytes_of (replicate k 0) = replicate (4 * k) 0.
Proof.
  induction k as [|k IH]; [done|]. replace (4 * S k)%nat with (S (S (S (S (4 * k))))) by lia.
  cbn [replicate bytes_of]. rewrite IH. done.
Qed.

(** The bytes of a list whose length is a multiple of four. *)
Lemma words_of_spec k : forall bs, length bs = (4 * k)%nat -> Forall byte_ok bs ->
  bytes_of (words_of bs) = bs /\ Forall is_u32 (words_of bs) /\ length (words_of bs) = k.
Proof.
  induction k as [|k IH]; intros bs L B; [destruct bs; [done | simpl in L; lia]|].
  destruct bs as [|b0 [|b1 [|b2 [|b3 r]]]]; try (simpl in L; lia).
  apply Forall_cons in B as [B0 B]. apply Forall_cons in B as [B1 B].
  apply Forall_cons in B as [B2 B]. apply Forall_cons in B as [B3 B].
  destruct (IH r) as (E & F & N); [simpl in L; lia | done |].
  cbn [words_of bytes_of]. rewrite le_bytes_word, E by done. split; [done|].
  split; [constructor; [by apply le_word_range | done] | simpl; lia].
Qed.

(** One round of the big-endian copy, on the bytes. *)
Lemma store_byte b i : forall k bs, length bs = (4 * k)%nat -> bs !! i = Some 0 ->
  <[(i / 4)%nat := Z.lor (words_of bs !!! (i / 4)%nat) (Z.shiftl b (Z.of_nat (i mod 4) * 8))]> (words_of bs)
  = words_of (<[i := b]> bs).
Proof.
  induction i as [i IH] using (well_founded_induction lt_wf). intros k bs L Hi.
  destruct k as [|k]; [destruct bs; simpl in *; [done | lia]|].
  destruct bs as [|b0 [|b1 [|b2 [|b3 r]]]]; try (simpl in L; lia).
  destruct (Nat.lt_ge_cases i 4) as [H4|H4].
  - rewrite Nat.div_small, Nat.mod_small by done.
    destruct i as [|[|[|[|i]]]]; [..|lia]; simpl in Hi; injection Hi as ->;
      cbn [words_of list_lookup_total list_insert lookup_total insert Z.of_nat Z.mul]; f_equal;
      unfold le_word; rewrite ?Z.shiftl_0_l, ?Z.shiftl_0_r;
      apply Z.bits_inj'; intros m Hm; rewrite !Z.lor_spec, ?Z.bits_0;
      change (Z.of_nat 1 * 8) with 8; change (Z.of_nat 2 * 8) with 16; change (Z.of_nat 3 * 8) with 24;
      repeat match goal with |- context [Z.testbit ?x m] => generalize (Z.testbit x m) end;
      intros; repeat match goal with x : bool |- _ => destruct x end; done.
  - destruct i as [|[|[|[|i]]]]; try lia.
    replace (S (S (S (S i)))) with (i + 1 * 4)%nat by lia.
    rewrite Nat.div_add, Nat.Div0.mod_add by lia.
    replace (i / 4 + 1)%nat with (S (i / 4)) by lia. replace (i + 1 * 4)%nat with (S (S (S (S i)))) by lia.
    cbn [words_of]. change (<[S (S (S (S i))) := b]> (b0 :: b1 :: b2 :: b3 :: r))
      with (b0 :: b1 :: b2 :: b3 :: <[i := b]> r). cbn [words_of].
    rewrite <- (IH i ltac:(lia) k r); [done | simpl in L; lia | done].
Qed.

Lemma splice_cons bs i b data : (i < length bs)%nat ->
  splice (<[i := b]> bs) (Z.of_nat (S i)) data = splice bs (Z.of_nat i) (b :: data).
Proof.
  intros Hi. unfold splice. rewrite !Nat2Z.id. rewrite (insert_take_drop bs) by done.
  assert (L : length (take i bs) = i) by (rewrite length_take; lia).
  assert (T : take (S i) (take i bs ++ b :: drop (S i) bs) = take i bs ++ [b]).
  { replace (S i) with (length (take i bs) + 1)%nat at 1 by lia. by rewrite firstn_app_2. }
  rewrite T, <- app_assoc, drop_app_ge by lia. rewrite L.
  replace (S i + length data - i)%nat with (S (length data)) by lia. cbn [drop length].
  rewrite drop_drop. by replace (i + S (length data))%nat with (S i + length data)%nat by lia.
Qed.

Lemma to_words_loop_spec k data : forall bs i,
  length bs = (4 * k)%nat -> (i + length data <= 4 * k)%nat ->
  (forall j, (i <= j < i + length data)%nat -> bs !! j = Some 0) ->
  to_words_loop (words_of bs) data i = words_of (splice bs (Z.of_nat i) data).
Proof.
  induction data as [|b data IH]; intros bs i L Hi Hz; cbn [to_words_loop].
  - unfold splice. cbn [app length]. by rewrite Nat.add_0_r, Nat2Z.id, take_drop.
  - cbn [length] in *. rewrite (store_byte b i k) by (try done; apply Hz; lia).
    rewrite IH; [by rewrite splice_cons by lia | by rewrite length_insert | lia |].
    intros j Hj. rewrite list_lookup_insert_ne by lia. apply Hz. lia.
Qed.

Lemma to_byte_spec ws : forall i, (i < 4 * length ws)%nat ->
  exists x, to_byte ws i = Ok x /\ bytes_of ws !! i = Some x.
Proof.
  unfold to_byte. induction ws as [|w ws IH]; intros i Hi; [simpl in Hi; lia|].
  destruct (Nat.lt_ge_cases i 4) as [H4|H4].
  - rewrite Nat.div_small, Nat.mod_small by done. cbn [bytes_of le_bytes app lookup list_lookup].
    destruct i as [|[|[|[|i]]]]; [..|lia]; cbn; rewrite ?Z.shiftr_0_r; eauto.
  - destruct i as [|[|[|[|i]]]]; try lia. cbn [length] in Hi.
    destruct (IH i) as (x & E & Hx); [lia|].
    replace (S (S (S (S i)))) with (i + 1 * 4)%nat by lia.
    rewrite Nat.div_add, Nat.Div0.mod_add by lia. replace (i / 4 + 1)%nat with (S (i / 4)) by lia.
    exists x. split; [exact E|]. replace (i + 1 * 4)%nat with (S (S (S (S i)))) by lia. exact Hx.
Qed.

Lemma to_bytes_loop_spec ws k : forall i, (i + k <= 4 * length ws)%nat ->
  to_bytes_loop ws k i = Ok (take k (drop i (bytes_of ws))).
Proof.
  induction k as [|k IH]; intros i Hi; [done|]. cbn [to_bytes_loop].
  destruct (to_byte_spec ws i) as (x & E & Hx); [lia|]. rewrite E, IH by lia. res_simpl.
  by rewrite (drop_S _ _ _ Hx).
Qed.

(** Both machines do the same copies: the cipher's bytes do not depend on the endianness. *)
Lemma to_bytes_array_spec little alength ws dlen :
  Z.shiftr dlen 2 <= alength -> 0 <= alength <= 4 * zlen ws ->
  xxtea_to_bytes_array little alength ws dlen = Ok (take (Z.to_nat alength) (bytes_of ws)).
Proof.
  intros Ha Hl. unfold xxtea_to_bytes_array. rewrite (proj2 (Z.leb_le (Z.shiftr dlen 2) alength)) by done.
  destruct little; res_simpl; [by rewrite (proj2 (Z.leb_le _ _)) by lia|].
  rewrite to_bytes_loop_spec by (unfold zlen in Hl; lia). done.
Qed.

Lemma to_uint32_array_spec little ws alength data dlen :
  Forall is_u32 ws -> dlen = zlen data -> Z.shiftr dlen 2 <= alength -> dlen <= 4 * zlen ws ->
  (forall j, (j < length data)%nat -> bytes_of ws !! j = Some 0) ->
  xxtea_to_uint32_array little ws alength data dlen = Ok (words_of (splice (bytes_of ws) 0 data)).
Proof.
  intros W -> Ha Hl Hz. unfold xxtea_to_uint32_array. rewrite (proj2 (Z.leb_le (Z.shiftr (zlen data) 2) alength)) by done.
  res_simpl. rewrite take_ge by (unfold zlen; lia). destruct little; [done|]. f_equal.
  rewrite <- (words_of_bytes_id ws) at 1 by done. rewrite (to_words_loop_spec (length ws)); [done | apply bytes_of_length | unfold zlen in Hl; lia
    | intros; apply Hz; lia].
Qed.

Lemma words_of_app k : forall a b, length a = (4 * k)%nat -> words_of (a ++ b) = words_of a ++ words_of b.
Proof.
  induction k as [|k IH]; intros a b L; [destruct a; [done | simpl in L; lia]|].
  destruct a as [|b0 [|b1 [|b2 [|b3 r]]]]; try (simpl in L; lia).
  cbn [app words_of]. f_equal. apply IH. simpl in L; lia.
Qed.

Lemma words_of_length k : forall a, length a = (4 * k)%nat -> length (words_of a) = k.
Proof.
  induction k as [|k IH]; intros a L; [destruct a; [done | simpl in L; lia]|].
  destruct a as [|b0 [|b1 [|b2 [|b3 r]]]]; try (simpl in L; lia). cbn. rewrite IH; [done|].
  simpl in L. lia.
Qed.

(** ** Encryption and decryption of a message *)

(** The key words, the same on both machines. *)
Definition key_words (key : list Z) : list Z := words_of (splice (replicate 16 0) 0 (take 16 key)).

Lemma xxtea_key_spec little key : 0 < zlen key -> Forall byte_ok key ->
  xxtea_key little key = Ok (key_words key).
Proof.
  intros Hk B. unfold xxtea_key. rewrite (proj2 (Z.ltb_lt 0 (zlen key))) by done. res_simpl. cbv zeta.
  assert (L : zlen (splice (replicate 16 0) 0 (take 16 key)) = 16).
  { rewrite zlen_splice; [done | lia |]. unfold zlen. rewrite length_take, length_replicate. lia. }
  rewrite to_uint32_array_spec.
  - unfold key_words. do 2 f_equal. unfold zlen in L. unfold splice at 1.
    rewrite drop_ge by (rewrite bytes_of_length, length_replicate; lia). apply app_nil_r.
  - by apply Forall_replicate.
  - done.
  - done.
  - done.
  - intros j Hj. change (replicate 4 0) with (replicate 4 0). rewrite bytes_of_zeros.
    apply lookup_replicate_2. unfold zlen in L. lia.
Qed.

(** The number of words of the data, and the block that is enciphered. *)
Definition data_words (dlen : Z) : nat := Z.to_nat ((dlen + 3) / 4).
Definition padded (data : list Z) : list Z :=
  data ++ replicate (4 * data_words (zlen data) - length data) 0 ++ le_bytes (zlen data).

Lemma u32len_val dlen : 0 <= dlen ->
  (if Z.land dlen 3 =? 0 then Z.shiftr dlen 2 else Z.shiftr dlen 2 + 1) = Z.of_nat (data_words dlen).
Proof.
  intros H. unfold data_words. change 3 with (Z.ones 2) at 1.
  rewrite Z.land_ones, Z.shiftr_div_pow2 by lia. change (2 ^ 2) with 4.
  rewrite Z2Nat.id by (Z.div_mod_to_equations; lia).
  destruct (Z.eqb_spec (dlen mod 4) 0); Z.div_mod_to_equations; lia.
Qed.

Lemma data_words_bound (data : list Z) :
  (length data <= 4 * data_words (zlen data) < length data + 4)%nat.
Proof. unfold data_words, zlen. Z.div_mod_to_equations. lia. Qed.

Lemma padded_words data : Forall byte_ok data ->
  words (S (data_words (zlen data))) (words_of (padded data))
  /\ bytes_of (words_of (padded data)) = padded data.
Proof.
  intros B. pose proof (data_words_bound data) as Hb.
  destruct (words_of_spec (S (data_words (zlen data))) (padded data)) as (E & F & N).
  - unfold padded. rewrite !length_app, length_replicate. cbn [length le_bytes]. lia.
  - unfold padded. apply Forall_app. split; [done|]. apply Forall_app.
    split; [by apply Forall_replicate | repeat constructor; apply u8_range].
  - done.
Qed.

Lemma padded_last data : is_u32 (zlen data) ->
  words_of (padded data) !!! data_words (zlen data) = zlen data.
Proof.
  intros H. pose proof (data_words_bound data) as Hb. unfold padded. rewrite app_assoc.
  set (a := data ++ replicate _ 0).
  assert (L : length a = (4 * data_words (zlen data))%nat)
    by (unfold a; rewrite length_app, length_replicate; lia).
  rewrite (words_of_app (data_words (zlen data))) by done. cbn [words_of le_bytes].
  rewrite le_word_bytes by done. apply list_lookup_total_correct.
  assert (La : length (words_of a) = data_words (zlen data)) by (by apply words_of_length).
  rewrite <- La. by apply list_lookup_middle.
Qed.

Lemma encrypt_spec little data key :
  0 < zlen key -> Forall byte_ok key -> Forall byte_ok data -> 0 < zlen data < 4294967289 ->
  exists w, wikipedia_btea_encrypt (words_of (padded data)) (S (data_words (zlen data))) (key_words key) = Ok w
    /\ words (S (data_words (zlen data))) w
    /\ wikipedia_btea_decrypt w (S (data_words (zlen data))) (key_words key) = Ok (words_of (padded data))
    /\ xxtea_encrypt little data key = Ok (bytes_of w).
Proof.
  intros Hk Bk Bd Hd. pose proof (data_words_bound data) as Hb. set (n := data_words (zlen data)) in *.
  destruct (padded_words data Bd) as [W E]. fold n in W.
  destruct (btea_inverse (key_words key) (S n) ltac:(unfold zlen in Hd; lia) _ W) as (w & E1 & W1 & E2).
  exists w. do 3 (split; [done|]). unfold xxtea_encrypt. rewrite xxtea_key_spec by done. res_simpl.
  cbv zeta. rewrite u32len_val by lia. fold n. rewrite Nat2Z.id.
  replace (Z.to_nat (Z.of_nat n + 1)) with (n + 1)%nat by lia.
  rewrite replicate_add, insert_app_r_alt, length_replicate, Nat.sub_diag by (rewrite length_replicate; lia).
  change (<[0%nat := zlen data]> (replicate 1 0)) with [zlen data].
  assert (Hs : splice (bytes_of (replicate n 0 ++ [zlen data])) 0 data = padded data).
  { rewrite bytes_of_app, bytes_of_zeros. unfold splice, padded. change (Z.to_nat 0) with 0%nat.
    rewrite take_0, Nat.add_0_l, app_nil_l, drop_app_le by (rewrite length_replicate; lia).
    rewrite drop_replicate. fold n. cbn [bytes_of]. by rewrite app_nil_r. }
  rewrite to_uint32_array_spec.
  - res_simpl. rewrite Hs. replace (n + 1)%nat with (S n) by lia. rewrite E1. res_simpl.
    destruct W1 as [L1 F1]. rewrite Z.shiftl_mul_pow2 by lia. change (2 ^ 2) with 4.
    rewrite u32_small by (unfold zlen in Hd; range_lia).
    rewrite to_bytes_array_spec; [|rewrite Z.shiftr_div_pow2 by lia; change (2 ^ 2) with 4;
      Z.div_mod_to_equations; lia | unfold zlen; lia].
    f_equal. apply take_ge. rewrite bytes_of_length. lia.
  - apply Forall_app. split; [by apply Forall_replicate | repeat constructor; range_lia].
  - done.
  - rewrite Z.shiftr_div_pow2 by lia. change (2 ^ 2) with 4. unfold zlen. Z.div_mod_to_equations. lia.
  - unfold zlen. rewrite length_app, length_replicate. simpl. lia.
  - intros j Hj. rewrite bytes_of_app, bytes_of_zeros, lookup_app_l by (rewrite length_replicate; lia).
    apply lookup_replicate_2. lia.
Qed.

Lemma decrypt_spec little data key w :
  0 < zlen key -> Forall byte_ok key -> Forall byte_ok data -> 0 < zlen data < 4294967289 ->
  words (S (data_words (zlen data))) w ->
  wikipedia_btea_decrypt w (S (data_words (zlen data))) (key_words key) = Ok (words_of (padded data)) ->
  xxtea_decrypt little (bytes_of w) key = Ok (0, Some data).
Proof.
  intros Hk Bk Bd Hd [L F] E. pose proof (data_words_bound data) as Hb.
  pose proof (padded_last data ltac:(range_lia)) as Hlast.
  destruct (padded_words data Bd) as [[LP FP] EP]. set (n := data_words (zlen data)) in *.
  assert (Hz : zlen (bytes_of w) = 4 * (Z.of_nat n + 1)) by (unfold zlen; rewrite bytes_of_length; lia).
  unfold xxtea_decrypt. rewrite Hz. cbv zeta.
  assert (Hs : Z.shiftr (4 * (Z.of_nat n + 1)) 2 = Z.of_nat n + 1).
  { rewrite Z.shiftr_div_pow2 by lia. change (2 ^ 2) with 4. Z.div_mod_to_equations; lia. }
  change 3 with (Z.ones 2). rewrite Z.land_ones, Z.mul_comm, Z_mod_mult, Z.mul_comm, Hs by lia.
  cbn [Z.eqb negb]. rewrite xxtea_key_spec by done. res_simpl.
  replace (Z.to_nat (Z.of_nat n + 1)) with (S n) by lia.
  replace (Z.to_nat (Z.of_nat n + 1 - 1)) with n by lia.
  rewrite to_uint32_array_spec.
  - res_simpl. assert (Hsp : splice (bytes_of (replicate (S n) 0)) 0 (bytes_of w) = bytes_of w).
    { unfold splice. rewrite drop_ge by (rewrite !bytes_of_length, length_replicate; lia).
      apply app_nil_r. }
    rewrite Hsp, words_of_bytes_id, E by done. res_simpl. rewrite Hlast.
    unfold zlen in Hd. rewrite (proj2 (Z.ltb_ge _ _)) by (unfold zlen; lia).
    rewrite to_bytes_array_spec; [| rewrite Z.shiftr_div_pow2 by lia; change (2 ^ 2) with 4;
      unfold zlen; Z.div_mod_to_equations; lia | unfold zlen; lia].
    res_simpl. do 3 f_equal. rewrite EP. unfold padded, zlen. rewrite Nat2Z.id.
    by apply take_app_length.
  - by apply Forall_replicate.
  - lia.
  - lia.
  - unfold zlen. rewrite length_replicate. lia.
  - intros j Hj. rewrite bytes_of_zeros. apply lookup_replicate_2. unfold zlen in Hz. lia.
Qed.

(** The round trip of a message, on either machine. *)
Lemma message_roundtrip data key :
  0 < zlen key -> Forall byte_ok key -> Forall byte_ok data -> 0 < zlen data < 4294967289 ->
  exists enc, (forall little, xxtea_encrypt little data key = Ok enc)
    /\ (forall little, xxtea_decrypt little enc key = Ok (0, Some data))
    /\ zlen enc = 4 * ((zlen data + 3) / 4) + 4 /\ Forall byte_ok enc.
Proof.
  intros Hk Bk Bd Hd. destruct (encrypt_spec true data key) as (w & E & W & D & _); [done..|].
  exists (bytes_of w). split; [intros little|split; [intros little|split]].
  - destruct (encrypt_spec little data key) as (w' & E' & _ & _ & R); [done..|]. congruence.
  - by apply decrypt_spec.
  - destruct W as [L _]. unfold zlen at 1. rewrite bytes_of_length, L. unfold data_words.
    Z.div_mod_to_equations. lia.
  - apply bytes_of_range.
Qed.

(** ** Properties *)

(** the block cipher is invertible: for every block of at least two 32-bit words and every
    key, encryption returns, gives a block of as many words, and decryption with the same key
    gives the block back. *)
Theorem btea_roundtrip key n v : (2 <= n)%nat -> length v = n -> Forall is_u32 v ->
  exists w, wikipedia_btea_encrypt v n key = Ok w /\ length w = n /\ Forall is_u32 w
    /\ wikipedia_btea_decrypt w n key = Ok v.
Proof.
  intros Hn L F. destruct (btea_inverse key n Hn v (conj L F)) as (w & E & [L' F'] & D). eauto.
Qed.

Lemma btea_roundtrip_witness :
  exists w, wikipedia_btea_encrypt [1; 2; 3] 3 [4; 5; 6; 7] = Ok w /\ length w = 3%nat
    /\ Forall is_u32 w /\ wikipedia_btea_decrypt w 3 [4; 5; 6; 7] = Ok [1; 2; 3].
Proof. apply btea_roundtrip; [lia | done | repeat constructor; range_lia]. Defined.

(** C30: a non-empty message below 4 GiB, encrypted on a machine of either endianness, is
    decrypted to itself by a machine of either endianness that holds the same key, and both
    machines produce the same bytes, one word longer than the message rounded up to words. *)
Theorem xxtea_roundtrip data key :
  0 < zlen key -> Forall byte_ok key -> Forall byte_ok data -> 0 < zlen data < 4294967289 ->
  exists enc, (forall little, xxtea_encrypt little data key = Ok enc)
    /\ (forall little, xxtea_decrypt little enc key = Ok (0, Some data))
    /\ zlen enc = 4 * ((zlen data + 3) / 4) + 4 /\ Forall byte_ok enc.
Proof. exact (message_roundtrip data key). Qed.

Lemma xxtea_roundtrip_witness :
  exists enc, (forall little, xxtea_encrypt little [77; 69; 83; 83; 65] [1; 2; 3] = Ok enc)
    /\ (forall little, xxtea_decrypt little enc [1; 2; 3] = Ok (0, Some [77; 69; 83; 83; 65]))
    /\ zlen enc = 4 * ((zlen [77; 69; 83; 83; 65] + 3) / 4) + 4 /\ Forall byte_ok enc.
Proof.
  apply xxtea_roundtrip; [done | | | done];
    repeat constructor; vm_compute; intuition discriminate.
Defined.

(** What [decrypt] of the class does with a message that is not a ciphertext. *)
Lemma xxtea_decrypt_empty `{memory} little c inp :
  packet.wf inp -> packet.data inp = [] -> 0 < zlen (xxtea.m_key c) -> Forall byte_ok (xxtea.m_key c) ->
  xxtea.decrypt little c inp = Fault Undefined.
Proof.
  intros W D Hk B. unfold xxtea.decrypt. rewrite packet.len_val, D by done. res_simpl.
  unfold xxtea_decrypt. change (Z.land (zlen []) 3 =? 0) with true. cbn [negb].
  rewrite xxtea_key_spec by done. res_simpl. cbv zeta.
  rewrite to_uint32_array_spec; [done | by apply Forall_replicate | done | done | done |].
  intros j Hj. simpl in Hj. lia.
Qed.

(** What the peer sends can stop [xxtea::decrypt]: a message whose length is not a multiple
    of 4 fails the assertion that precedes the error return, and an empty one divides by
    zero. *)
Theorem xxtea_decrypt_hostile `{memory} little c inp :
  packet.wf inp -> 0 < zlen (xxtea.m_key c) -> Forall byte_ok (xxtea.m_key c) ->
  (Z.land (zlen (packet.data inp)) 3 <> 0 -> xxtea.decrypt little c inp = Fault AssertFailed)
  /\ (packet.data inp = [] -> xxtea.decrypt little c inp = Fault Undefined).
Proof.
  intros W Hk B. split; [|intros D; by apply xxtea_decrypt_empty].
  intros Hl. unfold xxtea.decrypt. rewrite packet.len_val by done. res_simpl.
  unfold xxtea_decrypt. rewrite (proj2 (Z.eqb_neq _ _) Hl). cbn [negb].
  by rewrite (proj2 (Z.ltb_lt 0 (zlen (xxtea.m_key c)))) by done.
Qed.

Lemma xxtea_decrypt_hostile_witness :
  xxtea.decrypt true (xxtea.mk (replicate 16 0)) sample_packet = Fault AssertFailed.
Proof.
  apply (xxtea_decrypt_hostile true (xxtea.mk (replicate 16 0)) sample_packet sample_packet_wf).
  - done.
  - by apply Forall_replicate.
  - vm_compute. discriminate.
Defined.

(** An empty message is one block of one word, for which the rounds are not inverse. *)
Lemma xxtea_empty_not_inverse :
  exists e, xxtea_encrypt true [] [1; 2; 3] = Ok e /\ xxtea_decrypt true e [1; 2; 3] <> Ok (0, Some []).
Proof. eexists. split; [vm_compute; reflexivity | vm_compute; discriminate]. Qed.

(** A long ciphertext of a short length word fails the assertion on the lengths. *)
Lemma xxtea_length_word_asserts :
  exists w, wikipedia_btea_encrypt (replicate 9 0) 9 (replicate 4 0) = Ok w /\
    xxtea_decrypt true (bytes_of w) (replicate 16 0) = Fault AssertFailed.
Proof. eexists. split; [vm_compute; reflexivity | vm_compute; reflexivity]. Qed.

(** ** The packet interface *)
Lemma xxtea_set_key_ok k : 0 < zlen k <= 16 -> Forall byte_ok k ->
  exists c, xxtea.set_key k = Ok c /\ zlen (xxtea.m_key c) = 16 /\ Forall byte_ok (xxtea.m_key c).
Proof.
  intros Hk B. unfold xxtea.set_key. rewrite (proj2 (Z.ltb_lt 0 (zlen k))) by lia.
  rewrite (proj2 (Z.leb_le (zlen k) 16)) by lia. res_simpl. eexists. split; [done|].
  cbn [xxtea.m_key]. split.
  - rewrite zlen_app. unfold zlen at 2. rewrite length_replicate. lia.
  - apply Forall_app. split; [done | by apply Forall_replicate].
Qed.

(** A packet made for a block and filled with it. *)
Lemma make_write `{memory} bytes : zlen bytes <= packet.MAX_RIGHT_CAPACITY ->
  exists q, (p ← packet.make_right (zlen bytes); packet.write p bytes) = Ok q
    /\ packet.holds q bytes packet.INIT_LEFT_CAPACITY.
Proof.
  intros Hb. pose proof (zlen_nonneg bytes).
  destruct (packet.make_holds (zlen bytes)) as (p & E & Hp & Hr); [lia|]. rewrite E. res_simpl.
  apply (packet.write_fits p bytes [] _ Hp Hr). unfold packet.MAX_RIGHT_CAPACITY in *. range_lia.
Qed.

(** What [encrypt] makes of a packet, [decrypt] with the same key turns back. *)
Definition xxtea_enc (key data : list Z) : list Z :=
  match xxtea_encrypt true data key with Ok e => e | Fault _ => [] end.

Lemma xxtea_message data key : 0 < zlen data <= packet.MAX_RIGHT_CAPACITY ->
  Forall byte_ok data -> 0 < zlen key -> Forall byte_ok key ->
  (forall little, xxtea_encrypt little data key = Ok (xxtea_enc key data))
  /\ (forall little, xxtea_decrypt little (xxtea_enc key data) key = Ok (0, Some data))
  /\ zlen (xxtea_enc key data) = 4 * ((zlen data + 3) / 4) + 4
  /\ Forall byte_ok (xxtea_enc key data).
Proof.
  intros Hd Bd Hk Bk. unfold packet.MAX_RIGHT_CAPACITY in Hd.
  destruct (message_roundtrip data key) as (e & E & R & L & B); [done | done | done | lia |].
  unfold xxtea_enc. rewrite (E true). auto.
Qed.

Lemma xxtea_packet_encrypt `{memory} little c inp data :
  packet.wf inp -> packet.data inp = data -> 0 < zlen data <= packet.MAX_RIGHT_CAPACITY - 8 ->
  Forall byte_ok data -> 0 < zlen (xxtea.m_key c) -> Forall byte_ok (xxtea.m_key c) ->
  exists out, xxtea.encrypt little c inp = Ok out
    /\ packet.holds out (xxtea_enc (xxtea.m_key c) data) packet.INIT_LEFT_CAPACITY.
Proof.
  intros W <- Hd Bd Hk Bk.
  destruct (xxtea_message (packet.data inp) (xxtea.m_key c)) as (E & _ & L & _); [lia | done..|].
  unfold xxtea.encrypt. rewrite packet.len_val by done. res_simpl. rewrite E. res_simpl.
  apply make_write. rewrite L. unfold packet.MAX_RIGHT_CAPACITY in *. Z.div_mod_to_equations. lia.
Qed.

Lemma xxtea_packet_decrypt `{memory} little c inp data :
  packet.wf inp -> packet.data inp = xxtea_enc (xxtea.m_key c) data ->
  0 < zlen data <= packet.MAX_RIGHT_CAPACITY -> Forall byte_ok data ->
  0 < zlen (xxtea.m_key c) -> Forall byte_ok (xxtea.m_key c) ->
  exists out, xxtea.decrypt little c inp = Ok out /\ packet.holds out data packet.INIT_LEFT_CAPACITY.
Proof.
  intros W D Hd Bd Hk Bk.
  destruct (xxtea_message data (xxtea.m_key c)) as (_ & R & _); [done..|].
  unfold xxtea.decrypt. rewrite packet.len_val, D by done. res_simpl. rewrite R. res_simpl.
  cbn [Z.eqb check]. apply make_write. lia.
Qed.
