(* ===== verification/Obfuscate.v ===== *)
(** * Obfuscate: the masking of handshake frame types
    ([include/wawo/security/obfuscate.hpp])

    A value of [nbits] bits (8 or 16) is spread over the four bytes of a 32-bit
    word: [nbits / 4] of its bits in the low five bits of each byte, from a
    position that the byte's three high bits say, which come from a random
    number. *)

From S2P Require Import Prelude Xxtea.

(** The position field of group [j] in a word. *)
Definition field (r : Z) (j : nat) : Z :=
  Z.land (Z.land (Z.shiftr r (5 + Z.of_nat j * 8)) 7 mod 5) 255.

(** [obfuscate<UINT_X>]: [k] rounds of its loop are left; [b] and [bii] are the
    array entries of the round before. *)
Fixpoint obfuscate_loop (val r_u32 : Z) (pbcbc k i : nat) (b bii rr : Z) : Z :=
  match k with
  | O => rr
  | S k' =>
      let '(b, bii) := if (i mod pbcbc =? 0)%nat
                       then (field r_u32 (i / pbcbc), field r_u32 (i / pbcbc))
                       else ((b + 1) mod 5, bii) in
      let bi := if negb (Z.land val (Z.shiftl 1 (Z.of_nat i)) =? 0)
                then u8 (Z.lor 0 (Z.shiftl 1 b)) else 0 in
      let bi := u8 (Z.lor bi (Z.shiftl (Z.land 7 bii) 5)) in
      let rr := Z.lor rr (u32 (Z.shiftl bi (Z.of_nat (i / pbcbc) * 8))) in
      obfuscate_loop val r_u32 pbcbc k' (S i) b bii rr
  end.

Definition obfuscate (nbits : nat) (val r_u32 : Z) : Z :=
  obfuscate_loop val r_u32 (nbits / 4) nbits 0 0 0 0.

(** [deobfuscate<UINT_X>]. *)
Fixpoint deobfuscate_loop (val : Z) (nbits pbcbc k i : nat) (b r : Z) : Z :=
  match k with
  | O => r
  | S k' =>
      let b := if (i mod pbcbc =? 0)%nat then field val (i / pbcbc) else (b + 1) mod 5 in
      let bit := Z.land (Z.shiftr val (b + Z.of_nat (i / pbcbc) * 8)) 1 in
      let r := Z.lor r (Z.shiftl bit (Z.of_nat i)) mod 2 ^ Z.of_nat nbits in
      deobfuscate_loop val nbits pbcbc k' (S i) b r
  end.

Definition deobfuscate (nbits : nat) (val : Z) : Z :=
  deobfuscate_loop val nbits (nbits / 4) nbits 0 0 0.

Definition u8_obfuscate (val r_u32 : Z) : Z := obfuscate 8 val r_u32.
Definition u16_obfuscate (val r_u32 : Z) : Z := obfuscate 16 val r_u32.
Definition u8_deobfuscate (val : Z) : Z := deobfuscate 8 val.
Definition u16_deobfuscate (val : Z) : Z := deobfuscate 16 val.

(** ** One byte of the word *)

(** The byte of a group: its bits [k, k+m) from the position field [f]. *)
Fixpoint group (bits : nat -> bool) (f : Z) (m k : nat) : Z :=
  match m with
  | O => 0
  | S m' => Z.lor (Z.lor (if bits k then Z.shiftl 1 ((f + Z.of_nat k) mod 5) else 0) (Z.shiftl f 5))
                  (group bits f m' (S k))
  end.

Lemma field_range r j : 0 <= field r j < 5.
Proof.
  unfold field. change 255 with (Z.ones 8). rewrite Z.land_ones by lia.
  pose proof (Z.mod_pos_bound (Z.land (Z.shiftr r (5 + Z.of_nat j * 8)) 7) 5 ltac:(lia)).
  rewrite (Z.mod_small _ (2 ^ 8)) by (simpl; lia). lia.
Qed.

Lemma land_bit val i : negb (Z.land val (Z.shiftl 1 (Z.of_nat i)) =? 0) = Z.testbit val (Z.of_nat i).
Proof.
  rewrite Z.shiftl_1_l. destruct (Z.testbit val (Z.of_nat i)) eqn:E.
  - apply negb_true_iff, Z.eqb_neq. intros H. apply (f_equal (fun x => Z.testbit x (Z.of_nat i))) in H.
    rewrite Z.land_spec, E, Z.pow2_bits_true, Z.bits_0 in H by lia. done.
  - apply negb_false_iff, Z.eqb_eq. apply Z.bits_inj'. intros n Hn. rewrite Z.land_spec, Z.bits_0.
    destruct (Z.eq_dec n (Z.of_nat i)) as [->|Hne]; [by rewrite E|].
    rewrite Z.pow2_bits_false by lia. apply andb_false_r.
Qed.

(** The byte of one round. *)
Lemma round_byte (c : bool) b f : 0 <= b < 5 -> 0 <= f < 5 ->
  u8 (Z.lor (if c then u8 (Z.lor 0 (Z.shiftl 1 b)) else 0) (Z.shiftl (Z.land 7 f) 5))
  = Z.lor (if c then Z.shiftl 1 b else 0) (Z.shiftl f 5)
  /\ is_u8 (Z.lor (if c then Z.shiftl 1 b else 0) (Z.shiftl f 5)).
Proof.
  intros Hb Hf. assert (b = 0 \/ b = 1 \/ b = 2 \/ b = 3 \/ b = 4) as Eb by lia.
  assert (f = 0 \/ f = 1 \/ f = 2 \/ f = 3 \/ f = 4) as Ef by lia.
  destruct Eb as [->|[->|[->|[->| ->]]]]; destruct Ef as [->|[->|[->|[->| ->]]]]; destruct c;
    (split; [reflexivity | vm_compute; intuition discriminate]).
Qed.

Lemma shift_byte x (j : nat) : is_u8 x -> (j < 4)%nat ->
  u32 (Z.shiftl x (Z.of_nat j * 8)) = Z.shiftl x (Z.of_nat j * 8).
Proof.
  intros Hx Hj. apply u32_small. rewrite Z.shiftl_mul_pow2 by lia.
  assert (1 <= 2 ^ (Z.of_nat j * 8) <= 2 ^ 24)
    by (split; [apply Z.lt_pred_le, Z.pow_pos_nonneg; lia | apply Z.pow_le_mono_r; lia]).
  change (2 ^ 24) with 16777216 in *. unfold is_u8 in Hx. split; nia.
Qed.

(** The rounds of a group after its first. *)
Lemma group_rounds val r p j rest : (j < 4)%nat -> forall m k b rr,
  (0 < k)%nat -> (k + m = p)%nat -> b = (field r j + Z.of_nat k - 1) mod 5 ->
  exists b', obfuscate_loop val r p (m + rest) (j * p + k) b (field r j) rr
  = obfuscate_loop val r p rest (S j * p) b' (field r j)
      (Z.lor rr (Z.shiftl (group (fun t => Z.testbit val (Z.of_nat (j * p + t))) (field r j) m k)
                          (Z.of_nat j * 8))).
Proof.
  intros Hj. induction m as [|m IH]; intros k b rr Hk Hm ->.
  - eexists. cbn [group Nat.add]. rewrite Z.shiftl_0_l, Z.lor_0_r.
    by replace (j * p + k)%nat with (S j * p)%nat by lia.
  - cbn [Nat.add obfuscate_loop group].
    assert (E1 : ((j * p + k) mod p = k)%nat)
      by (rewrite Nat.add_comm, Nat.Div0.mod_add; apply Nat.mod_small; lia).
    assert (E2 : ((j * p + k) / p = j)%nat)
      by (rewrite Nat.add_comm, Nat.div_add, Nat.div_small by lia; lia).
    rewrite E1, E2. destruct (Nat.eqb_spec k 0); [lia|].
    assert (Eb : ((field r j + Z.of_nat k - 1) mod 5 + 1) mod 5 = (field r j + Z.of_nat k) mod 5)
      by (rewrite Zplus_mod_idemp_l; f_equal; lia).
    rewrite Eb. cbv zeta. rewrite land_bit.
    pose proof (field_range r j) as Hf.
    destruct (round_byte (Z.testbit val (Z.of_nat (j * p + k))) ((field r j + Z.of_nat k) mod 5) (field r j))
      as [R1 R2]; [apply Z.mod_pos_bound; lia | done |].
    rewrite R1. set (x := Z.lor (if Z.testbit val (Z.of_nat (j * p + k))
      then Z.shiftl 1 ((field r j + Z.of_nat k) mod 5) else 0) (Z.shiftl (field r j) 5)) in *.
    rewrite shift_byte by done.
    replace (S (j * p + k)) with (j * p + S k)%nat by lia.
    destruct (IH (S k) ((field r j + Z.of_nat k) mod 5) (Z.lor rr (Z.shiftl x (Z.of_nat j * 8))))
      as [b' E]; [lia | lia | f_equal; lia |].
    exists b'. rewrite E. f_equal. by rewrite Z.shiftl_lor, Z.lor_assoc.
Qed.

Lemma group_all val r p j rest b bii rr : (j < 4)%nat -> (0 < p)%nat ->
  exists b' bii', obfuscate_loop val r p (p + rest) (j * p) b bii rr
  = obfuscate_loop val r p rest (S j * p) b' bii'
      (Z.lor rr (Z.shiftl (group (fun t => Z.testbit val (Z.of_nat (j * p + t))) (field r j) p 0)
                          (Z.of_nat j * 8))).
Proof.
  intros Hj Hp. destruct p as [|p']; [lia|]. set (p := S p') in *.
  replace (p + rest)%nat with (S (p' + rest)) by lia. cbn [obfuscate_loop].
  rewrite Nat.Div0.mod_mul, Nat.div_mul by lia. cbn [Nat.eqb]. cbv zeta. rewrite land_bit.
  pose proof (field_range r j) as Hf.
  destruct (round_byte (Z.testbit val (Z.of_nat (j * p))) (field r j) (field r j) Hf Hf) as [R1 R2].
  rewrite R1, shift_byte by done. replace (S (j * p)) with (j * p + 1)%nat by lia.
  destruct (group_rounds val r p j rest Hj p' 1 (field r j) (Z.lor rr (Z.shiftl
    (Z.lor (if Z.testbit val (Z.of_nat (j * p)) then Z.shiftl 1 (field r j) else 0)
      (Z.shiftl (field r j) 5)) (Z.of_nat j * 8)))) as [b' E]; [lia | lia | |].
  { change (Z.of_nat 1) with 1. rewrite Z.add_simpl_r, Z.mod_small by done. done. }
  exists b', (field r j). rewrite E. f_equal. 
  assert (Eg : forall bits f, group bits f p 0 = Z.lor (Z.lor (if bits 0%nat
    then Z.shiftl 1 ((f + 0) mod 5) else 0) (Z.shiftl f 5)) (group bits f p' 1)) by done.
  rewrite Eg, Nat.add_0_r, Z.add_0_r, (Z.mod_small (field r j)) by done.
  by rewrite (Z.shiftl_lor _ (group _ _ _ _)), Z.lor_assoc.
Qed.

(** The whole word. *)
Lemma obfuscate_word val r p : (0 < p)%nat ->
  obfuscate_loop val r p (4 * p) 0 0 0 0
  = let g j := group (fun t => Z.testbit val (Z.of_nat (j * p + t))) (field r j) p 0 in
    le_word (g 0%nat) (g 1%nat) (g 2%nat) (g 3%nat).
Proof.
  intros Hp. replace (4 * p)%nat with (p + (p + (p + (p + 0))))%nat by lia.
  change 0%nat with (0 * p)%nat at 2.
  destruct (group_all val r p 0 (p + (p + (p + 0))) 0 0 0) as (b0 & i0 & ->); [lia | done |].
  destruct (group_all val r p 1 (p + (p + 0)) b0 i0
    (Z.lor 0 (Z.shiftl (group (fun t => Z.testbit val (Z.of_nat (0 * p + t))) (field r 0) p 0)
      (Z.of_nat 0 * 8)))) as (b1 & i1 & ->); [lia | done |].
  match goal with |- obfuscate_loop _ _ _ _ _ ?b ?i ?rr = _ =>
    destruct (group_all val r p 2 (p + 0) b i rr) as (b2 & i2 & ->); [lia | done |] end.
  match goal with |- obfuscate_loop _ _ _ _ _ ?b ?i ?rr = _ =>
    destruct (group_all val r p 3 0 b i rr) as (b3 & i3 & ->); [lia | done |] end.
  cbn [obfuscate_loop]. cbv zeta. unfold le_word. change (Z.of_nat 0 * 8) with 0.
  change (Z.of_nat 1 * 8) with 8. change (Z.of_nat 2 * 8) with 16. change (Z.of_nat 3 * 8) with 24.
  by rewrite Z.lor_0_l, Z.shiftl_0_r, <- !Z.lor_assoc.
Qed.

(** A byte carries its field and its bits. *)
Definition group_ok (p : nat) : Prop := forall bits f, 0 <= f < 5 ->
  let g := group bits f p 0 in
  is_u8 g /\ Z.land (Z.shiftr g 5) 7 = f
  /\ forall k, (k < p)%nat -> Z.testbit g ((f + Z.of_nat k) mod 5) = bits k.

Ltac group_cases :=
  intros bits f Hf; cbn [group];
  assert (f = 0 \/ f = 1 \/ f = 2 \/ f = 3 \/ f = 4) as Ef by lia.

Lemma group_ok_2 : group_ok 2.
Proof.
  group_cases. destruct Ef as [->|[->|[->|[->| ->]]]];
    destruct (bits 0%nat) eqn:B0; destruct (bits 1%nat) eqn:B1; cbv zeta;
    (split; [vm_compute; intuition discriminate|]; split; [reflexivity|]);
    intros [|[|k]] Hk; try lia; rewrite ?B0, ?B1; reflexivity.
Qed.

Lemma group_ok_4 : group_ok 4.
Proof.
  group_cases. destruct Ef as [->|[->|[->|[->| ->]]]];
    destruct (bits 0%nat) eqn:B0; destruct (bits 1%nat) eqn:B1;
    destruct (bits 2%nat) eqn:B2; destruct (bits 3%nat) eqn:B3; cbv zeta;
    (split; [vm_compute; intuition discriminate|]; split; [reflexivity|]);
    intros [|[|[|[|k]]]] Hk; try lia; rewrite ?B0, ?B1, ?B2, ?B3; reflexivity.
Qed.

(** ** Reading it back *)

(** [w] is a word whose bytes carry the bits of [val] in groups of [p]. *)
Definition carries (p : nat) (w val : Z) : Prop := forall j, (j < 4)%nat ->
  exists f, 0 <= f < 5 /\ field w j = f
  /\ forall k, (k < p)%nat ->
       Z.testbit w ((f + Z.of_nat k) mod 5 + Z.of_nat j * 8) = Z.testbit val (Z.of_nat (j * p + k)).

Lemma byte_bits w g j s : u8 (Z.shiftr w (Z.of_nat j * 8)) = g -> 0 <= s < 8 ->
  Z.testbit w (s + Z.of_nat j * 8) = Z.testbit g s.
Proof.
  intros <- Hs. unfold u8. change 256 with (2 ^ 8). rewrite Z.mod_pow2_bits_low by lia.
  by rewrite Z.shiftr_spec by lia.
Qed.

Lemma byte_field w g j f : u8 (Z.shiftr w (Z.of_nat j * 8)) = g -> Z.land (Z.shiftr g 5) 7 = f ->
  0 <= f < 5 -> field w j = f.
Proof.
  intros Hg E Hf. assert (E7 : Z.land (Z.shiftr w (5 + Z.of_nat j * 8)) 7 = f).
  { rewrite <- E, <- Hg. apply Z.bits_inj'. intros n Hn. rewrite !Z.land_spec.
    destruct (Z.lt_ge_cases n 3) as [Hlt|Hge].
    - rewrite !Z.shiftr_spec by lia. unfold u8. change 256 with (2 ^ 8).
      rewrite Z.mod_pow2_bits_low by lia. rewrite Z.shiftr_spec by lia. do 2 f_equal. lia.
    - change 7 with (Z.ones 3). rewrite Z.ones_spec_high by lia. by rewrite !andb_false_r. }
  unfold field. rewrite E7, Z.mod_small by done. change 255 with (Z.ones 8).
  rewrite Z.land_ones by lia. apply Z.mod_small. simpl. lia.
Qed.

Lemma obfuscate_carries p val r : group_ok p -> (0 < p)%nat ->
  carries p (obfuscate_loop val r p (4 * p) 0 0 0 0) val
  /\ is_u32 (obfuscate_loop val r p (4 * p) 0 0 0 0).
Proof.
  intros G Hp. rewrite obfuscate_word by done. cbv zeta.
  set (g := fun j => group (fun t => Z.testbit val (Z.of_nat (j * p + t))) (field r j) p 0).
  assert (B : forall j, is_u8 (g j)) by (intros j; apply G, field_range).
  pose proof (le_bytes_word (g 0%nat) (g 1%nat) (g 2%nat) (g 3%nat) (B _) (B _) (B _) (B _)) as E.
  set (w := le_word (g 0%nat) (g 1%nat) (g 2%nat) (g 3%nat)) in *.
  split; [|apply le_word_range; apply B].
  intros j Hj. assert (Ej : u8 (Z.shiftr w (Z.of_nat j * 8)) = g j).
  { unfold le_bytes in E. injection E as E0 E1 E2 E3.
    destruct j as [|[|[|[|j]]]]; [..|lia]; assumption. }
  destruct (G (fun t => Z.testbit val (Z.of_nat (j * p + t))) (field r j) (field_range r j))
    as (_ & F & K). fold (g j) in F, K.
  exists (field r j). split; [apply field_range|].
  split; [apply (byte_field w (g j)); [done | done | apply field_range]|].
  intros k Hk. rewrite (byte_bits w (g j)); [by apply K | done |].
  pose proof (Z.mod_pos_bound (field r j + Z.of_nat k) 5). lia.
Qed.

Lemma deobfuscate_rounds p w val nbits : carries p w val -> (0 < p)%nat -> nbits = (4 * p)%nat ->
  0 <= val -> forall k i b,
  (i + k = nbits)%nat -> ((i mod p)%nat <> 0%nat ->
     b = (field w (i / p) + Z.of_nat (i mod p) - 1) mod 5) ->
  deobfuscate_loop w nbits p k i b (val mod 2 ^ Z.of_nat i) = val mod 2 ^ Z.of_nat nbits.
Proof.
  intros C Hp Hn Hv. induction k as [|k IH]; intros i b Hi Hb; cbn [deobfuscate_loop].
  - by replace i with nbits by lia.
  - assert (Hj : (i / p < 4)%nat) by (apply Nat.Div0.div_lt_upper_bound; lia).
    assert (Hm : (i mod p < p)%nat) by (apply Nat.mod_upper_bound; lia).
    assert (Hdm : i = (i / p * p + i mod p)%nat)
      by (rewrite (Nat.div_mod_eq i p) at 1; lia).
    destruct (C (i / p)%nat Hj) as (f & Hf & Ef & K). specialize (K (i mod p)%nat Hm).
    rewrite <- Hdm in K.
    set (b' := if (i mod p =? 0)%nat then field w (i / p) else (b + 1) mod 5).
    assert (Eb : b' = (f + Z.of_nat (i mod p)) mod 5).
    { unfold b'. destruct (Nat.eqb_spec (i mod p) 0) as [E0|E0].
      - rewrite E0, Z.add_0_r, Z.mod_small by done. done.
      - rewrite (Hb E0), Ef, Zplus_mod_idemp_l. f_equal. lia. }
    cbv zeta. rewrite Eb. clear b' Eb.
    set (pos := (f + Z.of_nat (i mod p)) mod 5 + Z.of_nat (i / p) * 8) in *.
    assert (Hpos : 0 <= pos) by (pose proof (Z.mod_pos_bound (f + Z.of_nat (i mod p)) 5); lia).
    assert (Ebit : Z.land (Z.shiftr w pos) 1 = Z.b2z (Z.testbit val (Z.of_nat i))).
    { rewrite <- K. change 1 with (Z.ones 1). rewrite Z.land_ones by lia. change (2 ^ 1) with 2.
      rewrite <- Z.bit0_mod, Z.shiftr_spec by lia. by rewrite Z.add_0_l. }
    rewrite Ebit.
    assert (Er : Z.lor (val mod 2 ^ Z.of_nat i) (Z.shiftl (Z.b2z (Z.testbit val (Z.of_nat i))) (Z.of_nat i))
                 mod 2 ^ Z.of_nat nbits = val mod 2 ^ Z.of_nat (S i)).
    { apply Z.bits_inj'. intros n Hnn. destruct (Z.lt_ge_cases n (Z.of_nat nbits)) as [Hlt|Hge].
      - rewrite Z.mod_pow2_bits_low, Z.lor_spec, Z.shiftl_spec by lia.
        destruct (Z.lt_trichotomy n (Z.of_nat i)) as [H1|[->|H1]].
        + rewrite !Z.mod_pow2_bits_low by lia. rewrite (Z.testbit_neg_r (Z.b2z (Z.testbit val (Z.of_nat i)))) by lia. apply orb_false_r.
        + rewrite Z.mod_pow2_bits_high, Z.mod_pow2_bits_low, Z.sub_diag by lia.
          by rewrite Z.b2z_bit0.
        + rewrite !Z.mod_pow2_bits_high by lia. cbn [orb].
          replace (n - Z.of_nat i) with (Z.succ (n - Z.of_nat i - 1)) by lia.
          destruct (Z.testbit val (Z.of_nat i)); cbn [Z.b2z]; [|apply Z.bits_0].
          pose proof (Z.testbit_odd_succ 0 (n - Z.of_nat i - 1) ltac:(lia)) as E1.
          rewrite Z.bits_0 in E1. exact E1.
      - rewrite !Z.mod_pow2_bits_high by lia. done. }
    rewrite Er. apply IH; [lia|]. intros HS.
    assert (Hnext : (S i mod p = S (i mod p))%nat /\ (S i / p = i / p)%nat).
    { destruct (Nat.eq_dec (S (i mod p)) p) as [Ep|Ep].
      - exfalso. apply HS. replace (S i) with ((i / p + 1) * p)%nat by lia. apply Nat.Div0.mod_mul.
      - replace (S i) with (S (i mod p) + i / p * p)%nat by lia.
        rewrite Nat.Div0.mod_add, Nat.div_add, Nat.mod_small, Nat.div_small by lia. lia. }
    destruct Hnext as [-> ->]. rewrite Ef. f_equal. lia.
Qed.

Lemma obfuscate_lossless val r :
  (is_u8 val -> is_u32 (u8_obfuscate val r) /\ u8_deobfuscate (u8_obfuscate val r) = val)
  /\ (is_u16 val -> is_u32 (u16_obfuscate val r) /\ u16_deobfuscate (u16_obfuscate val r) = val).
Proof.
  assert (R : forall p, group_ok p -> (0 < p)%nat -> 0 <= val < 2 ^ Z.of_nat (4 * p) ->
    let w := obfuscate_loop val r p (4 * p) 0 0 0 0 in
    is_u32 w /\ deobfuscate_loop w (4 * p) p (4 * p) 0 0 0 = val).
  { intros p G Hp Hv. cbv zeta. destruct (obfuscate_carries p val r G Hp) as [C Hw]. split; [done|].
    pose proof (deobfuscate_rounds p _ val (4 * p) C Hp eq_refl ltac:(lia) (4 * p) 0 0) as D.
    change (Z.of_nat 0) with 0 in D. rewrite Z.pow_0_r, Z.mod_1_r in D. rewrite D; [|done|].
    - apply Z.mod_small. lia.
    - by rewrite Nat.Div0.mod_0_l. }
  split; intros Hv.
  - apply (R 2%nat group_ok_2); [lia | exact Hv].
  - apply (R 4%nat group_ok_4); [lia | exact Hv].
Qed.

(** ** Properties *)

(** Obfuscation is lossless: for every random word, the 32-bit word that [u8_obfuscate]
    (or [u16_obfuscate]) makes of an 8-bit (16-bit) value is turned back into that value by
    [u8_deobfuscate] ([u16_deobfuscate]), which does not know the random number. *)
Theorem obfuscate_roundtrip val r :
  (is_u8 val -> is_u32 (u8_obfuscate val r) /\ u8_deobfuscate (u8_obfuscate val r) = val)
  /\ (is_u16 val -> is_u32 (u16_obfuscate val r) /\ u16_deobfuscate (u16_obfuscate val r) = val).
Proof. exact (obfuscate_lossless val r). Qed.

Lemma obfuscate_roundtrip_witness :
  u8_deobfuscate (u8_obfuscate 11 0xdeadbeef) = 11
  /\ u16_deobfuscate (u16_obfuscate 0xabcd 0xdeadbeef) = 0xabcd.
Proof.
  split.
  - apply (obfuscate_roundtrip 11 0xdeadbeef). range_lia.
  - apply (obfuscate_roundtrip 0xabcd 0xdeadbeef). range_lia.
Defined.
