(* ===== verification/Tlp.v ===== *)
(** * Tlp: the transport layer protocols without encryption
    ([include/wawo/net/tlp/hlen_packet.hpp], [include/wawo/net/tlp/stream.hpp])

    - [Module hlen_packet]: messages behind a 32-bit length; the decoder is a
      state machine over the receive ring, verified against the interface
      [byte_queue] of Ring.
    - [Module stream]: the bytes as they come, in pieces of at most 128 KiB.

    The prefix symbol ([WAWO_PACKET_ADD_PREFIX_SYMBOL]) is off by default and
    does not compile; it is not modelled. *)

From S2P Require Import Prelude Bytes Ring Packet.

Definition OK : Z := 0.
Definition E_SOCKET_EMPTY_PACKET : Z := -30007.
Definition E_TLP_INVALID_PACKET : Z := -30017.
Definition E_TLP_SOCKET_BROKEN : Z := -30021.
Definition E_TLP_TRY_AGAIN : Z := -30022.

Module hlen_packet.
Inductive packetParseState : Type := S_READ_LEN | S_READ_CONTENT.

Record t : Type := mk { m_parse_state : packetParseState; m_size : Z }.

(** [m_size] is not initialised; it is written before it is read. *)
Definition make : t := mk S_READ_LEN 0.

Section hlen.
Context `{memory}.

(** The error code and the packet to send. *)
Definition encode (inp : packet.t) : res (Z * option packet.t) :=
  l ← packet.len inp;
  if l =? 0 then Ok (E_SOCKET_EMPTY_PACKET, None)
  else
    let o := packet.copy inp in
    o ← packet.write_left_T 4 o l;
    Ok (OK, Some o).

Context `{byte_queue Q}.

(** A packet of [m_size] bytes taken from the buffer. *)
Definition take_packet (buffer : Q) (m_size : Z) : res (Q * packet.t) :=
  pack ← packet.make_right m_size;
  '(buffer, bytes, nbytes) ← bq_read buffer m_size true;
  wawo_assert (nbytes =? m_size);;
  pack ← packet.forward_write_index (packet.store_at_begin pack bytes) m_size;
  Ok (buffer, pack).

(** The [do ... while (!bExit)] loop; [arrives] holds the packets so far. *)
Fixpoint decode_loop (fuel : nat) (d : t) (buffer : Q) (arrives : list packet.t) (size : Z)
    : res (t * Q * list packet.t * Z) :=
  match fuel with
  | O => Fault Diverged
  | S fuel' =>
      match m_parse_state d with
      | S_READ_LEN =>
          '(buffer, r) ← try_read_T 4 buffer;
          match r with
          | None => Ok (d, buffer, arrives, OK)
          | Some m_size =>
              wawo_assert (0 <? m_size);;
              if bq_capacity buffer <? m_size
              then Ok (mk S_READ_LEN m_size, buffer, arrives, E_TLP_SOCKET_BROKEN)
              else decode_loop fuel' (mk S_READ_CONTENT m_size) buffer arrives size
          end
      | S_READ_CONTENT =>
          wawo_assert (0 <? m_size d);;
          if m_size d =? 0 then Ok (d, buffer, arrives, E_TLP_INVALID_PACKET)
          else if bq_count buffer <? m_size d then Ok (d, buffer, arrives, OK)
          else if zlen arrives =? size then Ok (d, buffer, arrives, E_TLP_TRY_AGAIN)
          else
            '(buffer, pack) ← take_packet buffer (m_size d);
            wawo_assert (zlen arrives <? size);;
            decode_loop fuel' (mk S_READ_LEN (m_size d)) buffer (arrives ++ [pack]) size
      end
  end.

(** Every round but the last takes at least one byte from the buffer. *)
Definition decode_packets (d : t) (buffer : Q) (size : Z) : res (t * Q * list packet.t * Z) :=
  decode_loop (S (Z.to_nat (bq_count buffer))) d buffer [] size.
End hlen.
End hlen_packet.

Module stream.
Definition WAWO_STREAM_PIECE_MAX : Z := 1024 * 128.

Section stream.
Context `{memory}.

Definition encode (inp : packet.t) : Z * packet.t := (OK, packet.copy inp).

Context `{byte_queue Q}.

(** [cbc] is the count before the loop; a later piece may be asked for more
    bytes than are left. *)
Fixpoint decode_loop (fuel : nat) (cbc : Z) (buffer : Q) (arrives : list packet.t) (size : Z)
    : res (Q * list packet.t) :=
  match fuel with
  | O => Fault Diverged
  | S fuel' =>
      let ps := if WAWO_STREAM_PIECE_MAX <? cbc then WAWO_STREAM_PIECE_MAX else cbc in
      pack ← packet.make_right ps;
      '(buffer, bytes, brc) ← bq_read buffer ps true;
      wawo_assert (brc <=? ps);;
      pack ← packet.forward_write_index (packet.store_at_begin pack bytes) brc;
      wawo_assert (zlen arrives <? size);;
      let arrives := arrives ++ [pack] in
      if (0 <? bq_count buffer) && (zlen arrives <? size)
      then decode_loop fuel' cbc buffer arrives size
      else Ok (buffer, arrives)
  end.

Definition decode_packets (buffer : Q) (size : Z) : res (Q * list packet.t * Z) :=
  if bq_count buffer =? 0 then Ok (buffer, [], OK)
  else
    '(buffer, arrives) ← decode_loop (S (Z.to_nat (bq_count buffer))) (bq_count buffer) buffer [] size;
    Ok (buffer, arrives, if 0 <? bq_count buffer then E_TLP_TRY_AGAIN else OK).
End stream.
End stream.

(** ** Filling a packet in place *)
Section fill.
Context `{memory}.

Lemma fill_packet size bytes : 0 <= size <= packet.MAX_RIGHT_CAPACITY -> zlen bytes <= size ->
  exists p0 p, packet.make_right size = Ok p0
    /\ packet.forward_write_index (packet.store_at_begin p0 bytes) (zlen bytes) = Ok p
    /\ packet.holds p bytes packet.INIT_LEFT_CAPACITY.
Proof.
  intros Hs Hb. destruct (packet.make_holds size Hs) as (p & E & (W & D & L & R) & Hr).
  exists p. pose proof (packet.zlen_data p W) as Hd. rewrite D in Hd. change (zlen []) with 0 in Hd.
  rewrite packet.left_right_val in Hr by done. pose proof (zlen_nonneg bytes) as Hn.
  pose proof (packet.pack_capacity_val p W) as Hc. destruct W as [WL WR WI WW WB].
  assert (Hw : packet.m_write_idx p = packet.m_read_idx p) by lia.
  assert (HI : packet.INIT_LEFT_CAPACITY = 128) by done. rewrite HI in *.
  unfold packet.MAX_LEFT_CAPACITY, packet.MAX_RIGHT_CAPACITY in *.
  unfold packet.forward_write_index, packet.store_at_begin.
  change (packet._capacity (packet.mk ?b ?l ?r ?rc ?w)) with (l +₃₂ rc). cbn [packet.m_write_idx
    packet.m_left_capacity packet.m_right_capacity packet.m_read_idx packet.m_buffer].
  unfold packet._capacity in Hc. rewrite Hc, (u32_small (_ + _ - _)) by range_lia.
  rewrite (proj2 (Z.leb_le (zlen bytes) _)) by lia. res_simpl. eexists. do 2 (split; [done|]).
  rewrite (u32_small (_ + zlen bytes)) by range_lia.
  split; [|split; [|split; [done | done]]].
  - constructor; cbn; unfold packet.MAX_LEFT_CAPACITY, packet.MAX_RIGHT_CAPACITY;
      rewrite ?zlen_splice by lia; lia.
  - unfold packet.data. cbn. rewrite Hw. replace (packet.m_read_idx p + zlen bytes - packet.m_read_idx p)
      with (zlen bytes) by lia. apply slice_splice; lia.
Qed.
End fill.

(** ** Frames *)
Module frames.
Definition frame (m : list Z) : list Z := bytes_helper.write_u32 (zlen m) ++ m.

(** A message the decoder accepts with a buffer of capacity [cap]. *)
Definition ok_msg (cap : Z) (m : list Z) : Prop :=
  Forall byte_ok m /\ 0 < zlen m <= Z.min cap packet.MAX_RIGHT_CAPACITY.

(** The beginning of a frame, not all of it. *)
Definition incomplete (cap : Z) (tail : list Z) : Prop :=
  exists m rest, ok_msg cap m /\ frame m = tail ++ rest /\ rest <> [].

Lemma frame_bytes cap m : ok_msg cap m -> Forall byte_ok (frame m).
Proof. intros [B _]. apply Forall_app. split; [apply bytes_helper.write_impl_bytes | done]. Qed.

Lemma zlen_frame m : zlen (frame m) = 4 + zlen m.
Proof. unfold frame. rewrite zlen_app. unfold bytes_helper.write_u32.
  by rewrite bytes_helper.zlen_write_impl. Qed.

Lemma header_len v : length (bytes_helper.write_u32 v) = 4%nat.
Proof. apply bytes_helper.write_impl_length. Qed.

Lemma header_val v : is_u32 v -> bytes_helper.be_val (bytes_helper.write_u32 v) = v.
Proof. intros Hv. unfold bytes_helper.write_u32. rewrite bytes_helper.be_val_write.
  by apply Z.mod_small. Qed.

(** Two headers followed by the same bytes say the same length. *)
Lemma header_inj v w a b : is_u32 v -> is_u32 w ->
  bytes_helper.write_u32 v ++ a = bytes_helper.write_u32 w ++ b -> v = w /\ a = b.
Proof.
  intros Hv Hw E. apply app_inj_1 in E as [E1 E2]; [|by rewrite !header_len].
  split; [|done]. by rewrite <- (header_val v), <- (header_val w), E1.
Qed.

(** Nothing is the beginning of a frame. *)
Lemma incomplete_nil cap : 0 < cap -> incomplete cap [].
Proof.
  intros Hc. exists [0], (frame [0]). split; [|done]. split; [repeat constructor; done|].
  unfold zlen, packet.MAX_RIGHT_CAPACITY. simpl. lia.
Qed.

Lemma ok_msg_u32 cap m : ok_msg cap m -> is_u32 (zlen m).
Proof. intros [_ H]. unfold packet.MAX_RIGHT_CAPACITY in H. range_lia. Qed.
End frames.

Section decoder.
Context `{memory} `{byte_queue Q}.
Import hlen_packet frames.

(** The bytes the decoder still has to deliver: a length already read counts. *)
Definition pending (d : hlen_packet.t) (q : Q) : list Z :=
  match m_parse_state d with
  | S_READ_LEN => bq_contents q
  | S_READ_CONTENT => bytes_helper.write_u32 (m_size d) ++ bq_contents q
  end.

Record wf_dec (d : hlen_packet.t) (q : Q) : Prop := {
  dec_queue : bq_wf q;
  dec_bytes : Forall byte_ok (bq_contents q);
  dec_size : m_parse_state d = S_READ_CONTENT -> is_u32 (m_size d) /\ 0 < m_size d
}.

Lemma take_packet_spec q m rest cap : wf_dec hlen_packet.make q -> ok_msg cap m ->
  bq_contents q = m ++ rest ->
  exists q' p, take_packet q (zlen m) = Ok (q', p) /\ wf_dec hlen_packet.make q'
    /\ bq_capacity q' = bq_capacity q /\ bq_contents q' = rest
    /\ packet.holds p m packet.INIT_LEFT_CAPACITY.
Proof.
  intros [Wq B _] Hm E. pose proof (ok_msg_u32 _ _ Hm) as Hu. destruct Hm as [Bm Hm].
  unfold take_packet. destruct (fill_packet (zlen m) m) as (p0 & p & E0 & E1 & Hp); [lia | lia |].
  rewrite E0. res_simpl. destruct (bq_read_spec q (zlen m) true Wq Hu) as (q' & ER & W' & C' & D').
  rewrite ER. res_simpl. rewrite E in D' |- *.
  assert (Hz : Z.to_nat (zlen m) = length m) by (unfold zlen; lia).
  rewrite Hz in *. rewrite take_app_length, zlen_app in *. rewrite drop_app_length in D'.
  rewrite Z.min_l by (pose proof (zlen_nonneg rest); lia). rewrite Z.eqb_refl. res_simpl.
  rewrite E1. res_simpl. exists q', p. split; [done|]. split; [|auto].
  split; [done | | done]. rewrite D'. rewrite E in B. by apply Forall_app in B as [_ B].
Qed.

(** What a decoding run leaves and returns. *)
Definition decoded (cap : Z) (msgs : list (list Z)) (tail : list Z) (n : nat)
    (r : res (hlen_packet.t * Q * list packet.t * Z)) (acc : list packet.t) : Prop :=
  exists d q packs, r = Ok (d, q, acc ++ packs,
      if (n <? length msgs)%nat then E_TLP_TRY_AGAIN else OK)
    /\ Forall2 (fun p m => packet.holds p m packet.INIT_LEFT_CAPACITY) packs (take n msgs)
    /\ wf_dec d q /\ bq_capacity q = cap
    /\ pending d q = concat (map frame (drop n msgs)) ++ tail.

(** Every message of a stream is one the decoder accepts. *)
Definition room (size : Z) (acc : list packet.t) : nat := Z.to_nat (size - zlen acc).

Lemma wf_dec_make d q : wf_dec d q -> wf_dec hlen_packet.make q.
Proof. intros [W B S]. by split. Qed.

(** The rest of a stream cannot hold its first message when there is none. *)
Lemma incomplete_body cap v c : is_u32 v -> incomplete cap (bytes_helper.write_u32 v ++ c) ->
  zlen c < v.
Proof.
  intros Hv (m & rest & Hm & E & Hr). unfold frame in E. rewrite <- app_assoc in E.
  apply header_inj in E as [Ev ->]; [|by apply (ok_msg_u32 cap)|done].
  rewrite <- Ev, zlen_app. destruct rest; [done|]. unfold zlen. simpl. lia.
Qed.

Lemma incomplete_header cap c : incomplete cap c -> 4 <= zlen c ->
  exists v b, c = bytes_helper.write_u32 v ++ b /\ is_u32 v /\ 0 < v <= cap.
Proof.
  intros (m & rest & Hm & E & _) Hc. pose proof (ok_msg_u32 _ _ Hm) as Hu.
  exists (zlen m), (drop 4 c). destruct Hm as [_ Hm]. split; [|split; [done | lia]].
  rewrite <- (take_drop 4 c) at 1. f_equal. unfold frame in E.
  apply (f_equal (take 4)) in E. rewrite take_app_length' in E by (by rewrite header_len).
  rewrite take_app_le in E by (unfold zlen in Hc; lia). done.
Qed.

(** Reading a length that is there. *)
Lemma read_len_step d q v b fuel acc size :
  wf_dec d q -> m_parse_state d = S_READ_LEN -> bq_contents q = bytes_helper.write_u32 v ++ b ->
  is_u32 v -> 0 < v <= bq_capacity q ->
  exists q', decode_loop (S fuel) d q acc size = decode_loop fuel (mk S_READ_CONTENT v) q' acc size
    /\ wf_dec (mk S_READ_CONTENT v) q' /\ bq_capacity q' = bq_capacity q /\ bq_contents q' = b.
Proof.
  intros [W B S] Hs E Hv Hc. cbn [decode_loop]. rewrite Hs.
  pose proof (try_read_T_spec 4 q W B ltac:(lia)) as HT. rewrite E, zlen_app in HT.
  assert (Hz : zlen (bytes_helper.write_u32 v) = 4) by (unfold zlen; by rewrite header_len).
  rewrite Hz in HT. rewrite (proj2 (Z.ltb_ge _ _)) in HT by (pose proof (zlen_nonneg b); lia).
  destruct HT as (q' & ER & W' & C' & D'). rewrite ER. res_simpl.
  rewrite take_app_length' in * by (by rewrite header_len).
  rewrite drop_app_length' in D' by (by rewrite header_len). rewrite header_val by done.
  rewrite (proj2 (Z.ltb_lt 0 v)) by lia. res_simpl.
  rewrite (proj2 (Z.ltb_ge _ _)) by lia. exists q'. split; [done|].
  split; [|done]. split; [done | | intros _; split; [done | cbn; lia]].
  rewrite D'. rewrite E in B. by apply Forall_app in B as [_ B].
Qed.

(** From the two states, for the messages and the incomplete tail that are pending. *)
Definition content_spec (cap : Z) (msgs : list (list Z)) (tail : list Z) : Prop :=
  forall fuel d q acc size, wf_dec d q -> bq_capacity q = cap -> m_parse_state d = S_READ_CONTENT ->
  pending d q = concat (map frame msgs) ++ tail -> zlen acc <= size ->
  (length (bq_contents q) < fuel)%nat ->
  decoded cap msgs tail (room size acc) (decode_loop fuel d q acc size) acc.
Definition len_spec (cap : Z) (msgs : list (list Z)) (tail : list Z) : Prop :=
  forall fuel d q acc size, wf_dec d q -> bq_capacity q = cap -> m_parse_state d = S_READ_LEN ->
  pending d q = concat (map frame msgs) ++ tail -> zlen acc <= size ->
  (length (bq_contents q) < fuel)%nat ->
  decoded cap msgs tail (room size acc) (decode_loop fuel d q acc size) acc.

Lemma len_from_content cap msgs tail : Forall (ok_msg cap) msgs -> incomplete cap tail ->
  content_spec cap msgs tail -> len_spec cap msgs tail.
Proof.
  intros Hm Ht HC fuel d q acc size W C Hst P Hacc Hf. destruct fuel as [|fuel]; [lia|].
  unfold pending in P. rewrite Hst in P.
  destruct (Z.lt_ge_cases (zlen (bq_contents q)) 4) as [Hlt|Hge].
  - assert (msgs = []) as ->.
    { destruct msgs as [|m ms]; [done|]. exfalso. cbn [map concat] in P. rewrite P in Hlt.
      rewrite !zlen_app, zlen_frame in Hlt. pose proof (zlen_nonneg m).
      pose proof (zlen_nonneg (concat (map frame ms))). pose proof (zlen_nonneg tail). lia. }
    cbn [decode_loop]. rewrite Hst. destruct W as [W B S'].
    pose proof (try_read_T_spec 4 q W B ltac:(lia)) as HT.
    rewrite (proj2 (Z.ltb_lt _ _)) in HT by lia. rewrite HT. res_simpl.
    exists d, q, []. rewrite app_nil_r. split; [done|]. rewrite take_nil, drop_nil.
    split; [constructor|]. split; [done|]. split; [done|]. unfold pending. by rewrite Hst.
  - assert (exists v b, bq_contents q = bytes_helper.write_u32 v ++ b /\ is_u32 v /\ 0 < v <= cap)
      as (v & b & E & Hv & Hvc).
    { destruct msgs as [|m ms]; [cbn in P; rewrite P in *; by apply incomplete_header|].
      apply Forall_cons in Hm as [Hm _]. exists (zlen m), (m ++ concat (map frame ms) ++ tail).
      split; [by rewrite P; cbn [map concat]; unfold frame at 1; rewrite <- !app_assoc|].
      split; [by apply (ok_msg_u32 cap) | destruct Hm; lia]. }
    destruct (read_len_step d q v b fuel acc size W Hst E Hv ltac:(lia)) as (q' & -> & W' & C' & D').
    apply HC; [done | congruence | done | | done |].
    + unfold pending. cbn [m_parse_state m_size]. by rewrite D', <- E.
    + rewrite D'. rewrite E, length_app, header_len in Hf. lia.
Qed.

Lemma content_all cap tail : incomplete cap tail -> forall msgs, Forall (ok_msg cap) msgs ->
  content_spec cap msgs tail.
Proof.
  intros Ht. induction msgs as [|m ms IH]; intros Hm fuel d q acc size W C Hst P Hacc Hf;
    (destruct fuel as [|fuel]; [lia|]); destruct (dec_size _ _ W Hst) as [Hsu Hs0];
    cbn [decode_loop]; rewrite Hst, (proj2 (Z.ltb_lt 0 (m_size d))) by done; res_simpl;
    rewrite (proj2 (Z.eqb_neq (m_size d) 0)), bq_count_spec by (lia || apply W);
    pose proof P as P'; unfold pending in P'; rewrite Hst in P'.
  - cbn [map concat app] in P'. rewrite <- P' in Ht. apply incomplete_body in Ht; [|done].
    rewrite (proj2 (Z.ltb_lt _ _)) by done. exists d, q, []. rewrite app_nil_r, take_nil, drop_nil.
    split; [done|]. split; [constructor|]. auto.
  - apply Forall_cons in Hm as [Hm Hms]. cbn [map concat] in P'. unfold frame at 1 in P'.
    rewrite <- !app_assoc in P'.
    apply header_inj in P' as [Ev Ec]; [|done|by apply (ok_msg_u32 cap)]. rewrite Ev.
    rewrite (proj2 (Z.ltb_ge _ _)) by (rewrite Ec, zlen_app;
      pose proof (zlen_nonneg (concat (map frame ms) ++ tail)); lia).
    unfold room. destruct (Z.eqb_spec (zlen acc) size) as [Hsz|Hsz].
    + replace (Z.to_nat (size - zlen acc)) with 0%nat by lia.
      exists d, q, []. rewrite app_nil_r. cbn [take drop length]. split; [done|].
      split; [constructor|]. auto.
    + destruct (take_packet_spec q m (concat (map frame ms) ++ tail) cap) as (q' & p & ET & W' & C' & D' & Hp);
        [by apply (wf_dec_make d) | done | done |].
      rewrite ET. res_simpl. rewrite (proj2 (Z.ltb_lt _ _)) by lia. res_simpl.
      assert (HL : len_spec cap ms tail) by (apply len_from_content; [done | done | by apply IH]).
      assert (Hl1 : zlen (acc ++ [p]) = zlen acc + 1) by (rewrite zlen_app; done).
      destruct (HL fuel (mk S_READ_LEN (zlen m)) q' (acc ++ [p]) size)
        as (d2 & q2 & packs & ER & HF & W2 & C2 & P2).
      { destruct W'. by split. } { congruence. } { done. } { by unfold pending. } { lia. }
      { rewrite D'. rewrite Ec, length_app in Hf. destruct Hm as [_ Hm]. unfold zlen in Hm. lia. }
      unfold room in *. rewrite Hl1 in *.
      replace (Z.to_nat (size - zlen acc)) with (S (Z.to_nat (size - (zlen acc + 1)))) by lia.
      exists d2, q2, (p :: packs). rewrite ER, <- app_assoc. split; [done|].
      cbn [take drop]. split; [by constructor|]. auto.
Qed.

Lemma decode_spec cap msgs tail d q size : Forall (ok_msg cap) msgs -> incomplete cap tail ->
  wf_dec d q -> bq_capacity q = cap -> pending d q = concat (map frame msgs) ++ tail -> 0 <= size ->
  decoded cap msgs tail (Z.to_nat size) (decode_packets d q size) [].
Proof.
  intros Hm Ht W C P Hs. unfold decode_packets.
  assert (Hc : content_spec cap msgs tail) by (by apply content_all).
  assert (Hl : len_spec cap msgs tail) by (by apply len_from_content).
  replace (Z.to_nat size) with (room size []) by (unfold room, zlen; simpl; f_equal; lia).
  assert (Hf : (length (bq_contents q) < S (Z.to_nat (bq_count q)))%nat)
    by (rewrite bq_count_spec by apply W; unfold zlen; lia).
  destruct (m_parse_state d) eqn:Hst; [apply Hl | apply Hc]; done.
Qed.
End decoder.

(** ** A connection: chunks of any size are written to the buffer and drained

    After each chunk the decoder runs until it no longer says [E_TLP_TRY_AGAIN],
    [size] packets at a time, as [socket::handle_async_read] does. *)
Section connection.
Context `{memory} `{byte_queue Q}.
Import hlen_packet frames.

Fixpoint drain (fuel : nat) (d : hlen_packet.t) (q : Q) (size : Z)
    : res (hlen_packet.t * Q * list packet.t * Z) :=
  match fuel with
  | O => Fault Diverged
  | S fuel' =>
      '(d, q, packs, ec) ← decode_packets d q size;
      if ec =? E_TLP_TRY_AGAIN
      then '(d, q, more, ec) ← drain fuel' d q size; Ok (d, q, packs ++ more, ec)
      else Ok (d, q, packs, ec)
  end.

Fixpoint feed (d : hlen_packet.t) (q : Q) (chunks : list (list Z)) (size : Z)
    : res (hlen_packet.t * Q * list packet.t) :=
  match chunks with
  | [] => Ok (d, q, [])
  | c :: chunks' =>
      '(q, n) ← bq_write q c (zlen c);
      '(d, q, packs, ec) ← drain (S (Z.to_nat (bq_count q))) d q size;
      wawo_assert (ec =? OK);;
      '(d, q, more) ← feed d q chunks' size;
      Ok (d, q, packs ++ more)
  end.

(** The packets that carry the messages. *)
Definition carry (packs : list packet.t) (msgs : list (list Z)) : Prop :=
  Forall2 (fun p m => packet.holds p m packet.INIT_LEFT_CAPACITY) packs msgs.

Lemma drain_spec cap tail size : incomplete cap tail -> 0 < size -> forall fuel msgs d q,
  Forall (ok_msg cap) msgs -> wf_dec d q -> bq_capacity q = cap ->
  pending d q = concat (map frame msgs) ++ tail -> (length msgs < fuel)%nat ->
  exists d' q' packs, drain fuel d q size = Ok (d', q', packs, OK) /\ carry packs msgs
    /\ wf_dec d' q' /\ bq_capacity q' = cap /\ pending d' q' = tail.
Proof.
  intros Ht Hs. induction fuel as [|fuel IH]; intros msgs d q Hm W C P Hf; [lia|]. cbn [drain].
  destruct (decode_spec cap msgs tail d q size Hm Ht W C P ltac:(lia))
    as (d1 & q1 & packs & E & F & W1 & C1 & P1). rewrite E. res_simpl. cbn [app].
  destruct (Nat.ltb_spec (Z.to_nat size) (length msgs)) as [Hlt|Hge].
  - change (E_TLP_TRY_AGAIN =? E_TLP_TRY_AGAIN) with true. cbn match.
    destruct (IH (drop (Z.to_nat size) msgs) d1 q1) as (d2 & q2 & more & E2 & F2 & W2 & C2 & P2);
      [by apply Forall_drop | done | done | done | rewrite length_drop; lia |].
    rewrite E2. res_simpl. exists d2, q2, (packs ++ more). split; [done|]. split; [|auto].
    unfold carry. rewrite <- (take_drop (Z.to_nat size) msgs). by apply Forall2_app.
  - change (OK =? E_TLP_TRY_AGAIN) with false. cbn match. exists d1, q1, packs. split; [done|].
    rewrite take_ge in F by lia. rewrite drop_ge in P1 by lia. auto.
Qed.

(** A prefix of a stream of frames is whole frames and the beginning of the next one. *)
Lemma prefix_split cap : 0 < cap -> forall msgs c rest, Forall (ok_msg cap) msgs ->
  c ++ rest = concat (map frame msgs) ->
  exists k tail, c = concat (map frame (take k msgs)) ++ tail /\ incomplete cap tail
    /\ tail ++ rest = concat (map frame (drop k msgs)) /\ (k <= length msgs)%nat
    /\ (tail = [] \/ exists m, m ∈ drop k msgs /\ zlen tail < 4 + zlen m).
Proof.
  intros Hcap. induction msgs as [|m ms IH]; intros c rest Hm E.
  - exists 0%nat, []. apply app_eq_nil in E as [-> ->]. split; [done|]. split; [|auto].
    exists [0], (frame [0]). split; [|done]. split; [repeat constructor; done|].
    unfold zlen, packet.MAX_RIGHT_CAPACITY. simpl. lia.
  - apply Forall_cons in Hm as [Hm Hms]. cbn [map concat] in E.
    destruct (Nat.le_gt_cases (length (frame m)) (length c)) as [Hle|Hgt].
    + assert (Ec : c = frame m ++ drop (length (frame m)) c).
      { rewrite <- (take_drop (length (frame m)) c) at 1. f_equal.
        apply (f_equal (take (length (frame m)))) in E. rewrite take_app_length in E.
        by rewrite take_app_le in E by lia. }
      destruct (IH (drop (length (frame m)) c) rest Hms) as (k & tail & E1 & T & E2 & Hk & Hz).
      { rewrite Ec, <- app_assoc in E. by apply app_inv_head in E. }
      exists (S k), tail. cbn [take drop map concat length]. split; [by rewrite Ec at 1; rewrite E1 at 1; apply app_assoc|].
      split; [done|]. split; [done|]. split; [lia|].
      destruct Hz as [->|(m' & Hin & Hz)]; [by left|]. right. by exists m'.
    + exists 0%nat, c. cbn [take drop map concat app]. split; [done|]. split.
      * exists m, (drop (length c) (frame m)). split; [done|]. split.
        -- rewrite <- (take_drop (length c) (frame m)) at 1. f_equal.
           apply (f_equal (take (length c))) in E. rewrite take_app_length in E.
           by rewrite take_app_le in E by lia.
        -- intros Hn. apply (f_equal length) in Hn. rewrite length_drop in Hn. cbn [length] in Hn. lia.
      * split; [done|]. split; [lia|]. right. exists m. split; [by left|].
        rewrite <- zlen_frame. unfold zlen. lia.
Qed.

Lemma incomplete_no_frame cap m x : ok_msg cap m -> incomplete cap (frame m ++ x) -> False.
Proof.
  intros Hm Hi. unfold frame in Hi. rewrite <- app_assoc in Hi.
  apply incomplete_body in Hi; [|by apply (ok_msg_u32 cap)]. rewrite zlen_app in Hi.
  pose proof (zlen_nonneg x). lia.
Qed.

Lemma concat_length (msgs : list (list Z)) cap : Forall (ok_msg cap) msgs ->
  (length msgs <= length (concat (map frame msgs)))%nat.
Proof.
  induction 1 as [|m ms Hm _ IH]; [done|]. cbn [map concat length]. rewrite length_app.
  unfold frame at 1. rewrite length_app, header_len. lia.
Qed.
(** The room the messages ask for is never less than four bytes more than
    their number. *)
Lemma frames_room cap ms : Forall (ok_msg cap) ms -> ms <> [] ->
  (4 + length ms <= length (concat (map frame ms)))%nat.
Proof.
  intros Hm Hne. destruct ms as [|m0 ms0]; [done|].
  apply Forall_cons in Hm as [[_ H0'] Hms]. pose proof (concat_length ms0 cap Hms).
  cbn [map concat length]. rewrite length_app. unfold frame at 1.
  rewrite length_app, header_len. unfold zlen in H0'. lia.
Qed.
End connection.

Section delivery.
Context `{memory} `{byte_queue Q}.
Import hlen_packet frames.

(** A chunk that fits is queued behind what is pending. *)
Lemma queue_chunk d q c : wf_dec d q -> Forall byte_ok c -> 0 < zlen c ->
  zlen (bq_contents q) + zlen c <= bq_capacity q ->
  exists q1, bq_write q c (zlen c) = Ok (q1, zlen c) /\ wf_dec d q1
    /\ bq_capacity q1 = bq_capacity q /\ pending d q1 = pending d q ++ c.
Proof.
  intros W Bc Hc0 Hroom. pose proof (zlen_nonneg (bq_contents q)).
  assert (Hu : is_u32 (zlen c)) by (pose proof (bq_bound q (dec_queue _ _ W)); range_lia).
  destruct (bq_write_spec q c (zlen c) (dec_queue _ _ W) Hc0 Hu ltac:(lia)) as (q1 & EW & W1 & C1 & D1).
  rewrite Z.min_l in EW by lia. rewrite Z.min_l in D1 by lia.
  rewrite take_ge in D1 by (unfold zlen; lia).
  exists q1. split; [done|]. split; [|split; [done|]].
  - split; [done | | apply W]. rewrite D1. apply Forall_app. split; [apply W | done].
  - unfold pending. rewrite D1. destruct (m_parse_state d); [done | apply app_assoc].
Qed.

(** As many rounds of the drain as there are bytes queued are enough. *)
Lemma drain_fuel cap d q ms tail : wf_dec d q -> Forall (ok_msg cap) ms ->
  pending d q = concat (map frame ms) ++ tail -> (length ms < S (Z.to_nat (bq_count q)))%nat.
Proof.
  intros W Hm E1. rewrite bq_count_spec by apply W.
  destruct (decide (ms = [])) as [->|Hne]; [simpl; lia|].
  pose proof (frames_room cap ms Hm Hne).
  assert (length (pending d q) <= 4 + length (bq_contents q))%nat.
  { unfold pending. destruct (m_parse_state d); [lia|]. rewrite length_app, header_len. lia. }
  apply (f_equal length) in E1. rewrite length_app in E1. unfold zlen. lia.
Qed.

(** Feeding the rest of a stream. *)
Lemma feed_spec cap size : 0 < cap -> 0 < size -> forall chunks msgs d q,
  Forall (ok_msg cap) msgs -> wf_dec d q -> bq_capacity q = cap -> incomplete cap (pending d q) ->
  pending d q ++ concat chunks = concat (map frame msgs) ->
  (pending d q = [] \/ exists m, m ∈ msgs /\ zlen (pending d q) < 4 + zlen m) ->
  Forall (fun c => Forall byte_ok c /\ 0 < zlen c /\ zlen c <= cap
                   /\ forall m, m ∈ msgs -> 4 + zlen m + zlen c <= cap) chunks ->
  exists d' q' packs, feed d q chunks size = Ok (d', q', packs) /\ carry packs msgs
    /\ wf_dec d' q' /\ pending d' q' = [].
Proof.
  intros Hcap Hs. induction chunks as [|c chunks IH]; intros msgs d q Hm W C Hi P Hp Hc; cbn [feed].
  - cbn [concat] in P. rewrite app_nil_r in P.
    assert (msgs = []) as ->.
    { destruct msgs as [|m ms]; [done|]. exfalso. rewrite P in Hi. cbn [map concat] in Hi.
      apply Forall_cons in Hm as [Hm _]. by apply incomplete_no_frame in Hi. }
    exists d, q, []. split; [done|]. split; [constructor|]. auto.
  - apply Forall_cons in Hc as [(Bc & Hc0 & Hcc & Hcm) Hcs].
    assert (Hroom : zlen (bq_contents q) + zlen c <= cap).
    { assert (zlen (bq_contents q) <= zlen (pending d q)).
      { unfold pending. destruct (m_parse_state d); [lia|]. rewrite zlen_app.
        pose proof (zlen_nonneg (bytes_helper.write_u32 (m_size d))). lia. }
      destruct Hp as [E|(m & Hin & Hz)]; [|specialize (Hcm m Hin); lia].
      rewrite E in *. change (zlen []) with 0 in *. lia. }
    destruct (queue_chunk d q c W Bc Hc0 ltac:(lia)) as (q1 & EW & Wd & C1 & P1).
    rewrite EW. res_simpl.
    cbn [concat] in P. rewrite app_assoc, <- P1 in P.
    destruct (prefix_split cap Hcap msgs _ _ Hm P) as (k & tail & E1 & T & E2 & Hk & Hz).
    destruct (drain_spec cap tail size T Hs (S (Z.to_nat (bq_count q1))) (take k msgs) d q1)
      as (d2 & q2 & packs & ED & F & W2 & C2 & P2); [by apply Forall_take | done | congruence | done | |].
    { eapply (drain_fuel cap); [done | by apply Forall_take | exact E1]. }
    rewrite ED. res_simpl. change (OK =? OK) with true. res_simpl.
    destruct (IH (drop k msgs) d2 q2) as (d3 & q3 & more & E3 & F3 & W3 & P3);
      [by apply Forall_drop | done | congruence | by rewrite P2 | by rewrite P2 | | |].
    { by rewrite P2. }
    { eapply Forall_impl; [exact Hcs|]. intros x (B & X0 & X1 & X2). do 3 (split; [done|]).
      intros m Hin. apply X2. rewrite <- (take_drop k msgs). apply elem_of_app. by right. }
    rewrite E3. res_simpl. exists d3, q3, (packs ++ more). split; [done|]. split; [|auto].
    unfold carry. rewrite <- (take_drop k msgs). by apply Forall2_app.
Qed.

Lemma encode_frame inp : packet.wf inp -> 0 < zlen (packet.data inp) -> is_u32 (zlen (packet.data inp)) ->
  (exists o, encode inp = Ok (OK, Some o) /\ packet.wf o /\ packet.data o = frame (packet.data inp))
  \/ encode inp = Fault Thrown.
Proof.
  intros W Hd Hu. unfold encode. rewrite packet.len_val by done. res_simpl.
  rewrite (proj2 (Z.eqb_neq _ _)) by lia. destruct (packet.copy_spec inp W) as (W' & D' & _).
  rewrite packet.write_left_T_eq by lia.
  destruct (packet.write_left_spec (packet.copy inp)
    (bytes_helper.write_impl 4 (zlen (packet.data inp))) W') as [(o & E & Wo & Do)|[E _]];
    [by rewrite bytes_helper.zlen_write_impl | rewrite D'; by left | |].
  - rewrite E. res_simpl. left. exists o. split; [done|]. split; [done|]. by rewrite Do, D'.
  - rewrite E. by right.
Qed.

Lemma encode_holds inp b room : packet.holds inp b room -> 0 < zlen b -> is_u32 (zlen b) ->
  4 <= room <= packet.INIT_LEFT_CAPACITY ->
  exists o, encode inp = Ok (OK, Some o) /\ packet.holds o (frame b) (room - 4).
Proof.
  intros Hi Hb Hu Hr. pose proof (packet.copy_holds inp b room Hi) as Hc.
  destruct Hi as (W & <- & _). unfold encode. rewrite packet.len_val by done. res_simpl.
  rewrite (proj2 (Z.eqb_neq _ _)) by lia.
  destruct (packet.write_left_T_holds 4 (packet.copy inp) (zlen (packet.data inp)) _ _ Hc)
    as (o & E & Ho); [lia | change (Z.of_nat 4) with 4; lia | lia |].
  rewrite E. res_simpl. exists o. split; [done | exact Ho].
Qed.
End delivery.

(** ** Properties *)
Section properties.
Context `{memory} `{byte_queue Q}.
Import hlen_packet frames.

(** One call of [hlen_packet::decode_packets] on a buffer that holds any number of framed
    messages and the beginning of another (a length read by an earlier call counting as pending)
    returns the first [size] of them, in order and byte for byte; it says TLP_TRY_AGAIN exactly
    when complete messages are left, and what it leaves pending is precisely the rest. *)
Theorem hlen_decode_delivers msgs tail d (q : Q) size :
  Forall (ok_msg (bq_capacity q)) msgs -> incomplete (bq_capacity q) tail -> wf_dec d q ->
  pending d q = concat (map frame msgs) ++ tail -> 0 <= size ->
  exists d' q' packs,
    decode_packets d q size = Ok (d', q', packs,
      if (Z.to_nat size <? length msgs)%nat then E_TLP_TRY_AGAIN else OK)
    /\ map packet.data packs = take (Z.to_nat size) msgs
    /\ wf_dec d' q' /\ bq_capacity q' = bq_capacity q
    /\ pending d' q' = concat (map frame (drop (Z.to_nat size) msgs)) ++ tail.
Proof.
  intros Hm Ht W P Hs.
  destruct (decode_spec (bq_capacity q) msgs tail d q size Hm Ht W eq_refl P Hs)
    as (d' & q' & packs & E & F & W' & C' & P'). exists d', q', packs.
  split; [exact E|]. split; [|auto]. clear -F.
  induction F as [|p m ps ms (_ & Hd & _) _ IH]; [done|]. cbn. by rewrite Hd, IH.
Qed.

(** C27: framing is transparent: the frames that [encode] makes of non-empty packets, sent as one
    byte stream and received in chunks cut anywhere, are decoded to packets with exactly the
    data sent, in order, nothing being left over, as long as the receive buffer has room for a
    frame and a chunk. *)
Theorem hlen_stream_roundtrip ps os chunks (q : Q) size :
  Forall packet.wf ps -> Forall (fun p => ok_msg (bq_capacity q) (packet.data p)) ps ->
  Forall2 (fun p o => encode p = Ok (OK, Some o)) ps os ->
  bq_wf q -> bq_contents q = [] -> 0 < size ->
  concat chunks = concat (map packet.data os) ->
  Forall (fun c => 0 < zlen c <= bq_capacity q
                   /\ Forall (fun p => 4 + zlen (packet.data p) + zlen c <= bq_capacity q) ps) chunks ->
  exists d' q' packs, feed hlen_packet.make q chunks size = Ok (d', q', packs)
    /\ map packet.data packs = map packet.data ps /\ pending d' q' = [].
Proof.
  intros Wp Hp He Wq Hq Hs Hc Hch. set (msgs := map packet.data ps).
  assert (Hmsgs : Forall (ok_msg (bq_capacity q)) msgs) by (by apply Forall_map).
  assert (Ho : map packet.data os = map frame msgs).
  { unfold msgs. clear - Wp Hp He. revert Wp Hp. induction He as [|p o ps os E _ IH]; intros Wp Hp; [done|].
    apply Forall_cons in Wp as [W Wp]. apply Forall_cons in Hp as [Hm Hp]. cbn. rewrite IH by done.
    pose proof (ok_msg_u32 _ _ Hm) as Hu. destruct Hm as [_ Hm].
    destruct (encode_frame p W ltac:(lia) Hu) as [(o' & E' & _ & D)|E']; [|congruence].
    f_equal. congruence. }
  rewrite Ho in Hc. pose proof (bq_bound q Wq) as Hb.
  assert (Hbytes : Forall (Forall byte_ok) chunks).
  { apply Forall_concat. rewrite Hc. apply Forall_concat, Forall_map.
    eapply Forall_impl; [exact Hmsgs|]. intros m Hm. by apply (frame_bytes (bq_capacity q)). }
  destruct (feed_spec (bq_capacity q) size (proj1 Hb) Hs chunks msgs hlen_packet.make q Hmsgs)
    as (d' & q' & packs & E & F & _ & P); [| done | | | | |].
  - split; [done | rewrite Hq; constructor | done].
  - unfold pending. cbn. rewrite Hq. exists [0], (frame [0]). split; [|done].
    split; [repeat constructor; done|]. unfold zlen, packet.MAX_RIGHT_CAPACITY. simpl. lia.
  - unfold pending. cbn. by rewrite Hq.
  - left. unfold pending. cbn. done.
  - apply Forall_forall. intros c Hin. rewrite Forall_forall in Hbytes, Hch.
    destruct (Hch c Hin) as [Hz Hps]. split; [by apply Hbytes|]. do 2 (split; [lia|]).
    intros m Hm. unfold msgs in Hm. apply list_elem_of_fmap in Hm as (p & -> & Hp1).
    rewrite Forall_forall in Hps. by apply Hps.
  - exists d', q', packs. split; [done|]. split; [|done]. fold msgs. clear -F.
    induction F as [|p m ps' ms (_ & Hd & _) _ IH]; [done|]. cbn. by rewrite Hd, IH.
Qed.

(** What a length from the network can do to the decoder: a zero length fails an assertion;
    a length above the capacity of the buffer reports a broken connection, the four bytes being
    consumed and no packet returned. *)
Theorem hlen_decode_bad_length d (q : Q) v rest size :
  wf_dec d q -> m_parse_state d = S_READ_LEN -> is_u32 v ->
  bq_contents q = bytes_helper.write_u32 v ++ rest ->
  (v = 0 -> decode_packets d q size = Fault AssertFailed)
  /\ (bq_capacity q < v -> exists q', decode_packets d q size
        = Ok (mk S_READ_LEN v, q', [], E_TLP_SOCKET_BROKEN) /\ bq_contents q' = rest).
Proof.
  intros [W B S'] Hst Hv E. unfold decode_packets. cbn [decode_loop]. rewrite Hst.
  pose proof (try_read_T_spec 4 q W B ltac:(lia)) as HT. rewrite E, zlen_app in HT.
  assert (Hz : zlen (bytes_helper.write_u32 v) = 4) by (unfold zlen; by rewrite header_len).
  rewrite Hz in HT. rewrite (proj2 (Z.ltb_ge _ _)) in HT by (pose proof (zlen_nonneg rest); lia).
  destruct HT as (q' & ER & W' & C' & D'). rewrite ER. res_simpl.
  rewrite take_app_length' by (by rewrite header_len).
  rewrite drop_app_length' in D' by (by rewrite header_len). rewrite header_val by done.
  split; intros Hc.
  - subst v. done.
  - pose proof (bq_bound q W). rewrite (proj2 (Z.ltb_lt 0 v)) by lia. res_simpl.
    rewrite (proj2 (Z.ltb_lt (bq_capacity q') v)) by (rewrite C'; lia). by exists q'.
Qed.

Lemma stream_loop fuel : forall cbc (q : Q) arrives size,
  bq_wf q -> 0 < cbc < 4294967296 -> bq_contents q <> [] -> zlen arrives < size ->
  (length (bq_contents q) < fuel)%nat ->
  exists q' packs, stream.decode_loop fuel cbc q arrives size = Ok (q', arrives ++ packs)
    /\ bq_wf q' /\ concat (map packet.data packs) ++ bq_contents q' = bq_contents q
    /\ Forall (fun p => packet.wf p /\ 0 < zlen (packet.data p) <= stream.WAWO_STREAM_PIECE_MAX) packs
    /\ (bq_contents q' = [] \/ zlen (arrives ++ packs) = size).
Proof.
  induction fuel as [|fuel IH]; intros cbc q arrives size W Hcbc Hne Ha Hf; [lia|].
  cbn [stream.decode_loop]. cbv zeta. set (ps := if _ <? cbc then _ else cbc).
  assert (Hps : 0 < ps <= stream.WAWO_STREAM_PIECE_MAX).
  { unfold ps, stream.WAWO_STREAM_PIECE_MAX. destruct (Z.ltb_spec (1024 * 128) cbc); lia. }
  unfold stream.WAWO_STREAM_PIECE_MAX in Hps.
  destruct (bq_read_spec q ps true W ltac:(range_lia)) as (q' & ER & W' & C' & D').
  assert (Hc0 : 0 < zlen (bq_contents q)).
  { destruct (bq_contents q); [done|]. unfold zlen. simpl. lia. }
  assert (Hzt : zlen (take (Z.to_nat ps) (bq_contents q)) = Z.min ps (zlen (bq_contents q)))
    by (unfold zlen; rewrite length_take; lia).
  destruct (fill_packet ps (take (Z.to_nat ps) (bq_contents q))) as (p0 & p & E0 & E1 & Hp);
    [unfold packet.MAX_RIGHT_CAPACITY; lia | lia |].
  rewrite E0. res_simpl. rewrite ER. res_simpl. rewrite (proj2 (Z.leb_le _ ps)) by lia. res_simpl.
  rewrite <- Hzt, E1. res_simpl. rewrite (proj2 (Z.ltb_lt (zlen arrives) size)) by done. res_simpl.
  rewrite bq_count_spec by done. destruct Hp as (Wp & Dp & _).
  assert (HF : packet.wf p /\ 0 < zlen (packet.data p) <= stream.WAWO_STREAM_PIECE_MAX)
    by (rewrite Dp, Hzt; unfold stream.WAWO_STREAM_PIECE_MAX; split; [done | lia]).
  destruct (Z.ltb_spec 0 (zlen (bq_contents q'))) as [H0'|H0'];
    [destruct (Z.ltb_spec (zlen (arrives ++ [p])) size) as [Hlt|Hge]|]; cbn [andb].
  - destruct (IH cbc q' (arrives ++ [p]) size) as (q2 & packs & E & W2 & P2 & F2 & S2); [done | done | | done | |].
    { intros E. rewrite E in H0'. done. }
    { rewrite D', length_drop. unfold zlen in Hc0. lia. }
    rewrite E, <- app_assoc. exists q2, (p :: packs). cbn [app].
    split; [done|]. split; [done|]. split; [cbn [map concat]; rewrite <- app_assoc, P2, D', Dp;
      apply take_drop|]. split; [by constructor|]. rewrite <- app_assoc in S2. exact S2.
  - exists q', [p]. split; [done|]. split; [done|].
    split; [cbn [map concat]; rewrite app_nil_r, D', Dp; apply take_drop|].
    split; [by constructor|]. right. rewrite zlen_app in *. change (zlen [p]) with 1 in *. lia.
  - exists q', [p]. split; [done|]. split; [done|].
    split; [cbn [map concat]; rewrite app_nil_r, D', Dp; apply take_drop|].
    split; [by constructor|]. left. destruct (bq_contents q'); [done|]. unfold zlen in H0'. simpl in H0'. lia.
Qed.

(** [stream::decode_packets] hands over the buffered bytes unchanged and in order, in
    non-empty pieces of at most 128 KiB; it stops when the buffer is empty or [size] pieces are
    out, and says TLP_TRY_AGAIN exactly when bytes are left. *)
Theorem stream_decode_delivers (q : Q) size : bq_wf q -> 0 < size ->
  exists q' packs ec, stream.decode_packets q size = Ok (q', packs, ec)
    /\ bq_wf q' /\ concat (map packet.data packs) ++ bq_contents q' = bq_contents q
    /\ Forall (fun p => packet.wf p /\ 0 < zlen (packet.data p) <= stream.WAWO_STREAM_PIECE_MAX) packs
    /\ (bq_contents q' = [] /\ ec = OK \/ zlen packs = size /\ bq_contents q' <> [] /\ ec = E_TLP_TRY_AGAIN).
Proof.
  intros W Hs. unfold stream.decode_packets. rewrite bq_count_spec by done.
  destruct (bq_contents q) as [|b l] eqn:E.
  - exists q, [], OK. rewrite E. split; [done|]. split; [done|]. split; [done|].
    split; [constructor | by left].
  - rewrite <- E. assert (Hc0 : 0 < zlen (bq_contents q)) by (rewrite E; unfold zlen; simpl; lia).
    rewrite (proj2 (Z.eqb_neq _ _)) by lia.
    pose proof (bq_bound q W). pose proof (bq_fits q W).
    destruct (stream_loop (S (Z.to_nat (zlen (bq_contents q)))) (zlen (bq_contents q)) q [] size)
      as (q' & packs & EL & W' & P & F & St); [done | lia | by rewrite E | done | unfold zlen; lia |].
    rewrite EL. res_simpl. cbn [app] in *. rewrite bq_count_spec by done. do 3 eexists.
    split; [done|]. split; [done|]. split; [done|]. split; [done|].
    destruct (bq_contents q') as [|b' l']; [by left|]. right.
    destruct St as [St|St]; [done|]. done.
Qed.
End properties.

(** ** Witnesses *)
Section witnesses.
Import hlen_packet frames.

Definition tlp_ring (bytes : list Z) : bytes_ringbuffer.t :=
  bytes_ringbuffer.mk 2049 0 (zlen bytes) (bytes ++ replicate (2049 - length bytes) 0).

Lemma tlp_ring_wf bytes : (length bytes < 2049)%nat -> bytes_ringbuffer.wf (tlp_ring bytes).
Proof.
  intros L. unfold tlp_ring. constructor; cbn; unfold zlen.
  - unfold bytes_ringbuffer.MAX_RING_BUFFER_SIZE. lia.
  - lia.
  - lia.
  - rewrite length_app, length_replicate. lia.
Qed.

Lemma tlp_ring_contents bytes : bytes_ringbuffer.contents (tlp_ring bytes) = bytes.
Proof.
  unfold tlp_ring, bytes_ringbuffer.contents. cbn.
  rewrite (proj2 (Z.leb_le 0 _)) by apply zlen_nonneg. rewrite Z.sub_0_r. by apply slice_app_l.
Qed.

Lemma sample_incomplete : incomplete 2048 [].
Proof.
  exists [0], (frame [0]). split; [|done]. split; [repeat constructor; done|].
  vm_compute. intuition discriminate.
Qed.

Lemma hlen_decode_delivers_witness :
  exists d' q' packs,
    decode_packets hlen_packet.make (tlp_ring [0; 0; 0; 2; 7; 8; 0; 0; 0; 1; 9]) 1
    = Ok (d', q', packs, E_TLP_TRY_AGAIN) /\ map packet.data packs = [[7; 8]]
    /\ pending d' q' = [0; 0; 0; 1; 9].
Proof.
  assert (W : bytes_ringbuffer.wf (tlp_ring [0; 0; 0; 2; 7; 8; 0; 0; 0; 1; 9]))
    by (apply tlp_ring_wf; cbn [length]; lia).
  destruct (hlen_decode_delivers [[7; 8]; [9]] [] hlen_packet.make
    (tlp_ring [0; 0; 0; 2; 7; 8; 0; 0; 0; 1; 9]) 1) as (d' & q' & packs & E & D & _ & _ & P).
  - repeat constructor; vm_compute; intuition discriminate.
  - exact sample_incomplete.
  - split; [exact W | | done]. cbn. rewrite tlp_ring_contents.
    repeat constructor; vm_compute; intuition discriminate.
  - unfold pending. cbn. rewrite tlp_ring_contents. reflexivity.
  - done.
  - exists d', q', packs. split; [exact E|]. split; [exact D | exact P].
Defined.

Definition sample_framed : packet.t :=
  packet.mk (replicate 124 0 ++ [0; 0; 0; 3; 1; 2; 3] ++ replicate 253 0) 128 124 256 131.

Lemma hlen_stream_roundtrip_witness :
  exists d' q' packs,
    feed hlen_packet.make (tlp_ring []) [[0; 0]; [0; 3; 1]; [2; 3]] 5 = Ok (d', q', packs)
    /\ map packet.data packs = [[1; 2; 3]] /\ pending d' q' = [].
Proof.
  apply (hlen_stream_roundtrip [sample_packet] [sample_framed] [[0; 0]; [0; 3; 1]; [2; 3]]
    (tlp_ring []) 5).
  - repeat constructor; apply sample_packet_wf.
  - repeat constructor; vm_compute; intuition discriminate.
  - constructor; [reflexivity | constructor].
  - apply tlp_ring_wf. cbn [length]. lia.
  - apply tlp_ring_contents.
  - done.
  - reflexivity.
  - repeat constructor; vm_compute; intuition discriminate.
Defined.

Lemma hlen_decode_bad_length_witness :
  decode_packets hlen_packet.make (tlp_ring [0; 0; 0; 0; 9]) 5 = Fault AssertFailed.
Proof.
  apply (hlen_decode_bad_length hlen_packet.make (tlp_ring [0; 0; 0; 0; 9]) 0 [9] 5).
  - split; [apply tlp_ring_wf; cbn [length]; lia | | done]. cbn. rewrite tlp_ring_contents.
    repeat constructor; vm_compute; intuition discriminate.
  - done.
  - range_lia.
  - apply tlp_ring_contents.
  - done.
Defined.

Lemma stream_decode_delivers_witness :
  exists q' packs ec, stream.decode_packets (tlp_ring [4; 5]) 1 = Ok (q', packs, ec)
    /\ bq_wf q'
    /\ concat (map packet.data packs) ++ bq_contents q'
       = bq_contents (tlp_ring [4; 5])
    /\ Forall (fun p => packet.wf p /\ 0 < zlen (packet.data p) <= stream.WAWO_STREAM_PIECE_MAX) packs
    /\ (bq_contents q' = [] /\ ec = OK
        \/ zlen packs = 1 /\ bq_contents q' <> [] /\ ec = E_TLP_TRY_AGAIN).
Proof.
  apply (stream_decode_delivers (tlp_ring [4; 5]) 1).
  - apply tlp_ring_wf. cbn [length]. lia.
  - done.
Defined.
End witnesses.
