(* ===== verification/Dh.v ===== *)
(** * Dh: encrypted transport
    ([include/wawo/net/tlp/symmetric_encrypt.hpp],
    [include/wawo/net/tlp/dh_symmetric_encrypt.hpp],
    [include/wawo/security/cipher_abstract.hpp])

    - [Class cipher_abstract]: what the encrypted transports rely on in a cipher;
      [xxtea] is an instance.
    - [Module symmetric_encrypt]: enciphered messages in hlen frames, for any
      cipher.
    - [Module dh_symmetric_encrypt]: the key exchange that sets the cipher up.
      The model is the build with the obfuscated frame types (the default).

    The random numbers are arguments; so is the layout of [DH_Context] in memory
    ([cookie_context]), which a cookie is copied over. *)

From S2P Require Import Prelude Bytes Ring Packet Formula Xxtea Obfuscate Tlp.

(** ** The interface of a cipher

    [c_text c m] is the ciphertext of the message [m]; a message that has one is
    non-empty and fits a packet with the bytes the cipher adds. *)
Definition message_ok (m : list Z) : Prop :=
  Forall byte_ok m /\ 0 < zlen m <= packet.MAX_RIGHT_CAPACITY - 8.

Class cipher_abstract `{memory} (C : Type) := {
  c_wf : C -> Prop;
  c_text : C -> list Z -> list Z;
  c_encrypt : C -> packet.t -> res (Z * option packet.t);
  c_decrypt : C -> packet.t -> res (Z * option packet.t);
  c_text_ok c m : c_wf c -> message_ok m ->
    Forall byte_ok (c_text c m) /\ 0 < zlen (c_text c m) <= zlen m + 8;
  c_encrypt_spec c p : c_wf c -> packet.wf p -> message_ok (packet.data p) ->
    exists o, c_encrypt c p = Ok (OK, Some o)
      /\ packet.holds o (c_text c (packet.data p)) packet.INIT_LEFT_CAPACITY;
  c_decrypt_spec c p m : c_wf c -> packet.wf p -> message_ok m -> packet.data p = c_text c m ->
    exists o, c_decrypt c p = Ok (OK, Some o) /\ packet.holds o m packet.INIT_LEFT_CAPACITY
}.

(** A machine of either endianness runs the cipher. *)
#[export] Program Instance xxtea_cipher `{memory} (little : bool) : cipher_abstract xxtea.t := {|
  c_wf c := zlen (xxtea.m_key c) = 16 /\ Forall byte_ok (xxtea.m_key c);
  c_text c m := xxtea_enc (xxtea.m_key c) m;
  c_encrypt c p := o ← xxtea.encrypt little c p; Ok (OK, Some o);
  c_decrypt c p := o ← xxtea.decrypt little c p; Ok (OK, Some o)
|}.
Next Obligation.
  intros ? little c m [K B] [Bm Hm]. cbv beta in *. unfold packet.MAX_RIGHT_CAPACITY in Hm.
  destruct (xxtea_message m (xxtea.m_key c)) as (_ & _ & E & F);
    [unfold packet.MAX_RIGHT_CAPACITY; lia | done | lia | done |].
  split; [done|]. rewrite E. Z.div_mod_to_equations. lia.
Qed.
Next Obligation.
  intros ? little c p [K B] W [Bm Hm]. cbv beta in *.
  destruct (xxtea_packet_encrypt little c p (packet.data p)) as (o & E & Ho); [done | done | lia | done | lia | done |].
  rewrite E. res_simpl. eauto.
Qed.
Next Obligation.
  intros ? little c p m [K B] W [Bm Hm] D. cbv beta in *.
  destruct (xxtea_packet_decrypt little c p m) as (o & E & Ho); [done | done | lia | done | lia | done |].
  rewrite E. res_simpl. eauto.
Qed.

(** ** [symmetric_encrypt] *)
Module symmetric_encrypt.
Section symmetric.
Context `{memory} {C : Type} `{!cipher_abstract C}.

Record t : Type := mk { base : hlen_packet.t; m_cipher : option C }.
Definition make : t := mk hlen_packet.make None.
Definition set_cipher (c : C) (s : t) : t := mk (base s) (Some c).
Definition get_cipher (s : t) : option C := m_cipher s.

Definition encode (s : t) (inp : packet.t) : res (Z * option packet.t) :=
  match m_cipher s with
  | None => Fault AssertFailed
  | Some c =>
      '(rt, encrypted) ← c_encrypt c inp;
      if negb (rt =? OK) then Ok (rt, None)
      else match encrypted with
           | None => Fault Undefined
           | Some e => hlen_packet.encode e
           end
  end.

(** The packets of the buffer are replaced in place, up to the first that fails. *)
Fixpoint decrypt_loop (c : C) (outs done : list packet.t) (ec size : Z) : res (list packet.t * Z) :=
  match outs with
  | [] => Ok (done, ec)
  | p :: outs' =>
      '(rt, decrypted) ← c_decrypt c p;
      if negb (rt =? OK) then Ok (done, rt)
      else
        wawo_assert (zlen done <? size);;
        match decrypted with
        | None => Fault Undefined
        | Some d => decrypt_loop c outs' (done ++ [d]) ec size
        end
  end.

Context `{byte_queue Q}.

Definition decode_packets (s : t) (buffer : Q) (size : Z) : res (t * Q * list packet.t * Z) :=
  match m_cipher s with
  | None => Fault AssertFailed
  | Some c =>
      '(d, buffer, outs, ec) ← hlen_packet.decode_packets (base s) buffer size;
      '(outs, ec) ← decrypt_loop c outs [] ec size;
      Ok (mk d (m_cipher s), buffer, outs, ec)
  end.
End symmetric.
Arguments t : clear implicits.
End symmetric_encrypt.

(** ** [dh_symmetric_encrypt] *)
Module dh_symmetric_encrypt.

Definition F_HANDSHAKE_HELLO : Z := 1.
Definition F_HANDSHAKE_HELLO_RESP : Z := 2.
Definition F_HANDSHAKE_OK : Z := 3.

Definition CS_NONE : Z := 1.
Definition CS_XXTEA : Z := 2.
Definition CS_MAX : Z := 3.
Definition C_NONE : Z := 1.
Definition C_MAX : Z := 4.

Definition E_TLP_HANDSHAKE_DONE : Z := -30015.
Definition E_TLP_HANDSHAKING : Z := -30016.
Definition E_TLP_UNKNOWN_CIPHER : Z := -30018.
Definition E_TLP_HANDSHAKE_MESSAGE_CHECK_FAILED : Z := -30019.
Definition E_TLP_INVALID_STATE : Z := -30020.

(** ["MESSAGE"]. *)
Definition HOK_MESSAGE : list Z := [77; 69; 83; 83; 65; 71; 69].

Inductive DHState : Type := DH_IDLE | DH_HANDSHAKE | DH_DATA_TRANSFER | DH_CHANGE_KEY | DH_ERROR.
#[export] Instance DHState_eq_dec : EqDecision DHState.
Proof. solve_decision. Defined.

(** The arrays have [CS_MAX] and [C_MAX] entries, zeroed by the constructor. *)
Record DH_Context : Type := mk_context {
  dhfactor : DH_Factor;
  cipher_count : Z;
  ciphers : list Z;
  compress_count : Z;
  compress : list Z
}.
Definition zero_context : DH_Context := mk_context (mk_factor 0 0) 0 (replicate 3 0) 0 (replicate 4 0).

Section dh.
Context `{memory} (little : bool).
(** [DH_Context] read from the bytes of a cookie, and its size in memory. *)
Context (cookie_context : list Z -> DH_Context) (sizeof_DH_Context : Z).

#[local] Existing Instance xxtea_cipher.

Record t : Type := mk {
  sym : symmetric_encrypt.t xxtea.t;
  m_dhstate : DHState;
  m_context : DH_Context;
  m_cookie : option (list Z);
  m_cookie_size : Z
}.
Definition make : t := mk symmetric_encrypt.make DH_IDLE zero_context None 0.

Definition set_dhstate (v : DHState) (s : t) : t :=
  mk (sym s) v (m_context s) (m_cookie s) (m_cookie_size s).
Definition set_context (v : DH_Context) (s : t) : t :=
  mk (sym s) (m_dhstate s) v (m_cookie s) (m_cookie_size s).
Definition set_sym (v : symmetric_encrypt.t xxtea.t) (s : t) : t :=
  mk v (m_dhstate s) (m_context s) (m_cookie s) (m_cookie_size s).
Definition set_dhfactor (f : DH_Factor) (c : DH_Context) : DH_Context :=
  mk_context f (cipher_count c) (ciphers c) (compress_count c) (compress c).

(** The block has the size of the PREVIOUS cookie: a longer copy overflows it. *)
Definition handshake_assign_cookie (cookie : list Z) (s : t) : res t :=
  check (zlen cookie <=? m_cookie_size s) Undefined;;
  Ok (mk (sym s) (m_dhstate s) (m_context s) (Some cookie) (zlen cookie)).

(** [while (pub_key == 0 || priv_key == 0) dhfactor = dh_generate_factor()],
    from the random numbers drawn. *)
Fixpoint factor_loop (randoms : list Z) (f : DH_Factor) : res DH_Factor :=
  if (pub_key f =? 0) || (priv_key f =? 0) then
    match randoms with
    | [] => Fault Diverged
    | r :: randoms' => f' ← dh_generate_factor r; factor_loop randoms' f'
    end
  else Ok f.

(** [for (i < count) packet->write<u8_t>(values[i]&0xff)] on an array of [length values]. *)
Fixpoint write_list (k i : nat) (values : list Z) (p : packet.t) : res packet.t :=
  match k with
  | O => Ok p
  | S k' =>
      match values !! i with
      | None => Fault Undefined
      | Some v => p ← packet.write_T 1 p (Z.land v 255); write_list k' (S i) values p
      end
  end.

(** [packet()]. *)
Definition new_packet : res packet.t := packet.make_right packet.INIT_RIGHT_CAPACITY.

(** The hello and the error code. *)
Definition handshake_make_hello_packet (randoms : list Z) (r32 : Z) (s : t)
    : res (t * Z * option packet.t) :=
  c ← match m_cookie s with
      | Some cookie => wawo_assert (sizeof_DH_Context =? m_cookie_size s);; Ok (cookie_context cookie)
      | None => Ok (mk_context (dhfactor (m_context s)) 2 (<[1%nat := CS_NONE]> (<[0%nat := CS_XXTEA]> (ciphers (m_context s))))
                               1 (<[0%nat := C_NONE]> (compress (m_context s))))
      end;
  f ← factor_loop randoms (dhfactor c);
  let c := set_dhfactor f c in
  p ← new_packet;
  p ← packet.write_T 4 p (u8_obfuscate F_HANDSHAKE_HELLO r32);
  p ← packet.write_T 8 p (pub_key f);
  p ← packet.write_T 1 p (cipher_count c);
  p ← write_list (Z.to_nat (cipher_count c)) 0 (ciphers c) p;
  p ← packet.write_T 1 p (compress_count c);
  p ← write_list (Z.to_nat (compress_count c)) 0 (compress c) p;
  '(_, hello) ← hlen_packet.encode p;
  Ok (set_dhstate DH_HANDSHAKE (set_context c s), E_TLP_HANDSHAKING, hello).

(** [for (i < count) array[i] = in->read<u8_t>()] on an array of [max] entries:
    a larger count writes past its end. *)
Fixpoint read_list (k : nat) (max : Z) (got : list Z) (p : packet.t) : res (packet.t * list Z) :=
  match k with
  | O => Ok (p, got)
  | S k' =>
      '(p, v) ← packet.read_T 1 p;
      check (zlen got <? max) Undefined;;
      read_list k' max (got ++ [v]) p
  end.

Definition make_cipher_suite (id : Z) : res (option xxtea.t) :=
  if id =? CS_XXTEA then c ← xxtea.make; Ok (Some c) else Ok None.

(** The cipher of a key: [set_key(bkey, sizeof(u64_t))]. *)
Definition key_cipher (key : Z) : res xxtea.t :=
  xxtea.set_key (take 8 (bytes_helper.write_u64 key ++ replicate 8 0)).

(** The framed, enciphered "MESSAGE"; an error of the cipher is passed on. *)
Definition ok_packet (c : xxtea.t) (r32 : Z) : res (Z * option packet.t) :=
  message ← new_packet;
  message ← packet.write message HOK_MESSAGE;
  '(encrt, encrypted) ← c_encrypt (cipher_abstract := xxtea_cipher little) c message;
  if negb (encrt =? OK) then Ok (encrt, None)
  else
    match encrypted with
    | None => Fault Undefined
    | Some e =>
        e ← packet.write_left_T 4 e (u8_obfuscate F_HANDSHAKE_OK r32);
        '(_, o) ← hlen_packet.encode e;
        Ok (OK, o)
    end.

(** The framed answer to a hello. *)
Definition resp_packet (pub cipher_id compress_id r32 : Z) : res (option packet.t) :=
  p ← new_packet;
  p ← packet.write_T 4 p (u8_obfuscate F_HANDSHAKE_HELLO_RESP r32);
  p ← packet.write_T 8 p pub;
  p ← packet.write_T 1 p (Z.land cipher_id 255);
  p ← packet.write_T 1 p (Z.land compress_id 255);
  '(_, resp) ← hlen_packet.encode p;
  Ok resp.

(** The first case of [handshake_packet_arrive]. *)
Definition hello_arrive (randoms : list Z) (r1 r2 : Z) (inp : packet.t) (s : t)
    : res (t * Z * option packet.t) :=
  wawo_assert (bool_decide (m_dhstate s = DH_IDLE));;
  let s := set_dhstate DH_HANDSHAKE s in
  '(inp, hello_pub) ← packet.read_T 8 inp;
  '(inp, ccount) ← packet.read_T 1 inp;
  l ← packet.len inp;
  if negb (ccount <? l) then Ok (s, E_TLP_INVALID_PACKET, None)
  else
    '(inp, hello_ciphers) ← read_list (Z.to_nat ccount) CS_MAX [] inp;
    '(inp, zcount) ← packet.read_T 1 inp;
    l ← packet.len inp;
    if negb (zcount <=? l) then Ok (s, E_TLP_INVALID_PACKET, None)
    else
      '(inp, hello_compress) ← read_list (Z.to_nat zcount) C_MAX [] inp;
      l ← packet.len inp;
      wawo_assert (l =? 0);;
      f ← factor_loop randoms (dhfactor (m_context s));
      let s := set_context (set_dhfactor f (m_context s)) s in
      match hello_ciphers !! 0%nat, hello_compress !! 0%nat with
      | Some cipher_id, Some compress_id =>
          suite ← make_cipher_suite cipher_id;
          match suite with
          | None => Ok (s, E_TLP_UNKNOWN_CIPHER, None)
          | Some _ =>
              key ← dh_generate_key hello_pub (priv_key f);
              cipher ← key_cipher key;
              let s := set_sym (symmetric_encrypt.set_cipher cipher (sym s)) s in
              resp ← resp_packet (pub_key f) cipher_id compress_id r1;
              '(ec, msg) ← ok_packet cipher r2;
              if negb (ec =? OK) then Ok (s, ec, None)
              else
                match resp, msg with
                | Some resp, Some msg =>
                    l ← packet.len msg;
                    out ← packet.write resp (packet.data msg);
                    Ok (s, E_TLP_HANDSHAKING, Some out)
                | _, _ => Fault Undefined
                end
          end
      | _, _ => Fault Undefined (* an entry that was never set *)
      end.

Definition hello_resp_arrive (r1 : Z) (inp : packet.t) (s : t) : res (t * Z * option packet.t) :=
  wawo_assert (bool_decide (m_dhstate s = DH_HANDSHAKE));;
  l ← packet.len inp;
  if negb (10 <=? l) then Ok (s, E_TLP_INVALID_PACKET, None)
  else
    '(inp, resp_pub) ← packet.read_T 8 inp;
    '(inp, cipher_id) ← packet.read_T 1 inp;
    '(inp, _) ← packet.read_T 1 inp;
    l ← packet.len inp;
    wawo_assert (l =? 0);;
    suite ← make_cipher_suite cipher_id;
    match suite with
    | None => Ok (s, E_TLP_UNKNOWN_CIPHER, None)
    | Some _ =>
        wawo_assert (negb (priv_key (dhfactor (m_context s)) =? 0));;
        key ← dh_generate_key resp_pub (priv_key (dhfactor (m_context s)));
        cipher ← key_cipher key;
        let s := set_sym (symmetric_encrypt.set_cipher cipher (sym s)) s in
        '(ec, msg) ← ok_packet cipher r1;
        if negb (ec =? OK) then Ok (s, ec, None) else Ok (s, E_TLP_HANDSHAKING, msg)
    end.

(** [strncmp] with the seven characters of the message. *)
Definition ok_arrive (inp : packet.t) (s : t) : res (t * Z * option packet.t) :=
  wawo_assert (bool_decide (m_dhstate s = DH_HANDSHAKE));;
  match symmetric_encrypt.get_cipher (sym s) with
  | None => Fault AssertFailed
  | Some c =>
      '(rt, message) ← c_decrypt (cipher_abstract := xxtea_cipher little) c inp;
      if negb (rt =? OK) then Ok (s, rt, None)
      else
        match message with
        | None => Fault Undefined
        | Some m =>
            if bool_decide (slice (packet.m_buffer m) (packet.m_read_idx m) 7 = HOK_MESSAGE)
            then Ok (set_dhstate DH_DATA_TRANSFER s, E_TLP_HANDSHAKE_DONE, None)
            else Ok (s, E_TLP_HANDSHAKE_MESSAGE_CHECK_FAILED, None)
        end
  end.

Definition handshake_packet_arrive (randoms : list Z) (r1 r2 : Z) (inp : packet.t) (s : t)
    : res (t * Z * option packet.t) :=
  wawo_assert (negb (bool_decide (m_dhstate s = DH_DATA_TRANSFER)));;
  l ← packet.len inp;
  if negb (4 <? l) then Ok (s, E_TLP_INVALID_PACKET, None)
  else
    '(inp, w) ← packet.read_T 4 inp;
    let dh_frame := u8_deobfuscate w in
    if dh_frame =? F_HANDSHAKE_HELLO then hello_arrive randoms r1 r2 inp s
    else if dh_frame =? F_HANDSHAKE_HELLO_RESP then hello_resp_arrive r1 inp s
    else if dh_frame =? F_HANDSHAKE_OK then ok_arrive inp s
    else Ok (s, E_TLP_INVALID_PACKET, None).

Definition handshake_handshaking (s : t) : bool := bool_decide (m_dhstate s = DH_HANDSHAKE).
Definition handshake_done (s : t) : bool := bool_decide (m_dhstate s = DH_DATA_TRANSFER).

Definition encode (s : t) (inp : packet.t) : res (Z * option packet.t) :=
  if negb (bool_decide (m_dhstate s = DH_DATA_TRANSFER)) then Ok (E_TLP_INVALID_STATE, None)
  else symmetric_encrypt.encode (cipher_abstract0 := xxtea_cipher little) (sym s) inp.

Context `{byte_queue Q}.

(** The packets for the application, the error code ([ec_o] is the caller's
    variable, left alone in the states that are not implemented) and the packet
    to send. *)
Definition decode_packets (randoms : list Z) (r1 r2 : Z) (s : t) (buffer : Q) (size ec_o : Z)
    : res (t * Q * list packet.t * Z * option packet.t) :=
  match m_dhstate s with
  | DH_DATA_TRANSFER =>
      wawo_assert (0 <? size);;
      '(y, buffer, arrives, ec) ←
         symmetric_encrypt.decode_packets (cipher_abstract0 := xxtea_cipher little) (sym s) buffer size;
      Ok (set_sym y s, buffer, arrives, ec, None)
  | DH_IDLE | DH_HANDSHAKE =>
      '(d, buffer, arrives, ec) ← hlen_packet.decode_packets (symmetric_encrypt.base (sym s)) buffer 1;
      let s := set_sym (symmetric_encrypt.mk d (symmetric_encrypt.m_cipher (sym s))) s in
      match arrives with
      | [p] =>
          '(s, ec, out) ← handshake_packet_arrive randoms r1 r2 p s;
          Ok (s, buffer, [], ec, out)
      | _ => Ok (s, buffer, [], ec, None)
      end
  | DH_CHANGE_KEY | DH_ERROR => Ok (s, buffer, [], ec_o, None)
  end.
End dh.
End dh_symmetric_encrypt.
