(* ===== verification/DhProofs.v ===== *)
(** * DhProofs: the encrypted transport delivers what was sent, and the key
    exchange completes with one key on both sides *)

From S2P Require Import Prelude Bytes Ring Packet Formula Xxtea Obfuscate Tlp Dh.
Import hlen_packet frames.

(** ** Enciphered messages *)
Section symmetric.
Context `{memory} {C1 C2 : Type} `{CI1 : !cipher_abstract C1} `{CI2 : !cipher_abstract C2} `{byte_queue Q}.

Lemma symmetric_encode (s : symmetric_encrypt.t C1) c p :
  symmetric_encrypt.m_cipher s = Some c -> c_wf c -> packet.wf p -> message_ok (packet.data p) ->
  exists o, symmetric_encrypt.encode s p = Ok (OK, Some o)
    /\ packet.holds o (frame (c_text c (packet.data p))) (packet.INIT_LEFT_CAPACITY - 4).
Proof.
  intros Hc Wc Wp Hm. unfold symmetric_encrypt.encode. rewrite Hc.
  destruct (c_encrypt_spec c p Wc Wp Hm) as (e & E & He). rewrite E. res_simpl.
  change (negb (OK =? OK)) with false. cbn match.
  destruct (c_text_ok c _ Wc Hm) as [_ Hz]. destruct Hm as [_ Hm].
  apply encode_holds; [done | lia | unfold packet.MAX_RIGHT_CAPACITY in Hm; range_lia |].
  unfold packet.INIT_LEFT_CAPACITY. lia.
Qed.

Lemma decrypt_loop_spec (c : C2) ec size : c_wf c -> forall packs msgs done,
  Forall2 (fun p m => packet.holds p (c_text c m) packet.INIT_LEFT_CAPACITY) packs msgs ->
  Forall message_ok msgs -> zlen done + zlen msgs <= size ->
  exists outs, symmetric_encrypt.decrypt_loop c packs done ec size = Ok (done ++ outs, ec)
    /\ map packet.data outs = msgs /\ Forall packet.wf outs.
Proof.
  intros Wc. induction packs as [|p packs IH]; intros msgs done F Hm Hs; inversion F; subst;
    cbn [symmetric_encrypt.decrypt_loop].
  - exists []. by rewrite app_nil_r.
  - rename y into m, l' into ms. apply Forall_cons in Hm as [Hm Hms].
    match goal with X : packet.holds p _ _ |- _ => destruct X as (Wp & Dp & _) end.
    destruct (c_decrypt_spec c p m Wc Wp Hm Dp) as (o & E & (Wo & Do & _)). rewrite E. res_simpl.
    change (negb (OK =? OK)) with false. cbn match.
    assert (Hz : zlen (m :: ms) = 1 + zlen ms) by (unfold zlen; simpl; lia).
    pose proof (zlen_nonneg ms). rewrite (proj2 (Z.ltb_lt _ _)) by lia. res_simpl.
    destruct (IH ms (done ++ [o])) as (outs & EL & Do' & Wo'); [done | done | |].
    { rewrite zlen_app. change (zlen [o]) with 1. lia. }
    rewrite EL, <- app_assoc. exists (o :: outs). cbn. split; [done|].
    split; [by rewrite Do, Do' | by constructor].
Qed.

(** C26: encrypted transport: the frames that one side makes of packets are turned back, in order
    and byte for byte, into packets with the same data by a peer whose cipher agrees with the
    sender's; [size] packets at most are returned by a call, which says TLP_TRY_AGAIN exactly when
    messages are left, and the rest stays pending.  It holds for any cipher that satisfies the
    interface. *)
Theorem symmetric_stream_roundtrip (s1 : symmetric_encrypt.t C1) (s2 : symmetric_encrypt.t C2) c1 c2
    ps (q : Q) size :
  symmetric_encrypt.m_cipher s1 = Some c1 -> symmetric_encrypt.m_cipher s2 = Some c2 ->
  c_wf c1 -> c_wf c2 -> (forall m, message_ok m -> c_text c1 m = c_text c2 m) ->
  Forall (fun p => packet.wf p /\ message_ok (packet.data p)
                   /\ zlen (packet.data p) + 8 <= bq_capacity q) ps -> 0 <= size ->
  wf_dec (symmetric_encrypt.base s2) q ->
  exists os, Forall2 (fun p o => symmetric_encrypt.encode s1 p = Ok (OK, Some o)) ps os
    /\ (pending (symmetric_encrypt.base s2) q = concat (map packet.data os) ->
        exists s2' q' packs, symmetric_encrypt.decode_packets s2 q size
            = Ok (s2', q', packs, if (Z.to_nat size <? length ps)%nat then E_TLP_TRY_AGAIN else OK)
          /\ map packet.data packs = take (Z.to_nat size) (map packet.data ps)
          /\ symmetric_encrypt.m_cipher s2' = Some c2 /\ wf_dec (symmetric_encrypt.base s2') q'
          /\ pending (symmetric_encrypt.base s2') q'
             = concat (map packet.data (drop (Z.to_nat size) os))).
Proof.
  intros Hc1 Hc2 W1 W2 Ht Hps Hs Wd.
  assert (HE : exists os, Forall2 (fun p o => symmetric_encrypt.encode s1 p = Ok (OK, Some o)) ps os
    /\ map packet.data os = map (fun p => frame (c_text c2 (packet.data p))) ps).
  { clear Wd. induction Hps as [|p ps (Wp & Hm & Hz) _ (os & F & D)]; [by exists []|].
    destruct (symmetric_encode s1 c1 p Hc1 W1 Wp Hm) as (o & E & _ & Do & _).
    exists (o :: os). split; [by constructor|]. cbn. by rewrite Do, D, Ht. }
  destruct HE as (os & F & D). exists os. split; [done|]. intros P. rewrite D in P.
  set (msgs := map packet.data ps). set (texts := map (c_text c2) msgs).
  assert (Hmsgs : Forall message_ok msgs).
  { apply Forall_map. eapply Forall_impl; [exact Hps|]. by intros p (_ & Hm & _). }
  assert (Ef : map (fun p => frame (c_text c2 (packet.data p))) ps = map frame texts)
    by (unfold texts, msgs; by rewrite !map_map).
  assert (Htext : Forall (ok_msg (bq_capacity q)) texts).
  { unfold texts, msgs. rewrite map_map. apply Forall_map. eapply Forall_impl; [exact Hps|].
    intros p (_ & Hm & Hz). destruct (c_text_ok c2 _ W2 Hm) as [B L].
    destruct Hm as [_ Hm]. split; [done|]. lia. }
  rewrite Ef, <- (app_nil_r (concat _)) in P.
  pose proof (bq_bound q (dec_queue _ _ Wd)) as Hb.
  destruct (decode_spec (bq_capacity q) texts [] (symmetric_encrypt.base s2) q size Htext
    (incomplete_nil _ (proj1 Hb)) Wd eq_refl P Hs) as (d' & q' & packs & E & F' & W' & C' & P').
  unfold symmetric_encrypt.decode_packets. rewrite Hc2, E. res_simpl. cbn [app].
  unfold texts in F'. rewrite <- fmap_take in F'. apply Forall2_fmap_r in F'.
  destruct (decrypt_loop_spec c2 (if (Z.to_nat size <? length texts)%nat then E_TLP_TRY_AGAIN else OK)
    size W2 packs (take (Z.to_nat size) msgs) []) as (outs & EL & Do & Wo);
    [exact F' | by apply Forall_take | unfold zlen; rewrite length_take; simpl; lia |].
  rewrite EL. res_simpl. do 3 eexists. split.
  { unfold texts, msgs. rewrite !length_map. done. }
  split; [done|]. split; [done|]. split; [done|]. cbn [symmetric_encrypt.base].
  rewrite P', app_nil_r, <- !skipn_map, D, Ef. done.
Qed.
End symmetric.

(** ** Writing and reading a message field by field *)
Section fields.
Context `{memory}.

Lemma read_field n v p rest : packet.wf p -> packet.data p = bytes_helper.write_impl n v ++ rest ->
  Forall byte_ok rest -> 0 <= v < 256 ^ Z.of_nat n ->
  exists p', packet.read_T n p = Ok (p', v) /\ packet.wf p' /\ packet.data p' = rest.
Proof.
  intros W D B Hv. pose proof (bytes_helper.write_impl_length n v) as Hl.
  destruct (packet.read_T_spec n p W) as (p' & E & W' & D').
  - rewrite D. apply Forall_app. split; [apply bytes_helper.write_impl_bytes | done].
  - rewrite D, zlen_app, bytes_helper.zlen_write_impl. pose proof (zlen_nonneg rest). lia.
  - exists p'. rewrite E, D', D, take_app_length' by done. rewrite bytes_helper.be_val_write.
    rewrite Z.mod_small by done. rewrite drop_app_length' by done. done.
Qed.

(** A byte. *)
Lemma read_byte v p rest : packet.wf p -> packet.data p = v :: rest -> is_u8 v -> Forall byte_ok rest ->
  exists p', packet.read_T 1 p = Ok (p', v) /\ packet.wf p' /\ packet.data p' = rest.
Proof.
  intros W D Hv B. apply (read_field 1 v); [done | | done | exact Hv].
  rewrite D. cbn. rewrite Z.shiftr_0_r. change 255 with (Z.ones 8). rewrite Z.land_ones by lia.
  by rewrite Z.mod_small.
Qed.

Lemma write_byte p v b room : packet.holds p b room -> room <= packet.INIT_LEFT_CAPACITY -> is_u8 v ->
  zlen b <= 1024 -> exists q, packet.write_T 1 p v = Ok q /\ packet.holds q (b ++ [v]) room.
Proof.
  intros Hp Hr Hv Hb. destruct (packet.write_T_holds 1 p v b room Hp Hr) as (q & E & Hq); [lia | |].
  { unfold packet.INIT_LEFT_CAPACITY, packet.INCREMENT_RIGHT_SIZE, packet.MAX_RIGHT_CAPACITY. lia. }
  exists q. split; [done|]. revert Hq. cbn. rewrite Z.shiftr_0_r. change 255 with (Z.ones 8).
  rewrite Z.land_ones by lia. by rewrite Z.mod_small.
Qed.

Lemma write_field n p v b room : packet.holds p b room -> room <= packet.INIT_LEFT_CAPACITY ->
  (n <= 8)%nat -> zlen b <= 1024 ->
  exists q, packet.write_T n p v = Ok q /\ packet.holds q (b ++ bytes_helper.write_impl n v) room.
Proof.
  intros Hp Hr Hn Hb. apply packet.write_T_holds; [done | done | done |].
  unfold packet.INIT_LEFT_CAPACITY, packet.INCREMENT_RIGHT_SIZE, packet.MAX_RIGHT_CAPACITY. lia.
Qed.
End fields.

Import dh_symmetric_encrypt.

(** ** Keys *)

(** No power of the generator is 0 modulo [DH_q]. *)
Lemma power_nonzero n : 0 <= n -> DH_g ^ n mod DH_q <> 0.
Proof.
  intros Hn E. assert (Hr : Z.gcd (DH_g ^ n) DH_q = 1).
  { by apply Zdivisibility.Z.coprime_pow_l. }
  apply Z.mod_divide in E; [|done]. assert (D : (DH_q | Z.gcd (DH_g ^ n) DH_q))
    by (apply Z.gcd_greatest; [done | apply Z.divide_refl]).
  rewrite Hr in D. apply Z.divide_1_r in D. unfold DH_q in D. lia.
Qed.

Definition pub_of (r : Z) : Z := DH_g ^ powmod_exponent r DH_q mod DH_q.

Lemma pub_range r : is_u64 r -> 0 < pub_of r < DH_q.
Proof.
  intros Hr. unfold pub_of. pose proof (power_nonzero (powmod_exponent r DH_q) (exponent_nonneg r Hr)).
  pose proof (Z.mod_pos_bound (DH_g ^ powmod_exponent r DH_q) DH_q ltac:(done)). lia.
Qed.

(** The first non-zero random number is the private key. *)
Lemma factor_loop_ok r rs f : is_u64 r -> r <> 0 -> pub_key f = 0 ->
  factor_loop (r :: rs) f = Ok (mk_factor r (pub_of r)).
Proof.
  intros Hr H0 Hf. cbn [factor_loop]. rewrite Hf. cbn [Z.eqb orb]. rewrite factor_ok by done. res_simpl.
  pose proof (pub_range r Hr) as Hp. fold (pub_of r). destruct rs; cbn [factor_loop pub_key priv_key];
    by rewrite (proj2 (Z.eqb_neq (pub_of r) 0)), (proj2 (Z.eqb_neq r 0)) by lia.
Qed.

Lemma key_agree r1 r2 : is_u64 r1 -> is_u64 r2 ->
  exists k, dh_generate_key (pub_of r2) r1 = Ok k /\ dh_generate_key (pub_of r1) r2 = Ok k.
Proof.
  intros H1 H2. pose proof (pub_range r1 H1). pose proof (pub_range r2 H2).
  rewrite (key_ok _ r1), (key_ok _ r2) by (done || lia). eexists. split; [done|].
  unfold pub_of. f_equal. rewrite !Z.mod_pow_l. rewrite <- !Z.pow_mul_r by (by apply exponent_nonneg).
  by rewrite Z.mul_comm.
Qed.

(** The cipher of a key. *)
Lemma key_cipher_ok k : exists c, key_cipher k = Ok c
  /\ zlen (xxtea.m_key c) = 16 /\ Forall byte_ok (xxtea.m_key c).
Proof.
  unfold key_cipher. rewrite take_app_length' by (symmetry; apply bytes_helper.write_impl_length).
  apply xxtea_set_key_ok; [|apply bytes_helper.write_impl_bytes].
  unfold bytes_helper.write_u64. rewrite bytes_helper.zlen_write_impl. lia.
Qed.

Lemma xxtea_make_ok : exists c, xxtea.make = Ok c.
Proof. by eexists. Qed.

(** ** The frames of the handshake *)
Section handshake.
Context `{memory}.

Definition hello_bytes (r pub : Z) : list Z :=
  bytes_helper.write_impl 4 (u8_obfuscate F_HANDSHAKE_HELLO r)
  ++ bytes_helper.write_impl 8 pub ++ [2; 2; 1; 1; 1].
Definition resp_bytes (r pub : Z) : list Z :=
  bytes_helper.write_impl 4 (u8_obfuscate F_HANDSHAKE_HELLO_RESP r)
  ++ bytes_helper.write_impl 8 pub ++ [2; 1].
Definition ok_bytes (r : Z) (c : xxtea.t) : list Z :=
  bytes_helper.write_impl 4 (u8_obfuscate F_HANDSHAKE_OK r) ++ xxtea_enc (xxtea.m_key c) HOK_MESSAGE.

Definition key_wf (c : xxtea.t) : Prop := zlen (xxtea.m_key c) = 16 /\ Forall byte_ok (xxtea.m_key c).

Lemma HOK_ok : message_ok HOK_MESSAGE.
Proof. split; [repeat constructor; vm_compute; intuition discriminate|]. vm_compute. intuition discriminate. Qed.

Lemma new_packet_ok : exists p, new_packet = Ok p /\ packet.holds p [] packet.INIT_LEFT_CAPACITY.
Proof.
  destruct (packet.make_holds packet.INIT_RIGHT_CAPACITY) as (p & E & Hp & _); [done|]. eauto.
Qed.

(** One more field of a packet being written. *)
Ltac field_of q Hq :=
  match goal with
  | Hp : packet.holds ?p ?b _ |- context [packet.write_T 1 ?p ?v] =>
      destruct (write_byte p v b _ Hp) as (q & -> & Hq);
      [done | vm_compute; intuition discriminate
      | unfold zlen; rewrite ?length_app, ?bytes_helper.write_impl_length; simpl; lia |]
  | Hp : packet.holds ?p ?b _ |- context [packet.write_T ?n ?p ?v] =>
      destruct (write_field n p v b _ Hp) as (q & -> & Hq);
      [done | lia | unfold zlen; rewrite ?length_app, ?bytes_helper.write_impl_length; simpl; lia |]
  end; res_simpl.

Lemma make_hello_ok (cookie_context : list Z -> DH_Context) sizeof_DH_Context r rs r32 : is_u64 r -> r <> 0 ->
  exists c h, handshake_make_hello_packet cookie_context sizeof_DH_Context (r :: rs) r32 make
      = Ok (c, E_TLP_HANDSHAKING, Some h)
    /\ packet.data h = frame (hello_bytes r32 (pub_of r))
    /\ m_dhstate c = DH_HANDSHAKE /\ dhfactor (m_context c) = mk_factor r (pub_of r)
    /\ sym c = symmetric_encrypt.make.
Proof.
  intros Hr H0. unfold handshake_make_hello_packet. cbn [make m_cookie m_context dhfactor]. res_simpl.
  rewrite factor_loop_ok by done. res_simpl.
  destruct new_packet_ok as (p & -> & Hp). res_simpl. cbn [pub_key set_dhfactor cipher_count ciphers
    compress_count compress zero_context].
  field_of q0 Hq0. field_of q1 Hq1. field_of q2 Hq2.
  change (write_list (Z.to_nat 2) 0 (<[1%nat:=CS_NONE]> (<[0%nat:=CS_XXTEA]> (replicate 3 0))) q2)
    with (p ← packet.write_T 1 q2 2; p ← packet.write_T 1 p 1; Ok p).
  field_of q3 Hq3. field_of q4 Hq4. field_of q5 Hq5.
  change (write_list (Z.to_nat 1) 0 (<[0%nat:=C_NONE]> (replicate 4 0)) q5)
    with (p ← packet.write_T 1 q5 1; Ok p).
  field_of q6 Hq6. rewrite <- !app_assoc in Hq6. cbn [app] in Hq6. fold (hello_bytes r32 (pub_of r)) in Hq6.
  destruct (encode_holds q6 _ _ Hq6) as (o & -> & (_ & Do & _));
    [done | done | vm_compute; intuition discriminate |].
  res_simpl. do 2 eexists. split; [done|]. auto.
Qed.

(** The enciphered message of a side. *)
Lemma ok_packet_ok (little : bool) c r32 : key_wf c ->
  exists o, ok_packet little c r32 = Ok (OK, Some o) /\ packet.wf o
    /\ packet.data o = frame (ok_bytes r32 c).
Proof.
  intros Hc. unfold ok_packet. destruct new_packet_ok as (p & -> & Hp). res_simpl.
  destruct (packet.write_holds p HOK_MESSAGE _ _ Hp) as (q & -> & (Wq & Dq & _)); [done | done |]. res_simpl.
  cbn [app] in Dq.
  destruct (c_encrypt_spec (cipher_abstract := xxtea_cipher little) c q Hc Wq) as (e & -> & He);
    [rewrite Dq; apply HOK_ok|].
  res_simpl. change (negb (OK =? OK)) with false. cbn match. rewrite Dq in He.
  destruct (packet.write_left_T_holds 4 e (u8_obfuscate F_HANDSHAKE_OK r32) _ _ He) as (e' & -> & He');
    [lia | done | done |].
  res_simpl. change (c_text c HOK_MESSAGE) with (xxtea_enc (xxtea.m_key c) HOK_MESSAGE) in He'.
  fold (ok_bytes r32 c) in He'. assert (Hz : 0 < zlen (ok_bytes r32 c) < 4294967296).
  { unfold ok_bytes. rewrite zlen_app, bytes_helper.zlen_write_impl.
    destruct (c_text_ok (cipher_abstract := xxtea_cipher little) c HOK_MESSAGE Hc HOK_ok) as [_ L].
    change (c_text c HOK_MESSAGE) with (xxtea_enc (xxtea.m_key c) HOK_MESSAGE) in L.
    change (zlen HOK_MESSAGE) with 7 in L. lia. }
  destruct (encode_holds e' _ _ He') as (o & -> & (Wo & Do & _)); [lia | range_lia | done |].
  res_simpl. eauto.
Qed.

Lemma ok_bytes_len r32 c : key_wf c -> zlen (ok_bytes r32 c) = 16.
Proof.
  intros [K B]. unfold ok_bytes. rewrite zlen_app, bytes_helper.zlen_write_impl.
  destruct (xxtea_message HOK_MESSAGE (xxtea.m_key c)) as (_ & _ & -> & _);
    [done | apply HOK_ok | lia | done |]. done.
Qed.

(** The answer to a hello. *)
Lemma resp_packet_ok r32 pub : exists o, resp_packet pub 2 1 r32 = Ok (Some o)
  /\ packet.holds o (frame (resp_bytes r32 pub)) (packet.INIT_LEFT_CAPACITY - 4).
Proof.
  unfold resp_packet. destruct new_packet_ok as (q & -> & Hq). res_simpl.
  field_of q0 Hq0. field_of q1 Hq1. change (Z.land 2 255) with 2. change (Z.land 1 255) with 1.
  field_of q2 Hq2. field_of q3 Hq3. rewrite <- !app_assoc in Hq3. cbn [app] in Hq3.
  fold (resp_bytes r32 pub) in Hq3.
  destruct (encode_holds q3 _ _ Hq3) as (o & -> & Ho); [done | done | vm_compute; intuition discriminate |].
  res_simpl. eauto.
Qed.

(** The type of a frame is recovered; the case is taken with the rest of it. *)
Lemma arrive_case (little : bool) rnds r1 r2 inp s v r rest : is_u8 v ->
  m_dhstate s <> DH_DATA_TRANSFER -> packet.wf inp ->
  packet.data inp = bytes_helper.write_impl 4 (u8_obfuscate v r) ++ rest ->
  Forall byte_ok rest -> rest <> [] ->
  exists inp', packet.wf inp' /\ packet.data inp' = rest
    /\ handshake_packet_arrive little rnds r1 r2 inp s
       = if v =? F_HANDSHAKE_HELLO then hello_arrive little rnds r1 r2 inp' s
         else if v =? F_HANDSHAKE_HELLO_RESP then hello_resp_arrive little r1 inp' s
         else if v =? F_HANDSHAKE_OK then ok_arrive little inp' s
         else Ok (s, E_TLP_INVALID_PACKET, None).
Proof.
  intros Hv Hst W D B Hne. destruct (obfuscate_lossless v r) as [O _]. destruct (O Hv) as [Ou Od].
  destruct (read_field 4 (u8_obfuscate v r) inp rest W D B Ou) as (inp' & E & W' & D').
  exists inp'. do 2 (split; [done|]). unfold handshake_packet_arrive.
  rewrite (bool_decide_eq_false_2 _ Hst). res_simpl. rewrite packet.len_val by done. res_simpl.
  cbn [negb check mbind res_bind].
  rewrite D, zlen_app, bytes_helper.zlen_write_impl. change (Z.of_nat 4) with 4.
  rewrite (proj2 (Z.ltb_lt 4 _)) by (destruct rest; [done | unfold zlen; simpl; lia]).
  cbn [negb]. rewrite E. res_simpl. by rewrite Od.
Qed.

(** Reading a list of one byte values. *)
Lemma read_list_ok l max got : forall p rest, packet.wf p -> packet.data p = l ++ rest ->
  Forall is_u8 l -> Forall byte_ok rest -> zlen got + zlen l <= max ->
  exists p', read_list (length l) max got p = Ok (p', got ++ l)
    /\ packet.wf p' /\ packet.data p' = rest.
Proof.
  revert got. induction l as [|v l IH]; intros got p rest W D Bl B Hm; cbn [length read_list].
  - rewrite app_nil_r. eauto.
  - apply Forall_cons in Bl as [Hv Bl].
    destruct (read_byte v p (l ++ rest) W D Hv) as (p1 & E & W1 & D1);
      [apply Forall_app; split; [exact Bl | done]|].
    rewrite E. res_simpl. assert (Hz : zlen (v :: l) = 1 + zlen l) by (unfold zlen; simpl; lia).
    pose proof (zlen_nonneg l). rewrite (proj2 (Z.ltb_lt _ _)) by lia. res_simpl.
    destruct (IH (got ++ [v]) p1 rest W1 D1 Bl B) as (p' & E' & W' & D').
    { rewrite zlen_app. change (zlen [v]) with 1. lia. }
    rewrite E', <- app_assoc. eauto.
Qed.

Lemma hello_arrive_ok (little : bool) ra rb rs r1 r2 inp s : is_u64 ra -> is_u64 rb -> rb <> 0 ->
  m_dhstate s = DH_IDLE -> pub_key (dhfactor (m_context s)) = 0 -> packet.wf inp ->
  packet.data inp = bytes_helper.write_impl 8 (pub_of ra) ++ [2; 2; 1; 1; 1] ->
  exists s' out k c, hello_arrive little (rb :: rs) r1 r2 inp s = Ok (s', E_TLP_HANDSHAKING, Some out)
    /\ dh_generate_key (pub_of ra) rb = Ok k /\ key_cipher k = Ok c /\ key_wf c
    /\ packet.data out = frame (resp_bytes r1 (pub_of rb)) ++ frame (ok_bytes r2 c)
    /\ m_dhstate s' = DH_HANDSHAKE
    /\ sym s' = symmetric_encrypt.mk (symmetric_encrypt.base (sym s)) (Some c).
Proof.
  intros Ha Hb Hb0 Hst Hf W D. unfold hello_arrive.
  rewrite (bool_decide_eq_true_2 _ Hst). res_simpl.
  destruct (read_field 8 (pub_of ra) inp [2; 2; 1; 1; 1] W D) as (p1 & -> & W1 & D1);
    [repeat constructor; vm_compute; intuition discriminate
    | pose proof (pub_range ra Ha); unfold DH_q in *; change (256 ^ Z.of_nat 8) with 18446744073709551616; lia |].
  res_simpl. destruct (read_byte 2 p1 [2; 1; 1; 1] W1 D1) as (p2 & -> & W2 & D2);
    [range_lia | repeat constructor; vm_compute; intuition discriminate |].
  res_simpl. rewrite packet.len_val, D2 by done. res_simpl.
  change (negb (2 <? zlen [2; 1; 1; 1])) with false. cbn match. change (Z.to_nat 2) with (length [2; 1]).
  destruct (read_list_ok [2; 1] CS_MAX [] p2 [1; 1] W2 D2) as (p3 & -> & W3 & D3);
    [repeat constructor; range_lia | repeat constructor; vm_compute; intuition discriminate
    | vm_compute; discriminate |].
  res_simpl. destruct (read_byte 1 p3 [1] W3 D3) as (p4 & -> & W4 & D4);
    [range_lia | repeat constructor; vm_compute; intuition discriminate |].
  res_simpl. rewrite packet.len_val, D4 by done. res_simpl.
  change (negb (1 <=? zlen [1])) with false. cbn match. change (Z.to_nat 1) with (length [1]).
  destruct (read_list_ok [1] C_MAX [] p4 [] W4 D4) as (p5 & -> & W5 & D5);
    [repeat constructor; range_lia | constructor | vm_compute; discriminate |].
  res_simpl. rewrite packet.len_val, D5 by done. res_simpl. change (zlen [] =? 0) with true. res_simpl.
  change (m_context (set_dhstate DH_HANDSHAKE s)) with (m_context s).
  rewrite factor_loop_ok by done. res_simpl. cbn [app lookup list_lookup].
  change (make_cipher_suite 2) with (c ← xxtea.make; Ok (Some c)).
  destruct xxtea_make_ok as [c0 ->]. res_simpl. cbn [priv_key pub_key].
  destruct (key_agree rb ra Hb Ha) as (k & Ek & _). destruct (key_cipher_ok k) as (c & Ec & Wc).
  rewrite Ek. res_simpl. rewrite Ec. res_simpl.
  destruct (resp_packet_ok r1 (pub_of rb)) as (o & -> & Ho). res_simpl.
  destruct (ok_packet_ok little c r2 Wc) as (m & -> & Wm & Dm). res_simpl.
  change (negb (OK =? OK)) with false. cbn match. rewrite packet.len_val by done. res_simpl.
  destruct (packet.write_holds o (packet.data m) _ _ Ho) as (out & -> & (_ & Dout & _)); [done | |].
  { rewrite Dm, !zlen_frame, (ok_bytes_len r2 c Wc). done. }
  res_simpl. eexists _, out, k, c. split; [done|]. rewrite Dout, Dm. auto 10.
Qed.

Lemma hello_resp_arrive_ok (little : bool) ra rb r1 inp s : is_u64 ra -> ra <> 0 -> is_u64 rb ->
  m_dhstate s = DH_HANDSHAKE -> dhfactor (m_context s) = mk_factor ra (pub_of ra) -> packet.wf inp ->
  packet.data inp = bytes_helper.write_impl 8 (pub_of rb) ++ [2; 1] ->
  exists s' out k c, hello_resp_arrive little r1 inp s = Ok (s', E_TLP_HANDSHAKING, Some out)
    /\ dh_generate_key (pub_of rb) ra = Ok k /\ key_cipher k = Ok c /\ key_wf c
    /\ packet.data out = frame (ok_bytes r1 c) /\ m_dhstate s' = DH_HANDSHAKE
    /\ sym s' = symmetric_encrypt.mk (symmetric_encrypt.base (sym s)) (Some c).
Proof.
  intros Ha Ha0 Hb Hst Hf W D. unfold hello_resp_arrive.
  rewrite (bool_decide_eq_true_2 _ Hst). res_simpl. rewrite packet.len_val, D by done. res_simpl.
  rewrite zlen_app, bytes_helper.zlen_write_impl. change (negb (10 <=? Z.of_nat 8 + zlen [2; 1])) with false.
  cbn match. destruct (read_field 8 (pub_of rb) inp [2; 1] W D) as (p1 & -> & W1 & D1);
    [repeat constructor; vm_compute; intuition discriminate
    | pose proof (pub_range rb Hb); unfold DH_q in *; change (256 ^ Z.of_nat 8) with 18446744073709551616; lia |].
  res_simpl. destruct (read_byte 2 p1 [1] W1 D1) as (p2 & -> & W2 & D2);
    [range_lia | repeat constructor; vm_compute; intuition discriminate |].
  res_simpl. destruct (read_byte 1 p2 [] W2 D2) as (p3 & -> & W3 & D3); [range_lia | constructor |].
  res_simpl. rewrite packet.len_val, D3 by done. res_simpl. change (zlen [] =? 0) with true. res_simpl.
  change (make_cipher_suite 2) with (c ← xxtea.make; Ok (Some c)).
  destruct xxtea_make_ok as [c0 ->]. res_simpl. rewrite Hf. cbn [priv_key].
  rewrite (proj2 (Z.eqb_neq ra 0)) by done. cbn [negb]. res_simpl.
  destruct (key_agree ra rb Ha Hb) as (k & Ek & _). destruct (key_cipher_ok k) as (c & Ec & Wc).
  rewrite Ek. res_simpl. rewrite Ec. res_simpl.
  destruct (ok_packet_ok little c r1 Wc) as (m & -> & Wm & Dm). res_simpl.
  change (negb (OK =? OK)) with false. cbn match. eexists _, m, k, c. split; [done|]. auto 10.
Qed.

(** The peer's message deciphers to "MESSAGE": the handshake is over. *)
Lemma ok_arrive_ok (little : bool) inp s c : key_wf c -> m_dhstate s = DH_HANDSHAKE ->
  symmetric_encrypt.m_cipher (sym s) = Some c -> packet.wf inp ->
  packet.data inp = xxtea_enc (xxtea.m_key c) HOK_MESSAGE ->
  ok_arrive little inp s = Ok (set_dhstate DH_DATA_TRANSFER s, E_TLP_HANDSHAKE_DONE, None).
Proof.
  intros Wc Hst Hc W D. unfold ok_arrive. rewrite (bool_decide_eq_true_2 _ Hst). res_simpl.
  unfold symmetric_encrypt.get_cipher. rewrite Hc.
  destruct (c_decrypt_spec (cipher_abstract := xxtea_cipher little) c inp HOK_MESSAGE Wc W HOK_ok D)
    as (m & -> & (Wm & Dm & _)). res_simpl. change (negb (OK =? OK)) with false. cbn match.
  rewrite bool_decide_eq_true_2; [done|]. pose proof (packet.zlen_data m Wm) as Hz. rewrite Dm in Hz.
  change (zlen HOK_MESSAGE) with 7 in Hz. rewrite Hz. exact Dm.
Qed.
End handshake.

(** ** The exchange *)
Section exchange.
Context `{memory} `{byte_queue Q}.

Definition with_base (d : hlen_packet.t) (s : t) : t :=
  set_sym (symmetric_encrypt.mk d (symmetric_encrypt.m_cipher (sym s))) s.

(** A call that finds one complete frame passes it to the handshake. *)
Lemma handshake_decode (little : bool) rnds r1 r2 s (q : Q) m rest size ec :
  m_dhstate s = DH_IDLE \/ m_dhstate s = DH_HANDSHAKE ->
  wf_dec (symmetric_encrypt.base (sym s)) q -> Forall (ok_msg (bq_capacity q)) (m :: rest) ->
  pending (symmetric_encrypt.base (sym s)) q = concat (map frame (m :: rest)) ->
  exists d q' p, packet.wf p /\ packet.data p = m /\ wf_dec d q' /\ bq_capacity q' = bq_capacity q
    /\ pending d q' = concat (map frame rest)
    /\ decode_packets little rnds r1 r2 s q size ec
       = ('(s, ec, out) ← handshake_packet_arrive little rnds r1 r2 p (with_base d s);
          Ok (s, q', [], ec, out)).
Proof.
  intros Hst Wd Hm P. pose proof (bq_bound q (dec_queue _ _ Wd)) as Hb.
  destruct (decode_spec (bq_capacity q) (m :: rest) [] (symmetric_encrypt.base (sym s)) q 1 Hm
    (incomplete_nil _ (proj1 Hb)) Wd eq_refl) as (d & q' & packs & E & F & W' & C' & P');
    [by rewrite app_nil_r | done |].
  change (Z.to_nat 1) with 1%nat in *. cbn [take drop] in F, P'. rewrite app_nil_r in P'.
  inversion F as [|p x packs' l' (Wp & Dp & _) F' Ep Ex]; subst. inversion F'; subst.
  exists d, q', p. do 5 (split; [done|]). unfold decode_packets.
  assert (Er : hlen_packet.decode_packets (symmetric_encrypt.base (sym s)) q 1
    = Ok (d, q', [p], if (1 <? length (packet.data p :: rest))%nat then E_TLP_TRY_AGAIN else OK)) by exact E.
  destruct Hst as [-> | ->]; rewrite Er; res_simpl; done.
Qed.

(** What is left to decode is nothing, so the next frame starts afresh. *)
Lemma pending_empty d (q : Q) : pending d q = [] -> m_parse_state d = S_READ_LEN /\ bq_contents q = [].
Proof.
  unfold pending. destruct (m_parse_state d); [done|]. intros E.
  apply (f_equal length) in E. rewrite length_app, header_len in E. simpl in E. lia.
Qed.

Lemma small_ok cap m : Forall byte_ok m -> 0 < zlen m <= 64 -> 64 <= cap -> ok_msg cap m.
Proof. intros B Hz Hc. split; [done|]. unfold packet.MAX_RIGHT_CAPACITY. lia. Qed.

Lemma idle_dec d (q : Q) : m_parse_state d = S_READ_LEN -> bq_wf q -> Forall byte_ok (bq_contents q) ->
  wf_dec d q /\ pending d q = bq_contents q.
Proof. intros E W B. unfold pending. rewrite E. split; [split; [done | done | by rewrite E] | done]. Qed.

Lemma bytes_ok v n rest : Forall byte_ok rest -> Forall byte_ok (bytes_helper.write_impl n v ++ rest).
Proof. intros B. apply Forall_app. split; [apply bytes_helper.write_impl_bytes | done]. Qed.

Lemma hello_ok r pub : Forall byte_ok (hello_bytes r pub) /\ zlen (hello_bytes r pub) = 17.
Proof.
  split; [|done]. apply bytes_ok, bytes_ok. repeat constructor; vm_compute; intuition discriminate.
Qed.

Lemma resp_ok r pub : Forall byte_ok (resp_bytes r pub) /\ zlen (resp_bytes r pub) = 14.
Proof.
  split; [|done]. apply bytes_ok, bytes_ok. repeat constructor; vm_compute; intuition discriminate.
Qed.

Lemma text_ok c : key_wf c -> Forall byte_ok (xxtea_enc (xxtea.m_key c) HOK_MESSAGE)
  /\ xxtea_enc (xxtea.m_key c) HOK_MESSAGE <> [].
Proof.
  intros [K B]. destruct (xxtea_message HOK_MESSAGE (xxtea.m_key c)) as (_ & _ & L & F);
    [done | apply HOK_ok | lia | done |]. split; [done|]. intros E. by rewrite E in L.
Qed.

Lemma okmsg_ok r c : key_wf c -> Forall byte_ok (ok_bytes r c) /\ zlen (ok_bytes r c) = 16.
Proof. intros Wc. split; [apply bytes_ok, text_ok, Wc | by apply ok_bytes_len]. Qed.

(** The server on a hello. *)
Lemma server_hello (little : bool) ra rb r1 r2 r3 s (q : Q) size ec :
  is_u64 ra -> is_u64 rb -> rb <> 0 -> s = make ->
  bq_wf q -> 64 <= bq_capacity q -> bq_contents q = frame (hello_bytes r1 (pub_of ra)) ->
  exists s' q' out k c, decode_packets little [rb] r2 r3 s q size ec
      = Ok (s', q', [], E_TLP_HANDSHAKING, Some out)
    /\ dh_generate_key (pub_of ra) rb = Ok k /\ key_cipher k = Ok c /\ key_wf c
    /\ packet.data out = frame (resp_bytes r2 (pub_of rb)) ++ frame (ok_bytes r3 c)
    /\ bq_contents q' = [] /\ m_parse_state (symmetric_encrypt.base (sym s')) = S_READ_LEN
    /\ m_dhstate s' = DH_HANDSHAKE /\ symmetric_encrypt.m_cipher (sym s') = Some c.
Proof.
  intros Ha Hb Hb0 -> W Hcap E. destruct (hello_ok r1 (pub_of ra)) as [Bh Lh].
  assert (Hm : ok_msg (bq_capacity q) (hello_bytes r1 (pub_of ra))) by (apply small_ok; [done | lia | done]).
  destruct (idle_dec hlen_packet.make q eq_refl W) as [Wd P];
    [rewrite E; by apply (frame_bytes (bq_capacity q))|].
  destruct (handshake_decode little [rb] r2 r3 make q (hello_bytes r1 (pub_of ra)) [] size ec)
    as (d & q' & p & Wp & Dp & W' & C' & P' & ->); [by left | done | exact (Forall_cons_2 _ _ _ Hm (Forall_nil_2 _)) | |].
  { cbn [map concat]. by rewrite app_nil_r, <- E. }
  destruct (pending_empty d q' P') as [Ed Eq].
  destruct (arrive_case little [rb] r2 r3 p (with_base d make) F_HANDSHAKE_HELLO r1
    (bytes_helper.write_impl 8 (pub_of ra) ++ [2; 2; 1; 1; 1])) as (p' & Wp' & Dp' & ->);
    [vm_compute; intuition discriminate | done | done | done
    | apply bytes_ok; repeat constructor; vm_compute; intuition discriminate | done |].
  cbn [Z.eqb F_HANDSHAKE_HELLO Pos.eqb].
  destruct (hello_arrive_ok little ra rb [] r2 r3 p' (with_base d make))
    as (s' & out & k & c & -> & Ek & Ec & Wc & Do & St & Sy);
    [exact Ha | exact Hb | exact Hb0 | reflexivity | reflexivity | exact Wp' | exact Dp' |].
  res_simpl. exists s', q', out, k, c. rewrite Sy.
  cbn [symmetric_encrypt.base symmetric_encrypt.m_cipher with_base set_sym sym]. auto 10.
Qed.

(** The client on the answer to its hello, the peer's message being in the buffer too. *)
Lemma client_resp (little : bool) ra rb r2 r3 r4 s (q : Q) size ec k c :
  is_u64 ra -> ra <> 0 -> is_u64 rb -> m_dhstate s = DH_HANDSHAKE -> sym s = symmetric_encrypt.make ->
  dhfactor (m_context s) = mk_factor ra (pub_of ra) ->
  dh_generate_key (pub_of ra) rb = Ok k -> key_cipher k = Ok c -> key_wf c ->
  bq_wf q -> 64 <= bq_capacity q ->
  bq_contents q = frame (resp_bytes r2 (pub_of rb)) ++ frame (ok_bytes r3 c) ->
  exists s' q' out, decode_packets little [] r4 0 s q size ec = Ok (s', q', [], E_TLP_HANDSHAKING, Some out)
    /\ packet.data out = frame (ok_bytes r4 c) /\ wf_dec (symmetric_encrypt.base (sym s')) q'
    /\ pending (symmetric_encrypt.base (sym s')) q' = frame (ok_bytes r3 c)
    /\ bq_capacity q' = bq_capacity q
    /\ m_dhstate s' = DH_HANDSHAKE /\ symmetric_encrypt.m_cipher (sym s') = Some c.
Proof.
  intros Ha Ha0 Hb Hst Hsy Hf Ek Ec Wc W Hcap E.
  destruct (resp_ok r2 (pub_of rb)) as [Br Lr]. destruct (okmsg_ok r3 c Wc) as [Bo Lo].
  assert (Hm1 : ok_msg (bq_capacity q) (resp_bytes r2 (pub_of rb))) by (apply small_ok; [done | lia | done]).
  assert (Hm2 : ok_msg (bq_capacity q) (ok_bytes r3 c)) by (apply small_ok; [done | lia | done]).
  destruct (idle_dec (symmetric_encrypt.base (sym s)) q) as [Wd P]; [by rewrite Hsy | done | |].
  { rewrite E. apply Forall_app. split; by apply (frame_bytes (bq_capacity q)). }
  destruct (handshake_decode little [] r4 0 s q (resp_bytes r2 (pub_of rb)) [ok_bytes r3 c] size ec)
    as (d & q' & p & Wp & Dp & W' & C' & P' & ->);
    [by right | done | exact (Forall_cons_2 _ _ _ Hm1 (Forall_cons_2 _ _ _ Hm2 (Forall_nil_2 _))) | |].
  { rewrite P, E. cbn [map concat]. by rewrite app_nil_r. }
  destruct (arrive_case little [] r4 0 p (with_base d s) F_HANDSHAKE_HELLO_RESP r2
    (bytes_helper.write_impl 8 (pub_of rb) ++ [2; 1])) as (p' & Wp' & Dp' & ->);
    [vm_compute; intuition discriminate | by cbn; rewrite Hst | done | done
    | apply bytes_ok; repeat constructor; vm_compute; intuition discriminate | done |].
  cbn [Z.eqb F_HANDSHAKE_HELLO F_HANDSHAKE_HELLO_RESP Pos.eqb].
  destruct (hello_resp_arrive_ok little ra rb r4 p' (with_base d s))
    as (s' & out & k' & c' & -> & Ek' & Ec' & _ & Do & St & Sy);
    [exact Ha | exact Ha0 | exact Hb | exact Hst | exact Hf | exact Wp' | exact Dp' |].
  destruct (key_agree ra rb Ha Hb) as (k2 & E1 & E2).
  assert (k' = k) as -> by congruence. assert (c' = c) as -> by congruence.
  res_simpl. exists s', q', out. rewrite Sy. cbn [symmetric_encrypt.base symmetric_encrypt.m_cipher].
  cbn [map concat] in P'. rewrite app_nil_r in P'. auto 10.
Qed.

(** Either side on the peer's enciphered message. *)
Lemma either_ok (little : bool) rnds r1 r2 r3 s (q : Q) size ec c : m_dhstate s = DH_HANDSHAKE ->
  symmetric_encrypt.m_cipher (sym s) = Some c -> key_wf c ->
  wf_dec (symmetric_encrypt.base (sym s)) q -> 64 <= bq_capacity q ->
  pending (symmetric_encrypt.base (sym s)) q = frame (ok_bytes r3 c) ->
  exists s' q', decode_packets little rnds r1 r2 s q size ec = Ok (s', q', [], E_TLP_HANDSHAKE_DONE, None)
    /\ m_dhstate s' = DH_DATA_TRANSFER /\ symmetric_encrypt.m_cipher (sym s') = Some c
    /\ bq_contents q' = [] /\ m_parse_state (symmetric_encrypt.base (sym s')) = S_READ_LEN.
Proof.
  intros Hst Hc Wc Wd Hcap P. destruct (okmsg_ok r3 c Wc) as [Bo Lo].
  assert (Hm : ok_msg (bq_capacity q) (ok_bytes r3 c)) by (apply small_ok; [done | lia | done]).
  destruct (handshake_decode little rnds r1 r2 s q (ok_bytes r3 c) [] size ec)
    as (d & q' & p & Wp & Dp & W' & C' & P' & ->);
    [by right | done | exact (Forall_cons_2 _ _ _ Hm (Forall_nil_2 _)) | |].
  { cbn [map concat]. by rewrite app_nil_r. }
  destruct (pending_empty d q' P') as [Ed Eq]. destruct (text_ok c Wc) as [Bt Nt].
  destruct (arrive_case little rnds r1 r2 p (with_base d s) F_HANDSHAKE_OK r3
    (xxtea_enc (xxtea.m_key c) HOK_MESSAGE)) as (p' & Wp' & Dp' & ->);
    [vm_compute; intuition discriminate | by cbn; rewrite Hst | done | done | done | done |].
  cbn [Z.eqb F_HANDSHAKE_HELLO F_HANDSHAKE_HELLO_RESP F_HANDSHAKE_OK Pos.eqb].
  rewrite (ok_arrive_ok little p' (with_base d s) c) by done. res_simpl.
  do 2 eexists. split; [done|].
  cbn [m_dhstate set_dhstate with_base set_sym sym symmetric_encrypt.base symmetric_encrypt.m_cipher]. auto.
Qed.
End exchange.

(** ** Properties *)
Section properties.
Context `{memory} `{byte_queue Q}.

(** C25: the key exchange completes: the hello of a client, delivered to a fresh server, makes the
    server answer; that answer, delivered to the client, makes it answer and then finish; and the
    client's answer makes the server finish.  At the end both sides are in the data phase with one
    and the same cipher key, nothing undecoded is left, and no step fails, whatever non-zero 64-bit
    private keys and obfuscation numbers are drawn and whatever the endianness of each machine. *)
Theorem dh_handshake_completes (little1 little2 : bool) cookie_context sizeof ra rb r1 r2 r3 r4 size ec :
  is_u64 ra -> ra <> 0 -> is_u64 rb -> rb <> 0 ->
  exists c0 hello, handshake_make_hello_packet cookie_context sizeof [ra] r1 make
      = Ok (c0, E_TLP_HANDSHAKING, Some hello)
  /\ forall qs : Q, bq_wf qs -> 64 <= bq_capacity qs -> bq_contents qs = packet.data hello ->
  exists s1 qs1 out1, decode_packets little2 [rb] r2 r3 make qs size ec
      = Ok (s1, qs1, [], E_TLP_HANDSHAKING, Some out1) /\ bq_contents qs1 = []
  /\ forall qc : Q, bq_wf qc -> 64 <= bq_capacity qc -> bq_contents qc = packet.data out1 ->
  exists c1 qc1 out2 c2 qc2, decode_packets little1 [] r4 0 c0 qc size ec
      = Ok (c1, qc1, [], E_TLP_HANDSHAKING, Some out2)
  /\ decode_packets little1 [] 0 0 c1 qc1 size ec = Ok (c2, qc2, [], E_TLP_HANDSHAKE_DONE, None)
  /\ bq_contents qc2 = []
  /\ forall qs2 : Q, bq_wf qs2 -> 64 <= bq_capacity qs2 -> bq_contents qs2 = packet.data out2 ->
  exists s2 qs3, decode_packets little2 [] 0 0 s1 qs2 size ec = Ok (s2, qs3, [], E_TLP_HANDSHAKE_DONE, None)
  /\ bq_contents qs3 = [] /\ handshake_done c2 = true /\ handshake_done s2 = true
  /\ exists k, symmetric_encrypt.m_cipher (sym c2) = Some k
     /\ symmetric_encrypt.m_cipher (sym s2) = Some k /\ zlen (xxtea.m_key k) = 16.
Proof.
  intros Ha Ha0 Hb Hb0.
  destruct (make_hello_ok cookie_context sizeof ra [] r1 Ha Ha0) as (c0 & h & Eh & Dh & Sc0 & Fc0 & Yc0).
  exists c0, h. split; [done|]. intros qs Wqs Cqs Dqs. rewrite Dh in Dqs.
  destruct (server_hello little2 ra rb r1 r2 r3 make qs size ec)
    as (s1 & qs1 & o1 & k & c & E1 & Ek & Ec & Wc & Do1 & Z1 & B1 & St1 & Cy1); [done..|].
  exists s1, qs1, o1. do 2 (split; [done|]). intros qc Wqc Cqc Dqc. rewrite Do1 in Dqc.
  destruct (client_resp little1 ra rb r2 r3 r4 c0 qc size ec k c)
    as (c1 & qc1 & o2 & E2 & Do2 & Wc1 & Pc1 & Cc1 & St2 & Cy2); [done..|].
  destruct (either_ok little1 [] 0 0 r3 c1 qc1 size ec c) as (c2 & qc2 & E3 & St3 & Cy3 & Z3 & _);
    [done | done | done | done | lia | done |].
  exists c1, qc1, o2, c2, qc2. do 3 (split; [done|]). intros qs2 Wq2 Cq2 Dq2. rewrite Do2 in Dq2.
  destruct (idle_dec (symmetric_encrypt.base (sym s1)) qs2 B1 Wq2) as [Wd2 Pd2].
  { rewrite Dq2. apply (frame_bytes 64), small_ok; [apply okmsg_ok, Wc | | done].
    rewrite (proj2 (okmsg_ok r4 c Wc)). lia. }
  destruct (either_ok little2 [] 0 0 r4 s1 qs2 size ec c) as (s2 & qs3 & E4 & St4 & Cy4 & Z4 & _);
    [done | done | done | done | done | by rewrite Pd2 |].
  exists s2, qs3. do 2 (split; [done|]). unfold handshake_done.
  rewrite (bool_decide_eq_true_2 _ St3), (bool_decide_eq_true_2 _ St4). do 2 (split; [done|]).
  exists c. split; [done|]. split; [done | apply Wc].
Qed.
End properties.

(** An array of the frame on the stack is written past its end. *)
Lemma read_list_overflow `{memory} max l : forall got p rest, packet.wf p -> packet.data p = l ++ rest ->
  Forall is_u8 l -> Forall byte_ok rest -> zlen got <= max < zlen got + zlen l ->
  read_list (length l) max got p = Fault Undefined.
Proof.
  induction l as [|v l IH]; intros got p rest W D Bl B Hm; cbn [length read_list].
  - unfold zlen in Hm. simpl in Hm. lia.
  - apply Forall_cons in Bl as [Hv Bl].
    destruct (read_byte v p (l ++ rest) W D Hv) as (p1 & E & W1 & D1);
      [apply Forall_app; split; [exact Bl | done]|].
    rewrite E. res_simpl. destruct (Z.ltb_spec (zlen got) max) as [Hlt|Hge]; [|done]. res_simpl.
    apply (IH _ p1 rest); [done | done | done | done |].
    assert (Hz : zlen (v :: l) = 1 + zlen l) by (unfold zlen; simpl; lia).
    rewrite zlen_app. change (zlen [v]) with 1. lia.
Qed.

(** C39: a hello from the network that announces more than three ciphers makes a server that waits
    for a handshake write past the end of an array on its stack: nothing compares the announced
    count with the size of the array. *)
Theorem dh_hello_overflow `{memory} (little : bool) rnds r1 r2 r3 inp s pub l rest :
  m_dhstate s = DH_IDLE -> packet.wf inp -> is_u64 pub -> 3 < zlen l < 256 -> rest <> [] ->
  Forall is_u8 l -> Forall byte_ok rest ->
  packet.data inp = bytes_helper.write_impl 4 (u8_obfuscate F_HANDSHAKE_HELLO r1)
                    ++ bytes_helper.write_impl 8 pub ++ zlen l :: l ++ rest ->
  handshake_packet_arrive little rnds r2 r3 inp s = Fault Undefined.
Proof.
  intros Hst W Hp Hl Hr Bl Br D.
  assert (B1 : Forall byte_ok (l ++ rest)) by (apply Forall_app; split; [exact Bl | done]).
  assert (B0 : Forall byte_ok (zlen l :: l ++ rest)) by (constructor; [unfold byte_ok; range_lia | done]).
  destruct (arrive_case little rnds r2 r3 inp s F_HANDSHAKE_HELLO r1
    (bytes_helper.write_impl 8 pub ++ zlen l :: l ++ rest)) as (p & Wp & Dp & ->);
    [vm_compute; intuition discriminate | by rewrite Hst | done | done | by apply bytes_ok | done |].
  cbn [Z.eqb F_HANDSHAKE_HELLO Pos.eqb]. unfold hello_arrive. rewrite (bool_decide_eq_true_2 _ Hst). res_simpl.
  destruct (read_field 8 pub p _ Wp Dp B0) as (p1 & -> & W1 & D1);
    [change (256 ^ Z.of_nat 8) with 18446744073709551616; range_lia|].
  res_simpl. destruct (read_byte (zlen l) p1 _ W1 D1) as (p2 & -> & W2 & D2); [range_lia | done |].
  res_simpl. rewrite packet.len_val, D2, zlen_app by done. res_simpl.
  assert (0 < zlen rest) by (destruct rest; [done | unfold zlen; simpl; lia]).
  rewrite (proj2 (Z.ltb_lt _ _)) by lia. cbn [negb].
  replace (Z.to_nat (zlen l)) with (length l) by (unfold zlen; lia).
  rewrite (read_list_overflow CS_MAX l [] p2 rest W2 D2 Bl Br); [done|].
  change (zlen []) with 0. unfold CS_MAX. lia.
Qed.

(** The first cookie is copied into a block of no bytes. *)
Lemma cookie_overflow cookie : cookie <> [] -> handshake_assign_cookie cookie make = Fault Undefined.
Proof.
  intros Hc. unfold handshake_assign_cookie. cbn [make m_cookie_size].
  by rewrite (proj2 (Z.leb_gt _ _)) by (destruct cookie; [done | unfold zlen; simpl; lia]).
Qed.

(** ** Witnesses *)
Definition sample_key : xxtea.t := xxtea.mk (replicate 16 7).
Definition sample_side : symmetric_encrypt.t xxtea.t := symmetric_encrypt.mk hlen_packet.make (Some sample_key).

Lemma sample_key_wf : zlen (xxtea.m_key sample_key) = 16 /\ Forall byte_ok (xxtea.m_key sample_key).
Proof. split; [done|]. apply Forall_replicate. unfold byte_ok. range_lia. Qed.

Lemma symmetric_stream_roundtrip_witness :
  exists os, Forall2 (fun p o => symmetric_encrypt.encode (cipher_abstract0 := xxtea_cipher true) sample_side p
                                 = Ok (OK, Some o)) [sample_packet] os.
Proof.
  destruct (symmetric_stream_roundtrip (CI1 := xxtea_cipher true) (CI2 := xxtea_cipher false)
    sample_side sample_side sample_key sample_key [sample_packet] (tlp_ring []) 5)
    as (os & F & _).
  - reflexivity.
  - reflexivity.
  - exact sample_key_wf.
  - exact sample_key_wf.
  - intros m _. reflexivity.
  - repeat constructor; try apply sample_packet_wf; vm_compute; intuition discriminate.
  - done.
  - split; [apply tlp_ring_wf; cbn [length]; lia | | done]. cbn. rewrite tlp_ring_contents. constructor.
  - by exists os.
Defined.

Lemma dh_handshake_completes_witness :
  exists c0 hello, handshake_make_hello_packet (fun _ => zero_context) 56 [12345] 1 make
    = Ok (c0, E_TLP_HANDSHAKING, Some hello).
Proof.
  destruct (dh_handshake_completes (Q := bytes_ringbuffer.t) true false (fun _ => zero_context) 56
    12345 67890 1 2 3 4 5 0) as (c0 & h & E & _); [range_lia | done | range_lia | done |].
  by exists c0, h.
Defined.

Definition bad_hello : list Z :=
  bytes_helper.write_impl 4 (u8_obfuscate F_HANDSHAKE_HELLO 9) ++ bytes_helper.write_impl 8 77
  ++ 4 :: [2; 2; 2; 2] ++ [1; 1].

Definition bad_packet : packet.t :=
  packet.mk (replicate 128 0 ++ bad_hello ++ replicate 237 0) 128 128 256 147.

Lemma dh_hello_overflow_witness :
  handshake_packet_arrive true [5] 1 2
    bad_packet make
  = Fault Undefined.
Proof.
  apply (dh_hello_overflow true [5] 9 1 2 bad_packet make 77 [2; 2; 2; 2] [1; 1]).
  - reflexivity.
  - constructor; vm_compute; intuition discriminate.
  - range_lia.
  - vm_compute. intuition discriminate.
  - discriminate.
  - repeat constructor; range_lia.
  - repeat constructor; vm_compute; intuition discriminate.
  - vm_compute. reflexivity.
Defined.
