(* ===== verification/SocketData.v ===== *)
(** * SocketData: the data of a socket
    ([include/wawo/net/socket_base.hpp], [include/wawo/net/socket.hpp])

    - the configuration, the states and the flags of [socket_base];
    - the record [socket], the members of [socket_base] and of [socket]; the
      scratch buffers [m_tsb] and [m_trb] hold nothing between two calls and
      are values here, and the function pointers [m_fn_...] are the table
      [sock_fns] that the protocol selects;
    - what a method leaves outside the socket: operations queued for the
      observer, tasks for the scheduler, events triggered and callbacks called;
    - [tlp_abstract], the transport layer protocol a socket holds. *)

From S2P Require Import Prelude Effects Ring Packet Address.

(** ** Constants *)

(** [include/wawo/constants.h]. *)
Definition OK : Z := 0.
Definition E_INVALID_OPERATION : Z := -20002.
Definition E_INVALID_STATE : Z := -20003.
Definition E_TRY_AGAIN : Z := -20008.
Definition E_SOCKET_GRACE_CLOSE : Z := -30000.
Definition E_SOCKET_SEND_BLOCK : Z := -30001.
Definition E_SOCKET_SEND_IO_BLOCK_EXPIRED : Z := -30002.
Definition E_SOCKET_RECV_BUFFER_FULL : Z := -30003.
Definition E_SOCKET_RECV_BLOCK : Z := -30004.
Definition E_SOCKET_CONNECTING : Z := -30006.
Definition E_SOCKET_LARGE_PACKET : Z := -30008.
Definition E_SOCKET_RD_SHUTDOWN_ALREADY : Z := -30009.
Definition E_SOCKET_WR_SHUTDOWN_ALREADY : Z := -30010.
Definition E_SOCKET_PUMP_TRY_AGAIN : Z := -30011.
Definition E_SOCKET_INVALID_FAMILY : Z := -30012.
Definition E_TLP_HANDSHAKE_DONE : Z := -30015.
Definition E_TLP_HANDSHAKING : Z := -30016.
Definition E_TLP_TRY_AGAIN : Z := -30022.

(** Linux. *)
Definition EINTR : Z := 4.
Definition EAGAIN : Z := 11.
Definition EWOULDBLOCK : Z := 11.
Definition EINPROGRESS : Z := 115.

Definition WAWO_NEGATIVE (a : Z) : Z := if a <? 0 then a else - a.
Definition WAWO_ABS (a : Z) : Z := if 0 <? a then a - 0 else 0 - a.
Definition IS_ERRNO_EQUAL_WOULDBLOCK (e : Z) : bool := (e =? EAGAIN) || (e =? EWOULDBLOCK).
Definition IS_ERRNO_EQUAL_CONNECTING (e : Z) : bool := (e =? EINPROGRESS) || (e =? EWOULDBLOCK).

(** ** Enumerations *)
Inductive family : Type :=
| F_UNKNOWN | F_PF_INET | F_AF_INET | F_AF_INET6 | F_AF_UNIX | F_PF_UNIX | F_AF_UNSPEC
| F_AF_NETBIOS.
Inductive sock_type : Type :=
| ST_UNKNOWN | ST_STREAM | ST_DGRAM | ST_RAW | ST_RDM | ST_SEQPACKET.
Inductive protocol_type : Type :=
| P_UNKNOWN | P_TCP | P_UDP | P_ICMP | P_IGMP | P_L2TP | P_SCTP | P_RAW | P_WCP | P_MAX.
Inductive socket_mode : Type := SM_NONE | SM_ACTIVE | SM_PASSIVE | SM_LISTENER.
Inductive socket_state : Type :=
| S_CLOSED | S_OPENED | S_BINDED | S_LISTEN | S_CONNECTING | S_CONNECTED.

(** [m_mutexes] and the two mutexes of the queues of arrived packets. *)
Inductive lock : Type := L_SOCKET | L_READ | L_WRITE | L_RPS_Q | L_RPS_Q_STANDBY.

#[export] Instance family_eq_dec : EqDecision family.
Proof. solve_decision. Defined.
#[export] Instance sock_type_eq_dec : EqDecision sock_type.
Proof. solve_decision. Defined.
#[export] Instance protocol_type_eq_dec : EqDecision protocol_type.
Proof. solve_decision. Defined.
#[export] Instance socket_mode_eq_dec : EqDecision socket_mode.
Proof. solve_decision. Defined.
#[export] Instance socket_state_eq_dec : EqDecision socket_state.
Proof. solve_decision. Defined.
#[export] Instance lock_eq_dec : EqDecision lock.
Proof. solve_decision. Defined.

Definition OPTION_BROADCAST : Z := 1.
Definition OPTION_REUSEADDR : Z := 2.
Definition OPTION_REUSEPORT : Z := 4.
Definition OPTION_NON_BLOCKING : Z := 8.
Definition OPTION_NODELAY : Z := 16.

Definition SHUTDOWN_RD : Z := 1.
Definition SHUTDOWN_WR : Z := 2.
Definition SHUTDOWN_RDWR : Z := 3.
Definition WATCH_READ : Z := 4.
Definition WATCH_WRITE : Z := 8.
Definition WATCH_OPTION_INFINITE : Z := 16.
Definition WATCH_OPTION_POST_READ_EVENT_AFTER_WATCH : Z := 32.

(** [ioe_flag] of [observer_abstract.hpp]. *)
Definition IOE_READ : Z := 1.
Definition IOE_WRITE : Z := 2.
Definition IOE_INFINITE_WATCH_READ : Z := 4.
Definition IOE_INFINITE_WATCH_WRITE : Z := 8.

(** [SocketFlag] of [socket.hpp]. *)
Definition F_RCV_ALWAYS_PUMP : Z := 0x1000000.
Definition F_RCV_BLOCK_UNTIL_PACKET_ARRIVE : Z := 0x2000000.
Definition F_SEND_USE_SND_BUFFER : Z := 0x4000000.
Definition WAWO_MAX_ASYNC_WRITE_PERIOD : Z := 90000.

Definition FLUSH_DEFAULT_BLOCK_TIME : Z := 5 * 1000.
Definition FLUSH_BLOCK_TIME_INFINITE : Z := -1.
Definition FLUSH_SLEEP_TIME_MAX : Z := 200.
Definition WAIT_FACTOR : Z := 50.

Record socket_buffer_cfg : Type := mk_cfg { rcv_size : Z; snd_size : Z }.

Definition WAWO_MALLOC_H_RESERVE : Z := 128.
Inductive socket_buffer_cfg_type : Type :=
| BT_SUPER_LARGE | BT_LARGE | BT_MEDIUM_UPPER | BT_MEDIUM | BT_TINY | BT_SUPER_TINY.
Definition socket_buffer_cfgs (t : socket_buffer_cfg_type) : socket_buffer_cfg :=
  let both n := mk_cfg n n in
  match t with
  | BT_SUPER_LARGE => both (1024 * 1024 * 2 - WAWO_MALLOC_H_RESERVE)
  | BT_LARGE => both (1024 * 768 - WAWO_MALLOC_H_RESERVE)
  | BT_MEDIUM_UPPER => both (1024 * 256 - WAWO_MALLOC_H_RESERVE)
  | BT_MEDIUM => both (1024 * 96)
  | BT_TINY => both (1024 * 32)
  | BT_SUPER_TINY => both (1024 * 8)
  end.

Definition SOCK_SND_MAX_SIZE : Z := 1024 * 1024 * 2.
Definition SOCK_SND_MIN_SIZE : Z := 1024 * 4.
Definition SOCK_RCV_MAX_SIZE : Z := 1024 * 1024 * 2.
Definition SOCK_RCV_MIN_SIZE : Z := 1024 * 4.

Definition rcv_size_ok (c : socket_buffer_cfg) : bool :=
  (rcv_size c <=? SOCK_RCV_MAX_SIZE) && (SOCK_RCV_MIN_SIZE <=? rcv_size c).
Definition snd_size_ok (c : socket_buffer_cfg) : bool :=
  (snd_size c <=? SOCK_SND_MAX_SIZE) && (SOCK_SND_MIN_SIZE <=? snd_size c).

Record keep_alive_vals : Type := mk_keep_alive { onoff : Z; idle : Z; interval : Z; probes : Z }.

(** ** Callbacks, events and tasks

    The function pointers of type [fn_io_event] and [fn_io_event_error] are the
    functions of [socket.cpp] or functions of the user; an [async_cookie] also
    holds the socket itself, which is the one of the state. *)
Inductive fn_io_event : Type :=
| fn_async_connected | fn_async_handshake | fn_async_read | fn_async_write | fn_user (id : Z).
Inductive fn_io_event_error : Type :=
| fn_async_connect_error | fn_async_handshake_error | fn_async_error | fn_user_error (id : Z).

Record async_cookie : Type := mk_cookie {
  user_cookie : option Z;
  c_success : option fn_io_event;
  c_error : option fn_io_event_error
}.

(** What a callback receives: an [async_cookie] or a cookie of the user. *)
Inductive cookie : Type := CAsync (c : async_cookie) | CUser (c : option Z).

Inductive op_code : Type := OP_WATCH | OP_UNWATCH.
Record event_op : Type := mk_op {
  o_flag : Z; o_op : op_code; o_fd : Z;
  o_cookie : option cookie; o_fn : option fn_io_event; o_err : option fn_io_event_error
}.

(** [net_event.hpp]; an event holds the socket, a packet or a number. *)
Inductive event_id : Type :=
| E_PACKET_ARRIVE | E_RD_SHUTDOWN | E_WR_SHUTDOWN | E_CLOSE | E_MESSAGE | E_WR_BLOCK
| E_WR_UNBLOCK | E_ERROR.
Record socket_event : Type := mk_event { e_id : event_id; e_data : option packet.t; e_info : Z }.

(** [udata64]: the error code as a 64-bit number. *)
Definition info_event (id : event_id) (info : Z) : socket_event := mk_event id None (u64 info).
Definition packet_event (p : packet.t) : socket_event := mk_event E_PACKET_ARRIVE (Some p) 0.

Inductive task : Type :=
| TTrigger (e : socket_event)
| TClosed (sflag ec : Z)
| TShutdown (sflag ec : Z)
| TCall (fn : fn_io_event) (c : cookie)
| TCallError (err : fn_io_event_error) (code : Z) (c : cookie).

(** What happened, in order: events given to the listeners and callbacks of the
    user. *)
Inductive effect : Type :=
| Triggered (e : socket_event)
| Called (fn : fn_io_event) (c : option Z)
| CalledError (err : fn_io_event_error) (code : Z) (c : option Z).

(** ** The transport layer protocol

    [include/wawo/net/tlp_abstract.hpp].  [decode_packets] takes the caller's
    [ec_o], which it may leave alone, and answers the packets for the
    application, the code and the packet to send. *)
Class tlp_abstract (T : Type) := {
  handshake_make_hello_packet : T -> res (T * Z * option packet.t);
  handshake_handshaking : T -> bool;
  handshake_done : T -> bool;
  tlp_encode : T -> packet.t -> res (T * Z * option packet.t);
  tlp_decode_packets : T -> bytes_ringbuffer.t -> Z -> Z ->
    res (T * bytes_ringbuffer.t * list packet.t * Z * option packet.t)
}.

(** ** The socket *)
Section socket.
Context {T : Type}.

Record socket : Type := mk_socket {
  m_sm : socket_mode;
  m_family : family;
  m_type : sock_type;
  m_protocol : protocol_type;
  m_option : Z;
  m_addr : address.t;
  m_bind_addr : address.t;
  m_fd : Z;
  m_sbc : socket_buffer_cfg;
  m_tlp : option T;
  m_state : socket_state;
  m_rflag : Z;
  m_wflag : Z;
  m_sb : bytes_ringbuffer.t;
  m_rb : bytes_ringbuffer.t;
  m_delay_wp : Z;
  m_async_wt : Z;
  m_rps_q : list packet.t;
  m_rps_q_standby : list packet.t
}.
Definition set_m_sm v s := mk_socket v (m_family s) (m_type s) (m_protocol s) (m_option
  s) (m_addr s) (m_bind_addr s) (m_fd s) (m_sbc s) (m_tlp s) (m_state s) (m_rflag s)
  (m_wflag s) (m_sb s) (m_rb s) (m_delay_wp s) (m_async_wt s) (m_rps_q s)
  (m_rps_q_standby s).
Definition set_m_option v s := mk_socket (m_sm s) (m_family s) (m_type s) (m_protocol s)
  v (m_addr s) (m_bind_addr s) (m_fd s) (m_sbc s) (m_tlp s) (m_state s) (m_rflag s)
  (m_wflag s) (m_sb s) (m_rb s) (m_delay_wp s) (m_async_wt s) (m_rps_q s)
  (m_rps_q_standby s).
Definition set_m_addr v s := mk_socket (m_sm s) (m_family s) (m_type s) (m_protocol s)
  (m_option s) v (m_bind_addr s) (m_fd s) (m_sbc s) (m_tlp s) (m_state s) (m_rflag s)
  (m_wflag s) (m_sb s) (m_rb s) (m_delay_wp s) (m_async_wt s) (m_rps_q s)
  (m_rps_q_standby s).
Definition set_m_bind_addr v s := mk_socket (m_sm s) (m_family s) (m_type s) (m_protocol
  s) (m_option s) (m_addr s) v (m_fd s) (m_sbc s) (m_tlp s) (m_state s) (m_rflag s)
  (m_wflag s) (m_sb s) (m_rb s) (m_delay_wp s) (m_async_wt s) (m_rps_q s)
  (m_rps_q_standby s).
Definition set_m_fd v s := mk_socket (m_sm s) (m_family s) (m_type s) (m_protocol s)
  (m_option s) (m_addr s) (m_bind_addr s) v (m_sbc s) (m_tlp s) (m_state s) (m_rflag s)
  (m_wflag s) (m_sb s) (m_rb s) (m_delay_wp s) (m_async_wt s) (m_rps_q s)
  (m_rps_q_standby s).
Definition set_m_tlp v s := mk_socket (m_sm s) (m_family s) (m_type s) (m_protocol s)
  (m_option s) (m_addr s) (m_bind_addr s) (m_fd s) (m_sbc s) v (m_state s) (m_rflag s)
  (m_wflag s) (m_sb s) (m_rb s) (m_delay_wp s) (m_async_wt s) (m_rps_q s)
  (m_rps_q_standby s).
Definition set_m_state v s := mk_socket (m_sm s) (m_family s) (m_type s) (m_protocol s)
  (m_option s) (m_addr s) (m_bind_addr s) (m_fd s) (m_sbc s) (m_tlp s) v (m_rflag s)
  (m_wflag s) (m_sb s) (m_rb s) (m_delay_wp s) (m_async_wt s) (m_rps_q s)
  (m_rps_q_standby s).
Definition set_m_rflag v s := mk_socket (m_sm s) (m_family s) (m_type s) (m_protocol s)
  (m_option s) (m_addr s) (m_bind_addr s) (m_fd s) (m_sbc s) (m_tlp s) (m_state s) v
  (m_wflag s) (m_sb s) (m_rb s) (m_delay_wp s) (m_async_wt s) (m_rps_q s)
  (m_rps_q_standby s).
Definition set_m_wflag v s := mk_socket (m_sm s) (m_family s) (m_type s) (m_protocol s)
  (m_option s) (m_addr s) (m_bind_addr s) (m_fd s) (m_sbc s) (m_tlp s) (m_state s)
  (m_rflag s) v (m_sb s) (m_rb s) (m_delay_wp s) (m_async_wt s) (m_rps_q s)
  (m_rps_q_standby s).
Definition set_m_sb v s := mk_socket (m_sm s) (m_family s) (m_type s) (m_protocol s)
  (m_option s) (m_addr s) (m_bind_addr s) (m_fd s) (m_sbc s) (m_tlp s) (m_state s)
  (m_rflag s) (m_wflag s) v (m_rb s) (m_delay_wp s) (m_async_wt s) (m_rps_q s)
  (m_rps_q_standby s).
Definition set_m_rb v s := mk_socket (m_sm s) (m_family s) (m_type s) (m_protocol s)
  (m_option s) (m_addr s) (m_bind_addr s) (m_fd s) (m_sbc s) (m_tlp s) (m_state s)
  (m_rflag s) (m_wflag s) (m_sb s) v (m_delay_wp s) (m_async_wt s) (m_rps_q s)
  (m_rps_q_standby s).
Definition set_m_async_wt v s := mk_socket (m_sm s) (m_family s) (m_type s) (m_protocol
  s) (m_option s) (m_addr s) (m_bind_addr s) (m_fd s) (m_sbc s) (m_tlp s) (m_state s)
  (m_rflag s) (m_wflag s) (m_sb s) (m_rb s) (m_delay_wp s) v (m_rps_q s)
  (m_rps_q_standby s).
Definition set_m_rps_q v s := mk_socket (m_sm s) (m_family s) (m_type s) (m_protocol s)
  (m_option s) (m_addr s) (m_bind_addr s) (m_fd s) (m_sbc s) (m_tlp s) (m_state s)
  (m_rflag s) (m_wflag s) (m_sb s) (m_rb s) (m_delay_wp s) (m_async_wt s) v
  (m_rps_q_standby s).
Definition set_m_rps_q_standby v s := mk_socket (m_sm s) (m_family s) (m_type s)
  (m_protocol s) (m_option s) (m_addr s) (m_bind_addr s) (m_fd s) (m_sbc s) (m_tlp s)
  (m_state s) (m_rflag s) (m_wflag s) (m_sb s) (m_rb s) (m_delay_wp s) (m_async_wt s)
  (m_rps_q s) v.
End socket.
Arguments socket : clear implicits.

(** ** The state a method works on *)
Section state.
Context {T E : Type}.
Local Abbreviation socket := (socket T).

Record st : Type := mk_st {
  so : socket;
  env : E;
  locks : list lock;
  ops : list event_op;
  wcp_ops : list event_op;
  tasks : list task;
  trace : list effect
}.
Definition set_so v s := mk_st v (env s) (locks s) (ops s) (wcp_ops s) (tasks s) (trace
  s).
Definition set_env v s := mk_st (so s) v (locks s) (ops s) (wcp_ops s) (tasks s) (trace
  s).
Definition set_locks v s := mk_st (so s) (env s) v (ops s) (wcp_ops s) (tasks s) (trace
  s).
Definition set_ops v s := mk_st (so s) (env s) (locks s) v (wcp_ops s) (tasks s) (trace
  s).
Definition set_wcp_ops v s := mk_st (so s) (env s) (locks s) (ops s) v (tasks s) (trace
  s).
Definition set_tasks v s := mk_st (so s) (env s) (locks s) (ops s) (wcp_ops s) v (trace
  s).
Definition set_trace v s := mk_st (so s) (env s) (locks s) (ops s) (wcp_ops s) (tasks s)
  v.

Definition so_get {A} (f : socket -> A) : M st A := gets (fun s => f (so s)).
Definition so_upd (f : socket -> socket) : M st unit := modify (fun s => set_so (f (so s)) s).

(** A call through a function pointer. *)
Definition in_env {A} (m : M E A) : M st A := zoom env set_env m.

(** [lock_guard<spin_mutex>]: a lock the caller already holds is never
    released. *)
Definition acquire (l : lock) : M st unit :=
  held ← gets locks;
  if bool_decide (l ∈ held) then fail Waits else modify (set_locks (l :: held)).
Definition release (l : lock) : M st unit :=
  modify (fun s => set_locks (filter (fun l' => l' <> l) (locks s)) s).
Definition with_lock {A} (l : lock) (m : M st A) : M st A :=
  acquire l;; a ← m; release l;; mret a.

Definition trigger (e : socket_event) : M st unit :=
  modify (fun s => set_trace (trace s ++ [Triggered e]) s).
Definition call (fn : fn_io_event) (c : option Z) : M st unit :=
  modify (fun s => set_trace (trace s ++ [Called fn c]) s).
Definition call_error (err : fn_io_event_error) (code : Z) (c : option Z) : M st unit :=
  modify (fun s => set_trace (trace s ++ [CalledError err code c]) s).

(** [WAWO_SCHEDULER->schedule] and [oschedule]: the task waits for a thread. *)
Definition schedule (t : task) : M st unit := modify (fun s => set_tasks (tasks s ++ [t]) s).

(** *** Rules of [wp] *)
Lemma wp_so (w : st) Q : wp (so_get id) w Q <-> Q w (so w).
Proof. done. Qed.
Lemma wp_so_get {A} (f : socket -> A) (w : st) Q : wp (so_get f) w Q <-> Q w (f (so w)).
Proof. done. Qed.
Lemma wp_so_upd f (w : st) Q : wp (so_upd f) w Q <-> Q (set_so (f (so w)) w) tt.
Proof. done. Qed.
Lemma wp_in_env {A} (m : M E A) (w : st) Q :
  wp (in_env m) w Q <-> wp m (env w) (fun e a => Q (set_env e w) a).
Proof. apply wp_zoom. Qed.
Lemma wp_schedule t (w : st) Q : wp (schedule t) w Q <-> Q (set_tasks (tasks w ++ [t]) w) tt.
Proof. done. Qed.
Lemma wp_trigger e (w : st) Q :
  wp (trigger e) w Q <-> Q (set_trace (trace w ++ [Triggered e]) w) tt.
Proof. done. Qed.

Lemma wp_with_lock {A} (l : lock) (m : M st A) (w : st) Q :
  l ∉ locks w ->
  wp m (set_locks (l :: locks w) w)
    (fun w' a => locks w' = l :: locks w /\ Q (set_locks (locks w) w') a) ->
  wp (with_lock l m) w Q.
Proof.
  intros Hl Hm. unfold with_lock, acquire, release. rewrite !wp_bind, wp_gets.
  rewrite bool_decide_false by done. rewrite wp_modify, wp_bind.
  eapply wp_mono; [exact Hm|]. intros w' a [Eq HQ]. rewrite wp_bind, wp_modify, wp_ret.
  assert (filter (fun l' => l' <> l) (locks w') = locks w) as ->; [|exact HQ].
  rewrite Eq, filter_cons_False by naive_solver. apply filter_all.
  apply Forall_forall. intros x Hx ->. done.
Qed.
End state.
Arguments st : clear implicits.

#[export] Hint Rewrite @wp_so @wp_so_get @wp_so_upd @wp_in_env @wp_schedule @wp_trigger : wp.
