(* ===== verification/SocketTlp.v ===== *)
(** * SocketTlp: the protocols a socket can hold
    ([include/wawo/net/tlp_abstract.hpp] and [include/wawo/net/tlp/])

    The instances of [tlp_abstract]: [hlen_packet], [stream],
    [symmetric_encrypt] and [dh_symmetric_encrypt].  The first three keep the
    handshake of the base class, which is always done.

    A socket calls its protocol through the virtual functions of the base class.
    [symmetric_encrypt::decode_packets] has one parameter less than the virtual
    function of that name, which it hides and does not override: the slot of
    [symmetric_encrypt] is the one it inherits from [hlen_packet]. *)

From S2P Require Import Prelude Bytes Ring Packet Xxtea Tlp Dh DhProofs SocketData.

Section tlp.
Context `{memory}.

#[export] Instance hlen_tlp : tlp_abstract hlen_packet.t := {|
  handshake_make_hello_packet d := Ok (d, E_TLP_HANDSHAKE_DONE, None);
  handshake_handshaking _ := false;
  handshake_done _ := true;
  tlp_encode d inp := '(ec, out) ← hlen_packet.encode inp; Ok (d, ec, out);
  tlp_decode_packets d buffer size ec_o :=
    '(d, buffer, arrives, ec) ← hlen_packet.decode_packets d buffer size;
    Ok (d, buffer, arrives, ec, None)
|}.

(** [stream] has no state. *)
#[export] Instance stream_tlp : tlp_abstract unit := {|
  handshake_make_hello_packet d := Ok (d, E_TLP_HANDSHAKE_DONE, None);
  handshake_handshaking _ := false;
  handshake_done _ := true;
  tlp_encode d inp := let '(ec, out) := stream.encode inp in Ok (d, ec, Some out);
  tlp_decode_packets d buffer size ec_o :=
    '(buffer, arrives, ec) ← stream.decode_packets buffer size;
    Ok (d, buffer, arrives, ec, None)
|}.

#[export] Instance symmetric_tlp `{!cipher_abstract C} : tlp_abstract (symmetric_encrypt.t C) := {|
  handshake_make_hello_packet s := Ok (s, E_TLP_HANDSHAKE_DONE, None);
  handshake_handshaking _ := false;
  handshake_done _ := true;
  tlp_encode s inp := '(ec, out) ← symmetric_encrypt.encode s inp; Ok (s, ec, out);
  tlp_decode_packets s buffer size ec_o :=
    '(d, buffer, arrives, ec) ← hlen_packet.decode_packets (symmetric_encrypt.base s) buffer size;
    Ok (symmetric_encrypt.mk d (symmetric_encrypt.m_cipher s), buffer, arrives, ec, None)
|}.

(** The key exchange draws random numbers: [rnd n] are those of its [n]-th call. *)
Section dh.
Context (little : bool) (rnd : nat -> list Z * Z * Z).
Context (cookie_context : list Z -> dh_symmetric_encrypt.DH_Context) (sizeof_DH_Context : Z).

Record dh_protocol : Type := mk_dh { dh_state : dh_symmetric_encrypt.t; drawn : nat }.

#[export] Instance dh_tlp : tlp_abstract dh_protocol := {|
  handshake_make_hello_packet s :=
    let '(randoms, r32, _) := rnd (drawn s) in
    '(d, ec, hello) ← dh_symmetric_encrypt.handshake_make_hello_packet cookie_context
                        sizeof_DH_Context randoms r32 (dh_state s);
    Ok (mk_dh d (S (drawn s)), ec, hello);
  handshake_handshaking s := dh_symmetric_encrypt.handshake_handshaking (dh_state s);
  handshake_done s := dh_symmetric_encrypt.handshake_done (dh_state s);
  tlp_encode s inp :=
    '(ec, out) ← dh_symmetric_encrypt.encode little (dh_state s) inp; Ok (s, ec, out);
  tlp_decode_packets s buffer size ec_o :=
    let '(randoms, r1, r2) := rnd (drawn s) in
    '(d, buffer, arrives, ec, out) ←
       dh_symmetric_encrypt.decode_packets little randoms r1 r2 (dh_state s) buffer size ec_o;
    Ok (mk_dh d (S (drawn s)), buffer, arrives, ec, out)
|}.
End dh.
End tlp.

(** ** What the hidden function means to a socket *)
Section hidden.
Context `{memory} `{CI : !cipher_abstract C}.
Import frames.

(** A socket whose protocol is [symmetric_encrypt] gives its listeners the ciphertext: the
    packets the protocol enciphers are framed, and the decoder the socket reaches hands
    over the frames as they are, whatever cipher the receiver has. *)
Theorem symmetric_socket_stays_enciphered (s1 s2 : symmetric_encrypt.t C) c ps (q : bytes_ringbuffer.t) size ec :
  symmetric_encrypt.m_cipher s1 = Some c -> c_wf c ->
  Forall (fun p => packet.wf p /\ message_ok (packet.data p)
                   /\ zlen (packet.data p) + 8 <= bq_capacity q) ps -> 0 <= size ->
  wf_dec (symmetric_encrypt.base s2) q ->
  exists os, Forall2 (fun p o => tlp_encode s1 p = Ok (s1, OK, Some o)) ps os
    /\ (pending (symmetric_encrypt.base s2) q = concat (map packet.data os) ->
        exists s2' q' packs, tlp_decode_packets s2 q size ec
            = Ok (s2', q', packs, (if (Z.to_nat size <? length ps)%nat then E_TLP_TRY_AGAIN else OK), None)
          /\ map packet.data packs = take (Z.to_nat size) (map (fun p => c_text c (packet.data p)) ps)).
Proof.
  intros Hc Wc Hps Hs Wd.
  assert (HE : exists os, Forall2 (fun p o => tlp_encode s1 p = Ok (s1, OK, Some o)) ps os
    /\ map packet.data os = map frame (map (fun p => c_text c (packet.data p)) ps)).
  { clear Wd. induction Hps as [|p ps (Wp & Hm & _) _ (os & F & D)]; [by exists []|].
    destruct (symmetric_encode s1 c p Hc Wc Wp Hm) as (o & E & _ & Do & _).
    exists (o :: os). split; [constructor; [|done] | by cbn; rewrite Do, D].
    cbn [tlp_encode symmetric_tlp]. by rewrite E. }
  destruct HE as (os & F & D). exists os. split; [done|]. intros P. rewrite D in P.
  set (texts := map (fun p => c_text c (packet.data p)) ps) in *.
  assert (Htext : Forall (ok_msg (bq_capacity q)) texts).
  { apply Forall_map. eapply Forall_impl; [exact Hps|]. intros p (_ & Hm & Hz).
    destruct (c_text_ok c _ Wc Hm) as [B L].
    destruct Hm as [_ Hm]. split; [done|]. lia. }
  rewrite <- (app_nil_r (concat _)) in P. pose proof (bq_bound q (dec_queue _ _ Wd)) as Hb.
  destruct (decode_spec (bq_capacity q) texts [] (symmetric_encrypt.base s2) q size Htext
    (incomplete_nil _ (proj1 Hb)) Wd eq_refl P Hs) as (d' & q' & packs & E & F' & _).
  cbn [tlp_decode_packets symmetric_tlp]. rewrite E. cbn [mbind res_bind app]. do 3 eexists.
  split; [unfold texts; by rewrite length_map|].
  clear -F'. induction F' as [|p m l ms (_ & Dp & _) _ IH]; [done|]. cbn. by rewrite Dp, IH.
Qed.
End hidden.

(** ** A witness: the frame of one message enciphered with xxtea *)
Definition sample_frame : list Z :=
  frames.frame (xxtea_enc (xxtea.m_key sample_key) (packet.data sample_packet)).

Lemma symmetric_socket_stays_enciphered_witness :
  exists s2' q' packs,
    tlp_decode_packets (tlp_abstract := symmetric_tlp (cipher_abstract0 := xxtea_cipher true)) sample_side (tlp_ring sample_frame) 5 0
    = Ok (s2', q', packs, OK, None)
    /\ map packet.data packs = [xxtea_enc (xxtea.m_key sample_key) (packet.data sample_packet)]
    /\ map packet.data packs <> [packet.data sample_packet].
Proof.
  destruct (symmetric_socket_stays_enciphered (CI := xxtea_cipher true) sample_side sample_side sample_key
    [sample_packet] (tlp_ring sample_frame) 5 0) as (os & F & HD).
  - reflexivity.
  - exact sample_key_wf.
  - repeat constructor; try apply sample_packet_wf; vm_compute; intuition discriminate.
  - done.
  - split; [apply tlp_ring_wf; vm_compute; lia | | done]. cbn. rewrite tlp_ring_contents.
    vm_compute. repeat constructor; discriminate.
  - destruct HD as (s2' & q' & packs & E & D).
    + inversion F as [|p o ps' os' Ho F' Ep Eo]; subst. inversion F'; subst. vm_compute in Ho.
      injection Ho as <-. vm_compute. reflexivity.
    + exists s2', q', packs. split; [exact E|]. rewrite D. split; [reflexivity|]. vm_compute. discriminate.
Defined.
