(* ===== verification/SockFns.v ===== *)
(** * SockFns: the function pointers of a socket
    ([src/net/socket_base.cpp], namespaces [standard_socket] and [wcp_socket])

    [socket_base] calls the network through pointers [m_fn_...] that
    [_socket_fn_init] points at the system calls or at [class wcp] (Wcp).
    - [system]: the system calls, with arbitrary answers (a result and [errno]);
    - [sock_fns]: the table of pointers;
    - [standard_socket], [wcp_socket]: the two tables. *)

From S2P Require Import Prelude Effects Address Wcp SocketData.

(** ** The system calls

    Each answers its result and [errno].  [signals] is the number of signals
    still to interrupt the calls of the thread. *)
Class system (K : Type) := {
  sys_socket : Z -> Z -> Z -> K -> K * (Z * Z);
  sys_connect : Z -> Z * Z * Z -> K -> K * (Z * Z);
  sys_bind : Z -> Z * Z * Z -> K -> K * (Z * Z);
  sys_shutdown : Z -> Z -> K -> K * (Z * Z);
  sys_close : Z -> K -> K * (Z * Z);
  sys_listen : Z -> Z -> K -> K * (Z * Z);
  sys_accept : Z -> K -> K * (Z * Z * (Z * Z));
  sys_getsockopt : Z -> Z -> Z -> K -> K * (Z * Z * list Z);
  sys_setsockopt : Z -> Z -> Z -> list Z -> K -> K * (Z * Z);
  sys_getsockname : Z -> K -> K * (Z * Z * (Z * Z * Z));
  sys_send : Z -> list Z -> Z -> K -> K * (Z * Z);
  sys_recv : Z -> Z -> Z -> K -> K * (Z * Z * list Z);
  sys_sendto : Z -> list Z -> Z -> Z * Z * Z -> K -> K * (Z * Z);
  sys_recvfrom : Z -> Z -> Z -> K -> K * (Z * Z * list Z * (Z * Z));
  sys_fcntl : Z -> Z -> Z -> K -> K * (Z * Z);
  sys_ioctl : Z -> Z -> K -> K * (Z * Z * Z);
  curr_milliseconds : K -> K * Z;
  curr_microseconds : K -> K * Z;
  usleep : Z -> K -> K * unit;
  signals : K -> nat
}.

Section env.
Context {K : Type}.

Record senv : Type := mk_env { kern : K; the_wcp : wcp }.
Definition set_kern v e := mk_env v (the_wcp e).
Definition set_the_wcp v e := mk_env (kern e) v.

Definition sys {A} (f : K -> K * A) : M senv A :=
  fun e => let '(k, a) := f (kern e) in Ok (set_kern k e, a).

(** A method of [wcp::instance()]. *)
Definition wcp_call {A} (f : wcp -> res (wcp * A)) : M senv A := zoom the_wcp set_the_wcp f.

(** The pointers.  A [sockaddr_in] is its family, its address and its port; an
    option is a list of integers.  [fn_send] and [fn_recv] take the value of
    the caller's [ec_o] and answer the new one. *)
Record sock_fns : Type := mk_fns {
  m_fn_socket : Z -> Z -> Z -> M senv Z;
  m_fn_connect : Z -> Z * Z * Z -> M senv Z;
  m_fn_bind : Z -> Z * Z * Z -> M senv Z;
  m_fn_shutdown : Z -> Z -> M senv Z;
  m_fn_close : Z -> M senv Z;
  m_fn_listen : Z -> Z -> M senv Z;
  m_fn_accept : Z -> M senv (Z * (Z * Z));
  m_fn_getsockopt : Z -> Z -> Z -> M senv (Z * list Z);
  m_fn_setsockopt : Z -> Z -> Z -> list Z -> M senv Z;
  m_fn_getsockname : Z -> M senv (Z * (Z * Z * Z));
  m_fn_send : Z -> list Z -> Z -> Z -> M senv (Z * Z);
  m_fn_recv : Z -> Z -> Z -> Z -> M senv (list Z * Z);
  m_fn_sendto : Z -> list Z -> address.t -> Z -> Z -> M senv (Z * Z);
  m_fn_recvfrom : Z -> Z -> address.t -> Z -> Z -> M senv (list Z * address.t * Z)
}.
End env.
Arguments senv : clear implicits.
Arguments sock_fns : clear implicits.

(** ** The system calls as the library calls them *)
Module standard_socket.
Section standard.
Context `{system K}.

Definition result (ok : bool) (v errno : Z) : Z := if ok then v else WAWO_NEGATIVE errno.

Definition socket (family socket_type protocol : Z) : M (senv K) Z :=
  '(rt, errno) ← sys (sys_socket family socket_type protocol);
  mret (result (0 <? rt) rt errno).
Definition connect (fd : Z) (addr : Z * Z * Z) : M (senv K) Z :=
  '(rt, errno) ← sys (sys_connect fd addr); mret (result (rt =? 0) 0 errno).
Definition bind (fd : Z) (addr : Z * Z * Z) : M (senv K) Z :=
  '(rt, errno) ← sys (sys_bind fd addr); mret (result (rt =? 0) 0 errno).
Definition shutdown (fd flag : Z) : M (senv K) Z :=
  '(rt, errno) ← sys (sys_shutdown fd flag); mret (result (rt =? 0) 0 errno).
Definition close (fd : Z) : M (senv K) Z :=
  '(rt, errno) ← sys (sys_close fd); mret (result (rt =? 0) 0 errno).
Definition listen (fd backlog : Z) : M (senv K) Z :=
  '(rt, errno) ← sys (sys_listen fd backlog); mret (result (rt =? 0) 0 errno).
Definition accept (fd : Z) : M (senv K) (Z * (Z * Z)) :=
  '(accepted_fd, errno, addr) ← sys (sys_accept fd);
  mret (result (0 <? accepted_fd) accepted_fd errno, addr).
Definition getsockopt (fd level option_name : Z) : M (senv K) (Z * list Z) :=
  '(rt, errno, value) ← sys (sys_getsockopt fd level option_name);
  mret (result (rt =? 0) 0 errno, value).
Definition setsockopt (fd level option_name : Z) (value : list Z) : M (senv K) Z :=
  '(rt, errno) ← sys (sys_setsockopt fd level option_name value);
  mret (result (rt =? 0) 0 errno).
Definition getsockname (fd : Z) : M (senv K) (Z * (Z * Z * Z)) :=
  '(rt, errno, addr) ← sys (sys_getsockname fd); mret (result (rt =? 0) 0 errno, addr).

(** Send until everything is sent or the call fails; an interrupted call is
    made again. *)
Fixpoint send_loop (fuel : nat) (fd : Z) (buffer : list Z) (flag sent_total ec_o : Z)
    : M (senv K) (Z * Z) :=
  match fuel with
  | O => fail Diverged
  | S fuel' =>
      '(sent, ec) ← sys (sys_send fd (drop (Z.to_nat sent_total) buffer) flag);
      if 0 <? sent then
        let sent_total := sent_total +₃₂ sent in
        if sent_total =? zlen buffer then mret (sent_total, OK)
        else send_loop fuel' fd buffer flag sent_total OK
      else
        assertM (sent =? -1);;
        if IS_ERRNO_EQUAL_WOULDBLOCK ec then mret (sent_total, E_SOCKET_SEND_BLOCK)
        else if ec =? EINTR then send_loop fuel' fd buffer flag sent_total ec_o
        else mret (sent_total, WAWO_NEGATIVE ec)
  end.

Definition send (fd : Z) (buffer : list Z) (ec_o flag : Z) : M (senv K) (Z * Z) :=
  assertM (0 <? zlen buffer);;
  n ← gets (fun e => signals (kern e));
  send_loop (S (length buffer + n)) fd buffer flag 0 ec_o.

Fixpoint recv_loop (fuel : nat) (fd size flag ec_o : Z) : M (senv K) (list Z * Z) :=
  match fuel with
  | O => fail Diverged
  | S fuel' =>
      '(r, ec, bytes) ← sys (sys_recv fd size flag);
      if 0 <? r then mret (bytes, OK)
      else if r =? 0 then mret ([], E_SOCKET_GRACE_CLOSE)
      else
        assertM (r =? -1);;
        if IS_ERRNO_EQUAL_WOULDBLOCK ec then mret ([], E_SOCKET_RECV_BLOCK)
        else if ec =? EINTR then recv_loop fuel' fd size flag ec_o
        else assertM (negb (ec =? OK));; mret ([], WAWO_NEGATIVE ec)
  end.

Definition recv (fd size ec_o flag : Z) : M (senv K) (list Z * Z) :=
  assertM (0 <? size);;
  n ← gets (fun e => signals (kern e));
  recv_loop (S n) fd size flag ec_o.

Definition AF_INET : Z := 2.

Fixpoint sendto_loop (fuel : nat) (fd : Z) (buff : list Z) (addr : Z * Z * Z) (flag ec_o : Z)
    : M (senv K) (Z * Z) :=
  match fuel with
  | O => fail Diverged
  | S fuel' =>
      '(sent, ec) ← sys (sys_sendto fd buff flag addr);
      if 0 <? sent then assertM (sent =? zlen buff);; mret (sent, OK)
      else
        assertM (sent =? -1);;
        if IS_ERRNO_EQUAL_WOULDBLOCK ec then mret (0, E_SOCKET_SEND_BLOCK)
        else if ec =? EINTR then sendto_loop fuel' fd buff addr flag ec_o
        else mret (0, WAWO_NEGATIVE ec)
  end.

Definition sendto (fd : Z) (buff : list Z) (addr : address.t) (ec_o flag : Z) : M (senv K) (Z * Z) :=
  assertM (0 <? zlen buff);;
  assertM (negb (address.get_netsequence_ulongip addr =? 0));;
  n ← gets (fun e => signals (kern e));
  sendto_loop (S n) fd buff
    (AF_INET, address.get_netsequence_ulongip addr, address.get_netsequence_port addr) flag OK.

Fixpoint recvfrom_loop (fuel : nat) (fd size flag : Z) (addr_o : address.t) (ec_o : Z)
    : M (senv K) (list Z * address.t * Z) :=
  match fuel with
  | O => fail Diverged
  | S fuel' =>
      '(nbytes, ern, bytes, (s_addr, sin_port)) ← sys (sys_recvfrom fd size flag);
      if 0 <? nbytes then
        mret (bytes, address.set_netsequence_ulongip s_addr
                       (address.set_netsequence_port sin_port addr_o), OK)
      else
        assertM (nbytes =? -1);;
        if IS_ERRNO_EQUAL_WOULDBLOCK ern then mret ([], addr_o, E_SOCKET_RECV_BLOCK)
        else if ern =? EINTR then recvfrom_loop fuel' fd size flag addr_o ec_o
        else mret ([], addr_o, WAWO_NEGATIVE ern)
  end.

Definition recvfrom (fd size : Z) (addr_o : address.t) (ec_o flag : Z)
    : M (senv K) (list Z * address.t * Z) :=
  n ← gets (fun e => signals (kern e));
  recvfrom_loop (S n) fd size flag addr_o ec_o.

Definition fns : sock_fns K :=
  mk_fns socket connect bind shutdown close listen accept getsockopt setsockopt getsockname
    send recv sendto recvfrom.
End standard.
End standard_socket.

(** ** The calls of [class wcp] *)
Module wcp_socket.
Section wcp.
Context `{WcpData.wcp_env} `{wcp_sockets} `{system K}.

Definition sockaddr_address (addr : Z * Z * Z) : address.t :=
  let '(_, s_addr, sin_port) := addr in address.of_sockaddr s_addr sin_port.
Definition address_sockaddr (a : option address.t) : Z * Z :=
  match a with
  | Some a => (address.get_netsequence_ulongip a, address.get_netsequence_port a)
  | None => (0, 0)
  end.

Definition socket (family socket_type protocol : Z) : M (senv K) Z :=
  wcp_call (Wcp.socket family socket_type protocol).
(** A blocking connect waits for the handshake. *)
Definition connect (fd : Z) (addr : Z * Z * Z) : M (senv K) Z :=
  r ← wcp_call (Wcp.api_connect fd (sockaddr_address addr));
  match r with Some rt => mret rt | None => fail Waits end.
Definition bind (fd : Z) (addr : Z * Z * Z) : M (senv K) Z :=
  wcp_call (Wcp.bind fd (sockaddr_address addr)).
Definition shutdown (fd flag : Z) : M (senv K) Z := wcp_call (Wcp.api_shutdown fd flag).
Definition close (fd : Z) : M (senv K) Z := wcp_call (Wcp.api_close fd).
Definition listen (fd backlog : Z) : M (senv K) Z := wcp_call (Wcp.api_listen fd backlog).
Definition accept (fd : Z) : M (senv K) (Z * (Z * Z)) :=
  wcp_call (fun s => '(s, r, a) ← Wcp.accept fd s; Ok (s, (r, address_sockaddr a))).
Definition getsockopt (fd level option_name : Z) : M (senv K) (Z * list Z) :=
  wcp_call (fun s => '(s, r, v) ← Wcp.getsockopt fd option_name s;
                     Ok (s, (r, match v with Some v => [v] | None => [] end))).
Definition setsockopt (fd level option_name : Z) (value : list Z) : M (senv K) Z :=
  wcp_call (Wcp.setsockopt fd option_name (default 0 (head value))).
Definition getsockname (fd : Z) : M (senv K) (Z * (Z * Z * Z)) :=
  wcp_call (fun s => '(s, r, a) ← Wcp.getsockname fd s;
                     let '(ip, port) := address_sockaddr a in
                     Ok (s, (r, (standard_socket.AF_INET, ip, port)))).

Fixpoint send_loop (fuel : nat) (fd : Z) (buffer : list Z) (sent_total ec_o : Z)
    : M (senv K) (Z * Z) :=
  match fuel with
  | O => fail Diverged
  | S fuel' =>
      r ← wcp_call (Wcp.send fd (drop (Z.to_nat sent_total) buffer) (zlen buffer -₃₂ sent_total));
      if 0 <? r then
        let sent_total := sent_total +₃₂ r in
        if sent_total =? zlen buffer then mret (sent_total, OK)
        else send_loop fuel' fd buffer sent_total OK
      else
        assertM (r <? 0);;
        if IS_ERRNO_EQUAL_WOULDBLOCK (WAWO_ABS r) then mret (sent_total, E_SOCKET_SEND_BLOCK)
        else mret (sent_total, r)
  end.

Definition send (fd : Z) (buffer : list Z) (ec_o flag : Z) : M (senv K) (Z * Z) :=
  assertM (0 <? zlen buffer);; send_loop (S (length buffer)) fd buffer 0 ec_o.

(** [class wcp] answers no [EINTR] by itself; an error it answers again and
    again keeps the loop going. *)
Fixpoint recv_loop (fuel : nat) (fd size ec_o : Z) : M (senv K) (list Z * Z) :=
  match fuel with
  | O => fail Diverged
  | S fuel' =>
      a ← wcp_call (Wcp.recv fd size);
      match a with
      | None => fail Waits
      | Some (r, bytes) =>
          if 0 <? r then mret (bytes, OK)
          else if r =? 0 then mret ([], E_SOCKET_GRACE_CLOSE)
          else if IS_ERRNO_EQUAL_WOULDBLOCK (WAWO_ABS r) then mret ([], E_SOCKET_RECV_BLOCK)
          else if WAWO_ABS r =? EINTR then recv_loop fuel' fd size ec_o
          else mret ([], WAWO_NEGATIVE r)
      end
  end.

Definition recv (fd size ec_o flag : Z) : M (senv K) (list Z * Z) :=
  assertM (0 <? size);; recv_loop 2 fd size ec_o.

Definition WCP_F_GETFL : Z := 1.
Definition WCP_F_SETFL : Z := 2.

(** [flag] stays -1 when the descriptor is unknown. *)
Definition fcntl (fd cmd flag : Z) : M (senv K) Z :=
  if cmd =? WCP_F_SETFL then wcp_call (fcntl_setfl fd flag)
  else if cmd =? WCP_F_GETFL then
    wcp_call (fun s => '(s, _, v) ← fcntl_getfl fd s; Ok (s, default (-1) v))
  else wcp_call (fun s => Ok (set_last_errno WcpData.E_WCP_WPOLL_INVALID_OP s, -1)).

Definition fns : sock_fns K :=
  mk_fns socket connect bind shutdown close listen accept getsockopt setsockopt getsockname
    send recv standard_socket.sendto standard_socket.recvfrom.
End wcp.
End wcp_socket.
