(* ===== verification/SocketBase.v ===== *)
(** * SocketBase: [class socket_base]
    ([include/wawo/net/socket_base.hpp], [src/net/socket_base.cpp])

    Opening, binding, listening, accepting, connecting, shutting down and
    closing; the options; the plain [send] and [recv]; and the requests to the
    observer ([begin_async_...], [end_async_...]). *)

From S2P Require Import Prelude Effects Ring Packet Address Wcp SocketData SockFns.

Module socket_base.
Section socket_base.
Context `{WcpData.wcp_env} `{wcp_sockets} `{system K} {T : Type}.
Local Abbreviation MS := (M (st T (senv K))).

(** ** Construction *)
Definition is_wcp (s : socket T) : bool := bool_decide (m_protocol s = P_WCP).
Definition is_data_socket (s : socket T) : bool := bool_decide (m_sm s <> SM_LISTENER).
Definition is_listener (s : socket T) : bool := bool_decide (m_sm s = SM_LISTENER).
Definition is_active (s : socket T) : bool := bool_decide (m_sm s = SM_ACTIVE).
Definition is_nonblocking (s : socket T) : bool := flag_on (m_option s) OPTION_NON_BLOCKING.
Definition is_nodelay (s : socket T) : bool := flag_on (m_option s) OPTION_NODELAY.
Definition is_connected (s : socket T) : bool := bool_decide (m_state s = S_CONNECTED).
Definition is_connecting (s : socket T) : bool := bool_decide (m_state s = S_CONNECTING).
Definition is_closed (s : socket T) : bool := bool_decide (m_state s = S_CLOSED).
Definition is_read_shutdowned (s : socket T) : bool := flag_on (m_rflag s) SHUTDOWN_RD.
Definition is_write_shutdowned (s : socket T) : bool := flag_on (m_wflag s) SHUTDOWN_WR.
Definition is_readwrite_shutdowned (s : socket T) : bool :=
  Z.land (Z.lor (m_rflag s) (m_wflag s)) SHUTDOWN_RDWR =? SHUTDOWN_RDWR.

(** [_socket_fn_init]. *)
Definition _socket_fn_init (p : protocol_type) : sock_fns K :=
  if decide (p = P_WCP) then wcp_socket.fns else standard_socket.fns.
Definition fns_of (s : socket T) : sock_fns K := _socket_fn_init (m_protocol s).

(** The two kinds of constructors: a connected descriptor, or no descriptor
    yet; the buffers are those [socket::_init] makes. *)
Definition make_connected (fd : Z) (addr : address.t) (sm : socket_mode) (sbc : socket_buffer_cfg)
    (f : family) (t : sock_type) (p : protocol_type) (option : Z)
    (sb rb : bytes_ringbuffer.t) : res (socket T) :=
  wawo_assert (0 <? fd);;
  wawo_assert (rcv_size_ok sbc);;
  wawo_assert (snd_size_ok sbc);;
  Ok (mk_socket sm f t p option addr 0 fd sbc None S_CONNECTED 0 0 sb rb
        WAWO_MAX_ASYNC_WRITE_PERIOD 0 [] []).

Definition make_dummy (sbc : socket_buffer_cfg) (f : family) (t : sock_type) (p : protocol_type)
    (option : Z) (sb rb : bytes_ringbuffer.t) : res (socket T) :=
  wawo_assert (rcv_size_ok sbc);;
  wawo_assert (snd_size_ok sbc);;
  Ok (mk_socket SM_NONE f t p option 0 0 (-1) sbc None S_CLOSED SHUTDOWN_RD SHUTDOWN_WR sb rb
        WAWO_MAX_ASYNC_WRITE_PERIOD 0 [] []).

(** ** The observer *)
Definition push_op (iswcp : bool) (o : event_op) : MS unit :=
  assertM (0 <? o_fd o);;
  modify (fun s => if iswcp then set_wcp_ops (wcp_ops s ++ [o]) s else set_ops (ops s ++ [o]) s).

(** [watch] and [unwatch] of [socket_observer.hpp]; the pointers given are
    never null here. *)
Definition watch (iswcp : bool) (flag fd : Z) (c : cookie) (fn : fn_io_event)
    (err : fn_io_event_error) : MS unit :=
  assertM (0 <? flag);; assertM (0 <? fd);;
  push_op iswcp (mk_op flag OP_WATCH fd (Some c) (Some fn) (Some err)).
Definition unwatch (iswcp : bool) (flag fd : Z) : MS unit :=
  assertM (0 <? flag);; assertM (0 <? fd);;
  push_op iswcp (mk_op flag OP_UNWATCH fd None None None).

Definition _end_async_read : MS unit :=
  s ← so_get id;
  when (flag_on (m_rflag s) WATCH_READ && is_nonblocking s)
    (so_upd (fun s => set_m_rflag (flag_clear (m_rflag s) (Z.lor WATCH_READ WATCH_OPTION_INFINITE)) s);;
     unwatch (is_wcp s) IOE_READ (m_fd s)).
Definition _end_async_write : MS unit :=
  s ← so_get id;
  when (flag_on (m_wflag s) WATCH_WRITE && is_nonblocking s)
    (so_upd (fun s => set_m_wflag (flag_clear (m_wflag s) (Z.lor WATCH_WRITE WATCH_OPTION_INFINITE)) s);;
     unwatch (is_wcp s) IOE_WRITE (m_fd s)).
Definition end_async_connect : MS unit := with_lock L_WRITE _end_async_write.
Definition end_async_handshake : MS unit := with_lock L_READ _end_async_read.
Definition end_async_read : MS unit := with_lock L_READ _end_async_read.
Definition end_async_write : MS unit := with_lock L_WRITE _end_async_write.

Definition begin_async_connect (cookie : option Z) (fn : fn_io_event) (err : fn_io_event_error)
    : MS unit :=
  s ← so_get id;
  assertM (is_connected s || is_connecting s);;
  assertM (is_nonblocking s);;
  with_lock L_WRITE (
    s ← so_get id;
    assertM (negb (flag_on (m_wflag s) SHUTDOWN_WR));;
    assertM (negb (flag_on (m_wflag s) WATCH_WRITE));;
    so_upd (fun s => set_m_wflag (flag_set (m_wflag s) WATCH_WRITE) s);;
    watch (is_wcp s) IOE_WRITE (m_fd s) (CAsync (mk_cookie cookie (Some fn) (Some err)))
      fn_async_connected fn_async_connect_error).

Definition begin_async_handshake (cookie : Z) (fn : fn_io_event) (err : fn_io_event_error) : MS unit :=
  s ← so_get id;
  assertM (is_nonblocking s);;
  with_lock L_READ (
    s ← so_get id;
    if flag_on (m_rflag s) SHUTDOWN_RD then
      schedule (TCallError err E_INVALID_STATE (CUser (Some cookie)))
    else
      assertM (negb (flag_on (m_rflag s) WATCH_READ));;
      so_upd (fun s => set_m_rflag (flag_set (m_rflag s) WATCH_READ) s);;
      watch (is_wcp s) (Z.lor IOE_READ IOE_INFINITE_WATCH_READ) (m_fd s)
        (CAsync (mk_cookie (Some cookie) (Some fn) (Some err)))
        fn_async_handshake fn_async_handshake_error).

Definition _begin_async_read (async_flag : Z) (cookie : option Z) (fn : fn_io_event)
    (err : fn_io_event_error) : MS unit :=
  s ← so_get id;
  assertM (is_nonblocking s);;
  let _cookie := CAsync (mk_cookie cookie None None) in
  if flag_on (m_rflag s) SHUTDOWN_RD then schedule (TCallError err E_INVALID_STATE _cookie)
  else if flag_on (m_rflag s) WATCH_READ then mret tt
  else
    so_upd (fun s => set_m_rflag (flag_set (m_rflag s) (Z.lor WATCH_READ async_flag)) s);;
    let flag := if flag_on async_flag WATCH_OPTION_INFINITE
                then Z.lor IOE_READ IOE_INFINITE_WATCH_READ else IOE_READ in
    watch (is_wcp s) flag (m_fd s) _cookie fn err;;
    when (flag_on async_flag WATCH_OPTION_POST_READ_EVENT_AFTER_WATCH) (schedule (TCall fn _cookie)).
Definition begin_async_read (async_flag : Z) (cookie : option Z) (fn : fn_io_event)
    (err : fn_io_event_error) : MS unit :=
  with_lock L_READ (_begin_async_read async_flag cookie fn err).

Definition _begin_async_write (async_flag : Z) (cookie : option Z) (fn : fn_io_event)
    (err : fn_io_event_error) : MS unit :=
  s ← so_get id;
  assertM (is_connected s || is_connecting s);;
  assertM (is_nonblocking s);;
  let _cookie := CAsync (mk_cookie cookie None None) in
  if flag_on (m_wflag s) SHUTDOWN_WR then schedule (TCallError err E_INVALID_STATE _cookie)
  else if flag_on (m_wflag s) WATCH_WRITE then mret tt
  else
    so_upd (fun s => set_m_wflag (flag_set (m_wflag s) (Z.lor WATCH_WRITE async_flag)) s);;
    let flag := if flag_on async_flag WATCH_OPTION_INFINITE
                then Z.lor IOE_WRITE IOE_INFINITE_WATCH_WRITE else IOE_WRITE in
    watch (is_wcp s) flag (m_fd s) _cookie fn err.
Definition begin_async_write (async_flag : Z) (cookie : option Z) (fn : fn_io_event)
    (err : fn_io_event_error) : MS unit :=
  with_lock L_WRITE (_begin_async_write async_flag cookie fn err).

Definition handle_async_connected : MS unit :=
  with_lock L_SOCKET (
    s ← so_get id;
    assertM (0 <? m_fd s);;
    assertM (is_active s);;
    assertM (is_nonblocking s);;
    assertM (is_connecting s);;
    so_upd (set_m_state S_CONNECTED)).

Definition get_tlp : MS (option T) := with_lock L_SOCKET (so_get m_tlp).
Definition set_tlp (tlp : T) : MS unit :=
  with_lock L_SOCKET (
    s ← so_get id;
    assertM (match m_tlp s with None => true | Some _ => false end);;
    so_upd (set_m_tlp (Some tlp))).

(** ** Options *)
Definition SOL_SOCKET : Z := 1.
Definition IPPROTO_IP : Z := 0.
Definition IPPROTO_TCP : Z := 6.
Definition SOL_TCP : Z := 6.
Definition SO_BROADCAST : Z := 6.
Definition SO_KEEPALIVE : Z := 9.
Definition SO_LINGER : Z := 13.
Definition TCP_NODELAY : Z := 1.
Definition TCP_KEEPIDLE : Z := 4.
Definition TCP_KEEPINTVL : Z := 5.
Definition TCP_KEEPCNT : Z := 6.
Definition F_GETFL : Z := 3.
Definition F_SETFL : Z := 4.
Definition O_NONBLOCK : Z := 2048.
Definition TIOCOUTQ : Z := 0x5411.

(** [should_set]: the option is to be changed. *)
Definition should_set (option options o : Z) : bool :=
  (flag_on option o && negb (flag_on options o)) || (negb (flag_on option o) && flag_on options o).

Definition set_option_bit (o optval : Z) : MS unit :=
  so_upd (fun s => set_m_option
    (if optval =? 1 then flag_set (m_option s) o else flag_clear (m_option s) o) s).

Definition optval_of (options o : Z) : Z := if flag_on options o then 1 else 0.

(** One option set with [setsockopt]; the answer is the result of the call, or
    [OK] when nothing is to be done. *)
Definition set_one (guard : socket T -> bool) (level name o options : Z) : MS Z :=
  s ← so_get id;
  if should_set (m_option s) options o then
    assertM (guard s);;
    let optval := optval_of options o in
    ret ← in_env (m_fn_setsockopt (fns_of s) (m_fd s) level name [optval]);
    if ret =? 0 then set_option_bit o optval;; mret OK else mret ret
  else mret OK.

(** The descriptor's blocking mode.  For [P_WCP] the mode to clear is masked
    with [WCP_O_NONBLOCK], not with its complement. *)
Definition set_nonblocking_mode (s : socket T) (optval : Z) : MS Z :=
  if is_wcp s then
    mode ← in_env (wcp_socket.fcntl (m_fd s) wcp_socket.WCP_F_GETFL 0);
    in_env (wcp_socket.fcntl (m_fd s) wcp_socket.WCP_F_SETFL
      (if optval =? 1 then Z.lor mode WcpData.WCP_O_NONBLOCK else Z.land mode WcpData.WCP_O_NONBLOCK))
  else
    '(mode, _) ← in_env (sys (sys_fcntl (m_fd s) F_GETFL 0));
    '(ret, _) ← in_env (sys (sys_fcntl (m_fd s) F_SETFL
       (if optval =? 1 then Z.lor mode O_NONBLOCK else Z.ldiff mode O_NONBLOCK)));
    mret ret.

Definition set_nonblocking (options : Z) : MS Z :=
  s ← so_get id;
  if should_set (m_option s) options OPTION_NON_BLOCKING then
    let optval := optval_of options OPTION_NON_BLOCKING in
    ret ← set_nonblocking_mode s optval;
    if ret =? 0 then set_option_bit OPTION_NON_BLOCKING optval;; mret OK else mret ret
  else mret OK.

Definition is_opened (s : socket T) : bool := bool_decide (m_state s = S_OPENED).

(** Run the next step unless one failed. *)
Definition or_ret (m k : MS Z) : MS Z := r ← m; if r =? OK then k else mret r.

Definition _set_options (options : Z) : MS Z :=
  s ← so_get id;
  if m_fd s <? 0 then mret E_INVALID_STATE
  else
    or_ret (if decide (m_type s = ST_DGRAM)
            then set_one (fun _ => true) SOL_SOCKET SO_BROADCAST OPTION_BROADCAST options
            else mret OK)
    (or_ret (set_one is_opened SOL_SOCKET SO_REUSEADDR OPTION_REUSEADDR options)
    (or_ret (set_one is_opened SOL_SOCKET SO_REUSEPORT OPTION_REUSEPORT options)
    (or_ret (set_nonblocking options)
            (if decide (m_type s = ST_STREAM)
             then set_one (fun _ => true) IPPROTO_TCP TCP_NODELAY OPTION_NODELAY options
             else mret OK)))).

(** An answer of [true] is the integer 1. *)
Definition turnoff_nodelay : MS Z :=
  with_lock L_SOCKET (
    s ← so_get id;
    if negb (flag_on (m_option s) OPTION_NODELAY) then mret OK
    else _set_options (flag_clear (m_option s) OPTION_NODELAY)).
Definition turnon_nodelay : MS Z :=
  with_lock L_SOCKET (
    s ← so_get id;
    if flag_on (m_option s) OPTION_NODELAY then mret OK
    else _set_options (flag_set (m_option s) OPTION_NODELAY)).
Definition turnon_nonblocking : MS Z :=
  with_lock L_SOCKET (
    s ← so_get id;
    if flag_on (m_option s) OPTION_NON_BLOCKING then mret OK
    else _set_options (flag_set (m_option s) OPTION_NON_BLOCKING)).
Definition turnoff_nonblocking : MS Z :=
  with_lock L_SOCKET (
    s ← so_get id;
    if negb (flag_on (m_option s) OPTION_NON_BLOCKING) then mret 1
    else _set_options (flag_clear (m_option s) OPTION_NON_BLOCKING)).

Definition reuse_addr : MS Z :=
  s ← so_get id; _set_options (flag_set (m_option s) OPTION_REUSEADDR).
Definition reuse_port : MS Z :=
  s ← so_get id; _set_options (flag_set (m_option s) OPTION_REUSEPORT).

Definition set_snd_buffer_size (size : Z) : MS Z :=
  s ← so_get id;
  assertM ((SOCK_SND_MIN_SIZE <=? size) && (size <=? SOCK_SND_MAX_SIZE));;
  assertM (0 <? m_fd s);;
  in_env (m_fn_setsockopt (fns_of s) (m_fd s) SOL_SOCKET SO_SNDBUF [size]).
Definition set_rcv_buffer_size (size : Z) : MS Z :=
  s ← so_get id;
  assertM ((SOCK_RCV_MIN_SIZE <=? size) && (size <=? SOCK_RCV_MAX_SIZE));;
  assertM (0 <? m_fd s);;
  in_env (m_fn_setsockopt (fns_of s) (m_fd s) SOL_SOCKET SO_RCVBUF [size]).

(** The result and the value of the caller's [size]. *)
Definition get_buffer_size (name size : Z) : MS (Z * Z) :=
  s ← so_get id;
  assertM (0 <? m_fd s);;
  '(rt, v) ← in_env (m_fn_getsockopt (fns_of s) (m_fd s) SOL_SOCKET name);
  mret (if rt =? OK then (OK, u32 (default 0 (head v))) else (rt, size)).
Definition get_snd_buffer_size (size : Z) : MS (Z * Z) := get_buffer_size SO_SNDBUF size.
Definition get_rcv_buffer_size (size : Z) : MS (Z * Z) := get_buffer_size SO_RCVBUF size.

(** [ioctl] on a closed socket is not called. *)
Definition get_left_queue (request size : Z) : MS (Z * Z) :=
  s ← so_get id;
  if m_fd s <=? 0 then mret (-1, 0)
  else
    '(rt, errno, v) ← in_env (sys (sys_ioctl (m_fd s) request));
    mret (if rt =? 0 then (rt, v) else (errno, size)).
Definition get_left_snd_queue (size : Z) : MS (Z * Z) := get_left_queue TIOCOUTQ size.
(** The call passes [size] itself where [ioctl] expects its address. *)
Definition get_left_rcv_queue (size : Z) : MS (Z * Z) :=
  s ← so_get id; if m_fd s <=? 0 then mret (-1, 0) else fail Undefined.

Definition get_linger (on_off : bool) (linger_t : Z) : MS (Z * bool * Z) :=
  s ← so_get id;
  assertM (0 <? m_fd s);;
  '(rt, v) ← in_env (m_fn_getsockopt (fns_of s) (m_fd s) SOL_SOCKET SO_LINGER);
  mret (if rt =? 0 then (rt, negb (default 0 (v !! 0%nat) =? 0), default 0 (v !! 1%nat))
        else (rt, on_off, linger_t)).
Definition set_linger (on_off : bool) (linger_t : Z) : MS Z :=
  s ← so_get id;
  assertM (0 <? m_fd s);;
  in_env (m_fn_setsockopt (fns_of s) (m_fd s) SOL_SOCKET SO_LINGER
            [(if on_off then 1 else 0); linger_t]).

Definition turnon_keep_alive : MS Z :=
  s ← so_get id; in_env (m_fn_setsockopt (fns_of s) (m_fd s) SOL_SOCKET SO_KEEPALIVE [1]).
Definition turnoff_keep_alive : MS Z :=
  s ← so_get id; in_env (m_fn_setsockopt (fns_of s) (m_fd s) SOL_SOCKET SO_KEEPALIVE [0]).

(** [errno] after the call that failed is not what the call answered but the
    thread's; it is the parameter [last_errno]. *)
Definition set_keep_alive_vals (last_errno : Z) (vals : keep_alive_vals) : MS Z :=
  s ← so_get id;
  let set (name v : Z) : MS Z := in_env (m_fn_setsockopt (fns_of s) (m_fd s) SOL_TCP name [v]) in
  let step (b : bool) (name v : Z) (k : MS Z) : MS Z :=
    if b then rt ← set name v; if rt =? 0 then k else mret last_errno else k in
  if is_wcp s then mret OK
  else if onoff vals =? 0 then turnoff_keep_alive
  else
    rt ← turnon_keep_alive;
    if negb (rt =? 0) then mret last_errno
    else
      step (negb (idle vals =? 0)) TCP_KEEPIDLE (Z.quot (idle vals) 1000)
     (step (negb (interval vals =? 0)) TCP_KEEPINTVL (Z.quot (interval vals) 1000)
     (step (negb (probes vals =? 0)) TCP_KEEPCNT (probes vals)
     (mret OK))).

(** The values are in milliseconds; [onoff] is not asked for. *)
Definition get_keep_alive_vals (last_errno : Z) (vals : keep_alive_vals) : MS (Z * keep_alive_vals) :=
  s ← so_get id;
  let get (name : Z) : MS (Z * list Z) := in_env (m_fn_getsockopt (fns_of s) (m_fd s) SOL_TCP name) in
  let step (name : Z) (k : Z -> MS (Z * keep_alive_vals)) : MS (Z * keep_alive_vals) :=
    '(rt, v) ← get name; if rt =? 0 then k (default 0 (head v)) else mret (last_errno, vals) in
  if is_wcp s then mret (OK, vals)
  else
    step TCP_KEEPIDLE (fun idle =>
    step TCP_KEEPINTVL (fun interval =>
    step TCP_KEEPCNT (fun probes =>
    mret (OK, mk_keep_alive 0 (idle * 1000) (interval * 1000) probes)))).

Definition getsockopt (level option_name : Z) : MS (Z * list Z) :=
  s ← so_get id; in_env (m_fn_getsockopt (fns_of s) (m_fd s) level option_name).
Definition setsockopt (level option_name : Z) (value : list Z) : MS Z :=
  s ← so_get id; in_env (m_fn_setsockopt (fns_of s) (m_fd s) level option_name value).

Definition IPTOS_TOS (tos : Z) : Z := Z.land tos 0x1E.
Definition set_tos (tos : Z) : MS Z :=
  s ← so_get id;
  assertM (0 <? m_fd s);;
  in_env (m_fn_setsockopt (fns_of s) (m_fd s) IPPROTO_IP IP_TOS [Z.lor (IPTOS_TOS tos) 0xe0]).
Definition get_tos (last_errno tos : Z) : MS (Z * Z) :=
  s ← so_get id;
  '(rt, v) ← in_env (m_fn_getsockopt (fns_of s) (m_fd s) IPPROTO_IP IP_TOS);
  mret (if rt =? 0 then (rt, IPTOS_TOS (default 0 (head v))) else (last_errno, tos)).
(** ** Life cycle *)
Definition PF_INET : Z := 2.
Definition AF_INET : Z := 2.
Definition AF_UNIX : Z := 1.

Definition so_family (f : family) : option Z :=
  match f with
  | F_PF_INET => Some PF_INET
  | F_AF_INET => Some AF_INET
  | F_AF_UNIX => Some AF_UNIX
  | _ => None
  end.
Definition so_type (t : sock_type) : option Z :=
  match t with ST_STREAM => Some 1 | ST_DGRAM => Some 2 | ST_RAW => Some 3 | _ => None end.
Definition so_protocol (p : protocol_type) : option Z :=
  match p with P_TCP => Some 6 | P_UDP | P_WCP => Some 17 | P_ICMP => Some 1 | _ => None end.

(** The socket's descriptor, before the options. *)
Definition open_fd : MS Z :=
  s ← so_get id;
  match so_family (m_family s) with
  | None => mret E_SOCKET_INVALID_FAMILY
  | Some soFamily =>
      match so_type (m_type s), so_protocol (m_protocol s) with
      | Some soType, Some soProtocol =>
          fd ← in_env (m_fn_socket (fns_of s) soFamily soType soProtocol);
          if fd <? 0 then mret fd
          else
            assertM (0 <? fd);;
            so_upd (set_m_fd fd);;
            with_lock L_READ (so_upd (set_m_rflag 0));;
            with_lock L_WRITE (so_upd (set_m_wflag 0));;
            mret OK
      | _, _ => assertM false;; mret OK
      end
  end.

Definition open : MS Z :=
  with_lock L_SOCKET (
    s ← so_get id;
    assertM (is_closed s);;
    assertM (m_fd s =? -1);;
    or_ret open_fd
   (s ← so_get id;
    or_ret (_set_options (m_option s))
   (so_upd (set_m_state S_OPENED);;
    if decide (m_protocol s = P_UDP) then mret OK
    else
      or_ret (set_snd_buffer_size (snd_size (m_sbc s)))
     (or_ret (set_rcv_buffer_size (rcv_size (m_sbc s))) (mret OK))))).

Definition _close (ec : Z) : MS Z :=
  s ← so_get id;
  if is_closed s then mret E_INVALID_OPERATION
  else
    close_rt ← in_env (m_fn_close (fns_of s) (m_fd s));
    assertM (close_rt =? OK);;
    so_upd (set_m_state S_CLOSED);;
    mret close_rt.

(** The half of [close] and [_shutdown] under each lock. *)
Definition shut_read : MS unit :=
  so_upd (fun s => set_m_rflag (flag_set (m_rflag s) SHUTDOWN_RD) s);;
  s ← so_get id;
  when (is_nonblocking s) _end_async_read.
Definition shut_write : MS unit :=
  so_upd (fun s => set_m_wflag (flag_set (m_wflag s) SHUTDOWN_WR) s);;
  s ← so_get id;
  when (is_nonblocking s) _end_async_write.

Definition close (ec : Z) : MS Z :=
  with_lock L_SOCKET (
    with_lock L_READ shut_read;;
    with_lock L_WRITE shut_write;;
    _close ec).

Definition shutdown_flag_ok (flag : Z) : bool :=
  (flag =? SHUTDOWN_RD) || (flag =? SHUTDOWN_WR) || (flag =? SHUTDOWN_RDWR).

(** [SHUT_RD], [SHUT_WR] and [SHUT_RDWR]. *)
Definition shut_how (sflag : Z) : option Z :=
  if sflag =? SHUTDOWN_RD then Some 0
  else if sflag =? SHUTDOWN_WR then Some 1
  else if sflag =? SHUTDOWN_RDWR then Some 2
  else None.

(** The result and [sflag], the directions shut down by this call. *)
Definition _shutdown (flag : Z) : MS (Z * Z) :=
  s ← so_get id;
  assertM (is_data_socket s);;
  assertM (shutdown_flag_ok flag);;
  f1 ← with_lock L_READ (
    s ← so_get id;
    if flag_on flag SHUTDOWN_RD && negb (flag_on (m_rflag s) SHUTDOWN_RD)
    then shut_read;; mret SHUTDOWN_RD else mret 0);
  sflag ← with_lock L_WRITE (
    s ← so_get id;
    if flag_on flag SHUTDOWN_WR && negb (flag_on (m_wflag s) SHUTDOWN_WR)
    then shut_write;; mret (Z.lor f1 SHUTDOWN_WR) else mret f1);
  match shut_how sflag with
  | None => assertM (sflag =? 0);; mret (E_INVALID_OPERATION, sflag)
  | Some how =>
      s ← so_get id;
      shutrt ← in_env (m_fn_shutdown (fns_of s) (m_fd s) how);
      mret (shutrt, sflag)
  end.

Definition shutdown (flag ec : Z) : MS Z :=
  with_lock L_SOCKET ('(shutrt, _) ← _shutdown flag; mret shutrt).

Definition sockaddr (soFamily : Z) (addr : address.t) : Z * Z * Z :=
  (soFamily, address.get_netsequence_ulongip addr, address.get_netsequence_port addr).

Definition bind (addr : address.t) : MS Z :=
  with_lock L_SOCKET (
    s ← so_get id;
    assertM (is_opened s);;
    assertM (bool_decide (m_sm s = SM_NONE));;
    assertM (address.is_null (m_bind_addr s));;
    match so_family (m_family s) with
    | None => mret E_SOCKET_INVALID_FAMILY
    | Some soFamily =>
        bindrt ← in_env (m_fn_bind (fns_of s) (m_fd s) (sockaddr soFamily addr));
        if bindrt =? 0 then
          so_upd (set_m_bind_addr addr);; so_upd (set_m_state S_BINDED);; mret OK
        else assertM (bindrt <? 0);; mret bindrt
    end).

Definition listen (backlog : Z) : MS Z :=
  with_lock L_SOCKET (
    s ← so_get id;
    assertM (bool_decide (m_sm s = SM_NONE));;
    assertM (bool_decide (m_state s = S_BINDED));;
    assertM (0 <? m_fd s);;
    listenrt ← if decide (m_protocol s = P_UDP) then mret OK
               else in_env (m_fn_listen (fns_of s) (m_fd s) backlog);
    if listenrt =? 0 then
      so_upd (set_m_sm SM_LISTENER);; so_upd (set_m_state S_LISTEN);; mret OK
    else mret listenrt).

(** The descriptors accepted with their peers; [fuel] bounds the calls. *)
Fixpoint accept_loop (fuel : nat) (size : Z) (got : list (Z * address.t)) (ec_o : Z)
    : MS (list (Z * address.t) * Z) :=
  match fuel with
  | O => fail Diverged
  | S fuel' =>
      s ← so_get id;
      '(fd, (s_addr, sin_port)) ← in_env (m_fn_accept (fns_of s) (m_fd s));
      if fd <? 0 then
        if WAWO_ABS fd =? EINTR then
          if zlen got <? size then accept_loop fuel' size got ec_o else mret (got, ec_o)
        else mret (got, if IS_ERRNO_EQUAL_WOULDBLOCK (WAWO_ABS fd) then ec_o else fd)
      else
        let addr := address.set_netsequence_ulongip s_addr (address.set_netsequence_port sin_port 0) in
        assertM (0 <? fd);;
        lift (check (zlen got <? size) Undefined);;
        let got := got ++ [(fd, addr)] in
        if zlen got <? size then accept_loop fuel' size got ec_o else mret (got, ec_o)
  end.

(** The sockets made are [SM_PASSIVE] and connected, with the listener's
    configuration and no option. *)
Definition accept (size : Z) : MS (list (Z * address.t) * Z) :=
  s ← so_get id;
  assertM (is_listener s);;
  if negb (bool_decide (m_state s = S_LISTEN)) then mret ([], E_INVALID_STATE)
  else
    with_lock L_READ (
      n ← gets (fun w => signals (kern (env w)));
      '(got, ec_o) ← accept_loop (S (Z.to_nat size + n)) size [] OK;
      mret (got, if zlen got =? size then E_TRY_AGAIN else ec_o)).

Definition _connect (addr : address.t) : MS Z :=
  s ← so_get id;
  assertM (bool_decide (m_state s = S_OPENED \/ m_state s = S_BINDED));;
  assertM (bool_decide (m_sm s = SM_NONE));;
  assertM (address.is_null (m_addr s));;
  match so_family (m_family s) with
  | None => mret E_SOCKET_INVALID_FAMILY
  | Some soFamily =>
      so_upd (set_m_sm SM_ACTIVE);;
      connrt ← in_env (m_fn_connect (fns_of s) (m_fd s) (sockaddr soFamily addr));
      if connrt =? 0 then
        so_upd (set_m_addr addr);; so_upd (set_m_state S_CONNECTED);; mret OK
      else
        assertM (connrt <? 0);;
        if is_nonblocking s && IS_ERRNO_EQUAL_CONNECTING (WAWO_ABS connrt) then
          so_upd (set_m_state S_CONNECTING);; so_upd (set_m_addr addr);; mret E_SOCKET_CONNECTING
        else mret connrt
  end.

Definition connect (addr : address.t) : MS Z :=
  with_lock L_SOCKET (
    s ← so_get id;
    if negb (bool_decide (m_state s = S_OPENED \/ m_state s = S_BINDED)) then mret E_INVALID_STATE
    else _connect addr).

Definition async_connect (addr : address.t) (cookie : option Z) (success : fn_io_event)
    (error : fn_io_event_error) : MS Z :=
  rt ← turnon_nonblocking;
  if negb (rt =? OK) then mret rt
  else
    rt ← connect addr;
    if rt =? OK then schedule (TCall success (CUser cookie));; mret OK
    else if rt =? E_SOCKET_CONNECTING then begin_async_connect cookie success error;; mret OK
    else mret rt.

Definition get_local_addr : MS address.t :=
  s ← so_get id;
  if is_listener s then mret (m_bind_addr s)
  else
    '(rt, (f, s_addr, sin_port)) ← in_env (m_fn_getsockname (fns_of s) (m_fd s));
    if rt =? OK then assertM (f =? AF_INET);; mret (address.of_sockaddr s_addr sin_port) else mret 0.

(** ** Data

    The bytes sent or received and the caller's [ec_o]. *)
Definition send (buffer : list Z) (ec_o flag : Z) : MS (Z * Z) :=
  assertM (0 <? zlen buffer);;
  s ← so_get id;
  if flag_on (m_wflag s) SHUTDOWN_WR then mret (0, E_SOCKET_WR_SHUTDOWN_ALREADY)
  else in_env (m_fn_send (fns_of s) (m_fd s) buffer ec_o flag).

Definition recv (size ec_o flag : Z) : MS (list Z * Z) :=
  assertM (0 <? size);;
  s ← so_get id;
  if flag_on (m_rflag s) SHUTDOWN_RD then mret ([], E_SOCKET_RD_SHUTDOWN_ALREADY)
  else in_env (m_fn_recv (fns_of s) (m_fd s) size ec_o flag).

Definition sendto (buffer : list Z) (addr : address.t) (ec_o flag : Z) : MS (Z * Z) :=
  assertM (0 <? zlen buffer);;
  s ← so_get id;
  if flag_on (m_wflag s) SHUTDOWN_WR then mret (0, E_SOCKET_WR_SHUTDOWN_ALREADY)
  else if is_connected s then in_env (m_fn_send (fns_of s) (m_fd s) buffer OK flag)
  else in_env (m_fn_sendto (fns_of s) (m_fd s) buffer addr OK flag).

Definition recvfrom (size : Z) (addr_o : address.t) (ec_o : Z) : MS (list Z * address.t * Z) :=
  s ← so_get id;
  if flag_on (m_rflag s) SHUTDOWN_RD then mret ([], addr_o, E_SOCKET_RD_SHUTDOWN_ALREADY)
  else if is_connected s then
    '(bytes, ec) ← in_env (m_fn_recv (fns_of s) (m_fd s) size OK 0); mret (bytes, m_addr s, ec)
  else in_env (m_fn_recvfrom (fns_of s) (m_fd s) size addr_o OK 0).
End socket_base.
End socket_base.
