(* ===== verification/Socket.v ===== *)
(** * Socket: [class socket]
    ([include/wawo/net/socket.hpp], [src/net/socket.cpp])

    The buffered, non-blocking socket over SocketBase: [send] with its send
    ring, [flush], [handle_async_write], the receive path ([_pump],
    [_receive_packets], [handle_async_read]) over a [tlp_abstract], the
    handshake, [shutdown] and [close] with the events they schedule; the
    callbacks [async_...] the observer runs; and the tasks the socket leaves for
    the scheduler. *)

From S2P Require Import Prelude Effects Ring Packet Address Wcp SocketData SockFns SocketBase.

Module socket.
Import socket_base.
Section socket.
Context `{memory} `{WcpData.wcp_env} `{wcp_sockets} `{system K} `{tlp_abstract T}.
Local Abbreviation MS := (M (st T (senv K))).

(** [_init]: the rings of a new socket. *)
Definition _init (sbc : socket_buffer_cfg) : res (bytes_ringbuffer.t * bytes_ringbuffer.t) :=
  wawo_assert (snd_size_ok sbc);;
  wawo_assert (rcv_size_ok sbc);;
  rb ← bytes_ringbuffer.make (rcv_size sbc);
  sb ← bytes_ringbuffer.make (snd_size sbc);
  Ok (sb, rb).

Definition new_connected (fd : Z) (addr : address.t) (sm : socket_mode) (sbc : socket_buffer_cfg)
    (f : family) (t : sock_type) (p : protocol_type) (option : Z) : res (socket T) :=
  '(sb, rb) ← _init sbc; make_connected fd addr sm sbc f t p option sb rb.
Definition new_dummy (sbc : socket_buffer_cfg) (f : family) (t : sock_type) (p : protocol_type)
    (option : Z) : res (socket T) :=
  '(sb, rb) ← _init sbc; make_dummy sbc f t p option sb rb.

(** The destructor: the assertions of [_deinit]. *)
Definition _deinit (s : socket T) : res unit :=
  wawo_assert (is_closed s);;
  wawo_assert (bool_decide (m_rps_q s = []));;
  wawo_assert (bool_decide (m_rps_q_standby s = [])).

Definition is_flush_timer_expired (now : Z) : MS bool :=
  s ← so_get id;
  if m_async_wt s =? 0 then mret false
  else with_lock L_WRITE (
    s ← so_get id;
    mret ((0 <? bytes_ringbuffer.count (m_sb s)) && negb (m_async_wt s =? 0)
          && (m_async_wt s +₆₄ m_delay_wp s <? now))).

(** ** Sending *)

(** The calls that flush the ring; each round of the loop sends at least one
    byte or stops. *)
Fixpoint flush_loop (fuel : nat) (flushed left_ ec_o : Z) : MS (Z * Z * Z) :=
  if negb (left_ =? 0) && (ec_o =? OK) then
    match fuel with
    | O => fail Diverged
    | S fuel' =>
        s ← so_get id;
        '(sb, bytes, to_send) ← lift (bytes_ringbuffer.peek (m_sb s) (snd_size (m_sbc s)));
        so_upd (set_m_sb sb);;
        '(sent, ec_o) ← socket_base.send bytes ec_o 0;
        let flushed := flushed +₃₂ sent in
        when (0 <? sent) (s ← so_get id;
                          sb ← lift (bytes_ringbuffer.skip (m_sb s) sent);
                          so_upd (set_m_sb sb));;
        s ← so_get id;
        flush_loop fuel' flushed (bytes_ringbuffer.count (m_sb s)) ec_o
    end
  else mret (flushed, left_, ec_o).

(** The bytes flushed, the bytes left and the code. *)
Definition _flush : MS (Z * Z * Z) :=
  s ← so_get id;
  assertM (is_data_socket s);;
  assertM (is_nonblocking s);;
  let left_ := bytes_ringbuffer.count (m_sb s) in
  flush_loop (Z.to_nat left_) 0 left_ OK.

(** [flush]: until the ring is empty, an error comes, or the time given is
    over; the difference of the times is taken the wrong way round, in 64 bits.
    [fuel] bounds the rounds that sleep. *)
Fixpoint flush_wait (fuel : nat) (block_time begin_time k : Z) : MS (Z * Z) :=
  match fuel with
  | O => fail Diverged
  | S fuel' =>
      '(_, left_, ec_o) ← _flush;
      if (left_ =? 0) || (block_time =? 0) || negb (ec_o =? E_SOCKET_SEND_BLOCK)
      then mret (left_, ec_o)
      else
        now ← in_env (sys curr_microseconds);
        let begin_time := if begin_time =? 0 then now else begin_time in
        if negb (block_time =? -1) && (u32 block_time <? begin_time -₆₄ now)
        then mret (left_, ec_o)
        else
          let k := k +₃₂ 1 in
          in_env (sys (usleep (Z.min (u32 (WAIT_FACTOR * k)) FLUSH_SLEEP_TIME_MAX)));;
          flush_wait fuel' block_time begin_time k
  end.

(** [left] and [ec_o] are the caller's variables. *)
Definition flush (fuel : nat) (left_ ec_o block_time : Z) : MS (Z * Z) :=
  s ← so_get id;
  if negb (is_nonblocking s) then mret (left_, E_INVALID_OPERATION)
  else with_lock L_WRITE (
    '(left_, ec_o) ← flush_wait fuel block_time 0 0;
    when (left_ =? 0) (so_upd (set_m_async_wt 0));;
    mret (left_, ec_o)).

(** What the transport did not take is queued, and the socket waits to be
    writable. *)
Definition buffer_rest (buffer : list Z) (sent : Z) : MS Z :=
  s ← so_get id;
  assertM (is_nonblocking s);;
  let to_buffer_c := zlen buffer -₃₂ sent in
  assertM (to_buffer_c <=? bytes_ringbuffer.left_capacity (m_sb s));;
  '(sb, write_c) ← lift (bytes_ringbuffer.write (m_sb s) (drop (Z.to_nat sent) buffer) to_buffer_c);
  assertM (to_buffer_c =? write_c);;
  so_upd (set_m_sb sb);;
  now ← in_env (sys curr_milliseconds);
  so_upd (set_m_async_wt now);;
  schedule (TTrigger (info_event E_WR_BLOCK 1));;
  _begin_async_write 0 None fn_async_write fn_async_error;;
  mret (sent +₃₂ write_c).

(** The bytes taken and the caller's [ec_o]. *)
Definition send (buffer : list Z) (ec_o flag : Z) : MS (Z * Z) :=
  let size := zlen buffer in
  assertM (0 <? size);;
  s ← so_get id;
  assertM (size <=? bytes_ringbuffer.capacity (m_sb s));;
  if flag_on (m_wflag s) SHUTDOWN_WR then mret (0, E_SOCKET_WR_SHUTDOWN_ALREADY)
  else if snd_size (m_sbc s) <? size then mret (0, E_SOCKET_LARGE_PACKET)
  else with_lock L_WRITE (
    s ← so_get id;
    if is_nonblocking s && (0 <? bytes_ringbuffer.count (m_sb s)) then
      if flag_on flag F_SEND_USE_SND_BUFFER && (size <? bytes_ringbuffer.left_capacity (m_sb s)) then
        '(sb, wcount) ← lift (bytes_ringbuffer.write (m_sb s) buffer size);
        assertM (wcount =? size);;
        so_upd (set_m_sb sb);;
        mret (wcount, ec_o)
      else mret (0, E_SOCKET_SEND_BLOCK)
    else
      '(sent, ec_o) ← socket_base.send buffer ec_o (flag_clear flag F_SEND_USE_SND_BUFFER);
      if (sent <? size) && (ec_o =? E_SOCKET_SEND_BLOCK) then
        sent ← buffer_rest buffer sent; mret (sent, ec_o)
      else mret (sent, ec_o)).

Definition recv (size ec_o flag : Z) : MS (list Z * Z) :=
  with_lock L_READ (socket_base.recv size ec_o flag).

(** The loop of [handle_async_write]; [_flush] leaves it nothing to repeat. *)
Fixpoint write_rounds (fuel : nat) (flushed_total : Z) : MS (Z * Z * Z) :=
  match fuel with
  | O => fail Diverged
  | S fuel' =>
      '(flushed, left_, ec_o) ← _flush;
      let flushed_total := flushed_total +₃₂ flushed in
      if (left_ =? 0) || negb (ec_o =? OK) then mret (flushed_total, left_, ec_o)
      else write_rounds fuel' flushed_total
  end.

Definition handle_async_write : MS Z :=
  s ← so_get id;
  assertM (is_nonblocking s);;
  with_lock L_WRITE (
    s ← so_get id;
    when (negb (flag_on (m_wflag s) WATCH_OPTION_INFINITE)) _end_async_write;;
    '(flushed_total, left_, ec_o) ← write_rounds 1 0;
    if left_ =? 0 then
      assertM (ec_o =? OK);;
      when (negb (flushed_total =? 0))
        (_end_async_write;;
         so_upd (set_m_async_wt 0);;
         schedule (TTrigger (info_event E_WR_UNBLOCK 0)));;
      mret ec_o
    else
      s ← so_get id;
      assertM (negb (m_async_wt s =? 0));;
      if ec_o =? E_SOCKET_SEND_BLOCK then
        now ← in_env (sys curr_milliseconds);
        if (flushed_total =? 0) && (m_async_wt s +₆₄ m_delay_wp s <? now) then
          mret E_SOCKET_SEND_IO_BLOCK_EXPIRED
        else
          when (0 <? flushed_total) (so_upd (set_m_async_wt now));;
          _begin_async_write 0 None fn_async_write fn_async_error;;
          mret ec_o
      else mret ec_o).

(** [send_ec] is not initialised: [junk]. *)
Definition send_packet (junk : Z) (p : packet.t) (flag : Z) : MS Z :=
  s ← so_get id;
  match m_tlp s with
  | None => assertM false;; mret OK
  | Some tlp =>
      '(tlp, rt, TLP_Pack) ← lift (tlp_encode tlp p);
      so_upd (set_m_tlp (Some tlp));;
      if negb (rt =? OK) then mret rt
      else
        match TLP_Pack with
        | None => fail Undefined
        | Some o =>
            '(n, send_ec) ← send (packet.data o) junk flag;
            l ← lift (packet.len o);
            mret (if n =? l then OK else send_ec)
        end
  end.

(** ** Receiving *)
Definition _pump (flag : Z) : MS Z :=
  s ← so_get id;
  assertM (is_data_socket s);;
  let left_space := bytes_ringbuffer.left_capacity (m_rb s) in
  if 0 =? left_space then mret E_SOCKET_RECV_BUFFER_FULL
  else
    let can_trb_recv_s :=
      if rcv_size (m_sbc s) <=? left_space then rcv_size (m_sbc s) else left_space in
    '(bytes, ec_o) ← socket_base.recv can_trb_recv_s OK flag;
    when (0 <? zlen bytes)
      (s ← so_get id;
       '(rb, rb_WBC) ← lift (bytes_ringbuffer.write (m_rb s) bytes (zlen bytes));
       assertM (zlen bytes =? rb_WBC);;
       so_upd (set_m_rb rb));;
    mret ec_o.

Definition RCV_FLAGS : Z := Z.lor F_RCV_BLOCK_UNTIL_PACKET_ARRIVE F_RCV_ALWAYS_PUMP.

(** The pump at the head of a round: [inl] returns to the caller, [inr] goes on
    with the decoder.  Codes other than those let through are errors. *)
Definition pump_round (force : bool) (flag : Z) : MS (Z + Z) :=
  if force || flag_on flag F_RCV_ALWAYS_PUMP then
    pump_ec ← _pump (flag_clear flag RCV_FLAGS);
    if negb ((pump_ec =? OK) || (pump_ec =? E_SOCKET_RECV_BLOCK)
             || (pump_ec =? E_SOCKET_RECV_BUFFER_FULL))
    then mret (inl pump_ec)
    else
      s ← so_get id;
      if bytes_ringbuffer.count (m_rb s) =? 0 then
        assertM (if is_nonblocking s then pump_ec =? E_SOCKET_RECV_BLOCK else true);;
        assertM (if negb (is_nonblocking s) then negb (pump_ec =? OK) else true);;
        mret (inl pump_ec)
      else mret (inr pump_ec)
  else mret (inr OK).

Definition tlp_state_ok (tlp_state : Z) : bool :=
  (tlp_state =? OK) || (tlp_state =? E_TLP_HANDSHAKING) || (tlp_state =? E_TLP_HANDSHAKE_DONE)
  || (tlp_state =? E_TLP_TRY_AGAIN).

(** The packet the protocol wants sent ([sndec] is [junk] before [send]). *)
Definition send_out (junk : Z) (out : option packet.t) (ec_o : Z) : MS Z :=
  match out with
  | None => mret ec_o
  | Some o =>
      l ← lift (packet.len o);
      if l =? 0 then mret ec_o
      else
        '(snd_bytes, sndec) ← send (packet.data o) junk 0;
        assertM (if sndec =? OK then snd_bytes =? l else true);;
        mret (if negb (sndec =? OK) then sndec else ec_o)
  end.

(** One round: the pump and the decoder. *)
Definition receive_round (junk : Z) (force : bool) (size flag : Z)
    : MS (list packet.t * Z * option Z) :=
  r ← pump_round force flag;
  match r with
  | inl ec_o => mret ([], ec_o, None)
  | inr pump_ec =>
      s ← so_get id;
      match m_tlp s with
      | None => assertM false;; mret ([], OK, None)
      | Some tlp =>
          '(tlp, rb, arrives, tlp_state, out) ← lift (tlp_decode_packets tlp (m_rb s) size junk);
          so_upd (set_m_tlp (Some tlp));;
          so_upd (set_m_rb rb);;
          if negb (tlp_state_ok tlp_state) then mret (arrives, tlp_state, None)
          else
            ec_o ← send_out junk out tlp_state;
            mret (arrives, ec_o, Some pump_ec)
      end
  end.

(** The end of [_receive_packets]. *)
Definition receive_code (size pump_ec ec_o : Z) (arrives : list packet.t) : MS Z :=
  s ← so_get id;
  let ec_o :=
    if ((pump_ec =? OK) || (pump_ec =? E_SOCKET_RECV_BUFFER_FULL)) && is_nonblocking s
    then E_SOCKET_PUMP_TRY_AGAIN else ec_o in
  mret (if (zlen arrives =? size) && (0 <? bytes_ringbuffer.count (m_rb s))
        then E_TLP_TRY_AGAIN else ec_o).

(** [_receive_packets]: the packets and the code; the rounds repeat only for a
    caller that asks to block until a packet arrives. *)
Fixpoint receive_rounds (fuel : nat) (junk : Z) (force : bool) (size flag : Z)
    : MS (list packet.t * Z) :=
  match fuel with
  | O => fail Diverged
  | S fuel' =>
      '(arrives, ec_o, go) ← receive_round junk force size flag;
      match go with
      | None => mret (arrives, ec_o)
      | Some pump_ec =>
          if flag_on flag F_RCV_BLOCK_UNTIL_PACKET_ARRIVE && (zlen arrives =? 0) && (0 <? size)
          then receive_rounds fuel' junk true size flag
          else ec_o ← receive_code size pump_ec ec_o arrives; mret (arrives, ec_o)
      end
  end.

Definition _receive_packets (fuel : nat) (junk size flag : Z) : MS (list packet.t * Z) :=
  s ← so_get id;
  receive_rounds fuel junk (bytes_ringbuffer.count (m_rb s) =? 0) size flag.

Definition receive_packets (fuel : nat) (junk size flag : Z) : MS (list packet.t * Z) :=
  with_lock L_READ (_receive_packets fuel junk size flag).

(** The loop of [handle_async_read]: at most five packets a round, queued for
    the listeners; [fuel] bounds the rounds. *)
Fixpoint read_rounds (fuel : nat) (junk flag : Z) (has_new_arrives : bool) : MS (Z * bool) :=
  match fuel with
  | O => fail Diverged
  | S fuel' =>
      '(arrives, ec_o) ← _receive_packets 1 junk 5 flag;
      let flag := if ec_o =? E_SOCKET_PUMP_TRY_AGAIN then F_RCV_ALWAYS_PUMP else 0 in
      when (0 <? zlen arrives)
        (with_lock L_RPS_Q_STANDBY
           (so_upd (fun s => set_m_rps_q_standby (m_rps_q_standby s ++ arrives) s)));;
      let has_new_arrives := has_new_arrives || (0 <? zlen arrives) in
      if (ec_o =? E_TLP_TRY_AGAIN) || (ec_o =? E_SOCKET_PUMP_TRY_AGAIN)
      then read_rounds fuel' junk flag has_new_arrives
      else mret (ec_o, has_new_arrives)
  end.

(** The queues are swapped; while another thread works on [m_rps_q] the caller
    yields. *)
Definition swap_arrived : MS unit :=
  s ← so_get id;
  when (0 <? zlen (m_rps_q s)) (fail Waits);;
  with_lock L_RPS_Q_STANDBY (
    s ← so_get id;
    when (0 <? zlen (m_rps_q_standby s))
      (so_upd (fun s => set_m_rps_q_standby (m_rps_q s) (set_m_rps_q (m_rps_q_standby s) s));;
       s ← so_get id;
       assertM (zlen (m_rps_q_standby s) =? 0);;
       assertM (negb (zlen (m_rps_q s) =? 0)))).

Definition trigger_arrived : MS unit :=
  s ← so_get id;
  iterM (fun p => trigger (packet_event p);;
                  so_upd (fun s => set_m_rps_q (drop 1 (m_rps_q s)) s)) (m_rps_q s).

Definition handle_async_read (fuel : nat) (junk : Z) : MS Z :=
  s ← so_get id;
  assertM (is_data_socket s);;
  assertM (is_nonblocking s);;
  '(ec_o, has_new_arrives) ← with_lock L_READ (
    s ← so_get id;
    let is_one_time_async_read := negb (flag_on (m_wflag s) WATCH_OPTION_INFINITE) in
    when is_one_time_async_read _end_async_read;;
    '(ec_o, has_new_arrives) ← read_rounds fuel junk F_RCV_ALWAYS_PUMP false;
    when (is_one_time_async_read && negb has_new_arrives)
      (_begin_async_read 0 None fn_async_read fn_async_error);;
    mret (ec_o, has_new_arrives));
  when has_new_arrives (with_lock L_RPS_Q (swap_arrived;; trigger_arrived));;
  mret ec_o.
(** ** The handshake of the transport layer protocol *)
Fixpoint handshake_rounds (fuel : nat) (junk flag : Z) : MS Z :=
  match fuel with
  | O => fail Diverged
  | S fuel' =>
      '(arrives, ec_o) ← _receive_packets 1 junk 0 flag;
      assertM (zlen arrives =? 0);;
      let flag := if ec_o =? E_SOCKET_PUMP_TRY_AGAIN then F_RCV_ALWAYS_PUMP else 0 in
      s ← so_get id;
      if ((ec_o =? E_TLP_TRY_AGAIN) || (ec_o =? E_SOCKET_PUMP_TRY_AGAIN))
         && from_option handshake_handshaking false (m_tlp s)
      then handshake_rounds fuel' junk flag
      else mret ec_o
  end.

Definition handle_async_handshake (fuel : nat) (junk : Z) : MS Z :=
  s ← so_get id;
  assertM (is_data_socket s);;
  assertM (is_nonblocking s);;
  with_lock L_READ (
    s ← so_get id;
    match m_tlp s with
    | None => fail Undefined
    | Some tlp =>
        if handshake_done tlp then mret OK
        else
          ec_o ← handshake_rounds fuel junk F_RCV_ALWAYS_PUMP;
          s ← so_get id;
          mret (if from_option handshake_done false (m_tlp s)
                   && ((ec_o =? OK) || (ec_o =? E_TLP_TRY_AGAIN)
                       || (ec_o =? E_SOCKET_PUMP_TRY_AGAIN) || (ec_o =? E_SOCKET_RECV_BLOCK))
                then E_TLP_HANDSHAKE_DONE else ec_o)
    end).

Definition go_on_handshaking (handshake_state : Z) : bool :=
  (handshake_state =? E_TLP_TRY_AGAIN) || (handshake_state =? E_TLP_HANDSHAKING)
  || (handshake_state =? OK) || (handshake_state =? E_SOCKET_PUMP_TRY_AGAIN)
  || (handshake_state =? E_SOCKET_RECV_BLOCK).

(** The loop of a handshake without callbacks. *)
Fixpoint handshake_wait (fuel : nat) (junk handshake_state : Z) : MS Z :=
  match fuel with
  | O => fail Diverged
  | S fuel' =>
      s ← so_get id;
      if from_option handshake_handshaking false (m_tlp s) then
        '(arrives, handshake_state) ←
           receive_packets 1 junk 0 F_RCV_BLOCK_UNTIL_PACKET_ARRIVE;
        assertM (zlen arrives =? 0);;
        if negb (go_on_handshaking handshake_state) then mret handshake_state
        else
          when (is_nonblocking s) (in_env (sys (usleep 5000)));;
          handshake_wait fuel' junk handshake_state
      else mret handshake_state
  end.

(** [hello->begin()] of a null packet is undefined behaviour. *)
Definition tlp_handshake (fuel : nat) (junk : Z) (cookie : option Z)
    (success : option fn_io_event) (error : option fn_io_event_error) : MS Z :=
  s ← so_get id;
  match m_tlp s with
  | None => assertM false;; mret OK
  | Some tlp =>
      '(tlp, handshake_state, hello) ← lift (handshake_make_hello_packet tlp);
      so_upd (set_m_tlp (Some tlp));;
      if handshake_state =? E_TLP_HANDSHAKE_DONE then mret E_TLP_HANDSHAKE_DONE
      else
        match hello with
        | None => fail Undefined
        | Some hello =>
            '(_, handshake_state) ← socket_base.send (packet.data hello) handshake_state 0;
            if negb (handshake_state =? OK) then mret handshake_state
            else
              match cookie, success, error with
              | Some c, Some fn, Some err =>
                  begin_async_handshake c fn err;; mret E_TLP_HANDSHAKING
              | _, _, _ =>
                  handshake_state ← handshake_wait fuel junk handshake_state;
                  s ← so_get id;
                  mret (if from_option handshake_done false (m_tlp s)
                        then E_TLP_HANDSHAKE_DONE else handshake_state)
              end
        end
  end.

(** ** The end of a connection *)

(** The flush before shutting down. *)
Definition flush_before (fuel : nat) (block_time : Z) : MS unit :=
  s ← so_get id;
  when (is_nonblocking s && is_data_socket s && negb (is_write_shutdowned s))
    (flush fuel 0 0 block_time;; mret tt).

Definition close (fuel : nat) (ec : Z) : MS Z :=
  with_lock L_SOCKET (
    s ← so_get id;
    if is_closed s then mret E_INVALID_STATE
    else
      flush_before fuel (if ec =? OK then FLUSH_BLOCK_TIME_INFINITE else FLUSH_DEFAULT_BLOCK_TIME);;
      f1 ← with_lock L_READ (
        s ← so_get id;
        let f := if is_read_shutdowned s then 0 else SHUTDOWN_RD in
        shut_read;; mret f);
      sflag ← with_lock L_WRITE (
        s ← so_get id;
        let f := if is_write_shutdowned s then f1 else Z.lor f1 SHUTDOWN_WR in
        shut_write;; mret f);
      s ← so_get id;
      let old_state := m_state s in
      closert ← _close ec;
      if negb (is_nonblocking s) then mret closert
      else if is_listener s then schedule (TTrigger (info_event E_CLOSE ec));; mret closert
      else if negb (bool_decide (old_state = S_CONNECTED)) then
        assertM (negb (ec =? 0));;
        schedule (TTrigger (info_event E_ERROR ec));; mret closert
      else schedule (TClosed sflag ec);; mret closert).

Definition shutdown (fuel : nat) (flag ec : Z) : MS Z :=
  with_lock L_SOCKET (
    assertM (shutdown_flag_ok flag);;
    flush_before fuel FLUSH_DEFAULT_BLOCK_TIME;;
    '(shutrt, sflag) ← _shutdown flag;
    if sflag =? 0 then
      assertM (shutrt =? E_INVALID_OPERATION);; mret E_INVALID_OPERATION
    else
      s ← so_get id;
      if negb (is_nonblocking s) then mret shutrt
      else schedule (TShutdown sflag ec);; mret shutrt).

(** The sockets accepted. *)
Definition accept (size : Z) : MS (list (socket T) * Z) :=
  s ← so_get id;
  '(got, ec_o) ← socket_base.accept size;
  sockets ← lift (foldr (fun p acc =>
      l ← acc;
      so ← new_connected p.1 p.2 SM_PASSIVE (m_sbc s) (m_family s) (m_type s) (m_protocol s) 0;
      Ok (so :: l)) (Ok []) got);
  mret (sockets, ec_o).

(** ** Tasks *)
Definition __rdwr_check (fuel : nat) (ec : Z) : MS unit :=
  r ← with_lock L_READ (s ← so_get id;
        mret (if flag_on (m_rflag s) SHUTDOWN_RD then SHUTDOWN_RD else 0));
  nflag ← with_lock L_WRITE (s ← so_get id;
        mret (if flag_on (m_wflag s) SHUTDOWN_WR then Z.lor r SHUTDOWN_WR else r));
  when (nflag =? SHUTDOWN_RDWR) (close fuel ec;; mret tt).

(** The events of the two lambdas. *)
Definition trigger_shutdown (sflag ec : Z) : MS unit :=
  when (flag_on sflag SHUTDOWN_RD) (trigger (info_event E_RD_SHUTDOWN ec));;
  when (flag_on sflag SHUTDOWN_WR) (trigger (info_event E_WR_SHUTDOWN ec)).

(** ** The callbacks given to the observer *)
Definition async_connected (fuel : nat) (junk : Z) (c : async_cookie) : MS unit :=
  match c_success c, c_error c with
  | Some success, Some error =>
      s ← so_get id;
      assertM (is_active s);;
      end_async_write;;
      handle_async_connected;;
      rt ← tlp_handshake fuel junk (user_cookie c) (c_success c) (c_error c);
      if rt =? E_TLP_HANDSHAKE_DONE then call success (user_cookie c)
      else if negb (rt =? E_TLP_HANDSHAKING) then call_error error rt (user_cookie c)
      else mret tt
  | _, _ => assertM false
  end.

Definition async_connect_error (code : Z) (c : async_cookie) : MS unit :=
  end_async_write;;
  match c_success c, c_error c with
  | Some success, Some error =>
      s ← so_get id;
      assertM (is_active s);;
      call_error error code (user_cookie c)
  | _, _ => assertM false
  end.

(** A null function pointer called is undefined behaviour. *)
Definition async_handshake (fuel : nat) (junk : Z) (c : async_cookie) : MS unit :=
  ec ← handle_async_handshake fuel junk;
  if ec =? E_TLP_HANDSHAKING then mret tt
  else if (ec =? OK) || (ec =? E_SOCKET_RECV_BLOCK) || (ec =? E_SOCKET_PUMP_TRY_AGAIN)
          || (ec =? E_TLP_TRY_AGAIN) then
    tlp ← get_tlp;
    assertM (from_option handshake_done false tlp)
  else if ec =? E_TLP_HANDSHAKE_DONE then
    end_async_read;;
    match c_success c, user_cookie c with
    | Some success, Some u => call success (Some u)
    | _, _ => assertM false
    end
  else
    end_async_read;;
    match c_error c with
    | Some error => call_error error ec (user_cookie c)
    | None => fail Undefined
    end.

Definition async_handshake_error (code : Z) (c : async_cookie) : MS unit :=
  match c_error c, user_cookie c with
  | Some error, Some u => call_error error code (Some u)
  | _, _ => assertM false
  end.

Definition async_read (fuel : nat) (junk : Z) : MS unit :=
  ec ← handle_async_read fuel junk;
  if (ec =? OK) || (ec =? E_SOCKET_RECV_BLOCK) || (ec =? E_TLP_HANDSHAKE_DONE)
     || (ec =? E_TLP_HANDSHAKING) then mret tt
  else if ec =? E_SOCKET_GRACE_CLOSE then shutdown fuel SHUTDOWN_RD 0;; mret tt
  else if ec =? E_SOCKET_RD_SHUTDOWN_ALREADY then mret tt
  else if ec =? E_SOCKET_RECV_BUFFER_FULL then fail Thrown
  else close fuel ec;; mret tt.

(** The packets still to be read when writing has failed. *)
Fixpoint drain_rounds (fuel : nat) (junk : Z) : MS unit :=
  match fuel with
  | O => fail Diverged
  | S fuel' =>
      '(arrives, recv_ec) ← receive_packets 1 junk 5 F_RCV_ALWAYS_PUMP;
      iterM (fun p => trigger (packet_event p)) arrives;;
      if recv_ec =? E_SOCKET_PUMP_TRY_AGAIN then drain_rounds fuel' junk else mret tt
  end.

Definition async_write (fuel : nat) (junk : Z) : MS unit :=
  ec ← handle_async_write;
  if (ec =? E_SOCKET_SEND_BLOCK) || (ec =? OK) then mret tt
  else if ec =? E_SOCKET_WR_SHUTDOWN_ALREADY then mret tt
  else drain_rounds fuel junk;; close fuel ec;; mret tt.

Definition async_error (fuel : nat) (code : Z) : MS unit := close fuel code;; mret tt.

(** A callback run on its cookie; a cookie of the user given to a function of
    [socket.cpp] does not happen. *)
Definition run_io_event (fuel : nat) (junk : Z) (fn : fn_io_event) (c : cookie) : MS unit :=
  match fn, c with
  | fn_user id, CUser u => call (fn_user id) u
  | fn_async_connected, CAsync c => async_connected fuel junk c
  | fn_async_handshake, CAsync c => async_handshake fuel junk c
  | fn_async_read, CAsync _ => async_read fuel junk
  | fn_async_write, CAsync _ => async_write fuel junk
  | fn_user id, CAsync c => call (fn_user id) (user_cookie c)
  | _, CUser _ => fail Undefined
  end.

Definition run_io_error (fuel : nat) (err : fn_io_event_error) (code : Z) (c : cookie) : MS unit :=
  match err, c with
  | fn_user_error id, CUser u => call_error (fn_user_error id) code u
  | fn_async_connect_error, CAsync c => async_connect_error code c
  | fn_async_handshake_error, CAsync c => async_handshake_error code c
  | fn_async_error, CAsync _ => async_error fuel code
  | fn_user_error id, CAsync c => call_error (fn_user_error id) code (user_cookie c)
  | _, CUser _ => fail Undefined
  end.

(** A task a thread of the scheduler runs. *)
Definition run_task (fuel : nat) (junk : Z) (t : task) : MS unit :=
  match t with
  | TTrigger e => trigger e
  | TClosed sflag ec => trigger_shutdown sflag ec;; trigger (info_event E_CLOSE ec)
  | TShutdown sflag ec => trigger_shutdown sflag ec;; __rdwr_check fuel ec
  | TCall fn c => run_io_event fuel junk fn c
  | TCallError err code c => run_io_error fuel err code c
  end.
End socket.
End socket.
