(* ===== verification/SocketLaws.v ===== *)
(** * SocketLaws: what a socket relies on from the network

    The theorems about [socket] are proved against two interfaces:
    - [stream_out]: the table of functions hands bytes over in order, with a
      short count only together with a code;
    - [stream_in]: it hands out the bytes that arrive, in order.
    Instances: the system calls, under the documented behaviour of [send],
    [recv] and the clock ([system_laws]); and [class wcp]
    ([Wcp.send], [Wcp.recv]) on a block in use. *)

From S2P Require Import Prelude Effects Ring Address WcpData WcpRecv Wcp WcpProofs SocketData SockFns.

(** ** The documented behaviour of the system *)
Class system_laws (K : Type) `{system K} := {
  (* the bytes the system took for a descriptor, those it will hand out *)
  kout : K -> Z -> list Z;
  kin : K -> Z -> list Z;
  (* the time, and a time by which the calls still to be made are over, their
     sleeps not counted *)
  clock : K -> Z;
  horizon : K -> Z;
  clock_range k : 0 < clock k <= horizon k;
  sys_send_law k fd bytes flag : 0 < zlen bytes ->
    match sys_send fd bytes flag k with
    | (k', (r, errno)) =>
        clock k <= clock k' /\ horizon k' <= horizon k /\
        ((0 < r <= zlen bytes /\ kout k' fd = kout k fd ++ take (Z.to_nat r) bytes
          /\ (signals k' <= signals k)%nat)
         \/ (r = -1 /\ 0 < errno /\ kout k' fd = kout k fd
             /\ (signals k' + (if decide (errno = EINTR) then 1%nat else 0%nat) <= signals k)%nat))
    end;
  sys_recv_law k fd size flag : 0 < size ->
    match sys_recv fd size flag k with
    | (k', (r, errno, bytes)) =>
        (0 < r <= size /\ zlen bytes = r /\ kin k fd = bytes ++ kin k' fd
         /\ (signals k' <= signals k)%nat)
        \/ (-1 <= r <= 0 /\ kin k' fd = kin k fd /\ (r = -1 -> 0 < errno < 4096)
            /\ (signals k' + (if decide (r = (-1)%Z /\ errno = EINTR) then 1%nat else 0%nat) <= signals k)%nat)
    end;
  curr_microseconds_law k : curr_microseconds k = (k, clock k);
  curr_milliseconds_law k : exists now, curr_milliseconds k = (k, now) /\ 0 < now;
  usleep_law k n fd : 0 < n ->
    let k' := (usleep n k).1 in
    clock k + n <= clock k' /\ horizon k' <= horizon k + n /\ kout k' fd = kout k fd
}.

(** The clock of [k'] is one that [k] announces. *)
Definition timely {K} `{system_laws K} (k k' : K) : Prop :=
  clock k <= clock k' /\ horizon k' <= horizon k.

#[export] Instance timely_preorder {K} `{system_laws K} : PreOrder timely.
Proof. unfold timely. split; [intros k; lia | intros k1 k2 k3; lia]. Qed.

(** A code of the network is one of three codes of the library or an [errno],
    never a code with which the socket and its protocol talk to each other. *)
Definition plain_code (ec : Z) : Prop :=
  ec = OK \/ ec = E_SOCKET_GRACE_CLOSE \/ ec = E_SOCKET_RECV_BLOCK \/ -30000 < ec < 0.

(** ** The interfaces *)
Class stream_out {K} `{system_laws K} (F : sock_fns K) := {
  out_ok : senv K -> Z -> Prop;
  out : senv K -> Z -> list Z;
  fn_send_law e fd bytes ec_o flag : out_ok e fd -> 0 < zlen bytes < 4294967296 ->
    wp (m_fn_send F fd bytes ec_o flag) e (fun e' '(n, ec) =>
      out_ok e' fd /\ 0 <= n <= zlen bytes /\ out e' fd = out e fd ++ take (Z.to_nat n) bytes
      /\ (ec = OK <-> n = zlen bytes) /\ timely (kern e) (kern e'));
  out_milliseconds e fd : out_ok e fd ->
    wp (sys curr_milliseconds) e (fun e' now => out_ok e' fd /\ out e' fd = out e fd /\ 0 < now);
  out_usleep e fd n : out_ok e fd -> 0 < n ->
    let e' := set_kern (usleep n (kern e)).1 e in out_ok e' fd /\ out e' fd = out e fd
}.

Class stream_in {K} `{system_laws K} (F : sock_fns K) := {
  in_ok : senv K -> Z -> Prop;
  inq : senv K -> Z -> list Z;
  fn_recv_law e fd size ec_o flag : in_ok e fd -> 0 < size < 4294967296 ->
    wp (m_fn_recv F fd size ec_o flag) e (fun e' '(bytes, ec) =>
      in_ok e' fd /\ inq e fd = bytes ++ inq e' fd /\ zlen bytes <= size
      /\ (ec = OK <-> 0 < zlen bytes) /\ plain_code ec)
}.

(** ** The system calls *)
Section standard.
Context {K} `{system_laws K}.

Lemma wp_sys {A} (f : K -> K * A) e (Q : senv K -> A -> Prop) :
  wp (sys f) e Q <-> let '(k, a) := f (kern e) in Q (set_kern k e) a.
Proof. unfold wp, sys. by destruct (f (kern e)). Qed.

Lemma send_loop_law fd bytes flag : zlen bytes < 4294967296 -> forall fuel e n0 ec_o,
  0 <= n0 < zlen bytes ->
  (length bytes + signals (kern e) < fuel + Z.to_nat n0)%nat ->
  wp (standard_socket.send_loop fuel fd bytes flag n0 ec_o) e (fun e' '(n, ec) =>
    n0 <= n <= zlen bytes
    /\ kout (kern e') fd = kout (kern e) fd ++ slice bytes n0 (n - n0)
    /\ (ec = OK <-> n = zlen bytes) /\ timely (kern e) (kern e')).
Proof.
  intros Hu. induction fuel as [|fuel IH]; intros e n0 ec_o Hn Hf; [unfold zlen in *; lia|].
  cbn [standard_socket.send_loop]. rewrite wp_bind, wp_sys.
  set (rest := drop (Z.to_nat n0) bytes).
  assert (Hrest : zlen rest = zlen bytes - n0) by (unfold rest, zlen in *; rewrite length_drop; lia).
  pose proof (sys_send_law (kern e) fd rest flag ltac:(lia)) as HL.
  destruct (sys_send fd rest flag (kern e)) as [k' [r errno]].
  destruct HL as (Hck & Hhz & [(Hr & Ho & Hs) | (-> & He & Ho & Hs)]);
    assert (Ht : timely (kern e) k') by done.
  - rewrite (proj2 (Z.ltb_lt 0 r)) by lia. rewrite u32_small by range_lia.
    unfold rest in Ho. rewrite slice_take_drop in Ho.
    destruct (Z.eqb_spec (n0 + r) (zlen bytes)) as [E|E].
    + rewrite wp_ret. simpl. split; [lia|]. split; [|done].
      rewrite Ho. do 2 f_equal. lia.
    + eapply wp_mono; [apply IH; simpl; lia|]. intros e' [n ec] (Hn' & Ho' & Hec & Hck').
      split; [lia|]. split; [|split; [done | by etrans]]. rewrite Ho'. simpl. rewrite Ho, <- app_assoc. f_equal.
      rewrite slice_app by lia. f_equal. lia.
  - change (0 <? -1) with false. cbn iota. rewrite wp_bind, wp_assert. split; [done|].
    destruct (IS_ERRNO_EQUAL_WOULDBLOCK errno); [|destruct (Z.eqb_spec errno EINTR) as [E|E]].
    + rewrite wp_ret. simpl. rewrite Z.sub_diag, slice_zero, app_nil_r.
      split; [lia|]. split; [done|]. split; [|done]. split; [discriminate | lia].
    + eapply wp_mono; [apply IH; simpl; [lia|]|].
      { rewrite decide_True in Hs by done. lia. }
      intros e' [n ec] (Hn' & Ho' & Hec & Hck'). split; [lia|].
      split; [|split; [done | by etrans]]. by rewrite Ho', <- Ho.
    + rewrite wp_ret. simpl. rewrite Z.sub_diag, slice_zero, app_nil_r.
      split; [lia|]. split; [done|]. split; [|done]. unfold WAWO_NEGATIVE, OK.
      destruct (Z.ltb_spec errno 0); lia.
Qed.

#[global] Program Instance standard_stream_out : stream_out standard_socket.fns := {|
  out_ok _ _ := True;
  out e fd := kout (kern e) fd
|}.
Next Obligation.
  intros e fd bytes ec_o flag _ Hz. cbn [m_fn_send standard_socket.fns]. unfold standard_socket.send.
  wp_simpl. split; [apply Z.ltb_lt; lia|].
  eapply wp_mono; [apply send_loop_law; unfold zlen in *; lia|].
  intros e' [n ec] (Hn & Ho & Hec). split; [done|]. split; [lia|]. split; [|done].
  rewrite Ho. f_equal. unfold slice. rewrite drop_0. f_equal. lia.
Qed.
Next Obligation.
  intros e fd _. rewrite wp_sys. destruct (curr_milliseconds_law (kern e)) as (now & -> & Hn).
  done.
Qed.
Next Obligation.
  intros e fd n _ Hn. split; [done|]. by apply usleep_law.
Qed.

Lemma recv_loop_law fd size flag ec_o : 0 < size -> forall fuel e,
  (signals (kern e) < fuel)%nat ->
  wp (standard_socket.recv_loop fuel fd size flag ec_o) e (fun e' '(bytes, ec) =>
    kin (kern e) fd = bytes ++ kin (kern e') fd /\ zlen bytes <= size
    /\ (ec = OK <-> 0 < zlen bytes) /\ plain_code ec).
Proof.
  intros Hz. induction fuel as [|fuel IH]; intros e Hf; [lia|].
  cbn [standard_socket.recv_loop]. rewrite wp_bind, wp_sys.
  pose proof (sys_recv_law (kern e) fd size flag Hz) as HL.
  destruct (sys_recv fd size flag (kern e)) as [k' [[r errno] bytes]].
  assert (Hnil : forall ec, kin k' fd = kin (kern e) fd -> ec <> OK -> plain_code ec ->
    kin (kern e) fd = [] ++ kin k' fd /\ zlen (@nil Z) <= size /\ (ec = OK <-> 0 < zlen (@nil Z))
    /\ plain_code ec).
  { intros ec Hk Hec Hp. split; [done|]. change (zlen []) with 0. split; [lia|]. split; [lia | done]. }
  destruct HL as [(Hr & Hb & Hk & Hs) | (Hr & Hk & He & Hs)].
  - rewrite (proj2 (Z.ltb_lt 0 r)) by lia. rewrite wp_ret. simpl. split; [done|]. split; [lia|]. split; [lia | by left].
  - rewrite (proj2 (Z.ltb_ge 0 r)) by lia. destruct (Z.eqb_spec r 0) as [->|N].
    + rewrite wp_ret. apply Hnil; [done | done | right; by left].
    + assert (r = -1) as -> by lia. rewrite wp_bind, wp_assert. split; [done|].
      destruct (IS_ERRNO_EQUAL_WOULDBLOCK errno); [|destruct (Z.eqb_spec errno EINTR) as [E|E]].
      * rewrite wp_ret. apply Hnil; [done | done | right; right; by left].
      * eapply wp_mono; [apply IH; simpl; rewrite decide_True in Hs by done; lia|].
        intros e' [b ec] HQ. simpl in HQ. by rewrite <- Hk.
      * rewrite wp_bind, wp_assert. specialize (He eq_refl).
        split; [apply negb_true_iff, Z.eqb_neq; unfold OK; lia|]. rewrite wp_ret.
        unfold WAWO_NEGATIVE. rewrite (proj2 (Z.ltb_ge errno 0)) by lia.
        apply Hnil; [done | unfold OK; lia | right; right; right; lia].
Qed.

#[global] Program Instance standard_stream_in : stream_in standard_socket.fns := {|
  in_ok _ _ := True;
  inq e fd := kin (kern e) fd
|}.
Next Obligation.
  intros e fd size ec_o flag _ Hz. cbn [m_fn_recv standard_socket.fns]. unfold standard_socket.recv.
  wp_simpl. split; [apply Z.ltb_lt; lia|].
  eapply wp_mono; [apply recv_loop_law; lia|]. intros e' [b ec] HQ. split; [done | apply HQ].
Qed.
End standard.

(** ** The calls of [class wcp] *)
Section wcp.
Context `{wcp_env} `{wcp_sockets} {K} `{system_laws K}.

(** A descriptor of a control block in use. *)
Definition wcp_block (e : senv K) (fd : Z) (w : WCB) : Prop :=
  exists id, find_used fd (the_wcp e) = Some id /\ get id (the_wcp e) = Ok w.

Definition block_of (e : senv K) (fd : Z) : option WCB :=
  id ← find_used fd (the_wcp e); objs (the_wcp e) !! id.

Lemma block_of_spec e fd w : wcp_block e fd w -> block_of e fd = Some w.
Proof.
  intros (id & E1 & E2). unfold block_of. rewrite E1. simpl. unfold get in E2.
  destruct (objs (the_wcp e) !! id); [by injection E2 as -> | discriminate].
Qed.

(** What a call leaves: the block replaced, and the thread's [errno]. *)
Lemma block_put e fd id w w' ec : find_used fd (the_wcp e) = Some id ->
  wcp_block (set_the_wcp (set_last_errno ec (put id w' (the_wcp e))) e) fd w'
  /\ wcp_block (set_the_wcp (put id w' (the_wcp e)) e) fd w'
  /\ (wcp_block e fd w -> wcp_block (set_the_wcp (set_last_errno ec (the_wcp e)) e) fd w).
Proof.
  intros Hf. split; [|split].
  - exists id. split; [exact Hf|]. apply (get_put id w' (the_wcp e)).
  - exists id. split; [exact Hf | apply get_put].
  - intros (i & Hi & Hg). by exists i.
Qed.

Definition wcp_out_ok (e : senv K) (fd : Z) : Prop :=
  exists w, wcp_block e fd w /\ bytes_ringbuffer.wf (sb w) /\ wcb_errno w <= 0.
Definition wcp_out (e : senv K) (fd : Z) : list Z :=
  from_option (fun w => bytes_ringbuffer.contents (sb w)) [] (block_of e fd).

Lemma wcp_out_block e fd w : wcp_block e fd w -> wcp_out e fd = bytes_ringbuffer.contents (sb w).
Proof. intros Hb. unfold wcp_out. by rewrite (block_of_spec e fd w Hb). Qed.

(** One call of [wcp::send]. *)
Lemma wcp_send_call e fd buffer : wcp_out_ok e fd -> 0 < zlen buffer < 4294967296 ->
  wp (wcp_call (Wcp.send fd buffer (zlen buffer))) e (fun e' r =>
    wcp_out_ok e' fd /\
    ((0 < r <= zlen buffer /\ wcp_out e' fd = wcp_out e fd ++ take (Z.to_nat r) buffer)
     \/ (r < 0 /\ wcp_out e' fd = wcp_out e fd))).
Proof.
  intros (w & (id & Hf & Hg) & HW & He) Hz. unfold wp, wcp_call, zoom.
  pose proof (wcp_out_block e fd w ltac:(by exists id)) as Ho.
  assert (Hbad : forall le r, r < 0 -> let e' := set_the_wcp (set_last_errno le (the_wcp e)) e in
    wcp_out_ok e' fd
    /\ ((0 < r <= zlen buffer /\ wcp_out e' fd = wcp_out e fd ++ take (Z.to_nat r) buffer)
        \/ (r < 0 /\ wcp_out e' fd = wcp_out e fd))).
  { intros le r Hr e'. assert (Hb : wcp_block e' fd w) by (by exists id).
    split; [by exists w|]. right. split; [done|]. by rewrite Ho, (wcp_out_block _ _ _ Hb). }
  unfold Wcp.send. rewrite Hf, Hg. res_simpl.
  destruct (flag_on (s_flag w) _).
  { unfold ret_errno. apply Hbad. destruct (Z.eqb_spec (wcb_errno w) 0); cbn [negb];
      unfold E_ECONNABORTED; lia. }
  set (left := bytes_ringbuffer.left_capacity (sb w)). cbv zeta.
  destruct ((left <? zlen buffer) && (left <? 2 * WCP_MDU)) eqn:Eb.
  { apply (Hbad WcpState.EWOULDBLOCK (-11)). lia. }
  pose proof (bytes_ringbuffer.write_spec (sb w) buffer (zlen buffer) HW ltac:(lia)
    ltac:(range_lia) ltac:(lia)) as (q & E & Wq & _ & Cq).
  rewrite <- bytes_ringbuffer.left_capacity_val in E, Cq by done. fold left in E, Cq.
  rewrite E. res_simpl. cbn beta iota.
  assert (Hl : 0 < left).
  { apply andb_false_iff in Eb. unfold WCP_MDU, WCP_MTU, WCP_HeaderLen in Eb.
    destruct Eb as [Eb%Z.ltb_ge|Eb%Z.ltb_ge]; lia. }
  destruct (block_put e fd id w (set_sb q w) 0 Hf) as (_ & Hb & _).
  split; [exists (set_sb q w); split; [done | by split]|]. left. split; [lia|].
  by rewrite Ho, (wcp_out_block _ _ _ Hb).
Qed.

(** The calls of [class wcp] leave the system alone. *)
Lemma wp_wcp_call {A} (f : wcp -> res (wcp * A)) (e : senv K) Q : wp (wcp_call f) e Q ->
  wp (wcp_call f) e (fun e' a => kern e' = kern e /\ Q e' a).
Proof. unfold wcp_call. rewrite !wp_zoom. intros HQ. eapply wp_mono; [exact HQ|]. done. Qed.

Lemma wcp_send_loop_law fd bytes : zlen bytes < 4294967296 -> forall fuel e n0 ec_o,
  wcp_out_ok e fd -> 0 <= n0 < zlen bytes -> (length bytes < fuel + Z.to_nat n0)%nat ->
  wp (wcp_socket.send_loop fuel fd bytes n0 ec_o) e (fun e' '(n, ec) =>
    wcp_out_ok e' fd /\ n0 <= n <= zlen bytes
    /\ wcp_out e' fd = wcp_out e fd ++ slice bytes n0 (n - n0)
    /\ (ec = OK <-> n = zlen bytes) /\ kern e' = kern e).
Proof.
  intros Hu. induction fuel as [|fuel IH]; intros e n0 ec_o Hok Hn Hf; [unfold zlen in *; lia|].
  cbn [wcp_socket.send_loop]. rewrite wp_bind.
  set (rest := drop (Z.to_nat n0) bytes).
  assert (Hrest : zlen rest = zlen bytes - n0) by (unfold rest, zlen in *; rewrite length_drop; lia).
  rewrite (u32_small (zlen bytes - n0)), <- Hrest by range_lia.
  eapply wp_mono; [apply wp_wcp_call, wcp_send_call; [done | lia]|].
  intros e1 r (Hk1 & Hok1 & [[Hr Ho] | [Hr Ho]]).
  - rewrite (proj2 (Z.ltb_lt 0 r)) by lia. rewrite u32_small by range_lia.
    unfold rest in Ho. rewrite slice_take_drop in Ho.
    destruct (Z.eqb_spec (n0 + r) (zlen bytes)) as [E|E].
    + rewrite wp_ret. split; [done|]. split; [lia|]. split; [|by split]. rewrite Ho. do 2 f_equal. lia.
    + eapply wp_mono; [apply IH; [done | lia | lia]|]. intros e' [n ec] (Hk & Hn' & Ho' & Hec & Hk').
      split; [done|]. split; [lia|]. split; [|split; [done | congruence]]. rewrite Ho', Ho, <- app_assoc. f_equal.
      rewrite slice_app by lia. f_equal. lia.
  - rewrite (proj2 (Z.ltb_ge 0 r)) by lia. rewrite wp_bind, wp_assert.
    split; [apply Z.ltb_lt; lia|].
    destruct (IS_ERRNO_EQUAL_WOULDBLOCK _); rewrite wp_ret;
      rewrite Ho, Z.sub_diag, slice_zero, app_nil_r; split_and!; try done; try lia;
      unfold OK, E_SOCKET_SEND_BLOCK; lia.
Qed.

#[global] Program Instance wcp_stream_out : stream_out wcp_socket.fns := {|
  out_ok := wcp_out_ok;
  out := wcp_out
|}.
Next Obligation.
  intros e fd bytes ec_o flag Hok Hz. cbn [m_fn_send wcp_socket.fns]. unfold wcp_socket.send.
  wp_simpl. split; [apply Z.ltb_lt; lia|].
  eapply wp_mono; [apply wcp_send_loop_law; [lia | done | lia | unfold zlen in *; lia]|].
  intros e' [n ec] (Hk & Hn & Ho & Hec & ->). split; [done|]. split; [lia|]. split; [|done].
  rewrite Ho. f_equal. unfold slice. rewrite drop_0. f_equal. lia.
Qed.
Next Obligation.
  intros e fd Hok. rewrite wp_sys. destruct (curr_milliseconds_law (kern e)) as (now & -> & Hn).
  destruct e. done.
Qed.
Next Obligation. done. Qed.

(** *** Receiving *)

(** The block answers at once, and its error code is one that ends the call. *)
Definition errno_final (w : WCB) : Prop :=
  if flag_on (r_flag w) READ_RECV_ERROR
  then -30000 < wcb_errno w < 0 /\ wcb_errno w <> - EINTR
  else wcb_errno w = 0.

Definition wcp_in_ok (e : senv K) (fd : Z) : Prop :=
  exists w, wcp_block e fd w /\ bytes_ringbuffer.wf (rb w) /\ nonblocking w = true /\ errno_final w.
Definition wcp_in (e : senv K) (fd : Z) : list Z :=
  from_option (fun w => bytes_ringbuffer.contents (rb w)) [] (block_of e fd).

Lemma wcp_in_block e fd w : wcp_block e fd w -> wcp_in e fd = bytes_ringbuffer.contents (rb w).
Proof. intros Hb. unfold wcp_in. by rewrite (block_of_spec e fd w Hb). Qed.

Lemma READ_flags_apart f :
  flag_on (flag_set f READ_REMOTE_FIN_READ_BY_USER) READ_RECV_ERROR = flag_on f READ_RECV_ERROR.
Proof. rewrite flag_on_set. by rewrite orb_false_r. Qed.

(** One call of [wcp::recv]: bytes, or a code that is not [EINTR]. *)
Lemma wcp_recv_call e fd size : wcp_in_ok e fd -> 0 < size < 4294967296 ->
  wp (wcp_call (Wcp.recv fd size)) e (fun e' a =>
    wcp_in_ok e' fd /\ exists r bytes, a = Some (r, bytes) /\
    ((0 < r /\ zlen bytes = r /\ r <= size /\ wcp_in e fd = bytes ++ wcp_in e' fd)
     \/ (-30000 < r <= 0 /\ r <> - EINTR /\ wcp_in e' fd = wcp_in e fd))).
Proof.
  intros (w & (id & Hf & Hg) & HW & Hnb & He) Hz. unfold wp, wcp_call, zoom.
  pose proof (wcp_in_block e fd w ltac:(by exists id)) as Hi.
  assert (Hbad : forall le r, -30000 < r <= 0 -> r <> - EINTR ->
    let e' := set_the_wcp (set_last_errno le (the_wcp e)) e in
    wcp_in_ok e' fd /\ exists r' bytes, Some (r, @nil Z) = Some (r', bytes) /\
    ((0 < r' /\ zlen bytes = r' /\ r' <= size /\ wcp_in e fd = bytes ++ wcp_in e' fd)
     \/ (-30000 < r' <= 0 /\ r' <> - EINTR /\ wcp_in e' fd = wcp_in e fd))).
  { intros le r Hr Hn e'. assert (Hb : wcp_block e' fd w) by (by exists id).
    split; [by exists w|]. exists r, []. split; [done|]. right. split; [done|]. split; [done|].
    by rewrite Hi, (wcp_in_block _ _ _ Hb). }
  unfold Wcp.recv. rewrite Hf, Hg. res_simpl.
  destruct (flag_on (r_flag w) READ_LOCAL_READ_SHUTDOWNED).
  { apply Hbad; unfold E_ECONNABORTED, EINTR; lia. }
  pose proof (bytes_ringbuffer.zlen_contents _ HW) as HL.
  pose proof (bytes_ringbuffer.count_range _ HW) as HC.
  destruct (Z.ltb_spec 0 (bytes_ringbuffer.count (rb w))) as [Hc|Hc].
  - destruct (bytes_ringbuffer.read_spec (rb w) size true HW ltac:(range_lia)) as (q & E & Wq & _ & Cq).
    rewrite E. res_simpl. rewrite HL. rewrite (proj2 (Z.ltb_lt 0 _)) by lia. res_simpl. cbn beta iota.
    destruct (block_put e fd id w (set_rb q w) 0 Hf) as (_ & Hb & _).
    split; [by exists (set_rb q w)|]. eexists _, _. split; [reflexivity|]. left.
    rewrite Hi, (wcp_in_block _ _ _ Hb). simpl. rewrite Cq, take_drop.
    split; [lia|]. split; [|split; [lia | done]]. rewrite <- HL. apply zlen_take. lia.
  - rewrite (proj2 (Z.eqb_eq (bytes_ringbuffer.count (rb w)) 0)) by lia. res_simpl.
    destruct (flag_on (r_flag w) READ_REMOTE_FIN_RECEIVED).
    + destruct (flag_on (r_flag w) READ_REMOTE_FIN_READ_BY_USER).
      { apply Hbad; unfold E_ECONNRESET, EINTR; lia. }
      cbn beta iota. set (w' := rflag_set READ_REMOTE_FIN_READ_BY_USER w).
      destruct (block_put e fd id w w' WcpData.OK Hf) as (Hb & _ & _).
      split.
      { exists w'. split; [exact Hb|]. split; [exact HW|]. split; [exact Hnb|].
        unfold errno_final, w'. simpl. rewrite READ_flags_apart. exact He. }
      eexists _, _. split; [reflexivity|]. right.
      split; [unfold WcpData.OK; lia|]. split; [discriminate|].
      by rewrite Hi, (wcp_in_block _ _ _ Hb).
    + unfold errno_final in He. destruct (flag_on (r_flag w) READ_RECV_ERROR).
      * destruct He as [He1 He2]. rewrite (proj2 (Z.eqb_neq _ 0)) by lia. res_simpl.
        unfold WcpState.WAWO_NEGATIVE. rewrite (proj2 (Z.ltb_lt _ 0)) by lia. apply Hbad; lia.
      * rewrite He, Z.eqb_refl, Hnb. res_simpl.
        apply (Hbad WcpState.EWOULDBLOCK (-11)); unfold EINTR; lia.
Qed.

#[global] Program Instance wcp_stream_in : stream_in wcp_socket.fns := {|
  in_ok := wcp_in_ok;
  inq := wcp_in
|}.
Next Obligation.
  intros e fd size ec_o flag Hok Hz. cbn [m_fn_recv wcp_socket.fns]. unfold wcp_socket.recv.
  cbn [wcp_socket.recv_loop]. wp_simpl. split; [apply Z.ltb_lt; lia|].
  eapply wp_mono; [by apply wcp_recv_call|].
  intros e' a (Hok' & r & bytes & -> & [(Hr & Hb & Hs & Hi) | (Hr & Hn & Hi)]).
  - rewrite (proj2 (Z.ltb_lt 0 r)) by lia. rewrite wp_ret.
    split; [done|]. split; [done|]. split; [lia|]. split; [lia | by left].
  - rewrite (proj2 (Z.ltb_ge 0 r)) by lia.
    assert (Hnil : forall ec, ec <> OK -> plain_code ec -> wp (mret ([], ec) : M (senv K) _) e' (fun e'' '(bs, ec) =>
      wcp_in_ok e'' fd /\ wcp_in e fd = bs ++ wcp_in e'' fd /\ zlen bs <= size
      /\ (ec = OK <-> 0 < zlen bs) /\ plain_code ec)).
    { intros ec Hec Hp. rewrite wp_ret. split; [done|]. split; [done|]. change (zlen (@nil Z)) with 0.
      split; [lia|]. split; [lia | done]. }
    destruct (Z.eqb_spec r 0) as [->|Hr0]; [apply Hnil; [done | right; by left]|].
    destruct (IS_ERRNO_EQUAL_WOULDBLOCK _); [apply Hnil; [done | right; right; by left]|].
    destruct (Z.eqb_spec (WAWO_ABS r) EINTR) as [E|E].
    { exfalso. unfold WAWO_ABS in E. destruct (Z.ltb_spec 0 r); lia. }
    unfold SocketData.WAWO_NEGATIVE. rewrite (proj2 (Z.ltb_lt r 0)) by lia.
    apply Hnil; [unfold OK; lia | right; right; right; lia].
Qed.
End wcp.
