(* ===== verification/SocketSim.v ===== *)
(** * SocketSim: a system in memory

    A system that has the documented behaviour SocketLaws assumes, for the
    witnesses: a descriptor is a queue of bytes to hand out and a log of the
    bytes taken; [windows] says how much the next calls of [send] take (nothing
    is [EAGAIN]); the clock moves when a thread sleeps. *)

From S2P Require Import Prelude Ring Packet Address WcpData WcpSendProofs Wcp SocketData SockFns SocketLaws.

Record sim : Type := mk_sim {
  taken : gmap Z (list Z);
  given : gmap Z (list Z);
  windows : list Z;
  micros : N
}.

Definition sim_send (fd : Z) (bytes : list Z) (flag : Z) (k : sim) : sim * (Z * Z) :=
  let take_some n ws :=
    if n <=? 0 then (mk_sim (taken k) (given k) ws (micros k), (-1, EAGAIN))
    else
      let n := Z.min n (zlen bytes) in
      (mk_sim (<[fd := default [] (taken k !! fd) ++ take (Z.to_nat n) bytes]> (taken k)) (given k)
         ws (micros k), (n, 0)) in
  match windows k with
  | [] => take_some (zlen bytes) []
  | n :: ws => take_some n ws
  end.

Definition sim_recv (fd size flag : Z) (k : sim) : sim * (Z * Z * list Z) :=
  match default [] (given k !! fd) with
  | [] => (k, (-1, EAGAIN, []))
  | bytes =>
      let got := take (Z.to_nat size) bytes in
      (mk_sim (taken k) (<[fd := drop (Z.to_nat size) bytes]> (given k)) (windows k) (micros k),
       (zlen got, 0, got))
  end.

Definition sim_clock (k : sim) : Z := Z.of_N (micros k) + 1.

(** The calls the witnesses do not make succeed. *)
#[export] Instance sim_system : system sim := {|
  sys_socket _ _ _ k := (k, (3, 0));
  sys_connect _ _ k := (k, (0, 0));
  sys_bind _ _ k := (k, (0, 0));
  sys_shutdown _ _ k := (k, (0, 0));
  sys_close _ k := (k, (0, 0));
  sys_listen _ _ k := (k, (0, 0));
  sys_accept _ k := (k, (-1, EAGAIN, (0, 0)));
  sys_getsockopt _ _ _ k := (k, (0, 0, [65536]));
  sys_setsockopt _ _ _ _ k := (k, (0, 0));
  sys_getsockname _ k := (k, (0, 0, (2, 0, 0)));
  sys_send := sim_send;
  sys_recv := sim_recv;
  sys_sendto _ bytes _ _ k := (k, (zlen bytes, 0));
  sys_recvfrom _ _ _ k := (k, (-1, EAGAIN, [], (0, 0)));
  sys_fcntl _ _ _ k := (k, (0, 0));
  sys_ioctl _ _ k := (k, (0, 0, 0));
  curr_milliseconds k := (k, sim_clock k);
  curr_microseconds k := (k, sim_clock k);
  usleep n k := (mk_sim (taken k) (given k) (windows k) (micros k + Z.to_N n)%N, tt);
  signals _ := O
|}.

#[export] Program Instance sim_laws : system_laws sim := {|
  kout k fd := default [] (taken k !! fd);
  kin k fd := default [] (given k !! fd);
  clock := sim_clock;
  horizon := sim_clock
|}.
Next Obligation. intros k. unfold sim_clock. lia. Qed.
Next Obligation.
  intros k fd bytes flag Hz. cbn [sys_send sim_system]. unfold sim_send.
  assert (HT : forall n ws,
    match (if n <=? 0 then (mk_sim (taken k) (given k) ws (micros k), ((-1)%Z, EAGAIN))
      else let n := Z.min n (zlen bytes) in
        (mk_sim (<[fd := default [] (taken k !! fd) ++ take (Z.to_nat n) bytes]> (taken k)) (given k)
           ws (micros k), (n, 0))) with
    | (k', (r, errno)) =>
        sim_clock k <= sim_clock k' /\ sim_clock k' <= sim_clock k /\
        ((0 < r <= zlen bytes /\ default [] (taken k' !! fd) = default [] (taken k !! fd) ++ take (Z.to_nat r) bytes
          /\ (0 <= 0)%nat)
         \/ (r = -1 /\ 0 < errno /\ default [] (taken k' !! fd) = default [] (taken k !! fd)
             /\ (0 + (if decide (errno = EINTR) then 1%nat else 0%nat) <= 0)%nat))
    end).
  { intros n ws. destruct (Z.leb_spec n 0); cbn; unfold sim_clock; simpl.
    - split; [lia|]. split; [lia|]. right. repeat split; done || (unfold EAGAIN; lia).
    - split; [lia|]. split; [lia|]. left. rewrite lookup_insert_eq. split; [lia|]. split; [done | lia]. }
  destruct (windows k) as [|n ws]; [apply (HT (zlen bytes) []) | apply HT].
Qed.
Next Obligation.
  intros k fd size flag Hz. cbn [sys_recv sim_system]. unfold sim_recv.
  destruct (default [] (given k !! fd)) as [|b l] eqn:E.
  - right. rewrite E. repeat split; done || (unfold EAGAIN; lia).
  - left. set (bytes := b :: l). assert (Hb : zlen bytes = 1 + zlen l) by (unfold zlen; simpl; lia).
    pose proof (zlen_nonneg l). rewrite zlen_take by lia.
    split; [lia|]. split; [done|]. cbn [given]. rewrite lookup_insert_eq. simpl default.
    split; [by rewrite take_drop | simpl; lia].
Qed.
Next Obligation. done. Qed.
Next Obligation. intros k. exists (sim_clock k). split; [done|]. unfold sim_clock. lia. Qed.
Next Obligation. intros k n fd Hn. unfold sim_clock. simpl. split; [lia|]. split; [lia | done]. Qed.

(** [class wcp], which these witnesses do not use. *)
#[export] Existing Instance sample_env.
#[export] Instance sim_sockets : wcp_sockets := {|
  open_udp := (OK, 0); turnon_nonblocking _ := OK; bind_udp _ _ := (OK, 0); listen_udp _ _ := OK;
  accept_udp _ _ := OK; accepted_local_addr _ := 11; so_local_addr _ := 11;
  so_is_nonblocking _ := true; so_getsockopt _ _ := (OK, 1); so_setsockopt _ _ := OK;
  uninit := sample_wcb |}.
Definition no_wcp : wcp := mk_wcp ∅ 1 S_RUN ∅ ∅ ∅ [] 5 ∅ ∅ 1 [] 2 0 [] [].

(** A connected TCP socket, descriptor 5. *)
Definition sim_cfg : socket_buffer_cfg := mk_cfg 4096 4096.
Definition sim_ring (bytes : list Z) : bytes_ringbuffer.t :=
  bytes_ringbuffer.mk 4097 0 (zlen bytes) (bytes ++ replicate (4097 - length bytes) 0).
Definition sim_socket {T} (tlp : T) (rflag wflag : Z) : socket T :=
  mk_socket SM_ACTIVE F_PF_INET ST_STREAM P_TCP OPTION_NON_BLOCKING 0 0 5 sim_cfg (Some tlp) S_CONNECTED
    rflag wflag (sim_ring []) (sim_ring []) WAWO_MAX_ASYNC_WRITE_PERIOD 0 [] [].
Definition sim_st {T} (s : socket T) (k : sim) : st T (senv sim) :=
  mk_st s (mk_env k no_wcp) [] [] [] [] [].

Lemma sim_ring_wf bytes : (length bytes < 4097)%nat -> bytes_ringbuffer.wf (sim_ring bytes).
Proof.
  intros L. unfold sim_ring. constructor; cbn [bytes_ringbuffer.m_capacity bytes_ringbuffer.m_begin
    bytes_ringbuffer.m_end bytes_ringbuffer.m_buffer]; unfold zlen, bytes_ringbuffer.MAX_RING_BUFFER_SIZE;
    try lia. rewrite length_app, length_replicate. lia.
Qed.
