(* ===== verification/SocketSendProofs.v ===== *)
(** * SocketSendProofs: the sending side of a socket

    The bytes [send] accepts reach the transport once and in order, over any
    sequence of [send], [handle_async_write] and [flush], whatever the transport
    takes at each call: the ring of the socket and the transport together are a
    FIFO.  No assertion of these methods fails, every loop ends, and no lock is
    left held.

    The theorems hold for both tables of functions (SocketLaws). *)

From S2P Require Import Prelude Effects Ring Packet Tlp Address Wcp SocketData SockFns SocketBase Socket SocketLaws SocketTlp SocketSim.

Section send.
Context `{memory} `{WcpData.wcp_env} `{wcp_sockets} {K} `{system_laws K} `{tlp_abstract T}.
Import socket_base.
Local Abbreviation ST := (st T (senv K)).

(** The table of a protocol keeps the bytes in order. *)
#[local] Instance protocol_stream_out p : stream_out (_socket_fn_init (K:=K) p).
Proof. unfold _socket_fn_init. destruct (decide _); apply _. Defined.

Definition fd_of (w : ST) : Z := m_fd (so w).
Definition sent_ok (w : ST) : Prop :=
  out_ok (stream_out := protocol_stream_out (m_protocol (so w))) (env w) (fd_of w).
(** The bytes handed to the transport so far, those still in the ring. *)
Definition sent (w : ST) : list Z :=
  out (stream_out := protocol_stream_out (m_protocol (so w))) (env w) (fd_of w).
Definition queued (w : ST) : list Z := bytes_ringbuffer.contents (m_sb (so w)).

Definition clock_of (w : ST) : Z := clock (kern (env w)).
Definition horizon_of (w : ST) : Z := horizon (kern (env w)).
Definition on_time (w w' : ST) : Prop := timely (kern (env w)) (kern (env w')).
#[local] Instance on_time_preorder : PreOrder on_time.
Proof. split; [intros w | intros w1 w2 w3]; unfold on_time; [done | intros; by etrans]. Qed.

(** ** Moving bytes to the transport *)

(** [w'] is [w] after [n] bytes of the ring went to the transport. *)
Definition moved (w w' : ST) (n : Z) : Prop :=
  exists e' q', w' = set_env e' (set_so (set_m_sb q' (so w)) w)
    /\ sent_ok w' /\ sent w' = sent w ++ take (Z.to_nat n) (queued w)
    /\ queued w' = drop (Z.to_nat n) (queued w)
    /\ bytes_ringbuffer.wf q' /\ bytes_ringbuffer.m_capacity q' = bytes_ringbuffer.m_capacity (m_sb (so w)).

Lemma moved_trans w w1 w2 n m : 0 <= n -> 0 <= m ->
  moved w w1 n -> moved w1 w2 m -> moved w w2 (n + m).
Proof.
  intros Hn Hm (e1 & q1 & -> & K1 & S1 & Q1 & W1 & C1) (e2 & q2 & -> & K2 & S2 & Q2 & W2 & C2).
  exists e2, q2. split; [done|]. split; [exact K2|].
  rewrite S1 in S2. rewrite Q1 in S2, Q2. change (m_sb (so _)) with q1 in C2.
  rewrite Z2Nat.inj_add by lia. split; [|split; [|split; [done | congruence]]].
  - etrans; [exact S2|]. rewrite <- app_assoc. f_equal. apply take_take_drop.
  - etrans; [exact Q2|]. by rewrite drop_drop.
Qed.

Lemma base_send_spec w bytes ec_o flag : sent_ok w -> 0 < zlen bytes < 4294967296 ->
  wp (socket_base.send bytes ec_o flag) w (fun w' '(n, ec) =>
    exists e', w' = set_env e' w /\ sent_ok w' /\ 0 <= n <= zlen bytes
      /\ sent w' = sent w ++ take (Z.to_nat n) bytes /\ (ec = OK <-> n = zlen bytes)
      /\ on_time w w').
Proof.
  intros Hok Hz. unfold socket_base.send. wp_simpl.
  split; [apply Z.ltb_lt; lia|]. cbn beta. destruct (flag_on (m_wflag _) SHUTDOWN_WR).
  - rewrite wp_ret. exists (env w). destruct w. split; [done|]. split; [done|].
    split; [lia|]. rewrite app_nil_r. split; [done|]. split; [|done].
    unfold E_SOCKET_WR_SHUTDOWN_ALREADY, OK. lia.
  - rewrite wp_in_env. unfold fns_of.
    eapply wp_mono; [by apply (fn_send_law (stream_out := protocol_stream_out _))|].
    intros e' [n ec] (Hok' & Hn & Ho & Hec & Ht). exists e'.
    split; [done|]. split; [exact Hok'|]. split; [exact Hn|]. split; [exact Ho|].
    split; [exact Hec | exact Ht].
Qed.

Definition can_flush (w : ST) : Prop :=
  sent_ok w /\ bytes_ringbuffer.wf (m_sb (so w))
  /\ bytes_ringbuffer.m_capacity (m_sb (so w)) = snd_size (m_sbc (so w)) + 1.

Lemma moved_can_flush w w' n : can_flush w -> moved w w' n -> can_flush w'.
Proof.
  intros (K1 & W1 & C1) (e1 & q1 & -> & K2 & S2 & Q2 & W2 & C2). split; [done|]. split; [done|].
  simpl. by rewrite C2.
Qed.

Lemma moved_none w : can_flush w -> moved w w 0.
Proof.
  intros (K1 & W1 & C1). exists (env w), (m_sb (so w)). destruct w as [[] ?].
  split; [done|]. split; [done|]. rewrite app_nil_r. done.
Qed.

Lemma queued_count w : can_flush w -> bytes_ringbuffer.count (m_sb (so w)) = zlen (queued w).
Proof. intros (_ & W & _). symmetry. by apply bytes_ringbuffer.zlen_contents. Qed.

Lemma queued_bound w : can_flush w -> zlen (queued w) < 33554433.
Proof.
  intros (K1 & W & C). pose proof (bytes_ringbuffer.count_range _ W).
  rewrite <- queued_count by done. destruct W as [HC _ _ _].
  unfold bytes_ringbuffer.MAX_RING_BUFFER_SIZE in HC. lia.
Qed.

(** One round: all that is queued is offered, what was taken is dropped. *)
Lemma flush_round_spec fuel w flushed : can_flush w -> 0 < zlen (queued w) ->
  0 <= flushed /\ flushed + zlen (queued w) < 33554433 ->
  (forall w1 n ec, moved w w1 n -> 0 <= n <= zlen (queued w) ->
     (ec = OK <-> n = zlen (queued w)) ->
     wp (socket.flush_loop fuel (flushed + n) (zlen (queued w1)) ec) w1 (fun w' '(fl, l, c) =>
       exists k, moved w1 w' k /\ 0 <= k <= zlen (queued w1) /\ fl = flushed + n + k
         /\ l = zlen (queued w') /\ (c = OK <-> l = 0) /\ on_time w1 w')) ->
  wp (socket.flush_loop (S fuel) flushed (zlen (queued w)) OK) w (fun w' '(fl, l, c) =>
    exists k, moved w w' k /\ 0 <= k <= zlen (queued w) /\ fl = flushed + k
      /\ l = zlen (queued w') /\ (c = OK <-> l = 0) /\ on_time w w').
Proof.
  intros Hf Hq Hfl IH. cbn [socket.flush_loop]. rewrite (proj2 (Z.eqb_neq _ 0)) by lia.
  cbn [negb andb]. change (OK =? OK) with true. cbn iota. wp_simpl.
  destruct Hf as (Hok & W & C). pose proof (bytes_ringbuffer.zlen_contents _ W) as HL.
  fold (queued w) in HL. pose proof (bytes_ringbuffer.count_range _ W) as HR.
  assert (HC : is_u32 (snd_size (m_sbc (so w)))).
  { destruct W as [HC _ _ _]. unfold bytes_ringbuffer.MAX_RING_BUFFER_SIZE in HC. range_lia. }
  destruct (bytes_ringbuffer.read_spec (m_sb (so w)) (snd_size (m_sbc (so w))) false W HC)
    as (q1 & Er & W1 & C1 & D1).
  fold (queued w) in Er, D1. unfold bytes_ringbuffer.peek. rewrite Er, wp_lift. cbn beta iota.
  wp_simpl. rewrite take_ge by (unfold zlen in *; lia).
  set (w1 := set_so (set_m_sb q1 (so w)) w).
  eapply wp_mono; [apply (base_send_spec w1); [exact Hok | lia]|].
  intros w2 [n ec] (e2 & -> & Hok2 & Hn & Hs & Hec & Ht). rewrite u32_small by range_lia.
  assert (Hskip : wp (when (0 <? n) (s ← so_get id; sb ← lift (bytes_ringbuffer.skip (m_sb s) n);
      so_upd (set_m_sb sb))) (set_env e2 w1) (fun w3 _ => moved w w3 n /\ on_time w w3)).
  { rewrite wp_when. destruct (Z.ltb_spec 0 n) as [Hn0|Hn0].
    - wp_simpl.
      pose proof (bytes_ringbuffer.zlen_contents _ W1) as HL1. rewrite D1 in HL1.
      destruct (bytes_ringbuffer.skip_spec q1 n W1) as (q3 & E3 & W3 & C3 & D3); [lia|].
      simpl. rewrite E3, wp_lift, wp_so_upd. split; [|exact Ht]. exists e2, q3. split; [done|]. split; [exact Hok2|].
      split; [exact Hs|]. rewrite D1 in D3. split; [exact D3|].
      split; [done | congruence].
    - assert (n = 0) as -> by lia. split; [|exact Ht]. exists e2, q1. split; [done|]. split; [exact Hok2|].
      split; [exact Hs|]. split; [exact D1|]. by split. }
  rewrite wp_bind. eapply wp_mono; [exact Hskip|]. cbn beta. intros w3 _ [Hm Ht3].
  pose proof (moved_can_flush w w3 n ltac:(by split_and!) Hm) as Hf3.
  wp_simpl. rewrite queued_count by done.
  eapply wp_mono; [by apply IH|]. intros w' [[fl l] c] (k & Hk & Hk1 & -> & Hl & Hc & Ht4).
  assert (Hq3 : zlen (queued w3) = zlen (queued w) - n).
  { destruct Hm as (? & ? & _ & _ & _ & Eq & _). rewrite Eq, zlen_drop by lia. lia. }
  exists (n + k). split; [apply (moved_trans w w3); done || lia|].
  split; [lia|]. split; [lia|]. split; [done|]. split; [done | by etrans].
Qed.

Lemma flush_loop_spec fuel : forall w flushed ec, can_flush w ->
  (ec = OK -> zlen (queued w) <= Z.of_nat fuel) -> (zlen (queued w) = 0 -> ec = OK) ->
  0 <= flushed /\ flushed + zlen (queued w) < 33554433 ->
  wp (socket.flush_loop fuel flushed (zlen (queued w)) ec) w (fun w' '(fl, l, c) =>
    exists k, moved w w' k /\ 0 <= k <= zlen (queued w) /\ fl = flushed + k
      /\ l = zlen (queued w') /\ (c = OK <-> l = 0) /\ on_time w w').
Proof.
  induction fuel as [|fuel IH]; intros w flushed ec Hf Hz Hec Hfl;
    pose proof (zlen_nonneg (queued w)) as Hq0;
    (destruct (decide (zlen (queued w) <> 0 /\ ec = OK)) as [[Hq ->]|Hno]; [|
      assert (Hend : negb (zlen (queued w) =? 0) && (ec =? OK) = false) by
        (destruct (Z.eqb_spec (zlen (queued w)) 0), (Z.eqb_spec ec OK); simpl; tauto);
      cbn [socket.flush_loop]; rewrite Hend, wp_ret; exists 0;
      split; [by apply moved_none|]; split_and!; try lia; try tauto; done]).
  - specialize (Hz eq_refl). lia.
  - apply flush_round_spec; [done | lia | done|]. intros w1 n ec1 Hm Hn Hec1.
    assert (Hq1 : zlen (queued w1) = zlen (queued w) - n).
    { destruct Hm as (? & ? & _ & _ & _ & Eq & _). rewrite Eq, zlen_drop by lia. lia. }
    specialize (Hz eq_refl). apply IH; [by eapply moved_can_flush | | |lia].
    + intros E. apply Hec1 in E. lia.
    + intros E. apply Hec1. lia.
Qed.

(** [_flush] moves a prefix of the ring to the transport; the code is [OK]
    exactly when the ring is left empty. *)
Lemma _flush_spec w : can_flush w -> is_data_socket (so w) = true -> is_nonblocking (so w) = true ->
  wp socket._flush w (fun w' '(fl, l, c) =>
    exists k, moved w w' k /\ 0 <= k <= zlen (queued w) /\ fl = k
      /\ l = zlen (queued w') /\ (c = OK <-> l = 0) /\ on_time w w').
Proof.
  intros Hf Hd Hn. unfold socket._flush. wp_simpl.
  split; [done|]. split; [done|]. rewrite queued_count by done.
  pose proof (zlen_nonneg (queued w)). pose proof (queued_bound w Hf).
  eapply wp_mono; [apply flush_loop_spec; [done | lia | done | lia]|].
  intros w' [[fl l] c] (k & Hk & Hk1 & -> & HR). exists k.
  split; [exact Hk|]. split; [exact Hk1|]. split; [lia | exact HR].
Qed.
(** ** The frame of the sending side

    What [send], [flush] and [handle_async_write] may change. *)
Definition send_frame (w w' : ST) : Prop :=
  exists e q wf awt o1 o2 ts,
    w' = set_tasks ts (set_wcp_ops o2 (set_ops o1 (set_env e
           (set_so (set_m_sb q (set_m_wflag wf (set_m_async_wt awt (so w)))) w)))).

#[local] Instance send_frame_refl : Reflexive send_frame.
Proof.
  intros w. exists (env w), (m_sb (so w)), (m_wflag (so w)), (m_async_wt (so w)), (ops w),
    (wcp_ops w), (tasks w). by destruct w as [[] ?].
Qed.
#[local] Instance send_frame_trans : Transitive send_frame.
Proof.
  intros w w1 w2 (e & q & wf & a & o1 & o2 & ts & ->) (e' & q' & wf' & a' & o1' & o2' & ts' & ->).
  by exists e', q', wf', a', o1', o2', ts'.
Qed.

Lemma moved_frame w w' n : moved w w' n -> send_frame w w'.
Proof.
  intros (e & q & -> & _). exists e, q, (m_wflag (so w)), (m_async_wt (so w)), (ops w),
    (wcp_ops w), (tasks w). by destruct w as [[] ?].
Qed.

(** Changes of the flags, the timer and the queues of requests only. *)
Definition idle_frame (w w' : ST) : Prop :=
  send_frame w w' /\ env w' = env w /\ m_sb (so w') = m_sb (so w).

Lemma idle_frame_spec w w' : idle_frame w w' ->
  sent_ok w' = sent_ok w /\ sent w' = sent w /\ queued w' = queued w /\ (can_flush w -> can_flush w').
Proof.
  intros ((e & q & wf & a & o1 & o2 & ts & ->) & E & Q). simpl in E, Q. subst. done.
Qed.

Definition write_shut (w : ST) : bool := flag_on (m_wflag (so w)) SHUTDOWN_WR.
Definition write_watched (w : ST) : bool := flag_on (m_wflag (so w)) WATCH_WRITE.

Record can_write (w : ST) : Prop := {
  cw_data : is_data_socket (so w) = true;
  cw_nonblocking : is_nonblocking (so w) = true;
  cw_state : is_connected (so w) || is_connecting (so w) = true;
  cw_fd : 0 < m_fd (so w)
}.

Lemma can_write_frame w w' : send_frame w w' -> can_write w -> can_write w'.
Proof. intros (e & q & wf & a & o1 & o2 & ts & ->) []. by constructor. Qed.

(** Requests to the observer for a socket with a descriptor. *)
Lemma push_op_spec (b : bool) (o : event_op) (w : ST) (Q : ST -> unit -> Prop) : 0 < o_fd o ->
  Q (if b then set_wcp_ops (wcp_ops w ++ [o]) w else set_ops (ops w ++ [o]) w) tt ->
  wp (push_op b o) w Q.
Proof.
  intros Ho HQ. unfold push_op. wp_simpl. by split; [apply Z.ltb_lt|].
Qed.

(** A flag changed and a request queued. *)
Lemma pushed_idle (b : bool) (o : event_op) v w : let w1 := set_so (set_m_wflag v (so w)) w in
  idle_frame w (if b then set_wcp_ops (wcp_ops w1 ++ [o]) w1 else set_ops (ops w1 ++ [o]) w1).
Proof.
  intros w1. split; [|by destruct b].
  destruct b; [exists (env w), (m_sb (so w)), v, (m_async_wt (so w)), (ops w), (wcp_ops w ++ [o]), (tasks w)
    | exists (env w), (m_sb (so w)), v, (m_async_wt (so w)), (ops w ++ [o]), (wcp_ops w), (tasks w)];
    by destruct w as [[] ?].
Qed.

Lemma begin_write_spec w : can_write w ->
  wp (_begin_async_write 0 None fn_async_write fn_async_error) w (fun w' _ =>
    idle_frame w w' /\ write_shut w' = write_shut w /\ m_async_wt (so w') = m_async_wt (so w)
    /\ (write_shut w = false -> write_watched w' = true)).
Proof.
  intros [_ Hn Hs Hf]. unfold _begin_async_write, watch. wp_simpl.
  split; [exact Hs|]. split; [exact Hn|]. fold (write_shut w) (write_watched w).
  destruct (write_shut w) eqn:Es.
  { rewrite wp_schedule. split; [|done]. split; [|done].
    exists (env w), (m_sb (so w)), (m_wflag (so w)), (m_async_wt (so w)), (ops w), (wcp_ops w).
    eexists. by destruct w as [[] ?]. }
  destruct (write_watched w) eqn:Ew; [rewrite wp_ret; by split_and!|].
  wp_simpl. split; [done|]. split; [by apply Z.ltb_lt|]. apply push_op_spec; [done|].
  assert (Hw : flag_on (flag_set (m_wflag (so w)) (Z.lor WATCH_WRITE 0)) SHUTDOWN_WR = false
    /\ flag_on (flag_set (m_wflag (so w)) (Z.lor WATCH_WRITE 0)) WATCH_WRITE = true).
  { rewrite !flag_on_set. unfold write_shut in Es. rewrite Es. by rewrite orb_true_r. }
  split; [by apply pushed_idle|]. destruct (is_wcp _); unfold write_shut, write_watched; simpl; tauto.
Qed.

Lemma end_write_spec w : 0 < m_fd (so w) ->
  wp _end_async_write w (fun w' _ =>
    idle_frame w w' /\ write_shut w' = write_shut w /\ m_async_wt (so w') = m_async_wt (so w)).
Proof.
  intros Hf. unfold _end_async_write, unwatch. wp_simpl.
  destruct (_ && _); [|done].
  wp_simpl. split; [done|]. split; [by apply Z.ltb_lt|]. apply push_op_spec; [done|].
  assert (Hs : flag_on (flag_clear (m_wflag (so w)) (Z.lor WATCH_WRITE WATCH_OPTION_INFINITE)) SHUTDOWN_WR
    = write_shut w) by (by rewrite flag_on_clear).
  split; [by apply pushed_idle|]. destruct (is_wcp _); unfold write_shut; simpl; tauto.
Qed.
(** ** [send] *)

(** Reading the clock leaves the transport alone. *)
Lemma milliseconds_spec w : sent_ok w ->
  wp (sys curr_milliseconds) (env w) (fun e now =>
    sent_ok (set_env e w) /\ sent (set_env e w) = sent w /\ 0 < now).
Proof.
  intros Hok. eapply wp_mono; [exact (out_milliseconds (stream_out := protocol_stream_out _) _ _ Hok)|].
  by intros e' now (Hok' & Ho & Hn).
Qed.

Lemma env_frame e w : send_frame w (set_env e w).
Proof.
  exists e, (m_sb (so w)), (m_wflag (so w)), (m_async_wt (so w)), (ops w), (wcp_ops w), (tasks w).
  by destruct w as [[] ?].
Qed.

Lemma left_capacity_empty w : can_flush w -> queued w = [] ->
  bytes_ringbuffer.left_capacity (m_sb (so w)) = snd_size (m_sbc (so w)).
Proof.
  intros Hf Hq. rewrite bytes_ringbuffer.left_capacity_val by apply Hf.
  rewrite queued_count, Hq by done. destruct Hf as (_ & _ & C). change (zlen (@nil Z)) with 0. lia.
Qed.

(** Bytes written behind those of the ring. *)
Lemma ring_put w bytes : can_flush w -> 0 < zlen bytes ->
  zlen bytes <= bytes_ringbuffer.left_capacity (m_sb (so w)) ->
  exists q, bytes_ringbuffer.write (m_sb (so w)) bytes (zlen bytes) = Ok (q, zlen bytes)
    /\ let w' := set_so (set_m_sb q (so w)) w in
       can_flush w' /\ sent w' = sent w /\ queued w' = queued w ++ bytes.
Proof.
  intros (Hok & W & C) Hz Hl. rewrite bytes_ringbuffer.left_capacity_val in Hl by done.
  pose proof (bytes_ringbuffer.count_range _ W).
  assert (HC : is_u32 (zlen bytes)).
  { destruct W as [HC _ _ _]. unfold bytes_ringbuffer.MAX_RING_BUFFER_SIZE in HC. range_lia. }
  destruct (bytes_ringbuffer.write_spec (m_sb (so w)) bytes (zlen bytes) W Hz HC ltac:(lia))
    as (q & E & Wq & Cq & Dq).
  rewrite Z.min_l in E by lia. rewrite Z.min_l in Dq by lia.
  rewrite take_ge in Dq by (unfold zlen; lia).
  exists q. split; [done|]. split; [split; [exact Hok|]; split; [exact Wq|]; simpl; congruence|].
  split; [done | exact Dq].
Qed.

Lemma buffer_rest_spec w bytes n : can_flush w -> can_write w -> queued w = [] ->
  0 <= n < zlen bytes -> zlen bytes <= snd_size (m_sbc (so w)) -> write_shut w = false ->
  wp (socket.buffer_rest bytes n) w (fun w' r =>
    send_frame w w' /\ can_flush w' /\ r = zlen bytes /\ sent w' = sent w
    /\ queued w' = drop (Z.to_nat n) bytes /\ 0 < m_async_wt (so w') /\ write_watched w' = true).
Proof.
  intros Hf Hw Hq Hn Hz Hs. unfold socket.buffer_rest. wp_simpl.
  split; [apply Hw|]. pose proof (left_capacity_empty w Hf Hq) as HL.
  pose proof (queued_bound w Hf) as HB.
  assert (HU : snd_size (m_sbc (so w)) < 4294967296).
  { destruct Hf as (_ & [HC _ _ _] & C). unfold bytes_ringbuffer.MAX_RING_BUFFER_SIZE in HC. lia. }
  set (rest := drop (Z.to_nat n) bytes).
  assert (Hr : zlen rest = zlen bytes - n) by (unfold rest; rewrite zlen_drop by lia; lia).
  rewrite (u32_small (zlen bytes - n)), <- Hr by range_lia. split; [apply Z.leb_le; lia|].
  destruct (ring_put w rest Hf ltac:(lia) ltac:(lia)) as (q & -> & Hf1 & Hs1 & Hq1).
  rewrite wp_lift. cbn beta iota. wp_simpl. split; [apply Z.eqb_refl|].
  set (w1 := set_so (set_m_sb q (so w)) w) in *.
  eapply wp_mono; [apply (milliseconds_spec w1), Hf1|].
  intros e now (Hok2 & Hs2 & Hnow). wp_simpl.
  set (w3 := set_tasks _ _).
  assert (F3 : send_frame w w3).
  { exists e, q, (m_wflag (so w)), now, (ops w), (wcp_ops w), (tasks w ++ [TTrigger (info_event E_WR_BLOCK 1)]).
    by destruct w as [[] ?]. }
  eapply wp_mono; [apply (begin_write_spec w3), (can_write_frame w); done|].
  intros w4 _ (F4 & S4 & T4 & A4). rewrite wp_ret.
  destruct (idle_frame_spec w3 w4 F4) as (_ & E4 & Q4 & C4).
  split; [etrans; [exact F3 | apply F4]|]. split; [apply C4; by destruct Hf1 as (? & ? & ?)|].
  split; [rewrite u32_small by range_lia; lia|]. rewrite E4, Q4, T4.
  split; [by etrans; [exact Hs2|]|]. split; [etrans; [exact Hq1|]; by rewrite Hq|].
  split; [exact Hnow | by apply A4].
Qed.

(** What holds of a socket that can send between two calls. *)
Record send_inv (w : ST) : Prop := {
  si_flush : can_flush w;
  si_write : can_write w;
  si_lock : L_WRITE ∉ locks w;
  si_timer : queued w <> [] -> m_async_wt (so w) <> 0;
  si_armed : queued w <> [] -> write_shut w = false -> write_watched w = true
}.

Lemma locked_inv l w : can_flush w -> can_flush (set_locks l w).
Proof. done. Qed.

(** The result of a call that takes [bytes]: the transport and the ring hold
    them behind the bytes taken before. *)
Definition sends (w w' : ST) (bytes : list Z) : Prop :=
  send_frame w w' /\ send_inv w' /\ sent w' ++ queued w' = sent w ++ queued w ++ bytes.

Lemma sends_refl w : send_inv w -> sends w w [].
Proof. intros Hi. split; [done|]. split; [done|]. by rewrite app_nil_r. Qed.

Lemma sends_trans w w1 w2 a b : sends w w1 a -> sends w1 w2 b -> sends w w2 (a ++ b).
Proof.
  intros (F1 & _ & E1) (F2 & I2 & E2). split; [by etrans|]. split; [done|].
  by rewrite E2, !app_assoc, E1, <- !app_assoc.
Qed.

(** Under the lock: the frame and the invariant of the state without it. *)
Lemma unlocked w w1 : send_frame (set_locks (L_WRITE :: locks w) w) w1 ->
  locks w1 = L_WRITE :: locks w /\ send_frame w (set_locks (locks w) w1).
Proof.
  intros (e & q & wf & a & o1 & o2 & ts & ->). split; [done|].
  exists e, q, wf, a, o1, o2, ts. by destruct w.
Qed.
(** A call under the lock of the writer. *)
Lemma wp_write_lock {A} (m : M ST A) w Q : L_WRITE ∉ locks w ->
  wp m (set_locks (L_WRITE :: locks w) w)
    (fun w1 a => send_frame (set_locks (L_WRITE :: locks w) w) w1 /\ Q (set_locks (locks w) w1) a) ->
  wp (with_lock L_WRITE m) w Q.
Proof.
  intros Hl Hm. apply wp_with_lock; [done|]. eapply wp_mono; [exact Hm|].
  intros w1 a [F HQ]. split; [apply (unlocked w w1 F) | done].
Qed.

(** What the transport took at once. *)
Lemma env_sends w e taken : send_inv w -> queued w = [] ->
  let w1 := set_env e (set_locks (L_WRITE :: locks w) w) in
  sent_ok w1 -> sent w1 = sent w ++ taken -> sends w (set_locks (locks w) w1) taken.
Proof.
  intros [Hf Hw Hl Ht Ha] Hq w1 Hok Hs.
  destruct (unlocked w w1 (env_frame e _)) as [_ F2]. split; [exact F2|]. split.
  - constructor; [split; [exact Hok | apply Hf] | by apply (can_write_frame w) | exact Hl | exact Ht
      | exact Ha].
  - change (sent (set_locks _ w1)) with (sent w1). change (queued (set_locks _ w1)) with (queued w).
    rewrite Hs, Hq, app_nil_r. done.
Qed.

(** [send] on an empty ring. *)
Lemma send_direct_spec w bytes ec_o flag : send_inv w -> queued w = [] -> write_shut w = false ->
  0 < zlen bytes -> zlen bytes <= snd_size (m_sbc (so w)) ->
  wp ('(sent, ec_o) ← socket_base.send bytes ec_o flag;
      if (sent <? zlen bytes) && (ec_o =? E_SOCKET_SEND_BLOCK) then
        sent ← socket.buffer_rest bytes sent; mret (sent, ec_o)
      else mret (sent, ec_o)) (set_locks (L_WRITE :: locks w) w)
    (fun w1 '(n, ec) => send_frame (set_locks (L_WRITE :: locks w) w) w1
      /\ sends w (set_locks (locks w) w1) (take (Z.to_nat n) bytes)
      /\ (n = zlen bytes \/ 0 <= n < zlen bytes /\ ec <> OK)).
Proof.
  intros [Hf Hw Hl Ht Ha] Hq Hs Hz Hc. rewrite wp_bind. set (w0 := set_locks _ w).
  pose proof (queued_bound w Hf) as HB.
  assert (HU : snd_size (m_sbc (so w)) < 4294967296).
  { destruct Hf as (_ & [HC _ _ _] & C). unfold bytes_ringbuffer.MAX_RING_BUFFER_SIZE in HC. lia. }
  eapply wp_mono; [apply (base_send_spec w0); [apply Hf | lia]|].
  intros w1 [n ec] (e & -> & Hok & Hn & Hsent & Hec & _). destruct (Z.ltb_spec n (zlen bytes)) as [Hlt|Hge];
    [destruct (Z.eqb_spec ec E_SOCKET_SEND_BLOCK) as [->|Hne]|]; cbn [andb].
  - rewrite wp_bind. set (w1 := set_env e w0) in *.
    eapply wp_mono; [apply (buffer_rest_spec w1 bytes n)|].
    { split; [exact Hok|]. apply Hf. }
    { destruct Hw. by constructor. }
    { exact Hq. }
    { lia. }
    { exact Hc. }
    { exact Hs. }
    intros w2 r (F & C2 & -> & S2 & Q2 & T2 & A2). rewrite wp_ret.
    assert (F0 : send_frame w0 w2) by (etrans; [apply env_frame | exact F]).
    split; [exact F0|]. destruct (unlocked w w2 F0) as [L2 F2].
    split; [|left; done]. split; [exact F2|]. split.
    { constructor; [exact C2 | by apply (can_write_frame w) | exact Hl | simpl; lia | done]. }
    change (sent (set_locks _ w2)) with (sent w2). change (queued (set_locks _ w2)) with (queued w2).
    rewrite S2, Q2, Hsent, Hq, (take_ge bytes (Z.to_nat (zlen bytes))) by (unfold zlen; lia).
    rewrite <- app_assoc. by rewrite take_drop.
  - rewrite wp_ret. split; [apply env_frame|].
    split; [by apply env_sends | right; split; [lia | intros E; apply Hec in E; lia]].
  - rewrite wp_ret. assert (n = zlen bytes) as -> by lia.
    split; [apply env_frame|]. split; [by apply env_sends | by left].
Qed.
(** [send] on a ring that holds bytes: all of them or none. *)
Lemma send_queued_spec w bytes : send_inv w -> queued w <> [] -> 0 < zlen bytes ->
  zlen bytes < bytes_ringbuffer.left_capacity (m_sb (so w)) ->
  exists q, bytes_ringbuffer.write (m_sb (so w)) bytes (zlen bytes) = Ok (q, zlen bytes)
    /\ let w1 := set_so (set_m_sb q (so w)) (set_locks (L_WRITE :: locks w) w) in
       send_frame (set_locks (L_WRITE :: locks w) w) w1 /\ sends w (set_locks (locks w) w1) bytes.
Proof.
  intros [Hf Hw Hl Ht Ha] Hq Hz Hc. destruct (ring_put w bytes Hf Hz ltac:(lia)) as (q & E & C & S & Q).
  exists q. split; [exact E|]. cbv zeta.
  assert (F0 : send_frame (set_locks (L_WRITE :: locks w) w)
    (set_so (set_m_sb q (so w)) (set_locks (L_WRITE :: locks w) w))).
  { exists (env w), q, (m_wflag (so w)), (m_async_wt (so w)), (ops w), (wcp_ops w), (tasks w).
    by destruct w as [[] ?]. }
  split; [exact F0|]. destruct (unlocked _ _ F0) as [_ F2]. split; [exact F2|]. split.
  - constructor; [exact C | by apply (can_write_frame w) | exact Hl | intros _; by apply Ht
      | intros _; by apply Ha].
  - change (sent (set_locks _ _)) with (sent (set_so (set_m_sb q (so w)) w)).
    change (queued (set_locks _ _)) with (queued (set_so (set_m_sb q (so w)) w)).
    by rewrite S, Q.
Qed.

Lemma send_spec w bytes ec_o flag : send_inv w ->
  0 < zlen bytes -> zlen bytes <= snd_size (m_sbc (so w)) ->
  wp (socket.send bytes ec_o flag) w (fun w' '(n, ec) =>
    sends w w' (take (Z.to_nat n) bytes) /\ (n = zlen bytes \/ 0 <= n < zlen bytes /\ ec <> OK)).
Proof.
  intros Hi Hz Hc. pose proof Hi as [Hf Hw Hl Ht Ha]. unfold socket.send. cbv zeta.
  rewrite wp_bind, wp_assert. split; [by apply Z.ltb_lt|]. rewrite wp_bind, wp_so, wp_bind, wp_assert.
  split; [apply Z.leb_le; rewrite bytes_ringbuffer.capacity_val by apply Hf; destruct Hf as (_ & _ & C); lia|].
  fold (write_shut w). destruct (write_shut w) eqn:Es.
  { rewrite wp_ret. split; [by apply sends_refl | right; split; [lia | discriminate]]. }
  rewrite (proj2 (Z.ltb_ge (snd_size _) _)) by done.
  apply wp_write_lock; [done|]. rewrite wp_bind, wp_so. change (so (set_locks _ w)) with (so w).
  pose proof (cw_nonblocking w Hw) as Hn. rewrite Hn. cbn [andb].
  rewrite queued_count by done. destruct (Z.ltb_spec 0 (zlen (queued w))) as [Hq|Hq].
  - assert (Hq' : queued w <> []) by (intros E; rewrite E in Hq; done).
    destruct (flag_on flag F_SEND_USE_SND_BUFFER && _) eqn:Eb.
    + apply andb_true_iff in Eb as [_ Hlt%Z.ltb_lt].
      destruct (send_queued_spec w bytes Hi Hq' Hz Hlt) as (q & E & F & S).
      simpl in E. wp_simpl. simpl. rewrite E, wp_lift. cbn beta iota. wp_simpl.
      split; [apply Z.eqb_refl|]. split; [exact F|]. split; [|by left].
      by rewrite take_ge by (unfold zlen; lia).
    + rewrite wp_ret. split; [done|]. split; [|right; split; [lia | discriminate]].
      replace (set_locks _ _) with w by (by destruct w). by apply sends_refl.
  - assert (Hq' : queued w = []).
    { destruct (queued w) as [|x l]; [done|]. unfold zlen in Hq. simpl in Hq. lia. }
    eapply wp_mono; [by apply send_direct_spec|]. intros w1 [n ec] (F & S & R). done.
Qed.

(** The bytes moved by [_flush] leave the invariant. *)
Lemma moved_sends w w1 k : send_inv w -> moved (set_locks (L_WRITE :: locks w) w) w1 k ->
  send_frame (set_locks (L_WRITE :: locks w) w) w1 /\ sends w (set_locks (locks w) w1) [].
Proof.
  intros [Hf Hw Hl Ht Ha] Hm. pose proof (moved_frame _ _ _ Hm) as F0.
  split; [exact F0|]. destruct (unlocked w w1 F0) as [_ F2]. split; [exact F2|].
  pose proof (moved_can_flush _ _ _ (locked_inv _ w Hf) Hm) as Hf1.
  destruct Hm as (e & q & -> & Ok1 & S & Q & _).
  assert (Hne : queued (set_env e (set_so (set_m_sb q (so w)) (set_locks (L_WRITE :: locks w) w))) <> []
    -> queued w <> []).
  { intros Hne E. apply Hne. etrans; [exact Q|].
    change (queued (set_locks _ w)) with (queued w). rewrite E. apply drop_nil. }
  split.
  - constructor; [exact Hf1 | by apply (can_write_frame w) | exact Hl | intros E; by apply Ht, Hne
      | intros E; by apply Ha, Hne].
  - rewrite app_nil_r. etrans; [exact (f_equal2 app S Q)|]. rewrite <- app_assoc. by rewrite take_drop.
Qed.

(** ** [flush] *)
Lemma usleep_moved n w : can_flush w -> 0 < n ->
  wp (sys (usleep n)) (env w) (fun e _ => moved w (set_env e w) 0
    /\ clock_of w + n <= clock (kern e) /\ horizon (kern e) <= horizon_of w + n).
Proof.
  intros (Hok & W & C) Hn. rewrite wp_sys.
  pose proof (out_usleep (stream_out := protocol_stream_out _) _ _ n Hok Hn) as [Hok' Ho].
  pose proof (usleep_law (kern (env w)) n 0 Hn) as (Ht & Hh & _).
  destruct (usleep n (kern (env w))) as [k' []]. simpl in *. split; [|by split].
  exists (set_kern k' (env w)), (m_sb (so w)). split; [by destruct w as [[] ?]|].
  split; [exact Hok'|]. split; [by rewrite app_nil_r|]. by split; [done|split].
Qed.

Definition flushed (w w' : ST) (l ec : Z) : Prop :=
  exists k, moved w w' k /\ 0 <= k <= zlen (queued w) /\ l = zlen (queued w') /\ (ec = OK <-> l = 0).

Lemma flushed_trans w w1 w2 k l ec : moved w w1 k -> 0 <= k <= zlen (queued w) ->
  flushed w1 w2 l ec -> flushed w w2 l ec.
Proof.
  intros Hm Hk (k2 & Hm2 & Hk2 & Hl & Hec). exists (k + k2).
  split; [apply (moved_trans w w1); done || lia|]. split; [|done].
  destruct Hm as (? & ? & _ & _ & _ & Eq & _). rewrite Eq, zlen_drop in Hk2 by lia. lia.
Qed.

(** Once the clock has passed [begin_time] the wait is over. *)
Lemma flush_wait_end fuel w block_time begin_time k : can_flush w -> can_write w ->
  block_time <> -1 -> 0 < begin_time < clock_of w -> horizon_of w < 2 ^ 63 ->
  wp (socket.flush_wait (S fuel) block_time begin_time k) w (fun w' '(l, ec) => flushed w w' l ec).
Proof.
  intros Hf Hw Hb Ht Hh. cbn [socket.flush_wait]. rewrite wp_bind.
  eapply wp_mono; [apply _flush_spec; [done | apply Hw | apply Hw]|].
  intros w1 [[fl l] ec] (n & Hm & Hn & _ & Hl & Hec & Hc & Hz).
  assert (HF : flushed w w1 l ec) by (exists n; done).
  destruct (_ || _); [exact HF|]. rewrite wp_bind, wp_in_env, wp_sys, curr_microseconds_law. cbn beta iota.
  replace (set_env (set_kern _ (env w1)) w1) with w1 by (by destruct w1 as [? [] ? ? ? ? ?]).
  pose proof (clock_range (kern (env w1))) as [_ HB]. unfold horizon_of in Hh.
  fold (clock_of w) (clock_of w1) in *.
  rewrite (proj2 (Z.eqb_neq begin_time 0)), (proj2 (Z.eqb_neq block_time (-1))) by lia.
  assert (u64 (begin_time - clock_of w1) = 2 ^ 64 + (begin_time - clock_of w1)) as ->.
  { unfold u64. symmetry. apply (Z.mod_unique_pos _ _ (-1)); lia. }
  rewrite (proj2 (Z.ltb_lt (u32 block_time) _)); [exact HF|].
  pose proof (u32_range block_time). range_lia.
Qed.

(** The wait is over after one sleep, whatever [block_time] says. *)
Lemma flush_wait_spec fuel w block_time : can_flush w -> can_write w -> block_time <> -1 ->
  horizon_of w + 50 < 2 ^ 63 ->
  wp (socket.flush_wait (S (S fuel)) block_time 0 0) w (fun w' '(l, ec) => flushed w w' l ec).
Proof.
  intros Hf Hw Hb Hh. remember (S fuel) as f eqn:Ef. cbn [socket.flush_wait]. rewrite wp_bind.
  eapply wp_mono; [apply _flush_spec; [done | apply Hw | apply Hw]|].
  intros w1 [[fl l] ec] (n & Hm & Hn & _ & Hl & Hec & Hc & Hz).
  destruct (_ || _); [by exists n|]. rewrite wp_bind, wp_in_env, wp_sys, curr_microseconds_law.
  cbn beta iota. change (0 =? 0) with true. cbn iota.
  replace (set_env (set_kern _ (env w1)) w1) with w1 by (by destruct w1 as [? [] ? ? ? ? ?]).
  fold (clock_of w1). rewrite Z.sub_diag. change (u64 0) with 0.
  rewrite (proj2 (Z.ltb_ge (u32 block_time) 0)) by apply u32_range. rewrite andb_false_r. cbn iota.
  rewrite wp_bind, wp_in_env. change (Z.min _ _) with 50.
  pose proof (moved_can_flush _ _ _ Hf Hm) as Hf1.
  pose proof (can_write_frame _ _ (moved_frame _ _ _ Hm) Hw) as Hw1.
  pose proof (clock_range (kern (env w1))) as [HB _]. fold (clock_of w1) in HB.
  eapply wp_mono; [apply (usleep_moved 50 w1); [done | lia]|]. intros e [] (Hm1 & Ht & Hh1).
  subst f. eapply wp_mono; [apply (flush_wait_end fuel (set_env e w1))|].
  { by eapply moved_can_flush. }
  { eapply can_write_frame; [by eapply moved_frame | done]. }
  { done. }
  { change (clock_of (set_env e w1)) with (clock (kern e)). lia. }
  { change (horizon_of (set_env e w1)) with (horizon (kern e)). unfold horizon_of in *. lia. }
  intros w2 [l2 ec2] HF. apply (flushed_trans w w1 w2 n); [done | lia|].
  apply (flushed_trans w1 (set_env e w1) w2 0); [done | | done].
  pose proof (zlen_nonneg (queued w1)). lia.
Qed.

(** The timer alone. *)
Lemma timer_idle v w : idle_frame w (set_so (set_m_async_wt v (so w)) w).
Proof.
  split; [|done]. exists (env w), (m_sb (so w)), (m_wflag (so w)), v, (ops w), (wcp_ops w), (tasks w).
  by destruct w as [[] ?].
Qed.

Lemma schedule_idle t w : idle_frame w (set_tasks (tasks w ++ [t]) w).
Proof.
  split; [|done]. exists (env w), (m_sb (so w)), (m_wflag (so w)), (m_async_wt (so w)), (ops w),
    (wcp_ops w), (tasks w ++ [t]). by destruct w as [[] ?].
Qed.

Lemma flush_spec fuel w left_ ec_o block_time : send_inv w -> block_time <> -1 ->
  horizon_of w + 50 < 2 ^ 63 ->
  wp (socket.flush (S (S fuel)) left_ ec_o block_time) w (fun w' '(l, ec) =>
    sends w w' [] /\ l = zlen (queued w') /\ (ec = OK <-> l = 0)).
Proof.
  intros Hi Hb Hh. pose proof Hi as [Hf Hw Hl Ht Ha]. unfold socket.flush. rewrite wp_bind, wp_so.
  rewrite (cw_nonblocking w Hw). cbn [negb]. apply wp_write_lock; [done|]. rewrite wp_bind.
  eapply wp_mono; [apply flush_wait_spec; [done | by destruct Hw | done | done]|].
  intros w1 [l ec] (k & Hm & Hk & -> & Hec). destruct (moved_sends w w1 k Hi Hm) as [F S].
  rewrite wp_bind, wp_when. destruct (Z.eqb_spec (zlen (queued w1)) 0) as [E|E]; [|by rewrite wp_ret].
  rewrite wp_so_upd, wp_ret. set (w2 := set_so _ w1). destruct (timer_idle 0 w1) as [FT _].
  fold w2 in FT. assert (F0 : send_frame (set_locks (L_WRITE :: locks w) w) w2) by (by etrans).
  split; [exact F0|]. split; [|split; [done | exact Hec]].
  destruct S as (FS & [Hf1 Hw1 Hl1 Ht1 Ha1] & EQ). split; [apply (unlocked w w2 F0)|].
  split; [|exact EQ]. assert (E' : queued w1 = []).
  { destruct (queued w1); [done|]. unfold zlen in E. simpl in E. lia. }
  constructor; [exact Hf1 | apply (can_write_frame w); [apply (unlocked w w2 F0) | done] | exact Hl1 | | ];
    intros HN; by destruct (HN E').
Qed.

(** ** [handle_async_write] *)

(** The ring and the transport after the method; a socket that blocks waits to
    be writable. *)
Definition written (w w' : ST) (ec : Z) : Prop :=
  send_frame w w' /\ can_flush w' /\ sent w' ++ queued w' = sent w ++ queued w
  /\ (ec = OK -> queued w' = [])
  /\ (queued w' <> [] -> m_async_wt (so w') <> 0)
  /\ (ec = E_SOCKET_SEND_BLOCK -> write_shut w' = false -> write_watched w' = true).

(** The socket waits again. *)
Lemma rearm_spec w w1 w2 : can_write w -> written w w1 E_SOCKET_SEND_IO_BLOCK_EXPIRED ->
  idle_frame w1 w2 -> m_async_wt (so w2) <> 0 ->
  wp (_begin_async_write 0 None fn_async_write fn_async_error;; mret E_SOCKET_SEND_BLOCK) w2
    (fun w' ec' => written w w' ec').
Proof.
  intros Hw (F1 & C1 & E1 & _ & _) I2 T2. destruct (idle_frame_spec w1 w2 I2) as (_ & S2 & Q2 & C2).
  assert (F2 : send_frame w w2) by (etrans; [exact F1 | apply I2]).
  rewrite wp_bind. eapply wp_mono; [apply begin_write_spec, (can_write_frame w); done|].
  intros w3 _ (I3 & W3 & T3 & A3). destruct (idle_frame_spec w2 w3 I3) as (_ & S3 & Q3 & C3).
  rewrite wp_ret. split; [etrans; [exact F2 | apply I3]|]. split; [auto|].
  split; [rewrite S3, Q3, S2, Q2; exact E1|]. split; [discriminate|]. rewrite T3, W3.
  split; [done|]. auto.
Qed.

(** Nothing is left. *)
Lemma write_done_spec w w1 k : can_write w -> written w w1 E_SOCKET_SEND_IO_BLOCK_EXPIRED ->
  queued w1 = [] ->
  wp (when (negb (k =? 0))
        (_end_async_write;; so_upd (set_m_async_wt 0);; schedule (TTrigger (info_event E_WR_UNBLOCK 0)));;
      mret OK) w1 (fun w' ec' => written w w' ec').
Proof.
  intros Hw (F1 & C1 & E1 & _ & T1 & _) HQ. rewrite wp_bind, wp_when.
  destruct (k =? 0); cbn [negb]; [rewrite wp_ret; by split_and!|]. rewrite wp_bind.
  eapply wp_mono; [apply end_write_spec, (can_write_frame w); done|]. intros w2 _ (I2 & _ & _).
  destruct (idle_frame_spec w1 w2 I2) as (_ & S2 & Q2 & C2). wp_simpl.
  set (w3 := set_tasks _ _). assert (Q3 : queued w3 = []) by (etrans; [exact Q2 | auto]).
  split.
  { etrans; [exact F1|]. etrans; [apply I2|]. etrans; [apply (timer_idle 0 w2)|].
    apply schedule_idle. }
  split; [by apply C2 in C1|]. split; [|split; [done|split; [done|discriminate]]].
  rewrite <- E1. exact (f_equal2 app S2 Q2).
Qed.

(** Something is left. *)
Lemma write_blocked_spec w w1 k ec : can_write w -> written w w1 E_SOCKET_SEND_IO_BLOCK_EXPIRED ->
  queued w1 <> [] -> ec <> OK ->
  wp (s ← so_get id;
      assertM (negb (m_async_wt s =? 0));;
      if ec =? E_SOCKET_SEND_BLOCK then
        now ← in_env (sys curr_milliseconds);
        if (k =? 0) && (m_async_wt s +₆₄ m_delay_wp s <? now) then mret E_SOCKET_SEND_IO_BLOCK_EXPIRED
        else
          when (0 <? k) (so_upd (set_m_async_wt now));;
          _begin_async_write 0 None fn_async_write fn_async_error;;
          mret ec
      else mret ec) w1 (fun w' ec' => written w w' ec').
Proof.
  intros Hw (F1 & C1 & E1 & _ & T1 & _) HN Hec. rewrite wp_bind, wp_so, wp_bind, wp_assert.
  split; [apply negb_true_iff, Z.eqb_neq; auto|].
  destruct (Z.eqb_spec ec E_SOCKET_SEND_BLOCK) as [->|N].
  2: { rewrite wp_ret. split_and!; try done; tauto. }
  rewrite wp_bind, wp_in_env. eapply wp_mono; [apply milliseconds_spec, C1|].
  intros e now (Ok2 & S2 & Hnow). set (w2 := set_env e w1).
  assert (HW2 : written w w2 E_SOCKET_SEND_IO_BLOCK_EXPIRED).
  { split; [etrans; [exact F1 | apply env_frame]|]. split; [split; [exact Ok2 | apply C1]|].
    split; [rewrite <- E1; exact (f_equal2 app S2 eq_refl)|]. done. }
  destruct (_ && _); [rewrite wp_ret; exact HW2|]. rewrite wp_bind, wp_when.
  destruct (0 <? k); [rewrite wp_so_upd; apply (rearm_spec w w2); [done | done | apply timer_idle | simpl; lia]|].
  apply (rearm_spec w w2); [done | done | split; done | simpl; auto].
Qed.

Lemma handle_async_write_spec w : send_inv w ->
  wp socket.handle_async_write w (fun w' ec =>
    send_frame w w' /\ sent w' ++ queued w' = sent w ++ queued w /\ (ec = OK -> queued w' = [])
    /\ (ec = OK \/ ec = E_SOCKET_SEND_BLOCK -> send_inv w')).
Proof.
  intros [Hf Hw Hl Ht Ha]. unfold socket.handle_async_write.
  rewrite wp_bind, wp_so, wp_bind, wp_assert. split; [apply Hw|].
  apply wp_write_lock; [done|]. set (w0 := set_locks _ w). rewrite wp_bind, wp_so, wp_bind.
  assert (HI : wp (when (negb (flag_on (m_wflag (so w0)) WATCH_OPTION_INFINITE)) _end_async_write) w0
    (fun w1 _ => idle_frame w0 w1 /\ m_async_wt (so w1) = m_async_wt (so w0))).
  { rewrite wp_when. destruct (negb _); [|by split].
    eapply wp_mono; [apply (end_write_spec w0), Hw|]. by intros w1 _ (I & _ & T1). }
  eapply wp_mono; [exact HI|]. cbn beta. intros w1 _ (I1 & T1).
  destruct (idle_frame_spec w0 w1 I1) as (_ & S1 & Q1 & C1). specialize (C1 Hf).
  assert (Hw1 : can_write w1) by (apply (can_write_frame w0); [apply I1 | by destruct Hw]).
  rewrite wp_bind. cbn [socket.write_rounds]. rewrite wp_bind.
  eapply wp_mono; [apply _flush_spec; [done | apply Hw1 | apply Hw1]|].
  intros w2 [[fl l] ec] (k & Hm & Hk & -> & -> & Hec).
  pose proof (queued_bound w1 C1). rewrite (u32_small (0 + k)), Z.add_0_l by range_lia.
  assert ((zlen (queued w2) =? 0) || negb (ec =? OK) = true) as ->.
  { destruct (Z.eqb_spec (zlen (queued w2)) 0), (Z.eqb_spec ec OK); simpl; tauto. }
  rewrite wp_ret. cbn beta iota. pose proof (moved_frame _ _ _ Hm) as F2.
  assert (HW : written w0 w2 E_SOCKET_SEND_IO_BLOCK_EXPIRED).
  { destruct Hm as (e & q & -> & K2 & S2 & Q2 & Hm). split; [etrans; [apply I1 | exact F2]|].
    split; [by apply (moved_can_flush w1 _ k C1); exists e, q|].
    split; [rewrite S2, Q2, S1, Q1, <- app_assoc; by rewrite take_drop|]. split; [discriminate|].
    split; [|discriminate]. intros HN. simpl. rewrite T1. apply Ht. intros E. apply HN.
    etrans; [exact Q2|]. rewrite Q1. change (queued w0) with (queued w). rewrite E. apply drop_nil. }
  eapply wp_mono with (P := fun w' ec' => written w0 w' ec').
  - destruct (Z.eqb_spec (zlen (queued w2)) 0) as [E|E].
    + rewrite wp_bind, wp_assert. split; [apply Z.eqb_eq; tauto|]. assert (ec = OK) as -> by tauto.
      apply (write_done_spec w0); [by destruct Hw | done |].
      destruct (queued w2); [done|]. unfold zlen in E. simpl in E. lia.
    + apply (write_blocked_spec w0); [by destruct Hw | done | | tauto]. intros E'. rewrite E' in E. done.
  - intros w3 ec3 (F3 & C3 & E3 & O3 & T3 & A3). split; [exact F3|].
    destruct (unlocked w w3 F3) as [_ F4]. split; [exact F4|]. split; [exact E3|]. split; [exact O3|].
    intros Hor. constructor; [exact C3 | by apply (can_write_frame w) | exact Hl | exact T3 |].
    intros HN. destruct Hor as [O|B]; [by destruct HN; auto | by apply A3].
Qed.

(** ** Sessions *)

(** A run of the writers of a socket and of the rest of the program, with the
    bytes accepted.  A call of [handle_async_write] that answers another code
    closes the socket. *)
Inductive send_run : ST -> list Z -> ST -> Prop :=
| run_done w : send_run w [] w
| run_send w w1 w2 bytes ec_o flag n ec bs :
    0 < zlen bytes <= snd_size (m_sbc (so w)) ->
    socket.send bytes ec_o flag w = Ok (w1, (n, ec)) ->
    send_run w1 bs w2 -> send_run w (take (Z.to_nat n) bytes ++ bs) w2
| run_flush w w1 w2 fuel left_ ec_o block_time r bs :
    block_time <> -1 -> horizon_of w + 50 < 2 ^ 63 ->
    socket.flush (S (S fuel)) left_ ec_o block_time w = Ok (w1, r) ->
    send_run w1 bs w2 -> send_run w bs w2
| run_write w w1 w2 ec bs :
    socket.handle_async_write w = Ok (w1, ec) -> ec = OK \/ ec = E_SOCKET_SEND_BLOCK ->
    send_run w1 bs w2 -> send_run w bs w2
| run_env w w2 e bs :
    sent_ok (set_env e w) -> sent (set_env e w) = sent w ->
    send_run (set_env e w) bs w2 -> send_run w bs w2.

Lemma wp_ok {W A} (m : M W A) w w' a Q : wp m w Q -> m w = Ok (w', a) -> Q w' a.
Proof. unfold wp. intros HQ E. by rewrite E in HQ. Qed.

Lemma send_run_spec w bs w' : send_run w bs w' -> send_inv w ->
  send_inv w' /\ send_frame w w' /\ sent w' ++ queued w' = sent w ++ queued w ++ bs.
Proof.
  induction 1 as [w|w w1 w2 bytes ec_o flag n ec bs Hz E R IH|w w1 w2 fuel l ec_o bt r bs Hb Hh E R IH
    |w w1 w2 ec bs E He R IH|w w2 e bs Hk Hs R IH]; intros Hi.
  - split; [done|]. split; [done|]. by rewrite app_nil_r.
  - destruct (wp_ok _ _ _ _ _ (send_spec w bytes ec_o flag Hi ltac:(lia) ltac:(lia)) E)
      as [(F1 & I1 & E1) _].
    destruct (IH I1) as (I2 & F2 & E2). split; [done|]. split; [by etrans|].
    by rewrite E2, app_assoc, E1, <- !app_assoc.
  - pose proof (wp_ok _ _ _ _ _ (flush_spec fuel w l ec_o bt Hi Hb Hh) E) as HF. destruct r as [l' ec].
    destruct HF as [(F1 & I1 & E1) _]. rewrite app_nil_r in E1.
    destruct (IH I1) as (I2 & F2 & E2). split; [done|]. split; [by etrans|].
    by rewrite E2, app_assoc, E1, <- app_assoc.
  - destruct (wp_ok _ _ _ _ _ (handle_async_write_spec w Hi) E) as (F1 & E1 & _ & I1).
    destruct (IH (I1 He)) as (I2 & F2 & E2). split; [done|]. split; [by etrans|].
    by rewrite E2, app_assoc, E1, <- app_assoc.
  - destruct IH as (I2 & F2 & E2).
    { destruct Hi as [Hf Hw Hl Ht Ha]. constructor; [split; [done | apply Hf] | by destruct Hw | done | done | done]. }
    split; [done|]. split; [etrans; [apply env_frame | exact F2]|]. by rewrite E2, Hs.
Qed.

(** C1: for any protocol table that keeps the bytes handed to it in order, the ring of a
    socket and its transport are a FIFO: over any run of [send], [flush] and
    [handle_async_write], whatever the transport takes at each call, the bytes handed
    to the transport followed by those still in the ring are the bytes accepted, once and
    in order, and a ring that holds bytes is watched for writing. *)
Theorem socket_session_fifo w bs w' : send_run w bs w' -> send_inv w ->
  sent w' ++ queued w' = sent w ++ queued w ++ bs
  /\ (queued w' <> [] -> write_shut w' = false -> write_watched w' = true)
  /\ (L_WRITE ∉ locks w') /\ zlen (queued w') <= snd_size (m_sbc (so w)).
Proof.
  intros R Hi. destruct (send_run_spec w bs w' R Hi) as ([Hf _ Hl _ Ha] & F & E).
  split; [done|]. split; [done|]. split; [done|].
  assert (m_sbc (so w') = m_sbc (so w)) as <- by (by destruct F as (? & ? & ? & ? & ? & ? & ? & ->)).
  pose proof (queued_count w' Hf) as HC. destruct Hf as (_ & W & C).
  pose proof (bytes_ringbuffer.count_range _ W). lia.
Qed.

(** C7: no method of the sending side fails an assertion, loops for ever or leaves a lock held,
    on any socket of a run: [send] of a message that fits answers the bytes it took, all
    of them when the code is [OK]; [handle_async_write] answers [OK] only when nothing is left. *)
Theorem socket_writers_total w bytes ec_o flag : send_inv w ->
  0 < zlen bytes <= snd_size (m_sbc (so w)) ->
  (exists w' n ec, socket.send bytes ec_o flag w = Ok (w', (n, ec)) /\ locks w' = locks w
     /\ (n = zlen bytes \/ 0 <= n < zlen bytes /\ ec <> OK))
  /\ (exists w' ec, socket.handle_async_write w = Ok (w', ec) /\ locks w' = locks w
     /\ (ec = OK -> queued w' = [])).
Proof.
  intros Hi Hz. assert (HL : forall w1, send_frame w w1 -> locks w1 = locks w).
  { by intros w1 (? & ? & ? & ? & ? & ? & ? & ->). }
  split.
  - destruct (proj1 (wp_run _ _ _) (send_spec w bytes ec_o flag Hi ltac:(lia) ltac:(lia)))
      as (w1 & [n ec] & E & (F & _) & R). exists w1, n, ec. auto.
  - destruct (proj1 (wp_run _ _ _) (handle_async_write_spec w Hi)) as (w1 & ec & E & F & _ & O & _).
    exists w1, ec. auto.
Qed.

(** Whatever time it is given to block, short of for ever, [flush] gives up after its first
    sleep of 50 microseconds: two rounds of the loop are enough for every transport and
    every clock.  It leaves the ring empty exactly when it answers [OK]. *)
Theorem flush_ends_in_two_rounds fuel w left_ ec_o block_time : (2 <= fuel)%nat -> send_inv w ->
  block_time <> -1 -> horizon_of w + 50 < 2 ^ 63 ->
  exists w' l ec, socket.flush fuel left_ ec_o block_time w = Ok (w', (l, ec))
    /\ send_inv w' /\ sent w' ++ queued w' = sent w ++ queued w
    /\ l = zlen (queued w') /\ (ec = OK <-> queued w' = []).
Proof.
  intros Hfuel Hi Hb Hh. destruct fuel as [|[|fuel]]; [lia | lia |].
  destruct (proj1 (wp_run _ _ _) (flush_spec fuel w left_ ec_o block_time Hi Hb Hh))
    as (w1 & [l ec] & E & (F & I & EQ) & -> & O).
  exists w1, (zlen (queued w1)), ec. rewrite app_nil_r in EQ. split_and!; try done.
  rewrite O. destruct (queued w1); [done|]. unfold zlen. simpl. split; [lia | done].
Qed.
End send.

(** ** Witnesses *)

(** The transport takes three bytes, then nothing, then the rest. *)
Definition sim_writer : st hlen_packet.t (senv sim) :=
  sim_st (sim_socket hlen_packet.make 0 0) (mk_sim ∅ ∅ [3; 0; 0] 9).

Lemma sim_writer_inv : send_inv sim_writer.
Proof.
  constructor; [|by constructor | by apply not_elem_of_nil | done | done].
  split; [exact I|]. split; [apply (sim_ring_wf []); simpl; lia | reflexivity].
Qed.

Lemma socket_writers_total_witness :
  exists w' n ec, socket.send [1; 2; 3; 4; 5] OK 0 sim_writer = Ok (w', (n, ec)) /\ locks w' = [].
Proof.
  destruct (socket_writers_total sim_writer [1; 2; 3; 4; 5] OK 0 sim_writer_inv ltac:(vm_compute; intuition discriminate))
    as [(w' & n & ec & E & L & _) _]. by exists w', n, ec.
Defined.

Lemma flush_ends_in_two_rounds_witness :
  exists w' l ec, socket.flush 2 0 0 5000 sim_writer = Ok (w', (l, ec)) /\ send_inv w'.
Proof.
  destruct (flush_ends_in_two_rounds 2 sim_writer 0 0 5000 ltac:(lia) sim_writer_inv ltac:(lia)
    ltac:(vm_compute; reflexivity)) as (w' & l & ec & E & I & _). by exists w', l, ec.
Defined.

(** Five bytes: three at once, two queued; the socket writes until they are gone. *)
Lemma socket_session_fifo_witness :
  exists w', send_run sim_writer [1; 2; 3; 4; 5] w' /\ queued w' = []
    /\ sent w' ++ queued w' = [1; 2; 3; 4; 5].
Proof.
  assert (exists w', send_run sim_writer [1; 2; 3; 4; 5] w' /\ queued w' = []) as (w' & R & Q).
  { eexists. split.
    - eapply (run_send sim_writer _ _ [1; 2; 3; 4; 5] OK 0 5 E_SOCKET_SEND_BLOCK []);
        [vm_compute; intuition discriminate | vm_compute; reflexivity |].
      eapply (run_write _ _ _ E_SOCKET_SEND_BLOCK); [vm_compute; reflexivity | by right |].
      eapply (run_write _ _ _ OK); [vm_compute; reflexivity | by left | apply run_done].
    - vm_compute. reflexivity. }
  exists w'. split; [exact R|]. split; [exact Q|].
  exact (proj1 (socket_session_fifo _ _ _ R sim_writer_inv)).
Defined.
