(* ===== verification/SocketRecvProofs.v ===== *)
(** * SocketRecvProofs: the receiving side of a socket

    [handle_async_read] on a socket whose protocol is [hlen_packet]: whatever
    chunks the transport hands out, the messages framed in the byte stream are
    given to the listeners, each once and in order, no complete message is left
    behind, the loop ends and no assertion fails.

    [stream_of] is the byte stream a reader still has to decode: a header already
    read, the bytes of the ring, those the transport will hand out. *)

From S2P Require Import Prelude Effects Bytes Ring Packet Tlp Address Wcp SocketData SockFns SocketBase Socket SocketLaws SocketTlp SocketSim.

(** ** One run of the decoder *)
Section decoder.
Context `{memory}.
Import hlen_packet frames.
Local Abbreviation ring := bytes_ringbuffer.t.

(** The buffer only loses bytes at its front, and a decoder that waits for a
    length has less than a length before it. *)
Lemma decode_loop_shape fuel : forall d (q : ring) acc size d' q' a ec, wf_dec d q ->
  decode_loop fuel d q acc size = Ok (d', q', a, ec) ->
  zlen (bq_contents q') <= zlen (bq_contents q)
  /\ (ec <> E_TLP_SOCKET_BROKEN -> m_parse_state d' = S_READ_LEN -> zlen (bq_contents q') < 4).
Proof.
  induction fuel as [|fuel IH]; intros d q acc size d' q' a ec W E; [done|].
  cbn [decode_loop] in E. destruct (m_parse_state d) eqn:Hs.
  - pose proof (try_read_T_spec 4 q (dec_queue _ _ W) (dec_bytes _ _ W) ltac:(lia)) as HT.
    destruct (Z.ltb_spec (zlen (bq_contents q)) (Z.of_nat 4)) as [Hlt|Hge].
    + rewrite HT in E. cbn in E. injection E as <- <- <- <-. split; [done|]. intros _ _. lia.
    + destruct HT as (q1 & ER & W1 & C1 & D1). rewrite ER in E. cbn [mbind res_bind] in E. res_inv.
      rename Hk into E. assert (HL : zlen (bq_contents q1) <= zlen (bq_contents q)).
      { rewrite D1. unfold zlen. rewrite length_drop. lia. }
      set (v := bytes_helper.be_val (take 4 (bq_contents q))) in *.
      destruct (Z.ltb_spec (bq_capacity q1) v) as [Hc|Hc].
      * injection E as <- <- <- <-. split; [done|]. done.
      * apply IH in E as [E1 E2]; [split; [lia | done]|].
        apply Z.ltb_lt in Hr. split; [done | | intros _; cbn; split; [|done]].
        { rewrite D1. apply Forall_drop, W. }
        pose proof (bq_bound q1 W1). change (is_u32 v). range_lia.
  - res_inv. rename Hk into E. destruct (dec_size _ _ W Hs) as [Hu H0']. rewrite (proj2 (Z.eqb_neq _ 0)) in E by lia.
    destruct (bq_count q <? m_size d); [injection E as <- <- <- <-; split; [done|congruence]|].
    destruct (zlen acc =? size); [injection E as <- <- <- <-; split; [done|congruence]|].
    unfold take_packet in E. res_inv.
    destruct (bq_read_spec q (m_size d) true (dec_queue _ _ W) Hu) as (q2 & ER & W2 & C2 & D2).
    rewrite ER in Hr0. injection Hr0 as <-. destruct r0 as [q3 p]. res_inv. subst.
    assert (HL : zlen (bq_contents q3) <= zlen (bq_contents q)).
    { rewrite D2. unfold zlen. rewrite length_drop. lia. }
    match goal with E : decode_loop _ _ _ _ _ = _ |- _ => apply IH in E as [E1 E2] end;
      [split; [lia | done]|].
    split; [done | rewrite D2; apply Forall_drop, W | done].
Qed.

Definition frames_of (msgs : list (list Z)) : list Z := concat (map frame msgs).

Lemma frames_split k msgs : frames_of msgs = frames_of (take k msgs) ++ frames_of (drop k msgs).
Proof. unfold frames_of. by rewrite <- concat_app, <- map_app, take_drop. Qed.

(** The bytes a reader has are whole frames and the beginning of another. *)
Lemma stream_prefix cap msgs tail c rest : 0 < cap -> Forall (ok_msg cap) msgs -> incomplete cap tail ->
  c ++ rest = frames_of msgs ++ tail ->
  exists k tail1, c = frames_of (take k msgs) ++ tail1 /\ incomplete cap tail1 /\ (k <= length msgs)%nat.
Proof.
  intros Hc Hm (m & more & Hok & Em & Hne) E.
  destruct (prefix_split cap Hc (msgs ++ [m]) c (rest ++ more)) as (k & tail1 & E1 & Hi & E2 & Hk & _).
  { apply Forall_app. split; [done | by constructor]. }
  { rewrite app_assoc, E, <- app_assoc, <- Em. unfold frames_of. rewrite map_app, concat_app. simpl.
    by rewrite app_nil_r. }
  rewrite length_app in Hk. simpl in Hk.
  destruct (Nat.le_gt_cases k (length msgs)) as [Hle|Hgt].
  - exists k, tail1. rewrite take_app_le in E1 by done. done.
  - exfalso. rewrite take_ge in E1 by (rewrite length_app; simpl; lia).
    apply (f_equal length) in E. rewrite E1 in E. rewrite map_app, concat_app in E.
    cbn [map concat] in E. rewrite app_nil_r, !length_app in E. fold (frames_of msgs) in E.
    rewrite Em, length_app in E. destruct more; [done|]. simpl in E. lia.
Qed.

Lemma zlen_pending d (q : ring) : zlen (bq_contents q) <= zlen (pending d q) <= zlen (bq_contents q) + 4.
Proof.
  unfold pending. destruct (m_parse_state d); [lia|]. rewrite zlen_app. unfold zlen at 2 4.
  rewrite header_len. lia.
Qed.

Lemma incomplete_size cap v c : is_u32 v -> incomplete cap (bytes_helper.write_u32 v ++ c) -> zlen c < v <= cap.
Proof.
  intros Hv Hi. split; [by apply (incomplete_body cap)|].
  destruct Hi as (m & rest & Hm & E & _). unfold frame in E. rewrite <- app_assoc in E.
  apply header_inj in E as [<- _]; [|by apply (ok_msg_u32 cap) | done]. destruct Hm. lia.
Qed.

(** A full ring always loses bytes. *)
Lemma full_ring_moves cap d (q : ring) d' q' : wf_dec d q -> 4 <= cap -> zlen (bq_contents q) = cap ->
  incomplete cap (pending d q) -> pending d' q' = pending d q -> wf_dec d' q' ->
  (m_parse_state d' = S_READ_LEN -> zlen (bq_contents q') < 4) ->
  zlen (bq_contents q') < zlen (bq_contents q).
Proof.
  intros W Hc Hf Hi P W' HL. destruct (m_parse_state d') eqn:Sd'; [specialize (HL eq_refl); lia|].
  unfold pending in P, Hi. rewrite Sd' in P. destruct (m_parse_state d) eqn:Sd.
  - rewrite <- P, zlen_app. unfold zlen at 2. rewrite header_len. lia.
  - apply incomplete_size in Hi; [|by apply (dec_size _ _ W)]. lia.
Qed.

(** [decode_packets] on a ring: the messages it takes, and what it leaves. *)
Lemma decode_step cap msgs tail d (q : ring) input : Forall (ok_msg cap) msgs -> incomplete cap tail ->
  wf_dec d q -> bq_capacity q = cap -> 4 <= cap -> pending d q ++ input = frames_of msgs ++ tail ->
  exists k d' q' packs ec, decode_packets d q 5 = Ok (d', q', packs, ec)
    /\ Forall2 (fun p m => packet.holds p m packet.INIT_LEFT_CAPACITY) packs (take k msgs)
    /\ (k <= length msgs)%nat /\ wf_dec d' q' /\ bq_capacity q' = cap
    /\ pending d' q' ++ input = frames_of (drop k msgs) ++ tail
    /\ (ec = OK /\ incomplete cap (pending d' q')
        \/ ec = E_TLP_TRY_AGAIN /\ k = 5%nat /\ 0 < zlen (bq_contents q'))
    /\ zlen (bq_contents q') <= zlen (bq_contents q)
    /\ ((0 < k)%nat \/ zlen (bq_contents q) = cap -> zlen (bq_contents q') < zlen (bq_contents q)).
Proof.
  intros Hm Ht W C Hc E. destruct (stream_prefix cap msgs tail _ input ltac:(lia) Hm Ht E)
    as (j & tail1 & P & Hi & Hj).
  assert (Hmj : Forall (ok_msg cap) (take j msgs)) by (by apply Forall_take).
  destruct (decode_spec cap (take j msgs) tail1 d q 5 Hmj Hi W C P ltac:(lia))
    as (d' & q' & packs & ED & HF & W' & C' & P'). simpl app in ED. change (Z.to_nat 5) with 5%nat in *.
  fold (frames_of (drop 5 (take j msgs))) in P'.
  set (k := Nat.min 5 j). exists k, d', q', packs. eexists. split; [exact ED|].
  rewrite take_take in HF. split; [exact HF|]. split; [lia|]. split; [done|]. split; [done|].
  pose proof (frames_split 5 (take j msgs)) as FS. rewrite take_take in FS. fold k in FS.
  assert (PQ : pending d q = frames_of (take k msgs) ++ pending d' q').
  { rewrite P, P', FS. by rewrite <- app_assoc. }
  split.
  { apply (app_inv_head (frames_of (take k msgs))). rewrite !app_assoc, <- PQ, <- frames_split. exact E. }
  destruct (decode_loop_shape _ _ _ _ _ _ _ _ _ W ED) as [HL HS].
  pose proof (zlen_pending d q) as Z1. pose proof (zlen_pending d' q') as Z2.
  assert (Hj5 : (5 < length (take j msgs))%nat <-> (5 < j)%nat) by (rewrite length_take; lia).
  assert (HR : forall n, (0 < n <= length msgs)%nat -> 5 <= zlen (frames_of (take n msgs))).
  { intros n Hn. assert (HN : take n msgs <> []) by (destruct msgs, n; simpl in *; [lia..|done]).
    pose proof (frames_room cap (take n msgs) ltac:(by apply Forall_take) HN) as FR.
    rewrite length_take in FR. unfold frames_of, zlen. lia. }
  split; [|split; [exact HL|]].
  - destruct (Nat.ltb_spec 5 (length (take j msgs))) as [H5|H5]; [right | left].
    + split; [done|]. split; [lia|]. rewrite P', zlen_app in Z2. pose proof (zlen_nonneg tail1).
      pose proof (frames_room cap (drop 5 (take j msgs)) ltac:(by apply Forall_drop)) as FR.
      rewrite length_drop in FR. unfold frames_of, zlen in *.
      assert (drop 5 (take j msgs) <> []) as HN; [|specialize (FR HN); lia].
      intros E0. apply (f_equal length) in E0. rewrite length_drop in E0. simpl in E0. lia.
    + split; [done|]. rewrite P', drop_ge by lia. exact Hi.
  - intros Hor. destruct (Nat.eq_0_gt_0_cases k) as [K0|K0].
    + destruct Hor as [?|Hfull]; [lia|]. rewrite K0 in PQ. assert (Pe : pending d' q' = pending d q) by (by rewrite PQ).
      apply (full_ring_moves cap d q d' q'); [done | done | done | | done | done |].
      * rewrite P. assert (j = 0)%nat as -> by lia. exact Hi.
      * apply HS. destruct (Nat.ltb_spec 5 (length (take j msgs))); [lia | discriminate].
    + pose proof (HR k ltac:(lia)) as H5. rewrite PQ, zlen_app in Z1. lia.
Qed.
End decoder.

(** ** One round of the receiver *)
Section recv.
Context `{memory} `{WcpData.wcp_env} `{wcp_sockets} {K} `{system_laws K}.
Import socket_base frames.
Local Abbreviation ST := (st hlen_packet.t (senv K)).

#[local] Instance protocol_stream_in p : stream_in (_socket_fn_init (K:=K) p).
Proof. unfold _socket_fn_init. destruct (decide _); apply _. Defined.

Definition recv_ok (w : ST) : Prop :=
  in_ok (stream_in := protocol_stream_in (m_protocol (so w))) (env w) (m_fd (so w)).
(** The bytes the transport will hand out. *)
Definition input (w : ST) : list Z :=
  inq (stream_in := protocol_stream_in (m_protocol (so w))) (env w) (m_fd (so w)).
Definition dec (w : ST) : hlen_packet.t := default hlen_packet.make (m_tlp (so w)).
Definition buffered (w : ST) : list Z := bq_contents (m_rb (so w)).
Definition cap (w : ST) : Z := rcv_size (m_sbc (so w)).
Definition undecoded (w : ST) : list Z := pending (dec w) (m_rb (so w)).
Definition stream_of (w : ST) : list Z := undecoded w ++ input w.
(** No complete message waits in the ring. *)
Definition settled (w : ST) : Prop := incomplete (cap w) (undecoded w).

Record can_read (w : ST) : Prop := {
  cr_env : recv_ok w;
  cr_tlp : m_tlp (so w) = Some (dec w);
  cr_dec : wf_dec (dec w) (m_rb (so w));
  cr_cap : bq_capacity (m_rb (so w)) = cap w;
  cr_room : 4 <= cap w;
  cr_bytes : Forall byte_ok (input w);
  cr_data : is_data_socket (so w) = true;
  cr_nonblocking : is_nonblocking (so w) = true
}.

(** What a round may change. *)
Definition recv_frame (w w' : ST) : Prop :=
  exists e rb d sq, w' = set_env e (set_so (set_m_rps_q_standby sq (set_m_rb rb (set_m_tlp d (so w)))) w).

#[local] Instance recv_frame_refl : Reflexive recv_frame.
Proof.
  intros w. exists (env w), (m_rb (so w)), (m_tlp (so w)), (m_rps_q_standby (so w)).
  by destruct w as [[] ?].
Qed.
#[local] Instance recv_frame_trans : Transitive recv_frame.
Proof.
  intros w w1 w2 (e & q & d & sq & ->) (e' & q' & d' & sq' & ->). by exists e', q', d', sq'.
Qed.

(** Twice the bytes to come, and the bytes at hand. *)
Definition weight (w : ST) : Z := 2 * zlen (input w) + zlen (buffered w).

Lemma buffered_count w : can_read w -> bytes_ringbuffer.count (m_rb (so w)) = zlen (buffered w).
Proof. intros Hw. symmetry. apply bytes_ringbuffer.zlen_contents, Hw. Qed.

Lemma cap_bound w : can_read w -> zlen (buffered w) <= cap w < 4294967296.
Proof.
  intros Hw. rewrite <- (cr_cap w Hw). split; [apply bq_fits, Hw|]. apply bq_bound, Hw.
Qed.

(** A code that ends the loop of the reader. *)
Definition final (ec : Z) : Prop :=
  ec <> E_TLP_TRY_AGAIN /\ ec <> E_SOCKET_PUMP_TRY_AGAIN /\ ec <> E_SOCKET_RECV_BUFFER_FULL.
Definition broken (ec : Z) : Prop :=
  final ec /\ ec <> OK /\ ec <> E_SOCKET_RECV_BLOCK.

Lemma base_recv_spec w size ec_o flag : recv_ok w -> 0 < size < 4294967296 ->
  wp (socket_base.recv size ec_o flag) w (fun w' '(bytes, ec) =>
    exists e', w' = set_env e' w /\ recv_ok w' /\ input w = bytes ++ input w' /\ zlen bytes <= size
      /\ (ec = OK <-> 0 < zlen bytes)
      /\ (ec = OK \/ ec = E_SOCKET_RECV_BLOCK \/ broken ec)).
Proof.
  intros Hok Hz. unfold socket_base.recv. wp_simpl. split; [apply Z.ltb_lt; lia|].
  destruct (flag_on (m_rflag _) SHUTDOWN_RD).
  - rewrite wp_ret. exists (env w). destruct w. split; [done|]. split; [done|]. split; [done|].
    change (zlen []) with 0. split; [lia|]. split; [|by right; right]. split; [done | lia].
  - rewrite wp_in_env. unfold fns_of.
    eapply wp_mono; [by apply (fn_recv_law (stream_in := protocol_stream_in _))|].
    intros e' [bytes ec] (Hok' & Hi & Hs & Hec & Hp). exists e'.
    split; [done|]. split; [exact Hok'|]. split; [exact Hi|]. split; [exact Hs|]. split; [exact Hec|].
    destruct Hp as [->|[->|[->|Hp]]]; [by left | by right; right | by right; left |].
    destruct (decide (ec = E_SOCKET_RECV_BLOCK)) as [->|N]; [by right; left|]. right. right.
    unfold broken, final, E_TLP_TRY_AGAIN, E_SOCKET_PUMP_TRY_AGAIN, E_SOCKET_RECV_BUFFER_FULL, OK. lia.
Qed.

(** The bytes written behind those of the ring. *)
Lemma ring_fill w bytes : can_read w -> 0 < zlen bytes <= cap w - zlen (buffered w) ->
  Forall byte_ok bytes ->
  exists q, bytes_ringbuffer.write (m_rb (so w)) bytes (zlen bytes) = Ok (q, zlen bytes)
    /\ wf_dec (dec w) q /\ bq_capacity q = cap w /\ bq_contents q = buffered w ++ bytes.
Proof.
  intros Hw Hz Hb. pose proof (cap_bound w Hw). pose proof (zlen_nonneg (buffered w)).
  destruct (bq_write_spec (m_rb (so w)) bytes (zlen bytes) (dec_queue _ _ (cr_dec w Hw)) ltac:(lia)
    ltac:(range_lia) ltac:(lia)) as (q & E & W & C & D).
  rewrite (cr_cap w Hw) in *. fold (buffered w) in *. rewrite Z.min_l in E, D by lia.
  rewrite take_ge in D by (unfold zlen; lia). exists q. split; [exact E|].
  split; [|done]. split; [exact W | | apply (dec_size _ _ (cr_dec w Hw))].
  rewrite D. apply Forall_app. split; [apply (dec_bytes _ _ (cr_dec w Hw)) | done].
Qed.

Lemma undecoded_app d (q q' : bytes_ringbuffer.t) bytes : bq_contents q' = bq_contents q ++ bytes ->
  pending d q' = pending d q ++ bytes.
Proof. intros E. unfold pending. rewrite E. destruct (hlen_packet.m_parse_state d); [done | apply app_assoc]. Qed.

(** [_pump]: bytes of the transport, or the reason why there are none. *)
Lemma _pump_spec w flag : can_read w ->
  wp (socket._pump flag) w (fun w' ec => recv_frame w w' /\ can_read w' /\ dec w' = dec w
    /\ m_rps_q_standby (so w') = m_rps_q_standby (so w) /\ stream_of w' = stream_of w
    /\ ((ec = OK /\ 0 < zlen (buffered w') /\ weight w' < weight w)
        \/ (ec = E_SOCKET_RECV_BUFFER_FULL /\ zlen (buffered w') = cap w /\ buffered w' = buffered w
            /\ input w' = input w)
        \/ ((ec = E_SOCKET_RECV_BLOCK \/ broken ec) /\ buffered w' = buffered w /\ input w' = input w
            /\ undecoded w' = undecoded w))).
Proof.
  intros Hw. unfold socket._pump. wp_simpl. split; [apply Hw|].
  pose proof (cap_bound w Hw) as HC. pose proof (zlen_nonneg (buffered w)) as HN.
  assert (HL : bytes_ringbuffer.left_capacity (m_rb (so w)) = cap w - zlen (buffered w)).
  { pose proof (dec_queue _ _ (cr_dec w Hw)) as W. rewrite bytes_ringbuffer.left_capacity_val by done.
    rewrite (buffered_count w Hw), <- (cr_cap w Hw). simpl. by rewrite bytes_ringbuffer.capacity_val. }
  rewrite HL. destruct (Z.eqb_spec 0 (cap w - zlen (buffered w))) as [E|E].
  { rewrite wp_ret. split; [done|]. split; [done|]. split; [done|]. split; [done|]. split; [done|].
    right. left. split; [done|]. split; [lia | done]. }
  set (n := if rcv_size (m_sbc (so w)) <=? _ then _ else _).
  assert (Hn : 0 < n <= cap w - zlen (buffered w)).
  { unfold n. fold (cap w). destruct (Z.leb_spec (cap w) (cap w - zlen (buffered w))); lia. }
  rewrite wp_bind. eapply wp_mono; [apply base_recv_spec; [apply Hw | lia]|].
  intros w1 [bytes ec] (e & -> & Hok & Hi & Hz & Hec & Hcode). rewrite wp_bind, wp_when.
  pose proof (cr_bytes w Hw) as HB. rewrite Hi in HB. apply Forall_app in HB as [HB1 HB2].
  pose proof (zlen_nonneg bytes) as Hb0.
  destruct (Z.ltb_spec 0 (zlen bytes)) as [Hb|Hb].
  - destruct (ring_fill w bytes Hw ltac:(lia) HB1) as (q & Eq & Wq & Cq & Dq). wp_simpl. simpl so.
    rewrite Eq, wp_lift. cbn beta iota. wp_simpl. split; [apply Z.eqb_refl|].
    set (w2 := set_so _ _).
    assert (Hin : input w = bytes ++ input w2) by exact Hi.
    assert (Hbuf : buffered w2 = buffered w ++ bytes) by exact Dq.
    split.
    { exists e, q, (m_tlp (so w)), (m_rps_q_standby (so w)). by destruct w as [[] ?]. }
    split; [by split; try apply Hw; first [exact Hok | exact Wq | exact Cq | exact HB2]|].
    split; [done|]. split; [done|]. split.
    { unfold stream_of. rewrite Hin. unfold undecoded. rewrite app_assoc. f_equal.
      apply (undecoded_app (dec w) (m_rb (so w)) q), Dq. }
    left. split; [tauto|]. unfold weight. rewrite Hbuf, Hin, !zlen_app. lia.
  - assert (bytes = []) as -> by (destruct bytes; [done | unfold zlen in Hb; simpl in Hb; lia]).
    rewrite wp_ret. split.
    { exists e, (m_rb (so w)), (m_tlp (so w)), (m_rps_q_standby (so w)). by destruct w as [[] ?]. }
    split; [split; try apply Hw; first [exact Hok | exact HB2]|].
    split; [done|]. split; [done|]. split; [unfold stream_of; rewrite Hi; done|].
    right. right. split; [|split; [done|split; [by rewrite Hi | done]]].
    destruct Hcode as [->|Hcode]; [|done]. by assert (0 < zlen (@nil Z)) by (by apply Hec).
Qed.

Definition FLAG_PUMP : Z := F_RCV_ALWAYS_PUMP.

(** The pump at the head of a round. *)
Lemma pump_round_spec w force : can_read w ->
  wp (socket.pump_round force FLAG_PUMP) w (fun w' r => recv_frame w w' /\ can_read w' /\ dec w' = dec w
    /\ m_rps_q_standby (so w') = m_rps_q_standby (so w) /\ stream_of w' = stream_of w
    /\ match r with
       | inl ec => final ec /\ undecoded w' = undecoded w
       | inr ec => (ec = OK /\ weight w' < weight w)
                   \/ (ec = E_SOCKET_RECV_BUFFER_FULL /\ weight w' = weight w /\ zlen (buffered w') = cap w)
                   \/ (ec = E_SOCKET_RECV_BLOCK /\ weight w' = weight w)
       end).
Proof.
  intros Hw. unfold socket.pump_round. change (flag_on FLAG_PUMP F_RCV_ALWAYS_PUMP) with true.
  rewrite orb_true_r, wp_bind. eapply wp_mono; [by apply _pump_spec|].
  intros w1 ec (F & Hw1 & D & S & ST1 & Hcase). pose proof (cr_room w Hw) as HR.
  destruct (decide (ec = OK \/ ec = E_SOCKET_RECV_BLOCK \/ ec = E_SOCKET_RECV_BUFFER_FULL)) as [Hgo|Hstop].
  - assert ((ec =? OK) || (ec =? E_SOCKET_RECV_BLOCK) || (ec =? E_SOCKET_RECV_BUFFER_FULL) = true) as ->.
    { destruct Hgo as [->|[->| ->]]; done. }
    cbn [negb]. rewrite wp_bind, wp_so, (buffered_count w1 Hw1), (cr_nonblocking w1 Hw1).
    destruct (Z.eqb_spec (zlen (buffered w1)) 0) as [E|E].
    + assert (ec = E_SOCKET_RECV_BLOCK /\ undecoded w1 = undecoded w) as [-> HU].
      { destruct Hcase as [(-> & ? & _)|[(-> & ? & _)|([->|((_ & _ & ?) & ? & ?)] & _ & _ & ?)]]; try lia; tauto. }
      cbn [negb]. rewrite wp_bind, wp_assert. split; [done|]. rewrite wp_bind, wp_assert. split; [done|].
      rewrite wp_ret. by split_and!.
    + rewrite wp_ret. do 5 (split; [done|]).
      destruct Hcase as [(-> & _ & ?)|[(-> & ? & Hb & Hi)|([->|((_ & _ & ?) & ? & ?)] & Hb & Hi & _)]].
      * by left.
      * right. left. split; [done|]. split; [unfold weight; by rewrite Hb, Hi | done].
      * right. right. split; [done|]. unfold weight. by rewrite Hb, Hi.
      * tauto.
  - assert ((ec =? OK) || (ec =? E_SOCKET_RECV_BLOCK) || (ec =? E_SOCKET_RECV_BUFFER_FULL) = false) as ->.
    { apply orb_false_iff. split; [apply orb_false_iff; split|]; apply Z.eqb_neq; tauto. }
    cbn [negb]. rewrite wp_ret. do 5 (split; [done|]).
    destruct Hcase as [(? & _)|[(? & _)|([?|(? & _)] & _ & _ & ?)]]; tauto.
Qed.

(** What a round leaves: messages taken and the code. *)
Definition round_post (w w' : ST) (msgs : list (list Z)) (tail : list Z) (packs : list packet.t) (ec : Z) : Prop :=
  exists k, recv_frame w w' /\ can_read w' /\ m_rps_q_standby (so w') = m_rps_q_standby (so w)
    /\ Forall2 (fun p m => packet.holds p m packet.INIT_LEFT_CAPACITY) packs (take k msgs)
    /\ (k <= length msgs)%nat /\ stream_of w' = frames_of (drop k msgs) ++ tail
    /\ ((ec = E_TLP_TRY_AGAIN /\ weight w' < weight w /\ 0 < zlen (buffered w'))
        \/ (ec = E_SOCKET_PUMP_TRY_AGAIN /\ settled w' /\ weight w' <= weight w)
        \/ (final ec /\ settled w')).

(** The decoder's part of a round. *)
Lemma decode_round_spec w junk pump_ec msgs tail : can_read w -> Forall (ok_msg (cap w)) msgs ->
  incomplete (cap w) tail -> stream_of w = frames_of msgs ++ tail ->
  (pump_ec = OK \/ pump_ec = E_SOCKET_RECV_BUFFER_FULL \/ pump_ec = E_SOCKET_RECV_BLOCK) ->
  wp ('(arrives, ec_o, go) ←
        (s ← so_get id;
         match m_tlp s with
         | None => assertM false;; mret ([], OK, None)
         | Some tlp =>
             '(tlp, rb, arrives, tlp_state, out) ← lift (tlp_decode_packets tlp (m_rb s) 5 junk);
             so_upd (set_m_tlp (Some tlp));;
             so_upd (set_m_rb rb);;
             if negb (socket.tlp_state_ok tlp_state) then mret (arrives, tlp_state, None)
             else ec_o ← socket.send_out junk out tlp_state; mret (arrives, ec_o, Some pump_ec)
         end);
      match go with
      | None => mret (arrives, ec_o)
      | Some pump_ec => ec_o ← socket.receive_code 5 pump_ec ec_o arrives; mret (arrives, ec_o)
      end) w (fun w' '(packs, ec) => round_post w w' msgs tail packs ec
        /\ (pump_ec = E_SOCKET_RECV_BLOCK -> ec <> E_SOCKET_PUMP_TRY_AGAIN)
        /\ (zlen (buffered w) = cap w -> weight w' < weight w)).
Proof.
  intros Hw Hm Ht HS Hp. pose proof (cr_dec w Hw) as W.
  destruct (decode_step (cap w) msgs tail (dec w) (m_rb (so w)) (input w) Hm Ht W (cr_cap w Hw)
    (cr_room w Hw) HS) as (k & d' & q' & packs & ec & E & HF & Hk & W' & C' & P' & Hec & HL & HP).
  rewrite !wp_bind, wp_so, (cr_tlp w Hw), wp_bind. cbn [tlp_decode_packets hlen_tlp].
  rewrite E. cbn [mbind res_bind]. rewrite wp_lift. cbn beta iota. rewrite wp_bind, wp_so_upd, wp_bind, wp_so_upd.
  set (w1 := set_so _ _).
  assert (Hok : socket.tlp_state_ok ec = true) by (by destruct Hec as [[-> _]|[-> _]]).
  rewrite Hok. cbn [negb socket.send_out]. rewrite wp_bind, wp_ret, wp_ret. cbn beta iota.
  unfold socket.receive_code. rewrite !wp_bind, wp_so, wp_ret, wp_ret.
  assert (Hw1 : can_read w1) by (split; try apply Hw; first [done | exact W' | exact C']).
  rewrite (buffered_count w1 Hw1), (cr_nonblocking w1 Hw1), andb_true_r.
  assert (HW : weight w1 <= weight w) by (unfold weight; change (input w1) with (input w); unfold buffered in *; simpl in *; lia).
  assert (Hlen : zlen packs = Z.of_nat k).
  { apply Forall2_length in HF. rewrite length_take in HF. unfold zlen. lia. }
  assert (HPost : forall ec', ((ec' = E_TLP_TRY_AGAIN /\ weight w1 < weight w /\ 0 < zlen (buffered w1))
      \/ (ec' = E_SOCKET_PUMP_TRY_AGAIN /\ settled w1 /\ weight w1 <= weight w)
      \/ (final ec' /\ settled w1)) -> round_post w w1 msgs tail packs ec').
  { intros ec' Hc. exists k. split.
    { exists (env w), q', (Some d'), (m_rps_q_standby (so w)). by destruct w as [[] ?]. }
    do 5 (split; [done|]). exact Hc. }
  assert (HD : (0 < k)%nat \/ zlen (buffered w) = cap w -> weight w1 < weight w).
  { intros Hor. apply HP in Hor. unfold weight. change (input w1) with (input w).
    unfold buffered in *. simpl in *. lia. }
  rewrite Hlen. destruct ((Z.of_nat k =? 5) && (0 <? zlen (buffered w1))) eqn:E5.
  - apply andb_true_iff in E5 as [E5%Z.eqb_eq Hb%Z.ltb_lt].
    split; [apply HPost; left; split; [done|]; split; [apply HD; lia | done]|]. split; [done|].
    intros ?. apply HD. by right.
  - assert (ec = OK /\ settled w1) as [-> HSt].
    { destruct Hec as [[-> ?]|(-> & -> & Hb)]; [done|]. simpl in E5. apply Z.ltb_ge in E5.
      unfold buffered in *. simpl in *. lia. }
    split; [|split; [|intros ?; apply HD; by right]].
    + apply HPost. destruct Hp as [->|[->| ->]]; simpl; [right; left; done..|right; right; done].
    + by intros ->.
Qed.

Lemma cap_frame w w' : recv_frame w w' -> cap w' = cap w.
Proof. by intros (e & rb & d & sq & ->). Qed.

(** A round that pumps, or one that decodes what is at hand. *)
Definition round_pre (w : ST) (flag : Z) : Prop :=
  flag = FLAG_PUMP /\ settled w \/ flag = 0 /\ 0 < zlen (buffered w).

Lemma round_post_trans w w1 w' msgs tail packs ec : recv_frame w w1 -> weight w1 <= weight w ->
  m_rps_q_standby (so w1) = m_rps_q_standby (so w) ->
  round_post w1 w' msgs tail packs ec -> round_post w w' msgs tail packs ec.
Proof.
  intros F HW HS (k & F1 & C1 & S1 & HF & Hk & ST1 & Hc). exists k. split; [by etrans|].
  split; [done|]. split; [congruence|]. do 3 (split; [done|]).
  destruct Hc as [(? & ? & ?)|[(? & ? & ?)|?]]; [left; split; [done|]; split; [lia | done]
    | right; left; split; [done|]; split; [done | lia] | by right; right].
Qed.

Lemma receive_spec w junk flag msgs tail : can_read w -> round_pre w flag ->
  Forall (ok_msg (cap w)) msgs -> incomplete (cap w) tail -> stream_of w = frames_of msgs ++ tail ->
  wp (socket._receive_packets 1 junk 5 flag) w (fun w' '(packs, ec) =>
    round_post w w' msgs tail packs ec
    /\ (ec = E_SOCKET_PUMP_TRY_AGAIN -> flag = FLAG_PUMP -> weight w' < weight w)).
Proof.
  intros Hw Hpre Hm Ht HS. unfold socket._receive_packets. rewrite wp_bind, wp_so, (buffered_count w Hw).
  cbn [socket.receive_rounds]. unfold socket.receive_round. rewrite !wp_bind.
  destruct Hpre as [[-> HSt]|[-> Hb]].
  - eapply wp_mono; [by apply pump_round_spec|].
    intros w1 [ec|ec] (F & Hw1 & D & S & ST1 & Hcase); cbn beta iota.
    + rewrite wp_ret. cbn beta iota. rewrite wp_ret. destruct Hcase as [Hfin HU]. split; [|intros E; by destruct Hfin as (_ & ? & _)].
      exists 0%nat. do 3 (split; [done|]). split; [constructor|]. split; [lia|]. split; [by rewrite ST1|].
      right. right. split; [done|]. unfold settled. by rewrite HU, (cap_frame w w1 F).
    + rewrite <- wp_bind. eapply wp_mono.
      { apply (decode_round_spec w1 junk ec msgs tail); [done | | | by rewrite ST1 | tauto];
          by rewrite (cap_frame w w1 F). }
      intros w2 [packs ec2] (HP & HNP & HFull). rewrite (cap_frame w w1 F) in HFull.
      assert (HW2 : weight w1 <= weight w) by (destruct Hcase as [(_ & ?)|[(_ & ? & _)|(_ & ?)]]; lia).
      split; [by apply (round_post_trans w w1)|]. intros -> _.
      destruct HP as (k & _ & _ & _ & _ & _ & _ & [(? & _)|[(_ & _ & HW)|[(_ & ? & _) _]]]); [done | | done].
      destruct Hcase as [(_ & ?)|[(_ & ? & Hf)|(-> & ?)]]; [lia | | by specialize (HNP eq_refl)].
      specialize (HFull Hf). lia.
  - assert (socket.pump_round (zlen (buffered w) =? 0) 0 = (mret (inr OK) : M ST (Z + Z))) as ->.
    { unfold socket.pump_round. rewrite (proj2 (Z.eqb_neq (zlen (buffered w)) 0)) by lia. done. }
    rewrite wp_ret. cbn beta iota. rewrite <- wp_bind. eapply wp_mono.
    { apply (decode_round_spec w junk OK msgs tail); try done. by left. }
    intros w2 [packs ec2] (HP & _). split; [done|]. intros _ E. discriminate E.
Qed.

(** ** The loop of the reader *)
Definition queue_arrived (w : ST) : list packet.t := m_rps_q_standby (so w).

Lemma standby_spec w arrives : L_RPS_Q_STANDBY ∉ locks w -> can_read w ->
  wp (when (0 <? zlen arrives)
        (with_lock L_RPS_Q_STANDBY
           (so_upd (fun s => set_m_rps_q_standby (m_rps_q_standby s ++ arrives) s)))) w
    (fun w' _ => w' = set_so (set_m_rps_q_standby (queue_arrived w ++ arrives) (so w)) w).
Proof.
  intros Hl Hw. rewrite wp_when. destruct (Z.ltb_spec 0 (zlen arrives)) as [Ha|Ha].
  - apply wp_with_lock; [done|]. rewrite wp_so_upd. split; [done|]. by destruct w.
  - assert (arrives = []) as -> by (destruct arrives; [done | unfold zlen in Ha; simpl in Ha; lia]).
    unfold queue_arrived. rewrite app_nil_r. by destruct w as [[] ?].
Qed.

Definition read_post (w w' : ST) (msgs : list (list Z)) (tail : list Z) (packs : list packet.t) : Prop :=
  exists k, recv_frame w w' /\ can_read w' /\ settled w'
    /\ queue_arrived w' = queue_arrived w ++ packs
    /\ Forall2 (fun p m => packet.holds p m packet.INIT_LEFT_CAPACITY) packs (take k msgs)
    /\ (k <= length msgs)%nat /\ stream_of w' = frames_of (drop k msgs) ++ tail.

(** A round and the rest of the loop. *)
Lemma read_post_step w w1 w2 msgs tail k packs packs' b : recv_frame w w1 ->
  queue_arrived w1 = queue_arrived w ++ packs ->
  Forall2 (fun p m => packet.holds p m packet.INIT_LEFT_CAPACITY) packs (take k msgs) ->
  (k <= length msgs)%nat -> read_post w1 w2 (drop k msgs) tail packs' ->
  exists packs2, read_post w w2 msgs tail packs2
    /\ b || (0 <? zlen packs) || (0 <? zlen packs') = b || (0 <? zlen packs2).
Proof.
  intros F Q HF Hk (k' & F' & C' & S' & Q' & HF' & Hk' & E'). exists (packs ++ packs'). split.
  - exists (k + k')%nat. split; [by etrans|]. split; [done|]. split; [done|].
    split; [by rewrite Q', Q, app_assoc|]. rewrite length_drop in Hk'. rewrite drop_drop in E'.
    split; [rewrite <- take_take_drop; by apply Forall2_app|]. split; [lia | done].
  - rewrite <- orb_assoc, zlen_app. f_equal. pose proof (zlen_nonneg packs). pose proof (zlen_nonneg packs').
    destruct (Z.ltb_spec 0 (zlen packs)), (Z.ltb_spec 0 (zlen packs')), (Z.ltb_spec 0 (zlen packs + zlen packs'));
      simpl; lia.
Qed.

(** The time the loop takes. *)
Definition measure (w : ST) (flag : Z) : Z := 2 * weight w + (if flag =? 0 then 1 else 0).

Lemma read_rounds_spec junk tail fuel : forall w flag b msgs, can_read w -> round_pre w flag ->
  L_RPS_Q_STANDBY ∉ locks w ->
  Forall (ok_msg (cap w)) msgs -> incomplete (cap w) tail -> stream_of w = frames_of msgs ++ tail ->
  measure w flag < Z.of_nat fuel ->
  wp (socket.read_rounds fuel junk flag b) w (fun w' '(ec, b') => final ec /\
    exists packs, read_post w w' msgs tail packs /\ b' = b || (0 <? zlen packs)).
Proof.
  induction fuel as [|fuel IH]; intros w flag b msgs Hw Hpre Hl Hm Ht HS Hf.
  { unfold measure, weight in Hf. pose proof (zlen_nonneg (input w)). pose proof (zlen_nonneg (buffered w)).
    destruct (flag =? 0); lia. }
  cbn [socket.read_rounds]. rewrite wp_bind.
  eapply wp_mono; [by apply (receive_spec w junk flag msgs tail)|].
  intros w1 [packs ec] ((k & F1 & Hw1 & S1 & HF & Hk & ST1 & Hc) & HW1). cbn beta iota. rewrite wp_bind.
  assert (Hl1 : locks w1 = locks w) by (by destruct F1 as (? & ? & ? & ? & ->)).
  eapply wp_mono; [apply standby_spec; [by rewrite Hl1 | done]|]. cbn beta. intros w2 _ ->.
  set (w2 := set_so _ w1).
  assert (Hw2 : can_read w2) by (by destruct Hw1; constructor).
  assert (F2 : recv_frame w w2).
  { etrans; [exact F1|]. exists (env w1), (m_rb (so w1)), (m_tlp (so w1)), (queue_arrived w1 ++ packs).
    by destruct w1 as [[] ?]. }
  assert (Q2 : queue_arrived w2 = queue_arrived w ++ packs) 
    by (change (queue_arrived w2) with (queue_arrived w1 ++ packs); unfold queue_arrived; by rewrite S1).
  destruct Hc as [(-> & HW & Hb)|[(-> & HSt & HW)|[(N1 & N2 & N3) HSt]]].
  3: { rewrite (proj2 (Z.eqb_neq ec _) N1), (proj2 (Z.eqb_neq ec _) N2). cbn [orb]. rewrite wp_ret.
       split; [done|]. exists packs. split; [|done]. by exists k. }
  all: assert (Hnext : forall flag', round_pre w2 flag' -> measure w2 flag' < Z.of_nat fuel ->
    wp (socket.read_rounds fuel junk flag' (b || (0 <? zlen packs))) w2 (fun w' '(ec, b') => final ec /\
      exists packs', read_post w w' msgs tail packs' /\ b' = b || (0 <? zlen packs')));
    [intros flag' Hpre' Hf'; eapply wp_mono; [apply (IH w2 flag' _ (drop k msgs)); try done;
       [by rewrite <- Hl1 in Hl | rewrite (cap_frame w w2 F2); by apply Forall_drop
       | by rewrite (cap_frame w w2 F2)]|];
     intros w3 [ec3 b3] (Hfin & packs3 & HP & ->); split; [done|];
     by apply (read_post_step w w2 w3 msgs tail k packs packs3 b)|].
  - apply (Hnext 0); [by right | ]. unfold measure in *. change (weight w2) with (weight w1).
    change (0 =? 0) with true. cbn iota. destruct (flag =? 0); lia.
  - apply (Hnext FLAG_PUMP); [by left|]. unfold measure in *. change (weight w2) with (weight w1).
    destruct Hpre as [[-> _]|[-> _]]; [specialize (HW1 eq_refl eq_refl)|];
      change (FLAG_PUMP =? 0) with false in *; change (0 =? 0) with true in Hf; cbn iota in *; lia.
Qed.

(** ** [handle_async_read] *)

(** Changes of the flags and of the queues of requests only. *)
Definition read_idle (w w' : ST) : Prop :=
  exists rf o1 o2 ts,
    w' = set_tasks ts (set_wcp_ops o2 (set_ops o1 (set_so (set_m_rflag rf (so w)) w))).

#[local] Instance read_idle_refl : Reflexive read_idle.
Proof.
  intros w. exists (m_rflag (so w)), (ops w), (wcp_ops w), (tasks w). by destruct w as [[] ?].
Qed.
#[local] Instance read_idle_trans : Transitive read_idle.
Proof.
  intros w w1 w2 (rf & o1 & o2 & ts & ->) (rf' & o1' & o2' & ts' & ->). by exists rf', o1', o2', ts'.
Qed.

Lemma read_idle_spec w w' : read_idle w w' ->
  dec w' = dec w /\ input w' = input w /\ buffered w' = buffered w /\ cap w' = cap w
  /\ locks w' = locks w /\ trace w' = trace w /\ queue_arrived w' = queue_arrived w
  /\ m_rps_q (so w') = m_rps_q (so w) /\ undecoded w' = undecoded w /\ m_fd (so w') = m_fd (so w)
  /\ m_wflag (so w') = m_wflag (so w) /\ (can_read w -> can_read w').
Proof. intros (rf & o1 & o2 & ts & ->). split_and!; try done. intros []. by constructor. Qed.

Definition read_shut (w : ST) : bool := flag_on (m_rflag (so w)) SHUTDOWN_RD.
Definition read_watched (w : ST) : bool := flag_on (m_rflag (so w)) WATCH_READ.

Lemma push_read_op (b : bool) (o : event_op) v w (Q : ST -> unit -> Prop) : 0 < o_fd o ->
  (forall w', read_idle w w' -> m_rflag (so w') = v -> Q w' tt) ->
  wp (push_op b o) (set_so (set_m_rflag v (so w)) w) Q.
Proof.
  intros Ho HQ. unfold push_op. wp_simpl. split; [by apply Z.ltb_lt|].
  destruct b; apply HQ; try done.
  - exists v, (ops w), (wcp_ops w ++ [o]), (tasks w). by destruct w as [[] ?].
  - exists v, (ops w ++ [o]), (wcp_ops w), (tasks w). by destruct w as [[] ?].
Qed.

Lemma end_read_spec w : 0 < m_fd (so w) -> is_nonblocking (so w) = true ->
  wp _end_async_read w (fun w' _ =>
    read_idle w w' /\ read_shut w' = read_shut w /\ read_watched w' = false).
Proof.
  intros Hf Hn. unfold _end_async_read, unwatch. wp_simpl. rewrite Hn, andb_true_r.
  fold (read_watched w). destruct (read_watched w) eqn:Ew; [|by split_and!].
  wp_simpl. split; [done|]. split; [by apply Z.ltb_lt|]. apply push_read_op; [done|].
  intros w' I E. split; [done|]. unfold read_shut, read_watched. rewrite E, !flag_on_clear.
  split; [done|]. apply flag_on_none.
Qed.

Lemma begin_read_spec w : 0 < m_fd (so w) -> is_nonblocking (so w) = true ->
  wp (_begin_async_read 0 None fn_async_read fn_async_error) w (fun w' _ =>
    read_idle w w' /\ read_shut w' = read_shut w /\ (read_shut w = false -> read_watched w' = true)).
Proof.
  intros Hf Hn. unfold _begin_async_read, watch. wp_simpl. split; [done|]. fold (read_shut w) (read_watched w).
  destruct (read_shut w) eqn:Es.
  { rewrite wp_schedule. split; [|done]. eexists (m_rflag (so w)), (ops w), (wcp_ops w), _.
    by destruct w as [[] ?]. }
  destruct (read_watched w) eqn:Ew; [rewrite wp_ret; by split_and!|].
  wp_simpl. split; [done|]. split; [by apply Z.ltb_lt|]. apply push_read_op; [done|].
  intros w' I E. cbn [negb flag_on]. change (flag_on 0 WATCH_OPTION_POST_READ_EVENT_AFTER_WATCH) with false.
  cbn iota. split; [done|]. unfold read_shut, read_watched in *. rewrite E, !flag_on_set, Es.
  split; [done|]. by rewrite orb_true_r.
Qed.

(** The packets given to the listeners. *)
Definition arrivals (packs : list packet.t) : list effect := map (fun p => Triggered (packet_event p)) packs.

Lemma trigger_arrived_spec (w : ST) :
  wp socket.trigger_arrived w (fun w' _ =>
    w' = set_trace (trace w ++ arrivals (m_rps_q (so w))) (set_so (set_m_rps_q [] (so w)) w)).
Proof.
  unfold socket.trigger_arrived. rewrite wp_bind, wp_so.
  assert (HI : forall l (w0 : ST), m_rps_q (so w0) = l ->
    wp (iterM (fun p => trigger (packet_event p);; so_upd (fun s => set_m_rps_q (drop 1 (m_rps_q s)) s)) l) w0
      (fun w' _ => w' = set_trace (trace w0 ++ arrivals l) (set_so (set_m_rps_q [] (so w0)) w0)));
    [|by apply HI].
  induction l as [|p l IH]; intros w0 E; cbn [iterM].
  - rewrite wp_ret. cbn. rewrite app_nil_r. rewrite <- E. by destruct w0 as [[] ?].
  - rewrite !wp_bind, wp_trigger, wp_so_upd. cbn [so set_trace]. rewrite E.
    eapply wp_mono; [by apply IH|]. intros w' _ ->. cbn. rewrite <- app_assoc. by destruct w0 as [[] ?].
Qed.

(** The queues swapped and the packets given out. *)
Lemma give_out_spec w : L_RPS_Q_STANDBY ∉ locks w -> L_RPS_Q ∉ locks w -> m_rps_q (so w) = [] ->
  queue_arrived w <> [] ->
  wp (with_lock L_RPS_Q (socket.swap_arrived;; socket.trigger_arrived)) w (fun w' _ =>
    w' = set_trace (trace w ++ arrivals (queue_arrived w))
           (set_so (set_m_rps_q [] (set_m_rps_q_standby [] (so w))) w)).
Proof.
  intros Hs Hq E0 Hne. apply wp_with_lock; [done|]. set (w0 := set_locks _ w).
  assert (Hz : 0 < zlen (queue_arrived w)).
  { destruct (queue_arrived w); [done|]. unfold zlen. simpl. lia. }
  assert (Hswap : wp socket.swap_arrived w0 (fun w' _ =>
    w' = set_so (set_m_rps_q_standby [] (set_m_rps_q (queue_arrived w) (so w))) w0)).
  { unfold socket.swap_arrived. rewrite wp_bind, wp_so, wp_bind, wp_when. simpl so. rewrite E0.
    change (0 <? zlen []) with false. cbn iota. apply wp_with_lock; [by apply not_elem_of_cons|].
    rewrite wp_bind, wp_so, wp_when. simpl so. fold (queue_arrived w). rewrite (proj2 (Z.ltb_lt _ _)) by done.
    rewrite wp_bind, wp_so_upd, wp_bind, wp_so. simpl. fold (queue_arrived w). rewrite E0.
    rewrite wp_bind, wp_assert. split; [done|]. rewrite wp_assert.
    split; [apply negb_true_iff, Z.eqb_neq; lia|]. split; [done|]. by destruct w as [[] ?]. }
  rewrite wp_bind. eapply wp_mono; [exact Hswap|]. cbn beta. intros w1 _ ->.
  eapply wp_mono; [by apply trigger_arrived_spec|]. cbn beta. intros w2 _ ->.
  split; [done|]. by destruct w as [[] ?].
Qed.

(** What holds of a socket that reads between two calls. *)
Record recv_inv (w : ST) : Prop := {
  rv_read : can_read w;
  rv_settled : settled w;
  rv_fd : 0 < m_fd (so w);
  rv_queue : m_rps_q (so w) = [];
  rv_standby : queue_arrived w = [];
  rv_locks : Forall (fun l => l ∉ locks w) [L_READ; L_RPS_Q; L_RPS_Q_STANDBY]
}.

Lemma recv_inv_locks w : recv_inv w ->
  (L_READ ∉ locks w) /\ (L_RPS_Q ∉ locks w) /\ (L_RPS_Q_STANDBY ∉ locks w).
Proof. intros [_ _ _ _ _ HL]. rewrite !Forall_cons in HL. tauto. Qed.

Definition one_time (w : ST) : bool := negb (flag_on (m_wflag (so w)) WATCH_OPTION_INFINITE).

(** The request taken back at the beginning and made again at the end. *)
Lemma stop_read_spec w : 0 < m_fd (so w) -> is_nonblocking (so w) = true ->
  wp (when (one_time w) _end_async_read) w (fun w1 _ => read_idle w w1
    /\ (one_time w = true -> read_shut w1 = read_shut w /\ read_watched w1 = false)).
Proof.
  intros Hf Hn. rewrite wp_when. destruct (one_time w); [|done].
  eapply wp_mono; [by apply end_read_spec|]. intros w1 _ (I & S & R). auto.
Qed.

Lemma resume_read_spec w (b : bool) (packs : list packet.t) : 0 < m_fd (so w) ->
  is_nonblocking (so w) = true -> (b = true -> read_watched w = false) ->
  wp (when (b && negb (0 <? zlen packs)) (_begin_async_read 0 None fn_async_read fn_async_error)) w
    (fun w' _ => read_idle w w'
      /\ (b = true -> read_shut w = false -> read_watched w' = bool_decide (packs = []))).
Proof.
  intros Hf Hn Hb. rewrite wp_when. assert (HP : (0 <? zlen packs) = negb (bool_decide (packs = []))).
  { destruct packs; [done|]. apply Z.ltb_lt. unfold zlen. simpl. lia. }
  rewrite HP, negb_involutive. destruct b; cbn [andb]; [|by split].
  destruct (bool_decide (packs = [])); [|by split; [|intros; apply Hb]].
  eapply wp_mono; [by apply begin_read_spec|]. intros w' _ (I & _ & R). auto.
Qed.

(** What the call under the lock of the reader leaves. *)
Definition locked_post (w w' : ST) (msgs : list (list Z)) (tail : list Z) (packs : list packet.t) : Prop :=
  exists k, can_read w' /\ settled w' /\ 0 < m_fd (so w')
    /\ m_rps_q (so w') = [] /\ queue_arrived w' = packs /\ locks w' = locks w /\ trace w' = trace w
    /\ Forall2 (fun p m => packet.holds p m packet.INIT_LEFT_CAPACITY) packs (take k msgs)
    /\ (k <= length msgs)%nat /\ stream_of w' = frames_of (drop k msgs) ++ tail /\ cap w' = cap w
    /\ (one_time w = true -> read_shut w = false -> read_watched w' = bool_decide (packs = [])).

Lemma can_read_locks l w : can_read (set_locks l w) <-> can_read w.
Proof. split; intros []; by constructor. Qed.

(** The rounds, between the two requests. *)
Lemma locked_rounds w w1 w2 w3 msgs tail packs : recv_inv w ->
  read_idle (set_locks (L_READ :: locks w) w) w1 ->
  (one_time w = true -> read_shut w1 = read_shut w /\ read_watched w1 = false) ->
  read_post w1 w2 msgs tail packs -> read_idle w2 w3 ->
  (one_time w = true -> read_shut w2 = false -> read_watched w3 = bool_decide (packs = [])) ->
  locks w3 = L_READ :: locks w /\ locked_post w (set_locks (locks w) w3) msgs tail packs.
Proof.
  intros [Hw HSt Hf HQ HB HL] I1 R1 (k & F2 & Hw2 & S2 & Q2 & HF & Hk & E2) I3 R3.
  destruct (read_idle_spec _ w1 I1) as (D1 & IN1 & B1 & C1 & L1 & T1 & Q1 & RQ1 & U1 & FD1 & _ & CR1).
  destruct (read_idle_spec w2 w3 I3) as (D3 & IN3 & B3 & C3 & L3 & T3 & Q3 & RQ3 & U3 & FD3 & _ & CR3).
  assert (locks w2 = locks w1 /\ trace w2 = trace w1 /\ m_rps_q (so w2) = m_rps_q (so w1)
    /\ m_fd (so w2) = m_fd (so w1) /\ read_shut w2 = read_shut w1 /\ cap w2 = cap w1)
    as (L2 & T2 & RQ2 & FD2 & RS2 & C2) by (by destruct F2 as (? & ? & ? & ? & ->)).
  split; [by rewrite L3, L2, L1|]. exists k. split; [by apply can_read_locks, CR3|].
  split; [change (settled w3); unfold settled; rewrite C3, U3; exact S2|].
  split; [simpl; rewrite FD3, FD2, FD1; exact Hf|].
  split; [simpl; rewrite RQ3, RQ2, RQ1; exact HQ|].
  split; [change (queue_arrived w3 = packs); rewrite Q3, Q2, Q1;
          change (queue_arrived (set_locks _ w)) with (queue_arrived w); by rewrite HB|].
  split; [done|]. split; [simpl; by rewrite T3, T2, T1|]. split; [exact HF|]. split; [exact Hk|].
  split; [change (stream_of w3 = frames_of (drop k msgs) ++ tail); unfold stream_of; rewrite U3, IN3; exact E2|].
  split; [change (cap w3 = cap w); by rewrite C3, C2, C1|].
  intros Ho Hs. change (read_watched w3 = bool_decide (packs = [])). apply R3; [done|].
  rewrite RS2. destruct (R1 Ho) as [-> _]. exact Hs.
Qed.

Lemma read_locked_spec w junk fuel msgs tail : recv_inv w ->
  Forall (ok_msg (cap w)) msgs -> incomplete (cap w) tail -> stream_of w = frames_of msgs ++ tail ->
  2 * weight w < Z.of_nat fuel ->
  wp (with_lock L_READ (
        s ← so_get id;
        let is_one_time_async_read := negb (flag_on (m_wflag s) WATCH_OPTION_INFINITE) in
        when is_one_time_async_read _end_async_read;;
        '(ec_o, has_new_arrives) ← socket.read_rounds fuel junk F_RCV_ALWAYS_PUMP false;
        when (is_one_time_async_read && negb has_new_arrives)
          (_begin_async_read 0 None fn_async_read fn_async_error);;
        mret (ec_o, has_new_arrives))) w
    (fun w' '(ec, has_new) => final ec /\ exists packs, has_new = (0 <? zlen packs)
       /\ locked_post w w' msgs tail packs).
Proof.
  intros Hi Hm Ht HS Hfuel. pose proof Hi as [Hw HSt Hf HQ HB _].
  destruct (recv_inv_locks w Hi) as (HL1 & HL2 & HL3). apply wp_with_lock; [done|].
  set (w0 := set_locks _ w). rewrite wp_bind, wp_so. cbv zeta.
  change (negb (flag_on (m_wflag (so w0)) WATCH_OPTION_INFINITE)) with (one_time w0). rewrite wp_bind.
  eapply wp_mono; [apply (stop_read_spec w0); [done | apply Hw]|]. cbn beta. intros w1 _ [I1 R1].
  destruct (read_idle_spec w0 w1 I1) as (D1 & IN1 & B1 & C1 & L1 & _ & _ & _ & U1 & FD1 & _ & CR1).
  assert (Hw1 : can_read w1) by (by apply CR1, can_read_locks).
  rewrite wp_bind. eapply wp_mono.
  { apply (read_rounds_spec junk tail fuel w1 FLAG_PUMP false msgs); [done | | | | | |].
    - left. split; [done|]. unfold settled. rewrite C1, U1. exact HSt.
    - rewrite L1. by apply not_elem_of_cons.
    - rewrite C1. exact Hm.
    - rewrite C1. exact Ht.
    - unfold stream_of. rewrite U1, IN1. exact HS.
    - unfold measure, weight. rewrite IN1, B1. change (FLAG_PUMP =? 0) with false. cbn iota.
      change (input w0) with (input w). change (buffered w0) with (buffered w). fold (weight w). lia. }
  intros w2 [ec has_new] (Hfin & packs & HP & ->). cbn beta iota. rewrite wp_bind, orb_false_l.
  pose proof HP as (k & F2 & Hw2 & _).
  assert (FR : m_fd (so w2) = m_fd (so w1) /\ read_watched w2 = read_watched w1)
    by (by destruct F2 as (? & ? & ? & ? & ->)). destruct FR as [FD2 RW2].
  eapply wp_mono; [apply (resume_read_spec w2 (one_time w0) packs);
    [by rewrite FD2, FD1 | apply Hw2 | rewrite RW2; by intros [_ ?]%R1]|].
  cbn beta. intros w3 _ [I3 R3]. rewrite wp_ret.
  destruct (locked_rounds w w1 w2 w3 msgs tail packs Hi I1 R1 HP I3 R3) as [L3 HL].
  split; [exact L3|]. split; [exact Hfin|]. by exists packs.
Qed.

(** Everything the listeners are given by one call. *)
Lemma handle_async_read_spec w junk fuel msgs tail : recv_inv w ->
  Forall (ok_msg (cap w)) msgs -> incomplete (cap w) tail -> stream_of w = frames_of msgs ++ tail ->
  2 * weight w < Z.of_nat fuel ->
  wp (socket.handle_async_read fuel junk) w (fun w' ec => final ec /\ exists k packs,
    recv_inv w' /\ trace w' = trace w ++ arrivals packs
    /\ Forall2 (fun p m => packet.holds p m packet.INIT_LEFT_CAPACITY) packs (take k msgs)
    /\ (k <= length msgs)%nat /\ stream_of w' = frames_of (drop k msgs) ++ tail
    /\ locks w' = locks w /\ cap w' = cap w
    /\ (one_time w = true -> read_shut w = false -> read_watched w' = bool_decide (packs = []))).
Proof.
  intros Hi Hm Ht HS Hf. pose proof (recv_inv_locks w Hi) as (HL1 & HL2 & HL3).
  unfold socket.handle_async_read. rewrite wp_bind, wp_so, wp_bind, wp_assert.
  split; [apply Hi|]. rewrite wp_bind, wp_assert. split; [apply Hi|]. rewrite wp_bind.
  eapply wp_mono; [by apply (read_locked_spec w junk fuel msgs tail)|].
  intros w1 [ec has_new] (Hfin & packs & -> & k & Hw1 & S1 & Hfd & RQ & Q1 & L1 & T1 & HF & Hk & E1 & C1 & R1).
  rewrite wp_bind, wp_when. destruct (Z.ltb_spec 0 (zlen packs)) as [Hp|Hp].
  - eapply wp_mono; [apply give_out_spec; [by rewrite L1 | by rewrite L1 | done | rewrite Q1; by intros ->]|].
    cbn beta. intros w2 _ ->. rewrite wp_ret. split; [done|]. exists k, packs. rewrite Q1.
    split; [|split; [by rewrite T1 | by split_and!]].
    constructor; [by destruct Hw1; constructor | exact S1 | exact Hfd | done | done |].
    simpl. rewrite L1. apply Hi.
  - assert (packs = []) as -> by (destruct packs; [done | unfold zlen in Hp; simpl in Hp; lia]).
    rewrite wp_ret. split; [done|]. exists k, []. split; [|split; [by rewrite app_nil_r | by split_and!]].
    constructor; try done. rewrite L1. apply Hi.
Qed.


(** A read watch that was asked for ever is lost: [handle_async_read] looks for
    WATCH_OPTION_INFINITE in the flags of the writer, so a call that delivers a packet leaves
    the socket without a read watch although its own flags asked for an infinite one. *)
Theorem infinite_read_watch_lost w junk fuel msgs tail w' ec : recv_inv w ->
  flag_on (m_rflag (so w)) WATCH_OPTION_INFINITE = true ->
  flag_on (m_wflag (so w)) WATCH_OPTION_INFINITE = false -> read_shut w = false ->
  Forall (ok_msg (cap w)) msgs -> incomplete (cap w) tail -> stream_of w = frames_of msgs ++ tail ->
  2 * weight w < Z.of_nat fuel ->
  socket.handle_async_read fuel junk w = Ok (w', ec) -> trace w' <> trace w ->
  read_watched w' = false.
Proof.
  intros Hi _ Hw Hs Hm Ht HS Hf E HT.
  destruct (proj1 (wp_run _ _ _) (handle_async_read_spec w junk fuel msgs tail Hi Hm Ht HS Hf))
    as (w1 & ec1 & E1 & _ & k & packs & _ & T1 & _ & _ & _ & _ & _ & R1).
  rewrite E in E1. injection E1 as <- <-. rewrite R1; [|by unfold one_time; rewrite Hw | done].
  apply bool_decide_eq_false. intros ->. apply HT. by rewrite T1, app_nil_r.
Qed.
End recv.

(** ** Witnesses *)

(** Two messages and the beginning of a third are to come. *)
Definition sim_reader (rflag : Z) : st hlen_packet.t (senv sim) :=
  sim_st (sim_socket hlen_packet.make rflag 0)
    (mk_sim ∅ {[5 := [0; 0; 0; 2; 7; 8; 0; 0; 0; 1; 9; 0; 0]]} [] 9).

Lemma sim_reader_inv rflag : recv_inv (sim_reader rflag).
Proof.
  assert (W : bytes_ringbuffer.wf (sim_ring [])) by (apply sim_ring_wf; simpl; lia).
  constructor; [|apply frames.incomplete_nil; done | done | done | done |].
  - constructor; try done. cbn. repeat constructor; done.
  - repeat (constructor; [by apply not_elem_of_nil|]). constructor.
Qed.

Lemma sim_incomplete : frames.incomplete 4096 [0; 0].
Proof.
  exists [0], [0; 1; 0]. split; [|done]. split; [repeat constructor; done | vm_compute; intuition discriminate].
Qed.


Lemma infinite_read_watch_lost_witness :
  read_watched (sim_reader (Z.lor WATCH_READ WATCH_OPTION_INFINITE)) = true
  /\ exists w' ec, socket.handle_async_read 60 0 (sim_reader (Z.lor WATCH_READ WATCH_OPTION_INFINITE)) = Ok (w', ec)
    /\ read_watched w' = false.
Proof.
  split; [reflexivity|]. eexists _, _. split; [vm_compute; reflexivity|].
  apply (infinite_read_watch_lost (sim_reader (Z.lor WATCH_READ WATCH_OPTION_INFINITE)) 0 60 [[7; 8]; [9]] [0; 0]
    _ OK (sim_reader_inv _)).
  - reflexivity.
  - reflexivity.
  - reflexivity.
  - repeat constructor; vm_compute; intuition discriminate.
  - exact sim_incomplete.
  - reflexivity.
  - vm_compute. reflexivity.
  - vm_compute. reflexivity.
  - discriminate.
Defined.
