(* ===== verification/SocketComm.v ===== *)
(** * SocketComm: two sockets

    What the two halves of [class socket] give together over a stream transport
    with [hlen_packet]: the packets of one peer's [send_packet] are the packets the
    other peer's [handle_async_read] gives to its listeners. *)

From S2P Require Import Prelude Effects Bytes Ring Packet Tlp Address Wcp SocketData SockFns SocketBase Socket SocketLaws SocketTlp SocketSim SocketSendProofs SocketRecvProofs.

Section comm.
Context `{memory} `{WcpData.wcp_env} `{wcp_sockets} {K} `{system_laws K}.
Import frames.
Local Abbreviation ST := (st hlen_packet.t (senv K)).

Lemma set_tlp_inv d (w : ST) : send_inv w -> send_inv (set_so (set_m_tlp d (so w)) w).
Proof.
  intros [Hf Hw Hl Ht Ha]. constructor; try done. by destruct Hw; constructor.
Qed.

(** An accepted packet is its frame, all of it. *)
Lemma send_packet_ok (w w' : ST) junk p flag : send_inv w -> m_tlp (so w) <> None -> packet.wf p ->
  0 < zlen (packet.data p) -> 4 + zlen (packet.data p) <= snd_size (m_sbc (so w)) ->
  socket.send_packet junk p flag w = Ok (w', OK) ->
  send_inv w' /\ m_tlp (so w') <> None /\ m_sbc (so w') = m_sbc (so w)
  /\ sent w' ++ queued w' = sent w ++ queued w ++ frame (packet.data p).
Proof.
  intros Hi Hd Wp Hz Hs E. destruct (m_tlp (so w)) as [d|] eqn:Ed; [|done].
  pose proof (queued_bound w (si_flush w Hi)) as HB.
  assert (HU : snd_size (m_sbc (so w)) < 4294967296).
  { destruct (si_flush w Hi) as (_ & [HC _ _ _] & C). unfold bytes_ringbuffer.MAX_RING_BUFFER_SIZE in HC. lia. }
  destruct (encode_frame p Wp Hz ltac:(range_lia)) as [(o & Eo & Wo & Do)|Eo].
  2: { exfalso. unfold socket.send_packet, mbind, M_bind, so_get, gets in E. unfold id in E. rewrite Ed in E.
       cbn [tlp_encode hlen_tlp] in E. rewrite Eo in E. discriminate E. }
  assert (HP : wp (socket.send_packet junk p flag) w (fun w1 rt => rt = OK ->
    send_inv w1 /\ m_tlp (so w1) <> None /\ m_sbc (so w1) = m_sbc (so w)
    /\ sent w1 ++ queued w1 = sent w ++ queued w ++ frame (packet.data p))).
  { unfold socket.send_packet. rewrite wp_bind, wp_so, Ed, wp_bind. cbn [tlp_encode hlen_tlp]. rewrite Eo.
    cbn [mbind res_bind]. rewrite wp_lift. cbn beta iota. rewrite wp_bind, wp_so_upd.
    change (negb (Tlp.OK =? OK)) with false. cbn iota. set (w1 := set_so _ w). rewrite wp_bind.
    eapply wp_mono; [apply (send_spec w1 (packet.data o) junk flag)|].
    { by apply set_tlp_inv. }
    { rewrite Do, zlen_frame. lia. }
    { rewrite Do, zlen_frame. simpl. lia. }
    intros w2 [n ec] ((F & I2 & E2) & Hn). rewrite (packet.len_val o Wo), wp_bind, wp_lift, wp_ret.
    intros Hrt. assert (n = zlen (packet.data o)) as ->.
    { destruct Hn as [->|[Hlt Hne]]; [done|]. rewrite (proj2 (Z.eqb_neq _ _)) in Hrt by lia. done. }
    rewrite take_ge in E2 by (unfold zlen; lia). rewrite Do in E2.
    split; [done|]. destruct F as (? & ? & ? & ? & ? & ? & ? & ->). done. }
  unfold wp in HP. rewrite E in HP. by apply HP.
Qed.

(** Packets sent, between other calls of the writers. *)
Inductive packets_sent : ST -> list packet.t -> ST -> Prop :=
| sent_none w : packets_sent w [] w
| sent_packet w w1 w2 junk p flag ps :
    packet.wf p -> 0 < zlen (packet.data p) -> 4 + zlen (packet.data p) <= snd_size (m_sbc (so w)) ->
    socket.send_packet junk p flag w = Ok (w1, OK) ->
    packets_sent w1 ps w2 -> packets_sent w (p :: ps) w2
| sent_other w w1 w2 ps : send_run w [] w1 -> packets_sent w1 ps w2 -> packets_sent w ps w2.

Lemma packets_sent_spec w ps w' : packets_sent w ps w' -> send_inv w -> m_tlp (so w) <> None ->
  sent w' ++ queued w' = sent w ++ queued w ++ frames_of (map packet.data ps).
Proof.
  induction 1 as [w|w w1 w2 junk p flag ps Wp Hz Hs E R IH|w w1 w2 ps R1 R IH]; intros Hi Hd.
  - unfold frames_of. simpl. by rewrite app_nil_r.
  - destruct (send_packet_ok w w1 junk p flag Hi Hd Wp Hz Hs E) as (I1 & D1 & _ & E1).
    rewrite (IH I1 D1), app_assoc, E1. unfold frames_of. cbn [map concat]. by rewrite <- !app_assoc.
  - destruct (send_run_spec w [] w1 R1 Hi) as (I1 & F & E1). rewrite app_nil_r in E1.
    rewrite (IH I1), app_assoc, E1, <- app_assoc; [done|].
    by destruct F as (? & ? & ? & ? & ? & ? & ? & ->).
Qed.

(** Nothing but the beginning of a message is left when the stream is used up. *)
Lemma settled_none (w : ST) msgs : settled w -> Forall (ok_msg (cap w)) msgs ->
  undecoded w = frames_of msgs -> msgs = [].
Proof.
  destruct msgs as [|m msgs]; [done|]. intros HS Hm E. exfalso. apply Forall_cons in Hm as [Hm _].
  unfold settled in HS. rewrite E in HS. by apply (incomplete_no_frame (cap w) m (frames_of msgs)).
Qed.

(** C2: end to end, over any transport that keeps bytes in order: when one peer has sent
    packets with [send_packet] (each answered [OK], with any other calls of the writers in
    between), and the transport hands a prefix of the bytes it took to the other peer,
    [handle_async_read] gives that peer's listeners packets with exactly the data of the
    first packets sent, in order; what it did not give out is still in the stream, and when the
    whole stream has arrived nothing is missing. *)
Theorem socket_delivers_packets (w w' r : ST) ps rest junk fuel :
  packets_sent w ps w' -> send_inv w -> m_tlp (so w) <> None -> sent w ++ queued w = [] ->
  recv_inv r -> undecoded r = [] -> sent w' = input r ++ rest ->
  Forall (ok_msg (cap r)) (map packet.data ps) -> 2 * weight r < Z.of_nat fuel ->
  exists r' ec k packs, socket.handle_async_read fuel junk r = Ok (r', ec) /\ recv_inv r'
    /\ trace r' = trace r ++ arrivals packs
    /\ map packet.data packs = take k (map packet.data ps)
    /\ stream_of r' ++ rest ++ queued w' = frames_of (drop k (map packet.data ps))
    /\ (input r' = [] -> rest = [] -> queued w' = [] -> map packet.data packs = map packet.data ps).
Proof.
  intros R Hi Hd He Hr Hu Hin Hm Hf. pose proof (packets_sent_spec w ps w' R Hi Hd) as E.
  rewrite app_assoc, He, Hin in E. simpl app in E. set (msgs := map packet.data ps) in *.
  pose proof (cr_room r (rv_read r Hr)) as HR.
  destruct (prefix_split (cap r) ltac:(lia) msgs (input r) (rest ++ queued w') Hm ltac:(by rewrite app_assoc, E))
    as (j & tail & E1 & Ht & E2 & Hj & _).
  destruct (proj1 (wp_run _ _ _) (handle_async_read_spec r junk fuel (take j msgs) tail Hr
    ltac:(by apply Forall_take) Ht ltac:(unfold stream_of; by rewrite Hu) Hf))
    as (r' & ec & ER & _ & k & packs & I' & T' & HF & Hk & S' & _ & C' & _).
  rewrite length_take in Hk. rewrite take_take, Nat.min_l in HF by lia.
  assert (HD : map packet.data packs = take k msgs).
  { clear -HF. induction HF as [|p m l ms (_ & Hp & _) _ IH]; [done|]. cbn. by rewrite Hp, IH. }
  assert (HS : stream_of r' ++ rest ++ queued w' = frames_of (drop k msgs)).
  { apply (app_inv_head (frames_of (take k msgs))). rewrite <- frames_split.
    rewrite S', <- app_assoc, E2. unfold frames_of. rewrite app_assoc, <- concat_app, <- map_app.
    replace (take k msgs ++ drop k (take j msgs)) with (take j msgs).
    - rewrite <- concat_app, <- map_app, take_drop. done.
    - rewrite <- (take_drop k (take j msgs)) at 1. by rewrite take_take, Nat.min_l by lia. }
  exists r', ec, k, packs. do 5 (split; [done|]). intros Hi' -> Hq. rewrite Hq in HS. simpl in HS.
  rewrite app_nil_r in HS. unfold stream_of in HS. rewrite Hi', app_nil_r in HS.
  assert (drop k msgs = []) as HN.
  { apply (settled_none r'); [apply I' | rewrite C'; by apply Forall_drop | done]. }
  by rewrite HD, <- (app_nil_r (take k msgs)), <- HN, take_drop.
Qed.
End comm.

(** ** A witness *)

(** One packet of two bytes; the transport takes it all at once. *)
Lemma socket_delivers_packets_witness :
  exists r' ec k packs, socket.handle_async_read 60 0
      (sim_st (sim_socket hlen_packet.make 0 0) (mk_sim ∅ {[5 := [0; 0; 0; 3; 1; 2; 3]]} [] 9)) = Ok (r', ec)
    /\ map packet.data packs = take k [[1; 2; 3]].
Proof.
  set (r := sim_st _ _).
  assert (exists w', packets_sent (sim_st (sim_socket hlen_packet.make 0 0) (mk_sim ∅ ∅ [] 9)) [sample_packet] w'
    /\ sent w' = [0; 0; 0; 3; 1; 2; 3]) as (w' & R & HS).
  { eexists. split.
    - eapply (sent_packet _ _ _ 0 sample_packet 0 []); [apply sample_packet_wf | done | vm_compute; intuition discriminate
        | vm_compute; reflexivity | apply sent_none].
    - vm_compute. reflexivity. }
  destruct (socket_delivers_packets (sim_st (sim_socket hlen_packet.make 0 0) (mk_sim ∅ ∅ [] 9)) w' r
    [sample_packet] [] 0 60 R) as (r' & ec & k & packs & E & _ & _ & D & _).
  - constructor; [|by constructor | by apply not_elem_of_nil | done | done].
    split; [exact I|]. split; [apply (sim_ring_wf []); simpl; lia | reflexivity].
  - done.
  - reflexivity.
  - assert (W : bytes_ringbuffer.wf (sim_ring [])) by (apply sim_ring_wf; simpl; lia).
    constructor; [|apply frames.incomplete_nil; done | done | done | done |].
    + constructor; try done. cbn. repeat constructor; done.
    + repeat (constructor; [by apply not_elem_of_nil|]). constructor.
  - reflexivity.
  - rewrite HS. reflexivity.
  - repeat constructor; vm_compute; intuition discriminate.
  - vm_compute. reflexivity.
  - exists r', ec, k, packs. split; [exact E | exact D].
Defined.
