(* ===== verification/SocketQuiet.v ===== *)
(** * SocketQuiet: what most methods of a socket leave alone

    The judgement [tame]: a method that ends leaves the locks of its thread, the
    configuration, the descriptor and the state of the socket as they were and shuts no
    direction open again ([quiet]); and it never waits for a lock that its own thread
    holds.  Every method of [socket_base] and [socket] but those of the life cycle
    (SocketLife) is [tame]. *)

From S2P Require Import Prelude Effects Bytes Ring Packet Address Tlp Wcp SocketData SockFns SocketBase Socket SocketTlp.

(** ** Pure computations do not wait *)
Section calm.
Context `{memory}.

Lemma ring_skip_calm r s : calm (bytes_ringbuffer.skip r s).
Proof. unfold bytes_ringbuffer.skip. calm_tac. Qed.
#[local] Hint Resolve ring_skip_calm : calm.
Lemma ring_read_calm r s mv : calm (bytes_ringbuffer.read r s mv).
Proof. unfold bytes_ringbuffer.read. calm_tac. Qed.
Lemma ring_write_calm r bytes s : calm (bytes_ringbuffer.write r bytes s).
Proof. unfold bytes_ringbuffer.write. calm_tac. Qed.
Lemma ring_make_calm n : calm (bytes_ringbuffer.make n).
Proof. unfold bytes_ringbuffer.make. calm_tac. Qed.
Lemma packet_len_calm p : calm (packet.len p).
Proof. unfold packet.len. calm_tac. Qed.
Lemma packet_reset_calm p : calm (packet.reset p).
Proof. unfold packet.reset. calm_tac. Qed.
#[local] Hint Resolve packet_reset_calm : calm.
Lemma packet_make_calm r l : calm (packet.make r l).
Proof. unfold packet.make, packet._init_buffer. calm_tac. Qed.
#[local] Hint Resolve packet_make_calm packet_len_calm ring_read_calm : calm.
Lemma packet_make_right_calm r : calm (packet.make_right r).
Proof. apply packet_make_calm. Qed.
Lemma packet_forward_calm p n : calm (packet.forward_write_index p n).
Proof. unfold packet.forward_write_index. calm_tac. Qed.
Lemma extend_left_calm p : calm (packet._extend_leftbuffer_capacity__ p).
Proof. unfold packet._extend_leftbuffer_capacity__. calm_tac. Qed.
#[local] Hint Resolve packet_make_right_calm packet_forward_calm extend_left_calm : calm.
Lemma extend_left_loop_calm fuel : forall p n, calm (packet.extend_left_loop fuel p n).
Proof. induction fuel; intros p n; cbn [packet.extend_left_loop]; calm_tac. Qed.
#[local] Hint Resolve extend_left_loop_calm : calm.
Lemma write_left_calm p b : calm (packet.write_left p b).
Proof. unfold packet.write_left. calm_tac. Qed.
Lemma write_left_T_calm n p v : calm (packet.write_left_T n p v).
Proof. unfold packet.write_left_T. calm_tac. Qed.
#[local] Hint Resolve write_left_calm write_left_T_calm : calm.

(** *** The framing protocols, over a ring *)
Lemma hlen_encode_calm p : calm (hlen_packet.encode p).
Proof. unfold hlen_packet.encode. calm_tac. Qed.
Lemma take_packet_calm (r : bytes_ringbuffer.t) n : calm (hlen_packet.take_packet r n).
Proof. unfold hlen_packet.take_packet. calm_tac. Qed.
Lemma try_read_T_calm n (r : bytes_ringbuffer.t) : calm (try_read_T n r).
Proof. unfold try_read_T, read_T. calm_tac. Qed.
#[local] Hint Resolve take_packet_calm try_read_T_calm : calm.
Lemma hlen_loop_calm fuel : forall d (r : bytes_ringbuffer.t) l n, calm (hlen_packet.decode_loop fuel d r l n).
Proof. induction fuel; intros d r l n; cbn [hlen_packet.decode_loop]; calm_tac. Qed.
Lemma hlen_decode_calm d (r : bytes_ringbuffer.t) n : calm (hlen_packet.decode_packets d r n).
Proof. apply hlen_loop_calm. Qed.
Lemma stream_loop_calm fuel : forall c (r : bytes_ringbuffer.t) l n, calm (stream.decode_loop fuel c r l n).
Proof. induction fuel; intros c r l n; cbn [stream.decode_loop]; calm_tac. Qed.
Lemma stream_decode_calm (r : bytes_ringbuffer.t) n : calm (stream.decode_packets r n).
Proof. unfold stream.decode_packets. calm_tac. apply stream_loop_calm. Qed.
End calm.
#[export] Hint Resolve ring_skip_calm ring_read_calm ring_write_calm ring_make_calm packet_len_calm : calm.

(** A protocol whose functions do not wait. *)
Class calm_tlp `{tlp_abstract T} : Prop := {
  calm_hello (d : T) : calm (handshake_make_hello_packet d);
  calm_encode (d : T) p : calm (tlp_encode d p);
  calm_decode (d : T) rb n ec : calm (tlp_decode_packets d rb n ec)
}.
#[export] Hint Resolve calm_hello calm_encode calm_decode : calm.

#[local] Hint Resolve hlen_encode_calm hlen_decode_calm stream_decode_calm : calm.
#[export] Instance hlen_calm `{memory} : calm_tlp (T := hlen_packet.t).
Proof. split; intros; cbn [handshake_make_hello_packet tlp_encode tlp_decode_packets hlen_tlp]; calm_tac. Qed.
#[export] Instance stream_calm `{memory} : calm_tlp (T := unit).
Proof. split; intros; cbn [handshake_make_hello_packet tlp_encode tlp_decode_packets stream_tlp]; calm_tac. Qed.

(** *** The system calls *)
Section prompt.
Context `{system K}.

Lemma sys_prompt {A} (f : K -> K * A) : prompt (sys f).
Proof. intros e. unfold sys. by destruct (f (kern e)). Qed.
#[local] Hint Resolve sys_prompt : prompt.
Ltac prompt_tac := repeat match goal with
  | |- prompt (_ ≫= _) => apply prompt_bind; [|intros ?]
  | |- prompt (fail _) => apply prompt_fail; discriminate
  | |- prompt (match ?x with _ => _ end) => destruct x
  | |- prompt (let _ := _ in _) => cbv zeta
  | |- prompt _ => solve [eauto with prompt]
  end.

Lemma send_loop_prompt fuel : forall fd b fl t ec, prompt (standard_socket.send_loop fuel fd b fl t ec).
Proof. induction fuel; intros fd b fl t ec; cbn [standard_socket.send_loop]; prompt_tac. Qed.
Lemma recv_loop_prompt fuel : forall fd n fl ec, prompt (standard_socket.recv_loop fuel fd n fl ec).
Proof. induction fuel; intros fd n fl ec; cbn [standard_socket.recv_loop]; prompt_tac. Qed.
Lemma sendto_loop_prompt fuel : forall fd b a fl ec, prompt (standard_socket.sendto_loop fuel fd b a fl ec).
Proof. induction fuel; intros fd b a fl ec; cbn [standard_socket.sendto_loop]; prompt_tac. Qed.
Lemma recvfrom_loop_prompt fuel : forall fd n fl a ec, prompt (standard_socket.recvfrom_loop fuel fd n fl a ec).
Proof. induction fuel; intros fd n fl a ec; cbn [standard_socket.recvfrom_loop]; prompt_tac. Qed.
#[local] Hint Resolve send_loop_prompt recv_loop_prompt sendto_loop_prompt recvfrom_loop_prompt : prompt.

(** No call of the table waits. *)
Record prompt_fns (f : sock_fns K) : Prop := {
  p_socket a b c : prompt (m_fn_socket f a b c);
  p_connect fd a : prompt (m_fn_connect f fd a);
  p_bind fd a : prompt (m_fn_bind f fd a);
  p_shutdown fd a : prompt (m_fn_shutdown f fd a);
  p_close fd : prompt (m_fn_close f fd);
  p_listen fd n : prompt (m_fn_listen f fd n);
  p_accept fd : prompt (m_fn_accept f fd);
  p_getsockopt fd a b : prompt (m_fn_getsockopt f fd a b);
  p_setsockopt fd a b c : prompt (m_fn_setsockopt f fd a b c);
  p_getsockname fd : prompt (m_fn_getsockname f fd);
  p_send fd b ec fl : prompt (m_fn_send f fd b ec fl);
  p_recv fd n ec fl : prompt (m_fn_recv f fd n ec fl);
  p_sendto fd b a ec fl : prompt (m_fn_sendto f fd b a ec fl);
  p_recvfrom fd n a ec fl : prompt (m_fn_recvfrom f fd n a ec fl)
}.

Lemma standard_prompt : prompt_fns standard_socket.fns.
Proof.
  split; intros; cbn [standard_socket.fns m_fn_socket m_fn_connect m_fn_bind m_fn_shutdown m_fn_close m_fn_listen
    m_fn_accept m_fn_getsockopt m_fn_setsockopt m_fn_getsockname m_fn_send m_fn_recv m_fn_sendto m_fn_recvfrom];
    unfold standard_socket.socket, standard_socket.connect, standard_socket.bind, standard_socket.shutdown,
    standard_socket.close, standard_socket.listen, standard_socket.accept, standard_socket.getsockopt,
    standard_socket.setsockopt, standard_socket.getsockname, standard_socket.send, standard_socket.recv,
    standard_socket.sendto, standard_socket.recvfrom; prompt_tac.
Qed.
End prompt.
#[export] Hint Resolve sys_prompt : prompt.

(** ** The judgement *)
Section tame.
Context `{memory} `{WcpData.wcp_env} `{wcp_sockets} `{system K} `{tlp_abstract T}.
Local Abbreviation ST := (st T (senv K)).
Local Abbreviation MS := (M ST).
Import socket_base.

Definition core (s : socket T) :=
  (m_sm s, m_family s, m_type s, m_protocol s, m_addr s, m_bind_addr s, m_fd s, m_sbc s, m_state s,
   m_delay_wp s, m_rps_q s).

(** Shutting down is for good. *)
Definition shut_le (s s' : socket T) : Prop :=
  (is_read_shutdowned s = true -> is_read_shutdowned s' = true)
  /\ (is_write_shutdowned s = true -> is_write_shutdowned s' = true).

#[export] Instance shut_le_preorder : PreOrder shut_le.
Proof. split; [by intros s | intros s1 s2 s3 [R1 W1] [R2 W2]; split; auto]. Qed.

Definition quiet (w w' : ST) : Prop :=
  locks w' = locks w /\ core (so w') = core (so w) /\ shut_le (so w) (so w').

#[export] Instance quiet_preorder : PreOrder quiet.
Proof.
  split; [by intros w | intros w1 w2 w3 (L1 & C1 & S1) (L2 & C2 & S2)].
  split; [congruence|]. split; [congruence | by etrans].
Qed.

(** The locks [ls] are free. *)
Definition free (ls : list lock) (w : ST) : Prop := Forall (fun l => l ∉ locks w) ls.

Definition ready (p : protocol_type) (ls : list lock) (w : ST) : Prop :=
  m_protocol (so w) = p /\ free ls w /\ m_rps_q (so w) = [].

(** [p] is the protocol of the socket and [ls] the locks the method may take. *)
Definition tame {A} (p : protocol_type) (ls : list lock) (m : MS A) : Prop :=
  forall w, ready p ls w -> wlp (p = P_WCP) m w (fun w' _ => quiet w w').

Lemma quiet_refl w : quiet w w.
Proof. reflexivity. Qed.

Lemma quiet_set_env w e : quiet w (set_env e w).
Proof. by split. Qed.

Lemma quiet_ready p ls w w' : quiet w w' -> ready p ls w -> ready p ls w'.
Proof.
  intros (L & C & _) (P & F & R). unfold ready, free in *. rewrite L. injection C as _ _ _ -> _ _ _ _ _ _ ->.
  done.
Qed.

Section rules.
Context (p : protocol_type) (ls : list lock).

Lemma tame_ret {A} (a : A) : tame p ls (mret a).
Proof. intros w _. apply wlp_ret, quiet_refl. Qed.
Lemma tame_bind {A B} (m : MS A) (k : A -> MS B) :
  tame p ls m -> (forall a, tame p ls (k a)) -> tame p ls (m ≫= k).
Proof.
  intros Hm Hk w Hw. apply wlp_bind. eapply wlp_mono; [by apply Hm|]. intros w1 a Q1.
  eapply wlp_mono; [exact (Hk a w1 (quiet_ready p ls w w1 Q1 Hw))|].
  intros w2 b Q2. etrans; [exact Q1 | exact Q2].
Qed.
(** A method that reads the members knows the protocol. *)
Lemma tame_so {B} (k : socket T -> MS B) :
  (forall s, m_protocol s = p -> m_rps_q s = [] -> tame p ls (k s)) -> tame p ls (so_get id ≫= k).
Proof. intros Hk w Hw. apply wlp_bind, wlp_gets. by apply Hk; [apply Hw | apply Hw |]. Qed.
Lemma tame_gets {A} (f : ST -> A) : tame p ls (gets f).
Proof. intros w _. apply wlp_gets, quiet_refl. Qed.
Lemma tame_so_get {A} (f : socket T -> A) : tame p ls (so_get f).
Proof. apply tame_gets. Qed.
Lemma tame_fail {A} f : f <> Waits -> tame p ls (fail (A := A) f).
Proof. intros Hf w _. by apply wlp_fail. Qed.
Lemma tame_prompt {A} (r : res A) : calm r -> tame p ls (lift r).
Proof. intros Hr w _. unfold wlp, lift. destruct r as [a|f]; [apply quiet_refl|]. by intros ->. Qed.
Lemma tame_assert b : tame p ls (assertM b).
Proof. apply tame_prompt. by destruct b. Qed.
Lemma tame_upd (f : socket T -> socket T) :
  (forall s, core (f s) = core s /\ shut_le s (f s)) -> tame p ls (so_upd f).
Proof. intros Hf w _. apply wlp_modify. split; [done | apply Hf]. Qed.
Lemma tame_modify (f : ST -> ST) :
  (forall w, locks (f w) = locks w /\ so (f w) = so w) -> tame p ls (modify f).
Proof. intros Hf w _. apply wlp_modify. destruct (Hf w) as [L S]. unfold quiet. rewrite L, S. by split. Qed.
Lemma tame_env {A} (m : M (senv K) A) : prompt m -> tame p ls (in_env m).
Proof.
  intros Hm w _. unfold wlp, in_env, zoom. specialize (Hm (env w)).
  destruct (m (env w)) as [[e a]|f]; [apply quiet_set_env | by intros ->].
Qed.
(** The calls of [class wcp] may wait. *)
Lemma tame_env_wcp {A} (m : M (senv K) A) : p = P_WCP -> tame p ls (in_env m).
Proof. intros Hp w _. unfold wlp, in_env, zoom. by destruct (m (env w)) as [[e a]|f]; [apply quiet_set_env|]. Qed.
Lemma tame_fns {A} (f : sock_fns K -> M (senv K) A) (s : socket T) :
  m_protocol s = p -> (forall t, prompt_fns t -> prompt (f t)) -> tame p ls (in_env (f (fns_of s))).
Proof.
  intros Hp Hf. destruct (decide (p = P_WCP)) as [Hw|Hw].
  - by apply tame_env_wcp.
  - apply tame_env, Hf. unfold fns_of, _socket_fn_init. rewrite Hp, decide_False by done. apply standard_prompt.
Qed.
Lemma tame_when b (m : MS unit) : tame p ls m -> tame p ls (when b m).
Proof. intros Hm. destruct b; [done | apply tame_ret]. Qed.
Lemma tame_iter {X} (body : X -> MS unit) l : (forall x, tame p ls (body x)) -> tame p ls (iterM body l).
Proof. intros Hb. induction l as [|x l IH]; [apply tame_ret | by apply tame_bind]. Qed.
Lemma tame_weaken {A} ls' (m : MS A) :
  tame p ls' m -> forallb (fun l => bool_decide (l ∈ ls)) ls' = true -> tame p ls m.
Proof.
  intros Hm Hl w (P & F & R). apply Hm. split; [done|]. split; [|done].
  apply Forall_forall. intros l Hin. unfold free in F. rewrite Forall_forall in F. apply F.
  rewrite forallb_forall in Hl. specialize (Hl l). rewrite bool_decide_eq_true in Hl. apply Hl.
  by apply list_elem_of_In.
Qed.
End rules.

Definition without (l : lock) (ls : list lock) : list lock := filter (fun l' => l' <> l) ls.

(** The lock is taken, free by assumption, and given back. *)
Lemma wlp_with_lock {A} N l (m : MS A) (w : ST) (Q : ST -> A -> Prop) : l ∉ locks w ->
  wlp N m (set_locks (l :: locks w) w) (fun w' a => locks w' = l :: locks w /\ Q (set_locks (locks w) w') a) ->
  wlp N (with_lock l m) w Q.
Proof.
  intros Hl Hm. unfold with_lock, acquire, release. apply wlp_bind, wlp_bind, wlp_gets.
  rewrite bool_decide_false by done. apply wlp_modify, wlp_bind. eapply wlp_mono; [exact Hm|].
  intros w1 a (L1 & HQ). apply wlp_bind, wlp_modify, wlp_ret.
  assert (filter (fun l' => l' <> l) (locks w1) = locks w) as ->; [|done].
  rewrite L1, filter_cons_False by (intros C; by apply C). apply filter_all.
  apply Forall_forall. by intros x Hx ->.
Qed.

Lemma tame_with_lock {A} p ls l (m : MS A) : bool_decide (l ∈ ls) = true ->
  tame p (without l ls) m -> tame p ls (with_lock l m).
Proof.
  intros Hl Hm w (P & F & R). apply bool_decide_eq_true in Hl. unfold free in F. rewrite Forall_forall in F.
  apply wlp_with_lock; [by apply F|]. eapply wlp_mono; [apply Hm|].
  - split; [done|]. split; [|done]. apply Forall_forall. intros l' [Hn Hin]%list_elem_of_filter.
    simpl. apply not_elem_of_cons. split; [done | by apply F].
  - intros w' a (L & C & S). split; [done|]. by split.
Qed.
End tame.

(** An update that leaves [core] alone and clears no shutdown bit. *)
Ltac tame_upd_tac :=
  intros ?; split; [reflexivity|]; unfold shut_le, socket_base.is_read_shutdowned, socket_base.is_write_shutdowned;
  cbn [m_rflag m_wflag set_m_rflag set_m_wflag set_m_tlp set_m_sb set_m_rb set_m_async_wt set_m_rps_q_standby set_m_option];
  rewrite ?flag_on_set, ?flag_on_clear; split; (done || by intros ->).

(** One step of a method; the methods it calls are in the database [tame]. *)
Ltac tame_step :=
  match goal with
  | |- tame _ _ (so_get id ≫= _) => apply tame_so; intros ? ? ?
  | |- tame _ _ (_ ≫= _) => apply tame_bind; [|intros ?]
  | |- tame _ _ (mret _) => apply tame_ret
  | |- tame _ _ (assertM _) => apply tame_assert
  | |- tame _ _ (fail _) => apply tame_fail; discriminate
  | |- tame _ _ (gets _) => apply tame_gets
  | |- tame _ _ (so_get _) => apply tame_so_get
  | |- tame _ _ (lift _) => apply tame_prompt; solve [calm_tac]
  | |- tame _ _ (so_upd _) => apply tame_upd; solve [tame_upd_tac]
  | |- tame _ _ (modify _) => apply tame_modify; by intros ?
  | |- tame _ _ (trigger _) => apply tame_modify; by intros ?
  | |- tame _ _ (call _ _) => apply tame_modify; by intros ?
  | |- tame _ _ (call_error _ _ _) => apply tame_modify; by intros ?
  | |- tame _ _ (schedule _) => apply tame_modify; by intros ?
  | |- tame _ _ (when _ _) => apply tame_when
  | |- tame _ _ (iterM _ _) => apply tame_iter; intros ?
  | |- tame _ _ (with_lock _ _) => apply tame_with_lock; [reflexivity|]
  | |- tame _ _ (in_env (sys _)) => apply tame_env, sys_prompt
  | |- tame ?p ?ls (in_env ?m) =>
      match m with
      | context [socket_base.fns_of ?s] =>
          let f := eval pattern (socket_base.fns_of s) in m in
          match f with ?g _ => apply (tame_fns p ls g s); [done | intros ? []; done] end
      end
  | |- tame _ _ (match ?x with _ => _ end) => destruct x
  | |- tame _ _ (let _ := _ in _) => cbv zeta
  | |- tame _ _ _ => eapply tame_weaken; [solve [eauto with tame nocore] | reflexivity]
  end.
Ltac tame_tac := repeat tame_step.
Create HintDb tame discriminated.

(** ** The methods of [socket_base] *)
Section base.
Context `{memory} `{WcpData.wcp_env} `{wcp_sockets} `{system K} `{tlp_abstract T}.
Context (p : protocol_type).
Local Abbreviation MS := (M (st T (senv K))).
Import socket_base.

Lemma push_op_tame b o : tame p [] (push_op b o : MS unit).
Proof. unfold push_op. tame_tac. intros w. by destruct b. Qed.
#[local] Hint Resolve push_op_tame : tame.
Lemma watch_tame b flag fd c fn err : tame p [] (watch b flag fd c fn err : MS unit).
Proof. unfold watch. tame_tac. Qed.
Lemma unwatch_tame b flag fd : tame p [] (unwatch b flag fd : MS unit).
Proof. unfold unwatch. tame_tac. Qed.
#[local] Hint Resolve watch_tame unwatch_tame : tame.
Lemma end_read_tame : tame p [] (_end_async_read : MS unit).
Proof. unfold _end_async_read. tame_tac. Qed.
Lemma end_write_tame : tame p [] (_end_async_write : MS unit).
Proof. unfold _end_async_write. tame_tac. Qed.
#[local] Hint Resolve end_read_tame end_write_tame : tame.
Lemma end_async_connect_tame : tame p [L_WRITE] (end_async_connect : MS unit).
Proof. unfold end_async_connect. tame_tac. Qed.
Lemma end_async_handshake_tame : tame p [L_READ] (end_async_handshake : MS unit).
Proof. unfold end_async_handshake. tame_tac. Qed.
Lemma end_async_read_tame : tame p [L_READ] (end_async_read : MS unit).
Proof. unfold end_async_read. tame_tac. Qed.
Lemma end_async_write_tame : tame p [L_WRITE] (end_async_write : MS unit).
Proof. unfold end_async_write. tame_tac. Qed.
Lemma begin_async_connect_tame c fn err : tame p [L_WRITE] (begin_async_connect c fn err : MS unit).
Proof. unfold begin_async_connect. tame_tac. Qed.
Lemma begin_async_handshake_tame c fn err : tame p [L_READ] (begin_async_handshake c fn err : MS unit).
Proof. unfold begin_async_handshake. tame_tac. Qed.
Lemma begin_read_tame f c fn err : tame p [] (_begin_async_read f c fn err : MS unit).
Proof. unfold _begin_async_read. tame_tac. Qed.
Lemma begin_write_tame f c fn err : tame p [] (_begin_async_write f c fn err : MS unit).
Proof. unfold _begin_async_write. tame_tac. Qed.
#[local] Hint Resolve begin_read_tame begin_write_tame : tame.
Lemma begin_async_read_tame f c fn err : tame p [L_READ] (begin_async_read f c fn err : MS unit).
Proof. unfold begin_async_read. tame_tac. Qed.
Lemma begin_async_write_tame f c fn err : tame p [L_WRITE] (begin_async_write f c fn err : MS unit).
Proof. unfold begin_async_write. tame_tac. Qed.
Lemma get_tlp_tame : tame p [L_SOCKET] (get_tlp : MS (option T)).
Proof. unfold get_tlp. tame_tac. Qed.
Lemma set_tlp_tame tlp : tame p [L_SOCKET] (set_tlp tlp : MS unit).
Proof. unfold set_tlp. tame_tac. Qed.

(** Options. *)
Lemma set_option_bit_tame o v : tame p [] (set_option_bit o v : MS unit).
Proof. unfold set_option_bit. tame_tac. Qed.
#[local] Hint Resolve set_option_bit_tame : tame.
Lemma set_one_tame g level name o options : tame p [] (set_one g level name o options : MS Z).
Proof. unfold set_one. tame_tac. Qed.
Lemma set_mode_tame (s : socket T) v : m_protocol s = p -> tame p [] (set_nonblocking_mode s v : MS Z).
Proof.
  intros Hp. unfold set_nonblocking_mode, is_wcp. destruct (bool_decide_reflect (m_protocol s = P_WCP)) as [E|_].
  - repeat first [apply tame_bind; [|intros ?] | apply tame_env_wcp; congruence].
  - tame_tac.
Qed.
#[local] Hint Resolve set_one_tame set_mode_tame : tame.
Lemma set_nonblocking_tame options : tame p [] (set_nonblocking options : MS Z).
Proof. unfold set_nonblocking. tame_tac. Qed.
Lemma or_ret_tame ls (m k : MS Z) : tame p ls m -> tame p ls k -> tame p ls (or_ret m k).
Proof. intros Hm Hk. unfold or_ret. apply tame_bind; [done|]. intros r. destruct (r =? OK); [done | apply tame_ret]. Qed.
#[local] Hint Resolve set_nonblocking_tame : tame.
Lemma set_options_tame options : tame p [] (_set_options options : MS Z).
Proof. unfold _set_options. tame_tac; repeat apply or_ret_tame; tame_tac. Qed.
#[local] Hint Resolve set_options_tame : tame.
Lemma turnoff_nodelay_tame : tame p [L_SOCKET] (turnoff_nodelay : MS Z).
Proof. unfold turnoff_nodelay. tame_tac. Qed.
Lemma turnon_nodelay_tame : tame p [L_SOCKET] (turnon_nodelay : MS Z).
Proof. unfold turnon_nodelay. tame_tac. Qed.
Lemma turnon_nonblocking_tame : tame p [L_SOCKET] (turnon_nonblocking : MS Z).
Proof. unfold turnon_nonblocking. tame_tac. Qed.
Lemma turnoff_nonblocking_tame : tame p [L_SOCKET] (turnoff_nonblocking : MS Z).
Proof. unfold turnoff_nonblocking. tame_tac. Qed.
Lemma reuse_addr_tame : tame p [] (reuse_addr : MS Z).
Proof. unfold reuse_addr. tame_tac. Qed.
Lemma reuse_port_tame : tame p [] (reuse_port : MS Z).
Proof. unfold reuse_port. tame_tac. Qed.
Lemma set_snd_size_tame n : tame p [] (set_snd_buffer_size n : MS Z).
Proof. unfold set_snd_buffer_size. tame_tac. Qed.
Lemma set_rcv_size_tame n : tame p [] (set_rcv_buffer_size n : MS Z).
Proof. unfold set_rcv_buffer_size. tame_tac. Qed.
Lemma get_buffer_size_tame name n : tame p [] (get_buffer_size name n : MS (Z * Z)).
Proof. unfold get_buffer_size. tame_tac. Qed.
Lemma get_left_queue_tame r n : tame p [] (get_left_queue r n : MS (Z * Z)).
Proof. unfold get_left_queue. tame_tac. Qed.
Lemma get_left_rcv_queue_tame n : tame p [] (get_left_rcv_queue n : MS (Z * Z)).
Proof. unfold get_left_rcv_queue. tame_tac. Qed.
Lemma get_linger_tame b n : tame p [] (get_linger b n : MS (Z * bool * Z)).
Proof. unfold get_linger. tame_tac. Qed.
Lemma set_linger_tame b n : tame p [] (set_linger b n : MS Z).
Proof. unfold set_linger. tame_tac. Qed.
Lemma turnon_keep_alive_tame : tame p [] (turnon_keep_alive : MS Z).
Proof. unfold turnon_keep_alive. tame_tac. Qed.
Lemma turnoff_keep_alive_tame : tame p [] (turnoff_keep_alive : MS Z).
Proof. unfold turnoff_keep_alive. tame_tac. Qed.
#[local] Hint Resolve turnon_keep_alive_tame turnoff_keep_alive_tame : tame.
Lemma set_keep_alive_tame e v : tame p [] (set_keep_alive_vals e v : MS Z).
Proof. unfold set_keep_alive_vals. tame_tac. Qed.
Lemma get_keep_alive_tame e v : tame p [] (get_keep_alive_vals e v : MS (Z * keep_alive_vals)).
Proof. unfold get_keep_alive_vals. tame_tac. Qed.
Lemma getsockopt_tame l n : tame p [] (getsockopt l n : MS (Z * list Z)).
Proof. unfold getsockopt. tame_tac. Qed.
Lemma setsockopt_tame l n v : tame p [] (setsockopt l n v : MS Z).
Proof. unfold setsockopt. tame_tac. Qed.
Lemma set_tos_tame n : tame p [] (set_tos n : MS Z).
Proof. unfold set_tos. tame_tac. Qed.
Lemma get_tos_tame e n : tame p [] (get_tos e n : MS (Z * Z)).
Proof. unfold get_tos. tame_tac. Qed.

(** The halves of the end of a connection, accepting and the plain data calls. *)
Lemma shut_read_tame : tame p [] (shut_read : MS unit).
Proof. unfold shut_read. tame_tac. Qed.
Lemma shut_write_tame : tame p [] (shut_write : MS unit).
Proof. unfold shut_write. tame_tac. Qed.
#[local] Hint Resolve shut_read_tame shut_write_tame : tame.
Lemma shutdown_half_tame flag : tame p [L_READ; L_WRITE] (_shutdown flag : MS (Z * Z)).
Proof. unfold _shutdown. tame_tac. Qed.
#[local] Hint Resolve shutdown_half_tame : tame.
Lemma base_shutdown_tame flag ec : tame p [L_SOCKET; L_READ; L_WRITE] (shutdown flag ec : MS Z).
Proof. unfold shutdown. tame_tac. Qed.
Lemma accept_loop_tame fuel : forall n got ec, tame p [] (accept_loop fuel n got ec : MS (list (Z * address.t) * Z)).
Proof. induction fuel as [|fuel IH]; intros n got ec; cbn [accept_loop]; tame_tac. Qed.
#[local] Hint Resolve accept_loop_tame : tame.
Lemma base_accept_tame n : tame p [L_READ] (accept n : MS (list (Z * address.t) * Z)).
Proof. unfold accept. tame_tac. Qed.
Lemma get_local_addr_tame : tame p [] (get_local_addr : MS address.t).
Proof. unfold get_local_addr. tame_tac. Qed.
Lemma base_send_tame b ec flag : tame p [] (send b ec flag : MS (Z * Z)).
Proof. unfold send. tame_tac. Qed.
Lemma base_recv_tame n ec flag : tame p [] (recv n ec flag : MS (list Z * Z)).
Proof. unfold recv. tame_tac. Qed.
Lemma sendto_tame b a ec flag : tame p [] (sendto b a ec flag : MS (Z * Z)).
Proof. unfold sendto. tame_tac. Qed.
Lemma recvfrom_tame n a ec : tame p [] (recvfrom n a ec : MS (list Z * address.t * Z)).
Proof. unfold recvfrom. tame_tac. Qed.
End base.
#[export] Hint Resolve push_op_tame watch_tame unwatch_tame end_read_tame end_write_tame end_async_connect_tame end_async_handshake_tame end_async_read_tame end_async_write_tame begin_async_connect_tame begin_async_handshake_tame begin_read_tame begin_write_tame begin_async_read_tame begin_async_write_tame get_tlp_tame set_tlp_tame set_option_bit_tame set_one_tame set_mode_tame set_nonblocking_tame set_options_tame turnoff_nodelay_tame turnon_nodelay_tame turnon_nonblocking_tame turnoff_nonblocking_tame reuse_addr_tame reuse_port_tame set_snd_size_tame set_rcv_size_tame get_buffer_size_tame get_left_queue_tame get_left_rcv_queue_tame get_linger_tame set_linger_tame turnon_keep_alive_tame turnoff_keep_alive_tame set_keep_alive_tame get_keep_alive_tame getsockopt_tame setsockopt_tame set_tos_tame get_tos_tame shut_read_tame shut_write_tame shutdown_half_tame base_shutdown_tame accept_loop_tame base_accept_tame get_local_addr_tame base_send_tame base_recv_tame sendto_tame recvfrom_tame : tame.

(** ** The methods of [socket] *)
Section sock.
Context `{memory} `{WcpData.wcp_env} `{wcp_sockets} `{system K} `{tlp_abstract T} `{!calm_tlp (T := T)}.
Context (p : protocol_type).
Local Abbreviation MS := (M (st T (senv K))).
Import socket.

Lemma flush_timer_tame now : tame p [L_WRITE] (is_flush_timer_expired now : MS bool).
Proof. unfold is_flush_timer_expired. tame_tac. Qed.
Lemma flush_loop_tame fuel : forall a b c, tame p [] (flush_loop fuel a b c : MS (Z * Z * Z)).
Proof. induction fuel as [|fuel IH]; intros a b c; cbn [flush_loop]; tame_tac. Qed.
#[local] Hint Resolve flush_loop_tame : tame.
Lemma _flush_tame : tame p [] (_flush : MS (Z * Z * Z)).
Proof. unfold _flush. tame_tac. Qed.
#[local] Hint Resolve _flush_tame : tame.
Lemma flush_wait_tame fuel : forall a b c, tame p [] (flush_wait fuel a b c : MS (Z * Z)).
Proof. induction fuel as [|fuel IH]; intros a b c; cbn [flush_wait]; tame_tac. Qed.
#[local] Hint Resolve flush_wait_tame : tame.
Lemma flush_tame fuel a b c : tame p [L_WRITE] (flush fuel a b c : MS (Z * Z)).
Proof. unfold flush. tame_tac. Qed.
Lemma buffer_rest_tame b n : tame p [] (buffer_rest b n : MS Z).
Proof. unfold buffer_rest. tame_tac. Qed.
#[local] Hint Resolve flush_tame buffer_rest_tame : tame.
Lemma send_tame b ec flag : tame p [L_WRITE] (send b ec flag : MS (Z * Z)).
Proof. unfold send. tame_tac. Qed.
Lemma recv_tame n ec flag : tame p [L_READ] (recv n ec flag : MS (list Z * Z)).
Proof. unfold recv. tame_tac. Qed.
#[local] Hint Resolve send_tame : tame.
Lemma write_rounds_tame fuel : forall a, tame p [] (write_rounds fuel a : MS (Z * Z * Z)).
Proof. induction fuel as [|fuel IH]; intros a; cbn [write_rounds]; tame_tac. Qed.
#[local] Hint Resolve write_rounds_tame : tame.
Lemma handle_async_write_tame : tame p [L_WRITE] (handle_async_write : MS Z).
Proof. unfold handle_async_write. tame_tac. Qed.
Lemma send_packet_tame j o flag : tame p [L_WRITE] (send_packet j o flag : MS Z).
Proof. unfold send_packet. tame_tac. Qed.
Lemma pump_tame flag : tame p [] (_pump flag : MS Z).
Proof. unfold _pump. tame_tac. Qed.
#[local] Hint Resolve pump_tame : tame.
Lemma pump_round_tame f flag : tame p [] (pump_round f flag : MS (Z + Z)).
Proof. unfold pump_round. tame_tac. Qed.
Lemma send_out_tame j o ec : tame p [L_WRITE] (send_out j o ec : MS Z).
Proof. unfold send_out. tame_tac. Qed.
#[local] Hint Resolve pump_round_tame send_out_tame : tame.
Lemma receive_round_tame j f n flag : tame p [L_WRITE] (receive_round j f n flag : MS _).
Proof. unfold receive_round. tame_tac. Qed.
Lemma receive_code_tame n a b l : tame p [] (receive_code n a b l : MS Z).
Proof. unfold receive_code. tame_tac. Qed.
#[local] Hint Resolve receive_round_tame receive_code_tame : tame.
Lemma receive_rounds_tame fuel : forall j f n flag, tame p [L_WRITE] (receive_rounds fuel j f n flag : MS _).
Proof. induction fuel as [|fuel IH]; intros j f n flag; cbn [receive_rounds]; tame_tac. Qed.
#[local] Hint Resolve receive_rounds_tame : tame.
Lemma _receive_packets_tame fuel j n flag : tame p [L_WRITE] (_receive_packets fuel j n flag : MS _).
Proof. unfold _receive_packets. tame_tac. Qed.
#[local] Hint Resolve _receive_packets_tame : tame.
Lemma receive_packets_tame fuel j n flag : tame p [L_READ; L_WRITE] (receive_packets fuel j n flag : MS _).
Proof. unfold receive_packets. tame_tac. Qed.
Lemma read_rounds_tame fuel : forall j flag b,
  tame p [L_WRITE; L_RPS_Q_STANDBY] (read_rounds fuel j flag b : MS (Z * bool)).
Proof. induction fuel as [|fuel IH]; intros j flag b; cbn [read_rounds]; tame_tac. Qed.
#[local] Hint Resolve receive_packets_tame read_rounds_tame : tame.
Lemma handshake_rounds_tame fuel : forall j flag, tame p [L_WRITE] (handshake_rounds fuel j flag : MS Z).
Proof. induction fuel as [|fuel IH]; intros j flag; cbn [handshake_rounds]; tame_tac. Qed.
#[local] Hint Resolve handshake_rounds_tame : tame.
Lemma handle_async_handshake_tame fuel j : tame p [L_READ; L_WRITE] (handle_async_handshake fuel j : MS Z).
Proof. unfold handle_async_handshake. tame_tac. Qed.
Lemma handshake_wait_tame fuel : forall j v, tame p [L_READ; L_WRITE] (handshake_wait fuel j v : MS Z).
Proof. induction fuel as [|fuel IH]; intros j v; cbn [handshake_wait]; tame_tac. Qed.
#[local] Hint Resolve handle_async_handshake_tame handshake_wait_tame : tame.
Lemma tlp_handshake_tame fuel j c fn err : tame p [L_READ; L_WRITE] (tlp_handshake fuel j c fn err : MS Z).
Proof. unfold tlp_handshake. tame_tac. Qed.
Lemma flush_before_tame fuel t : tame p [L_WRITE] (flush_before fuel t : MS unit).
Proof. unfold flush_before. tame_tac. Qed.
#[local] Hint Resolve flush_before_tame : tame.
Lemma shutdown_tame fuel flag ec : tame p [L_SOCKET; L_READ; L_WRITE] (shutdown fuel flag ec : MS Z).
Proof. unfold shutdown. tame_tac. Qed.
Lemma accept_tame n : tame p [L_READ] (accept n : MS (list (socket T) * Z)).
Proof.
  unfold accept. repeat tame_step. apply tame_prompt. induction l as [|x l IH]; [apply calm_ok|].
  cbn [foldr]. apply calm_bind; [exact IH|]. intros l'. apply calm_bind; [|intros ?; apply calm_ok].
  unfold new_connected, _init, socket_base.make_connected. calm_tac.
Qed.
Lemma trigger_shutdown_tame f ec : tame p [] (trigger_shutdown f ec : MS unit).
Proof. unfold trigger_shutdown. tame_tac. Qed.
Lemma async_connect_error_tame code c : tame p [L_WRITE] (async_connect_error code c : MS unit).
Proof. unfold async_connect_error. tame_tac. Qed.
Lemma async_handshake_tame fuel j c : tame p [L_SOCKET; L_READ; L_WRITE] (async_handshake fuel j c : MS unit).
Proof. unfold async_handshake. tame_tac. Qed.
Lemma async_handshake_error_tame code c : tame p [] (async_handshake_error code c : MS unit).
Proof. unfold async_handshake_error. tame_tac. Qed.
Lemma drain_rounds_tame fuel : forall j, tame p [L_READ; L_WRITE] (drain_rounds fuel j : MS unit).
Proof. induction fuel as [|fuel IH]; intros j; cbn [drain_rounds]; tame_tac. Qed.
End sock.
#[export] Hint Resolve flush_timer_tame flush_loop_tame _flush_tame flush_wait_tame flush_tame buffer_rest_tame send_tame recv_tame write_rounds_tame handle_async_write_tame send_packet_tame pump_tame pump_round_tame send_out_tame receive_round_tame receive_code_tame receive_rounds_tame _receive_packets_tame receive_packets_tame read_rounds_tame handshake_rounds_tame handle_async_handshake_tame handshake_wait_tame tlp_handshake_tame flush_before_tame shutdown_tame accept_tame trigger_shutdown_tame async_connect_error_tame async_handshake_tame async_handshake_error_tame drain_rounds_tame : tame.
