(* ===== verification/SocketLife.v ===== *)
(** * SocketLife: the life of a socket

    The methods that move a socket along its life: [open], [bind], [listen],
    [connect], [close] and the callbacks that use them.
    - [sock_ok]: the well-formedness of a socket between two calls;
    - [edge], [life]: the diagram of its states, and what else never changes or
      changes once;
    - [op_step]: a call of any method, or a task run by the scheduler; a session is
      any sequence of them. *)

From S2P Require Import Prelude Effects Bytes Ring Packet Address Tlp Wcp SocketData SockFns SocketBase Socket SocketTlp SocketLaws SocketSim SocketQuiet.

(** ** States *)
Inductive phase : Type :=
| PH_NEW | PH_OPENED | PH_BINDED | PH_LISTEN | PH_CONNECTING | PH_CONNECTED | PH_DEAD.

(** The diagram.  A closed socket is not opened again: its descriptor stays set. *)
Inductive edge : phase -> phase -> Prop :=
| e_open : edge PH_NEW PH_OPENED
| e_bind : edge PH_OPENED PH_BINDED
| e_listen : edge PH_BINDED PH_LISTEN
| e_connecting p : p = PH_OPENED \/ p = PH_BINDED -> edge p PH_CONNECTING
| e_connected p : p = PH_OPENED \/ p = PH_BINDED \/ p = PH_CONNECTING -> edge p PH_CONNECTED
| e_close p : p <> PH_NEW -> edge p PH_DEAD.

Lemma dead_stays q p : rtc edge q p -> q = PH_DEAD -> p = PH_DEAD.
Proof.
  induction 1 as [|q p1 p2 E _ IH]; [done|]. intros ->. apply IH.
  inversion E; subst; done || intuition discriminate.
Qed.

Section life.
Context `{memory} `{WcpData.wcp_env} `{wcp_sockets} `{system K} `{tlp_abstract T} `{!calm_tlp (T := T)}.
Local Abbreviation ST := (st T (senv K)).
Local Abbreviation MS := (M ST).
Import socket_base.

Definition phase_of (s : socket T) : phase :=
  match m_state s with
  | S_CLOSED => if m_fd s =? -1 then PH_NEW else PH_DEAD
  | S_OPENED => PH_OPENED
  | S_BINDED => PH_BINDED
  | S_LISTEN => PH_LISTEN
  | S_CONNECTING => PH_CONNECTING
  | S_CONNECTED => PH_CONNECTED
  end.

(** The mode that goes with a state; a connect that failed leaves [SM_ACTIVE]. *)
Definition mode_ok (s : socket T) : Prop :=
  match m_state s with
  | S_CLOSED => m_fd s = -1 -> m_sm s = SM_NONE
  | S_OPENED | S_BINDED => m_sm s = SM_NONE \/ m_sm s = SM_ACTIVE
  | S_LISTEN => m_sm s = SM_LISTENER
  | S_CONNECTING => m_sm s = SM_ACTIVE
  | S_CONNECTED => m_sm s = SM_ACTIVE \/ m_sm s = SM_PASSIVE
  end.

Record sock_ok (s : socket T) : Prop := {
  ok_fd : m_fd s = -1 \/ 0 < m_fd s;
  ok_open : m_state s <> S_CLOSED -> 0 < m_fd s;
  ok_closed : m_state s = S_CLOSED -> is_read_shutdowned s = true /\ is_write_shutdowned s = true;
  ok_mode : mode_ok s;
  ok_sizes : rcv_size_ok (m_sbc s) = true /\ snd_size_ok (m_sbc s) = true;
  ok_queue : m_rps_q s = []
}.

Definition conf (s : socket T) := (m_family s, m_type s, m_protocol s, m_sbc s, m_delay_wp s).

Record life (s s' : socket T) : Prop := {
  life_conf : conf s' = conf s;
  life_fd : m_fd s <> -1 -> m_fd s' = m_fd s;
  life_phase : rtc edge (phase_of s) (phase_of s');
  life_shut : m_fd s <> -1 -> shut_le s s';
  life_mode : m_sm s <> SM_NONE -> m_sm s' = m_sm s
}.

#[export] Instance life_preorder : PreOrder life.
Proof.
  split; [intros s; split; try done; apply rtc_refl|].
  intros s1 s2 s3 [C1 F1 P1 S1 M1] [C2 F2 P2 S2 M2]. split.
  - congruence.
  - intros HF. specialize (F1 HF). rewrite F2; congruence.
  - by etrans.
  - intros HF. specialize (F1 HF). specialize (S1 HF). etrans; [exact S1 | apply S2; congruence].
  - intros HM. specialize (M1 HM). rewrite M2; congruence.
Qed.

Definition moves (w w' : ST) : Prop :=
  locks w' = locks w /\ sock_ok (so w') /\ life (so w) (so w').

(** Quiet methods keep everything. *)
Lemma quiet_moves w w' : quiet w w' -> sock_ok (so w) -> moves w w'.
Proof.
  intros (L & C & S) [Hf Ho Hc Hm Hs Hq]. unfold core in C.
  injection C as Esm Efam Ety Epr Ead Eba Efd Esb Est Edw Erq.
  assert (EP : phase_of (so w') = phase_of (so w)) by (unfold phase_of; by rewrite Est, Efd).
  split; [done|]. split.
  - constructor; unfold mode_ok; rewrite ?Est, ?Efd, ?Esm, ?Esb, ?Erq; try done.
    intros Hcl. destruct (Hc Hcl) as [R W]. by split; apply S.
  - constructor; try done.
    + unfold conf. congruence.
    + rewrite EP. apply rtc_refl.
Qed.

(** ** The judgement: what a method does to a well-formed socket *)
Definition alive {A} (ls : list lock) (m : MS A) : Prop :=
  forall w, sock_ok (so w) -> free ls w ->
    wlp (m_protocol (so w) = P_WCP) m w (fun w' _ => moves w w').

Lemma alive_tame {A} ls (m : MS A) : (forall p, tame p ls m) -> alive ls m.
Proof.
  intros Hm w Hs Hf. eapply wlp_mono; [apply Hm; split; [done|]; split; [done | apply Hs]|].
  intros w' a Q. by apply quiet_moves.
Qed.

Lemma moves_refl w : sock_ok (so w) -> moves w w.
Proof. intros Hs. by apply quiet_moves. Qed.

Lemma moves_free ls w w' : moves w w' -> free ls w -> free ls w'.
Proof. intros (L & _) F. unfold free. by rewrite L. Qed.

Lemma moves_trans w1 w2 w3 : moves w1 w2 -> moves w2 w3 -> moves w1 w3.
Proof. intros (L1 & _ & R1) (L2 & O2 & R2). split; [congruence|]. split; [done | by etrans]. Qed.

Lemma moves_protocol w w' : moves w w' -> m_protocol (so w') = m_protocol (so w).
Proof. intros (_ & _ & [C _ _ _ _]). by injection C. Qed.

(** A method called in the course of another. *)
Lemma alive_after {A} ls w w1 (m : MS A) : moves w w1 -> alive ls m -> free ls w1 ->
  wlp (m_protocol (so w) = P_WCP) m w1 (fun w' _ => moves w w').
Proof.
  intros M1 Hm Hf. specialize (Hm w1 (proj1 (proj2 M1)) Hf). rewrite (moves_protocol _ _ M1) in Hm.
  eapply wlp_mono; [exact Hm|]. intros w2 b M2. exact (moves_trans _ _ _ M1 M2).
Qed.

Lemma alive_bind {A B} ls (m : MS A) (k : A -> MS B) :
  alive ls m -> (forall a, alive ls (k a)) -> alive ls (m ≫= k).
Proof.
  intros Hm Hk w Hs Hf. apply wlp_bind. eapply wlp_mono; [by apply Hm|]. intros w1 a M1.
  apply (alive_after ls w w1); [done | apply Hk | exact (moves_free ls w w1 M1 Hf)].
Qed.

Lemma alive_weaken {A} ls' ls (m : MS A) :
  alive ls' m -> forallb (fun l => bool_decide (l ∈ ls)) ls' = true -> alive ls m.
Proof.
  intros Hm Hl w Hs F. apply Hm; [done|]. apply Forall_forall. intros l Hin. unfold free in F.
  rewrite Forall_forall in F. apply F. rewrite forallb_forall in Hl. specialize (Hl l).
  rewrite bool_decide_eq_true in Hl. apply Hl. by apply list_elem_of_In.
Qed.

Lemma alive_when ls b (m : MS unit) : alive ls m -> alive ls (when b m).
Proof. intros Hm. destruct b; [done|]. apply alive_tame. intros p. apply tame_ret. Qed.

(** A method under a lock, from its specification with the lock taken. *)
Lemma wlp_locked {A} N l (m : MS A) (w : ST) : l ∉ locks w ->
  wlp N m (set_locks (l :: locks w) w) (fun w' _ => moves (set_locks (l :: locks w) w) w') ->
  wlp N (with_lock l m) w (fun w' _ => moves w w').
Proof.
  intros Hl Hm. apply wlp_with_lock; [done|]. eapply wlp_mono; [exact Hm|].
  intros w' a (L & O & R). split; [done|]. by split.
Qed.

Lemma wlp_so {A} N (k : socket T -> MS A) (w : ST) Q : wlp N (k (so w)) w Q -> wlp N (so_get id ≫= k) w Q.
Proof. done. Qed.

(** A call through a function pointer changes the environment only. *)
Lemma wlp_fns {A} (f : sock_fns K -> M (senv K) A) (s : socket T) (w : ST) (Q : ST -> A -> Prop) :
  (forall t, prompt_fns t -> prompt (f t)) -> (forall e a, Q (set_env e w) a) ->
  wlp (m_protocol s = P_WCP) (in_env (f (fns_of s))) w Q.
Proof.
  intros Hf HQ. unfold wlp, in_env, zoom. unfold fns_of, _socket_fn_init.
  destruct (decide (m_protocol s = P_WCP)) as [Hp|Hp]; [by destruct (f _ (env w)) as [[e a]|]|].
  specialize (Hf _ standard_prompt (env w)). destruct (f _ (env w)) as [[e a]|fl]; [apply HQ | by intros ->].
Qed.

(** One step of the diagram. *)
Lemma advance (w w' : ST) : sock_ok (so w) -> locks w' = locks w -> conf (so w') = conf (so w) ->
  m_fd (so w') = m_fd (so w) -> m_rps_q (so w') = m_rps_q (so w) ->
  m_rflag (so w') = m_rflag (so w) -> m_wflag (so w') = m_wflag (so w) ->
  m_state (so w) <> S_CLOSED -> m_state (so w') <> S_CLOSED ->
  edge (phase_of (so w)) (phase_of (so w')) -> mode_ok (so w') ->
  (m_sm (so w') = m_sm (so w) \/ m_sm (so w) = SM_NONE) -> moves w w'.
Proof.
  intros [Hf Ho Hc Hm Hz Hq] L C F Q R W Hn Hn' E M S. split; [done|]. split.
  - constructor; rewrite ?F, ?Q; try done.
    + intros _. by apply Ho.
    + by injection C as _ _ _ -> _.
  - constructor; try done.
    + by apply rtc_once.
    + intros _. unfold shut_le, is_read_shutdowned, is_write_shutdowned. by rewrite R, W.
    + destruct S as [S|S]; [done|]. by intros Hne.
Qed.

(** A connect that fails leaves the socket in active mode. *)
Lemma remode (w w' : ST) : sock_ok (so w) -> locks w' = locks w -> so w' = set_m_sm SM_ACTIVE (so w) ->
  m_sm (so w) = SM_NONE -> m_state (so w) = S_OPENED \/ m_state (so w) = S_BINDED -> moves w w'.
Proof.
  intros [Hf Ho Hc Hm Hz Hq] L E S St. split; [done|]. rewrite E. split.
  - constructor; try done. unfold mode_ok. cbn. destruct St as [-> | ->]; by right.
  - constructor; try done; apply rtc_refl.
Qed.

Ltac wlp_step :=
  match goal with
  | |- wlp _ (so_get id ≫= _) _ _ => apply wlp_so; cbv beta
  | |- wlp _ (_ ≫= _) _ _ => apply wlp_bind
  | |- wlp _ (mret _) _ _ => apply wlp_ret
  | |- wlp _ (assertM _) _ _ => apply wlp_assert; intros ?
  | |- wlp _ (so_upd _) _ _ => apply wlp_modify
  | |- wlp _ (in_env ?m) _ _ =>
      match m with
      | context [fns_of ?s] =>
          let f := eval pattern (fns_of s) in m in
          match f with ?g _ => apply (wlp_fns g s); [intros ? []; done | intros ? ?] end
      end
  | |- wlp _ (match ?x with _ => _ end) _ _ => destruct x eqn:?
  end.
(** The ends of the branches of a method: nothing happened, or one step. *)
Ltac settle := first [by apply moves_refl | by apply quiet_moves; [apply quiet_set_env|]].
Ltac facts := unfold is_opened, is_closed, is_connecting, is_active in *;
  repeat match goal with E : bool_decide _ = true |- _ => apply bool_decide_eq_true in E end;
  cbn [so set_so set_locks set_env] in *.
Ltac step_tac := apply advance; try done; cbn [so set_so set_locks set_env] in *;
  try (unfold phase_of, mode_ok in *; cbn in *;
       repeat match goal with E : m_state ?s = _ |- _ => rewrite E in * end; solve [eauto using edge | intuition congruence]).

Lemma bind_alive addr : alive [L_SOCKET] (bind addr : MS Z).
Proof.
  intros w Hs Hf. apply Forall_cons in Hf as [Hl _]. unfold bind. apply wlp_locked; [done|].
  repeat wlp_step; try settle. facts. step_tac.
Qed.
Lemma listen_alive n : alive [L_SOCKET] (listen n : MS Z).
Proof.
  intros w Hs Hf. apply Forall_cons in Hf as [Hl _]. unfold listen. apply wlp_locked; [done|].
  repeat wlp_step; try settle; facts; step_tac.
Qed.
Lemma handle_connected_alive : alive [L_SOCKET] (handle_async_connected : MS unit).
Proof.
  intros w Hs Hf. apply Forall_cons in Hf as [Hl _]. unfold handle_async_connected. apply wlp_locked; [done|].
  repeat wlp_step. facts. step_tac.
Qed.
Lemma connect_alive addr : alive [L_SOCKET] (connect addr : MS Z).
Proof.
  intros w Hs Hf. apply Forall_cons in Hf as [Hl _]. unfold connect, _connect. apply wlp_locked; [done|].
  repeat wlp_step; try settle; facts; try by apply remode.
  all: destruct H4 as [E|E]; step_tac.
Qed.
Lemma async_connect_alive addr c fn err : alive [L_SOCKET; L_WRITE] (async_connect addr c fn err : MS Z).
Proof.
  unfold async_connect. apply alive_bind; [apply alive_tame; intros p; tame_tac|]. intros rt.
  destruct (negb (rt =? OK)); [apply alive_tame; intros p; apply tame_ret|].
  apply alive_bind; [eapply alive_weaken; [apply connect_alive | reflexivity]|].
  intros rt'. apply alive_tame. intros p. tame_tac.
Qed.

(** *** [open]

    The options [open] sets are those the socket already has: nothing is set. *)
Lemma should_set_same o b : should_set o o b = false.
Proof. unfold should_set. by destruct (flag_on o b). Qed.

Lemma set_options_same (w : ST) : 0 <= m_fd (so w) -> _set_options (m_option (so w)) w = Ok (w, OK).
Proof.
  intros Hf. assert (HS : forall g level name o, set_one g level name o (m_option (so w)) w = Ok (w, OK)).
  { intros. unfold set_one, so_get, mbind, M_bind, gets, id. by rewrite should_set_same. }
  assert (HN : set_nonblocking (m_option (so w)) w = Ok (w, OK)).
  { unfold set_nonblocking, so_get, mbind, M_bind, gets, id. by rewrite should_set_same. }
  assert (HR : forall m k : MS Z, m w = Ok (w, OK) -> k w = Ok (w, OK) -> or_ret m k w = Ok (w, OK)).
  { intros m k Hm Hk. unfold or_ret, mbind, M_bind. by rewrite Hm. }
  unfold _set_options. unfold so_get at 1, mbind, M_bind, gets at 1, id. rewrite (proj2 (Z.ltb_ge _ _)) by done.
  repeat apply HR; try apply HS; try done; destruct (decide _); done || apply HS.
Qed.
(** [open_fd] answers a code and leaves the socket, or gives it its descriptor. *)
Lemma open_fd_spec (w : ST) : free [L_READ; L_WRITE] w ->
  wlp (m_protocol (so w) = P_WCP) open_fd w (fun w' rt =>
    (rt <> OK /\ exists e, w' = set_env e w)
    \/ (rt = OK /\ locks w' = locks w
        /\ exists fd, 0 < fd /\ so w' = set_m_wflag 0 (set_m_rflag 0 (set_m_fd fd (so w))))).
Proof.
  intros Hf. apply Forall_cons in Hf as [HR [HW _]%Forall_cons]. unfold open_fd. repeat wlp_step; try done.
  - left. split; [intros ->; discriminate | by eexists].
  - apply wlp_with_lock; [done|]. repeat wlp_step. split; [done|]. repeat wlp_step.
    apply wlp_with_lock; [done|]. repeat wlp_step. split; [done|]. repeat wlp_step.
    right. split; [done|]. split; [done|]. exists a. split; [|done]. by apply Z.ltb_lt.
  - left. split; [done|]. exists (env w). by destruct w.
Qed.

Lemma opened_moves (w w' : ST) fd : sock_ok (so w) -> m_state (so w) = S_CLOSED -> m_fd (so w) = -1 -> 0 < fd ->
  locks w' = locks w ->
  so w' = set_m_state S_OPENED (set_m_wflag 0 (set_m_rflag 0 (set_m_fd fd (so w)))) -> moves w w'.
Proof.
  intros [Hf Ho Hc Hm Hz Hq] St Ef Hfd L E. unfold mode_ok in Hm. rewrite St in Hm. split; [done|]. rewrite E. split; constructor; try done.
  - right. exact Hfd.
  - left. by apply Hm.
  - apply rtc_once. unfold phase_of. cbn. rewrite St, Ef. apply e_open.
Qed.

Lemma open_alive : alive [L_SOCKET; L_READ; L_WRITE] (open : MS Z).
Proof.
  intros w Hs Hf. apply Forall_cons in Hf as [Hl [HR [HW _]%Forall_cons]%Forall_cons]. unfold open.
  apply wlp_locked; [done|]. set (w1 := set_locks _ w). repeat wlp_step. facts. apply Z.eqb_eq in H5.
  unfold or_ret at 1. apply wlp_bind. eapply wlp_mono; [apply (open_fd_spec w1)|].
  { repeat constructor; by apply not_elem_of_cons. }
  intros w2 rt [(Hn & e & ->)|(-> & L2 & fd & Hfd & E2)].
  { rewrite (proj2 (Z.eqb_neq _ _)) by done. apply wlp_ret, quiet_moves; [apply quiet_set_env | done]. }
  change (OK =? OK) with true. cbn iota. wlp_step. unfold or_ret at 1. apply wlp_bind.
  unfold wlp at 1. rewrite set_options_same by (rewrite E2; cbn; lia). change (OK =? OK) with true. cbn iota.
  do 2 wlp_step. set (w3 := set_so _ w2).
  assert (M3 : moves w1 w3) by (apply (opened_moves w1 w3 fd); try done; by cbn; rewrite E2).
  apply (alive_after [] w1 w3); [done| | by constructor].
  apply alive_tame. intros p. tame_tac; repeat apply or_ret_tame; tame_tac.
Qed.

(** *** [close] *)
Lemma close_moves (w w' : ST) : sock_ok (so w) -> m_state (so w) <> S_CLOSED ->
  is_read_shutdowned (so w) = true -> is_write_shutdowned (so w) = true ->
  locks w' = locks w -> so w' = set_m_state S_CLOSED (so w) -> moves w w'.
Proof.
  intros [Hf Ho Hc Hm Hz Hq] Hn R W L E. specialize (Ho Hn). split; [done|]. rewrite E.
  assert (m_fd (so w) <> -1) by lia. split; constructor; try done.
  { unfold mode_ok. cbn. by intros. }
  apply rtc_once. unfold phase_of at 2. cbn. rewrite (proj2 (Z.eqb_neq _ _)) by done. apply e_close.
  unfold phase_of. by destruct (m_state (so w)).
Qed.

Lemma _close_spec ec (w : ST) : sock_ok (so w) ->
  is_read_shutdowned (so w) = true -> is_write_shutdowned (so w) = true ->
  wlp (m_protocol (so w) = P_WCP) (_close ec) w (fun w' _ => moves w w').
Proof.
  intros Hs R W. unfold _close. repeat wlp_step; [by apply moves_refl|].
  apply close_moves; try done. unfold is_closed in *. by apply bool_decide_eq_false in Heqb.
Qed.

(** A direction is shut down under its lock. *)
Lemma locked_ends {A} p l (m : MS A) (P : socket T -> Prop) (w : ST) : ready p [l] w ->
  (forall w1, ready p [] w1 -> wlp (p = P_WCP) m w1 (fun w' _ => quiet w1 w' /\ P (so w'))) ->
  wlp (p = P_WCP) (with_lock l m) w (fun w' _ => quiet w w' /\ P (so w')).
Proof.
  intros (Hp & Hf & Hr) Hm. apply Forall_cons in Hf as [Hl _]. apply wlp_with_lock; [done|].
  eapply wlp_mono; [apply Hm; split; [done|]; split; [constructor | done]|].
  intros w' a ((L & C & S) & HP). split; [done|]. by split.
Qed.

Lemma upd_ends p (f : socket T -> socket T) (m : MS unit) (P : socket T -> Prop) (w : ST) :
  (forall s, core (f s) = core s /\ shut_le s (f s)) -> (forall s, P (f s)) ->
  (forall s s', shut_le s s' -> P s -> P s') -> tame p [] m -> ready p [] w ->
  wlp (p = P_WCP) (so_upd f;; m) w (fun w' _ => quiet w w' /\ P (so w')).
Proof.
  intros Hf HP Hle Hm Hw. apply wlp_bind. eapply wlp_mono.
  { instantiate (1 := fun w' _ => quiet w w' /\ P (so w')). apply wlp_modify. split; [|apply HP].
    split; [done | apply Hf]. }
  intros w1 _ [Q1 P1]. eapply wlp_mono; [exact (Hm w1 (quiet_ready p [] w w1 Q1 Hw))|].
  intros w2 u Q2. split; [exact (PreOrder_Transitive _ _ _ Q1 Q2)|].
  exact (Hle _ _ (proj2 (proj2 Q2)) P1).
Qed.

Lemma shut_read_ends p (w : ST) : ready p [] w ->
  wlp (p = P_WCP) shut_read w (fun w' _ => quiet w w' /\ is_read_shutdowned (so w') = true).
Proof.
  intros Hw. unfold shut_read. apply (upd_ends p _ _ (fun s => is_read_shutdowned s = true)); try done.
  - tame_upd_tac.
  - intros s. unfold is_read_shutdowned. cbn. by rewrite flag_on_set, orb_true_r.
  - by intros s s' [R _] HR; apply R.
  - tame_tac.
Qed.
Lemma shut_write_ends p (w : ST) : ready p [] w ->
  wlp (p = P_WCP) shut_write w (fun w' _ => quiet w w' /\ is_write_shutdowned (so w') = true).
Proof.
  intros Hw. unfold shut_write. apply (upd_ends p _ _ (fun s => is_write_shutdowned s = true)); try done.
  - tame_upd_tac.
  - intros s. unfold is_write_shutdowned. cbn. by rewrite flag_on_set, orb_true_r.
  - by intros s s' [_ W] HW; apply W.
  - tame_tac.
Qed.

Lemma ready_ok ls (w : ST) : sock_ok (so w) -> free ls w -> ready (m_protocol (so w)) ls w.
Proof. intros Hs Hf. split; [done|]. split; [done | apply Hs]. Qed.

(** Both directions are shut down, each under its lock, before anything else. *)
Lemma after_shut {A B C} (m1 : MS A) (m2 : A -> MS B) (k : A -> B -> MS C) (w : ST) :
  let N := m_protocol (so w) = P_WCP in
  sock_ok (so w) -> free [L_READ; L_WRITE] w ->
  (forall p w1, ready p [] w1 -> wlp (p = P_WCP) m1 w1 (fun w' _ => quiet w1 w' /\ is_read_shutdowned (so w') = true)) ->
  (forall a p w1, ready p [] w1 ->
     wlp (p = P_WCP) (m2 a) w1 (fun w' _ => quiet w1 w' /\ is_write_shutdowned (so w') = true)) ->
  (forall w2 a b, moves w w2 -> is_read_shutdowned (so w2) = true -> is_write_shutdowned (so w2) = true ->
     wlp N (k a b) w2 (fun w' _ => moves w w')) ->
  wlp N (a ← with_lock L_READ m1; b ← with_lock L_WRITE (m2 a); k a b) w (fun w' _ => moves w w').
Proof.
  intros N Hs Hf H1' H2' Hk. assert (HR : ready (m_protocol (so w)) [L_READ] w).
  { apply ready_ok; [done|]. by apply Forall_cons in Hf as [? _]; constructor. }
  apply wlp_bind. eapply wlp_mono; [apply (locked_ends _ L_READ m1 (fun s => is_read_shutdowned s = true) w HR), H1'|].
  intros w1 a [Q1 R1]. assert (HW : ready (m_protocol (so w)) [L_WRITE] w1).
  { apply (quiet_ready _ _ w w1 Q1), ready_ok; [done|]. by apply Forall_cons in Hf as [_ ?]. }
  apply wlp_bind. eapply wlp_mono; [apply (locked_ends _ L_WRITE (m2 a) (fun s => is_write_shutdowned s = true) w1 HW), H2'|].
  intros w2 b [Q2 W2]. apply Hk; [|by apply Q2 | done].
  apply quiet_moves; [|done]. exact (PreOrder_Transitive _ _ _ Q1 Q2).
Qed.

Lemma base_close_alive ec : alive [L_SOCKET; L_READ; L_WRITE] (close ec : MS Z).
Proof.
  intros w Hs Hf. apply Forall_cons in Hf as [Hl [HR [HW _]%Forall_cons]%Forall_cons]. unfold close.
  apply wlp_locked; [done|]. set (w1 := set_locks _ w).
  apply (after_shut shut_read (fun _ => shut_write) (fun _ _ => _close ec) w1 Hs).
  - repeat constructor; by apply not_elem_of_cons.
  - apply shut_read_ends.
  - intros _. apply shut_write_ends.
  - intros w2 _ _ M2 R2 W2. pose proof (_close_spec ec w2 (proj1 (proj2 M2)) R2 W2) as HC.
    rewrite (moves_protocol _ _ M2) in HC. eapply wlp_mono; [exact HC|].
    intros w3 c M3. exact (moves_trans _ _ _ M2 M3).
Qed.

(** A value computed before the direction is shut. *)
Lemma shut_with p (g : socket T -> Z) (m : MS unit) (P : socket T -> Prop) (w : ST) : ready p [] w ->
  (forall w1, ready p [] w1 -> wlp (p = P_WCP) m w1 (fun w' _ => quiet w1 w' /\ P (so w'))) ->
  wlp (p = P_WCP) (s ← so_get id; m;; mret (g s)) w (fun w' _ => quiet w w' /\ P (so w')).
Proof.
  intros Hw Hm. apply wlp_bind, wlp_gets, wlp_bind. eapply wlp_mono; [by apply Hm|].
  intros w1 u [Q1 P1]. by apply wlp_ret.
Qed.

Lemma close_alive fuel ec : alive [L_SOCKET; L_READ; L_WRITE] (socket.close fuel ec : MS Z).
Proof.
  intros w Hs Hf. apply Forall_cons in Hf as [Hl [HR [HW _]%Forall_cons]%Forall_cons]. unfold socket.close.
  apply wlp_locked; [done|]. set (w1 := set_locks _ w).
  assert (F1 : free [L_READ; L_WRITE] w1) by (repeat constructor; by apply not_elem_of_cons).
  wlp_step. destruct (is_closed _); [by apply wlp_ret, moves_refl|].
  apply wlp_bind. eapply wlp_mono.
  { apply (alive_after [L_WRITE] w1 w1 (socket.flush_before fuel _)); [by apply moves_refl| |].
    - apply alive_tame. intros p. tame_tac.
    - by apply Forall_cons in F1 as [_ ?]. }
  intros w2 u M2. pose proof (moves_protocol _ _ M2) as HP.
  change (m_protocol (so w) = P_WCP) with (m_protocol (so w1) = P_WCP). rewrite <- HP.
  eapply wlp_mono; [apply (after_shut _ (fun f1 => s ← so_get id; shut_write;; mret _) (fun f1 sflag => _) w2)|].
  - apply M2.
  - exact (moves_free _ _ _ M2 F1).
  - intros p w0 Hw. by apply (shut_with p _ shut_read (fun s => is_read_shutdowned s = true)), shut_read_ends.
  - intros a p w0 Hw. by apply (shut_with p _ shut_write (fun s => is_write_shutdowned s = true)), shut_write_ends.
  - intros w3 _ sflag M3 R3 W3. wlp_step. apply wlp_bind. rewrite <- (moves_protocol _ _ M3).
    eapply wlp_mono; [exact (_close_spec ec w3 (proj1 (proj2 M3)) R3 W3)|]. intros w4 closert M4.
    pose proof (moves_trans _ _ _ M3 M4) as M5. rewrite (moves_protocol _ _ M3).
    apply (alive_after [] w2 w4); [done| | by constructor]. apply alive_tame. intros p. tame_tac.
  - intros w3 c M3. exact (moves_trans _ _ _ M2 M3).
Qed.

(** *** [handle_async_read] *)
Lemma trigger_loop : forall l (w : ST), m_rps_q (so w) = l ->
  exists w', iterM (fun o => trigger (packet_event o);;
      so_upd (fun s => set_m_rps_q (drop 1 (m_rps_q s)) s)) l w = Ok (w', tt)
    /\ locks w' = locks w /\ so w' = set_m_rps_q [] (so w).
Proof.
  induction l as [|o l IH]; intros w Hq.
  - exists w. split; [done|]. split; [done|]. destruct w as [[]]. cbn in *. by rewrite Hq.
  - set (w1 := set_so (set_m_rps_q l (so w)) (set_trace (trace w ++ [Triggered (packet_event o)]) w)).
    destruct (IH w1 eq_refl) as (w' & E & L & S). exists w'. split; [|by rewrite L, S].
    cbn [iterM]. unfold mbind, M_bind, trigger, so_upd, modify. cbn [so set_trace]. rewrite Hq. exact E.
Qed.

Lemma give_out_alive : alive [L_RPS_Q_STANDBY] (socket.swap_arrived;; socket.trigger_arrived : MS unit).
Proof.
  intros w Hs Hf. apply Forall_cons in Hf as [Hl _]. pose proof (ok_queue _ Hs) as Hq.
  assert (HQ : forall w1 : ST, locks w1 = locks w ->
    (exists l sb, so w1 = set_m_rps_q_standby sb (set_m_rps_q l (so w))) ->
    wlp (m_protocol (so w) = P_WCP) socket.trigger_arrived w1 (fun w' _ => moves w w')).
  { intros w1 L1 (l & sb & E1). unfold socket.trigger_arrived. wlp_step.
    destruct (trigger_loop _ w1 eq_refl) as (w' & E & L' & S'). unfold wlp. rewrite E.
    apply quiet_moves; [|done]. split; [by rewrite L'|]. rewrite S', E1. split; [|by split].
    unfold core. cbn. by rewrite Hq. }
  apply wlp_bind. unfold socket.swap_arrived. wlp_step. rewrite Hq.
  change (0 <? zlen []) with false. cbn [when]. do 2 wlp_step. apply wlp_with_lock; [done|]. wlp_step. unfold when.
  destruct (0 <? zlen _); repeat wlp_step; (split; [done|]); apply HQ; try done.
  - eexists _, _. reflexivity.
  - exists (m_rps_q (so w)), (m_rps_q_standby (so w)). cbn. by destruct (so w).
Qed.

Lemma alive_with_lock {A} ls l (m : MS A) : bool_decide (l ∈ ls) = true ->
  alive (without l ls) m -> alive ls (with_lock l m).
Proof.
  intros Hl Hm w Hs F. apply bool_decide_eq_true in Hl. unfold free in F. rewrite Forall_forall in F.
  apply wlp_locked; [by apply F|]. apply (Hm (set_locks (l :: locks w) w) Hs).
  apply Forall_forall. intros l' [Hn Hin]%list_elem_of_filter.
  simpl. apply not_elem_of_cons. split; [done | by apply F].
Qed.
End life.
#[export] Hint Resolve bind_alive listen_alive handle_connected_alive connect_alive async_connect_alive open_alive
  base_close_alive close_alive give_out_alive : tame.

(** A method is alive when it is [tame], or by its parts. *)
Ltac alive_step :=
  match goal with
  | |- alive _ _ => solve [apply alive_tame; intros ?; tame_tac]
  | |- alive _ _ => eapply alive_weaken; [solve [eauto with tame nocore] | reflexivity]
  | |- alive _ (_ ≫= _) => apply alive_bind; [|intros ?]
  | |- alive _ (with_lock _ _) => apply alive_with_lock; [reflexivity|]
  | |- alive _ (when _ _) => apply alive_when
  | |- alive _ (match ?x with _ => _ end) => destruct x
  end.
Ltac alive_tac := repeat alive_step.

(** ** The callbacks and the tasks *)
Section callbacks.
Context `{memory} `{WcpData.wcp_env} `{wcp_sockets} `{system K} `{tlp_abstract T} `{!calm_tlp (T := T)}.
Local Abbreviation ST := (st T (senv K)).
Local Abbreviation MS := (M ST).
Import socket.

Definition all_locks : list lock := [L_SOCKET; L_READ; L_WRITE; L_RPS_Q; L_RPS_Q_STANDBY].

Lemma handle_async_read_alive fuel j :
  alive [L_READ; L_WRITE; L_RPS_Q; L_RPS_Q_STANDBY] (handle_async_read fuel j : MS Z).
Proof. unfold handle_async_read. alive_tac. Qed.
#[local] Hint Resolve handle_async_read_alive : tame.
Lemma async_connected_alive fuel j c : alive all_locks (async_connected fuel j c : MS unit).
Proof. unfold async_connected. alive_tac. Qed.
Lemma async_read_alive fuel j : alive all_locks (async_read fuel j : MS unit).
Proof. unfold async_read. alive_tac. Qed.
Lemma async_write_alive fuel j : alive all_locks (async_write fuel j : MS unit).
Proof. unfold async_write. alive_tac. Qed.
Lemma async_error_alive fuel code : alive all_locks (async_error fuel code : MS unit).
Proof. unfold async_error. alive_tac. Qed.
Lemma rdwr_check_alive fuel ec : alive all_locks (__rdwr_check fuel ec : MS unit).
Proof. unfold __rdwr_check. alive_tac. Qed.
#[local] Hint Resolve async_connected_alive async_read_alive async_write_alive async_error_alive
  rdwr_check_alive : tame.
Lemma run_io_event_alive fuel j fn c : alive all_locks (run_io_event fuel j fn c : MS unit).
Proof. unfold run_io_event. alive_tac. Qed.
Lemma run_io_error_alive fuel err code c : alive all_locks (run_io_error fuel err code c : MS unit).
Proof. unfold run_io_error. alive_tac. Qed.
#[local] Hint Resolve run_io_event_alive run_io_error_alive : tame.
Lemma run_task_alive fuel j t : alive all_locks (run_task fuel j t : MS unit).
Proof. unfold run_task. alive_tac. Qed.
End callbacks.
#[export] Hint Resolve handle_async_read_alive run_io_event_alive run_io_error_alive : tame.

(** ** Sessions *)
Section session.
Context `{memory} `{WcpData.wcp_env} `{wcp_sockets} `{system K} `{tlp_abstract T} `{!calm_tlp (T := T)}.
Local Abbreviation ST := (st T (senv K)).
Local Abbreviation MS := (M ST).
Import socket_base socket.

(** The methods a user, a listener or the observer calls. *)
Inductive public : forall {A : Type}, MS A -> Prop :=
| pub_open : public open
| pub_bind a : public (bind a)
| pub_listen n : public (listen n)
| pub_connect a : public (connect a)
| pub_async_connect a c fn err : public (async_connect a c fn err)
| pub_accept n : public (accept n)
| pub_base_close ec : public (socket_base.close ec)
| pub_base_shutdown flag ec : public (socket_base.shutdown flag ec)
| pub_close fuel ec : public (close fuel ec)
| pub_shutdown fuel flag ec : public (shutdown fuel flag ec)
| pub_base_send b ec flag : public (socket_base.send b ec flag)
| pub_base_recv n ec flag : public (socket_base.recv n ec flag)
| pub_sendto b a ec flag : public (sendto b a ec flag)
| pub_recvfrom n a ec : public (recvfrom n a ec)
| pub_send b ec flag : public (send b ec flag)
| pub_recv n ec flag : public (recv n ec flag)
| pub_flush fuel l ec t : public (flush fuel l ec t)
| pub_timer now : public (is_flush_timer_expired now)
| pub_send_packet j o flag : public (send_packet j o flag)
| pub_receive_packets fuel j n flag : public (receive_packets fuel j n flag)
| pub_tlp_handshake fuel j c fn err : public (tlp_handshake fuel j c fn err)
| pub_get_tlp : public get_tlp
| pub_set_tlp t : public (set_tlp t)
| pub_handle_connected : public handle_async_connected
| pub_handle_handshake fuel j : public (handle_async_handshake fuel j)
| pub_handle_read fuel j : public (handle_async_read fuel j)
| pub_handle_write : public handle_async_write
| pub_begin_connect c fn err : public (begin_async_connect c fn err)
| pub_begin_handshake c fn err : public (begin_async_handshake c fn err)
| pub_begin_read f c fn err : public (begin_async_read f c fn err)
| pub_begin_write f c fn err : public (begin_async_write f c fn err)
| pub_end_connect : public end_async_connect
| pub_end_handshake : public end_async_handshake
| pub_end_read : public end_async_read
| pub_end_write : public end_async_write
| pub_turnoff_nodelay : public turnoff_nodelay
| pub_turnon_nodelay : public turnon_nodelay
| pub_turnon_nonblocking : public turnon_nonblocking
| pub_turnoff_nonblocking : public turnoff_nonblocking
| pub_reuse_addr : public reuse_addr
| pub_reuse_port : public reuse_port
| pub_set_snd n : public (set_snd_buffer_size n)
| pub_set_rcv n : public (set_rcv_buffer_size n)
| pub_get_size name n : public (get_buffer_size name n)
| pub_left_queue r n : public (get_left_queue r n)
| pub_left_rcv_queue n : public (get_left_rcv_queue n)
| pub_get_linger b n : public (get_linger b n)
| pub_set_linger b n : public (set_linger b n)
| pub_keep_alive_on : public turnon_keep_alive
| pub_keep_alive_off : public turnoff_keep_alive
| pub_set_keep_alive e v : public (set_keep_alive_vals e v)
| pub_get_keep_alive e v : public (get_keep_alive_vals e v)
| pub_getsockopt l n : public (getsockopt l n)
| pub_setsockopt l n v : public (setsockopt l n v)
| pub_set_tos n : public (set_tos n)
| pub_get_tos e n : public (get_tos e n)
| pub_local_addr : public get_local_addr
| pub_event fuel j fn c : public (run_io_event fuel j fn c)
| pub_error fuel err code c : public (run_io_error fuel err code c).

Lemma public_alive {A} (m : MS A) : public m -> alive all_locks m.
Proof. destruct 1; alive_step. Qed.

(** A method, a task the socket left for the scheduler, or the world around. *)
Inductive op_step : ST -> ST -> Prop :=
| op_method {A} (m : MS A) w w' a : public m -> m w = Ok (w', a) -> op_step w w'
| op_task fuel j l1 t l2 w w' : tasks w = l1 ++ t :: l2 ->
    run_task fuel j t (set_tasks (l1 ++ l2) w) = Ok (w', tt) -> op_step w w'
| op_world e w : op_step w (set_env e w).

Lemma free_nil ls (w : ST) : locks w = [] -> free ls w.
Proof. intros L. apply Forall_forall. intros l _. rewrite L. apply not_elem_of_nil. Qed.

Lemma op_step_moves w w' : op_step w w' -> sock_ok (so w) -> locks w = [] -> moves w w'.
Proof.
  destruct 1 as [A m w w' a Hm E|fuel j l1 t l2 w w' Ht E|e w]; intros Hs L.
  - exact (wlp_ok _ m w w' a _ (public_alive m Hm w Hs (free_nil _ w L)) E).
  - exact (wlp_ok _ _ _ w' tt _ (run_task_alive fuel j t (set_tasks (l1 ++ l2) w) Hs (free_nil all_locks _ L)) E).
  - apply quiet_moves; [apply quiet_set_env | done].
Qed.

Definition session : ST -> ST -> Prop := rtc op_step.

Lemma session_moves w w' : session w w' -> sock_ok (so w) -> locks w = [] -> moves w w'.
Proof.
  induction 1 as [w|w w1 w2 S _ IH]; intros Hs L; [by apply moves_refl|].
  pose proof (op_step_moves w w1 S Hs L) as M1.
  apply (moves_trans w w1 w2); [done|]. apply IH; [apply M1|]. by rewrite (proj1 M1).
Qed.

(** A socket just constructed: without a descriptor, or over one that is connected. *)
Definition born (s : socket T) : Prop :=
  (exists sbc f t p o, new_dummy sbc f t p o = Ok s)
  \/ (exists fd a sm sbc f t p o, (sm = SM_ACTIVE \/ sm = SM_PASSIVE)
       /\ new_connected fd a sm sbc f t p o = Ok s).

Lemma born_ok s : born s -> sock_ok s.
Proof.
  intros [(sbc & f & t & p & o & E)|(fd & a & sm & sbc & f & t & p & o & Hsm & E)];
    unfold new_dummy, new_connected, make_dummy, make_connected in E.
  - res_inv. destruct r as [sb rb]. res_inv. constructor; try done. by left.
  - res_inv. destruct r as [sb rb]. res_inv. constructor; try done.
    + right. by apply Z.ltb_lt.
    + intros _. by apply Z.ltb_lt.
Qed.

(** C9: a socket is well formed whenever no method runs: over any session of calls, tasks and
    moves of the rest of the world, whatever the kernel and the protocol answer, the
    descriptor is -1 or positive and positive when the socket is not closed, the mode is the one
    of the state, a closed socket has both directions shut down, no packet waits in the
    queue of the listeners, and every lock has been given back. *)
Theorem socket_stays_well_formed s e (w' : ST) : born s ->
  session (mk_st s e [] [] [] [] []) w' -> sock_ok (so w') /\ locks w' = [].
Proof.
  intros Hb HS. destruct (session_moves _ _ HS (born_ok s Hb) eq_refl) as (L & O & _). by split.
Qed.

(** C8: the life of a socket: over any session it moves along the diagram only, so it is opened
    once, connected once and never comes back from [S_CLOSED]; its configuration never changes, a
    descriptor once given stays (a closed socket keeps its number), a mode once chosen stays, and a
    direction of a socket with a descriptor that is shut down stays shut. *)
Theorem socket_life_cycle (w w' : ST) : session w w' -> sock_ok (so w) -> locks w = [] ->
  rtc edge (phase_of (so w)) (phase_of (so w'))
  /\ conf (so w') = conf (so w)
  /\ (m_fd (so w) <> -1 -> m_fd (so w') = m_fd (so w) /\ shut_le (so w) (so w'))
  /\ (m_sm (so w) <> SM_NONE -> m_sm (so w') = m_sm (so w))
  /\ (m_state (so w) = S_CLOSED -> m_fd (so w) <> -1 ->
      m_state (so w') = S_CLOSED /\ is_write_shutdowned (so w') = true).
Proof.
  intros HS Hs L. destruct (session_moves w w' HS Hs L) as (_ & O & [C F P S M]).
  split; [done|]. split; [done|]. split; [auto|]. split; [done|]. intros Hc Hn.
  assert (HD : phase_of (so w) = PH_DEAD) by (unfold phase_of; by rewrite Hc, (proj2 (Z.eqb_neq _ _) Hn)).
  rewrite HD in P. apply dead_stays in P; [|done]. unfold phase_of in P.
  destruct (m_state (so w')) eqn:E; try done. split; [done|]. by apply (ok_closed _ O E).
Qed.

(** C10: a thread never waits for a lock it holds: no method and no task of a TCP or UDP socket,
    called without locks, ever asks for one of the five mutexes twice, whatever the kernel answers;
    the calls of [class wcp] are the only ones that may wait. *)
Theorem socket_never_deadlocks_itself {A} (m : MS A) (w : ST) : public m ->
  sock_ok (so w) -> locks w = [] -> m w = Fault Waits -> m_protocol (so w) = P_WCP.
Proof.
  intros Hm Hs L E. exact (wlp_waits _ m w _ (public_alive m Hm w Hs (free_nil _ w L)) E).
Qed.
End session.

(** ** Witnesses: a TCP socket opened, connected and closed *)
Definition new_socket (option : Z) : socket hlen_packet.t :=
  match socket.new_dummy sim_cfg F_PF_INET ST_STREAM P_TCP option with
  | Ok s => s
  | Fault _ => sim_socket hlen_packet.make 0 0
  end.
Definition sim0 : sim := mk_sim ∅ ∅ [] 9.
Definition new_st (option : Z) : st hlen_packet.t (senv sim) := sim_st (new_socket option) sim0.

(** The state a method leaves. *)
Definition after {A} (m : M (st hlen_packet.t (senv sim)) A) (w : st hlen_packet.t (senv sim)) :=
  match m w with Ok (w', _) => w' | Fault _ => w end.

Lemma after_run (m : M (st hlen_packet.t (senv sim)) Z) w a :
  match m w with Ok (_, b) => b =? a | Fault _ => false end = true -> m w = Ok (after m w, a).
Proof. unfold after. destruct (m w) as [[w' b]|f]; [|done]. by intros ->%Z.eqb_eq. Qed.

Lemma new_socket_born : born (new_socket 0).
Proof. left. exists sim_cfg, F_PF_INET, ST_STREAM, P_TCP, 0. reflexivity. Qed.

Definition connected_st := after (socket_base.connect 77) (after socket_base.open (new_st 0)).

Lemma connected_session : session (new_st 0) connected_st.
Proof.
  eapply rtc_l; [apply (op_method _ _ (after socket_base.open (new_st 0)) OK pub_open)|].
  { apply after_run. vm_compute. reflexivity. }
  apply rtc_once. apply (op_method _ _ _ OK (pub_connect 77)). apply after_run. vm_compute. reflexivity.
Qed.

Lemma connected_ok : sock_ok (so connected_st) /\ locks connected_st = [].
Proof.
  destruct (session_moves (new_st 0) connected_st connected_session (born_ok _ new_socket_born) eq_refl) as (L & O & _).
  split; [exact O | exact L].
Qed.

Lemma socket_stays_well_formed_witness : sock_ok (so connected_st) /\ m_state (so connected_st) = S_CONNECTED.
Proof.
  destruct (socket_stays_well_formed (new_socket 0) (mk_env sim0 no_wcp) connected_st new_socket_born connected_session)
    as [O _].
  split; [exact O | vm_compute; reflexivity].
Defined.

Lemma socket_life_cycle_witness :
  let w := after (socket.close 9 (-1)) connected_st in
  session (new_st 0) w /\ phase_of (so w) = PH_DEAD /\ rtc edge PH_NEW (phase_of (so w)).
Proof.
  set (w := after _ connected_st).
  assert (HS : session (new_st 0) w).
  { eapply rtc_r; [exact connected_session|]. apply (op_method _ _ _ 0 (pub_close 9 (-1))). apply after_run. vm_compute. reflexivity. }
  split; [exact HS|]. split; [vm_compute; reflexivity|].
  apply (socket_life_cycle (new_st 0) w HS (born_ok _ new_socket_born) eq_refl).
Defined.

Lemma socket_never_deadlocks_itself_witness :
  socket.close 9 (-1) connected_st <> Fault Waits.
Proof.
  intros E. pose proof (socket_never_deadlocks_itself (socket.close 9 (-1)) connected_st (pub_close 9 (-1))) as HD.
  assert (HP : m_protocol (so connected_st) = P_WCP) by (apply HD; [apply connected_ok | apply connected_ok | exact E]).
  vm_compute in HP. discriminate HP.
Defined.
