(* ===== verification/SocketErrors.v ===== *)
(** * SocketErrors: where the socket does not do what it means to

    Calls of the public methods, on states a program reaches, that fail an assertion, never
    end, or do nothing.
    - [open] does not apply the options the socket was made with;
    - a handshake message that arrives in two pieces makes the reader spin;
    - closing a non-blocking socket that is not connected fails an assertion;
    - a connect that failed cannot be tried again. *)

From S2P Require Import Prelude Effects Bytes Ring Packet Xxtea Address Tlp Dh DhProofs Wcp SocketData SockFns SocketBase Socket SocketTlp SocketLaws SocketSim SocketSendProofs SocketQuiet SocketLife.

(** ** The options of a socket that is opened *)
Section options.
Context `{memory} `{WcpData.wcp_env} `{wcp_sockets} `{system K} `{tlp_abstract T}.
Local Abbreviation ST := (st T (senv K)).
Local Abbreviation MS := (M ST).
Import socket_base.
Context (o : Z).

Definition with_option (w : ST) : ST := set_so (set_m_option o (so w)) w.

(** The method does the same whatever [m_option] holds. *)
Definition blind {A} (m : MS A) : Prop :=
  forall w, m (with_option w) = match m w with Ok (w', a) => Ok (with_option w', a) | Fault f => Fault f end.

Lemma blind_bind {A B} (m : MS A) (k : A -> MS B) : blind m -> (forall a, blind (k a)) -> blind (m ≫= k).
Proof.
  intros Hm Hk w. unfold mbind, M_bind. rewrite Hm. destruct (m w) as [[w' a]|f]; [apply Hk | done].
Qed.
Lemma blind_so {B} (k : socket T -> MS B) : (forall s, k (set_m_option o s) = k s) -> (forall s, blind (k s)) ->
  blind (so_get id ≫= k).
Proof. intros HE Hk w. unfold mbind, M_bind, so_get, gets, id. cbn. rewrite HE. apply Hk. Qed.
Lemma blind_ret {A} (a : A) : blind (mret a).
Proof. done. Qed.
Lemma blind_assert b : blind (assertM b).
Proof. intros w. unfold assertM, lift. by destruct b. Qed.
Lemma blind_upd f : (forall s, f (set_m_option o s) = set_m_option o (f s)) -> blind (so_upd f).
Proof. intros Hf w. unfold so_upd, modify, with_option. cbn. by rewrite Hf. Qed.
Lemma blind_env {A} (m : M (senv K) A) : blind (in_env m).
Proof. intros w. unfold in_env, zoom. cbn. by destruct (m (env w)) as [[e a]|f]. Qed.
Lemma blind_lock {A} l (m : MS A) : blind m -> blind (with_lock l m).
Proof.
  intros Hm. unfold with_lock. apply blind_bind; [|intros _; apply blind_bind; [done|]; by intros a].
  unfold acquire. intros w. unfold mbind, M_bind, gets. cbn. by destruct (bool_decide _).
Qed.
(** [open] hands [_set_options] what the socket already has. *)
Lemma set_own_options (rest : socket T -> MS Z) :
  (forall s, rest (set_m_option o s) = rest s) -> (forall s, blind (rest s)) ->
  blind (s ← so_get id; or_ret (_set_options (m_option s)) (rest s)).
Proof.
  intros HE Hk. assert (HS : forall w : ST, (s ← so_get id; or_ret (_set_options (m_option s)) (rest s)) w
    = if m_fd (so w) <? 0 then Ok (w, E_INVALID_STATE) else rest (so w) w).
  { intros w. unfold or_ret, mbind, M_bind, so_get at 1, gets at 1, id.
    destruct (Z.ltb_spec (m_fd (so w)) 0) as [Hl|Hl]; [|by rewrite set_options_same].
    unfold _set_options, mbind, M_bind, so_get, gets, id. by rewrite (proj2 (Z.ltb_lt _ _) Hl). }
  intros w. rewrite !HS. cbn [so with_option set_so m_fd set_m_option].
  destruct (m_fd (so w) <? 0); [done|]. rewrite HE. apply Hk.
Qed.
Lemma blind_or_ret (m k : MS Z) : blind m -> blind k -> blind (or_ret m k).
Proof. intros Hm Hk. apply blind_bind; [done|]. intros r. by destruct (r =? OK). Qed.

Ltac blind_step :=
  match goal with
  | |- blind (so_get id ≫= _) => apply blind_so; [done | intros ?]
  | |- blind (_ ≫= _) => apply blind_bind; [|intros ?]
  | |- blind (or_ret _ _) => apply blind_or_ret
  | |- blind (mret _) => apply blind_ret
  | |- blind (assertM _) => apply blind_assert
  | |- blind (so_upd _) => by apply blind_upd
  | |- blind (in_env _) => apply blind_env
  | |- blind (with_lock _ _) => apply blind_lock
  | |- blind (match ?x with _ => _ end) => destruct x
  end.

Lemma blind_open_fd : blind open_fd.
Proof. unfold open_fd. repeat blind_step. Qed.

(** [open] applies no option: whatever options the socket was made with, it makes the same
    system calls and answers the same, because it asks [_set_options] for the options the
    socket already has; a socket made with [OPTION_NON_BLOCKING] has a blocking descriptor, and
    [turnon_nonblocking] then answers [OK] without a call. *)
Theorem open_applies_no_option (w : ST) :
  open (with_option w) = match open w with Ok (w', rt) => Ok (with_option w', rt) | Fault f => Fault f end
  /\ (flag_on o OPTION_NON_BLOCKING = true -> L_SOCKET ∉ locks w -> turnon_nonblocking (with_option w) = Ok (with_option w, OK)).
Proof.
  split.
  - revert w. change (blind open). unfold open. apply blind_lock.
    apply blind_so; [done | intros s0]. do 2 (apply blind_bind; [apply blind_assert | intros _]).
    apply blind_or_ret; [apply blind_open_fd|]. apply set_own_options; [done|]. intros s.
    unfold set_snd_buffer_size, set_rcv_buffer_size. repeat blind_step.
  - intros Hn Hl. unfold turnon_nonblocking, with_lock, acquire, release, mbind, M_bind, gets, so_get, modify, id.
    cbn. rewrite bool_decide_false by done. cbn. rewrite Hn. unfold mret, M_ret. do 2 f_equal.
    unfold with_option, set_so. cbn. f_equal. rewrite decide_False by (intros C; by apply C).
    unfold set_locks. cbn. f_equal. apply (filter_all (fun l' => l' <> L_SOCKET)), Forall_forall. by intros x Hx ->.
Qed.
End options.

(** ** A handshake message in two pieces *)
Section spin.
Context `{memory} `{WcpData.wcp_env} `{wcp_sockets} `{system K}.
Context (little : bool) (rnd : nat -> list Z * Z * Z).
Context (cookie_context : list Z -> dh_symmetric_encrypt.DH_Context) (sizeof_DH_Context : Z).
Import socket_base dh_symmetric_encrypt.
#[local] Instance the_dh : tlp_abstract dh_protocol := dh_tlp little rnd cookie_context sizeof_DH_Context.
Local Abbreviation ST := (st dh_protocol (senv K)).

Definition awaits (d : dh_protocol) : Prop :=
  m_dhstate (dh_state d) = DH_HANDSHAKE
  /\ hlen_packet.m_parse_state (symmetric_encrypt.base (sym (dh_state d))) = hlen_packet.S_READ_LEN.

(** From [e] on every call of [recv] says that there is nothing to read. *)
Definition silent (s : socket dh_protocol) (e : senv K) : Prop :=
  exists S : senv K -> Prop, S e /\ forall n ec flag e, 0 < n -> S e ->
    exists e', m_fn_recv (fns_of s) (m_fd s) n ec flag e = Ok (e', ([], E_SOCKET_RECV_BLOCK)) /\ S e'.

(** The key exchange waits for a message of which the ring holds less than the length word, and the
    transport has nothing more for now. *)
Record waiting (w : ST) : Prop := {
  wt_tlp : exists d, m_tlp (so w) = Some d /\ awaits d;
  wt_data : is_data_socket (so w) = true;
  wt_nonblocking : is_nonblocking (so w) = true;
  wt_open : is_read_shutdowned (so w) = false;
  wt_piece : 0 < bytes_ringbuffer.count (m_rb (so w)) < 4;
  wt_room : 0 < bytes_ringbuffer.left_capacity (m_rb (so w));
  wt_size : 0 < rcv_size (m_sbc (so w));
  wt_silent : silent (so w) (env w)
}.

Lemma waiting_pump w flag : waiting w -> wp (socket._pump flag) w (fun w' ec =>
  ec = E_SOCKET_RECV_BLOCK /\ waiting w' /\ so w' = so w /\ locks w' = locks w).
Proof.
  intros Hw. unfold socket._pump. wp_simpl. split; [apply Hw|].
  rewrite (proj2 (Z.eqb_neq 0 _)) by (pose proof (wt_room w Hw); lia). cbv zeta.
  rewrite wp_bind. unfold socket_base.recv. wp_simpl.
  pose proof (wt_room w Hw). pose proof (wt_size w Hw).
  set (n := if _ : bool then _ else _). assert (Hn : 0 < n) by (subst n; by destruct (_ <=? _)).
  split; [by apply Z.ltb_lt|]. fold (is_read_shutdowned (so w)). rewrite (wt_open w Hw).
  rewrite wp_in_env. unfold wp at 1. destruct (wt_silent w Hw) as (S & HS & Hrecv).
  destruct (Hrecv n OK flag (env w) Hn HS) as (e' & -> & HS').
  cbn [zlen length]. change (0 <? zlen []) with false. wp_simpl. split; [done|]. split; [|done].
  destruct Hw; constructor; try done. by exists S.
Qed.

Lemma waiting_pump_round w flag : waiting w -> wp (socket.pump_round false flag) w (fun w' r =>
  (exists ec, r = inr ec) /\ waiting w' /\ so w' = so w /\ locks w' = locks w).
Proof.
  intros Hw. unfold socket.pump_round. cbn [orb]. destruct (flag_on flag F_RCV_ALWAYS_PUMP).
  - rewrite wp_bind. eapply wp_mono; [by apply waiting_pump|]. cbn beta. intros w1 ec (-> & W1 & S1 & L1).
    change (negb (_ || _)) with false. cbn iota. wp_simpl. rewrite (proj2 (Z.eqb_neq _ 0)).
    + wp_simpl. split; [by eexists | done].
    + pose proof (wt_piece w1 W1). lia.
  - wp_simpl. split; [by eexists | done].
Qed.

Lemma partial_decode d rb n ec : awaits d -> bytes_ringbuffer.count rb < 4 ->
  exists d', tlp_decode_packets d rb n ec = Ok (d', rb, [], OK, None) /\ awaits d'.
Proof.
  intros [Hs Hp] Hc. cbn [tlp_decode_packets the_dh dh_tlp]. destruct (rnd (drawn d)) as [[randoms r1] r2].
  unfold decode_packets. rewrite Hs. unfold hlen_packet.decode_packets. cbn [hlen_packet.decode_loop].
  rewrite Hp. unfold try_read_T. change (bq_count rb) with (bytes_ringbuffer.count rb).
  rewrite (proj2 (Z.ltb_lt _ (Z.of_nat 4))) by lia. res_simpl. eexists. split; [reflexivity|].
  by split.
Qed.

Lemma waiting_round w junk flag : waiting w ->
  wp (socket._receive_packets 1 junk 0 flag) w (fun w' r =>
    r = ([], E_TLP_TRY_AGAIN) /\ waiting w' /\ locks w' = locks w).
Proof.
  intros Hw. unfold socket._receive_packets. wp_simpl. pose proof (wt_piece w Hw) as Hp.
  rewrite (proj2 (Z.eqb_neq _ 0)) by lia. cbn [socket.receive_rounds]. rewrite wp_bind.
  unfold socket.receive_round. rewrite wp_bind. eapply wp_mono; [by apply waiting_pump_round|].
  cbn beta. intros w1 r ((pec & ->) & W1 & S1 & L1). wp_simpl.
  destruct (wt_tlp w1 W1) as (d & Ed & Hd). rewrite Ed, wp_bind.
  destruct (partial_decode d (m_rb (so w1)) 0 junk Hd) as (d' & E & Hd'); [rewrite S1; lia|].
  rewrite E. wp_simpl. change (negb (socket.tlp_state_ok OK)) with false. cbn iota.
  unfold socket.send_out. wp_simpl. change (zlen [] =? 0) with true. change (0 <? 0) with false.
  rewrite andb_false_r. cbn iota. unfold socket.receive_code. wp_simpl.
  cbn [so set_so m_rb set_m_rb]. rewrite (proj2 (Z.ltb_lt 0 _)) by (rewrite S1; lia).
  change (zlen [] =? 0) with true. cbn [andb]. split; [done|]. split; [|done].
  destruct W1 as [? ? ? ? ? ? ? ?]. constructor; try done. by exists d'.
Qed.

(** The loop never ends: the flag is 0 after the first round, so nothing is read any more. *)
Lemma waiting_spins fuel : forall junk flag w, waiting w ->
  socket.handshake_rounds fuel junk flag w = Fault Diverged.
Proof.
  induction fuel as [|fuel IH]; intros junk flag w Hw; [done|]. cbn [socket.handshake_rounds].
  destruct (proj1 (wp_run _ _ _) (waiting_round w junk flag Hw)) as (w' & r & E & -> & W' & _).
  unfold mbind, M_bind. rewrite E. change (zlen [] =? 0) with true. unfold assertM, lift. cbn [check].
  unfold so_get, gets, id. destruct (wt_tlp w' W') as (d & Ed & Hd & _). rewrite Ed.
  cbn [from_option SocketData.handshake_handshaking the_dh dh_tlp].
  unfold handshake_handshaking. rewrite Hd.
  change ((E_TLP_TRY_AGAIN =? E_TLP_TRY_AGAIN) || (E_TLP_TRY_AGAIN =? E_SOCKET_PUMP_TRY_AGAIN)) with true.
  cbn [andb]. by apply IH.
Qed.

(** A key exchange message that arrives in pieces hangs the thread that reads it: with one to
    three bytes of a frame in the ring and nothing more to read for now, [handle_async_handshake]
    never comes back; it asks [_receive_packets] for no packets ([size] is 0), takes the
    leftover bytes for a full array, and never reads the transport again, with the read mutex held. *)
Theorem handshake_piece_spins fuel junk (w : ST) : waiting w -> L_READ ∉ locks w ->
  socket.handle_async_handshake fuel junk w = Fault Diverged.
Proof.
  intros Hw Hl. unfold socket.handle_async_handshake, with_lock, acquire, mbind, M_bind, so_get, gets, id.
  rewrite (wt_data w Hw), (wt_nonblocking w Hw). unfold assertM, lift. cbn [check].
  rewrite bool_decide_false by done. unfold modify.
  assert (W' : waiting (set_locks (L_READ :: locks w) w)) by by destruct Hw.
  destruct (wt_tlp _ W') as (d & Ed & Hd & _). rewrite Ed.
  cbn [SocketData.handshake_done the_dh dh_tlp]. unfold handshake_done. rewrite Hd.
  rewrite bool_decide_false by done. by rewrite (waiting_spins fuel junk F_RCV_ALWAYS_PUMP _ W').
Qed.
End spin.

(** ** Ends by a failed assertion *)
Section dies.
Context `{memory} `{WcpData.wcp_env} `{wcp_sockets} `{system K} `{tlp_abstract T}.
Local Abbreviation ST := (st T (senv K)).
Local Abbreviation MS := (M ST).
Import socket_base.

Definition dies {A} (m : MS A) (w : ST) : Prop := m w = Fault AssertFailed.

Lemma dies_bind {A B} (m : MS A) (k : A -> MS B) w : wp m w (fun w' a => dies (k a) w') -> dies (m ≫= k) w.
Proof. unfold wp, dies, mbind, M_bind. by destruct (m w) as [[w' a]|f]. Qed.
Lemma dies_here {A B} (m : MS A) (k : A -> MS B) w : dies m w -> dies (m ≫= k) w.
Proof. unfold dies, mbind, M_bind. by intros ->. Qed.
Lemma dies_lock {A} l (m : MS A) w : l ∉ locks w -> dies m (set_locks (l :: locks w) w) -> dies (with_lock l m) w.
Proof.
  intros Hl Hm. unfold with_lock. apply dies_bind. unfold acquire. rewrite wp_bind, wp_gets.
  rewrite bool_decide_false by done. rewrite wp_modify. by apply dies_here.
Qed.
(** An assertion that may fail here or let the method go on to one that does. *)
Lemma dies_assert {B} b (k : unit -> MS B) w : (b = true -> dies (k tt) w) -> dies (assertM b ≫= k) w.
Proof. intros Hk. destruct b; [by apply Hk | done]. Qed.

(** What the calls before [_close] leave. *)
Definition kept (w w' : ST) : Prop :=
  locks w' = locks w /\ m_state (so w') = m_state (so w) /\ m_sm (so w') = m_sm (so w)
  /\ m_option (so w') = m_option (so w) /\ m_protocol (so w') = m_protocol (so w) /\ m_fd (so w') = m_fd (so w).

Lemma kept_unwatch (b : bool) flag fd (w : ST) : 0 < flag -> 0 < fd ->
  wp (unwatch b flag fd) w (fun w' _ => kept w w').
Proof.
  intros Hg Hf. unfold unwatch, push_op. wp_simpl. rewrite (proj2 (Z.ltb_lt _ _) Hg), (proj2 (Z.ltb_lt _ _) Hf).
  do 2 (split; [done|]). wp_simpl. cbn [o_fd]. rewrite (proj2 (Z.ltb_lt _ _) Hf). split; [done|]. by destruct b.
Qed.

Lemma kept_shut_read (w : ST) : 0 < m_fd (so w) -> wp shut_read w (fun w' _ => kept w w').
Proof.
  intros Hf. unfold shut_read, _end_async_read. wp_simpl. destruct (is_nonblocking _); wp_simpl; [|done].
  destruct (_ && _); wp_simpl; [|done]. eapply wp_mono; [by apply kept_unwatch|]. by intros w' u K1.
Qed.
Lemma kept_shut_write (w : ST) : 0 < m_fd (so w) -> wp shut_write w (fun w' _ => kept w w').
Proof.
  intros Hf. unfold shut_write, _end_async_write. wp_simpl. destruct (is_nonblocking _); wp_simpl; [|done].
  destruct (_ && _); wp_simpl; [|done]. eapply wp_mono; [by apply kept_unwatch|]. by intros w' u K1.
Qed.

(** A half of [close] under its lock. *)
Lemma kept_half {B} l (g : socket T -> B) (m : MS unit) (w : ST) : l ∉ locks w ->
  (forall w1, m_fd (so w1) = m_fd (so w) -> wp m w1 (fun w' _ => kept w1 w')) ->
  wp (with_lock l (s ← so_get id; m;; mret (g s))) w (fun w' _ => kept w w').
Proof.
  intros Hl Hm. apply wp_with_lock; [done|]. wp_simpl. eapply wp_mono; [by apply Hm|].
  intros w1 u (L & K1). cbn beta. wp_simpl. split; [done|]. by split.
Qed.

(** With an empty ring the flush before closing ends at once. *)
Lemma kept_flush fuel t (w : ST) : L_WRITE ∉ locks w -> bytes_ringbuffer.count (m_sb (so w)) = 0 ->
  wp (socket.flush_before (S fuel) t) w (fun w' _ => kept w w').
Proof.
  intros Hl Hc. unfold socket.flush_before. wp_simpl.
  destruct (is_nonblocking (so w) && is_data_socket (so w) && _) eqn:E; [|done].
  apply andb_prop in E as [[En Ed]%andb_prop _]. unfold socket.flush. rewrite !wp_bind, wp_so, En. cbn [negb].
  apply wp_with_lock; [done|]. cbn [socket.flush_wait]. unfold socket._flush. wp_simpl.
  split; [exact Ed|]. split; [exact En|]. cbn [so set_locks]. rewrite Hc. cbn. by split.
Qed.

Lemma kept_trans w1 w2 w3 : kept w1 w2 -> kept w2 w3 -> kept w1 w3.
Proof. unfold kept. intuition congruence. Qed.

Lemma close_or_dies ec (w : ST) : m_state (so w) <> S_CLOSED -> m_protocol (so w) <> P_WCP ->
  dies (_close ec) w \/ exists w' rt, _close ec w = Ok (w', rt).
Proof.
  intros Hc Hp. unfold dies, _close, mbind, M_bind, so_get, gets, id, is_closed. rewrite bool_decide_false by done.
  unfold in_env, zoom, fns_of, _socket_fn_init. rewrite decide_False by done.
  unfold m_fn_close, standard_socket.fns, standard_socket.close, mbind, M_bind, sys.
  destruct (sys_close _ _) as [k [r errno]]. unfold mret, M_ret, assertM, lift.
  destruct (_ =? OK); [right; eauto | by left].
Qed.

(** Everything [close] does before [_close]. *)
Lemma close_prefix {A} fuel t (k : Z -> MS A) (w : ST) : 0 < m_fd (so w) -> locks w = [L_SOCKET] ->
  bytes_ringbuffer.count (m_sb (so w)) = 0 ->
  (forall w' sflag, kept w w' -> dies (k sflag) w') ->
  dies (socket.flush_before (S fuel) t;;
        f1 ← with_lock L_READ (s ← so_get id; shut_read;; mret (if is_read_shutdowned s then 0 else SHUTDOWN_RD));
        sflag ← with_lock L_WRITE (s ← so_get id; shut_write;;
                                   mret (if is_write_shutdowned s then f1 else Z.lor f1 SHUTDOWN_WR));
        k sflag) w.
Proof.
  intros Hf L Hc Hk. assert (Hl : forall l (w' : ST), l <> L_SOCKET -> kept w w' -> l ∉ locks w').
  { intros l w' Hn (-> & _). rewrite L. apply not_elem_of_cons. split; [done | apply not_elem_of_nil]. }
  apply dies_bind. eapply wp_mono; [apply kept_flush; [by apply Hl | done]|]. intros w2 u K2.
  apply dies_bind. eapply wp_mono.
  { apply (kept_half L_READ _ shut_read); [by apply Hl|]. intros w' E. apply kept_shut_read. rewrite E.
    destruct K2 as (_ & _ & _ & _ & _ & ->). exact Hf. }
  intros w3 f1 K3. pose proof (kept_trans _ _ _ K2 K3) as K23. apply dies_bind. eapply wp_mono.
  { apply (kept_half L_WRITE _ shut_write); [by apply Hl|]. intros w' E. apply kept_shut_write. rewrite E.
    destruct K23 as (_ & _ & _ & _ & _ & ->). exact Hf. }
  intros w4 f2 K4. apply Hk. exact (kept_trans _ _ _ K23 K4).
Qed.

(** Closing without an error a non-blocking socket that is not connected and not a listener
    (one that is still connecting, say) closes the descriptor and then fails an assertion:
    [close] demands an error code of it, and its default is 0. *)
Theorem close_unconnected_asserts fuel (w : ST) : sock_ok (so w) -> locks w = [] ->
  is_nonblocking (so w) = true -> is_listener (so w) = false ->
  m_state (so w) <> S_CLOSED -> m_state (so w) <> S_CONNECTED -> m_protocol (so w) <> P_WCP ->
  bytes_ringbuffer.count (m_sb (so w)) = 0 -> socket.close (S fuel) OK w = Fault AssertFailed.
Proof.
  intros Hs L Hn Hli Hc Hco Hp H0c. pose proof (ok_open _ Hs Hc) as Hf.
  change (dies (socket.close (S fuel) OK) w). unfold socket.close. apply dies_lock; [rewrite L; apply not_elem_of_nil|].
  apply dies_bind. rewrite wp_so. unfold is_closed. rewrite bool_decide_false by done.
  apply close_prefix; [done | by cbn; rewrite L | done |]. intros w4 sflag (_ & S4 & M4 & O4 & P4 & F4).
  cbn [so set_locks] in S4, M4, O4, P4, F4. apply dies_bind. rewrite wp_so.
  destruct (close_or_dies OK w4) as [HD|(w5 & rt & E)]; [congruence | congruence | by apply dies_here|].
  apply dies_bind. unfold wp. rewrite E. unfold is_nonblocking in *. rewrite O4, Hn.
  unfold is_listener in *. rewrite M4, Hli. by rewrite S4, bool_decide_false by done.
Qed.

Lemma connect_leaves addr (w : ST) : L_SOCKET ∉ locks w ->
  wlp True (connect addr) w (fun w' rt => rt = E_INVALID_STATE \/ rt = E_SOCKET_INVALID_FAMILY
    \/ (m_sm (so w') = SM_ACTIVE /\ locks w' = locks w /\ (m_state (so w) = S_OPENED \/ m_state (so w) = S_BINDED))).
Proof.
  intros Hl. unfold connect. apply wlp_with_lock; [done|]. apply wlp_so. cbn [so set_locks].
  destruct (bool_decide_reflect (m_state (so w) = S_OPENED \/ m_state (so w) = S_BINDED)) as [Hst|_];
    [|apply wlp_ret; split; [done | auto]]. unfold _connect. apply wlp_so.
  do 3 (apply wlp_bind, wlp_assert; intros _). destruct (so_family _); [|apply wlp_ret; split; [done | auto]].
  apply wlp_bind, wlp_modify. apply wlp_bind. unfold wlp at 1, in_env, zoom.
  destruct (m_fn_connect _ _ _ _) as [[e connrt]|]; [|done].
  destruct (connrt =? 0); [do 2 (apply wlp_bind, wlp_modify); apply wlp_ret; split; [done | auto 7]|].
  apply wlp_bind, wlp_assert. intros _. destruct (_ && _); [|apply wlp_ret; split; [done | auto 7]].
  do 2 (apply wlp_bind, wlp_modify). apply wlp_ret. split; [done | auto 7].
Qed.

(** A connect that failed leaves the socket in active mode, and the next one fails an assertion. *)
Theorem connect_retry_asserts addr addr' (w w' : ST) rt : L_SOCKET ∉ locks w ->
  connect addr w = Ok (w', rt) -> rt <> E_INVALID_STATE -> rt <> E_SOCKET_INVALID_FAMILY ->
  m_state (so w') = m_state (so w) -> connect addr' w' = Fault AssertFailed.
Proof.
  intros Hl E Hn Hn' St.
  destruct (wlp_ok True _ w w' rt _ (connect_leaves addr w Hl) E) as [?|[?|(M & L & S)]]; [done | done|].
  change (dies (connect addr') w'). unfold connect. apply dies_lock; [by rewrite L|].
  apply dies_bind. rewrite wp_so. cbn [so set_locks]. rewrite St, bool_decide_true by done. cbn [negb].
  unfold _connect. apply dies_bind. rewrite wp_so. cbn [so set_locks]. apply dies_assert. intros _.
  by rewrite M.
Qed.
End dies.

(** ** Witnesses *)
Definition spin_dh : dh_protocol :=
  mk_dh (dh_symmetric_encrypt.set_dhstate dh_symmetric_encrypt.DH_HANDSHAKE dh_symmetric_encrypt.make) 0.
Definition spin_st : st dh_protocol (senv sim) :=
  let s := sim_socket spin_dh 0 0 in sim_st (set_m_rb (sim_ring [0; 0]) s) (mk_sim ∅ ∅ [] 9).

Lemma spin_waiting : waiting spin_st.
Proof.
  constructor; try (vm_compute; done).
  - exists spin_dh. by split.
  - exists (fun e => kern e = mk_sim ∅ ∅ [] 9). split; [done|]. intros n ec flag e Hn He.
    change (m_fn_recv _ _ n ec flag e) with (standard_socket.recv 5 n ec flag e).
    unfold standard_socket.recv, mbind, M_bind, assertM, lift. rewrite (proj2 (Z.ltb_lt 0 n) Hn). cbn [check].
    unfold gets. cbn [signals sim_system standard_socket.recv_loop]. unfold mbind, M_bind, sys.
    rewrite He. exists e. split; [|done]. destruct e; cbn in He |- *; by subst.
Qed.

Lemma handshake_piece_spins_witness :
  socket.handle_async_handshake (H3 := dh_tlp true (fun _ => ([], 0, 0)) (fun _ => dh_symmetric_encrypt.zero_context) 56)
    99 0 spin_st = Fault Diverged.
Proof.
  apply (handshake_piece_spins true (fun _ => ([], 0, 0)) (fun _ => dh_symmetric_encrypt.zero_context) 56 99 0 spin_st).
  - exact spin_waiting.
  - apply not_elem_of_nil.
Defined.

(** A socket made non-blocking and opened. *)
Definition opened_st := after socket_base.open (new_st OPTION_NON_BLOCKING).

Lemma opened_ok : sock_ok (so opened_st) /\ locks opened_st = [].
Proof.
  assert (HB : born (new_socket OPTION_NON_BLOCKING)).
  { left. exists sim_cfg, F_PF_INET, ST_STREAM, P_TCP, OPTION_NON_BLOCKING. reflexivity. }
  destruct (session_moves (new_st OPTION_NON_BLOCKING) opened_st) as (L & O & _).
  - apply rtc_once, (op_method _ _ _ OK pub_open), after_run. vm_compute. reflexivity.
  - by apply born_ok.
  - reflexivity.
  - split; [exact O | exact L].
Qed.

Lemma open_applies_no_option_witness :
  socket_base.turnon_nonblocking (with_option OPTION_NON_BLOCKING (new_st 0))
  = Ok (with_option OPTION_NON_BLOCKING (new_st 0), OK).
Proof.
  destruct (open_applies_no_option OPTION_NON_BLOCKING (new_st 0)) as [_ HT].
  apply HT; [reflexivity | apply not_elem_of_nil].
Defined.

Lemma close_unconnected_asserts_witness : socket.close 1 OK opened_st = Fault AssertFailed.
Proof.
  destruct opened_ok as [O L].
  apply (close_unconnected_asserts 0 opened_st O L); vm_compute; (reflexivity || discriminate).
Defined.
