(* ===== verification/Observer.v ===== *)
(** * Observer: what the observers share
    ([include/wawo/net/observer_abstract.hpp])

    - [observer_ctx]: what is watched of a descriptor and whom to tell;
    - [ow]: the state an observer works on.  The contexts are objects: [m_ctxs]
      maps a descriptor to the number of its context, which the kernel, the poll set of
      [class wcp] and tasks may hold too; [objs] is the store;
    - [ctx_update_for_watch], [ctx_update_for_unwatch], [ctxs_cancel_all];
    - [observer_ops]: the virtual functions of [observer_abstract]. *)

From S2P Require Import Prelude Effects Address Wcp SocketData SockFns.

Definition E_UNKNOWN : Z := -20010.
Definition E_OBSERVER_EXIT : Z := -30023.

Definition IOE_RW : Z := Z.lor IOE_READ IOE_WRITE.
Definition SO_ERROR : Z := 4.

Inductive poll_kind : Type := T_SELECT | T_EPOLL | T_WPOLL.
Inductive ctx_io_state : Type :=
| S_READ_IDLE | S_READ_POSTED | S_READING | S_WRITE_IDLE | S_WRITE_POSTED | S_WRITING.
#[export] Instance poll_kind_eq_dec : EqDecision poll_kind.
Proof. solve_decision. Defined.
#[export] Instance ctx_io_state_eq_dec : EqDecision ctx_io_state.
Proof. solve_decision. Defined.

(** [_fn_info]; null pointers are [None]. *)
Record fn_info : Type := mk_info {
  i_fn : option fn_io_event;
  i_err : option fn_io_event_error;
  i_cookie : option cookie
}.
Definition no_info : fn_info := mk_info None None None.

Record observer_ctx : Type := mk_ctx {
  r_state : ctx_io_state;
  w_state : ctx_io_state;
  c_flag : Z;
  c_poll_type : poll_kind;
  c_fd : Z;
  slot_read : fn_info;
  slot_write : fn_info
}.
Definition set_r_state v c := mk_ctx v (w_state c) (c_flag c) (c_poll_type c) (c_fd c) (slot_read c) (slot_write c).
Definition set_w_state v c := mk_ctx (r_state c) v (c_flag c) (c_poll_type c) (c_fd c) (slot_read c) (slot_write c).
Definition set_c_flag v c := mk_ctx (r_state c) (w_state c) v (c_poll_type c) (c_fd c) (slot_read c) (slot_write c).
Definition set_slot_read v c := mk_ctx (r_state c) (w_state c) (c_flag c) (c_poll_type c) (c_fd c) v (slot_write c).
Definition set_slot_write v c := mk_ctx (r_state c) (w_state c) (c_flag c) (c_poll_type c) (c_fd c) (slot_read c) v.

Definition new_ctx (k : poll_kind) (fd : Z) : observer_ctx :=
  mk_ctx S_READ_IDLE S_WRITE_IDLE 0 k fd no_info no_info.

(** [RE]: what the lambda of an error calls. *)
Record RE : Type := mk_RE {
  re_read : option fn_io_event * option cookie;
  re_rd_err : option fn_io_event_error * option cookie;
  re_wr_err : option fn_io_event_error * option cookie
}.

(** What an observer gives to the scheduler. *)
Inductive posted : Type :=
| P_task (fn : fn_io_event) (c : cookie)
| P_select_task (fn : option fn_io_event) (c : option cookie) (ctx : Z) (id : Z)
| P_error (err : fn_io_event_error) (code : Z) (c : option cookie)
| P_RE (re : RE) (ec : Z).

Section observer.
Context {K : Type}.

Record ow : Type := mk_ow {
  m_ctxs : gmap Z Z;
  objs : gmap Z observer_ctx;
  obj_next : Z;
  m_handle : Z;
  scheduled : list posted;
  oenv : senv K
}.
Definition set_m_ctxs v w := mk_ow v (objs w) (obj_next w) (m_handle w) (scheduled w) (oenv w).
Definition set_objs v w := mk_ow (m_ctxs w) v (obj_next w) (m_handle w) (scheduled w) (oenv w).
Definition set_obj_next v w := mk_ow (m_ctxs w) (objs w) v (m_handle w) (scheduled w) (oenv w).
Definition set_m_handle v w := mk_ow (m_ctxs w) (objs w) (obj_next w) v (scheduled w) (oenv w).
Definition set_scheduled v w := mk_ow (m_ctxs w) (objs w) (obj_next w) (m_handle w) v (oenv w).
Definition set_oenv v w := mk_ow (m_ctxs w) (objs w) (obj_next w) (m_handle w) (scheduled w) v.
Local Abbreviation MO := (M ow).

Definition out_env {A} (m : M (senv K) A) : MO A := zoom oenv set_oenv m.
Definition post (t : posted) : MO unit := modify (fun w => set_scheduled (scheduled w ++ [t]) w).

(** *** Contexts *)
Definition deref (id : Z) : MO observer_ctx :=
  o ← gets (fun w => objs w !! id);
  match o with Some c => mret c | None => fail Undefined end.
Definition store (id : Z) (c : observer_ctx) : MO unit :=
  modify (fun w => set_objs (<[id := c]> (objs w)) w).
Definition alloc (c : observer_ctx) : MO Z :=
  id ← gets obj_next;
  modify (fun w => set_obj_next (id + 1) (set_objs (<[id := c]> (objs w)) w));;
  mret id.

(** A raw pointer to a context no one else holds any more points nowhere. *)
Definition live (w : ow) (id : Z) : Prop := map_Exists (fun _ j => j = id) (m_ctxs w).
#[export] Instance live_dec w id : Decision (live w id).
Proof. unfold live. apply _. Defined.
Definition deref_raw (id : Z) : MO observer_ctx :=
  b ← gets (fun w => bool_decide (live w id));
  if b : bool then deref id else fail Undefined.

Definition find_ctx (fd : Z) : MO (option Z) := gets (fun w => m_ctxs w !! fd).
Definition insert_ctx (fd id : Z) : MO unit := modify (fun w => set_m_ctxs (<[fd := id]> (m_ctxs w)) w).
Definition erase_ctx (fd : Z) : MO unit := modify (fun w => set_m_ctxs (delete fd (m_ctxs w)) w).

Definition null {A} (o : option A) : bool := match o with None => true | Some _ => false end.

(** One direction of [ctx_update_for_watch]. *)
Definition fill_slot (s : fn_info) (fn : fn_io_event) (err : fn_io_event_error) (c : cookie) : MO fn_info :=
  assertM (null (i_fn s));;
  assertM (null (i_err s));;
  assertM (null (i_cookie s));;
  mret (mk_info (Some fn) (Some err) (Some c)).

Definition ctx_update_for_watch (id flag fd : Z) (cookie_ : cookie) (fn : fn_io_event)
    (err : fn_io_event_error) : MO unit :=
  assertM (negb (flag =? 0));;
  c ← deref id;
  assertM (c_fd c =? fd);;
  assertM (Z.land (c_flag c) flag =? 0);;
  when (flag_on flag IOE_READ)
    (c ← deref id;
     let f := flag_set (c_flag c) IOE_READ in
     let f := if flag_on flag IOE_INFINITE_WATCH_READ then flag_set f IOE_INFINITE_WATCH_READ else f in
     s ← fill_slot (slot_read c) fn err cookie_;
     store id (set_slot_read s (set_c_flag f c)));;
  when (flag_on flag IOE_WRITE)
    (c ← deref id;
     let f := flag_set (c_flag c) IOE_WRITE in
     let f := if flag_on flag IOE_INFINITE_WATCH_WRITE then flag_set f IOE_INFINITE_WATCH_WRITE else f in
     s ← fill_slot (slot_write c) fn err cookie_;
     store id (set_slot_write s (set_c_flag f c))).

Definition ctx_update_for_unwatch (id flag fd : Z) : MO unit :=
  c ← deref id;
  assertM (c_fd c =? fd);;
  when (flag_on flag IOE_READ && flag_on (c_flag c) flag)
    (store id (set_slot_read no_info
       (set_c_flag (flag_clear (c_flag c) (Z.lor IOE_READ IOE_INFINITE_WATCH_READ)) c)));;
  c ← deref id;
  when (flag_on flag IOE_WRITE && flag_on (c_flag c) flag)
    (store id (set_slot_write no_info
       (set_c_flag (flag_clear (c_flag c) (Z.lor IOE_WRITE IOE_INFINITE_WATCH_WRITE)) c))).

(** The contexts in the order of their descriptors; [it != m_ctxs.end()] is right because the
    callers pass [m_ctxs] itself. *)
Definition ctxs_cancel_all : MO unit :=
  l ← gets (fun w => by_fd (m_ctxs w));
  iterM (fun p =>
    c ← deref p.2;
    when (0 <? c_fd c)
      (post (P_RE (mk_RE (None, None) (i_err (slot_read c), i_cookie (slot_read c))
                         (i_err (slot_write c), i_cookie (slot_write c))) E_OBSERVER_EXIT))) l.

(** A function and its cookie, which [check_ioe] asserts are there. *)
Definition task_of (s : fn_info) : MO posted :=
  match i_fn s, i_cookie s with
  | Some fn, Some c => mret (P_task fn c)
  | _, _ => fail AssertFailed
  end.

(** *** The virtual functions *)
Record observer_ops : Type := mk_observer {
  o_init : MO unit;
  o_deinit : MO unit;
  check_ioe : MO unit;
  o_watch : Z -> Z -> option cookie -> option fn_io_event -> option fn_io_event_error -> MO unit;
  o_unwatch : Z -> Z -> MO unit
}.
End observer.
Arguments ow : clear implicits.
Arguments observer_ops : clear implicits.
