(* ===== verification/Epoll.v ===== *)
(** * Epoll: the observer of Linux ([include/wawo/net/observer_impl/epoll.hpp])

    The model is the edge-triggered build ([WAWO_IO_MODE_EPOLL_USE_ET], the default).
    The calls of the kernel are an interface, [epoll_system]; an event is its mask and the raw
    pointer, the number of the context, registered with the descriptor. *)

From S2P Require Import Prelude Effects Address Wcp SocketData SockFns SocketBase Observer.

Inductive epoll_op : Type := EPOLL_CTL_ADD | EPOLL_CTL_DEL | EPOLL_CTL_MOD.
#[export] Instance epoll_op_eq_dec : EqDecision epoll_op.
Proof. solve_decision. Defined.

(** Results and [errno]. *)
Class epoll_system (K : Type) := {
  epoll_create : Z -> K -> K * (Z * Z);
  epoll_ctl : Z -> epoll_op -> Z -> Z * Z -> K -> K * (Z * Z);
  epoll_wait : Z -> Z -> K -> K * (Z * Z * list (Z * Z))
}.

(** Linux. *)
Definition EPOLLIN : Z := 1.
Definition EPOLLPRI : Z := 2.
Definition EPOLLOUT : Z := 4.
Definition EPOLLERR : Z := 8.
Definition EPOLLHUP : Z := 16.
Definition EPOLLET : Z := 0x80000000.
Definition WAWO_EPOLL_CREATE_HINT_SIZE : Z := 10240 * 16.
Definition WAWO_EPOLL_PER_HANDLE_SIZE : Z := 4096.

Module epoll.
Section epoll.
Context `{system K} `{!epoll_system K}.
Local Abbreviation MO := (M (ow K)).

(** The mask of a direction mask [flag] of the observer. *)
Definition interest (flag : Z) : Z :=
  let e := Z.lor EPOLLPRI EPOLLET in
  let e := if flag_on flag IOE_READ then Z.lor e EPOLLIN else e in
  if flag_on flag IOE_WRITE then Z.lor e EPOLLOUT else e.

Definition watch (flag fd : Z) (cookie_ : option cookie) (fn : option fn_io_event)
    (err : option fn_io_event_error) : MO unit :=
  assertM (0 <? fd);;
  match cookie_, fn, err with
  | Some cookie_, Some fn, Some err =>
      assertM (flag_on flag IOE_RW);;
      it ← find_ctx fd;
      '(epoll_op, ctx) ← match it with
        | None => id ← alloc (new_ctx T_EPOLL fd); mret (EPOLL_CTL_ADD, id)
        | Some id => mret (EPOLL_CTL_MOD, id)
        end;
      m_epfd ← gets m_handle;
      assertM (0 <? m_epfd);;
      '(rt, _) ← out_env (sys (epoll_ctl m_epfd epoll_op fd (interest flag, ctx)));
      if rt =? -1 then post (P_error err rt (Some cookie_))
      else
        c ← deref ctx;
        assertM (Z.land (c_flag c) flag =? 0);;
        ctx_update_for_watch ctx flag fd cookie_ fn err;;
        when (bool_decide (epoll_op = EPOLL_CTL_ADD)) (insert_ctx fd ctx)
  | _, _, _ => assertM false
  end.

(** The mask when only a direction is taken away. *)
Definition interest_without (ctx_flag flag : Z) : Z :=
  let e := interest ctx_flag in
  let e := if flag_on flag IOE_READ then flag_clear e EPOLLIN else e in
  if flag_on flag IOE_WRITE then flag_clear e EPOLLOUT else e.

(** The kernel does not read the event of [EPOLL_CTL_DEL]. *)
Definition unwatch (flag fd : Z) : MO unit :=
  assertM (0 <? fd);;
  m_epfd ← gets m_handle;
  assertM (0 <? m_epfd);;
  it ← find_ctx fd;
  match it with
  | None => mret tt
  | Some ctx =>
      c ← deref ctx;
      let epoll_op := if Z.land (Z.land (c_flag c) IOE_RW) (Z.lnot flag) =? 0
                      then EPOLL_CTL_DEL else EPOLL_CTL_MOD in
      let events := interest_without (c_flag c) flag in
      assertM (if decide (epoll_op = EPOLL_CTL_MOD)
               then flag_on events EPOLLIN || flag_on events EPOLLOUT else true);;
      '(nRet, _) ← out_env (sys (epoll_ctl m_epfd epoll_op fd
                                  (if decide (epoll_op = EPOLL_CTL_MOD) then (events, ctx) else (0, 0))));
      if nRet =? -1 then erase_ctx fd
      else
        ctx_update_for_unwatch ctx flag fd;;
        when (bool_decide (epoll_op = EPOLL_CTL_DEL))
          (c ← deref ctx; assertM (c_flag c =? 0);; erase_ctx fd)
  end.

Definition init : MO unit :=
  '(rt, _) ← out_env (sys (epoll_create WAWO_EPOLL_CREATE_HINT_SIZE));
  modify (set_m_handle rt);;
  conditionM (negb (rt =? -1)).

Definition deinit : MO unit :=
  ctxs_cancel_all;;
  modify (set_m_ctxs ∅);;
  m_epfd ← gets m_handle;
  conditionM (negb (m_epfd =? -1));;
  '(rt, _) ← out_env (sys (sys_close m_epfd));
  conditionM (negb (rt =? -1));;
  modify (set_m_handle (-1)).

(** [EPOLLERR] or [EPOLLHUP]. *)
Definition on_error (ctx events : Z) : MO unit :=
  c ← deref ctx;
  re_read ← if flag_on events EPOLLIN then task_of (slot_read c);; mret (i_fn (slot_read c), i_cookie (slot_read c))
            else mret (None, None);
  '(getrt, errno, v) ← out_env (sys (sys_getsockopt (c_fd c) socket_base.SOL_SOCKET SO_ERROR));
  let ec := WAWO_NEGATIVE (if getrt =? -1 then errno else default 0 (head v)) in
  let ec := if ec =? OK then E_UNKNOWN else ec in
  assertM (if flag_on events EPOLLERR then negb (ec =? OK) else true);;
  let re := mk_RE re_read (i_err (slot_read c), i_cookie (slot_read c))
                  (i_err (slot_write c), i_cookie (slot_write c)) in
  unwatch IOE_WRITE (c_fd c);;
  unwatch IOE_READ (c_fd c);;
  post (P_RE re ec).

Definition on_read (ctx : Z) : MO unit :=
  c ← deref ctx;
  t ← task_of (slot_read c);
  when (negb (flag_on (c_flag c) IOE_INFINITE_WATCH_READ)) (unwatch IOE_READ (c_fd c));;
  post t.
Definition on_write (ctx : Z) : MO unit :=
  c ← deref ctx;
  t ← task_of (slot_write c);
  when (negb (flag_on (c_flag c) IOE_INFINITE_WATCH_WRITE)) (unwatch IOE_WRITE (c_fd c));;
  post t.

(** One event of [check_ioe]; bits nobody asked for fail the last assertion. *)
Definition check_one (ev : Z * Z) : MO unit :=
  let '(events, ctx) := ev in
  assertM (negb (ctx =? 0));;
  c ← deref_raw ctx;
  assertM (0 <? c_fd c);;
  let events := Z.land events 0xFFFFFFFF in
  if flag_on events (Z.lor EPOLLERR EPOLLHUP) then on_error ctx events
  else
    when (flag_on events EPOLLIN) (on_read ctx);;
    when (flag_on events EPOLLOUT) (on_write ctx);;
    when (flag_on events EPOLLPRI) (fail Thrown);;
    assertM (flag_clear events (Z.lor EPOLLIN (Z.lor EPOLLOUT EPOLLPRI)) =? 0).

Definition check_ioe : MO unit :=
  m_epfd ← gets m_handle;
  assertM (0 <? m_epfd);;
  '(nTotalEvents, _, epEvents) ← out_env (sys (epoll_wait m_epfd WAWO_EPOLL_PER_HANDLE_SIZE));
  if nTotalEvents =? -1 then mret tt else iterM check_one epEvents.

Definition ops : observer_ops K := mk_observer init deinit check_ioe watch unwatch.
End epoll.
End epoll.
