(* ===== verification/Wpoll.v ===== *)
(** * Wpoll: the observer of WCP sockets ([include/wawo/net/observer_impl/wpoll.hpp])

    The poll set is one of [class wcp] (Wcp): [wpoll_ctl] and [wpoll_wait] are its methods,
    not an interface.  The cookie of an event is a counted reference to the context, so it
    never dangles. *)

From S2P Require Import Prelude Effects Address WcpData Wcp SocketData SockFns SocketBase Observer.

Module wpoll.
Section wpoll.
Context `{memory} `{WcpData.wcp_env} `{wcp_sockets} {K : Type}.
Local Abbreviation MO := (M (ow K)).

(** A method of [wcp::instance()]. *)
Definition wcp_out {A} (f : wcp -> res (wcp * A)) : MO A := out_env (wcp_call f).

Definition init : MO unit :=
  h ← wcp_out wpoll_create;
  modify (set_m_handle h);;
  assertM (0 <? h).

Definition deinit : MO unit :=
  m_wpHandle ← gets m_handle;
  assertM (0 <? m_wpHandle);;
  ctxs_cancel_all;;
  modify (set_m_ctxs ∅);;
  _ ← wcp_out (wpoll_close m_wpHandle);
  modify (set_m_handle (-1)).

Definition watch (flag fd : Z) (cookie_ : option cookie) (fn : option fn_io_event)
    (err : option fn_io_event_error) : MO unit :=
  assertM (0 <? flag);;
  assertM (0 <? fd);;
  m_wpHandle ← gets m_handle;
  assertM (0 <? m_wpHandle);;
  match fn, err with
  | Some fn, Some err =>
      assertM (flag_on flag IOE_RW);;
      it ← find_ctx fd;
      '(_to_add, ctx) ← match it with
        | None => id ← alloc (new_ctx T_WPOLL fd); mret (true, id)
        | Some id => mret (false, id)
        end;
      ret ← wcp_out (wpoll_ctl m_wpHandle WPOLL_CTL_ADD (Wcp.mk_event fd (Z.land flag IOE_RW) ctx));
      if negb (ret =? OK) then post (P_error err ret cookie_)
      else
        c ← deref ctx;
        assertM (Z.land (c_flag c) flag =? 0);;
        match cookie_ with
        | Some cookie_ => ctx_update_for_watch ctx flag fd cookie_ fn err
        | None => assertM false
        end;;
        when _to_add (insert_ctx fd ctx)
  | _, _ => assertM false
  end.

Definition unwatch (flag fd : Z) : MO unit :=
  assertM (0 <? flag);;
  assertM (0 <? fd);;
  m_wpHandle ← gets m_handle;
  assertM (0 <? m_wpHandle);;
  it ← find_ctx fd;
  match it with
  | None => mret tt
  | Some ctx =>
      ret ← wcp_out (wpoll_ctl m_wpHandle WPOLL_CTL_DEL (Wcp.mk_event fd (Z.land flag IOE_RW) 0));
      if ret <? 0 then erase_ctx fd
      else
        ctx_update_for_unwatch ctx flag fd;;
        c ← deref ctx;
        when (c_flag c =? 0) (erase_ctx fd)
  end.

(** [WPOLLERR]: the task is posted after both directions are given up. *)
Definition on_error (ctx events : Z) : MO unit :=
  c ← deref ctx;
  re_read ← if flag_on events WPOLLIN then task_of (slot_read c);; mret (i_fn (slot_read c), i_cookie (slot_read c))
            else mret (None, None);
  '(getrt, v) ← wcp_out (fun s => '(s, r, v) ← getsockopt (c_fd c) SO_ERROR s; Ok (s, (r, v)));
  errno ← gets (fun w => last_errno (the_wcp (oenv w)));
  let ec := if getrt <? 0 then errno else default 0 v in
  assertM (negb (ec =? 0));;
  let ec := WAWO_NEGATIVE ec in
  let re := mk_RE re_read (i_err (slot_read c), i_cookie (slot_read c))
                  (i_err (slot_write c), i_cookie (slot_write c)) in
  unwatch IOE_WRITE (c_fd c);;
  unwatch IOE_READ (c_fd c);;
  post (P_RE re ec).

Definition on_read (ctx : Z) : MO unit :=
  c ← deref ctx;
  t ← task_of (slot_read c);
  when (negb (flag_on (c_flag c) IOE_INFINITE_WATCH_READ)) (unwatch IOE_READ (c_fd c));;
  post t.
Definition on_write (ctx : Z) : MO unit :=
  c ← deref ctx;
  t ← task_of (slot_write c);
  when (negb (flag_on (c_flag c) IOE_INFINITE_WATCH_WRITE)) (unwatch IOE_WRITE (c_fd c));;
  post t.

Definition check_one (ev : wpoll_event) : MO unit :=
  assertM (negb (e_cookie ev =? 0));;
  let events := e_evts ev in
  let ctx := e_cookie ev in
  c ← deref ctx;
  assertM (0 <? c_fd c);;
  if flag_on events WPOLLERR then on_error ctx (flag_clear events WPOLLERR)
  else
    when (flag_on events WPOLLIN) (on_read ctx);;
    when (flag_on events WPOLLOUT) (on_write ctx);;
    assertM (flag_clear events (Z.lor WPOLLIN WPOLLOUT) =? 0).

Definition check_ioe : MO unit :=
  m_wpHandle ← gets m_handle;
  assertM (0 <? m_wpHandle);;
  '(wpEvents, nEvents) ← wcp_out (fun s => '(s, evts, n) ← wpoll_wait m_wpHandle 1024 s; Ok (s, (evts, n)));
  if nEvents <? 0 then mret tt else iterM check_one wpEvents.

Definition ops : observer_ops K := mk_observer init deinit check_ioe watch unwatch.
End wpoll.
End wpoll.
