(* ===== verification/Select.v ===== *)
(** * Select: the observer that asks [select(2)]
    ([include/wawo/net/observer_impl/select.hpp], and [io_select_task::run] of
    [src/net/socket_observer.cpp])

    The contexts are asked in buckets of [WAWO_SELECT_BUCKET_ITEM_COUNT] entries.  The task of a
    watch without end works on the observer's own context, whose states [r_state] and [w_state]
    keep the observer from posting a second task; that of any other watch on a copy of its own.

    The mutexes of a context are taken for the time of a task's function: [r_mutex], by the
    tasks of both directions.  So it is held while a task of the context is [S_READING] or
    [S_WRITING], and [w_mutex] is free whenever [check_ioe] tries it. *)

From S2P Require Import Prelude Effects Address Wcp SocketData SockFns SocketBase Observer.

Definition WAWO_SELECT_BUCKET_MAX : Z := 1024.
Definition WAWO_SELECT_BUCKET_ITEM_COUNT : Z := 64.
Definition WAWO_SELECT_LIMIT : Z := WAWO_SELECT_BUCKET_MAX * WAWO_SELECT_BUCKET_ITEM_COUNT.

(** Linux. *)
Definition FD_SETSIZE : Z := 1024.

(** [select]: the count of the descriptors left in the three sets, [errno] and the sets. *)
Class select_system (K : Type) := {
  sys_select : Z -> gset Z -> gset Z -> gset Z -> K -> K * (Z * Z * (gset Z * gset Z * gset Z))
}.

Module select.

(** [ctxs_to_check]; its [count] is the length of [ctxs]. *)
Record ctxs_to_check : Type := mk_check {
  ctxs : list Z;
  fds_r : gset Z;
  fds_w : gset Z;
  fds_ex : gset Z;
  max_fd_v : Z
}.
Definition reset : ctxs_to_check := mk_check [] ∅ ∅ ∅ 0.

(** A bucket that is full is closed: [full] are the buckets before the current one. *)
Record collected : Type := mk_collected {
  full : list ctxs_to_check;
  current : ctxs_to_check;
  fd_added_count : Z
}.

Inductive fd_kind : Type := FD_R | FD_W | FD_EX.

(** [FD_SET] of a descriptor that does not fit writes beyond the set. *)
Definition add (k : fd_kind) (id fd : Z) (s : collected) : res collected :=
  s ← (if fd_added_count s =? WAWO_SELECT_BUCKET_ITEM_COUNT then
         _ ← wawo_assert (Z.of_nat (length (full s)) + 1 <? WAWO_SELECT_BUCKET_MAX);
         Ok (mk_collected (full s ++ [current s]) reset 0)
       else Ok s);
  if FD_SETSIZE <=? fd then Fault Undefined
  else
    let b := current s in
    let b := mk_check (ctxs b ++ [id])
               (match k with FD_R => {[fd]} ∪ fds_r b | _ => fds_r b end)
               (match k with FD_W => {[fd]} ∪ fds_w b | _ => fds_w b end)
               (match k with FD_EX => {[fd]} ∪ fds_ex b | _ => fds_ex b end)
               (if max_fd_v b <? fd then fd else max_fd_v b) in
    Ok (mk_collected (full s) b (fd_added_count s + 1)).

(** [r_mutex] is held. *)
Definition r_locked (c : observer_ctx) : bool :=
  bool_decide (r_state c = S_READING) || bool_decide (w_state c = S_WRITING).

(** One context of the first loop of [check_ioe]. *)
Definition collect_one (id : Z) (c : observer_ctx) (s : collected) : res collected :=
  s ← (if negb (r_locked c) && flag_on (c_flag c) IOE_READ && bool_decide (r_state c = S_READ_IDLE)
       then add FD_R id (c_fd c) s else Ok s);
  s ← (if flag_on (c_flag c) IOE_WRITE && negb (null (i_fn (slot_write c)))
          && bool_decide (w_state c = S_WRITE_IDLE)
       then add FD_W id (c_fd c) s else Ok s);
  if flag_on (c_flag c) IOE_WRITE && negb (null (i_err (slot_write c)))
     && bool_decide (w_state c = S_WRITE_IDLE)
  then add FD_EX id (c_fd c) s else Ok s.

Section select.
Context `{system K} `{!select_system K}.
Local Abbreviation MO := (M (ow K)).

Definition watch_ioe (flag fd : Z) (cookie_ : option cookie) (fn : option fn_io_event)
    (err : option fn_io_event_error) : MO unit :=
  assertM (0 <? fd);;
  match cookie_, fn with
  | Some cookie_, Some fn =>
      it ← find_ctx fd;
      ctx ← match it with
        | None => id ← alloc (new_ctx T_SELECT fd); insert_ctx fd id;; mret id
        | Some id => mret id
        end;
      match err with
      | Some err => ctx_update_for_watch ctx flag fd cookie_ fn err
      | None => assertM false
      end
  | _, _ => assertM false
  end.

Definition unwatch_ioe (flag fd : Z) : MO unit :=
  assertM (0 <? fd);;
  assertM ((0 <? flag) && (flag <=? 0xFF));;
  it ← find_ctx fd;
  match it with
  | None => mret tt
  | Some ctx =>
      ctx_update_for_unwatch ctx flag fd;;
      c ← deref ctx;
      when (c_flag c =? 0) (erase_ctx fd)
  end.

Definition watch (flag fd : Z) (cookie_ : option cookie) (fn : option fn_io_event)
    (err : option fn_io_event_error) : MO unit :=
  assertM (0 <? flag);;
  n ← gets (fun w => Z.of_nat (size (m_ctxs w)));
  conditionM (n <? WAWO_SELECT_LIMIT);;
  watch_ioe flag fd cookie_ fn err.

Definition unwatch (flag fd : Z) : MO unit :=
  assertM (0 <? flag);; unwatch_ioe flag fd.

(** A direction is ready: the task works on the context itself, or on a copy when the watch
    ends here. *)
Definition copy_of (c : observer_ctx) (read : bool) : observer_ctx :=
  if read then mk_ctx S_READ_POSTED S_WRITE_IDLE (c_flag c) (c_poll_type c) (c_fd c)
                 (mk_info (i_fn (slot_read c)) None (i_cookie (slot_read c))) no_info
  else mk_ctx S_READ_IDLE S_WRITE_POSTED (c_flag c) (c_poll_type c) (c_fd c) no_info
         (mk_info (i_fn (slot_write c)) None (i_cookie (slot_write c))).

Definition on_read (ctx : Z) : MO unit :=
  c ← deref ctx;
  if flag_on (c_flag c) IOE_INFINITE_WATCH_READ then
    (if r_locked c then fail Waits else mret tt);;
    store ctx (set_r_state S_READ_POSTED c);;
    post (P_select_task (i_fn (slot_read c)) (i_cookie (slot_read c)) ctx IOE_READ)
  else
    _ctx ← alloc (copy_of c true);
    unwatch IOE_READ (c_fd c);;
    post (P_select_task (i_fn (slot_read c)) (i_cookie (slot_read c)) _ctx IOE_READ).

Definition on_write (ctx : Z) : MO unit :=
  c ← deref ctx;
  if flag_on (c_flag c) IOE_INFINITE_WATCH_WRITE then
    store ctx (set_w_state S_WRITE_POSTED c);;
    post (P_select_task (i_fn (slot_write c)) (i_cookie (slot_write c)) ctx IOE_WRITE)
  else
    _ctx ← alloc (copy_of c false);
    unwatch IOE_WRITE (c_fd c);;
    post (P_select_task (i_fn (slot_write c)) (i_cookie (slot_write c)) _ctx IOE_WRITE).

(** The exceptional set: for an asynchronous connect. *)
Definition on_except (ctx : Z) : MO unit :=
  c ← deref ctx;
  assertM (0 <? c_fd c);;
  unwatch IOE_READ (c_fd c);;
  unwatch IOE_WRITE (c_fd c);;
  '(getrt, errno, v) ← out_env (sys (sys_getsockopt (c_fd c) socket_base.SOL_SOCKET SO_ERROR));
  let ec := WAWO_NEGATIVE (if getrt =? -1 then errno else default 0 (head v)) in
  match i_err (slot_write c), i_cookie (slot_write c) with
  | Some fn, Some fn_cookie => assertM (negb (ec =? OK));; post (P_error fn ec (Some fn_cookie))
  | _, _ => fail AssertFailed
  end.

(** The loop over the contexts of a bucket, with the sets and the count still to come. *)
Fixpoint ready_loop (l : list Z) (r w ex : gset Z) (ready_c : Z) : MO unit :=
  match l with
  | [] => mret tt
  | ctx :: rest =>
      if ready_c <=? 0 then mret tt
      else
        c ← deref ctx;
        let fd := c_fd c in
        let in_r := bool_decide (fd ∈ r) in
        let in_w := bool_decide (fd ∈ w) in
        let in_ex := bool_decide (fd ∈ ex) in
        when in_r (on_read ctx);;
        when in_w (on_write ctx);;
        when in_ex (on_except ctx);;
        ready_loop rest (r ∖ {[fd]}) (w ∖ {[fd]}) (ex ∖ {[fd]})
          (ready_c - Z.b2z in_r - Z.b2z in_w - Z.b2z in_ex)
  end.

Definition _select_sockets (sockets : ctxs_to_check) : MO unit :=
  let count := Z.of_nat (length (ctxs sockets)) in
  assertM ((count <=? WAWO_SELECT_BUCKET_ITEM_COUNT) && (0 <? count));;
  '(ready_c, _, (r, w, ex)) ← out_env (sys (sys_select (max_fd_v sockets) (fds_r sockets)
                                             (fds_w sockets) (fds_ex sockets)));
  if (ready_c =? 0) || (ready_c =? -1) then mret tt
  else ready_loop (ctxs sockets) r w ex ready_c.

Fixpoint collect (l : list (Z * Z)) (s : collected) : MO collected :=
  match l with
  | [] => mret s
  | (_, id) :: rest =>
      c ← deref id;
      s ← lift (collect_one id c s);
      collect rest s
  end.

Definition check_ioe : MO unit :=
  l ← gets (fun w => by_fd (m_ctxs w));
  s ← collect l (mk_collected [] reset 0);
  iterM (fun b => when (negb (Z.of_nat (length (ctxs b)) =? 0)) (_select_sockets b))
    (full s ++ [current s]).

Definition init : MO unit := mret tt.
Definition deinit : MO unit := ctxs_cancel_all;; modify (set_m_ctxs ∅).

Definition ops : observer_ops K := mk_observer init deinit check_ioe watch unwatch.
End select.

(** *** The task

    [io_select_task::run] on a thread of the scheduler; [body] is [task::run], the call of the
    function, for the time of which the thread holds [r_mutex]. *)
Section task.
Context {K : Type}.
Local Abbreviation MO := (M (ow K)).

Definition run (body : MO unit) (ctx id : Z) : MO unit :=
  c ← deref ctx;
  if decide (c_poll_type c = T_SELECT) then
    if id =? IOE_READ then
      (if r_locked c then fail Waits else mret tt);;
      assertM (bool_decide (r_state c = S_READ_POSTED));;
      store ctx (set_r_state S_READING c);;
      body;;
      c ← deref ctx; store ctx (set_r_state S_READ_IDLE c)
    else if id =? IOE_WRITE then
      (if r_locked c then fail Waits else mret tt);;
      assertM (bool_decide (w_state c = S_WRITE_POSTED));;
      store ctx (set_w_state S_WRITING c);;
      body;;
      c ← deref ctx; store ctx (set_w_state S_WRITE_IDLE c)
    else fail Thrown
  else body.
End task.
End select.
