(* ===== verification/SocketObserver.v ===== *)
(** * SocketObserver: the queue of operations and the two observers
    ([include/wawo/net/socket_observer.hpp], [src/net/socket_observer.cpp])

    A thread that watches or unwatches a descriptor queues an operation ([m_ops]); the thread of
    the ticker performs the queue in [update] and then asks for events.  [class observer] has
    an observer of the system's kind and one for WCP. *)

From S2P Require Import Prelude Effects Address WcpData Wcp SocketData SockFns SocketBase Observer.
From S2P Require Import Epoll Wpoll Select.

Section socket_observer.
Context `{memory} `{WcpData.wcp_env} `{wcp_sockets} `{system K} `{!epoll_system K} `{!select_system K}.

(** The [u8_t] of a poll type. *)
Definition poll_of (polltype : Z) : option poll_kind :=
  if polltype =? 1 then Some T_SELECT
  else if polltype =? 2 then Some T_EPOLL
  else if polltype =? 3 then Some T_WPOLL
  else None.
Definition poll_code (k : poll_kind) : Z :=
  match k with T_SELECT => 1 | T_EPOLL => 2 | T_WPOLL => 3 end.

(** [WAWO_ISGNU]. *)
Definition get_os_default_poll_type : Z := poll_code T_EPOLL.

Definition observer_of (k : poll_kind) : observer_ops K :=
  match k with T_SELECT => select.ops | T_EPOLL => epoll.ops | T_WPOLL => wpoll.ops end.

(** The descriptor of a new observer of a kind. *)
Definition handle0 (k : poll_kind) : Z := match k with T_EPOLL => -1 | _ => 0 end.

Record socket_observer : Type := mk_so {
  m_polltype : Z;
  m_impl : option poll_kind;
  m_ops : list event_op;
  m_ticker : bool;
  core : ow K
}.
Definition set_m_impl v s := mk_so (m_polltype s) v (m_ops s) (m_ticker s) (core s).
Definition set_m_ops v s := mk_so (m_polltype s) (m_impl s) v (m_ticker s) (core s).
Definition set_m_ticker v s := mk_so (m_polltype s) (m_impl s) (m_ops s) v (core s).
Definition set_core v s := mk_so (m_polltype s) (m_impl s) (m_ops s) (m_ticker s) v.
Local Abbreviation MO := (M socket_observer).

Definition make (polltype : Z) (w : ow K) : socket_observer := mk_so polltype None [] false w.

(** A method of [m_impl]. *)
Definition in_impl (f : observer_ops K -> M (ow K) unit) : MO unit :=
  o ← gets m_impl;
  match o with
  | Some k => zoom core set_core (f (observer_of k))
  | None => fail AssertFailed
  end.

Definition has_impl : MO bool := gets (fun s => negb (null (m_impl s))).

Definition _alloc_impl : MO unit :=
  b ← has_impl;
  assertM (negb b);;
  k ← gets (fun s => poll_of (m_polltype s));
  match k with
  | Some k =>
      modify (set_m_impl (Some k));;
      modify (fun s => set_core (set_m_handle (handle0 k) (set_m_ctxs ∅ (core s))) s)
  | None => fail Thrown
  end.
Definition _dealloc_impl : MO unit := b ← has_impl; assertM b;; modify (set_m_impl None).

(** [observer_ticker] calls [update] from then on. *)
Definition init : MO unit :=
  _alloc_impl;;
  in_impl o_init;;
  t ← gets m_ticker;
  assertM (negb t);;
  modify (set_m_ticker true).

Definition deinit : MO unit :=
  t ← gets m_ticker;
  assertM t;;
  modify (set_m_ops []);;
  in_impl o_deinit;;
  _dealloc_impl.

Definition perform (op : event_op) (I : observer_ops K) : M (ow K) unit :=
  match o_op op with
  | OP_WATCH => o_watch I (o_flag op) (o_fd op) (o_cookie op) (o_fn op) (o_err op)
  | OP_UNWATCH => o_unwatch I (o_flag op) (o_fd op)
  end.

(** The queue is performed to its end. *)
Fixpoint process_loop (ops : list event_op) : MO unit :=
  match ops with
  | [] => mret tt
  | op :: rest => modify (set_m_ops rest);; in_impl (perform op);; process_loop rest
  end.
Definition _process_ops : MO unit := ops ← gets m_ops; process_loop ops.

Definition update : MO unit :=
  b ← has_impl;
  assertM b;;
  _process_ops;;
  in_impl check_ioe.

Definition watch (flag fd : Z) (cookie_ : option cookie) (fn : option fn_io_event)
    (err : option fn_io_event_error) : MO unit :=
  assertM (0 <? fd);;
  modify (fun s => set_m_ops (m_ops s ++ [mk_op flag OP_WATCH fd cookie_ fn err]) s).
Definition unwatch (flag fd : Z) : MO unit :=
  assertM (0 <? fd);;
  modify (fun s => set_m_ops (m_ops s ++ [mk_op flag OP_UNWATCH fd None None None]) s).

(** ** [class observer]

    The two observers share the scheduler, the system and [class wcp]. *)
Record observer : Type := mk_obs {
  m_default : option socket_observer;
  m_wcp : option socket_observer;
  o_sched : list posted;
  o_sys : senv K
}.
Definition set_m_default v o := mk_obs v (m_wcp o) (o_sched o) (o_sys o).
Definition set_m_wcp v o := mk_obs (m_default o) v (o_sched o) (o_sys o).

Definition lend (s : socket_observer) (o : observer) : socket_observer :=
  set_core (set_scheduled (o_sched o) (set_oenv (o_sys o) (core s))) s.
Definition give_back (s : socket_observer) (o : observer) : observer :=
  mk_obs (m_default o) (m_wcp o) (scheduled (core s)) (oenv (core s)).

Definition on (iswcp : bool) {A} (m : MO A) : M observer A := fun o =>
  match (if iswcp then m_wcp o else m_default o) with
  | None => Fault AssertFailed
  | Some s =>
      match m (lend s o) with
      | Fault f => Fault f
      | Ok (s, a) =>
          let o := give_back s o in
          Ok (if iswcp then set_m_wcp (Some s) o else set_m_default (Some s) o, a)
      end
  end.

Definition fresh_core (o : observer) : ow K := mk_ow ∅ ∅ 1 0 (o_sched o) (o_sys o).

Definition start : M observer unit :=
  o ← gets id;
  assertM (null (m_default o));;
  modify (set_m_default (Some (make get_os_default_poll_type (fresh_core o))));;
  on false init;;
  o ← gets id;
  assertM (null (m_wcp o));;
  modify (set_m_wcp (Some (make (poll_code T_WPOLL) (fresh_core o))));;
  on true init.

Definition stop : M observer unit := on false deinit;; on true deinit.

(** [watch] and [unwatch] of the namespace, with the checks before the queue. *)
Definition net_watch (iswcp : bool) (flag fd : Z) (cookie_ : option cookie) (fn : option fn_io_event)
    (err : option fn_io_event_error) : M observer unit :=
  assertM (0 <? flag);;
  assertM (0 <? fd);;
  assertM (negb (null cookie_));;
  assertM (negb (null fn));;
  assertM (negb (null err));;
  on iswcp (watch flag fd cookie_ fn err).
Definition net_unwatch (iswcp : bool) (flag fd : Z) : M observer unit :=
  assertM (0 <? flag);; assertM (0 <? fd);; on iswcp (unwatch flag fd).
End socket_observer.
Arguments socket_observer : clear implicits.
Arguments observer : clear implicits.
