(* ===== verification/ObserverSpec.v ===== *)
(** * ObserverSpec: what an observer promises

    The abstract observer is a table: for a descriptor and a direction, who is told and whether
    the watch goes on after an event ([entry]).  [watching w] is the table the contexts of a
    state [w] stand for; [ctxs_ok] the invariant of the contexts.  The interfaces:
    - [watch_laws]: [watch] adds an entry, or tells the caller of a failure; [unwatch] removes
      one, or forgets a descriptor that the system has forgotten;
    - [check_laws]: [check_ioe] serves the entries of some descriptors, each once, and removes
      those that do not go on. *)

From S2P Require Import Prelude Effects Address Wcp SocketData SockFns SocketBase Observer.

Inductive dir : Type := Rd | Wr.
#[export] Instance dir_eq_dec : EqDecision dir.
Proof. solve_decision. Defined.

Record entry : Type := mk_entry {
  e_fn : fn_io_event;
  e_err : fn_io_event_error;
  e_cookie : cookie;
  e_inf : bool
}.
Definition table : Type := Z -> dir -> option entry.

Definition bit (d : dir) : Z := match d with Rd => IOE_READ | Wr => IOE_WRITE end.
Definition inf_bit (d : dir) : Z :=
  match d with Rd => IOE_INFINITE_WATCH_READ | Wr => IOE_INFINITE_WATCH_WRITE end.
(** The flags a socket uses. *)
Definition flag_of (d : dir) (inf : bool) : Z := if inf then Z.lor (bit d) (inf_bit d) else bit d.

(** ** Contexts *)
Definition slot (d : dir) (c : observer_ctx) : fn_info :=
  match d with Rd => slot_read c | Wr => slot_write c end.
Definition set_slot (d : dir) (s : fn_info) (c : observer_ctx) : observer_ctx :=
  match d with Rd => set_slot_read s c | Wr => set_slot_write s c end.
Definition info_of (e : entry) : fn_info := mk_info (Some (e_fn e)) (Some (e_err e)) (Some (e_cookie e)).

Definition entry_of (c : observer_ctx) (d : dir) : option entry :=
  match slot d c with
  | mk_info (Some fn) (Some err) (Some ck) => Some (mk_entry fn err ck (flag_on (c_flag c) (inf_bit d)))
  | _ => None
  end.

(** A watched direction has its slot full and its bit set, any other neither; there are no
    other bits. *)
Record ctx_ok (c : observer_ctx) : Prop := {
  ok_slot d : if flag_on (c_flag c) (bit d) then exists e, slot d c = info_of e
              else slot d c = no_info /\ flag_on (c_flag c) (inf_bit d) = false;
  ok_flag : 0 <= c_flag c < 16
}.

Definition add_entry (d : dir) (e : entry) (c : observer_ctx) : observer_ctx :=
  set_slot d (info_of e) (set_c_flag (flag_set (c_flag c) (flag_of d (e_inf e))) c).
Definition drop_entry (d : dir) (c : observer_ctx) : observer_ctx :=
  if flag_on (c_flag c) (bit d)
  then set_slot d no_info (set_c_flag (flag_clear (c_flag c) (flag_of d true)) c)
  else c.

Lemma info_slot e d c : slot d c = info_of e ->
  entry_of c d = Some (mk_entry (e_fn e) (e_err e) (e_cookie e) (flag_on (c_flag c) (inf_bit d))).
Proof. unfold entry_of. by intros ->. Qed.

Lemma entry_of_flag c d : ctx_ok c -> flag_on (c_flag c) (bit d) = bool_decide (is_Some (entry_of c d)).
Proof.
  intros [HS _]. specialize (HS d). destruct (flag_on (c_flag c) (bit d)).
  - destruct HS as (e & E). rewrite (info_slot _ _ _ E). symmetry. by apply bool_decide_true.
  - destruct HS as (E & _). unfold entry_of. by rewrite E.
Qed.

Lemma entry_of_slot c d e : ctx_ok c -> entry_of c d = Some e ->
  slot d c = info_of e /\ flag_on (c_flag c) (inf_bit d) = e_inf e.
Proof.
  intros [HS _] E. specialize (HS d). destruct (flag_on (c_flag c) (bit d)).
  - destruct HS as (e' & E'). rewrite (info_slot _ _ _ E') in E. injection E as <-.
    split; [exact E' | done].
  - destruct HS as (E' & _). unfold entry_of in E. by rewrite E' in E.
Qed.

Lemma flag_range_set f m : 0 <= f < 16 -> 0 <= m < 16 -> 0 <= flag_set f m < 16.
Proof.
  intros Hf Hm. unfold flag_set. split; [apply Z.lor_nonneg; lia|].
  assert (E : Z.lor f m = Z.land (Z.lor f m) (Z.ones 4)).
  { rewrite Z.land_lor_distr_l. rewrite !Z.land_ones by lia. by rewrite !Z.mod_small by lia. }
  rewrite E, Z.land_ones by lia. apply Z.mod_pos_bound. lia.
Qed.
Lemma flag_range_clear f m : 0 <= f < 16 -> 0 <= flag_clear f m < 16.
Proof.
  intros Hf. unfold flag_clear. split; [apply Z.ldiff_nonneg; lia|].
  assert (E : Z.ldiff f m = Z.land (Z.ldiff f m) (Z.ones 4)).
  { rewrite Z.ldiff_land, <- Z.land_assoc, (Z.land_comm (Z.lnot m)), Z.land_assoc.
    f_equal. rewrite Z.land_ones by lia. by rewrite Z.mod_small by lia. }
  rewrite E, Z.land_ones by lia. apply Z.mod_pos_bound. lia.
Qed.

(** Only the bits of the two directions matter to whether anything is watched. *)
Lemma ctx_idle c : ctx_ok c -> c_flag c = 0 <-> (forall d, flag_on (c_flag c) (bit d) = false).
Proof.
  intros [HS HF]. split; [intros ->; by intros []|]. intros Hd.
  pose proof (HS Rd) as HR. pose proof (HS Wr) as HW. rewrite (Hd Rd) in HR. rewrite (Hd Wr) in HW.
  destruct HR as [_ HR], HW as [_ HW]. pose proof (Hd Rd) as H1. pose proof (Hd Wr) as H2.
  revert HR HW H1 H2. simpl bit. simpl inf_bit. generalize (c_flag c), HF. clear.
  intros f Hf. assert (H : In f [0;1;2;3;4;5;6;7;8;9;10;11;12;13;14;15]).
  { simpl. lia. }
  simpl in H. repeat (destruct H as [<-|H]; [vm_compute; congruence|]). done.
Qed.

(** Compute the tests of constant flags. *)
Ltac const_flags :=
  repeat match goal with
  | |- context [flag_on ?a ?b] =>
      let v := eval vm_compute in (flag_on a b) in
      match v with
      | true => change (flag_on a b) with true
      | false => change (flag_on a b) with false
      end
  end.

Lemma flag_set_set f a b : flag_set (flag_set f a) b = flag_set f (Z.lor a b).
Proof. unfold flag_set. by rewrite Z.lor_assoc. Qed.

Lemma flag_of_range d inf : 0 <= flag_of d inf < 16.
Proof. destruct d, inf; vm_compute; intuition congruence. Qed.


Lemma slot_set d d' s c : slot d' (set_slot d s c) = if decide (d' = d) then s else slot d' c.
Proof. by destruct d, d', c. Qed.
Lemma flag_set_slot d s c : c_flag (set_slot d s c) = c_flag c.
Proof. by destruct d, c. Qed.
Lemma slot_set_flag d f c : slot d (set_c_flag f c) = slot d c.
Proof. by destruct d, c. Qed.

Lemma bits_of_add c d e d' :
  flag_on (c_flag (add_entry d e c)) (bit d') = bool_decide (d' = d) || flag_on (c_flag c) (bit d')
  /\ flag_on (c_flag (add_entry d e c)) (inf_bit d')
     = bool_decide (d' = d) && e_inf e || flag_on (c_flag c) (inf_bit d').
Proof.
  unfold add_entry. rewrite flag_set_slot. simpl. autorewrite with flags.
  destruct d, d', (e_inf e); simpl; rewrite ?orb_true_r, ?orb_false_r; done.
Qed.

Lemma bits_of_drop c d d' : ctx_ok c ->
  flag_on (c_flag (drop_entry d c)) (bit d') = negb (bool_decide (d' = d)) && flag_on (c_flag c) (bit d')
  /\ flag_on (c_flag (drop_entry d c)) (inf_bit d')
     = negb (bool_decide (d' = d)) && flag_on (c_flag c) (inf_bit d').
Proof.
  intros HC. pose proof (ok_slot c HC d) as HS. unfold drop_entry.
  destruct (flag_on (c_flag c) (bit d)) eqn:E.
  - rewrite flag_set_slot. simpl. autorewrite with flags.
    destruct d, d'; cbv [bit inf_bit flag_of IOE_READ IOE_WRITE IOE_INFINITE_WATCH_READ
      IOE_INFINITE_WATCH_WRITE]; simpl Z.lor; simpl Z.ldiff; rewrite ?flag_on_none; done.
  - destruct HS as [_ HI]. destruct (decide (d' = d)) as [->|Hd].
    + by rewrite E, HI, bool_decide_true by done.
    + rewrite bool_decide_false by done. done.
Qed.

Lemma add_ok d e c : ctx_ok c -> entry_of c d = None -> ctx_ok (add_entry d e c).
Proof.
  intros HC HN. constructor.
  - intros d'. destruct (bits_of_add c d e d') as [-> ->]. unfold add_entry. rewrite slot_set.
    destruct (decide (d' = d)) as [->|Hd].
    + rewrite bool_decide_true by done. simpl. by exists e.
    + rewrite bool_decide_false by done. simpl. rewrite slot_set_flag. apply HC.
  - unfold add_entry. rewrite flag_set_slot. apply flag_range_set; [apply HC | apply flag_of_range].
Qed.

Lemma drop_ok d c : ctx_ok c -> ctx_ok (drop_entry d c).
Proof.
  intros HC. constructor.
  - intros d'. destruct (bits_of_drop c d d' HC) as [-> ->]. unfold drop_entry.
    pose proof (ok_slot c HC d') as HS.
    destruct (decide (d' = d)) as [->|Hd].
    + rewrite bool_decide_true by done. simpl. destruct (flag_on (c_flag c) (bit d)); [|by destruct HS].
      by rewrite slot_set, decide_True.
    + rewrite bool_decide_false by done. simpl. destruct (flag_on (c_flag c) (bit d)); [|exact HS].
      by rewrite slot_set, slot_set_flag, decide_False.
  - unfold drop_entry. destruct (flag_on _ _); [|apply HC].
    rewrite flag_set_slot. apply flag_range_clear, HC.
Qed.

Lemma entry_of_add d e c d' : ctx_ok c -> entry_of c d = None ->
  entry_of (add_entry d e c) d' = if decide (d' = d) then Some e else entry_of c d'.
Proof.
  intros HC HN. destruct (bits_of_add c d e d') as [_ HI].
  assert (HIf : flag_on (c_flag c) (inf_bit d) = false).
  { pose proof (ok_slot c HC d) as HS. rewrite (entry_of_flag c d HC), HN in HS.
    by destruct HS. }
  unfold entry_of. rewrite HI. unfold add_entry. rewrite slot_set.
  destruct (decide (d' = d)) as [->|Hd].
  - rewrite bool_decide_true by done. rewrite HIf, orb_false_r. by destruct e.
  - rewrite bool_decide_false by done. by rewrite slot_set_flag.
Qed.

Lemma entry_of_drop d c d' : ctx_ok c ->
  entry_of (drop_entry d c) d' = if decide (d' = d) then None else entry_of c d'.
Proof.
  intros HC. destruct (bits_of_drop c d d' HC) as [HB HI]. pose proof (drop_ok d c HC) as HD.
  destruct (decide (d' = d)) as [->|Hd].
  - pose proof (entry_of_flag _ d HD) as E. rewrite HB, bool_decide_true in E by done. simpl in E.
    destruct (entry_of (drop_entry d c) d); [|done]. exfalso. symmetry in E.
    apply bool_decide_eq_false in E. by apply E.
  - rewrite bool_decide_false in HI by done. unfold entry_of. rewrite HI. cbn [negb andb].
    assert (slot d' (drop_entry d c) = slot d' c) as ->; [|done].
    unfold drop_entry. destruct (flag_on (c_flag c) (bit d)); [|reflexivity].
    rewrite slot_set, slot_set_flag. by rewrite decide_False.
Qed.

(** ** Tables *)
#[export] Instance table_equiv : Equiv table := fun T T' => forall fd d, T fd d = T' fd d.
#[export] Instance table_equivalence : Equivalence (≡@{table}).
Proof. split; [intros T fd d | intros T T' E fd d | intros T1 T2 T3 E E' fd d]; congruence. Qed.

Definition upd (fd : Z) (d : dir) (o : option entry) (T : table) : table :=
  fun fd' d' => if decide (fd' = fd /\ d' = d) then o else T fd' d'.
Definition forget (fd : Z) (T : table) : table := fun fd' d' => if decide (fd' = fd) then None else T fd' d'.

#[export] Instance upd_proper fd d o : Proper (equiv ==> equiv) (upd fd d o).
Proof. intros T T' E fd' d'. unfold upd. case_decide; [done | apply E]. Qed.
#[export] Instance forget_proper fd : Proper (equiv ==> equiv) (forget fd).
Proof. intros T T' E fd' d'. unfold forget. case_decide; [done | apply E]. Qed.

(** ** What is served *)
Record ready : Type := mk_ready { rd_fd : Z; rd_fired : dir -> bool; rd_error : option Z }.

Definition task_for (o : option entry) : list posted :=
  match o with Some e => [P_task (e_fn e) (e_cookie e)] | None => [] end.
Definition err_for (o : option entry) : option fn_io_event_error * option cookie :=
  (e_err <$> o, e_cookie <$> o).
Definition read_for (o : option entry) : option fn_io_event * option cookie :=
  (e_fn <$> o, e_cookie <$> o).

(** A task for each direction that is ready, or one call of the error functions. *)
Definition posts (T : table) (x : ready) : list posted :=
  match rd_error x with
  | None => (if rd_fired x Rd then task_for (T (rd_fd x) Rd) else [])
            ++ (if rd_fired x Wr then task_for (T (rd_fd x) Wr) else [])
  | Some ec => [P_RE (mk_RE (if rd_fired x Rd then read_for (T (rd_fd x) Rd) else (None, None))
                        (err_for (T (rd_fd x) Rd)) (err_for (T (rd_fd x) Wr))) ec]
  end.

(** The watch of a direction ends with this event. *)
Definition ends (T : table) (x : ready) (d : dir) : Prop :=
  match rd_error x with
  | Some _ => True
  | None => rd_fired x d = true /\ (exists e, T (rd_fd x) d = Some e /\ e_inf e = false)
  end.

Section spec.
Context {K : Type}.

Definition ctx_at (w : ow K) (fd : Z) : option observer_ctx := m_ctxs w !! fd ≫= fun id => objs w !! id.
Definition watching (w : ow K) : table := fun fd d => ctx_at w fd ≫= fun c => entry_of c d.

Record ctxs_ok (k : poll_kind) (w : ow K) : Prop := {
  cx_at fd id : m_ctxs w !! fd = Some id ->
    exists c, objs w !! id = Some c /\ ctx_ok c /\ c_fd c = fd /\ c_poll_type c = k /\ c_flag c <> 0 /\ 0 < fd;
  cx_next id c : objs w !! id = Some c -> 0 < id < obj_next w;
  cx_pos : 0 < obj_next w
}.

(** One event: [lost] says which descriptors the system has forgotten meanwhile. *)
Record serves1 (lost : ow K -> Z -> Prop) (x : ready) (w w' : ow K) : Prop := {
  sv_posts : scheduled w' = scheduled w ++ posts (watching w) x;
  sv_others fd d : fd <> rd_fd x -> watching w' fd d = watching w fd d;
  sv_ended d : ends (watching w) x d -> watching w' (rd_fd x) d = None;
  sv_kept d : ~ ends (watching w) x d ->
    watching w' (rd_fd x) d = watching w (rd_fd x) d
    \/ watching w' (rd_fd x) d = None /\ lost w' (rd_fd x)
}.
Inductive serves (lost : ow K -> Z -> Prop) : list ready -> ow K -> ow K -> Prop :=
| serves_nil w : serves lost [] w w
| serves_cons x l w w1 w2 : serves1 lost x w w1 -> serves lost l w1 w2 -> serves lost (x :: l) w w2.

(** ** The interfaces *)
Class watch_laws (k : poll_kind) (O : observer_ops K) := {
  o_inv : ow K -> Prop;
  o_lost : ow K -> Z -> Prop;
  o_ctxs_ok w : o_inv w -> ctxs_ok k w;
  o_watch_law w fd d e : o_inv w -> 0 < fd -> watching w fd d = None ->
    wp (o_watch O (flag_of d (e_inf e)) fd (Some (e_cookie e)) (Some (e_fn e)) (Some (e_err e))) w
      (fun w' _ => o_inv w' /\
        ((watching w' ≡ upd fd d (Some e) (watching w) /\ scheduled w' = scheduled w)
         \/ (watching w' ≡ watching w /\
             exists rt, scheduled w' = scheduled w ++ [P_error (e_err e) rt (Some (e_cookie e))])));
  o_unwatch_law w fd d : o_inv w -> 0 < fd ->
    wp (o_unwatch O (bit d) fd) w (fun w' _ => o_inv w' /\ scheduled w' = scheduled w /\
      (watching w' ≡ upd fd d None (watching w)
       \/ (watching w' ≡ forget fd (watching w) /\ o_lost w' fd)))
}.

Class check_laws (k : poll_kind) (O : observer_ops K) `{!watch_laws k O} := {
  o_check_law w : o_inv w ->
    wp (check_ioe O) w (fun w' _ => o_inv w' /\
      exists l w1, watching w1 ≡ watching w /\ scheduled w1 = scheduled w
        /\ NoDup (rd_fd <$> l) /\ serves o_lost l w1 w')
}.

(** ** Contexts in the state *)
Definition put_ctx (id : Z) (c : observer_ctx) (w : ow K) : ow K := set_objs (<[id := c]> (objs w)) w.

Lemma wp_deref id c (w : ow K) Q : objs w !! id = Some c -> Q w c -> wp (deref id) w Q.
Proof. intros E HQ. unfold deref. rewrite wp_bind, wp_gets, E. exact HQ. Qed.

Lemma flag_on_lor f a b : flag_on f (Z.lor a b) = flag_on f a || flag_on f b.
Proof.
  assert (C : forall x y, flag_on x y = flag_on y x) by (intros x y; unfold flag_on; by rewrite Z.land_comm).
  rewrite (C f), (C f a), (C f b). apply flag_on_set.
Qed.

Lemma unwatched_bits c d inf : ctx_ok c -> entry_of c d = None -> flag_on (c_flag c) (flag_of d inf) = false.
Proof.
  intros HC HN. pose proof (ok_slot c HC d) as HS. pose proof (entry_of_flag c d HC) as E.
  rewrite HN in E. simpl in E. rewrite E in HS. destruct HS as [_ HI].
  unfold flag_of. destruct inf; [|done]. by rewrite flag_on_lor, E, HI.
Qed.

Lemma unwatched_slot c d : ctx_ok c -> entry_of c d = None -> slot d c = no_info.
Proof.
  intros HC HN. pose proof (ok_slot c HC d) as HS. rewrite (entry_of_flag c d HC), HN in HS. by destruct HS.
Qed.

Lemma wp_update_watch id c d e fd (w : ow K) (Q : ow K -> unit -> Prop) :
  objs w !! id = Some c -> ctx_ok c -> c_fd c = fd -> entry_of c d = None ->
  Q (put_ctx id (add_entry d e c) w) tt ->
  wp (ctx_update_for_watch id (flag_of d (e_inf e)) fd (e_cookie e) (e_fn e) (e_err e)) w Q.
Proof.
  intros E HC <- HN HQ. pose proof (unwatched_bits c d (e_inf e) HC HN) as HB.
  pose proof (unwatched_slot c d HC HN) as HS. unfold ctx_update_for_watch.
  rewrite wp_bind, wp_assert. split; [by destruct d, (e_inf e)|].
  rewrite wp_bind. eapply wp_deref; [exact E|]. rewrite wp_bind, wp_assert. split; [apply Z.eqb_refl|].
  rewrite wp_bind, wp_assert. split; [by apply negb_false_iff in HB|].
  unfold put_ctx, add_entry in HQ. rewrite wp_bind.
  destruct d, (e_inf e); cbn [flag_of bit inf_bit slot] in *; const_flags; cbn [when];
    rewrite ?wp_ret, ?wp_bind; (eapply wp_deref; [exact E|]); unfold fill_slot; rewrite HS;
    cbn [null i_fn i_err i_cookie no_info]; cbn beta iota zeta; rewrite ?flag_set_set; exact HQ.
Qed.

Lemma put_ctx_id id c (w : ow K) : objs w !! id = Some c -> put_ctx id c w = w.
Proof. intros E. destruct w. unfold put_ctx, set_objs. simpl in *. by rewrite insert_id. Qed.

Lemma wp_update_unwatch id c d fd (w : ow K) (Q : ow K -> unit -> Prop) :
  objs w !! id = Some c -> c_fd c = fd ->
  Q (put_ctx id (drop_entry d c) w) tt ->
  wp (ctx_update_for_unwatch id (bit d) fd) w Q.
Proof.
  intros E <- HQ. unfold ctx_update_for_unwatch.
  rewrite wp_bind. eapply wp_deref; [exact E|]. rewrite wp_bind, wp_assert. split; [apply Z.eqb_refl|].
  unfold drop_entry in HQ. rewrite wp_bind.
  destruct d; cbn [bit flag_of inf_bit] in *; const_flags; cbn [andb].
  - destruct (flag_on (c_flag c) IOE_READ).
    + cbn [when]. unfold store. rewrite wp_modify, wp_bind. eapply wp_deref; [apply lookup_insert_eq|]. exact HQ.
    + cbn [when]. rewrite wp_ret, wp_bind. eapply wp_deref; [exact E|]. by rewrite put_ctx_id in HQ.
  - cbn [when]. rewrite wp_ret, wp_bind. eapply wp_deref; [exact E|].
    destruct (flag_on (c_flag c) IOE_WRITE); [exact HQ|]. by rewrite put_ctx_id in HQ.
Qed.

(** *** The invariant *)
Section inv.
Context (k : poll_kind).

Lemma ctx_inj w fd fd' id : ctxs_ok k w -> m_ctxs w !! fd = Some id -> m_ctxs w !! fd' = Some id -> fd' = fd.
Proof.
  intros HI E E'. destruct (cx_at k w HI _ _ E) as (c & Eo & _ & <- & _).
  destruct (cx_at k w HI _ _ E') as (c' & Eo' & _ & <- & _). congruence.
Qed.

Lemma ctx_at_put w fd id c fd' : ctxs_ok k w -> m_ctxs w !! fd = Some id ->
  ctx_at (put_ctx id c w) fd' = if decide (fd' = fd) then Some c else ctx_at w fd'.
Proof.
  intros HI E. unfold ctx_at. cbn [m_ctxs put_ctx set_objs objs].
  destruct (decide (fd' = fd)) as [->|Hf]; [rewrite E; simpl; apply lookup_insert_eq|].
  destruct (m_ctxs w !! fd') as [id'|] eqn:E'; [|done]. simpl. rewrite lookup_insert_ne; [done|].
  intros ->. by apply Hf, (ctx_inj w fd fd' id').
Qed.

Lemma watching_put w fd id c fd' d : ctxs_ok k w -> m_ctxs w !! fd = Some id ->
  watching (put_ctx id c w) fd' d = if decide (fd' = fd) then entry_of c d else watching w fd' d.
Proof. intros HI E. unfold watching. rewrite (ctx_at_put w fd) by done. by case_decide. Qed.

Lemma watching_at w fd id c d : m_ctxs w !! fd = Some id -> objs w !! id = Some c ->
  watching w fd d = entry_of c d.
Proof. intros E E'. unfold watching, ctx_at. rewrite E. simpl. by rewrite E'. Qed.

Lemma watching_erase w fd fd' d :
  watching (set_m_ctxs (delete fd (m_ctxs w)) w) fd' d = forget fd (watching w) fd' d.
Proof.
  unfold watching, ctx_at, forget. cbn [m_ctxs set_m_ctxs objs]. case_decide as Hf.
  - subst. by rewrite lookup_delete_eq.
  - by rewrite lookup_delete_ne.
Qed.

(** The context of a descriptor changes. *)
Lemma ctxs_ok_put w fd id c : ctxs_ok k w -> m_ctxs w !! fd = Some id ->
  ctx_ok c -> c_fd c = fd -> c_poll_type c = k -> c_flag c <> 0 -> ctxs_ok k (put_ctx id c w).
Proof.
  intros HI E HC Hf Hk Hn. destruct (cx_at k w HI _ _ E) as (c0 & E0 & _ & _ & _ & _ & H0). constructor.
  - intros fd' id' E'. cbn [m_ctxs put_ctx set_objs objs] in *.
    destruct (decide (id' = id)) as [->|Hi].
    + assert (fd' = fd) as -> by (by eapply ctx_inj). exists c. by rewrite lookup_insert_eq.
    + destruct (cx_at k w HI _ _ E') as (c' & Ec' & H'). exists c'. by rewrite lookup_insert_ne.
  - intros id' c' E'. cbn [m_ctxs put_ctx set_objs objs obj_next] in *.
    destruct (decide (id' = id)) as [->|Hi]; [by eapply (cx_next k w HI)|].
    rewrite lookup_insert_ne in E' by done. by eapply (cx_next k w HI).
  - apply HI.
Qed.

(** A context no descriptor has changes. *)
Lemma ctxs_ok_put_other w id c : ctxs_ok k w -> (forall fd, m_ctxs w !! fd <> Some id) -> 0 < id < obj_next w ->
  ctxs_ok k (put_ctx id c w).
Proof.
  intros HI Hn Hi. constructor.
  - intros fd' id' E'. cbn [m_ctxs put_ctx set_objs objs] in *.
    destruct (cx_at k w HI _ _ E') as (c' & Ec' & H'). exists c'.
    rewrite lookup_insert_ne; [done|]. intros ->. by apply (Hn fd').
  - intros id' c' E'. cbn [m_ctxs put_ctx set_objs objs obj_next] in *.
    destruct (decide (id' = id)) as [->|Hd]; [done|].
    rewrite lookup_insert_ne in E' by done. by eapply (cx_next k w HI).
  - apply HI.
Qed.

Lemma ctxs_ok_erase w fd : ctxs_ok k w -> ctxs_ok k (set_m_ctxs (delete fd (m_ctxs w)) w).
Proof.
  intros HI. constructor; [|apply HI..]. intros fd' id E. cbn [m_ctxs set_m_ctxs objs] in *.
  apply lookup_delete_Some in E as [_ E]. by apply (cx_at k w HI).
Qed.

(** A new context gets a descriptor. *)
Definition add_ctx (fd : Z) (c : observer_ctx) (w : ow K) : ow K :=
  set_m_ctxs (<[fd := obj_next w]> (m_ctxs w))
    (set_obj_next (obj_next w + 1) (set_objs (<[obj_next w := c]> (objs w)) w)).

Lemma fresh_id w fd : ctxs_ok k w -> m_ctxs w !! fd <> Some (obj_next w).
Proof.
  intros HI E. destruct (cx_at k w HI _ _ E) as (c & Ec & _).
  pose proof (cx_next k w HI _ _ Ec). lia.
Qed.

Lemma ctxs_ok_add w fd c : ctxs_ok k w -> m_ctxs w !! fd = None -> 0 < fd ->
  ctx_ok c -> c_fd c = fd -> c_poll_type c = k -> c_flag c <> 0 -> ctxs_ok k (add_ctx fd c w).
Proof.
  intros HI E H0 HC Hf Hk Hn. pose proof (cx_pos k w HI). constructor.
  - intros fd' id E'. unfold add_ctx in *. cbn [m_ctxs set_m_ctxs set_obj_next set_objs objs] in *.
    destruct (decide (fd' = fd)) as [->|Hd].
    + rewrite lookup_insert_eq in E'. injection E' as <-. exists c. by rewrite lookup_insert_eq.
    + rewrite lookup_insert_ne in E' by done. destruct (cx_at k w HI _ _ E') as (c' & Ec' & H').
      exists c'. rewrite lookup_insert_ne; [done|]. intros Ei. apply (fresh_id w fd' HI). by rewrite E', Ei.
  - intros id c' E'. unfold add_ctx in *. cbn [m_ctxs set_m_ctxs set_obj_next set_objs objs obj_next] in *.
    destruct (decide (id = obj_next w)) as [->|Hd]; [lia|].
    rewrite lookup_insert_ne in E' by done. pose proof (cx_next k w HI _ _ E'). lia.
  - unfold add_ctx. cbn. lia.
Qed.

(** A new context that no descriptor has. *)
Definition alloc_ctx (c : observer_ctx) (w : ow K) : ow K :=
  set_obj_next (obj_next w + 1) (set_objs (<[obj_next w := c]> (objs w)) w).

Lemma alloc_at w fd id c : ctxs_ok k w -> m_ctxs w !! fd = Some id ->
  objs (alloc_ctx c w) !! id = objs w !! id.
Proof.
  intros HI E. unfold alloc_ctx. cbn [objs set_obj_next set_objs]. rewrite lookup_insert_ne; [done|].
  intros Ei. apply (fresh_id w fd HI). by rewrite E, Ei.
Qed.
Lemma watching_alloc w c : ctxs_ok k w -> watching (alloc_ctx c w) ≡ watching w.
Proof.
  intros HI fd d. unfold watching, ctx_at. change (m_ctxs (alloc_ctx c w)) with (m_ctxs w).
  destruct (m_ctxs w !! fd) as [id|] eqn:E; [|done]. cbn [mbind option_bind]. by rewrite (alloc_at w fd).
Qed.
Lemma ctxs_ok_alloc w c : ctxs_ok k w -> ctxs_ok k (alloc_ctx c w).
Proof.
  intros HI. pose proof (cx_pos k w HI). constructor.
  - intros fd id E. change (m_ctxs (alloc_ctx c w)) with (m_ctxs w) in E.
    rewrite (alloc_at w fd) by done. by apply (cx_at k w HI).
  - intros id c' E'. unfold alloc_ctx in *. cbn [set_obj_next set_objs objs obj_next] in *.
    destruct (decide (id = obj_next w)) as [->|Hd]; [lia|].
    rewrite lookup_insert_ne in E' by done. pose proof (cx_next k w HI _ _ E'). lia.
  - unfold alloc_ctx. cbn. lia.
Qed.
Lemma add_alloc w fd c c' :
  set_m_ctxs (<[fd := obj_next w]> (m_ctxs (put_ctx (obj_next w) c' (alloc_ctx c w))))
    (put_ctx (obj_next w) c' (alloc_ctx c w)) = add_ctx fd c' w.
Proof.
  unfold put_ctx, alloc_ctx, add_ctx, set_m_ctxs, set_objs, set_obj_next. simpl. by rewrite insert_insert_eq.
Qed.

Lemma watching_add w fd c fd' d : ctxs_ok k w ->
  watching (add_ctx fd c w) fd' d = if decide (fd' = fd) then entry_of c d else watching w fd' d.
Proof.
  intros HI. unfold watching, ctx_at, add_ctx. cbn [m_ctxs set_m_ctxs set_obj_next set_objs objs].
  case_decide as Hf.
  - subst. rewrite lookup_insert_eq. simpl. by rewrite lookup_insert_eq.
  - rewrite lookup_insert_ne by done. destruct (m_ctxs w !! fd') as [id|] eqn:E; [|done]. simpl.
    rewrite lookup_insert_ne; [done|]. intros Ei. apply (fresh_id w fd' HI). by rewrite E, Ei.
Qed.
End inv.

Lemma new_ctx_ok k fd : ctx_ok (new_ctx k fd).
Proof. constructor; [by intros [] | done]. Qed.
Lemma new_ctx_entry k fd d : entry_of (new_ctx k fd) d = None.
Proof. by destruct d. Qed.
End spec.
