(* ===== verification/EpollProofs.v ===== *)
(** * EpollProofs: the observer of Linux keeps its promises

    [epoll_laws] is the documented behaviour of the calls; what other threads do in the meantime
    is in the answers: descriptors they close disappear from the interest list.  The invariant
    [epoll_inv]: every pointer the kernel holds is that of a context the observer holds, and
    only directions that are watched are asked for.  Instances of the interfaces of
    ObserverSpec. *)

From S2P Require Import Prelude Effects Address Wcp SocketData SockFns SocketBase Observer.
From S2P Require Import Epoll SocketLaws ObserverSpec.

(** A reported mask: of the events asked for, and errors. *)
Definition reported (m e : Z) : Prop :=
  flag_clear e (Z.lor (flag_clear m EPOLLET) (Z.lor EPOLLERR EPOLLHUP)) = 0.

Class epoll_laws (K : Type) `{system K} `{!epoll_system K} := {
  (* the interest list of an open epoll descriptor *)
  epoll_open : K -> Z -> Prop;
  interests : K -> Z -> gmap Z (Z * Z);
  (* urgent data is waiting at some descriptor *)
  urgent : K -> Prop;
  epoll_ctl_law k ep op fd ev : epoll_open k ep ->
    match epoll_ctl ep op fd ev k with
    | (k', (rt, errno)) =>
        epoll_open k' ep /\ (urgent k' -> urgent k)
        /\ ((rt = 0 /\ (op <> EPOLL_CTL_ADD -> is_Some (interests k ep !! fd))
             /\ interests k' ep ⊆ match op with
                                         | EPOLL_CTL_DEL => delete fd (interests k ep)
                                         | _ => <[fd := ev]> (interests k ep)
                                         end)
            \/ (rt = -1 /\ interests k' ep ⊆ interests k ep
                /\ (op <> EPOLL_CTL_ADD -> interests k' ep !! fd = None)))
    end;
  epoll_wait_law k ep n : epoll_open k ep ->
    match epoll_wait ep n k with
    | (k', (rt, errno, evs)) =>
        epoll_open k' ep /\ (urgent k' -> urgent k) /\ interests k' ep ⊆ interests k ep
        /\ exists fds, NoDup fds /\ Forall2 (fun fd ev => exists m,
             interests k ep !! fd = Some (m, ev.2) /\ reported m ev.1 /\ 0 <= ev.1 < 4294967296
             /\ (~ urgent k -> flag_on ev.1 EPOLLPRI = false)) fds evs
    end;
  epoll_create_law k n : 0 < n ->
    match epoll_create n k with
    | (k', (rt, errno)) =>
        (urgent k' -> urgent k) /\ (rt = -1 \/ (0 < rt /\ epoll_open k' rt /\ interests k' rt = ∅))
    end;
  getsockopt_epoll k ep fd level name : epoll_open k ep ->
    let k' := (sys_getsockopt fd level name k).1 in
    epoll_open k' ep /\ (urgent k' -> urgent k) /\ interests k' ep ⊆ interests k ep
}.

Definition in_bit (d : dir) : Z := match d with Rd => EPOLLIN | Wr => EPOLLOUT end.
Definition all_bits : Z := Z.lor EPOLLIN (Z.lor EPOLLOUT (Z.lor EPOLLPRI EPOLLET)).

Section masks.
Import epoll.

Lemma interest_bits d inf : flag_on (interest (flag_of d inf)) (in_bit d) = true
  /\ (forall d', d' <> d -> flag_on (interest (flag_of d inf)) (in_bit d') = false)
  /\ flag_clear (interest (flag_of d inf)) all_bits = 0.
Proof. destruct d, inf; (split; [done|]; split; [by intros [] ?|done]). Qed.

Lemma interest_without_bits f d :
  (forall d', flag_on (interest_without f (bit d)) (in_bit d') = negb (bool_decide (d' = d)) && flag_on f (bit d'))
  /\ flag_clear (interest_without f (bit d)) all_bits = 0.
Proof.
  unfold interest_without, interest. cbn [bit].
  destruct (flag_on f IOE_READ) eqn:ER, (flag_on f IOE_WRITE) eqn:EW, d;
    (split; [intros []; cbn [bit]; rewrite ?ER, ?EW; done | done]).
Qed.
End masks.

Section epoll_proofs.
Context {K} `{EL : epoll_laws K}.
Local Abbreviation ow := (ow K).

Definition kmap (w : ow) : gmap Z (Z * Z) := interests (kern (oenv w)) (m_handle w).

Record epoll_inv (w : ow) : Prop := {
  ei_ctxs : ctxs_ok T_EPOLL w;
  ei_handle : 0 < m_handle w;
  ei_open : epoll_open (kern (oenv w)) (m_handle w);
  ei_calm : ~ urgent (kern (oenv w));
  ei_kernel fd m ptr : kmap w !! fd = Some (m, ptr) ->
    m_ctxs w !! fd = Some ptr /\ flag_clear m all_bits = 0
    /\ (forall d, flag_on m (in_bit d) = true -> is_Some (watching w fd d))
}.

Definition epoll_lost (w : ow) (fd : Z) : Prop := kmap w !! fd = None.

(** A call of the kernel that only loses descriptors. *)
Definition with_kern (k : K) (w : ow) : ow := set_oenv (set_kern k (oenv w)) w.

Lemma wp_out {A} (f : K -> K * A) w (Q : ow -> A -> Prop) :
  wp (out_env (sys f)) w Q <-> let '(k, a) := f (kern (oenv w)) in Q (with_kern k w) a.
Proof. unfold out_env. rewrite wp_zoom, wp_sys. by destruct (f (kern (oenv w))). Qed.

Lemma with_kern_inv k w : epoll_inv w -> epoll_open k (m_handle w) -> (urgent k -> urgent (kern (oenv w))) ->
  interests k (m_handle w) ⊆ kmap w -> epoll_inv (with_kern k w).
Proof.
  intros [HC Hh Ho Hu Hk] Ho' Hu' Hs. split; [|done..|auto|].
  - destruct HC. by constructor.
  - intros fd m ptr E. apply (lookup_weaken _ _ _ _ E) in Hs. by apply Hk.
Qed.
Lemma with_kern_watching k w : watching (with_kern k w) ≡ watching w.
Proof. done. Qed.

Lemma posted_inv l w : epoll_inv w -> epoll_inv (set_scheduled l w).
Proof. intros [[] ? ? ? ?]. by repeat (constructor; try done). Qed.
Lemma alloc_inv c w : epoll_inv w -> epoll_inv (alloc_ctx c w).
Proof.
  intros HI. pose proof (ei_ctxs w HI) as HC. constructor; [by apply ctxs_ok_alloc | apply HI..|].
  intros fd m ptr E. destruct (ei_kernel w HI _ _ _ E) as (H1 & H2 & H3). split; [done|]. split; [done|].
  intros d Hd. rewrite (watching_alloc _ w c HC fd d). auto.
Qed.

(** The table after a watch. *)
Lemma watch_bits (T T' : table) fd d e : (forall d', T' fd d' = if decide (d' = d) then Some e else T fd d') ->
  (forall fd' d', fd' <> fd -> T' fd' d' = T fd' d') -> T' ≡ upd fd d (Some e) T.
Proof.
  intros H1 H2 fd' d'. unfold upd. destruct (decide (fd' = fd)) as [->|Hf].
  - rewrite H1. destruct (decide (d' = d)); [rewrite decide_True by done | rewrite decide_False by tauto]; done.
  - rewrite decide_False by tauto. by apply H2.
Qed.

Lemma added_flag d e c : ctx_ok c -> c_flag (add_entry d e c) <> 0.
Proof.
  intros HC E. destruct (bits_of_add c d e d) as [HB _]. rewrite E, bool_decide_true in HB by done. done.
Qed.
Lemma added_fd d e c : c_fd (add_entry d e c) = c_fd c /\ c_poll_type (add_entry d e c) = c_poll_type c.
Proof. by destruct d, c. Qed.
Lemma dropped_fd d c : c_fd (drop_entry d c) = c_fd c /\ c_poll_type (drop_entry d c) = c_poll_type c.
Proof. unfold drop_entry. destruct (flag_on _ _), d, c; done. Qed.
#[local] Hint Resolve added_flag : core.

(** The kernel part of the invariant when a descriptor has been asked for. *)
Lemma kernel_after_watch w w' fd d inf id : epoll_inv w ->
  kmap w' ⊆ <[fd := (epoll.interest (flag_of d inf), id)]> (kmap w) ->
  m_ctxs w' !! fd = Some id -> (forall fd', fd' <> fd -> m_ctxs w' !! fd' = m_ctxs w !! fd') ->
  is_Some (watching w' fd d) -> (forall fd' d', fd' <> fd -> watching w' fd' d' = watching w fd' d') ->
  forall fd' m ptr, kmap w' !! fd' = Some (m, ptr) ->
    m_ctxs w' !! fd' = Some ptr /\ flag_clear m all_bits = 0
    /\ (forall d, flag_on m (in_bit d) = true -> is_Some (watching w' fd' d)).
Proof.
  intros HI Hs Hid Hm Hd Ho fd' m ptr E. apply (lookup_weaken _ _ _ _ E) in Hs.
  destruct (decide (fd' = fd)) as [->|Hf].
  - rewrite lookup_insert_eq in Hs. injection Hs as <- <-. destruct (interest_bits d inf) as (_ & Hb & Hc).
    split; [done|]. split; [done|]. intros d' Hd'. destruct (decide (d' = d)) as [->|Hn]; [done|].
    by rewrite Hb in Hd'.
  - rewrite lookup_insert_ne in Hs by done. destruct (ei_kernel w HI _ _ _ Hs) as (H1 & H2 & H3).
    rewrite Hm by done. split; [done|]. split; [done|]. intros d' Hd'. rewrite Ho by done. auto.
Qed.

Lemma watch_known w fd d e id c k' : epoll_inv w -> m_ctxs w !! fd = Some id -> objs w !! id = Some c ->
  entry_of c d = None ->
  epoll_open k' (m_handle w) -> (urgent k' -> urgent (kern (oenv w))) ->
  interests k' (m_handle w) ⊆ <[fd := (epoll.interest (flag_of d (e_inf e)), id)]> (kmap w) ->
  let w' := put_ctx id (add_entry d e c) (with_kern k' w) in
  epoll_inv w' /\ watching w' ≡ upd fd d (Some e) (watching w).
Proof.
  intros HI E Ec HN Ho Hu Hs w'. pose proof (ei_ctxs w HI) as HC.
  destruct (cx_at _ w HC _ _ E) as (c0 & Ec0 & Hok & Hf & Hp & _ & _). replace c0 with c in * by congruence.
  assert (HW : forall fd' d', watching w' fd' d' = if decide (fd' = fd) then entry_of (add_entry d e c) d' else watching w fd' d').
  { intros fd' d'. exact (watching_put _ w fd id (add_entry d e c) fd' d' HC E). }
  assert (HT : watching w' ≡ upd fd d (Some e) (watching w)).
  { apply watch_bits; intros; rewrite HW; [|by rewrite decide_False].
    rewrite decide_True, entry_of_add by done. by rewrite (watching_at w fd id c). }
  split; [|exact HT]. constructor; [|apply HI|done|intros U; by apply (ei_calm w HI), Hu|].
  - apply (ctxs_ok_put _ (with_kern k' w) fd); [|done|by apply add_ok|..].
    + destruct HC. by constructor.
    + by rewrite (proj1 (added_fd _ _ _)).
    + by rewrite (proj2 (added_fd _ _ _)).
    + by apply added_flag.
  - apply (kernel_after_watch w w' fd d (e_inf e) id); try done.
    + rewrite (HT fd d). unfold upd. by rewrite decide_True.
    + intros fd' d' Hn. by rewrite HW, decide_False.
Qed.

Lemma watch_new w fd d e k' : epoll_inv w -> m_ctxs w !! fd = None -> 0 < fd ->
  epoll_open k' (m_handle w) -> (urgent k' -> urgent (kern (oenv w))) ->
  interests k' (m_handle w) ⊆ <[fd := (epoll.interest (flag_of d (e_inf e)), obj_next w)]> (kmap w) ->
  let w' := with_kern k' (add_ctx fd (add_entry d e (new_ctx T_EPOLL fd)) w) in
  epoll_inv w' /\ watching w' ≡ upd fd d (Some e) (watching w).
Proof.
  intros HI E Hfd Ho Hu Hs w'. pose proof (ei_ctxs w HI) as HC. pose proof (new_ctx_ok T_EPOLL fd) as Hn.
  assert (HW : forall fd' d', watching w' fd' d'
      = if decide (fd' = fd) then entry_of (add_entry d e (new_ctx T_EPOLL fd)) d' else watching w fd' d').
  { intros fd' d'. exact (watching_add _ w fd _ fd' d' HC). }
  assert (H0 : forall d', watching w fd d' = None).
  { intros d'. unfold watching, ctx_at. by rewrite E. }
  assert (HT : watching w' ≡ upd fd d (Some e) (watching w)).
  { apply watch_bits; intros; rewrite HW; [|by rewrite decide_False].
    rewrite decide_True, entry_of_add, new_ctx_entry, H0 by (done || apply new_ctx_entry). done. }
  split; [|exact HT]. constructor; [|apply HI|done|intros U; by apply (ei_calm w HI), Hu|].
  - assert (HA : ctxs_ok T_EPOLL (add_ctx fd (add_entry d e (new_ctx T_EPOLL fd)) w)).
    { apply ctxs_ok_add; try done; [apply add_ok; [done | apply new_ctx_entry] | by destruct d.. | by apply added_flag]. }
    destruct HA. by constructor.
  - apply (kernel_after_watch w w' fd d (e_inf e) (obj_next w)); try done.
    + apply lookup_insert_eq.
    + intros fd' Hd. apply lookup_insert_ne. congruence.
    + rewrite (HT fd d). unfold upd. by rewrite decide_True.
    + intros fd' d' Hd. by rewrite HW, decide_False.
Qed.

Lemma epoll_watch_law w fd d e : epoll_inv w -> 0 < fd -> watching w fd d = None ->
  wp (epoll.watch (flag_of d (e_inf e)) fd (Some (e_cookie e)) (Some (e_fn e)) (Some (e_err e))) w
    (fun w' _ => epoll_inv w' /\
      ((watching w' ≡ upd fd d (Some e) (watching w) /\ scheduled w' = scheduled w)
       \/ (watching w' ≡ watching w /\
           exists rt, scheduled w' = scheduled w ++ [P_error (e_err e) rt (Some (e_cookie e))]))).
Proof.
  intros HI Hfd HN. pose proof (ei_ctxs w HI) as HC. unfold epoll.watch.
  rewrite wp_bind, wp_assert. split; [lia|]. rewrite wp_bind, wp_assert. split; [by destruct d, (e_inf e)|].
  unfold find_ctx. rewrite wp_bind, wp_gets, wp_bind.
  destruct (m_ctxs w !! fd) as [id|] eqn:E.
  - rewrite wp_ret. rewrite wp_bind, wp_gets, wp_bind, wp_assert. split; [apply Z.ltb_lt, HI|].
    rewrite wp_bind, wp_out.
    pose proof (epoll_ctl_law (kern (oenv w)) (m_handle w) EPOLL_CTL_MOD fd
      (epoll.interest (flag_of d (e_inf e)), id) (ei_open w HI)) as HL.
    destruct (epoll_ctl _ _ _ _ _) as [k' [rt errno]]. destruct HL as (Ho & Hu & [(-> & Hr & Hs) | (-> & Hs & _)]).
    + destruct (cx_at _ w HC _ _ E) as (c & Ec & Hok & Hf & Hp & _ & _).
      rewrite (watching_at w fd id c) in HN by done.
      destruct (watch_known w fd d e id c k') as [HI' HT]; try done.
      cbn beta iota. change (0 =? -1) with false. cbn iota.
      rewrite wp_bind. eapply wp_deref; [exact Ec|]. rewrite wp_bind, wp_assert.
      split; [apply negb_false_iff; by apply unwatched_bits|]. rewrite wp_bind.
      eapply wp_update_watch; [exact Ec | done..|]. cbn [when bool_decide].
      rewrite bool_decide_false by done. cbn [when]. rewrite wp_ret. auto.
    + cbn beta iota. change (-1 =? -1) with true. cbn iota. unfold post. rewrite wp_modify.
      split; [|right; split; [done | by eexists]]. by apply posted_inv, with_kern_inv.
  - unfold alloc. rewrite !wp_bind, wp_gets, wp_bind, wp_modify, !wp_ret.
    rewrite wp_bind, wp_gets, wp_bind, wp_assert. split; [apply Z.ltb_lt, HI|].
    rewrite wp_bind, wp_out. cbn [oenv m_handle set_obj_next set_objs].
    pose proof (epoll_ctl_law (kern (oenv w)) (m_handle w) EPOLL_CTL_ADD fd
      (epoll.interest (flag_of d (e_inf e)), obj_next w) (ei_open w HI)) as HL.
    destruct (epoll_ctl _ _ _ _ _) as [k' [rt errno]]. destruct HL as (Ho & Hu & [(-> & Hr & Hs) | (-> & Hs & _)]).
    + destruct (watch_new w fd d e k') as [HI' HT]; try done.
      cbn beta iota. change (0 =? -1) with false. cbn iota.
      rewrite wp_bind. eapply wp_deref; [apply lookup_insert_eq|]. rewrite wp_bind, wp_assert.
      split; [done|]. rewrite wp_bind.
      eapply wp_update_watch; [apply lookup_insert_eq | apply new_ctx_ok | done | apply new_ctx_entry|].
      rewrite bool_decide_true by done. cbn [when]. unfold insert_ctx. rewrite wp_modify.
      change (with_kern k' _) with (alloc_ctx (new_ctx T_EPOLL fd) (with_kern k' w)).
      rewrite (add_alloc (with_kern k' w)). auto.
    + cbn beta iota. change (-1 =? -1) with true. cbn iota. unfold post. rewrite wp_modify.
      change (with_kern k' _) with (with_kern k' (alloc_ctx (new_ctx T_EPOLL fd) w)).
      split; [|right; split; [by apply watching_alloc with (k := T_EPOLL) | by eexists]].
      apply posted_inv, with_kern_inv; try done. by apply alloc_inv.
Qed.

(** *** Unwatch *)
Definition other (d : dir) : dir := match d with Rd => Wr | Wr => Rd end.

Lemma del_test f d : (Z.land (Z.land f IOE_RW) (Z.lnot (bit d)) =? 0) = negb (flag_on f (bit (other d))).
Proof. rewrite <- Z.land_assoc. unfold flag_on. rewrite negb_involutive. by destruct d. Qed.

Lemma drop_flag c d : ctx_ok c -> c_flag (drop_entry d c) = 0 <-> flag_on (c_flag c) (bit (other d)) = false.
Proof.
  intros HC. rewrite ctx_idle by (by apply drop_ok). split.
  - intros Hd. specialize (Hd (other d)). destruct (bits_of_drop c d (other d) HC) as [E _].
    rewrite E, bool_decide_false in Hd by (by destruct d). done.
  - intros Hd' d'. destruct (bits_of_drop c d d' HC) as [-> _].
    destruct (decide (d' = d)) as [->|Hd]; [by rewrite bool_decide_true|].
    rewrite bool_decide_false by done. destruct d, d'; done.
Qed.

Record unwatched (w w' : ow) (fd : Z) (d : dir) : Prop := {
  uw_sched : scheduled w' = scheduled w;
  uw_table : watching w' ≡ upd fd d None (watching w)
             \/ watching w' ≡ forget fd (watching w) /\ epoll_lost w' fd;
  uw_maps fd' : fd' <> fd -> m_ctxs w' !! fd' = m_ctxs w !! fd';
  uw_objs id c : objs w !! id = Some c ->
    objs w' !! id = Some c \/ m_ctxs w !! fd = Some id /\ objs w' !! id = Some (drop_entry d c);
  uw_lost fd' : epoll_lost w fd' -> epoll_lost w' fd'
}.

Lemma unwatch_nothing (w : ow) fd d : watching w fd d = None -> watching w ≡ upd fd d None (watching w).
Proof. intros E fd' d'. unfold upd. case_decide as Hd; [by destruct Hd as [-> ->] | done]. Qed.

(** The contexts after a direction has been dropped. *)
Lemma drop_table (w : ow) k' fd d id c : ctxs_ok T_EPOLL w -> m_ctxs w !! fd = Some id -> objs w !! id = Some c -> ctx_ok c ->
  watching (put_ctx id (drop_entry d c) (with_kern k' w)) ≡ upd fd d None (watching w).
Proof.
  intros HC E Ec Hok fd' d'. rewrite (watching_put T_EPOLL (with_kern k' w) fd id) by (done || by destruct HC).
  unfold upd. destruct (decide (fd' = fd)) as [->|Hf].
  - rewrite entry_of_drop by done. rewrite (watching_at w fd id c) by done.
    destruct (decide (d' = d)); [rewrite decide_True by done | rewrite decide_False by tauto]; done.
  - by rewrite decide_False by tauto.
Qed.

(** One direction goes, the other stays. *)
Lemma unwatch_mod w fd d id c k' : epoll_inv w -> m_ctxs w !! fd = Some id -> objs w !! id = Some c ->
  flag_on (c_flag c) (bit (other d)) = true ->
  epoll_open k' (m_handle w) -> (urgent k' -> urgent (kern (oenv w))) ->
  is_Some (kmap w !! fd) ->
  interests k' (m_handle w) ⊆ <[fd := (epoll.interest_without (c_flag c) (bit d), id)]> (kmap w) ->
  let w' := put_ctx id (drop_entry d c) (with_kern k' w) in epoll_inv w' /\ unwatched w w' fd d.
Proof.
  intros HI E Ec Hb Ho Hu [x Hr] Hs w'. pose proof (ei_ctxs w HI) as HC.
  destruct (cx_at _ w HC _ _ E) as (c0 & Ec0 & Hok & Hf & Hp & _ & _). replace c0 with c in * by congruence.
  pose proof (drop_table w k' fd d id c HC E Ec Hok) as HT. split.
  - constructor; [|apply HI|done|intros U; by apply (ei_calm w HI), Hu|].
    + apply (ctxs_ok_put _ (with_kern k' w) fd); [by destruct HC|done|by apply drop_ok|..].
      * by rewrite (proj1 (dropped_fd _ _)).
      * by rewrite (proj2 (dropped_fd _ _)).
      * rewrite drop_flag, Hb by done. done.
    + intros fd' m ptr Em. apply (lookup_weaken _ _ _ _ Em) in Hs. unfold w'. change (m_ctxs _) with (m_ctxs w).
      destruct (decide (fd' = fd)) as [->|Hfd].
      * rewrite lookup_insert_eq in Hs. injection Hs as <- <-. destruct (interest_without_bits (c_flag c) d) as [Hi Hcl].
        split; [done|]. split; [done|]. intros d' Hd'. rewrite (HT fd d'). rewrite Hi in Hd'.
        apply andb_true_iff in Hd' as [Hd' Hbit]. apply negb_true_iff, bool_decide_eq_false in Hd'.
        unfold upd. rewrite decide_False by tauto. rewrite (watching_at w fd id c) by done.
        rewrite entry_of_flag in Hbit by done. by apply bool_decide_eq_true in Hbit.
      * rewrite lookup_insert_ne in Hs by done. destruct (ei_kernel w HI _ _ _ Hs) as (H1 & H2 & H3).
        split; [done|]. split; [done|]. intros d' Hd'. rewrite (HT fd' d'). unfold upd.
        rewrite decide_False by tauto. auto.
  - constructor; [done | by left | done| |].
    + intros id' c' E'. unfold w', put_ctx. cbn [objs set_objs with_kern set_oenv].
      destruct (decide (id' = id)) as [->|Hi]; [right | left; by rewrite lookup_insert_ne].
      rewrite lookup_insert_eq. split; [done|]. congruence.
    + unfold epoll_lost. intros fd' Hl. change (kmap w') with (interests k' (m_handle w)).
      eapply lookup_weaken_None; [|exact Hs]. rewrite lookup_insert_ne; [done|]. intros <-. congruence.
Qed.

(** The descriptor goes, and its context is at rest. *)
Definition erased (fd id : Z) (c : observer_ctx) (w : ow) : ow :=
  put_ctx id c (set_m_ctxs (delete fd (m_ctxs w)) w).

Lemma erase_inv w k' fd id c : epoll_inv w -> m_ctxs w !! fd = Some id ->
  epoll_open k' (m_handle w) -> (urgent k' -> urgent (kern (oenv w))) ->
  interests k' (m_handle w) ⊆ kmap w -> interests k' (m_handle w) !! fd = None ->
  let w' := erased fd id c (with_kern k' w) in
  epoll_inv w' /\ watching w' ≡ forget fd (watching w).
Proof.
  intros HI E Ho Hu Hs Hn w'. pose proof (ei_ctxs w HI) as HC.
  assert (Hfree : forall fd', delete fd (m_ctxs w) !! fd' <> Some id).
  { intros fd' E'. apply lookup_delete_Some in E' as [Hne E']. apply Hne. symmetry. by apply (ctx_inj T_EPOLL w fd fd' id). }
  assert (HT : watching w' ≡ forget fd (watching w)).
  { intros fd' d'. rewrite <- watching_erase. unfold watching, ctx_at, w', erased.
    cbn [m_ctxs put_ctx set_objs set_m_ctxs objs with_kern set_oenv].
    destruct (delete fd (m_ctxs w) !! fd') as [id'|] eqn:E'; [|done]. cbn [mbind option_bind].
    rewrite lookup_insert_ne; [done|]. intros <-. by apply (Hfree fd'). }
  split; [|exact HT]. destruct (cx_at _ w HC _ _ E) as (c0 & Ec0 & _).
  constructor; [|apply HI|done|intros U; by apply (ei_calm w HI), Hu|].
  - apply ctxs_ok_put_other; [|exact Hfree|exact (cx_next _ w HC _ _ Ec0)].
    pose proof (ctxs_ok_erase _ w fd HC) as HE. destruct HE. by constructor.
  - intros fd' m ptr Em. change (kmap w') with (interests k' (m_handle w)) in Em.
    assert (Hfd : fd' <> fd) by congruence. pose proof (lookup_weaken _ _ _ _ Em Hs) as Em'.
    destruct (ei_kernel w HI _ _ _ Em') as (H1 & H2 & H3). split.
    + change (m_ctxs w') with (delete fd (m_ctxs w)). by rewrite lookup_delete_ne.
    + split; [done|]. intros d' Hd'. rewrite (HT fd' d'). unfold forget. rewrite decide_False by done. auto.
Qed.

Lemma erase_unwatched w k' fd id c c' d : m_ctxs w !! fd = Some id -> objs w !! id = Some c ->
  (c' = c \/ c' = drop_entry d c) -> interests k' (m_handle w) ⊆ kmap w ->
  watching (erased fd id c' (with_kern k' w)) ≡ upd fd d None (watching w)
    \/ watching (erased fd id c' (with_kern k' w)) ≡ forget fd (watching w)
        /\ epoll_lost (erased fd id c' (with_kern k' w)) fd ->
  unwatched w (erased fd id c' (with_kern k' w)) fd d.
Proof.
  intros E Ec Hc Hs HT. constructor; [done | done | | |].
  - intros fd' Hd. unfold erased. cbn. by rewrite lookup_delete_ne.
  - intros id' c1 E1. unfold erased. cbn [objs put_ctx set_objs set_m_ctxs with_kern set_oenv].
    destruct (decide (id' = id)) as [->|Hi]; [|left; by rewrite lookup_insert_ne].
    rewrite lookup_insert_eq. assert (c1 = c) as -> by congruence.
    destruct Hc as [->| ->]; [by left | by right].
  - intros fd' Hl. by eapply lookup_weaken_None.
Qed.

Lemma epoll_unwatch_spec w fd d : epoll_inv w -> 0 < fd ->
  wp (epoll.unwatch (bit d) fd) w (fun w' _ => epoll_inv w' /\ unwatched w w' fd d).
Proof.
  intros HI Hfd. pose proof (ei_ctxs w HI) as HC. unfold epoll.unwatch, find_ctx.
  rewrite wp_bind, wp_assert. split; [lia|]. rewrite wp_bind, wp_gets, wp_bind, wp_assert.
  split; [apply Z.ltb_lt, HI|]. rewrite wp_bind, wp_gets.
  destruct (m_ctxs w !! fd) as [id|] eqn:E.
  2:{ rewrite wp_ret. split; [done|]. constructor; [done | | done | by left | done]. left.
      apply unwatch_nothing. unfold watching, ctx_at. by rewrite E. }
  destruct (cx_at _ w HC _ _ E) as (c & Ec & Hok & Hf & Hp & H0 & _).
  rewrite wp_bind. eapply wp_deref; [exact Ec|]. cbv zeta. rewrite del_test.
  destruct (interest_without_bits (c_flag c) d) as [Hi _].
  destruct (flag_on (c_flag c) (bit (other d))) eqn:Hb; cbn [negb].
  - rewrite !(decide_True (P := EPOLL_CTL_MOD = EPOLL_CTL_MOD)) by done.
    rewrite wp_bind, wp_assert. split.
    { pose proof (Hi (other d)) as Hio. rewrite Hb, bool_decide_false in Hio by (by destruct d).
      destruct d; cbn [other in_bit] in Hio; rewrite Hio; by rewrite ?orb_true_r. }
    rewrite wp_bind, wp_out.
    pose proof (epoll_ctl_law (kern (oenv w)) (m_handle w) EPOLL_CTL_MOD fd
      (epoll.interest_without (c_flag c) (bit d), id) (ei_open w HI)) as HL.
    destruct (epoll_ctl _ _ _ _ _) as [k' [rt errno]]. destruct HL as (Ho & Hu & [(-> & Hr & Hs) | (-> & Hs & Hl)]);
      cbn beta iota; [change (0 =? -1) with false | change (-1 =? -1) with true]; cbn iota.
    + rewrite wp_bind. eapply wp_update_unwatch; [exact Ec | done|].
      rewrite bool_decide_false by done. cbn [when]. rewrite wp_ret. apply unwatch_mod; try done. by apply Hr.
    + unfold erase_ctx. rewrite wp_modify. rewrite <- (put_ctx_id id c (set_m_ctxs _ _)) by done.
      destruct (erase_inv w k' fd id c) as [HI' HT]; try done; [by apply Hl|]. split; [done|].
      apply (erase_unwatched w k' fd id c); auto; []. right. split; [done | by apply Hl].
  - rewrite !(decide_False (P := EPOLL_CTL_DEL = EPOLL_CTL_MOD)) by done.
    rewrite wp_bind, wp_assert. split; [done|]. rewrite wp_bind, wp_out.
    pose proof (epoll_ctl_law (kern (oenv w)) (m_handle w) EPOLL_CTL_DEL fd (0, 0) (ei_open w HI)) as HL.
    destruct (epoll_ctl _ _ _ _ _) as [k' [rt errno]]. destruct HL as (Ho & Hu & [(-> & Hr & Hs) | (-> & Hs & Hl)]);
      cbn beta iota; [change (0 =? -1) with false | change (-1 =? -1) with true]; cbn iota.
    + assert (Hs' : interests k' (m_handle w) ⊆ kmap w) by (etrans; [exact Hs | apply delete_subseteq]).
      assert (Hl : interests k' (m_handle w) !! fd = None).
      { eapply lookup_weaken_None; [apply lookup_delete_eq | exact Hs]. }
      rewrite wp_bind. eapply wp_update_unwatch; [exact Ec | done|].
      rewrite bool_decide_true by done. cbn [when]. rewrite wp_bind. eapply wp_deref; [apply lookup_insert_eq|].
      rewrite wp_bind, wp_assert. split; [apply Z.eqb_eq; by apply drop_flag|].
      unfold erase_ctx. rewrite wp_modify.
      destruct (erase_inv w k' fd id (drop_entry d c)) as [HI' HT]; try done. split; [exact HI'|].
      apply (erase_unwatched w k' fd id c); auto.
    + unfold erase_ctx. rewrite wp_modify. rewrite <- (put_ctx_id id c (set_m_ctxs _ _)) by done.
      destruct (erase_inv w k' fd id c) as [HI' HT]; try done; [by apply Hl|]. split; [done|].
      apply (erase_unwatched w k' fd id c); auto; []. right. split; [done | by apply Hl].
Qed.

(** *** Events *)
Definition on_dir (d : dir) (ctx : Z) : M ow unit :=
  match d with Rd => epoll.on_read ctx | Wr => epoll.on_write ctx end.

Lemma wp_task_of c d en (w : ow) Q : ctx_ok c -> entry_of c d = Some en ->
  Q w (P_task (e_fn en) (e_cookie en)) -> wp (task_of (slot d c)) w Q.
Proof. intros HC E HQ. destruct (entry_of_slot c d en HC E) as [-> _]. exact HQ. Qed.

Lemma slot_errs c d : ctx_ok c -> (i_err (slot d c), i_cookie (slot d c)) = err_for (entry_of c d)
  /\ (i_fn (slot d c), i_cookie (slot d c)) = read_for (entry_of c d).
Proof.
  intros HC. destruct (entry_of c d) as [en|] eqn:E.
  - destruct (entry_of_slot c d en HC E) as [-> _]. done.
  - by rewrite (unwatched_slot c d HC E).
Qed.

(** The function of a direction is posted; a watch without end stays. *)
Lemma on_dir_spec d w id c en : epoll_inv w -> objs w !! id = Some c -> ctx_ok c -> 0 < c_fd c ->
  entry_of c d = Some en ->
  wp (on_dir d id) w (fun w' _ => exists w1, epoll_inv w1
    /\ w' = set_scheduled (scheduled w ++ [P_task (e_fn en) (e_cookie en)]) w1
    /\ if e_inf en then w1 = w else unwatched w w1 (c_fd c) d).
Proof.
  intros HI Ec HC Hf E. destruct (entry_of_slot c d en HC E) as [_ Hinf].
  assert (HT : wp (when (negb (e_inf en)) (epoll.unwatch (bit d) (c_fd c));; post (P_task (e_fn en) (e_cookie en))) w
    (fun w' _ => exists w1, epoll_inv w1
      /\ w' = set_scheduled (scheduled w ++ [P_task (e_fn en) (e_cookie en)]) w1
      /\ if e_inf en then w1 = w else unwatched w w1 (c_fd c) d)).
  { rewrite wp_bind. destruct (e_inf en); cbn [negb when].
    - rewrite wp_ret. exists w. done.
    - eapply wp_mono; [by apply epoll_unwatch_spec|]. intros w1 [] [HI1 HU]. exists w1.
      split; [done|]. split; [|done]. by rewrite <- (uw_sched _ _ _ _ HU). }
  destruct d; cbn [on_dir slot bit inf_bit] in *; unfold epoll.on_read, epoll.on_write; rewrite wp_bind;
    (eapply wp_deref; [exact Ec|]); rewrite wp_bind.
  - apply (wp_task_of c Rd en); [done..|]. by rewrite Hinf.
  - apply (wp_task_of c Wr en); [done..|]. by rewrite Hinf.
Qed.

(** What one event leaves of the table: [f] are the directions that end. *)
Record settled (f : dir -> bool) (fd : Z) (w w' : ow) : Prop := {
  se_ended d : f d = true -> watching w' fd d = None;
  se_kept d : f d = false ->
    watching w' fd d = watching w fd d \/ watching w' fd d = None /\ epoll_lost w' fd;
  se_others fd' d : fd' <> fd -> watching w' fd' d = watching w fd' d;
  se_maps fd' : fd' <> fd -> m_ctxs w' !! fd' = m_ctxs w !! fd';
  se_lost fd' : epoll_lost w fd' -> epoll_lost w' fd'
}.

Lemma settled_refl fd w : settled (fun _ => false) fd w w.
Proof. constructor; auto. done. Qed.

Lemma settled_trans f g fd w w1 w2 : settled f fd w w1 -> settled g fd w1 w2 ->
  settled (fun d => f d || g d) fd w w2.
Proof.
  intros [E1 K1 O1 M1 L1] [E2 K2 O2 M2 L2]. constructor.
  - intros d Hd. destruct (g d) eqn:Hg; [auto|]. rewrite orb_false_r in Hd. specialize (E1 d Hd).
    destruct (K2 d Hg) as [H2|[H2 _]]; congruence.
  - intros d [Hf Hg]%orb_false_iff. destruct (K2 d Hg) as [H2|H2]; [|by right]. rewrite H2.
    destruct (K1 d Hf) as [H1|[H1 Hl]]; [by left | right; auto].
  - intros fd' d Hd. rewrite O2, O1; done.
  - intros fd' Hd. rewrite M2, M1; done.
  - auto.
Qed.

Lemma unwatched_settled w w' fd d : unwatched w w' fd d -> settled (fun d' => bool_decide (d' = d)) fd w w'.
Proof.
  intros HU. constructor; [| | | apply HU..].
  - intros d' ->%bool_decide_eq_true. destruct (uw_table _ _ _ _ HU) as [HT|[HT _]]; rewrite (HT fd d);
      unfold upd, forget; by rewrite decide_True.
  - intros d' Hd%bool_decide_eq_false. destruct (uw_table _ _ _ _ HU) as [HT|[HT Hl]]; rewrite (HT fd d').
    + left. unfold upd. by rewrite decide_False by tauto.
    + right. unfold forget. by rewrite decide_True.
  - intros fd' d' Hd. destruct (uw_table _ _ _ _ HU) as [HT|[HT _]]; rewrite (HT fd' d');
      unfold upd, forget; by rewrite decide_False by tauto.
Qed.

Lemma settled_posted f fd w w' l : settled f fd w w' -> settled f fd w (set_scheduled l w').
Proof. intros []. by constructor. Qed.
Lemma settled_ext f g fd w w' : (forall d, f d = g d) -> settled f fd w w' -> settled g fd w w'.
Proof. intros E []. constructor; intros d; rewrite <- ?E; auto. Qed.

Lemma settled_serves f x w w' : settled f (rd_fd x) w w' -> (forall d, f d = true <-> ends (watching w) x d) ->
  scheduled w' = scheduled w ++ posts (watching w) x -> serves1 epoll_lost x w w'.
Proof.
  intros [E K' O _ _] Hf Hs. constructor; [done|done| |].
  - intros d Hd. apply E. by apply Hf.
  - intros d Hd. apply K'. destruct (f d) eqn:Ef; [|done]. by apply Hf in Ef.
Qed.

(** The context stays in the hands of the loop. *)
Lemma unwatched_ctx w w' fd d id c : unwatched w w' fd d -> objs w !! id = Some c -> ctx_ok c ->
  exists c', objs w' !! id = Some c' /\ ctx_ok c' /\ c_fd c' = c_fd c
    /\ forall d', d' <> d -> entry_of c' d' = entry_of c d'.
Proof.
  intros HU Ec HC. destruct (uw_objs _ _ _ _ HU id c Ec) as [E|[_ E]]; [by exists c|].
  exists (drop_entry d c). split; [done|]. split; [by apply drop_ok|]. split; [apply dropped_fd|].
  intros d' Hd. rewrite entry_of_drop by done. by rewrite decide_False.
Qed.

(** The part of an event for one direction. *)
Definition stops (o : option entry) (fired : bool) : bool :=
  match o with Some en => fired && negb (e_inf en) | None => false end.

Lemma part_spec d w id c (fired : bool) : epoll_inv w -> objs w !! id = Some c -> ctx_ok c -> 0 < c_fd c ->
  (fired = true -> is_Some (entry_of c d)) ->
  wp (when fired (on_dir d id)) w (fun w' _ => epoll_inv w'
    /\ scheduled w' = scheduled w ++ (if fired then task_for (entry_of c d) else [])
    /\ settled (fun d' => bool_decide (d' = d) && stops (entry_of c d) fired) (c_fd c) w w'
    /\ exists c', objs w' !! id = Some c' /\ ctx_ok c' /\ c_fd c' = c_fd c
         /\ forall d', d' <> d -> entry_of c' d' = entry_of c d').
Proof.
  intros HI Ec HC Hf Hen. destruct fired; cbn [when].
  2:{ rewrite wp_ret, app_nil_r. split; [done|]. split; [done|]. split; [|by exists c].
      eapply settled_ext; [|apply settled_refl]. intros d'. simpl. destruct (entry_of c d); by rewrite andb_false_r. }
  destruct (Hen eq_refl) as [en E]. eapply wp_mono; [by eapply on_dir_spec|].
  intros w' [] (w1 & HI1 & -> & HU). split; [by apply posted_inv|]. rewrite E.
  split; [done|]. cbn [stops andb]. destruct (e_inf en); cbn [negb].
  - subst w1. split; [|by exists c]. apply settled_posted. eapply settled_ext; [|apply settled_refl].
    intros d'. by rewrite andb_false_r.
  - split; [|by apply (unwatched_ctx w w1 (c_fd c) d id c)]. apply settled_posted.
    eapply settled_ext; [|by apply unwatched_settled]. intros d'. by rewrite andb_true_r.
Qed.

Definition event_bits : Z := Z.lor (Z.lor EPOLLIN (Z.lor EPOLLOUT EPOLLPRI)) (Z.lor EPOLLERR EPOLLHUP).

Lemma flag_clear_none f a b : flag_on f b = false -> flag_clear f (Z.lor a b) = flag_clear f a.
Proof.
  unfold flag_on, flag_clear. rewrite negb_false_iff, Z.eqb_eq. intros E.
  apply Z.bits_inj'. intros n Hn. pose proof (f_equal (fun z => Z.testbit z n) E) as En.
  cbn beta in En. rewrite Z.land_spec, Z.bits_0 in En. rewrite !Z.ldiff_spec, Z.lor_spec.
  by destruct (Z.testbit f n), (Z.testbit a n), (Z.testbit b n).
Qed.

(** An error ends both directions. *)
Lemma on_error_law w e id fd c : epoll_inv w -> m_ctxs w !! fd = Some id -> objs w !! id = Some c ->
  (flag_on e EPOLLIN = true -> is_Some (watching w fd Rd)) ->
  wp (epoll.on_error id e) w (fun w' _ => epoll_inv w'
    /\ (forall fd', fd' <> fd -> m_ctxs w' !! fd' = m_ctxs w !! fd')
    /\ exists ec, serves1 epoll_lost (mk_ready fd (fun d => flag_on e (in_bit d)) (Some ec)) w w').
Proof.
  intros HI E Ec Hr. pose proof (ei_ctxs w HI) as HC.
  destruct (cx_at _ w HC _ _ E) as (c0 & Ec0 & Hok & Hf & Hp & _ & H0). replace c0 with c in * by congruence.
  rewrite (watching_at w fd id c) in Hr by done. unfold epoll.on_error. rewrite wp_bind.
  eapply wp_deref; [exact Ec|]. rewrite wp_bind.
  eapply wp_mono with (P := fun w1 r => w1 = w /\ r = if flag_on e EPOLLIN then read_for (entry_of c Rd) else (None, None)).
  { destruct (flag_on e EPOLLIN); [|done]. destruct (Hr eq_refl) as [en En]. rewrite wp_bind.
    apply (wp_task_of c Rd en); [done..|]. rewrite wp_ret. split; [done|]. exact (proj2 (slot_errs c Rd Hok)). }
  intros w1 re_read [-> ->]. rewrite wp_bind, wp_out.
  destruct (getsockopt_epoll (kern (oenv w)) (m_handle w) (c_fd c) socket_base.SOL_SOCKET SO_ERROR (ei_open w HI))
    as (Ho & Hu & Hs).
  destruct (sys_getsockopt _ _ _ _) as [k' [[rt errno] v]]. cbn [fst] in *. cbn beta iota zeta.
  set (ec0 := WAWO_NEGATIVE _). set (ec := if ec0 =? OK then E_UNKNOWN else ec0).
  rewrite wp_bind, wp_assert. split.
  { destruct (flag_on e EPOLLERR); [|done]. unfold ec. destruct (ec0 =? OK) eqn:Ez; [done|]. by rewrite Ez. }
  pose proof (with_kern_inv k' w HI Ho Hu Hs) as HI'.
  rewrite wp_bind. eapply wp_mono; [apply (epoll_unwatch_spec (with_kern k' w) (c_fd c) Wr); [done | lia]|].
  intros w1 [] [HI1 HU1]. rewrite wp_bind. eapply wp_mono; [apply (epoll_unwatch_spec w1 (c_fd c) Rd); [done | lia]|].
  intros w2 [] [HI2 HU2]. unfold post. rewrite wp_modify. split; [by apply posted_inv|].
  pose proof (settled_trans _ _ _ _ _ _ (unwatched_settled _ _ _ _ HU1) (unwatched_settled _ _ _ _ HU2)) as HS.
  rewrite Hf in HS. split; [apply HS|]. exists ec.
  apply (settled_serves (fun _ => true)); [|by intros [] | ].
  - apply settled_posted. eapply (settled_ext _ (fun _ => true)) in HS; [|by intros []].
    constructor; [apply HS..| |]; [exact (se_maps _ _ _ _ HS)|].
    intros fd' Hl. apply (se_lost _ _ _ _ HS). by eapply lookup_weaken_None.
  - cbn [scheduled set_scheduled]. rewrite (uw_sched _ _ _ _ HU2), (uw_sched _ _ _ _ HU1).
    cbn [scheduled with_kern set_oenv posts rd_error rd_fired rd_fd in_bit].
    rewrite !(watching_at w fd id c) by done.
    by rewrite <- (proj1 (slot_errs c Rd Hok)), <- (proj1 (slot_errs c Wr Hok)).
Qed.

Lemma stops_ends T fd f d : stops (T fd d) (f d) = true <-> ends T (mk_ready fd f None) d.
Proof.
  unfold stops, ends. cbn [rd_error rd_fired rd_fd]. destruct (T fd d) as [en|]; split.
  - intros [Hf Hi]%andb_true_iff. apply negb_true_iff in Hi. eauto.
  - intros (-> & en' & [= <-] & ->). done.
  - done.
  - by intros (_ & en' & ? & _).
Qed.

(** An event without an error: a task for each direction. *)
Lemma on_ready_law w e id fd c : epoll_inv w -> m_ctxs w !! fd = Some id -> objs w !! id = Some c ->
  (forall d, flag_on e (in_bit d) = true -> is_Some (watching w fd d)) ->
  wp (when (flag_on e EPOLLIN) (epoll.on_read id);; when (flag_on e EPOLLOUT) (epoll.on_write id)) w
    (fun w' _ => epoll_inv w'
      /\ (forall fd', fd' <> fd -> m_ctxs w' !! fd' = m_ctxs w !! fd')
      /\ serves1 epoll_lost (mk_ready fd (fun d => flag_on e (in_bit d)) None) w w').
Proof.
  intros HI E Ec Hr. pose proof (ei_ctxs w HI) as HC.
  destruct (cx_at _ w HC _ _ E) as (c0 & Ec0 & Hok & Hf & Hp & _ & H0). replace c0 with c in * by congruence.
  assert (Hr' : forall d, flag_on e (in_bit d) = true -> is_Some (entry_of c d)).
  { intros d Hd. rewrite <- (watching_at w fd id c) by done. auto. }
  rewrite wp_bind. eapply wp_mono; [apply (part_spec Rd w id c); try done; [lia | apply (Hr' Rd)]|].
  intros w1 [] (HI1 & Hs1 & HS1 & c1 & Ec1 & Hok1 & Hf1 & Hen1).
  eapply wp_mono; [apply (part_spec Wr w1 id c1); try done; [lia | rewrite Hen1 by done; apply (Hr' Wr)]|].
  intros w2 [] (HI2 & Hs2 & HS2 & _). rewrite Hen1 in Hs2, HS2 by done. rewrite Hf1, Hf in HS2. rewrite Hf in HS1.
  pose proof (settled_trans _ _ _ _ _ _ HS1 HS2) as HS. split; [done|]. split; [apply HS|].
  eapply settled_serves; [exact HS| |].
  - cbn [rd_fd]. intros d. rewrite <- stops_ends, (watching_at w fd id c) by done.
    destruct d; cbn; by rewrite ?orb_false_r.
  - rewrite Hs2, Hs1, <- app_assoc. unfold posts. cbn [rd_error rd_fired rd_fd].
    by rewrite !(watching_at w fd id c).
Qed.

Lemma check_one_law w e id fd : epoll_inv w -> m_ctxs w !! fd = Some id ->
  (forall d, flag_on e (in_bit d) = true -> is_Some (watching w fd d)) ->
  0 <= e < 4294967296 -> flag_on e EPOLLPRI = false -> flag_clear e event_bits = 0 ->
  wp (epoll.check_one (e, id)) w (fun w' _ => epoll_inv w'
    /\ (forall fd', fd' <> fd -> m_ctxs w' !! fd' = m_ctxs w !! fd')
    /\ exists f ec, serves1 epoll_lost (mk_ready fd f ec) w w').
Proof.
  intros HI E Hr He Hpri Hb. pose proof (ei_ctxs w HI) as HC.
  destruct (cx_at _ w HC _ _ E) as (c & Ec & Hok & Hf & Hp & _ & H0). pose proof (cx_next _ w HC _ _ Ec).
  unfold epoll.check_one. rewrite wp_bind, wp_assert. split; [lia|]. rewrite wp_bind.
  unfold deref_raw. rewrite wp_bind, wp_gets, bool_decide_true by (exists fd, id; done).
  eapply wp_deref; [exact Ec|]. rewrite wp_bind, wp_assert. split; [lia|]. cbv zeta.
  assert (Z.land e 4294967295 = e) as ->.
  { change 4294967295 with (Z.ones 32). rewrite Z.land_ones by lia. by apply Z.mod_small. }
  destruct (flag_on e (Z.lor EPOLLERR EPOLLHUP)) eqn:Hee.
  - eapply wp_mono; [by apply (on_error_law w e id fd c); try done; apply (Hr Rd)|].
    intros w' [] (HIe & HMe & ec & HSe). split; [done|]. split; [done|]. by eexists _, _.
  - pose proof (on_ready_law w e id fd c HI E Ec Hr) as HL. rewrite wp_bind in HL. rewrite wp_bind.
    eapply wp_mono; [exact HL|]. intros w1 [] HL1. rewrite wp_bind. eapply wp_mono; [exact HL1|].
    intros w2 [] (HIe & HMe & HSe). rewrite Hpri. cbn [when]. rewrite wp_bind, wp_ret, wp_assert. split.
    { apply Z.eqb_eq. rewrite <- Hb. symmetry. by apply flag_clear_none. }
    split; [done|]. split; [done|]. by eexists _, _.
Qed.

(** *** The bits of a report *)
Lemma clear_on f a b : flag_clear f a = 0 -> flag_on f b = true -> flag_on a b = true.
Proof.
  unfold flag_on, flag_clear. rewrite !negb_true_iff, !Z.eqb_neq. intros E Hn Ha. apply Hn.
  apply Z.bits_inj'. intros n Hn'.
  pose proof (f_equal (fun z => Z.testbit z n) E) as En. pose proof (f_equal (fun z => Z.testbit z n) Ha) as An.
  cbn beta in *. rewrite Z.ldiff_spec, Z.bits_0 in En. rewrite Z.land_spec, Z.bits_0 in *.
  by destruct (Z.testbit f n), (Z.testbit a n), (Z.testbit b n).
Qed.

Lemma clear_trans f a b : flag_clear f a = 0 -> flag_clear a b = 0 -> flag_clear f b = 0.
Proof.
  unfold flag_clear. intros E Ha. apply Z.bits_inj'. intros n Hn'.
  pose proof (f_equal (fun z => Z.testbit z n) E) as En. pose proof (f_equal (fun z => Z.testbit z n) Ha) as An.
  cbn beta in *. rewrite Z.ldiff_spec, Z.bits_0 in *.
  by destruct (Z.testbit f n), (Z.testbit a n), (Z.testbit b n).
Qed.

Lemma reported_bits m e : reported m e -> flag_clear m all_bits = 0 ->
  (forall d, flag_on e (in_bit d) = true -> flag_on m (in_bit d) = true) /\ flag_clear e event_bits = 0.
Proof.
  intros HR Hm. split.
  - intros d Hd. pose proof (clear_on _ _ _ HR Hd) as E.
    rewrite flag_on_set in E by done. unfold flag_on in E at 2. revert E.
    change (Z.land (Z.lor EPOLLERR EPOLLHUP) (in_bit d)) with (Z.land 24 (in_bit d)).
    replace (Z.land 24 (in_bit d)) with 0 by (by destruct d). rewrite orb_false_r, flag_on_clear.
    by destruct d.
  - eapply clear_trans; [exact HR|]. unfold flag_clear in *. rewrite Z.ldiff_land, Z.land_lor_distr_l.
    rewrite <- !Z.ldiff_land. change (Z.ldiff (Z.lor EPOLLERR EPOLLHUP) event_bits) with 0. rewrite Z.lor_0_r.
    rewrite !Z.ldiff_land, <- Z.land_assoc. rewrite !Z.ldiff_land in Hm.
    change (Z.land (Z.lnot EPOLLET) (Z.lnot event_bits)) with (Z.land (Z.lnot all_bits) (Z.lnot event_bits)).
    by rewrite Z.land_assoc, Hm.
Qed.

Lemma Forall2_impl_in {A B} (P Q : A -> B -> Prop) l k : Forall2 P l k ->
  (forall x y, x ∈ l -> P x y -> Q x y) -> Forall2 Q l k.
Proof.
  induction 1 as [|x y l k HP HF IH]; intros HPQ; constructor.
  - apply HPQ; [by left | done].
  - apply IH. intros x' y' Hx. apply HPQ. by right.
Qed.

(** What the loop knows of an event still to be handled. *)
Definition pending (w : ow) (fd : Z) (ev : Z * Z) : Prop :=
  m_ctxs w !! fd = Some ev.2
  /\ (forall d, flag_on ev.1 (in_bit d) = true -> is_Some (watching w fd d))
  /\ 0 <= ev.1 < 4294967296 /\ flag_on ev.1 EPOLLPRI = false /\ flag_clear ev.1 event_bits = 0.

Lemma check_all evs : forall fds w, epoll_inv w -> NoDup fds -> Forall2 (pending w) fds evs ->
  wp (iterM epoll.check_one evs) w (fun w' _ => epoll_inv w'
    /\ exists l, rd_fd <$> l = fds /\ serves epoll_lost l w w').
Proof.
  induction evs as [|[e id] evs IH]; intros fds w HI Hnd HF.
  - apply Forall2_nil_inv_r in HF as ->. split; [done|]. exists []. split; [done | constructor].
  - apply Forall2_cons_inv_r in HF as (fd & fds' & (Hm & Hr & He & Hp & Hb) & HF & ->).
    apply NoDup_cons in Hnd as [Hfd Hnd]. cbn [iterM]. rewrite wp_bind.
    eapply wp_mono; [by apply (check_one_law w e id fd)|]. intros w1 [] (HI1 & HM & f & ec & HS).
    eapply wp_mono; [apply (IH fds' w1 HI1 Hnd)|].
    { eapply Forall2_impl_in; [exact HF|]. intros fd' ev Hin (Hm' & Hr' & Hrest).
      assert (Hne : fd' <> fd) by (intros ->; done). split; [by rewrite HM|]. split; [|done].
      intros d Hd. rewrite (sv_others _ _ _ _ HS) by done. auto. }
    intros w2 [] (HI2 & l & <- & HL). split; [done|]. exists (mk_ready fd f ec :: l).
    split; [done|]. by econstructor.
Qed.

Lemma epoll_check_law w : epoll_inv w ->
  wp epoll.check_ioe w (fun w' _ => epoll_inv w' /\ exists l w1,
    watching w1 ≡ watching w /\ scheduled w1 = scheduled w /\ NoDup (rd_fd <$> l) /\ serves epoll_lost l w1 w').
Proof.
  intros HI. unfold epoll.check_ioe. rewrite wp_bind, wp_gets, wp_bind, wp_assert. split; [apply Z.ltb_lt, HI|].
  rewrite wp_bind, wp_out.
  pose proof (epoll_wait_law (kern (oenv w)) (m_handle w) WAWO_EPOLL_PER_HANDLE_SIZE (ei_open w HI)) as HL.
  destruct (epoll_wait _ _ _) as [k' [[rt errno] evs]]. destruct HL as (Ho & Hu & Hs & fds & Hnd & HF). cbn beta iota.
  pose proof (with_kern_inv k' w HI Ho Hu Hs) as HI'. destruct (rt =? -1).
  - rewrite wp_ret. split; [done|]. exists [], (with_kern k' w). split; [done|]. split; [done|].
    split; [constructor | constructor].
  - eapply wp_mono; [apply (check_all evs fds (with_kern k' w)); try done|].
    + eapply Forall2_impl; [exact HF|]. intros fd [e id] (m & Hm & Hrep & Hrange & Hpri). cbn [fst snd] in *.
      destruct (ei_kernel w HI fd m id Hm) as (Hid & Hall & Hbits). destruct (reported_bits m e Hrep Hall) as [Hd Hb].
      split; [done|]. split; [|split; [done|]; split; [|done]; by apply Hpri, HI]. intros d Hfd. by apply Hbits, Hd.
    + intros w' [] (HI2 & l & <- & HS). split; [done|]. by exists l, (with_kern k' w).
Qed.

(** A new observer: it keeps the invariant from the start. *)
Lemma epoll_init_law w : ctxs_ok T_EPOLL w -> m_ctxs w = ∅ -> ~ urgent (kern (oenv w)) ->
  match epoll.init w with Ok (w', _) => epoll_inv w' | Fault f => f = Thrown end.
Proof.
  intros HC HM Hu. unfold epoll.init, out_env, zoom, sys, modify, conditionM, lift, mbind, M_bind. cbn beta iota.
  pose proof (epoll_create_law (kern (oenv w)) WAWO_EPOLL_CREATE_HINT_SIZE eq_refl) as HL.
  destruct (epoll_create _ _) as [k' [rt errno]]. destruct HL as (Hu' & [->|(Hr & Ho & Hi)]); [done|].
  cbn beta iota. unfold condition_check. rewrite (proj2 (Z.eqb_neq rt (-1))) by lia. cbn [negb].
  constructor; [by destruct HC|done|done| |].
  - intros U. by apply Hu, Hu'.
  - intros fd m ptr E. unfold kmap in E. cbn in E. by rewrite Hi, lookup_empty in E.
Qed.

(** Watching another direction asks the kernel for that direction only. *)
Lemma second_watch_mask w fd d e id : epoll_inv w -> 0 < fd -> watching w fd d = None -> m_ctxs w !! fd = Some id ->
  wp (epoll.watch (flag_of d (e_inf e)) fd (Some (e_cookie e)) (Some (e_fn e)) (Some (e_err e))) w
    (fun w' _ => watching w' ≡ watching w
      \/ forall m ptr, kmap w' !! fd = Some (m, ptr) -> m = epoll.interest (flag_of d (e_inf e))).
Proof.
  intros HI Hfd HN E. pose proof (ei_ctxs w HI) as HC. unfold epoll.watch.
  rewrite wp_bind, wp_assert. split; [lia|]. rewrite wp_bind, wp_assert. split; [by destruct d, (e_inf e)|].
  unfold find_ctx. rewrite wp_bind, wp_gets, wp_bind, E, wp_ret, wp_bind, wp_gets, wp_bind, wp_assert.
  split; [apply Z.ltb_lt, HI|]. rewrite wp_bind, wp_out.
  pose proof (epoll_ctl_law (kern (oenv w)) (m_handle w) EPOLL_CTL_MOD fd
    (epoll.interest (flag_of d (e_inf e)), id) (ei_open w HI)) as HL.
  destruct (epoll_ctl _ _ _ _ _) as [k' [rt errno]]. destruct HL as (Ho & Hu & [(-> & Hr & Hs) | (-> & Hs & _)]);
    cbn beta iota; [change (0 =? -1) with false | change (-1 =? -1) with true]; cbn iota.
  - destruct (cx_at _ w HC _ _ E) as (c & Ec & Hok & Hf & Hp & _ & _).
    rewrite (watching_at w fd id c) in HN by done.
    rewrite wp_bind. eapply wp_deref; [exact Ec|]. rewrite wp_bind, wp_assert.
    split; [apply negb_false_iff; by apply unwatched_bits|]. rewrite wp_bind.
    eapply wp_update_watch; [exact Ec | done..|]. rewrite bool_decide_false by done. cbn [when]. rewrite wp_ret.
    right. intros m ptr Em. pose proof (lookup_weaken _ _ _ _ Em Hs) as E'. rewrite lookup_insert_eq in E'. congruence.
  - unfold post. rewrite wp_modify. by left.
Qed.

#[export] Instance epoll_watch_laws : watch_laws T_EPOLL epoll.ops.
Proof.
  refine (Build_watch_laws T_EPOLL epoll.ops epoll_inv epoll_lost ei_ctxs epoll_watch_law _).
  intros w fd d HI Hfd. eapply wp_mono; [by apply epoll_unwatch_spec|].
  intros w' [] [HI' HU]. split; [done|]. split; apply HU.
Defined.
#[export] Instance epoll_check_laws : check_laws T_EPOLL epoll.ops.
Proof. constructor. exact epoll_check_law. Defined.
End epoll_proofs.
