(* ===== verification/EpollSim.v ===== *)
(** * EpollSim: epoll in memory

    An interest list and the masks that are ready, with the behaviour [epoll_laws] asks for:
    the calls of an epoll descriptor, 7, for the witnesses. *)

From S2P Require Import Prelude Address Wcp SocketData SockFns SocketBase Observer Epoll Select SocketLaws ObserverSpec EpollProofs.

Record esim : Type := mk_esim { reg : gmap Z (Z * Z); rdy : gmap Z Z }.

(** The calls the observer does not make succeed. *)
#[export] Instance esim_system : system esim := {|
  sys_socket _ _ _ k := (k, (3, 0));
  sys_connect _ _ k := (k, (0, 0));
  sys_bind _ _ k := (k, (0, 0));
  sys_shutdown _ _ k := (k, (0, 0));
  sys_close _ k := (k, (0, 0));
  sys_listen _ _ k := (k, (0, 0));
  sys_accept _ k := (k, (-1, EAGAIN, (0, 0)));
  sys_getsockopt _ _ _ k := (k, (0, 0, [0]));
  sys_setsockopt _ _ _ _ k := (k, (0, 0));
  sys_getsockname _ k := (k, (0, 0, (2, 0, 0)));
  sys_send _ bytes _ k := (k, (zlen bytes, 0));
  sys_recv _ _ _ k := (k, (-1, EAGAIN, []));
  sys_sendto _ bytes _ _ k := (k, (zlen bytes, 0));
  sys_recvfrom _ _ _ k := (k, (-1, EAGAIN, [], (0, 0)));
  sys_fcntl _ _ _ k := (k, (0, 0));
  sys_ioctl _ _ k := (k, (0, 0, 0));
  curr_milliseconds k := (k, 1);
  curr_microseconds k := (k, 1);
  usleep _ k := (k, tt);
  signals _ := O
|}.

Definition ENOENT : Z := 2.
Definition EEXIST : Z := 17.

Definition esim_ctl (ep : Z) (op : epoll_op) (fd : Z) (ev : Z * Z) (k : esim) : esim * (Z * Z) :=
  match op, reg k !! fd with
  | EPOLL_CTL_ADD, Some _ => (k, (-1, EEXIST))
  | EPOLL_CTL_ADD, None | EPOLL_CTL_MOD, Some _ => (mk_esim (<[fd := ev]> (reg k)) (rdy k), (0, 0))
  | EPOLL_CTL_DEL, Some _ => (mk_esim (delete fd (reg k)) (rdy k), (0, 0))
  | _, None => (k, (-1, ENOENT))
  end.

(** What is ready and asked for, or an error; an edge is reported once. *)
Definition esim_mask (bits : Z) (r : Z * Z) : Z * Z :=
  (Z.land (Z.land bits (Z.lor (flag_clear r.1 EPOLLET) (Z.lor EPOLLERR EPOLLHUP))) (Z.ones 32), r.2).
Definition esim_events (k : esim) : gmap Z (Z * Z) := map_zip_with esim_mask (rdy k) (reg k).
Definition esim_wait (ep n : Z) (k : esim) : esim * (Z * Z * list (Z * Z)) :=
  let l := map_to_list (filter (fun p => p.2.1 <> 0) (esim_events k)) in
  (mk_esim (reg k) ∅, (zlen l, 0, l.*2)).

#[export] Instance esim_epoll : epoll_system esim := {|
  epoll_create _ k := (mk_esim ∅ (rdy k), (7, 0));
  epoll_ctl := esim_ctl;
  epoll_wait := esim_wait
|}.

Definition esim_urgent (k : esim) : Prop := exists fd bits, rdy k !! fd = Some bits /\ flag_on bits EPOLLPRI = true.

Lemma esim_mask_reported bits m : reported m (Z.land (Z.land bits (Z.lor (flag_clear m EPOLLET) (Z.lor EPOLLERR EPOLLHUP))) (Z.ones 32)).
Proof.
  unfold reported, flag_clear at 1. generalize (Z.lor (flag_clear m EPOLLET) (Z.lor EPOLLERR EPOLLHUP)). intros M.
  apply Z.bits_inj'. intros n Hn. rewrite Z.ldiff_spec, !Z.land_spec, Z.bits_0.
  by destruct (Z.testbit bits n), (Z.testbit M n), (Z.testbit (Z.ones 32) n).
Qed.

Lemma land_off a b c m : flag_on a m = false -> flag_on (Z.land (Z.land a b) c) m = false.
Proof.
  unfold flag_on. rewrite !negb_false_iff, !Z.eqb_eq. intros E.
  apply Z.bits_inj'. intros n Hn. pose proof (f_equal (fun z => Z.testbit z n) E) as En. cbn beta in En.
  rewrite !Z.land_spec, Z.bits_0 in *. by destruct (Z.testbit a n), (Z.testbit m n), (Z.testbit b n), (Z.testbit c n).
Qed.

Lemma esim_wait_events k : exists fds, NoDup fds /\ Forall2 (fun fd ev => exists m,
  reg k !! fd = Some (m, ev.2) /\ reported m ev.1 /\ 0 <= ev.1 < 4294967296
  /\ (~ esim_urgent k -> flag_on ev.1 EPOLLPRI = false)) fds
  (map_to_list (filter (fun p => p.2.1 <> 0) (esim_events k))).*2.
Proof.
  set (M := filter _ (esim_events k)). exists ((map_to_list M).*1). split; [apply NoDup_fst_map_to_list|].
  assert (HM : forall fd ev, (fd, ev) ∈ map_to_list M -> M !! fd = Some ev) by (intros fd ev; apply elem_of_map_to_list).
  revert HM. generalize (map_to_list M). intros l HM. induction l as [|[fd [e id]] l IH]; [constructor|].
  cbn [fmap list_fmap fst snd]. constructor; [|apply IH; intros; apply HM; by right].
  assert (E : M !! fd = Some (e, id)) by (apply HM; by left). cbn [fst snd].
  apply map_lookup_filter_Some in E as [E _]. apply map_lookup_zip_with_Some in E as (bits & [m ptr] & E & Hb & Hr).
  injection E as -> ->. cbn [fst snd]. exists m. split; [done|]. split; [apply esim_mask_reported|]. split.
  - rewrite (Z.land_ones _ 32) by lia. apply Z.mod_pos_bound. lia.
  - intros Hu. apply land_off. destruct (flag_on bits EPOLLPRI) eqn:Hp; [|done]. exfalso. apply Hu. by exists fd, bits.
Qed.

#[export] Program Instance esim_laws : epoll_laws esim := {|
  epoll_open k ep := ep = 7;
  interests k ep := reg k;
  urgent := esim_urgent
|}.
Next Obligation.
  intros k ep op fd ev ->. cbn [epoll_ctl esim_epoll]. unfold esim_ctl.
  destruct op, (reg k !! fd) eqn:E; cbn; (split; [done|]); (split; [done|]).
  all: try (left; split; [done|]; split; [by intros|]; done).
  all: right; split; [done|]; split; [done|]; intros Hd; done.
Qed.
Next Obligation.
  intros k ep n ->. cbn [epoll_wait esim_epoll]. unfold esim_wait. split; [done|]. split.
  - intros (fd & bits & E & _). cbn in E. by rewrite lookup_empty in E.
  - split; [done|]. apply esim_wait_events.
Qed.
Next Obligation. intros k n Hn. cbn. split; [done|]. right. done. Qed.
Next Obligation. intros k ep fd level name ->. by cbn. Qed.

(** [select] on the same masks. *)
Definition esim_select (n : Z) (r w ex : gset Z) (k : esim) : esim * (Z * Z * (gset Z * gset Z * gset Z)) :=
  let keep (s : gset Z) bit := filter (fun fd => fd < n /\ flag_on (default 0 (rdy k !! fd)) bit = true) s in
  let r' := keep r EPOLLIN in let w' := keep w EPOLLOUT in let ex' := keep ex EPOLLPRI in
  (k, (Z.of_nat (size r' + size w' + size ex'), 0, (r', w', ex'))).
#[export] Instance esim_sel : select_system esim := {| sys_select := esim_select |}.
