(* ===== verification/SocketObserverProofs.v ===== *)
(** * SocketObserverProofs: the queue in front of an observer

    Against the interfaces of ObserverSpec: [update] performs what the threads have asked for,
    in order, and then serves what is ready.  A system with [epoll] in memory shows that the
    interfaces can be implemented; and what the calls of [epoll] make of a second watch. *)

From S2P Require Import Prelude Effects Ring Address WcpData Wcp SocketData SockFns SocketBase Observer.
From S2P Require Import Epoll Wpoll Select SocketObserver SocketLaws SocketSim ObserverSpec EpollProofs EpollSim.

(** ** Requests *)
Inductive request : Type :=
| RWatch (fd : Z) (d : dir) (e : entry)
| RUnwatch (fd : Z) (d : dir).

(** What a socket queues for the observer. *)
Definition op_of (r : request) : event_op :=
  match r with
  | RWatch fd d e => mk_op (flag_of d (e_inf e)) OP_WATCH fd (Some (e_cookie e)) (Some (e_fn e)) (Some (e_err e))
  | RUnwatch fd d => mk_op (bit d) OP_UNWATCH fd None None None
  end.

(** Nothing is watched twice: [B] says what may be watched. *)
Definition mark (fd : Z) (d : dir) (b : bool) (B : Z -> dir -> bool) : Z -> dir -> bool :=
  fun fd' d' => if decide (fd' = fd /\ d' = d) then b else B fd' d'.
Fixpoint acceptable (B : Z -> dir -> bool) (rs : list request) : Prop :=
  match rs with
  | [] => True
  | RWatch fd d _ :: rs => 0 < fd /\ B fd d = false /\ acceptable (mark fd d true B) rs
  | RUnwatch fd d :: rs => 0 < fd /\ acceptable (mark fd d false B) rs
  end.

Section proofs.
Context `{memory} `{WcpData.wcp_env} `{wcp_sockets} `{system K} `{!epoll_system K} `{!select_system K}.

(** A request has been performed, or has failed and its caller is told. *)
Definition performed (lost : ow K -> Z -> Prop) (r : request) (w w' : ow K) : Prop :=
  match r with
  | RWatch fd d e =>
      (watching w' ≡ upd fd d (Some e) (watching w) /\ scheduled w' = scheduled w)
      \/ (watching w' ≡ watching w /\
          exists rt, scheduled w' = scheduled w ++ [P_error (e_err e) rt (Some (e_cookie e))])
  | RUnwatch fd d =>
      scheduled w' = scheduled w /\
      (watching w' ≡ upd fd d None (watching w) \/ (watching w' ≡ forget fd (watching w) /\ lost w' fd))
  end.
Inductive performs (lost : ow K -> Z -> Prop) : list request -> ow K -> ow K -> Prop :=
| performs_nil w : performs lost [] w w
| performs_cons r rs w w1 w2 : performed lost r w w1 -> performs lost rs w1 w2 -> performs lost (r :: rs) w w2.

Definition covers (B : Z -> dir -> bool) (w : ow K) : Prop := forall fd d, is_Some (watching w fd d) -> B fd d = true.

Lemma performed_covers lost r B w w' : covers B w -> performed lost r w w' ->
  covers (match r with RWatch fd d _ => mark fd d true B | RUnwatch fd d => mark fd d false B end) w'.
Proof.
  intros HB HP. destruct r as [fd d e|fd d]; intros fd' d'; unfold mark.
  - destruct HP as [[HT _]|[HT _]]; rewrite (HT fd' d'); unfold upd; repeat case_decide; auto.
  - destruct HP as [_ [HT|[HT _]]]; rewrite (HT fd' d'); unfold upd, forget; repeat case_decide;
      try tauto; try (by intros [? ?]); auto.
Qed.

Context (k : poll_kind) `{!watch_laws k (observer_of k)} `{!check_laws k (observer_of k)}.
Local Abbreviation so := (socket_observer K).

Lemma wp_in_impl (f : observer_ops K -> M (ow K) unit) (s : so) (Q : so -> unit -> Prop) : m_impl s = Some k ->
  wp (f (observer_of k)) (core s) (fun w _ => Q (set_core w s) tt) -> wp (in_impl f) s Q.
Proof.
  intros E HQ. unfold in_impl. rewrite wp_bind, wp_gets, E, wp_zoom.
  eapply wp_mono; [exact HQ|]. by intros w [].
Qed.

Lemma process_spec rs : forall B (s : so), m_impl s = Some k -> o_inv (core s) -> covers B (core s) -> acceptable B rs ->
  m_ops s = op_of <$> rs ->
  wp (process_loop (op_of <$> rs)) s (fun s' _ => m_impl s' = Some k /\ m_ops s' = [] /\ o_inv (core s')
    /\ performs o_lost rs (core s) (core s')).
Proof.
  induction rs as [|r rs IH]; intros B s Ek HI HB HA Eq.
  - change (op_of <$> []) with (@nil event_op) in *. cbn [process_loop]. rewrite wp_ret.
    split; [done|]. split; [done|]. split; [done | constructor].
  - rewrite fmap_cons. cbn [process_loop]. rewrite wp_bind, wp_modify, wp_bind.
    apply wp_in_impl; [done|]. cbn [core set_m_ops].
    assert (HS : wp (perform (op_of r) (observer_of k)) (core s) (fun w' _ => o_inv w' /\ performed o_lost r (core s) w')).
    { destruct r as [fd d e|fd d]; cbn [acceptable] in HA; unfold perform; cbn [op_of o_op o_flag o_fd o_cookie o_fn o_err].
      - destruct HA as (Hfd & Hb & _). apply o_watch_law; [done..|].
        destruct (watching (core s) fd d) eqn:E; [|done]. rewrite (HB fd d) in Hb by done. done.
      - destruct HA as [Hfd _]. by apply o_unwatch_law. }
    eapply wp_mono; [exact HS|]. intros w1 [] [HI1 HP].
    eapply wp_mono; [eapply IH with (B := match r with RWatch fd d _ => mark fd d true B | RUnwatch fd d => mark fd d false B end)|].
    + done.
    + done.
    + by eapply performed_covers.
    + by destruct r; cbn [acceptable] in HA; destruct_and?.
    + done.
    + intros s2 [] (E2 & Q2 & HI2 & HP2). split; [done|]. split; [done|]. split; [done|].
      econstructor; [exact HP | exact HP2].
Qed.

End proofs.

(** ** What the calls of epoll make of it *)
Section epoll_flaws.
Context {K} `{epoll_laws K}.

(** A descriptor that is watched for reading and then for writing too goes deaf: the observer
    still promises both, but has asked the kernel for writing only, so nothing that arrives is
    reported until the descriptor is writable. *)
Theorem write_watch_deafens_read (w : ow K) fd e e' : epoll_inv w -> 0 < fd ->
  watching w fd Rd = Some e -> watching w fd Wr = None ->
  wp (epoll.watch (flag_of Wr (e_inf e')) fd (Some (e_cookie e')) (Some (e_fn e')) (Some (e_err e'))) w
    (fun w' _ => watching w' fd Rd = Some e
      /\ (watching w' fd Wr = None
          \/ watching w' fd Wr = Some e'
             /\ forall m ptr, kmap w' !! fd = Some (m, ptr) -> flag_on m EPOLLIN = false)).
Proof.
  intros HI Hfd HR HW. destruct (m_ctxs w !! fd) as [id|] eqn:E.
  2:{ unfold watching, ctx_at in HR. by rewrite E in HR. }
  eapply wp_mono; [apply wp_and; [by apply epoll_watch_law | by eapply second_watch_mask]|].
  intros w' [] ((_ & [[HT _]|[HT _]]) & HM); rewrite !(HT fd _).
  - unfold upd. rewrite decide_False, decide_True by intuition discriminate. split; [done|]. right. split; [done|].
    intros m ptr Em. destruct HM as [HM|HM].
    + exfalso. pose proof (HM fd Wr) as Hx. rewrite (HT fd Wr), HW in Hx. unfold upd in Hx.
      by rewrite decide_True in Hx.
    + rewrite (HM m ptr Em). by destruct (e_inf e').
  - split; [done | by left].
Qed.

(** Urgent data at a watched descriptor ends the observer's thread. *)
Theorem urgent_data_throws (w : ow K) fd id : ctxs_ok T_EPOLL w -> m_ctxs w !! fd = Some id ->
  epoll.check_one (EPOLLPRI, id) w = Fault Thrown.
Proof.
  intros HC E.
  destruct (cx_at _ w HC _ _ E) as (c & Ec & _ & Hf & _ & _ & Hpos). pose proof (cx_next _ w HC _ _ Ec).
  unfold epoll.check_one, assertM, deref_raw, deref, gets, lift, mbind, M_bind. cbn [wawo_assert].
  rewrite (proj2 (Z.eqb_neq id 0)) by lia. cbn [negb wawo_assert].
  rewrite bool_decide_true by (exists fd, id; done). cbn beta iota. rewrite Ec. cbn.
  by rewrite (proj2 (Z.ltb_lt 0 (c_fd c))) by lia.
Qed.
End epoll_flaws.

(** ** [select] *)

(** [select] looks at the descriptors below its first argument. *)
Class select_laws (K : Type) `{!select_system K} := {
  sys_select_law k n r w ex :
    match sys_select n r w ex k with
    | (k', (c, errno, (r', w', ex'))) =>
        c = -1 \/ (c = Z.of_nat (size r' + size w' + size ex')
                   /\ (forall fd, fd ∈ r' ∪ w' ∪ ex' -> fd < n /\ fd ∈ r ∪ w ∪ ex))
    end
}.

Section select_flaws.
Context {K} `{system K} `{!select_system K} `{!select_laws K}.

(** A bucket of one descriptor. *)
Record single (fd : Z) (s : select.collected) : Prop := {
  si_full : select.full s = [];
  si_count : Z.of_nat (length (select.ctxs (select.current s))) = select.fd_added_count s;
  si_max : select.max_fd_v (select.current s) <= fd;
  si_sets f : f ∈ select.fds_r (select.current s) ∪ select.fds_w (select.current s)
                  ∪ select.fds_ex (select.current s) -> f = fd
}.

Lemma add_single k id fd s : 0 < fd < FD_SETSIZE -> single fd s -> select.fd_added_count s < 64 ->
  exists s', select.add k id fd s = Ok s' /\ single fd s' /\ select.fd_added_count s' = select.fd_added_count s + 1.
Proof.
  intros Hfd [H1 H2 H3 H4] Hn. unfold select.add, WAWO_SELECT_BUCKET_ITEM_COUNT.
  rewrite (proj2 (Z.eqb_neq _ 64)) by lia. cbn [mbind res_bind]. rewrite (proj2 (Z.leb_gt FD_SETSIZE fd)) by lia.
  eexists. split; [reflexivity|]. split; [|done].
  constructor; cbn [select.full select.current select.ctxs select.fd_added_count select.max_fd_v
    select.fds_r select.fds_w select.fds_ex].
  - done.
  - rewrite length_app. simpl. lia.
  - destruct (Z.ltb_spec (select.max_fd_v (select.current s)) fd); lia.
  - intros f. specialize (H4 f). destruct k; rewrite !elem_of_union, ?elem_of_singleton in *; tauto.
Qed.

Lemma collect_one_single id c : 0 < c_fd c < FD_SETSIZE -> exists s,
  select.collect_one id c (select.mk_collected [] select.reset 0) = Ok s /\ single (c_fd c) s
  /\ select.fd_added_count s <= 3.
Proof.
  intros Hfd. unfold select.collect_one.
  assert (S0 : single (c_fd c) (select.mk_collected [] select.reset 0)).
  { constructor; [done | done | simpl; lia|]. intros f. simpl. rewrite !elem_of_union, !elem_of_empty. tauto. }
  assert (HB : forall (b : bool) k s, single (c_fd c) s -> select.fd_added_count s < 64 -> exists s',
    (if b then select.add k id (c_fd c) s else Ok s) = Ok s' /\ single (c_fd c) s'
    /\ select.fd_added_count s' <= select.fd_added_count s + 1).
  { intros [] k s HS Hn; [|exists s; split; [done|]; split; [done | lia]].
    destruct (add_single k id (c_fd c) s Hfd HS Hn) as (s' & E & HS' & Hc). exists s'. split; [done|]. split; [done | lia]. }
  match goal with |- context [if ?b then select.add select.FD_R _ _ _ else _] =>
    destruct (HB b select.FD_R _ S0) as (s1 & -> & S1 & C1); [done|] end. cbn [mbind res_bind]. cbn [select.fd_added_count] in C1.
  match goal with |- context [if ?b then select.add select.FD_W _ _ _ else _] =>
    destruct (HB b select.FD_W _ S1) as (s2 & -> & S2 & C2); [lia|] end. cbn [mbind res_bind].
  match goal with |- context [if ?b then select.add select.FD_EX _ _ _ else _] =>
    destruct (HB b select.FD_EX _ S2) as (s3 & -> & S3 & C3); [lia|] end. exists s3. split; [done|]. split; [done | lia].
Qed.

(** [select] is told the highest descriptor instead of the number above it, so an observer that
    watches one descriptor never serves it, whatever arrives there. *)
Theorem select_single_watch_never_served (w : ow K) fd id c : m_ctxs w = {[fd := id]} ->
  objs w !! id = Some c -> c_fd c = fd -> 0 < fd < FD_SETSIZE ->
  wp select.check_ioe w (fun w' _ => scheduled w' = scheduled w /\ m_ctxs w' = m_ctxs w /\ objs w' = objs w).
Proof.
  intros Em Ec Hf Hfd. unfold select.check_ioe. rewrite wp_bind, wp_gets, Em.
  assert (by_fd {[fd := id]} = [(fd, id)]) as ->.
  { unfold by_fd. by rewrite map_to_list_singleton. }
  cbn [select.collect]. rewrite !wp_bind. eapply wp_deref; [exact Ec|]. rewrite wp_bind.
  destruct (collect_one_single id c) as (s & -> & [Hfull Hcnt Hmax Hsets] & Hc); [lia|].
  rewrite wp_lift, wp_ret, Hfull. cbn [app iterM]. rewrite wp_bind, wp_when, Hcnt.
  destruct (Z.eqb_spec (select.fd_added_count s) 0) as [E0|E0]; cbn [negb]; [rewrite wp_ret; done|].
  unfold select._select_sockets, WAWO_SELECT_BUCKET_ITEM_COUNT. cbv zeta. rewrite Hcnt, wp_bind, wp_assert. split.
  { apply andb_true_iff. split; [lia|]. pose proof (Nat2Z.is_nonneg (length (select.ctxs (select.current s)))). lia. }
  rewrite wp_bind. unfold out_env. rewrite wp_zoom, wp_sys.
  set (b := select.current s) in *.
  pose proof (sys_select_law (kern (oenv w)) (select.max_fd_v b) (select.fds_r b) (select.fds_w b) (select.fds_ex b)) as HL.
  destruct (sys_select _ _ _ _ _) as [k' [[n errno] [[r' w'] ex']]]. cbn beta iota.
  assert (n = 0 \/ n = -1) as Hn.
  { destruct HL as [->|[-> Hin]]; [by right | left].
    assert (forall x, x ∉ r' ∪ w' ∪ ex') as Hno.
    { intros x Hx. destruct (Hin x Hx) as [Hlt Hx']. specialize (Hsets x Hx'). lia. }
    assert (r' = ∅ /\ w' = ∅ /\ ex' = ∅) as (-> & -> & ->).
    { repeat split; apply elem_of_equiv_empty_L; intros x Hx; apply (Hno x); rewrite !elem_of_union; tauto. }
    by rewrite !size_empty. }
  destruct Hn as [-> | ->]; cbn; done.
Qed.
End select_flaws.

(** ** Witnesses *)
#[local] Instance esim_select_laws : select_laws esim.
Proof.
  constructor. intros k n r w ex. cbn. right. split; [done|]. intros fd. rewrite !elem_of_union.
  rewrite !elem_of_filter. tauto.
Qed.

Definition read_entry : entry := mk_entry fn_async_read fn_async_error (CAsync (mk_cookie None None None)) false.
Definition write_entry : entry := mk_entry fn_async_write fn_async_error (CAsync (mk_cookie None None None)) false.

(** An epoll observer without a context; data arrives at descriptor 5. *)
Definition core0 : ow esim := mk_ow ∅ ∅ 1 7 [] (mk_env (mk_esim ∅ {[5 := EPOLLIN]}) no_wcp).

Lemma core0_inv : epoll_inv core0.
Proof.
  constructor; [|done|done| |].
  - constructor; [| |done]; intros ? ? E; cbn in E; by rewrite lookup_empty in E.
  - intros (fd & bits & E & Hp). cbn in E. apply lookup_singleton_Some in E as [_ <-]. done.
  - intros fd m ptr E. cbn in E. by rewrite lookup_empty in E.
Qed.

Definition watch_request : request := RWatch 5 Rd read_entry.
Definition observer0 : socket_observer esim := mk_so 2 (Some T_EPOLL) [op_of watch_request] true core0.

#[local] Instance default_watch_laws : watch_laws T_EPOLL (observer_of (K := esim) T_EPOLL) := epoll_watch_laws.
#[local] Instance default_check_laws : check_laws T_EPOLL (observer_of (K := esim) T_EPOLL) := epoll_check_laws.

(** The watch is performed, the descriptor is ready, and its function is a task. *)
Example observer_round :
  match update observer0 with
  | Ok (s, _) => scheduled (core s) = [P_task fn_async_read (e_cookie read_entry)] /\ m_ctxs (core s) = ∅
  | Fault _ => False
  end.
Proof. vm_compute. done. Qed.


(** Descriptor 5 is watched for reading. *)
Definition reading_core : ow esim :=
  match epoll.watch IOE_READ 5 (Some (e_cookie read_entry)) (Some fn_async_read) (Some fn_async_error) core0 with
  | Ok (w, _) => w
  | Fault _ => core0
  end.

Lemma reading_core_inv : epoll_inv reading_core /\ watching reading_core 5 Rd = Some read_entry
  /\ watching reading_core 5 Wr = None.
Proof.
  split; [|vm_compute; done]. assert (H : watching core0 5 Rd = None) by reflexivity.
  pose proof (epoll_watch_law core0 5 Rd read_entry core0_inv eq_refl H) as HL.
  unfold wp in HL. unfold reading_core.
  change (epoll.watch (flag_of Rd (e_inf read_entry)) 5 (Some (e_cookie read_entry)) (Some (e_fn read_entry))
    (Some (e_err read_entry)) core0)
    with (epoll.watch IOE_READ 5 (Some (e_cookie read_entry)) (Some fn_async_read) (Some fn_async_error) core0) in HL.
  destruct (epoll.watch _ _ _ _ _ core0) as [[w []]|]; [apply HL | done].
Qed.

Lemma write_watch_deafens_read_witness :
  wp (epoll.watch IOE_WRITE 5 (Some (e_cookie write_entry)) (Some fn_async_write) (Some fn_async_error)) reading_core
    (fun w' _ => watching w' 5 Rd = Some read_entry
      /\ (watching w' 5 Wr = None
          \/ watching w' 5 Wr = Some write_entry
             /\ forall m ptr, kmap w' !! 5 = Some (m, ptr) -> flag_on m EPOLLIN = false)).
Proof.
  destruct reading_core_inv as (HI & HR & HW).
  exact (write_watch_deafens_read reading_core 5 read_entry write_entry HI eq_refl HR HW).
Defined.

Lemma urgent_data_throws_witness : m_ctxs reading_core !! 5 = Some 1
  /\ epoll.check_one (EPOLLPRI, 1) reading_core = Fault Thrown.
Proof.
  assert (E : m_ctxs reading_core !! 5 = Some 1) by (vm_compute; reflexivity). split; [exact E|].
  destruct reading_core_inv as (HI & _ & _). exact (urgent_data_throws reading_core 5 1 (ei_ctxs _ HI) E).
Defined.

(** A [select] observer with one read watch; data is there. *)
Definition select_core : ow esim :=
  match select.watch IOE_READ 5 (Some (e_cookie read_entry)) (Some fn_async_read) (Some fn_async_error) core0 with
  | Ok (w, _) => w
  | Fault _ => core0
  end.

Lemma select_single_watch_never_served_witness : exists c, objs select_core !! 1 = Some c /\ c_fd c = 5
  /\ wp select.check_ioe select_core (fun w' _ => scheduled w' = scheduled select_core
       /\ m_ctxs w' = m_ctxs select_core /\ objs w' = objs select_core).
Proof.
  assert (E : exists c, objs select_core !! 1 = Some c /\ c_fd c = 5) by (vm_compute; eexists; split; reflexivity).
  destruct E as (c & E & Hf). exists c. split; [exact E|]. split; [exact Hf|].
  assert (Em : m_ctxs select_core = {[5 := 1]}) by (vm_compute; reflexivity).
  apply (select_single_watch_never_served select_core 5 1 c Em E Hf). split; reflexivity.
Defined.
