(* ===== verification/SharedMutex.v ===== *)
(** * SharedMutex: the lock for readers and writers
    ([include/wawo/thread/impl/shared_mutex.hpp])

    Every method works under [m_state_mutex] from its beginning to its end or to a wait, so a
    method is one step of its thread, and a woken thread that looks at the state again is
    another.  A state of the system is the mutex and what each thread is doing.

    - [state_data]: the state of the mutex and its small methods;
    - [exec]: the methods;
    - [step]: a thread calls a method it may call, or goes on after a notification. *)

From S2P Require Import Prelude.

Inductive UpgradeState : Type := S_UP_SET | S_UP_UPING | S_UP_NOSET.
#[export] Instance UpgradeState_eq_dec : EqDecision UpgradeState.
Proof. solve_decision. Defined.

Module state_data.
Record t : Type := mk { shared_count : Z; upgrade : UpgradeState; exclusive : bool }.
Definition make : t := mk 0 S_UP_NOSET false.

Definition set_exclusive (b : bool) (s : t) : t := mk (shared_count s) (upgrade s) b.
Definition noset (s : t) : bool := bool_decide (upgrade s = S_UP_NOSET).

Definition can_lock_shared (s : t) : bool := negb (exclusive s || negb (noset s)).
Definition has_more_shared (s : t) : bool := 0 <? shared_count s.
Definition lock_shared (s : t) : t := mk (shared_count s +₃₂ 1) (upgrade s) (exclusive s).
Definition unlock_shared (s : t) : res t :=
  wawo_assert (negb (exclusive s));;
  wawo_assert (0 <? shared_count s);;
  Ok (mk (shared_count s -₃₂ 1) (upgrade s) (exclusive s)).

Definition can_lock_upgrade (s : t) : bool := negb (exclusive s || negb (noset s)).
Definition is_upgrade_set (s : t) : bool := bool_decide (upgrade s = S_UP_SET).
Definition lock_upgrade (s : t) : res t :=
  wawo_assert (negb (is_upgrade_set s));;
  Ok (mk (shared_count s +₃₂ 1) S_UP_SET (exclusive s)).
Definition unlock_upgrade (s : t) : res t :=
  wawo_assert (is_upgrade_set s);;
  wawo_assert (0 <? shared_count s);;
  Ok (mk (shared_count s -₃₂ 1) S_UP_NOSET (exclusive s)).
Definition unlock_upgrade_and_up (s : t) : res t :=
  wawo_assert (is_upgrade_set s);;
  wawo_assert (0 <? shared_count s);;
  Ok (mk (shared_count s -₃₂ 1) S_UP_UPING (exclusive s)).
Definition lock_upgrade_up_done (s : t) : res t :=
  wawo_assert (bool_decide (upgrade s = S_UP_UPING));;
  Ok (mk (shared_count s) S_UP_NOSET (exclusive s)).
End state_data.

(** ** Threads *)

(** What a thread holds. *)
Inductive hold : Type := H_none | H_shared | H_exclusive | H_upgrade.
(** The methods that wait, and the condition each waits for. *)
Inductive waiter : Type :=
| W_lock_shared | W_lock | W_unlock_shared_and_lock | W_lock_upgrade | W_unlock_upgrade_and_lock.
Inductive cond : Type := m_shared_cond | m_exclusive_cond | m_upgrade_cond.

(** A thread runs, sleeps in the loop of a method, or has been woken there. *)
Inductive pc : Type := Running (h : hold) | Asleep (c : waiter) | Woken (c : waiter).

#[export] Instance hold_eq_dec : EqDecision hold.
Proof. solve_decision. Defined.
#[export] Instance waiter_eq_dec : EqDecision waiter.
Proof. solve_decision. Defined.
#[export] Instance cond_eq_dec : EqDecision cond.
Proof. solve_decision. Defined.
#[export] Instance pc_eq_dec : EqDecision pc.
Proof. solve_decision. Defined.

Definition cond_of (c : waiter) : cond :=
  match c with
  | W_lock_shared | W_lock_upgrade => m_shared_cond
  | W_lock | W_unlock_shared_and_lock => m_exclusive_cond
  | W_unlock_upgrade_and_lock => m_upgrade_cond
  end.

Record sys : Type := mk_sys { m_state : state_data.t; threads : list pc }.

Definition sleeps_on (k : cond) (p : pc) : bool :=
  match p with Asleep c => bool_decide (cond_of c = k) | _ => false end.
Definition wake (k : cond) (p : pc) : pc :=
  match p with Asleep c => if decide (cond_of c = k) then Woken c else p | _ => p end.

(** [pick] is the thread that [notify_one] wakes. *)
Definition notify_all (k : cond) (l : list pc) : list pc := wake k <$> l.
Definition notify_one (k : cond) (pick : nat) (l : list pc) : list pc := alter (wake k) pick l.

(** ** The methods *)
Module shared_mutex.
Import state_data.

(** The condition of the loop of a method, and what follows the loop. *)
Definition blocked (c : waiter) (s : state_data.t) : bool :=
  match c with
  | W_lock_shared => negb (can_lock_shared s)
  | W_lock_upgrade => negb (can_lock_upgrade s)
  | W_lock | W_unlock_shared_and_lock | W_unlock_upgrade_and_lock => has_more_shared s || exclusive s
  end.
Definition take_exclusive (s : state_data.t) : res state_data.t :=
  wawo_assert (negb (has_more_shared s));;
  wawo_assert (negb (exclusive s));;
  Ok (set_exclusive true s).
Definition acquired (c : waiter) (s : state_data.t) : res (state_data.t * hold) :=
  match c with
  | W_lock_shared => Ok (state_data.lock_shared s, H_shared)
  | W_lock | W_unlock_shared_and_lock => s ← take_exclusive s; Ok (s, H_exclusive)
  | W_lock_upgrade => s ← state_data.lock_upgrade s; Ok (s, H_upgrade)
  | W_unlock_upgrade_and_lock => s ← take_exclusive s; s ← lock_upgrade_up_done s; Ok (s, H_exclusive)
  end.
Definition wait_loop (c : waiter) (t : nat) (w : sys) : res sys :=
  if blocked c (m_state w) then Ok (mk_sys (m_state w) (<[t := Asleep c]> (threads w)))
  else
    '(s, h) ← acquired c (m_state w);
    Ok (mk_sys s (<[t := Running h]> (threads w))).

Definition _notify_waiters (pick : nat) (l : list pc) : list pc :=
  notify_all m_shared_cond (notify_one m_exclusive_cond pick l).

Definition lock_shared (t : nat) (w : sys) : res sys := wait_loop W_lock_shared t w.

Definition unlock_shared (t pick : nat) (w : sys) : res sys :=
  wawo_assert (has_more_shared (m_state w));;
  s ← state_data.unlock_shared (m_state w);
  let l := <[t := Running H_none]> (threads w) in
  Ok (mk_sys s (if negb (has_more_shared s) then
                  if is_upgrade_set s then notify_one m_upgrade_cond pick l else _notify_waiters pick l
                else l)).

Definition unlock_shared_and_lock (t : nat) (w : sys) : res sys :=
  wawo_assert (has_more_shared (m_state w));;
  wawo_assert (negb (exclusive (m_state w)));;
  s ← state_data.unlock_shared (m_state w);
  wait_loop W_unlock_shared_and_lock t (mk_sys s (threads w)).

Definition lock (t : nat) (w : sys) : res sys := wait_loop W_lock t w.

Definition unlock (t pick : nat) (w : sys) : res sys :=
  wawo_assert (negb (has_more_shared (m_state w)));;
  wawo_assert (exclusive (m_state w));;
  Ok (mk_sys (set_exclusive false (m_state w)) (_notify_waiters pick (<[t := Running H_none]> (threads w)))).

Definition unlock_and_lock_shared (t : nat) (w : sys) : res sys :=
  wawo_assert (negb (has_more_shared (m_state w)));;
  wawo_assert (exclusive (m_state w));;
  let s := set_exclusive false (m_state w) in
  wawo_assert (can_lock_shared s);;
  Ok (mk_sys (state_data.lock_shared s) (<[t := Running H_shared]> (threads w))).

(** A [try_lock] that fails leaves the thread where it was. *)
Definition try_lock (t : nat) (w : sys) : res sys :=
  if has_more_shared (m_state w) || exclusive (m_state w) then Ok w
  else Ok (mk_sys (set_exclusive true (m_state w)) (<[t := Running H_exclusive]> (threads w))).
Definition try_lock_shared (t : nat) (w : sys) : res sys :=
  if negb (can_lock_shared (m_state w)) then Ok w
  else Ok (mk_sys (state_data.lock_shared (m_state w)) (<[t := Running H_shared]> (threads w))).

Definition lock_upgrade (t : nat) (w : sys) : res sys := wait_loop W_lock_upgrade t w.

Definition unlock_upgrade (t pick : nat) (w : sys) : res sys :=
  s ← state_data.unlock_upgrade (m_state w);
  let l := <[t := Running H_none]> (threads w) in
  Ok (mk_sys s (if has_more_shared s then notify_all m_shared_cond l else _notify_waiters pick l)).

Definition unlock_upgrade_and_lock (t : nat) (w : sys) : res sys :=
  s ← unlock_upgrade_and_up (m_state w);
  wait_loop W_unlock_upgrade_and_lock t (mk_sys s (threads w)).
End shared_mutex.

(** ** Steps *)
Inductive op : Type :=
| O_lock_shared | O_unlock_shared | O_unlock_shared_and_lock | O_lock | O_unlock
| O_unlock_and_lock_shared | O_try_lock | O_try_lock_shared | O_lock_upgrade | O_unlock_upgrade
| O_unlock_upgrade_and_lock | O_resume.

Definition exec (o : op) (t pick : nat) (w : sys) : res sys :=
  match o with
  | O_lock_shared => shared_mutex.lock_shared t w
  | O_unlock_shared => shared_mutex.unlock_shared t pick w
  | O_unlock_shared_and_lock => shared_mutex.unlock_shared_and_lock t w
  | O_lock => shared_mutex.lock t w
  | O_unlock => shared_mutex.unlock t pick w
  | O_unlock_and_lock_shared => shared_mutex.unlock_and_lock_shared t w
  | O_try_lock => shared_mutex.try_lock t w
  | O_try_lock_shared => shared_mutex.try_lock_shared t w
  | O_lock_upgrade => shared_mutex.lock_upgrade t w
  | O_unlock_upgrade => shared_mutex.unlock_upgrade t pick w
  | O_unlock_upgrade_and_lock => shared_mutex.unlock_upgrade_and_lock t w
  | O_resume => match threads w !! t with
                | Some (Woken c) => shared_mutex.wait_loop c t w
                | _ => Fault Undefined
                end
  end.

(** A thread gives back what it holds, and takes the lock when it holds nothing. *)
Definition may (o : op) (p : pc) : bool :=
  match o, p with
  | (O_lock_shared | O_lock | O_try_lock | O_try_lock_shared | O_lock_upgrade), Running H_none => true
  | (O_unlock_shared | O_unlock_shared_and_lock), Running H_shared => true
  | (O_unlock | O_unlock_and_lock_shared), Running H_exclusive => true
  | (O_unlock_upgrade | O_unlock_upgrade_and_lock), Running H_upgrade => true
  | O_resume, Woken _ => true
  | _, _ => false
  end.

(** The condition a method may notify with [notify_one], which wakes a thread if one sleeps
    there. *)
Definition notified (o : op) (w : sys) : cond :=
  match o with
  | O_unlock_shared => if state_data.is_upgrade_set (m_state w) then m_upgrade_cond else m_exclusive_cond
  | _ => m_exclusive_cond
  end.
Definition picks (k : cond) (l : list pc) (pick : nat) : Prop :=
  Exists (fun p => sleeps_on k p = true) l ->
  exists p, l !! pick = Some p /\ sleeps_on k p = true.

(** A step by one of the [allowed] methods. *)
Inductive step_by (allowed : op -> bool) (w w' : sys) : Prop :=
| step_exec o t pick p : allowed o = true -> threads w !! t = Some p -> may o p = true ->
    picks (notified o w) (threads w) pick -> exec o t pick w = Ok w' -> step_by allowed w w'.
Definition step : sys -> sys -> Prop := step_by (fun _ => true).

(** The system wakes a thread without a notification. *)
Inductive spurious (w w' : sys) : Prop :=
| spurious_wake t c : threads w !! t = Some (Asleep c) ->
    w' = mk_sys (m_state w) (<[t := Woken c]> (threads w)) -> spurious w w'.

Definition start (n : nat) : sys := mk_sys state_data.make (replicate n (Running H_none)).
Definition reachable_by (allowed : op -> bool) (n : nat) (w : sys) : Prop :=
  rtc (fun w w' => step_by allowed w w' \/ spurious w w') (start n) w.
Definition reachable : nat -> sys -> Prop := reachable_by (fun _ => true).

(** No thread turns its upgrade into an exclusive lock. *)
Definition no_upgrade (o : op) : bool := match o with O_unlock_upgrade_and_lock => false | _ => true end.
(** Threads only give back what they hold, and go on when woken. *)
Definition gives (o : op) : bool :=
  match o with O_unlock | O_unlock_shared | O_unlock_upgrade | O_resume => true | _ => false end.
