(* ===== verification/SharedMutexProofs.v ===== *)
(** * SharedMutexProofs: what the lock for readers and writers guarantees

    - [inv]: the counts of the mutex are those of the threads, so a writer is alone
      ([shared_mutex_excludes]) and no assertion of a method fails but one;
    - no wake-up is lost ([shared_mutex_served]), as long as no thread upgrades its lock to an
      exclusive one;
    - a thread that has to wait for its upgrade is never woken ([upgrade_sleeps_for_ever]). *)

From S2P Require Import Prelude SharedMutex.

(** ** Counting threads *)
Definition cnt (f : pc -> Z) (l : list pc) : Z := foldr (fun p n => f p + n) 0 l.

Definition holds (h : hold) (p : pc) : Z := Z.b2z (bool_decide (p = Running h)).
(** Waits for its upgrade. *)
Definition uping (p : pc) : Z :=
  match p with Asleep W_unlock_upgrade_and_lock | Woken W_unlock_upgrade_and_lock => 1 | _ => 0 end.
Definition busy (p : pc) : Z := 1 - holds H_none p.

Definition nonneg (f : pc -> Z) : Prop := forall p, 0 <= f p.
Lemma holds_nonneg h : nonneg (holds h).
Proof. intros p. unfold holds. destruct (bool_decide _); simpl; lia. Qed.
Lemma uping_nonneg : nonneg uping.
Proof. by intros [| [] | []]. Qed.
Lemma busy_nonneg : nonneg busy.
Proof. intros p. unfold busy, holds. destruct (bool_decide _); simpl; lia. Qed.
#[local] Hint Resolve holds_nonneg uping_nonneg busy_nonneg : core.

Lemma cnt_nonneg f l : nonneg f -> 0 <= cnt f l.
Proof. intros Hf. induction l as [|p l IH]; simpl; [lia | specialize (Hf p); lia]. Qed.

Lemma cnt_insert f l t p q : l !! t = Some p -> cnt f (<[t := q]> l) = cnt f l - f p + f q.
Proof.
  revert t. induction l as [|x l IH]; intros [|t] E; simpl in *; try discriminate.
  - injection E as ->. lia.
  - rewrite (IH t E). lia.
Qed.

Lemma cnt_ge f l t p : nonneg f -> l !! t = Some p -> f p <= cnt f l.
Proof.
  intros Hf. revert t. induction l as [|x l IH]; intros [|t] E; simpl in *; try discriminate.
  - injection E as ->. pose proof (cnt_nonneg f l Hf). lia.
  - specialize (IH t E). specialize (Hf x). lia.
Qed.
Lemma cnt_two f l t t' p p' : nonneg f -> t <> t' -> l !! t = Some p -> l !! t' = Some p' ->
  f p + f p' <= cnt f l.
Proof.
  intros Hf. revert t t'. induction l as [|x l IH]; intros [|t] [|t'] Hne E E'; simpl in *; try discriminate.
  - done.
  - injection E as ->. pose proof (cnt_ge f l t' p' Hf E'). lia.
  - injection E' as ->. pose proof (cnt_ge f l t p Hf E). lia.
  - assert (t <> t') by congruence. specialize (IH t t' ltac:(done) E E'). specialize (Hf x). lia.
Qed.
Lemma cnt_pos f l : nonneg f -> 0 < cnt f l -> exists t p, l !! t = Some p /\ 0 < f p.
Proof.
  intros Hf. induction l as [|x l IH]; simpl; intros H; [lia|].
  destruct (Z.lt_ge_cases 0 (f x)) as [Hx|Hx]; [by exists O, x|].
  destruct IH as (t & p & E & Hp); [lia|]. by exists (S t), p.
Qed.
Lemma cnt_le_length f l : (forall p, f p <= 1) -> cnt f l <= Z.of_nat (length l).
Proof. intros Hf. induction l as [|x l IH]; simpl; [lia | specialize (Hf x); lia]. Qed.

(** Waking a thread changes no count that does not look at it. *)
Definition still (f : pc -> Z) : Prop := forall c, f (Woken c) = f (Asleep c).
Lemma holds_still h : still (holds h).
Proof. done. Qed.
Lemma uping_still : still uping.
Proof. by intros []. Qed.
Lemma busy_still : still busy.
Proof. done. Qed.
#[local] Hint Resolve holds_still uping_still busy_still : core.

Lemma wake_still f k p : still f -> f (wake k p) = f p.
Proof. intros Hf. destruct p as [h|c|c]; simpl; [done| |done]. by case_decide. Qed.
Lemma cnt_notify_all f k l : still f -> cnt f (notify_all k l) = cnt f l.
Proof.
  intros Hf. unfold notify_all. induction l as [|x l IH]; [done|].
  rewrite fmap_cons. simpl. by rewrite IH, wake_still.
Qed.
Lemma cnt_notify_one f k t l : still f -> cnt f (notify_one k t l) = cnt f l.
Proof.
  intros Hf. unfold notify_one. revert t. induction l as [|x l IH]; intros [|t]; simpl; [done..| |].
  - by rewrite wake_still.
  - f_equal. apply IH.
Qed.
Lemma length_notify_one k t l : length (notify_one k t l) = length l.
Proof. apply length_alter. Qed.
Lemma length_notify_all k l : length (notify_all k l) = length l.
Proof. apply length_fmap. Qed.
Create Rewrite HintDb counts.
#[local] Hint Rewrite cnt_notify_all cnt_notify_one length_notify_one length_notify_all
  (@length_insert pc) using (auto; done) : counts.

(** ** The invariant *)
Import state_data.
Record good (s : state_data.t) (nS nX nU nP : Z) : Prop := {
  g_shared : shared_count s = nS + nU;
  g_exclusive : Z.b2z (exclusive s) = nX;
  g_alone : exclusive s = true -> shared_count s = 0;
  g_set : Z.b2z (is_upgrade_set s) = nU;
  g_uping : Z.b2z (bool_decide (upgrade s = S_UP_UPING)) = nP
}.
Record inv (w : sys) : Prop := {
  inv_good : good (m_state w) (cnt (holds H_shared) (threads w)) (cnt (holds H_exclusive) (threads w))
               (cnt (holds H_upgrade) (threads w)) (cnt uping (threads w));
  inv_length : Z.of_nat (length (threads w)) < 4294967296
}.

Definition shares (p : pc) : Z := holds H_shared p + holds H_upgrade p.
Lemma shares_cnt l : cnt shares l = cnt (holds H_shared) l + cnt (holds H_upgrade) l.
Proof. unfold shares. induction l as [|x l IH]; simpl; [done | lia]. Qed.
Lemma shares_nonneg : nonneg shares.
Proof. by intros [[]| |]. Qed.
Lemma shares_le p : shares p <= 1.
Proof. by destruct p as [[]| |]. Qed.

Lemma good_nonneg w : inv w -> 0 <= shared_count (m_state w) < 4294967296.
Proof.
  intros [[H1 _ _ _ _] HL]. rewrite H1, <- shares_cnt. split; [apply cnt_nonneg, shares_nonneg|].
  eapply Z.le_lt_trans; [apply cnt_le_length, shares_le | done].
Qed.

(** The state of a mutex as flags. *)
Lemma good_cases s nS nX nU nP : good s nS nX nU nP -> 0 <= nS -> 
  (exclusive s = false /\ nX = 0 \/ exclusive s = true /\ nX = 1 /\ nS = 0 /\ nU = 0)
  /\ (upgrade s = S_UP_NOSET /\ nU = 0 /\ nP = 0 \/ upgrade s = S_UP_SET /\ nU = 1 /\ nP = 0
      \/ upgrade s = S_UP_UPING /\ nU = 0 /\ nP = 1)
  /\ shared_count s = nS + nU.
Proof.
  intros [H1 H2 H3 H4 H5] HS. unfold is_upgrade_set in H4.
  assert (HU : 0 <= nU) by (rewrite <- H4; destruct (bool_decide _); simpl; lia).
  split; [|split; [|done]].
  - destruct (exclusive s); simpl in H2; [right | by left]. specialize (H3 eq_refl). repeat split; lia.
  - destruct (upgrade s); simpl in H4, H5; [right; left | right; right | left]; repeat split; lia.
Qed.

(** What a thread counts as while it waits. *)
Definition base (c : waiter) : pc :=
  match c with W_unlock_upgrade_and_lock => Asleep c | _ => Running H_none end.

Lemma base_counts c f : f = holds H_shared \/ f = holds H_exclusive \/ f = holds H_upgrade \/ f = uping ->
  f (Asleep c) = f (base c) /\ f (Woken c) = f (base c).
Proof. by intros [->|[->|[->| ->]]]; destruct c. Qed.

Definition at_base (c : waiter) (t : nat) (w : sys) : sys := mk_sys (m_state w) (<[t := base c]> (threads w)).

(** A thread that moves between states with the same counts. *)
Lemma inv_same w t p q : inv w -> threads w !! t = Some p ->
  (forall f, f = holds H_shared \/ f = holds H_exclusive \/ f = holds H_upgrade \/ f = uping -> f p = f q) ->
  inv (mk_sys (m_state w) (<[t := q]> (threads w))).
Proof.
  intros [HG HL] E Hf. constructor; cbn [m_state threads]; [|by rewrite length_insert].
  rewrite !(cnt_insert _ _ t p q E), !(Hf (holds _)), (Hf uping) by tauto.
  by rewrite !Z.sub_add.
Qed.

(** Compute what a concrete thread and a concrete flag count. *)
Ltac eval_counts :=
  repeat match goal with
  | |- context [holds ?h ?p] => is_ground p; let v := eval vm_compute in (holds h p) in change (holds h p) with v
  | |- context [uping ?p] => is_ground p; let v := eval vm_compute in (uping p) in change (uping p) with v
  | |- context [bool_decide (?u = ?v :> UpgradeState)] =>
      is_ground u; let b := eval vm_compute in (bool_decide (u = v)) in change (bool_decide (u = v)) with b
  end; cbn [Z.b2z].

(** The mutex changes with the thread. *)
Lemma inv_change w t p q s : inv w -> threads w !! t = Some p ->
  good s (cnt (holds H_shared) (threads w) - holds H_shared p + holds H_shared q)
    (cnt (holds H_exclusive) (threads w) - holds H_exclusive p + holds H_exclusive q)
    (cnt (holds H_upgrade) (threads w) - holds H_upgrade p + holds H_upgrade q)
    (cnt uping (threads w) - uping p + uping q) ->
  inv (mk_sys s (<[t := q]> (threads w))).
Proof.
  intros [_ HL] E HG. constructor; cbn [m_state threads]; [|by rewrite length_insert].
  by rewrite !(cnt_insert _ _ t p q E).
Qed.

(** One more reader does not overflow. *)
Lemma shared_room w t p : inv w -> threads w !! t = Some p -> shares p = 0 ->
  shared_count (m_state w) +₃₂ 1 = shared_count (m_state w) + 1.
Proof.
  intros HI E Hp. destruct (good_nonneg w HI). destruct HI as [[H1 _ _ _ _] HL]. apply u32_small.
  pose proof (cnt_le_length shares (<[t := Running H_shared]> (threads w)) shares_le) as HC.
  rewrite (cnt_insert shares _ t p _ E), Hp, shares_cnt, <- H1, length_insert in HC.
  change (shares (Running H_shared)) with 1 in HC. unfold is_u32. lia.
Qed.

(** The mutex a thread takes when nothing blocks it. *)
Lemma acquired_inv c t w : inv w -> threads w !! t = Some (base c) -> shared_mutex.blocked c (m_state w) = false ->
  exists s h, shared_mutex.acquired c (m_state w) = Ok (s, h) /\ inv (mk_sys s (<[t := Running h]> (threads w))).
Proof.
  intros HI E Hb. pose proof (good_cases _ _ _ _ _ (inv_good w HI) (cnt_nonneg _ _ (holds_nonneg _))) as (HX & HU & HS).
  assert (Hp : base c = base W_unlock_upgrade_and_lock -> 1 <= cnt uping (threads w)).
  { intros Ec. rewrite Ec in E. by apply (cnt_ge uping (threads w) t _ uping_nonneg) in E. }
  assert (Hroom : shares (base c) = 0) by (by destruct c).
  pose proof (cnt_nonneg _ (threads w) (holds_nonneg H_shared)) as Hn0.
  pose proof (shared_room w t _ HI E Hroom) as Hr.
  destruct w as [[n u e] l]; cbn [m_state threads shared_count upgrade exclusive] in *.
  destruct HI as [[G1 G2 G3 G4 G5] HL]. cbn [m_state threads shared_count upgrade exclusive] in *.
  assert (HA : forall s h, good s (cnt (holds H_shared) l - holds H_shared (base c) + holds H_shared (Running h))
      (cnt (holds H_exclusive) l - holds H_exclusive (base c) + holds H_exclusive (Running h))
      (cnt (holds H_upgrade) l - holds H_upgrade (base c) + holds H_upgrade (Running h))
      (cnt uping l - uping (base c) + uping (Running h)) -> inv (mk_sys s (<[t := Running h]> l))).
  { intros s h HG. by apply (inv_change (mk_sys (mk n u e) l) t (base c)). }
  destruct c; unfold shared_mutex.blocked, shared_mutex.acquired, shared_mutex.take_exclusive, can_lock_shared,
    can_lock_upgrade, has_more_shared, noset, lock_upgrade, lock_upgrade_up_done, is_upgrade_set, lock_shared, set_exclusive in *;
    cbn [shared_count upgrade exclusive base] in *;
    destruct e, u; try discriminate Hb; cbn in *;
    destruct HU as [(Hu & HU & HP)|[(Hu & HU & HP)|(Hu & HU & HP)]]; try discriminate Hu;
    try (specialize (Hp eq_refl)); try (exfalso; lia); rewrite ?orb_false_r in Hb; rewrite ?Hb; cbn;
    (eexists _, _; split; [reflexivity|]; apply HA; constructor; cbn; unfold is_upgrade_set; cbn [upgrade];
       eval_counts; rewrite ?Hr; try lia; try done; try (intros _; apply Z.ltb_ge in Hb; lia)).
Qed.

Lemma wait_loop_inv c t w p : threads w !! t = Some p -> inv (at_base c t w) ->
  exists w', shared_mutex.wait_loop c t w = Ok w' /\ inv w'.
Proof.
  intros E HI. unfold shared_mutex.wait_loop.
  assert (E0 : threads (at_base c t w) !! t = Some (base c)).
  { apply list_lookup_insert_eq. by eapply lookup_lt_Some. }
  destruct (shared_mutex.blocked c (m_state w)) eqn:Hb.
  - eexists. split; [reflexivity|].
    pose proof (inv_same (at_base c t w) t (base c) (Asleep c) HI E0) as HI'.
    cbn [at_base m_state threads] in HI'. rewrite list_insert_insert_eq in HI'. apply HI'.
    intros f Hf. by destruct (base_counts c f Hf) as [-> _].
  - destruct (acquired_inv c t (at_base c t w) HI E0 Hb) as (s & h & Ea & HI').
    cbn [at_base m_state] in Ea. rewrite Ea. cbn [mbind res_bind]. eexists. split; [reflexivity|].
    cbn [at_base threads] in HI'. by rewrite list_insert_insert_eq in HI'.
Qed.

Lemma inv_notified s l l' : inv (mk_sys s l) -> (forall f, still f -> cnt f l' = cnt f l) -> length l' = length l ->
  inv (mk_sys s l').
Proof. intros [HG HL] Hc Hlen. constructor; cbn [m_state threads] in *; [by rewrite !Hc by auto | by rewrite Hlen]. Qed.

Lemma notify_waiters_inv s pick l : inv (mk_sys s l) -> inv (mk_sys s (shared_mutex._notify_waiters pick l)).
Proof.
  intros HI. unfold shared_mutex._notify_waiters. eapply inv_notified; [exact HI| |].
  - intros f Hf. by rewrite cnt_notify_all, cnt_notify_one.
  - by rewrite length_notify_all, length_notify_one.
Qed.
Lemma notify_one_inv k s pick l : inv (mk_sys s l) -> inv (mk_sys s (notify_one k pick l)).
Proof. intros HI. eapply inv_notified; [exact HI| |]; [intros f Hf; by rewrite cnt_notify_one | apply length_notify_one]. Qed.
Lemma notify_all_inv k s l : inv (mk_sys s l) -> inv (mk_sys s (notify_all k l)).
Proof. intros HI. eapply inv_notified; [exact HI| |]; [intros f Hf; by rewrite cnt_notify_all | apply length_notify_all]. Qed.

(** What a thread that holds the lock knows of the state. *)
Lemma holder_state w t h : inv w -> threads w !! t = Some (Running h) ->
  match h with
  | H_none => True
  | H_shared => exclusive (m_state w) = false /\ 0 < shared_count (m_state w)
  | H_exclusive => exclusive (m_state w) = true /\ shared_count (m_state w) = 0
  | H_upgrade => exclusive (m_state w) = false /\ 0 < shared_count (m_state w) /\ upgrade (m_state w) = S_UP_SET
  end.
Proof.
  intros HI E. pose proof (good_cases _ _ _ _ _ (inv_good w HI) (cnt_nonneg _ _ (holds_nonneg _))) as (HX & HU & HS).
  pose proof (cnt_ge (holds h) _ _ _ (holds_nonneg h) E) as Hh.
  assert (holds h (Running h) = 1) as E1 by (by destruct h). rewrite E1 in Hh.
  pose proof (cnt_nonneg _ (threads w) (holds_nonneg H_shared)). pose proof (cnt_nonneg _ (threads w) (holds_nonneg H_upgrade)).
  destruct h; [done|..]; destruct HX as [(-> & HX)|(-> & HX & HX2 & HX3)];
    destruct HU as [(? & ? & ?)|[(? & ? & ?)|(? & ? & ?)]]; (exfalso; lia) || (repeat split; (done || lia)).
Qed.

(** ** A step keeps the invariant *)
Definition fails (o : op) (w : sys) : Prop :=
  o = O_unlock_and_lock_shared /\ upgrade (m_state w) = S_UP_UPING.

Lemma base_running c t w : inv w -> threads w !! t = Some (Running H_none) -> c <> W_unlock_upgrade_and_lock ->
  exists w', shared_mutex.wait_loop c t w = Ok w' /\ inv w'.
Proof.
  intros HI E Hc. apply (wait_loop_inv c t w (Running H_none) E). unfold at_base.
  assert (base c = Running H_none) as -> by (by destruct c). rewrite list_insert_id by done. by destruct w.
Qed.

(** Giving a share back. *)
Lemma unlock_shared_inv w t p q : inv w -> threads w !! t = Some p -> p = Running H_shared ->
  holds H_shared q = 0 -> holds H_exclusive q = 0 -> holds H_upgrade q = 0 -> uping q = 0 ->
  exists s, state_data.unlock_shared (m_state w) = Ok s /\ shared_count s = shared_count (m_state w) - 1
    /\ upgrade s = upgrade (m_state w) /\ inv (mk_sys s (<[t := q]> (threads w))).
Proof.
  intros HI E -> Q1 Q2 Q3 Q4. destruct (holder_state w t _ HI E) as [Hx Hs]. destruct (good_nonneg w HI).
  unfold state_data.unlock_shared. rewrite Hx, (proj2 (Z.ltb_lt 0 _)) by done. cbn [negb check mbind res_bind].
  eexists. split; [reflexivity|]. cbn [shared_count upgrade]. rewrite u32_small by (unfold is_u32; lia).
  split; [done|]. split; [done|]. eapply inv_change; [exact HI | exact E|]. rewrite Q1, Q2, Q3, Q4. eval_counts.
  destruct (inv_good w HI) as [G1 G2 G3 G4 G5].
  unfold is_upgrade_set in *. constructor; unfold is_upgrade_set; cbn [shared_count upgrade exclusive]; try lia.
  rewrite Hx in G2. lia.
Qed.

Lemma with_threads l w : m_state (mk_sys (m_state w) l) = m_state w /\ threads (mk_sys (m_state w) l) = l.
Proof. done. Qed.

(** The methods that give the lock back. *)
Lemma unlock_inv t pick w : inv w -> threads w !! t = Some (Running H_exclusive) ->
  exists w', shared_mutex.unlock t pick w = Ok w' /\ inv w'.
Proof.
  intros HI E. destruct (holder_state w t _ HI E) as [Hx Hs]. unfold shared_mutex.unlock, has_more_shared.
  rewrite Hx, Hs. cbn [Z.ltb negb check mbind res_bind Z.compare]. eexists. split; [reflexivity|]. apply notify_waiters_inv.
  eapply inv_change; [exact HI | exact E|]. eval_counts. destruct (inv_good w HI) as [G1 G2 G3 G4 G5].
  unfold is_upgrade_set in *. rewrite Hx in G2. cbn in G2.
  constructor; unfold is_upgrade_set; cbn [shared_count upgrade exclusive set_exclusive Z.b2z]; try lia.
Qed.

Lemma unlock_shared_method_inv t pick w : inv w -> threads w !! t = Some (Running H_shared) ->
  exists w', shared_mutex.unlock_shared t pick w = Ok w' /\ inv w'.
Proof.
  intros HI E. destruct (holder_state w t _ HI E) as [Hx Hs]. unfold shared_mutex.unlock_shared.
  assert (has_more_shared (m_state w) = true) as -> by (apply Z.ltb_lt; done). cbn [check mbind res_bind].
  destruct (unlock_shared_inv w t _ (Running H_none) HI E) as (s & -> & _ & _ & HI'); [done..|].
  cbn [mbind res_bind]. eexists. split; [reflexivity|].
  destruct (negb _); [|done]. destruct (is_upgrade_set s); [by apply notify_one_inv | by apply notify_waiters_inv].
Qed.

Lemma unlock_upgrade_inv t w q nP : inv w -> threads w !! t = Some (Running H_upgrade) ->
  holds H_shared q = 0 -> holds H_exclusive q = 0 -> holds H_upgrade q = 0 -> uping q = nP ->
  forall u, u <> S_UP_SET -> Z.b2z (bool_decide (u = S_UP_UPING)) = nP ->
  inv (mk_sys (mk (shared_count (m_state w) -₃₂ 1) u (exclusive (m_state w))) (<[t := q]> (threads w))).
Proof.
  intros HI E Q1 Q2 Q3 Q4 u Hu Hn. destruct (holder_state w t _ HI E) as (Hx & Hs & HS). destruct (good_nonneg w HI).
  eapply inv_change; [exact HI | exact E|]. rewrite Q1, Q2, Q3, Q4. eval_counts.
  destruct (inv_good w HI) as [G1 G2 G3 G4 G5]. unfold is_upgrade_set in *. rewrite HS in G4, G5.
  change (Z.b2z (bool_decide (S_UP_SET = S_UP_UPING))) with 0 in G5.
  change (Z.b2z (bool_decide (S_UP_SET = S_UP_SET))) with 1 in G4.
  constructor; unfold is_upgrade_set; cbn [shared_count upgrade exclusive]; rewrite ?u32_small by (unfold is_u32; lia).
  - lia.
  - lia.
  - by rewrite Hx.
  - rewrite bool_decide_false by done. simpl. lia.
  - lia.
Qed.

(** The [try] methods take the lock as the others do when nothing blocks them. *)
Lemma try_inv c t w s h : inv w -> threads w !! t = Some (Running H_none) -> base c = Running H_none ->
  shared_mutex.blocked c (m_state w) = false -> shared_mutex.acquired c (m_state w) = Ok (s, h) ->
  inv (mk_sys s (<[t := Running h]> (threads w))).
Proof.
  intros HI E Hc Hb Ha. rewrite <- Hc in E. destruct (acquired_inv c t w HI E Hb) as (s' & h' & Ha' & HI').
  rewrite Ha in Ha'. by injection Ha' as -> ->.
Qed.

Lemma try_lock_inv t w : inv w -> threads w !! t = Some (Running H_none) ->
  exists w', shared_mutex.try_lock t w = Ok w' /\ inv w'.
Proof.
  intros HI E. unfold shared_mutex.try_lock. destruct (has_more_shared (m_state w) || exclusive (m_state w)) eqn:Hb; [by eexists|].
  eexists. split; [reflexivity|]. apply (try_inv W_lock t w); [done..|].
  apply orb_false_iff in Hb as [H1 H2]. unfold shared_mutex.acquired, shared_mutex.take_exclusive. by rewrite H1, H2.
Qed.
Lemma try_lock_shared_inv t w : inv w -> threads w !! t = Some (Running H_none) ->
  exists w', shared_mutex.try_lock_shared t w = Ok w' /\ inv w'.
Proof.
  intros HI E. unfold shared_mutex.try_lock_shared. destruct (negb (can_lock_shared (m_state w))) eqn:Hb; [by eexists|].
  eexists. split; [reflexivity|]. by apply (try_inv W_lock_shared t w).
Qed.

(** From exclusive to shared: the only method with an assertion that can fail. *)
Lemma unlock_and_lock_shared_inv t w : inv w -> threads w !! t = Some (Running H_exclusive) ->
  match shared_mutex.unlock_and_lock_shared t w with
  | Ok w' => inv w'
  | Fault f => f = AssertFailed /\ upgrade (m_state w) = S_UP_UPING
  end.
Proof.
  intros HI E. destruct (holder_state w t _ HI E) as [Hx Hs].
  destruct (good_cases _ _ _ _ _ (inv_good w HI) (cnt_nonneg _ _ (holds_nonneg _))) as (HX & HU & HS).
  pose proof (shared_room w t _ HI E eq_refl) as Hr. destruct (inv_good w HI) as [G1 G2 G3 G4 G5].
  unfold shared_mutex.unlock_and_lock_shared, has_more_shared. rewrite Hx, Hs. cbn [Z.ltb Z.compare negb check mbind res_bind].
  unfold can_lock_shared, noset, set_exclusive. cbn [exclusive upgrade orb].
  destruct HU as [(Hu & HU & HP)|[(Hu & HU & HP)|(Hu & HU & HP)]]; rewrite Hu.
  - cbn [negb check mbind res_bind]. eapply inv_change; [exact HI | exact E|]. eval_counts.
    rewrite Hx in G2. cbn [Z.b2z] in G2. unfold is_upgrade_set in *. rewrite Hu in G4, G5.
    change (Z.b2z (bool_decide (S_UP_NOSET = S_UP_UPING))) with 0 in G5.
    change (Z.b2z (bool_decide (S_UP_NOSET = S_UP_SET))) with 0 in G4.
    constructor; unfold lock_shared, is_upgrade_set; cbn [shared_count upgrade exclusive]; rewrite ?Hr; eval_counts; lia || done.
  - destruct HX as [(Hx' & _)|(_ & _ & _ & HU')]; [congruence | lia].
  - done.
Qed.

Lemma unlock_upgrade_method_inv t pick w : inv w -> threads w !! t = Some (Running H_upgrade) ->
  exists w', shared_mutex.unlock_upgrade t pick w = Ok w' /\ inv w'.
Proof.
  intros HI E. destruct (holder_state w t _ HI E) as (Hx & Hs & HS). unfold shared_mutex.unlock_upgrade, unlock_upgrade, is_upgrade_set.
  rewrite HS, (proj2 (Z.ltb_lt 0 _)) by done. cbn [bool_decide check mbind res_bind]. rewrite bool_decide_true by done.
  cbn [check mbind res_bind]. eexists. split; [reflexivity|].
  assert (HI' := unlock_upgrade_inv t w (Running H_none) 0 HI E eq_refl eq_refl eq_refl eq_refl S_UP_NOSET ltac:(done) eq_refl).
  destruct (has_more_shared _); [by apply notify_all_inv | by apply notify_waiters_inv].
Qed.

Lemma unlock_upgrade_and_lock_inv t w : inv w -> threads w !! t = Some (Running H_upgrade) ->
  exists w', shared_mutex.unlock_upgrade_and_lock t w = Ok w' /\ inv w'.
Proof.
  intros HI E. destruct (holder_state w t _ HI E) as (Hx & Hs & HS).
  unfold shared_mutex.unlock_upgrade_and_lock, unlock_upgrade_and_up, is_upgrade_set.
  rewrite HS, (proj2 (Z.ltb_lt 0 _)) by done. rewrite bool_decide_true by done. cbn [check mbind res_bind].
  eapply wait_loop_inv; [exact E|]. unfold at_base. cbn [m_state threads base].
  apply (unlock_upgrade_inv t w (Asleep W_unlock_upgrade_and_lock) 1 HI E); done.
Qed.

Lemma exec_inv o t pick w p : inv w -> threads w !! t = Some p -> may o p = true ->
  match exec o t pick w with
  | Ok w' => inv w'
  | Fault f => f = AssertFailed /\ fails o w
  end.
Proof.
  intros HI E Hm.
  assert (HOk : forall r, (exists w', r = Ok w' /\ inv w') -> match r with Ok w' => inv w' | Fault f => f = AssertFailed /\ fails o w end).
  { by intros r (w' & -> & HI'). }
  destruct o, p as [[]|c|c]; try discriminate Hm; cbn [exec].
  - apply HOk. by apply base_running.
  - apply HOk. by apply unlock_shared_method_inv.
  - apply HOk. destruct (holder_state w t _ HI E) as [Hx Hs]. unfold shared_mutex.unlock_shared_and_lock, has_more_shared.
    rewrite (proj2 (Z.ltb_lt 0 _)) by done. rewrite Hx. cbn [check mbind res_bind negb].
    destruct (unlock_shared_inv w t _ (Running H_none) HI E) as (s & -> & _ & _ & HI'); [done..|].
    cbn [mbind res_bind]. by eapply wait_loop_inv.
  - apply HOk. by apply base_running.
  - apply HOk. by apply unlock_inv.
  - pose proof (unlock_and_lock_shared_inv t w HI E) as HL.
    destruct (shared_mutex.unlock_and_lock_shared t w) as [w1|f]; [exact HL|]. destruct HL as [-> HU]. done.
  - apply HOk. by apply try_lock_inv.
  - apply HOk. by apply try_lock_shared_inv.
  - apply HOk. by apply base_running.
  - apply HOk. by apply unlock_upgrade_method_inv.
  - apply HOk. by apply unlock_upgrade_and_lock_inv.
  - apply HOk. rewrite E. eapply wait_loop_inv; [exact E|]. apply (inv_same w t _ _ HI E). intros f Hf.
    by destruct (base_counts c f Hf) as [_ ->].
Qed.

(** ** Mutual exclusion *)
Lemma start_inv n : Z.of_nat n < 4294967296 -> inv (start n).
Proof.
  intros Hn. assert (H0 : forall f, f (Running H_none) = 0 -> cnt f (replicate n (Running H_none)) = 0).
  { intros f Hf. induction n as [|n IH]; [done|]. simpl. rewrite Hf. apply IH. lia. }
  constructor; cbn [start m_state threads]; [|by rewrite length_replicate].
  rewrite !H0 by reflexivity. constructor; reflexivity || discriminate.
Qed.

Lemma spurious_inv w w' : inv w -> spurious w w' -> inv w'.
Proof.
  intros HI [t c E ->]. apply (inv_same w t _ _ HI E). intros f Hf. by destruct (base_counts c f Hf) as [-> ->].
Qed.

Lemma step_inv allowed w w' : inv w -> step_by allowed w w' -> inv w'.
Proof.
  intros HI [o t pick p _ E Hm _ Ex]. pose proof (exec_inv o t pick w p HI E Hm) as HE. by rewrite Ex in HE.
Qed.

Lemma reachable_inv allowed n w : Z.of_nat n < 4294967296 -> reachable_by allowed n w -> inv w.
Proof.
  intros Hn HR. unfold reachable_by in HR. remember (start n) as w0. assert (HI : inv w0) by (subst; by apply start_inv).
  clear Heqw0. induction HR as [|w0 w1 w2 [Hs|Hs] _ IH]; [done| |]; apply IH; [by eapply step_inv | by eapply spurious_inv].
Qed.

(** C22: However the threads interleave, a thread that holds the lock exclusively is the only one
    that holds it at all, at most one holds it for an upgrade, and the only assertion that can
    fail is the one of [unlock_and_lock_shared], when another thread waits for its upgrade. *)
Theorem shared_mutex_excludes n w : Z.of_nat n < 4294967296 -> reachable n w ->
  (forall t t' h, t <> t' -> threads w !! t = Some (Running H_exclusive) ->
     threads w !! t' = Some (Running h) -> h = H_none)
  /\ (forall t t', threads w !! t = Some (Running H_upgrade) -> threads w !! t' = Some (Running H_upgrade) -> t = t')
  /\ (forall o t pick p, threads w !! t = Some p -> may o p = true ->
        (exists w', exec o t pick w = Ok w')
        \/ exec o t pick w = Fault AssertFailed /\ o = O_unlock_and_lock_shared
            /\ exists t' p', threads w !! t' = Some p' /\ uping p' = 1).
Proof.
  intros Hn HR. pose proof (reachable_inv _ n w Hn HR) as HI.
  destruct (good_cases _ _ _ _ _ (inv_good w HI) (cnt_nonneg _ _ (holds_nonneg _))) as (HX & HU & HS).
  split; [|split].
  - intros t t' h Hne E E'. destruct (holder_state w t _ HI E) as [Hx Hs].
    pose proof (holder_state w t' _ HI E') as Hh. destruct h; [done | destruct Hh; lia | | destruct Hh as (? & ? & _); lia].
    pose proof (cnt_two (holds H_exclusive) _ t t' _ _ (holds_nonneg _) Hne E E') as H2. revert H2. eval_counts. lia.
  - intros t t' E E'. destruct (decide (t = t')) as [|Hne]; [done | exfalso].
    pose proof (cnt_two (holds H_upgrade) _ t t' _ _ (holds_nonneg _) Hne E E') as H2. revert H2. eval_counts. lia.
  - intros o t pick p E Hm. pose proof (exec_inv o t pick w p HI E Hm) as HE.
    destruct (exec o t pick w) as [w'|f]; [left; by exists w' | right]. destruct HE as [-> [-> Hu]].
    split; [done|]. split; [done|]. destruct HU as [(Hu' & _)|[(Hu' & _)|(_ & _ & HP)]]; try congruence.
    destruct (cnt_pos uping (threads w) uping_nonneg) as (t' & p' & E' & Hp'); [lia|]. exists t', p'. split; [done|].
    by destruct p' as [|[]|[]].
Qed.

(** ** No wake-up is lost *)
Definition free (s : state_data.t) : bool := (shared_count s =? 0) && negb (exclusive s) && noset s.
Definition asleep (p : pc) : bool := match p with Asleep _ => true | _ => false end.
(** A thread that will do something for the others. *)
Definition awake (p : pc) : bool := match p with Running H_none | Asleep _ => false | _ => true end.
Definition some (f : pc -> bool) (l : list pc) : Prop := exists t p, l !! t = Some p /\ f p = true.

Record live (w : sys) : Prop := {
  live_inv : inv w;
  live_up : upgrade (m_state w) <> S_UP_UPING;
  live_wake : some asleep (threads w) -> some awake (threads w)
}.

Lemma holder_of w : inv w -> upgrade (m_state w) <> S_UP_UPING -> free (m_state w) = false ->
  exists t h, threads w !! t = Some (Running h) /\ h <> H_none.
Proof.
  intros HI Hup Hf. destruct (good_cases _ _ _ _ _ (inv_good w HI) (cnt_nonneg _ _ (holds_nonneg _))) as (HX & HU & HS).
  assert (HP : forall h, h <> H_none -> 0 < cnt (holds h) (threads w) -> exists t h, threads w !! t = Some (Running h) /\ h <> H_none).
  { intros h Hh Hc. destruct (cnt_pos _ _ (holds_nonneg h) Hc) as (t & p & E & Hp). exists t, h. split; [|done].
    unfold holds in Hp. case_bool_decide; [by subst | simpl in Hp; lia]. }
  pose proof (cnt_nonneg _ (threads w) (holds_nonneg H_shared)) as H0.
  destruct HX as [(Hx & _)|(_ & HX & _)]; [|apply (HP H_exclusive); [done | lia]].
  destruct HU as [(Hu & HU & _)|[(_ & HU & _)|(Hu & _)]]; [|apply (HP H_upgrade); [done | lia]|congruence].
  apply (HP H_shared); [done|]. unfold free, noset in Hf. rewrite Hx, Hu, bool_decide_true in Hf by done.
  rewrite !andb_true_r in Hf. apply Z.eqb_neq in Hf. lia.
Qed.

Lemma holder_not_free w t h : inv w -> threads w !! t = Some (Running h) -> h <> H_none -> free (m_state w) = false.
Proof.
  intros HI E Hh. pose proof (holder_state w t h HI E) as HS. unfold free.
  destruct h; [done|..]; destruct_and?.
  - by rewrite (proj2 (Z.eqb_neq _ 0)) by lia.
  - match goal with H : exclusive _ = true |- _ => rewrite H end. by rewrite andb_false_r.
  - by rewrite (proj2 (Z.eqb_neq _ 0)) by lia.
Qed.

Lemma blocked_not_free c s : c <> W_unlock_upgrade_and_lock -> shared_mutex.blocked c s = true -> free s = false.
Proof.
  unfold shared_mutex.blocked, can_lock_shared, can_lock_upgrade, has_more_shared, free. intros Hc Hb.
  destruct c; try done; destruct (exclusive s); rewrite ?andb_false_r; try done; cbn [negb orb] in *;
    rewrite ?negb_involutive, ?orb_false_r in Hb.
  - destruct (noset s); [done | by rewrite andb_false_r].
  - apply Z.ltb_lt in Hb. by rewrite (proj2 (Z.eqb_neq _ 0)) by lia.
  - apply Z.ltb_lt in Hb. by rewrite (proj2 (Z.eqb_neq _ 0)) by lia.
  - destruct (noset s); [done | by rewrite andb_false_r].
Qed.

(** After a notification of both conditions somebody is woken, if anybody slept. *)
Lemma notify_wakes t pick l : picks m_exclusive_cond l pick -> (exists h, l !! t = Some (Running h)) ->
  (forall i, l !! i <> Some (Asleep W_unlock_upgrade_and_lock)) ->
  let l' := shared_mutex._notify_waiters pick (<[t := Running H_none]> l) in some asleep l' -> some awake l'.
Proof.
  intros HP [h Ht] Hno l' (i & p & E & Hp). unfold l', shared_mutex._notify_waiters, notify_all, notify_one in *.
  rewrite list_lookup_fmap in E. destruct (alter _ pick _ !! i) as [q|] eqn:Eq; [|done]. injection E as <-.
  assert (HA : exists c, q = Asleep c /\ cond_of c <> m_shared_cond).
  { destruct q as [|c|]; [done| |done]. exists c. split; [done|]. intros Hc. simpl in Hp. by rewrite decide_True in Hp. }
  destruct HA as (c & -> & Hc).
  assert (El : l !! i = Some (Asleep c)).
  { assert (Ei : <[t := Running H_none]> l !! i = Some (Asleep c)).
    { destruct (decide (i = pick)) as [->|Hne]; [|by rewrite list_lookup_alter_ne in Eq].
      rewrite list_lookup_alter_eq in Eq. destruct (_ !! pick) as [q|]; [|done]. injection Eq as Eq. f_equal.
      destruct q as [|c'|]; simpl in Eq; try done. by case_decide. }
    apply list_lookup_insert_Some in Ei as [(_ & ? & _)|(_ & Ei)]; done. }
  assert (He : cond_of c = m_exclusive_cond).
  { destruct c; simpl in *; try done. by destruct (Hno i). }
  destruct HP as (p & Ep & Hs).
  { apply Exists_exists. exists (Asleep c). split; [by eapply list_elem_of_lookup_2|]. simpl. by rewrite bool_decide_true. }
  destruct p as [|c'|]; try discriminate Hs. simpl in Hs. apply bool_decide_eq_true in Hs.
  exists pick, (Woken c'). split; [|done]. rewrite list_lookup_fmap, list_lookup_alter_eq, list_lookup_insert_ne by congruence.
  rewrite Ep. simpl. rewrite decide_True by done. done.
Qed.

Lemma awake_if w : inv w -> upgrade (m_state w) <> S_UP_UPING ->
  (free (m_state w) = true -> some asleep (threads w) -> some awake (threads w)) -> live w.
Proof.
  intros HI Hup Hf. constructor; [done..|]. destruct (free (m_state w)) eqn:Ef; [by apply Hf|].
  intros _. destruct (holder_of w HI Hup Ef) as (t & h & E & Hh). exists t, (Running h). split; [done|].
  by destruct h.
Qed.

(** Nobody waits for its upgrade. *)
Lemma live_no_uping w i c : live w -> threads w !! i = Some c -> uping c = 0.
Proof.
  intros [HI Hup _] E. destruct (good_cases _ _ _ _ _ (inv_good w HI) (cnt_nonneg _ _ (holds_nonneg _))) as (_ & HU & _).
  pose proof (cnt_ge uping _ _ _ uping_nonneg E). pose proof (uping_nonneg c).
  destruct HU as [(_ & _ & ?)|[(_ & _ & ?)|(? & _)]]; [lia | lia | congruence].
Qed.

(** What a method that succeeds leaves for the others. *)
Definition leaves (o : op) (t pick : nat) (w w' : sys) : Prop :=
  w' = w \/ free (m_state w') = false \/ (exists h, threads w' !! t = Some (Running h) /\ h <> H_none)
  \/ (notified o w = m_exclusive_cond /\ (exists h, threads w !! t = Some (Running h))
      /\ threads w' = shared_mutex._notify_waiters pick (<[t := Running H_none]> (threads w))).

Lemma acquired_upgrade c s s' h : shared_mutex.acquired c s = Ok (s', h) -> upgrade s <> S_UP_UPING ->
  upgrade s' <> S_UP_UPING /\ h <> H_none.
Proof.
  intros E Hu. destruct c; unfold shared_mutex.acquired, shared_mutex.take_exclusive, lock_upgrade, lock_upgrade_up_done in E;
    res_inv; by simplify_eq.
Qed.

Lemma wait_loop_leaves c o t pick w0 w w' p : threads w !! t = Some p -> c <> W_unlock_upgrade_and_lock ->
  upgrade (m_state w) <> S_UP_UPING -> shared_mutex.wait_loop c t w = Ok w' ->
  upgrade (m_state w') <> S_UP_UPING /\ leaves o t pick w0 w'.
Proof.
  intros E Hc Hup Ew. unfold shared_mutex.wait_loop in Ew. destruct (shared_mutex.blocked c (m_state w)) eqn:Hb.
  - injection Ew as <-. split; [done|]. right; left. by eapply blocked_not_free.
  - destruct (shared_mutex.acquired c (m_state w)) as [[s h]|] eqn:Ea; [|done]. injection Ew as <-.
    destruct (acquired_upgrade _ _ _ _ Ea Hup) as [Hs Hh]. split; [done|]. right; right; left. exists h. split; [|done].
    apply list_lookup_insert_eq. by eapply lookup_lt_Some.
Qed.

#[local] Ltac done_note := right; right; right; split; [done | split; [by eexists | done]].
Lemma exec_leaves o t pick w w' p : live w -> threads w !! t = Some p -> may o p = true -> no_upgrade o = true ->
  exec o t pick w = Ok w' -> upgrade (m_state w') <> S_UP_UPING /\ leaves o t pick w w'.
Proof.
  intros HL E Hm Ho Ex. pose proof (live_up w HL) as Hup. destruct o, p as [[]|c|c]; try discriminate; cbn [exec] in Ex;
    try (eapply wait_loop_leaves; [exact E | | | exact Ex]; done).
  - unfold shared_mutex.unlock_shared in Ex. res_inv. unfold state_data.unlock_shared in *. res_inv. cbn in *. subst.
    split; [done|]. destruct (has_more_shared (mk _ _ _)) eqn:Hn; cbn [negb]; [right; left|].
    + unfold has_more_shared, free in *. cbn in *. apply Z.ltb_lt in Hn. by rewrite (proj2 (Z.eqb_neq _ 0)) by lia.
    + unfold is_upgrade_set at 1. cbn [upgrade]. destruct (bool_decide (upgrade (m_state w) = S_UP_SET)) eqn:Hu.
      * right; left. unfold free, noset. cbn. apply bool_decide_eq_true in Hu as ->. by rewrite andb_false_r.
      * right; right; right. unfold notified, is_upgrade_set. rewrite Hu. by split; [|split; [by eexists|]].
  - unfold shared_mutex.unlock_shared_and_lock in Ex. res_inv. unfold state_data.unlock_shared in *. res_inv. subst.
    match goal with H : shared_mutex.wait_loop _ _ _ = _ |- _ =>
      eapply (wait_loop_leaves _ O_unlock_shared_and_lock _ pick w _ _ (Running H_shared)) in H; done end.
  - unfold shared_mutex.unlock in Ex. res_inv. subst. split; [done|]. done_note.
  - unfold shared_mutex.unlock_and_lock_shared in Ex. res_inv. subst. split; [done|]. right; right; left. exists H_shared.
    split; [|done]. apply list_lookup_insert_eq. by eapply lookup_lt_Some.
  - unfold shared_mutex.try_lock in Ex. case_match; res_inv; [by split; [|left]|]. split; [done|]. right; right; left.
    exists H_exclusive. split; [|done]. apply list_lookup_insert_eq. by eapply lookup_lt_Some.
  - unfold shared_mutex.try_lock_shared in Ex. case_match; res_inv; [by split; [|left]|]. split; [done|]. right; right; left.
    exists H_shared. split; [|done]. apply list_lookup_insert_eq. by eapply lookup_lt_Some.
  - unfold shared_mutex.unlock_upgrade, unlock_upgrade in Ex. res_inv. subst. split; [done|]. cbn [m_state threads].
    destruct (has_more_shared (mk _ _ _)) eqn:Hn; [right; left|done_note].
    unfold has_more_shared, free in *. cbn in *. apply Z.ltb_lt in Hn. by rewrite (proj2 (Z.eqb_neq _ 0)) by lia.
  - rewrite E in Ex. eapply wait_loop_leaves; [exact E| |exact Hup|exact Ex]. intros ->.
    pose proof (live_no_uping w t _ HL E) as HU. done.
Qed.

Lemma step_live w w' : live w -> step_by no_upgrade w w' -> live w'.
Proof.
  intros HL HS. assert (HI := step_inv _ _ _ (live_inv w HL) HS). destruct HS as [o t pick p Ho E Hm HP Ex].
  destruct (exec_leaves _ _ _ _ _ _ HL E Hm Ho Ex) as [Hup HV].
  destruct HV as [->|[Hf|[(h & E' & Hh)|(Hk & Hh & Ht)]]]; [done|..]; apply awake_if; try done; intros Hf'; [congruence|..].
  - intros _. exists t, (Running h). split; [done|]. by destruct h.
  - rewrite Hk in HP. rewrite Ht. apply notify_wakes; [done..|]. intros i Ei. by pose proof (live_no_uping w i _ HL Ei).
Qed.

Lemma spurious_live w w' : live w -> spurious w w' -> live w'.
Proof.
  intros HL HS. assert (HI := spurious_inv _ _ (live_inv w HL) HS). destruct HS as [t c E ->].
  apply awake_if; [done | by apply HL|]. intros _ _. exists t, (Woken c). split; [|done]. cbn [threads].
  apply list_lookup_insert_eq. by eapply lookup_lt_Some.
Qed.

Lemma start_live n : Z.of_nat n < 4294967296 -> live (start n).
Proof.
  intros Hn. constructor; [by apply start_inv | done|]. intros (t & p & E & Hp).
  cbn [start threads] in E. apply lookup_replicate in E as [-> _]. done.
Qed.

Lemma reachable_live n w : Z.of_nat n < 4294967296 -> reachable_by no_upgrade n w -> live w.
Proof.
  intros Hn HR. unfold reachable_by in HR. remember (start n) as w0. assert (HL : live w0) by (subst; by apply start_live).
  clear Heqw0. induction HR as [|w0 w1 w2 [Hs|Hs] _ IH]; [done| |]; apply IH; [by eapply step_live | by eapply spurious_live].
Qed.

(** ** Everybody is served *)
Lemma picks_exists k l : exists pick, picks k l pick.
Proof.
  destruct (decide (Exists (fun p => sleeps_on k p = true) l)) as [HE|HE]; [|exists O; by intros ?].
  apply Exists_exists in HE as (p & Hin & Hp). destruct (list_elem_of_lookup_1 _ _ Hin) as [i Hi]. exists i.
  intros _. by exists p.
Qed.

Definition release (h : hold) : op :=
  match h with H_exclusive => O_unlock | H_upgrade => O_unlock_upgrade | _ => O_unlock_shared end.

Lemma busy_holds h : h <> H_none -> busy (Running h) = 1.
Proof. by destruct h. Qed.

Lemma release_busy t pick w w' h : h <> H_none -> threads w !! t = Some (Running h) -> exec (release h) t pick w = Ok w' ->
  cnt busy (threads w') = cnt busy (threads w) - 1.
Proof.
  intros Hh E Ex. assert (HB : forall l, (forall f, still f -> cnt f l = cnt f (<[t := Running H_none]> (threads w))) ->
    cnt busy l = cnt busy (threads w) - 1).
  { intros l Hl. rewrite (Hl busy busy_still), (cnt_insert busy _ t _ _ E), busy_holds by done. change (busy (Running H_none)) with 0. lia. }
  destruct h; [done|..]; cbn [release exec] in Ex; unfold shared_mutex.unlock_shared, shared_mutex.unlock, shared_mutex.unlock_upgrade in Ex;
    res_inv; subst; cbn [threads]; apply HB; intros f Hf; repeat case_match; unfold shared_mutex._notify_waiters;
    by rewrite ?cnt_notify_all, ?cnt_notify_one by done.
Qed.

Lemma release_step w t h : live w -> threads w !! t = Some (Running h) -> h <> H_none ->
  exists w', step_by gives w w' /\ live w' /\ cnt busy (threads w') = cnt busy (threads w) - 1.
Proof.
  intros HL E Hh. destruct (picks_exists (notified (release h) w) (threads w)) as [pick HP].
  assert (Hm : may (release h) (Running h) = true) by (by destruct h).
  pose proof (exec_inv (release h) t pick w _ (live_inv w HL) E Hm) as HE.
  destruct (exec (release h) t pick w) as [w'|f] eqn:Ex; [|destruct HE as [_ [Hr _]]; by destruct h].
  exists w'. split; [|split].
  - econstructor; [|done..]. by destruct h.
  - eapply step_live; [exact HL|]. econstructor; [|done..]. by destruct h.
  - by eapply release_busy.
Qed.

Lemma free_not_blocked c s : free s = true -> shared_mutex.blocked c s = false.
Proof.
  unfold free, shared_mutex.blocked, can_lock_shared, can_lock_upgrade, has_more_shared. intros Hf.
  apply andb_true_iff in Hf as [Hf ->]. apply andb_true_iff in Hf as [Hs Hx]. apply Z.eqb_eq in Hs.
  apply negb_true_iff in Hx. rewrite Hs, Hx. by destruct c.
Qed.

Lemma resume_step w t c : live w -> threads w !! t = Some (Woken c) -> free (m_state w) = true ->
  exists w' h, step_by gives w w' /\ live w' /\ threads w' !! t = Some (Running h) /\ h <> H_none
    /\ cnt busy (threads w') = cnt busy (threads w).
Proof.
  intros HL E Hf. pose proof (live_no_uping w t _ HL E) as HU.
  destruct (picks_exists (notified O_resume w) (threads w)) as [pick HP].
  pose proof (exec_inv O_resume t pick w _ (live_inv w HL) E eq_refl) as HE.
  destruct (exec O_resume t pick w) as [w'|f] eqn:Ex; [|by destruct HE as [_ [Hr _]]].
  assert (HS : forall a, a O_resume = true -> step_by a w w') by (intros a Ha; by econstructor).
  cbn [exec] in Ex. rewrite E in Ex. unfold shared_mutex.wait_loop in Ex. rewrite free_not_blocked in Ex by done.
  destruct (shared_mutex.acquired c (m_state w)) as [[s h]|] eqn:Ea; [|done].
  destruct (acquired_upgrade _ _ _ _ Ea (live_up w HL)) as [_ Hh].
  exists w', h. split; [by apply HS|]. split; [by eapply step_live; [exact HL|apply HS]|]. injection Ex as <-. cbn [threads].
  rewrite list_lookup_insert_eq by (by eapply lookup_lt_Some). rewrite (cnt_insert busy _ t _ _ E).
  split; [done|]. split; [done|]. rewrite busy_holds by done. change (busy (Woken c)) with 1. lia.
Qed.

Definition idle (p : pc) : Prop := p = Running H_none.
Lemma asleep_dec l : some asleep l \/ some awake l \/ Forall idle l.
Proof.
  induction l as [|p l IH]; [by right; right|].
  assert (HC : forall f, some f l -> some f (p :: l)) by (intros f (t & q & E & Hq); by exists (S t), q).
  destruct IH as [IH|[IH|IH]]; [left; by apply HC | right; left; by apply HC|].
  destruct p as [[]|c|c]; [right; right; by constructor | right; left; by eexists O, _ .. | left; by eexists O, _ | right; left; by eexists O, _].
Qed.

(** One thread less that waits or holds. *)
Lemma serve_one w : live w -> ~ Forall idle (threads w) ->
  exists w', rtc (step_by gives) w w' /\ live w' /\ cnt busy (threads w') = cnt busy (threads w) - 1.
Proof.
  intros HL HN. assert (HA : some awake (threads w)).
  { destruct (asleep_dec (threads w)) as [Hs|[Hs|Hs]]; [by apply (live_wake w HL) | done | done]. }
  destruct (free (m_state w)) eqn:Hf.
  - destruct HA as (t & p & E & Hp). destruct p as [h|c|c]; [|done|].
    + assert (h <> H_none) as Hh by (by destruct h). by rewrite (holder_not_free w t h (live_inv w HL) E Hh) in Hf.
    + destruct (resume_step w t c HL E Hf) as (w1 & h & HS & HL1 & E1 & Hh & Hb).
      destruct (release_step w1 t h HL1 E1 Hh) as (w2 & HS2 & HL2 & Hb2). exists w2.
      split; [by eapply rtc_l; [|apply rtc_once] | split; [done | lia]].
  - destruct (holder_of w (live_inv w HL) (live_up w HL) Hf) as (t & h & E & Hh).
    destruct (release_step w t h HL E Hh) as (w2 & HS2 & HL2 & Hb2). exists w2. split; [by apply rtc_once | done].
Qed.

(** C23: Provided nobody turns an upgrade into an exclusive lock, no wake-up is lost: from every
    state the threads can reach, however many of them sleep, the threads that hold the lock
    giving it back and the woken ones going on is enough for every thread to get what it waits
    for and give it back. *)
Theorem shared_mutex_served n w : Z.of_nat n < 4294967296 -> reachable_by no_upgrade n w ->
  exists w', rtc (step_by gives) w w' /\ Forall idle (threads w').
Proof.
  intros Hn HR. assert (HL := reachable_live n w Hn HR). clear HR Hn.
  pose proof (cnt_nonneg busy (threads w) busy_nonneg) as H0.
  remember (Z.to_nat (cnt busy (threads w))) as m eqn:Em. revert w HL H0 Em.
  induction m as [m IH] using lt_wf_ind. intros w HL H0 Em.
  destruct (decide (Forall idle (threads w))) as [HF|HF]; [by exists w|].
  destruct (serve_one w HL HF) as (w1 & HS & HL1 & Hb).
  pose proof (cnt_nonneg busy (threads w1) busy_nonneg) as H1.
  destruct (IH (Z.to_nat (cnt busy (threads w1)))) with (w := w1) as (w2 & HS2 & HF2); [lia | done | done | done|].
  exists w2. split; [by etrans | done].
Qed.

(** ** An upgrade that has to wait *)
Definition upgrader : pc := Asleep W_unlock_upgrade_and_lock.

Lemma upgrader_state w t : inv w -> threads w !! t = Some upgrader -> upgrade (m_state w) = S_UP_UPING.
Proof.
  intros HI E. destruct (good_cases _ _ _ _ _ (inv_good w HI) (cnt_nonneg _ _ (holds_nonneg _))) as (_ & HU & _).
  pose proof (cnt_ge uping _ _ _ uping_nonneg E) as HC. change (uping upgrader) with 1 in HC.
  destruct HU as [(_ & _ & ?)|[(_ & _ & ?)|(? & _)]]; lia || done.
Qed.

Lemma not_woken k i l t : k <> m_upgrade_cond -> l !! t = Some upgrader ->
  notify_one k i l !! t = Some upgrader /\ notify_all k l !! t = Some upgrader.
Proof.
  intros Hk E. unfold notify_one, notify_all. rewrite list_lookup_fmap, E. simpl. rewrite decide_False by done.
  split; [|done]. destruct (decide (i = t)) as [->|Hne]; [|by rewrite list_lookup_alter_ne].
  rewrite list_lookup_alter_eq, E. simpl. by rewrite decide_False.
Qed.
Lemma not_woken_waiters i l t : l !! t = Some upgrader -> shared_mutex._notify_waiters i l !! t = Some upgrader.
Proof. intros E. unfold shared_mutex._notify_waiters. apply (not_woken _ O), not_woken; done. Qed.

Lemma wait_loop_keeps c t t' w w' : t <> t' -> threads w !! t = Some upgrader -> shared_mutex.wait_loop c t' w = Ok w' ->
  threads w' !! t = Some upgrader.
Proof.
  intros Hne E Ew. unfold shared_mutex.wait_loop in Ew. destruct (shared_mutex.blocked c (m_state w)).
  - injection Ew as <-. cbn [threads]. by rewrite list_lookup_insert_ne.
  - res_inv. case_match. res_inv. cbn [threads]. by rewrite list_lookup_insert_ne.
Qed.

Lemma exec_keeps o t t' pick w w' : upgrade (m_state w) = S_UP_UPING -> t <> t' -> threads w !! t = Some upgrader ->
  exec o t' pick w = Ok w' -> threads w' !! t = Some upgrader.
Proof.
  intros Hu Hne E Ex.
  assert (EI : forall h, <[t' := Running h]> (threads w) !! t = Some upgrader) by (intros h; by rewrite list_lookup_insert_ne).
  destruct o; cbn [exec] in Ex; try (by eapply wait_loop_keeps).
  - unfold shared_mutex.unlock_shared in Ex. res_inv. unfold state_data.unlock_shared in *. res_inv. subst. cbn [threads].
    destruct (has_more_shared (mk _ _ _)); cbn [negb]; [done|]. unfold is_upgrade_set. cbn [upgrade].
    rewrite Hu, bool_decide_false by done. by apply not_woken_waiters.
  - unfold shared_mutex.unlock_shared_and_lock in Ex. res_inv.
    match goal with H : shared_mutex.wait_loop _ _ _ = _ |- _ => by eapply wait_loop_keeps in H end.
  - unfold shared_mutex.unlock in Ex. res_inv. subst. by apply not_woken_waiters.
  - unfold shared_mutex.unlock_and_lock_shared in Ex. res_inv. subst. apply EI.
  - unfold shared_mutex.try_lock in Ex. case_match; res_inv; subst; [done | apply EI].
  - unfold shared_mutex.try_lock_shared in Ex. case_match; res_inv; subst; [done | apply EI].
  - unfold shared_mutex.unlock_upgrade, unlock_upgrade in Ex. res_inv. unfold is_upgrade_set in *. by rewrite Hu in *.
  - unfold shared_mutex.unlock_upgrade_and_lock in Ex. res_inv.
    match goal with H : shared_mutex.wait_loop _ _ _ = _ |- _ => by eapply wait_loop_keeps in H end.
  - destruct (threads w !! t') as [[| |c]|]; try done. by eapply wait_loop_keeps.
Qed.

(** A thread that has to wait for its upgrade, because there are readers when it calls
    [unlock_upgrade_and_lock], is never notified, whatever the others do: [unlock_shared] looks
    for an upgrade that is set, and the one that waits is no longer.  Unless the system wakes it
    for no reason, it sleeps for ever, and no reader gets the lock again. *)
Theorem upgrade_sleeps_for_ever n w w' t : Z.of_nat n < 4294967296 -> reachable n w ->
  threads w !! t = Some upgrader -> rtc step w w' ->
  threads w' !! t = Some upgrader
  /\ can_lock_shared (m_state w') = false /\ can_lock_upgrade (m_state w') = false.
Proof.
  intros Hn HR E HS. pose proof (reachable_inv _ n w Hn HR) as HI. clear HR Hn.
  assert (HF : inv w' /\ threads w' !! t = Some upgrader).
  { induction HS as [|w0 w1 w2 HS _ IH]; [done|]. apply IH; [|by eapply step_inv].
    pose proof (upgrader_state w0 t HI E) as Hu. destruct HS as [o t' pick p _ E' Hm _ Ex].
    eapply exec_keeps; [exact Hu | | exact E | exact Ex]. intros <-. rewrite E in E'. injection E' as <-. by destruct o. }
  destruct HF as [HI' E']. pose proof (upgrader_state w' t HI' E') as Hu. split; [done|].
  unfold can_lock_shared, can_lock_upgrade, noset. rewrite Hu, orb_true_r. done.
Qed.

(** ** Concrete runs *)
Definition picksb (k : cond) (l : list pc) (pick : nat) : bool :=
  negb (existsb (sleeps_on k) l) || match l !! pick with Some p => sleeps_on k p | None => false end.
Lemma picksb_picks k l pick : picksb k l pick = true -> picks k l pick.
Proof.
  intros Hb HE. apply orb_true_iff in Hb as [Hb|Hb].
  - apply negb_true_iff in Hb. apply Exists_exists in HE as (p & Hin & Hp). apply list_elem_of_In in Hin.
    assert (existsb (sleeps_on k) l = true) by (apply existsb_exists; by exists p). congruence.
  - destruct (l !! pick) as [p|]; [by exists p | done].
Qed.

Fixpoint run (allowed : op -> bool) (l : list (op * nat * nat)) (w : sys) : option sys :=
  match l with
  | [] => Some w
  | (o, t, pick) :: l =>
      match threads w !! t with
      | Some p =>
          if allowed o && may o p && picksb (notified o w) (threads w) pick
          then match exec o t pick w with Ok w' => run allowed l w' | Fault _ => None end
          else None
      | None => None
      end
  end.
Lemma run_steps allowed l w w' : run allowed l w = Some w' -> rtc (step_by allowed) w w'.
Proof.
  revert w. induction l as [|[[o t] pick] l IH]; intros w E; simpl in E; [by injection E as ->|].
  destruct (threads w !! t) as [p|] eqn:Et; [|done]. destruct (_ && _) eqn:Hb; [|done].
  apply andb_true_iff in Hb as [Hb Hp]. apply andb_true_iff in Hb as [Ha Hm].
  destruct (exec o t pick w) as [w1|] eqn:Ex; [|done]. eapply rtc_l; [|by apply IH].
  econstructor; try done. by apply picksb_picks.
Qed.
Lemma run_reachable allowed l n w : run allowed l (start n) = Some w -> reachable_by allowed n w.
Proof. intros HR. unfold reachable_by. eapply rtc_subrel; [|by eapply run_steps]. intros ???. by left. Qed.

(** A writer, a reader that waits for it and a thread that waits for its upgrade behind both. *)
Definition three_of : sys :=
  mk_sys (mk 1 S_UP_UPING false) [Asleep W_lock; Running H_shared; upgrader].

Lemma shared_mutex_excludes_witness :
  (forall t t' h, t <> t' -> threads three_of !! t = Some (Running H_exclusive) ->
     threads three_of !! t' = Some (Running h) -> h = H_none)
  /\ (forall t t', threads three_of !! t = Some (Running H_upgrade) -> threads three_of !! t' = Some (Running H_upgrade) -> t = t')
  /\ (forall o t pick p, threads three_of !! t = Some p -> may o p = true ->
        (exists w', exec o t pick three_of = Ok w')
        \/ exec o t pick three_of = Fault AssertFailed /\ o = O_unlock_and_lock_shared
            /\ exists t' p', threads three_of !! t' = Some p' /\ uping p' = 1).
Proof.
  apply (shared_mutex_excludes 3); [lia|].
  apply (run_reachable _ [(O_lock_shared, 1, 0); (O_lock_upgrade, 2, 0); (O_lock, 0, 0); (O_unlock_upgrade_and_lock, 2, 0)]%nat).
  reflexivity.
Defined.

Lemma shared_mutex_served_witness : exists w', rtc (step_by gives)
    (mk_sys (mk 0 S_UP_NOSET true) [Running H_exclusive; Asleep W_lock; Asleep W_lock_shared; Asleep W_lock_upgrade]) w'
  /\ Forall idle (threads w').
Proof.
  apply (shared_mutex_served 4); [lia|].
  apply (run_reachable _ [(O_lock, 0, 0); (O_lock, 1, 0); (O_lock_shared, 2, 1); (O_lock_upgrade, 3, 1)]%nat).
  reflexivity.
Defined.

(** The reader leaves: the lock is free but for the upgrade that nobody wakes. *)
Lemma upgrade_sleeps_for_ever_witness :
  let w' := mk_sys (mk 0 S_UP_UPING true) [Running H_exclusive; Running H_none; upgrader] in
  threads w' !! 2%nat = Some upgrader /\ can_lock_shared (m_state w') = false /\ can_lock_upgrade (m_state w') = false.
Proof.
  apply (upgrade_sleeps_for_ever 3 three_of _ 2%nat); [lia| |reflexivity|].
  - apply (run_reachable _ [(O_lock_shared, 1, 0); (O_lock_upgrade, 2, 0); (O_lock, 0, 0); (O_unlock_upgrade_and_lock, 2, 0)]%nat).
    reflexivity.
  - apply (run_steps _ [(O_unlock_shared, 1, 0); (O_resume, 0, 0)]%nat). reflexivity.
Defined.
