(* ===== verification/MuxStream.v ===== *)
(** * MuxStream: a byte stream over a shared socket
    ([include/wawo/net/peer/message/mux_cargo.hpp], [src/net/peer/message/mux_cargo.cpp])

    A stream has a ring for the bytes that arrived ([rb]), a ring for the bytes to send ([wb])
    and a window ([wb_wnd]): what the peer still has room for.  The reader's credit ([rb_incre])
    goes back to the peer in [T_UWND] messages.

    - [peer_socket]: what a stream and a peer ask of the socket;
    - [stream] and its methods; those that send work on the stream and the socket;
    - [message]: the header that [encode] puts before the bytes.

    A method is one step: the spin mutexes of the stream keep the methods that touch one ring
    apart. *)

From S2P Require Import Prelude Effects Bytes Ring Packet SocketData.

(** ** What a stream asks of the socket *)
Class peer_socket (E : Type) := {
  so_send_packet : packet.t -> M E Z;
  so_get_buffer_cfg : E -> socket_buffer_cfg;
  so_is_connected : E -> bool;
  so_close : Z -> M E Z;
  so_begin_async_read : M E unit
}.

(** ** Constants *)
Definition E_MUX_STREAM_CARGO_STREAM_EXISTS : Z := -43001.
Definition E_MUX_STREAM_CARGO_STREAM_NOT_FOUND : Z := -43002.
Definition E_MUX_STREAM_CARGO_STREAM_READ_SHUTDOWNED_ALREADY : Z := -43003.
Definition E_MUX_STREAM_CARGO_STREAM_WRITE_SHUTDOWNED_ALREADY : Z := -43004.
Definition E_MUX_STREAM_CARGO_STREAM_CLOSED_ALREADY : Z := -43005.
Definition E_MUX_STREAM_WRITE_BLOCK : Z := -43006.

(** [stream_flag]. *)
Definition STREAM_READ_SHUTDOWN_CALLED : Z := 1.
Definition STREAM_READ_SHUTDOWN : Z := 2.
Definition STREAM_WRITE_SHUTDOWN_CALLED : Z := 4.
Definition STREAM_WRITE_SHUTDOWN : Z := 8.
Definition STREAM_PLAN_FIN : Z := 16.
Definition STREAM_PLAN_SYN : Z := 32.
Definition STREAM_BUFFER_DETERMINED : Z := 64.

Inductive stream_state : Type := SS_CLOSED | SS_ESTABLISHED | SS_RECYCLE.
#[export] Instance stream_state_eq_dec : EqDecision stream_state.
Proof. solve_decision. Defined.

(** [stream_write_flag]. *)
Definition STREAM_WRITE_BLOCKED : Z := 1.
Definition STREAM_WRITE_UNBLOCKED : Z := 2.

Definition MUX_STREAM_WND_SIZE : Z := 256 * 1024.

(** [mux_stream_message_type]. *)
Definition T_SYN : Z := 1.
Definition T_DATA : Z := 2.
Definition T_UWND : Z := 4.
Definition T_RST : Z := 8.
Definition T_FIN : Z := 16.
Definition T_ACCEPTED : Z := 32.
Definition T_CLOSED : Z := 64.
Definition T_WRITE_BLOCK : Z := 128.
Definition T_WRITE_UNBLOCK : Z := 256.
Definition T_MUX_STREAM_MESSAGE_TYPE_MAX : Z := 257.

(** ** The stream *)

(** What the constructor sets: nothing but [open] is called before [init]. *)
Record new_stream : Type := mk_new { n_ctx : option Z; n_state : stream_state; n_flag : Z; n_id : Z }.

Record stream : Type := mk_stream {
  ctx : option Z;
  state : stream_state;
  flag : Z;
  id : Z;
  rb : bytes_ringbuffer.t;
  rb_incre : Z;
  wb : bytes_ringbuffer.t;
  wb_wnd : Z;
  write_flag : Z
}.
Definition set_ctx v s := mk_stream v (state s) (flag s) (id s) (rb s) (rb_incre s) (wb s) (wb_wnd s) (write_flag s).
Definition set_state v s := mk_stream (ctx s) v (flag s) (id s) (rb s) (rb_incre s) (wb s) (wb_wnd s) (write_flag s).
Definition set_flag v s := mk_stream (ctx s) (state s) v (id s) (rb s) (rb_incre s) (wb s) (wb_wnd s) (write_flag s).
Definition set_rb v s := mk_stream (ctx s) (state s) (flag s) (id s) v (rb_incre s) (wb s) (wb_wnd s) (write_flag s).
Definition set_rb_incre v s := mk_stream (ctx s) (state s) (flag s) (id s) (rb s) v (wb s) (wb_wnd s) (write_flag s).
Definition set_wb v s := mk_stream (ctx s) (state s) (flag s) (id s) (rb s) (rb_incre s) v (wb_wnd s) (write_flag s).
Definition set_wb_wnd v s := mk_stream (ctx s) (state s) (flag s) (id s) (rb s) (rb_incre s) (wb s) v (write_flag s).
Definition set_write_flag v s := mk_stream (ctx s) (state s) (flag s) (id s) (rb s) (rb_incre s) (wb s) (wb_wnd s) v.

Definition add_flag (f : Z) (s : stream) : stream := set_flag (flag_set (flag s) f) s.
Definition sub_flag (f : Z) (s : stream) : stream := set_flag (flag_clear (flag s) f) s.
Definition has (f : Z) (s : stream) : bool := flag_on (flag s) f.

(** [mux_cargo::encode]: the stream's number, the type, and the bytes if there are any. *)
Definition encode `{memory} (sid type : Z) (data : option packet.t) : res packet.t :=
  _p ← match data with
       | Some d => Ok (packet.copy d)
       | None => packet.make_right packet.INIT_RIGHT_CAPACITY
       end;
  _p ← packet.write_left_T 2 _p (Z.land type 65535);
  packet.write_left_T 4 _p sid.

Module stream.
Section stream.
Context `{memory}.

Definition make : new_stream := mk_new None SS_CLOSED 0 0.

Definition init (n : new_stream) : res stream :=
  rb ← bytes_ringbuffer.make MUX_STREAM_WND_SIZE;
  wb ← bytes_ringbuffer.make MUX_STREAM_WND_SIZE;
  Ok (mk_stream (n_ctx n) (n_state n) (n_flag n) (n_id n) rb 0 wb MUX_STREAM_WND_SIZE 0).

Definition open (_id : Z) (_ctx : option Z) (n : new_stream) : res (new_stream * Z) :=
  wawo_assert (n_id n =? 0);;
  wawo_assert (bool_decide (n_state n = SS_CLOSED));;
  wawo_assert (negb (flag_on (n_flag n) STREAM_PLAN_SYN));;
  Ok (mk_new _ctx SS_ESTABLISHED (flag_set (n_flag n) STREAM_PLAN_SYN) _id, OK).

Definition _snd_fin (s : stream) : res stream :=
  wawo_assert (bool_decide (state s = SS_ESTABLISHED));;
  wawo_assert (negb (id s =? 0));;
  wawo_assert (negb (has STREAM_WRITE_SHUTDOWN_CALLED s));;
  wawo_assert (negb (has STREAM_PLAN_FIN s));;
  Ok (add_flag STREAM_PLAN_FIN s).

Definition _force_close (s : stream) : stream :=
  let s := add_flag (Z.lor STREAM_READ_SHUTDOWN_CALLED STREAM_READ_SHUTDOWN) s in
  let s := add_flag (Z.lor STREAM_WRITE_SHUTDOWN_CALLED STREAM_WRITE_SHUTDOWN) s in
  set_state SS_CLOSED s.

Definition write (opack : packet.t) (s : stream) : res (stream * Z) :=
  if has (Z.lor STREAM_WRITE_SHUTDOWN_CALLED STREAM_WRITE_SHUTDOWN) s
  then Ok (s, E_MUX_STREAM_CARGO_STREAM_WRITE_SHUTDOWNED_ALREADY)
  else
    len ← packet.len opack;
    if bytes_ringbuffer.left_capacity (wb s) <? len
    then Ok (set_write_flag (flag_set (write_flag s) STREAM_WRITE_BLOCKED) s, E_MUX_STREAM_WRITE_BLOCK)
    else
      '(wb, nwrites) ← bytes_ringbuffer.write (wb s) (packet.data opack) len;
      wawo_assert (nwrites =? len);;
      Ok (set_wb wb s, OK).

(** The packet for the caller and the number of its bytes. *)
Definition read (max : Z) (s : stream) : res (stream * option packet.t * Z) :=
  let count := bytes_ringbuffer.count (rb s) in
  if count =? 0 then Ok (s, None, 0)
  else
    let try_max := if negb (max =? 0) && (max <? count) then max else count in
    _pack ← packet.make_right try_max;
    '(rb, bytes, rcount) ← bytes_ringbuffer.read (rb s) try_max true;
    _pack ← packet.forward_write_index (packet.store_at_begin _pack bytes) rcount;
    Ok (set_rb_incre (rb_incre s +₃₂ rcount) (set_rb rb s), Some _pack, rcount).

(** The end of reading: what was not read goes back as credit. *)
Definition shut_read (s : stream) : stream :=
  let s := add_flag (Z.lor STREAM_READ_SHUTDOWN_CALLED STREAM_READ_SHUTDOWN) s in
  let n := bytes_ringbuffer.count (rb s) in
  if negb (n =? 0) then set_rb_incre (rb_incre s +₃₂ n) s else s.
Definition shut_write (s : stream) : res stream :=
  s ← _snd_fin s; Ok (add_flag STREAM_WRITE_SHUTDOWN_CALLED s).

Definition close_read (s : stream) : res (stream * Z) :=
  if has STREAM_READ_SHUTDOWN_CALLED s then Ok (s, E_MUX_STREAM_CARGO_STREAM_READ_SHUTDOWNED_ALREADY)
  else Ok (shut_read s, OK).

Definition close_write (s : stream) : res (stream * Z) :=
  if has STREAM_WRITE_SHUTDOWN_CALLED s then Ok (s, E_MUX_STREAM_CARGO_STREAM_WRITE_SHUTDOWNED_ALREADY)
  else s ← shut_write s; Ok (s, OK).

Definition is_read_write_closed (s : stream) : bool :=
  (has STREAM_READ_SHUTDOWN s && has STREAM_PLAN_FIN s)
  || (has STREAM_READ_SHUTDOWN s && has STREAM_WRITE_SHUTDOWN s).

Definition close (s : stream) : res (stream * Z) :=
  if has STREAM_READ_SHUTDOWN_CALLED s && has STREAM_WRITE_SHUTDOWN_CALLED s
  then Ok (s, E_MUX_STREAM_CARGO_STREAM_CLOSED_ALREADY)
  else
    let s := if has STREAM_READ_SHUTDOWN_CALLED s then s else shut_read s in
    s ← if has STREAM_WRITE_SHUTDOWN_CALLED s then Ok s else shut_write s;
    Ok (s, OK).
End stream.

(** *** Methods that send *)
Section flush.
Context `{memory} {E : Type} `{peer_socket E}.

Definition st_get {A} (f : stream -> A) : M (stream * E) A := gets (fun w => f w.1).
Definition st_upd (f : stream -> stream) : M (stream * E) unit := modify (fun w => (f w.1, w.2)).
Definition on_so {A} (m : M E A) : M (stream * E) A := zoom snd (fun e w => (w.1, e)) m.

Definition send (type : Z) (data : option packet.t) : M (stream * E) Z :=
  s ← st_get (fun s => s);
  mpack ← lift (encode (id s) type data);
  on_so (so_send_packet mpack).

(** The credit of the reader. *)
Definition flush_credit : M (stream * E) Z :=
  s ← st_get (fun s => s);
  if 0 <? rb_incre s then
    opack ← lift (packet.make_right packet.INIT_RIGHT_CAPACITY);
    opack ← lift (packet.write_T 4 opack (rb_incre s));
    ec_o ← send T_UWND (Some opack);
    when (ec_o =? OK) (st_upd (set_rb_incre 0));;
    mret ec_o
  else mret OK.

Definition flush_fin : M (stream * E) Z :=
  s ← st_get (fun s => s);
  if has STREAM_PLAN_FIN s then
    ec_o ← send T_FIN None;
    when (ec_o =? OK) (st_upd (fun s => add_flag STREAM_WRITE_SHUTDOWN (sub_flag STREAM_PLAN_FIN s)));;
    mret ec_o
  else mret OK.

(** The loop that copies one ring into another through a block of 8192 bytes. *)
Fixpoint move_loop (fuel : nat) (from to : bytes_ringbuffer.t)
    : res (bytes_ringbuffer.t * bytes_ringbuffer.t) :=
  match fuel with
  | O => Fault Diverged
  | S fuel' =>
      if bytes_ringbuffer.count from =? 0 then Ok (from, to)
      else
        '(from, tmp, nbytes) ← bytes_ringbuffer.read from 8192 true;
        '(to, _) ← bytes_ringbuffer.write to tmp nbytes;
        move_loop fuel' from to
  end.

(** The ring is cut to what the socket can take, once. *)
Definition determine_buffer (fuel : nat) : M (stream * E) unit :=
  s ← st_get (fun s => s);
  if has STREAM_BUFFER_DETERMINED s then mret tt
  else
    st_upd (add_flag STREAM_BUFFER_DETERMINED);;
    cfg ← gets (fun w => so_get_buffer_cfg w.2);
    let try_size := snd_size cfg -₃₂ 1024 in
    let size := Z.min try_size (bytes_ringbuffer.capacity (wb s)) in
    if negb (size =? bytes_ringbuffer.capacity (wb s)) then
      sb_new ← lift (bytes_ringbuffer.make size);
      '(old, sb_new) ← lift (move_loop fuel (wb s) sb_new);
      assertM (bytes_ringbuffer.count old =? 0);;
      st_upd (set_wb sb_new)
    else mret tt.

Definition flush_syn : M (stream * E) Z :=
  s ← st_get (fun s => s);
  if has STREAM_PLAN_SYN s then
    ec_o ← send T_SYN None;
    when (ec_o =? OK) (st_upd (sub_flag STREAM_PLAN_SYN));;
    mret ec_o
  else mret OK.

(** One T_DATA message. *)
Definition flush_data (flushed : Z) : M (stream * E) (Z * Z) :=
  s ← st_get (fun s => s);
  let can_send_max := Z.min (MUX_STREAM_WND_SIZE -₃₂ flushed) (wb_wnd s) in
  opack ← lift (packet.make_right can_send_max);
  '(_, bytes, nbytes) ← lift (bytes_ringbuffer.peek (wb s) can_send_max);
  assertM ((0 <? nbytes) && (nbytes <=? can_send_max));;
  opack ← lift (packet.forward_write_index (packet.store_at_begin opack bytes) nbytes);
  ec_o ← send T_DATA (Some opack);
  if negb (ec_o =? OK) then mret (flushed, ec_o)
  else
    wb ← lift (bytes_ringbuffer.skip (wb s) nbytes);
    assertM (nbytes <=? wb_wnd s);;
    st_upd (fun s => set_wb_wnd (wb_wnd s -₃₂ nbytes) (set_wb wb s));;
    mret (flushed +₃₂ nbytes, ec_o).

Fixpoint flush_loop (fuel : nat) (flushed ec_o : Z) : M (stream * E) (Z * Z) :=
  match fuel with
  | O => fail Diverged
  | S fuel' =>
      s ← st_get (fun s => s);
      if negb (bytes_ringbuffer.count (wb s) =? 0) && (flushed <? MUX_STREAM_WND_SIZE) && (0 <? wb_wnd s) then
        '(flushed, ec_o) ← flush_data flushed;
        if negb (ec_o =? OK) then mret (flushed, ec_o) else flush_loop fuel' flushed ec_o
      else mret (flushed, ec_o)
  end.

(** The bytes, after the announcement of the stream. *)
Definition flush_bytes (fuel : nat) : M (stream * E) (Z * Z) :=
  determine_buffer fuel;;
  ec_o ← flush_syn;
  if negb (ec_o =? OK) then mret (ec_o, 0)
  else
    '(flushed, ec_o) ← flush_loop fuel 0 ec_o;
    s ← st_get (fun s => s);
    if (0 <? flushed) && flag_on (write_flag s) STREAM_WRITE_BLOCKED then
      st_upd (fun s => set_write_flag (flag_clear (write_flag s) STREAM_WRITE_BLOCKED) s);;
      mret (ec_o, Z.lor STREAM_WRITE_UNBLOCKED STREAM_WRITE_BLOCKED)
    else mret (ec_o, 0).

(** The code and the flags for the caller. *)
Definition _flush (fuel : nat) : M (stream * E) (Z * Z) :=
  ec_o ← flush_credit;
  if negb (ec_o =? OK) then mret (ec_o, 0)
  else
    s ← st_get (fun s => s);
    if (rb_incre s =? 0) && (has STREAM_WRITE_SHUTDOWN s && has STREAM_READ_SHUTDOWN s)
    then st_upd (set_state SS_CLOSED);; mret (ec_o, 0)
    else if has STREAM_WRITE_SHUTDOWN s then mret (ec_o, 0)
    else if bytes_ringbuffer.count (wb s) =? 0 then ec_o ← flush_fin; mret (ec_o, 0)
    else flush_bytes fuel.

Definition update (fuel : nat) : M (stream * E) (stream_state * Z) :=
  s ← st_get (fun s => s);
  wflag ← match state s with
          | SS_ESTABLISHED =>
              '(ec_o, wflag) ← _flush fuel;
              if ec_o =? OK then mret wflag
              else if ec_o =? E_SOCKET_SEND_BLOCK then mret (Z.lor wflag STREAM_WRITE_BLOCKED)
              else on_so (so_close ec_o);; st_upd _force_close;; mret wflag
          | SS_CLOSED =>
              when (has STREAM_READ_SHUTDOWN s && has STREAM_WRITE_SHUTDOWN s) (st_upd (set_state SS_RECYCLE));;
              mret 0
          | SS_RECYCLE => mret 0
          end;
  s ← st_get (fun s => s);
  mret (state s, wflag).
End flush.
End stream.
