(* ===== verification/MuxStreamProofs.v ===== *)
(** * MuxStreamProofs: what one stream does to its socket

    - [msg]: the messages of the protocol and the bytes [encode] makes of them;
    - [peer_socket_laws]: a socket that takes a packet whole or refuses it for now;
    - [stream_ok]: the invariant of a stream, kept by the methods of the user;
    - [emits]: one call of [update] as a sequence of messages, each with what it changes
      ([update_emits]). *)

From S2P Require Import Prelude Effects Bytes Ring Packet Tlp SocketData MuxStream.
Import bytes_ringbuffer.

(** ** Messages *)
Record msg : Type := mk_msg { g_id : Z; g_type : Z; g_data : list Z }.
Definition msg_bytes (m : msg) : list Z :=
  bytes_helper.write_impl 4 (g_id m) ++ bytes_helper.write_impl 2 (g_type m) ++ g_data m.

Lemma zlen_msg_bytes m : zlen (msg_bytes m) = 6 + zlen (g_data m).
Proof. unfold msg_bytes. rewrite !zlen_app, !bytes_helper.zlen_write_impl. lia. Qed.

(** Reading a number that was written at the front. *)
Lemma read_T_head n v d p : packet.wf p -> packet.data p = bytes_helper.write_impl n v ++ d ->
  exists p', packet.read_T n p = Ok (p', v mod 256 ^ Z.of_nat n) /\ packet.wf p' /\ packet.data p' = d.
Proof.
  intros W D. assert (HL : zlen (packet.data p) = Z.of_nat n + zlen d).
  { rewrite D, zlen_app, bytes_helper.zlen_write_impl. done. }
  pose proof (zlen_nonneg d). unfold packet.read_T. rewrite packet.len_val by done. res_simpl.
  rewrite (proj2 (Z.leb_le _ _)) by lia. res_simpl.
  destruct (packet.drop_buffer_data p n W) as [rest ->]; [unfold zlen in *; lia|].
  assert (HT : take n (packet.data p) = bytes_helper.write_impl n v).
  { rewrite D. apply take_app_length'. by rewrite bytes_helper.write_impl_length. }
  rewrite HT, bytes_helper.read_write. eexists. split; [done|].
  destruct (packet.with_read_wf p (Z.of_nat n) W) as [W' D']; [lia|]. split; [done|].
  rewrite D', Nat2Z.id, D. apply drop_app_length'. by rewrite bytes_helper.write_impl_length.
Qed.

Section encode.
Context `{memory}.

Definition payload (data : option packet.t) : list Z := from_option packet.data [] data.

Lemma encode_spec sid type data :
  (forall d, data = Some d -> exists b, packet.holds d b packet.INIT_LEFT_CAPACITY) ->
  exists p, encode sid type data = Ok p /\ packet.wf p
    /\ packet.data p = msg_bytes (mk_msg sid (Z.land type 65535) (payload data)).
Proof.
  intros Hd. unfold encode, packet.INIT_LEFT_CAPACITY in *.
  assert (exists p, (match data with Some d => Ok (packet.copy d) | None => packet.make_right packet.INIT_RIGHT_CAPACITY end) = Ok p
    /\ packet.holds p (payload data) 128) as (p & -> & Hp).
  { destruct data as [d|].
    - destruct (Hd d eq_refl) as [b Hb]. eexists. split; [done|]. assert (payload (Some d) = b) as -> by apply Hb.
      by apply packet.copy_holds.
    - destruct (packet.make_holds packet.INIT_RIGHT_CAPACITY) as (p & E & Hp & _); [done|]. by exists p. }
  res_simpl. destruct (packet.write_left_T_holds 2 p (Z.land type 65535) _ 128 Hp) as (p1 & -> & Hp1);
    [lia | lia | done|]. res_simpl.
  destruct (packet.write_left_T_holds 4 p1 sid _ _ Hp1) as (p2 & -> & Hp2); [lia | lia | unfold packet.INIT_LEFT_CAPACITY; lia|].
  exists p2. split; [done|]. destruct Hp2 as (W & D & _). split; [done|]. rewrite D. done.
Qed.
End encode.

(** ** A socket that works

    It takes a packet that fits its buffer whole, or refuses it for now; [sent] is what it
    took. *)
Class peer_socket_laws (E : Type) `{peer_socket E} := {
  sent : E -> list (list Z);
  same_socket e e' : Prop := so_is_connected e' = so_is_connected e /\ so_get_buffer_cfg e' = so_get_buffer_cfg e;
  send_law p e : packet.wf p -> zlen (packet.data p) + 4 <= snd_size (so_get_buffer_cfg e) ->
    exists e' rc, so_send_packet p e = Ok (e', rc) /\ (rc = OK \/ rc = E_SOCKET_SEND_BLOCK)
      /\ sent e' = (if rc =? OK then sent e ++ [packet.data p] else sent e) /\ same_socket e e';
  begin_read_law e : exists e', so_begin_async_read e = Ok (e', tt) /\ sent e' = sent e /\ same_socket e e'
}.

#[export] Instance same_socket_equiv E `{peer_socket_laws E} : Equivalence same_socket.
Proof.
  split; unfold same_socket; [done | by intros x y [-> ->] | by intros x y z [-> ->] [-> ->]].
Qed.

(** ** The invariant of a stream *)
Definition big : Z := 262144.

Lemma zlen_pos {A} (l : list A) : l <> [] -> 0 < zlen l.
Proof. destruct l; [done | unfold zlen; simpl; lia]. Qed.

(** A ring of the size of the window. *)
Definition ring_ok (r : bytes_ringbuffer.t) : Prop := wf r /\ m_capacity r = big + 1.

Lemma ring_ok_len r : ring_ok r -> zlen (contents r) = count r /\ 0 <= count r <= big
  /\ left_capacity r = big - zlen (contents r) /\ capacity r = big.
Proof.
  intros [W C]. pose proof (zlen_contents r W). pose proof (count_range r W).
  rewrite left_capacity_val, capacity_val by done. repeat split; lia.
Qed.
Lemma count_zero r : ring_ok r -> (count r =? 0) = bool_decide (contents r = []).
Proof.
  intros HR. destruct (ring_ok_len r HR) as (HL & _). rewrite <- HL. unfold zlen.
  by destruct (contents r).
Qed.

Lemma ring_read r n mv : ring_ok r -> is_u32 n -> exists r', bytes_ringbuffer.read r n mv
    = Ok (r', take (Z.to_nat n) (contents r), Z.min n (zlen (contents r)))
  /\ ring_ok r' /\ contents r' = if mv then drop (Z.to_nat n) (contents r) else contents r.
Proof.
  intros [W C] Hn. destruct (read_spec r n mv W Hn) as (r' & E & W' & C' & D'). exists r'.
  split; [done|]. split; [split; [done | congruence] | done].
Qed.
Lemma ring_write r bs : ring_ok r -> 0 < zlen bs -> zlen bs <= left_capacity r ->
  exists r', bytes_ringbuffer.write r bs (zlen bs) = Ok (r', zlen bs) /\ ring_ok r' /\ contents r' = contents r ++ bs.
Proof.
  intros HR Hp Hl. destruct (ring_ok_len r HR) as (HL & HB & HC & _). pose proof (zlen_nonneg (contents r)). destruct HR as [W C].
  assert (Hu : is_u32 (zlen bs)) by (unfold big in *; range_lia).
  destruct (write_spec r bs (zlen bs) W Hp Hu (Z.le_refl _)) as (r' & E & W' & C' & D').
  rewrite C in E, D'. rewrite Z.min_l in E, D' by lia. exists r'.
  split; [done|]. split; [split; [done | congruence]|]. rewrite D'. by rewrite take_ge by (unfold zlen; lia).
Qed.
Lemma ring_skip r n : ring_ok r -> 0 <= n <= zlen (contents r) ->
  exists r', bytes_ringbuffer.skip r n = Ok r' /\ ring_ok r' /\ contents r' = drop (Z.to_nat n) (contents r).
Proof.
  intros HR Hn. destruct (ring_ok_len r HR) as (HL & _). destruct HR as [W C].
  destruct (skip_spec r n W) as (r' & E & W' & C' & D'); [lia|]. exists r'. split; [done|]. split; [split; [done | congruence] | done].
Qed.
Lemma ring_make `{memory} : exists r, bytes_ringbuffer.make MUX_STREAM_WND_SIZE = Ok r /\ ring_ok r /\ contents r = [].
Proof.
  destruct (bytes_ringbuffer.make MUX_STREAM_WND_SIZE) as [r|] eqn:E; [|by vm_compute in E].
  destruct (make_wf MUX_STREAM_WND_SIZE r ltac:(done) E) as (W & D & C). by exists r.
Qed.

Record stream_ok (s : stream) : Prop := {
  ok_rb : ring_ok (rb s);
  ok_wb : ring_ok (wb s);
  ok_wnd : 0 <= wb_wnd s <= big;
  ok_incre : is_u32 (rb_incre s);
  ok_id : is_u32 (id s) /\ id s <> 0;
  ok_read : has STREAM_READ_SHUTDOWN_CALLED s = has STREAM_READ_SHUTDOWN s;
  ok_write : has STREAM_WRITE_SHUTDOWN_CALLED s = false ->
    state s = SS_ESTABLISHED /\ has STREAM_PLAN_FIN s = false /\ has STREAM_WRITE_SHUTDOWN s = false;
  ok_closed : state s <> SS_ESTABLISHED -> has STREAM_READ_SHUTDOWN s = true;
  ok_recycle : state s = SS_RECYCLE -> has STREAM_WRITE_SHUTDOWN s = true
}.

(** The flags, one at a time. *)
Lemma has_add f g s : has f (add_flag g s) = has f s || flag_on g f.
Proof. apply flag_on_set. Qed.
Lemma has_sub f g s : has f (sub_flag g s) = flag_on (flag s) (Z.ldiff f g).
Proof. apply flag_on_clear. Qed.
(** Compute a test of two concrete flags. *)
Ltac flag_eval := repeat match goal with
  | |- context [flag_on ?a ?b] => is_ground a; is_ground b; let v := eval vm_compute in (flag_on a b) in change (flag_on a b) with v
  | |- context [Z.ldiff ?a ?b] => is_ground a; is_ground b; let v := eval vm_compute in (Z.ldiff a b) in change (Z.ldiff a b) with v
  end.

Lemma has_state f v s : has f (set_state v s) = has f s.
Proof. done. Qed.

(** ** What a method changes

    [quiet]: nothing the peer could notice; the end of reading gives back credit for what was
    not read. *)
Record quiet (s s' : stream) : Prop := {
  q_id : id s' = id s;
  q_ctx : ctx s' = ctx s;
  q_wb : contents (wb s') = contents (wb s);
  q_wnd : wb_wnd s' = wb_wnd s;
  q_syn : has STREAM_PLAN_SYN s' = has STREAM_PLAN_SYN s;
  q_read : has STREAM_READ_SHUTDOWN s = true -> has STREAM_READ_SHUTDOWN s' = true;
  q_write : has STREAM_WRITE_SHUTDOWN s = true -> has STREAM_WRITE_SHUTDOWN s' = true;
  q_rb : contents (rb s') = contents (rb s);
  q_incre : has STREAM_READ_SHUTDOWN s' = false \/ contents (rb s) = [] -> rb_incre s' = rb_incre s
}.
Lemma stream_quiet_refl s : quiet s s.
Proof. by constructor. Qed.

(** One message and what sending it changes. *)
Inductive emit (s : stream) : msg -> stream -> Prop :=
| emit_uwnd : 0 < rb_incre s -> is_u32 (rb_incre s) ->
    emit s (mk_msg (id s) T_UWND (bytes_helper.write_impl 4 (rb_incre s))) (set_rb_incre 0 s)
| emit_fin s' : quiet s s' -> emit s (mk_msg (id s) T_FIN []) s'
| emit_syn : has STREAM_PLAN_SYN s = true -> emit s (mk_msg (id s) T_SYN []) (sub_flag STREAM_PLAN_SYN s)
| emit_data d w : has STREAM_PLAN_SYN s = false -> d <> [] -> zlen d <= wb_wnd s ->
    contents (wb s) = d ++ contents w ->
    emit s (mk_msg (id s) T_DATA d) (set_wb_wnd (wb_wnd s - zlen d) (set_wb w s)).

Inductive emits : stream -> list msg -> stream -> Prop :=
| emits_nil s : emits s [] s
| emits_quiet s s1 ms s2 : quiet s s1 -> emits s1 ms s2 -> emits s ms s2
| emits_cons s m s1 ms s2 : emit s m s1 -> emits s1 ms s2 -> emits s (m :: ms) s2.

Lemma emits_app s ms s1 ms' s2 : emits s ms s1 -> emits s1 ms' s2 -> emits s (ms ++ ms') s2.
Proof. induction 1; intros HE; simpl; [done | | ]; [by eapply emits_quiet; [|auto] | by eapply emits_cons; [|auto]]. Qed.

(** ** One flush *)
Section flush.
Context `{memory} {E : Type} `{peer_socket_laws E}.
Import stream.

Definition flushed (w w' : stream * E) : Prop :=
  stream_ok w'.1 /\ same_socket w.2 w'.2 /\ has STREAM_WRITE_SHUTDOWN_CALLED w'.1 = has STREAM_WRITE_SHUTDOWN_CALLED w.1
  /\ exists ms, emits w.1 ms w'.1 /\ sent w'.2 = sent w.2 ++ map msg_bytes ms.

Lemma flushed_refl w : stream_ok w.1 -> flushed w w.
Proof. intros HS. split; [done|]. split; [done|]. split; [done|]. exists []. split; [constructor | by rewrite app_nil_r]. Qed.
Lemma stream_flushed_trans w1 w2 w3 : flushed w1 w2 -> flushed w2 w3 -> flushed w1 w3.
Proof.
  intros (_ & S1 & C1 & ms & E1 & T1) (O2 & S2 & C2 & ms' & E2 & T2). split; [done|]. split; [by etrans|]. split; [congruence|].
  exists (ms ++ ms'). split; [by eapply emits_app|]. by rewrite T2, T1, map_app, app_assoc.
Qed.
Lemma flushed_quiet s s' e : stream_ok s' -> quiet s s' ->
  has STREAM_WRITE_SHUTDOWN_CALLED s' = has STREAM_WRITE_SHUTDOWN_CALLED s -> flushed (s, e) (s', e).
Proof.
  intros HO HQ HC. split; [done|]. split; [done|]. split; [done|]. exists []. split; [|by rewrite app_nil_r].
  eapply emits_quiet; [done | constructor].
Qed.

Lemma wp_st_get {A} (f : stream -> A) (w : stream * E) Q : wp (st_get f) w Q <-> Q w (f w.1).
Proof. done. Qed.
Lemma wp_st_upd f (w : stream * E) Q : wp (st_upd f) w Q <-> Q (f w.1, w.2) tt.
Proof. done. Qed.

Definition room (e : E) : Prop := big + 1024 <= snd_size (so_get_buffer_cfg e) <= SOCK_SND_MAX_SIZE.

Lemma room_same e e' : same_socket e e' -> room e -> room e'.
Proof. unfold room. by intros [_ ->]. Qed.

(** Sending a message of the stream. *)
Lemma stream_send_spec type data s e : room e -> 0 <= type < 65536 ->
  (forall d, data = Some d -> exists b, packet.holds d b packet.INIT_LEFT_CAPACITY /\ zlen b <= big) ->
  wp (send type data) (s, e) (fun w' rc => w'.1 = s /\ same_socket e w'.2
    /\ (rc = OK /\ sent w'.2 = sent e ++ [msg_bytes (mk_msg (id s) type (payload data))]
        \/ rc = E_SOCKET_SEND_BLOCK /\ sent w'.2 = sent e)).
Proof.
  intros Hr Ht Hd. unfold send. rewrite wp_bind, wp_st_get, wp_bind. cbn [fst].
  destruct (encode_spec (id s) type data) as (p & -> & W & D).
  { intros d Ed. destruct (Hd d Ed) as (b & Hb & _). by exists b. }
  assert (Z.land type 65535 = type) as HT by (change 65535 with (Z.ones 16); rewrite Z.land_ones by lia; apply Z.mod_small; lia).
  rewrite HT in D. rewrite wp_lift. cbn beta. unfold on_so. rewrite wp_zoom. cbn [snd].
  assert (HL : zlen (payload data) <= big).
  { destruct data as [d|]; [|done]. destruct (Hd d eq_refl) as (b & (_ & Db & _) & Hb). cbn. by rewrite Db. }
  destruct (send_law p e W) as (e' & rc & Es & Hrc & Hs & HS).
  { rewrite D, zlen_msg_bytes. cbn [g_data]. unfold room, big in *. lia. }
  unfold wp. rewrite Es. cbn [fst snd]. split; [done|]. split; [done|]. rewrite Hs, D.
  destruct Hrc as [->| ->]; [by left | by right].
Qed.

Lemma send_none type s e : room e -> 0 <= type < 65536 ->
  wp (send type None) (s, e) (fun w' rc => w'.1 = s /\ same_socket e w'.2
    /\ (rc = OK /\ sent w'.2 = sent e ++ [msg_bytes (mk_msg (id s) type [])]
        \/ rc = E_SOCKET_SEND_BLOCK /\ sent w'.2 = sent e)).
Proof. intros Hr Ht. by apply (stream_send_spec type None). Qed.

(** After a message of the stream was sent. *)
Lemma flushed_emit s e (w' : stream * E) m s' : stream_ok s' -> same_socket e w'.2 -> emit s m s' ->
  sent w'.2 = sent e ++ [msg_bytes m] -> has STREAM_WRITE_SHUTDOWN_CALLED s' = has STREAM_WRITE_SHUTDOWN_CALLED s ->
  flushed (s, e) (s', w'.2).
Proof.
  intros HO HS HE HT HC. split; [done|]. split; [done|]. split; [done|]. exists [m]. split; [|done]. eapply emits_cons; [done | constructor].
Qed.
Lemma flushed_refused s e (w' : stream * E) : stream_ok s -> w'.1 = s -> same_socket e w'.2 -> sent w'.2 = sent e -> flushed (s, e) w'.
Proof.
  intros HO Es HS HT. destruct w' as [s' e']. cbn in *. subst s'. split; [done|]. split; [done|]. split; [done|].
  exists []. cbn. split; [constructor | by rewrite HT, app_nil_r].
Qed.

Lemma set_rb_incre_ok n s : stream_ok s -> is_u32 n -> stream_ok (set_rb_incre n s).
Proof. intros [] Hn. by constructor. Qed.

Definition sends (s : stream) (e : E) (w' : stream * E) (rc : Z) : Prop :=
  flushed (s, e) w' /\ (rc = OK \/ rc = E_SOCKET_SEND_BLOCK).

Lemma flush_credit_spec s e : stream_ok s -> room e ->
  wp flush_credit (s, e) (fun w' rc => sends s e w' rc /\ (rc = OK -> w'.1 = set_rb_incre 0 s \/ rb_incre s = 0 /\ w'.1 = s)).
Proof.
  intros HO Hr. unfold flush_credit. rewrite wp_bind, wp_st_get. cbn [fst].
  destruct (Z.ltb_spec 0 (rb_incre s)) as [Hi|Hi].
  2: { rewrite wp_ret. split; [split; [by apply flushed_refl | by left]|]. intros _. right. split; [|done].
       pose proof (ok_incre s HO). range_lia. }
  destruct (packet.make_holds packet.INIT_RIGHT_CAPACITY) as (p & -> & Hp & Hroom); [done|].
  rewrite wp_bind, wp_lift, wp_bind.
  destruct (packet.write_T_holds 4 p (rb_incre s) [] _ Hp) as (q & -> & Hq); [done | lia | done|]. rewrite wp_lift, wp_bind.
  eapply wp_mono; [apply (stream_send_spec T_UWND (Some q) s e Hr); [done|]|].
  { intros d [= <-]. exists (bytes_helper.write_impl 4 (rb_incre s)). split; [done|]. by rewrite bytes_helper.zlen_write_impl. }
  intros w' rc (E1 & HS & [[-> HT]|[-> HT]]).
  - change (OK =? OK) with true. rewrite wp_bind. cbn [when]. rewrite wp_st_upd, wp_ret.
    split; [|intros _; left; cbn; by rewrite E1]. split; [|by left]. rewrite E1.
    eapply flushed_emit; [by apply set_rb_incre_ok | done | by apply emit_uwnd; [|apply ok_incre] | | done].
    rewrite HT. do 4 f_equal. cbn. by apply Hq.
  - change (E_SOCKET_SEND_BLOCK =? OK) with false. cbn [when]. rewrite wp_bind, wp_ret, wp_ret.
    split; [split; [by apply flushed_refused | by right] | discriminate].
Qed.

Lemma has_sub_other f g s : Z.ldiff f g = f -> has f (sub_flag g s) = has f s.
Proof. intros E1. by rewrite has_sub, E1. Qed.

(** A flag that says nothing about reading and writing. *)
Lemma flags_ok s s' : stream_ok s -> rb s' = rb s -> wb s' = wb s -> wb_wnd s' = wb_wnd s -> rb_incre s' = rb_incre s ->
  id s' = id s -> state s' = state s ->
  (forall f, f = STREAM_READ_SHUTDOWN \/ f = STREAM_READ_SHUTDOWN_CALLED \/ f = STREAM_WRITE_SHUTDOWN
     \/ f = STREAM_WRITE_SHUTDOWN_CALLED \/ f = STREAM_PLAN_FIN -> has f s' = has f s) -> stream_ok s'.
Proof.
  intros [] E1 E2 E3 E4 E5 E6 Hf. constructor; rewrite ?E1, ?E2, ?E3, ?E4, ?E5, ?E6, ?Hf by tauto; done.
Qed.

Lemma flush_fin_spec s e : stream_ok s -> room e -> contents (wb s) = [] ->
  wp flush_fin (s, e) (fun w' rc => sends s e w' rc).
Proof.
  intros HO Hr Hw. unfold flush_fin. rewrite wp_bind, wp_st_get. cbn [fst].
  destruct (has STREAM_PLAN_FIN s) eqn:Hf; [|rewrite wp_ret; split; [by apply flushed_refl | by left]].
  assert (HC : has STREAM_WRITE_SHUTDOWN_CALLED s = true).
  { destruct (has STREAM_WRITE_SHUTDOWN_CALLED s) eqn:HC; [done|]. apply ok_write in HC as (_ & ? & _); [congruence | done]. }
  rewrite wp_bind. eapply wp_mono; [by apply send_none|]. intros w' rc (E1 & HS & [[-> HT]|[-> HT]]).
  - change (OK =? OK) with true. cbn [when]. rewrite wp_bind, wp_st_upd, wp_ret, E1.
    set (s' := add_flag _ _). split; [|by left].
    assert (HC' : has STREAM_WRITE_SHUTDOWN_CALLED s' = true).
    { unfold s'. rewrite has_add, has_sub_other by done. by rewrite HC. }
    eapply flushed_emit; [ | exact HS | | exact HT | congruence].
    + destruct HO. constructor; try done; unfold s'; rewrite ?has_add, ?has_sub_other by done; flag_eval; rewrite ?orb_false_r; try done.
      * by rewrite HC.
      * intros _. apply orb_true_r.
    + apply emit_fin. constructor; try done; unfold s'; rewrite ?has_add, ?has_sub_other by done; flag_eval; by rewrite ?orb_false_r, ?orb_true_r.
  - change (E_SOCKET_SEND_BLOCK =? OK) with false. cbn [when]. rewrite wp_bind, wp_ret, wp_ret.
    split; [by apply flushed_refused | by right].
Qed.

Lemma flush_syn_spec s e : stream_ok s -> room e ->
  wp flush_syn (s, e) (fun w' rc => sends s e w' rc
    /\ (rc = OK -> has STREAM_PLAN_SYN w'.1 = false) /\ wb w'.1 = wb s /\ wb_wnd w'.1 = wb_wnd s).
Proof.
  intros HO Hr. unfold flush_syn. rewrite wp_bind, wp_st_get. cbn [fst].
  destruct (has STREAM_PLAN_SYN s) eqn:Hf; [|rewrite wp_ret; split; [split; [by apply flushed_refl | by left] | done]].
  rewrite wp_bind. eapply wp_mono; [by apply send_none|]. intros w' rc (E1 & HS & [[-> HT]|[-> HT]]).
  - change (OK =? OK) with true. cbn [when]. rewrite wp_bind, wp_st_upd, wp_ret, E1. cbn [fst].
    assert (HF : forall f, Z.ldiff f STREAM_PLAN_SYN = f -> has f (sub_flag STREAM_PLAN_SYN s) = has f s) by (intros f; apply has_sub_other).
    split; [split; [|by left]|].
    + eapply flushed_emit; [ | exact HS | by apply emit_syn | exact HT | by rewrite HF].
      apply (flags_ok s); try done. intros f Hff. apply HF. by destruct Hff as [->|[->|[->|[->| ->]]]].
    + split; [|done]. intros _. rewrite has_sub. apply flag_on_none.
  - change (E_SOCKET_SEND_BLOCK =? OK) with false. cbn [when]. rewrite wp_bind, wp_ret, wp_ret.
    split; [split; [by apply flushed_refused | by right]|]. rewrite E1. done.
Qed.

(** The socket takes whole windows: the ring stays as it is. *)
Lemma determine_buffer_spec fuel s e : stream_ok s -> room e ->
  wp (determine_buffer fuel) (s, e) (fun w' _ => flushed (s, e) w' /\ w'.2 = e /\ wb w'.1 = wb s /\ wb_wnd w'.1 = wb_wnd s).
Proof.
  intros HO Hr. unfold determine_buffer. rewrite wp_bind, wp_st_get. cbn [fst].
  destruct (has STREAM_BUFFER_DETERMINED s) eqn:Hd; [rewrite wp_ret; split; [by apply flushed_refl | done]|].
  rewrite wp_bind, wp_st_upd, wp_bind, wp_gets. cbn [fst snd]. destruct (ring_ok_len _ (ok_wb s HO)) as (_ & _ & _ & ->).
  destruct Hr as [Hr1 Hr2]. unfold SOCK_SND_MAX_SIZE in Hr2.
  rewrite u32_small by (unfold big in *; range_lia). rewrite Z.min_r by (unfold big in *; lia).
  rewrite Z.eqb_refl. cbn [negb]. rewrite wp_ret. split; [|done].
  assert (HF : forall f, flag_on STREAM_BUFFER_DETERMINED f = false -> has f (add_flag STREAM_BUFFER_DETERMINED s) = has f s).
  { intros f Ef. by rewrite has_add, Ef, orb_false_r. }
  apply flushed_quiet.
  - apply (flags_ok s); try done. intros f Hff. apply HF. by destruct Hff as [->|[->|[->|[->| ->]]]].
  - constructor; try done; by rewrite ?HF.
  - by rewrite HF.
Qed.

Lemma flush_data_spec s e : stream_ok s -> room e -> has STREAM_PLAN_SYN s = false ->
  contents (wb s) <> [] -> 0 < wb_wnd s ->
  wp (flush_data 0) (s, e) (fun w' r => sends s e w' r.2
    /\ (r.2 = OK -> contents (wb w'.1) = [] \/ wb_wnd w'.1 = 0 \/ r.1 = MUX_STREAM_WND_SIZE) /\ 0 <= r.1).
Proof.
  intros HO Hr Hn Hw Hwnd. unfold flush_data. rewrite wp_bind, wp_st_get. cbn [fst].
  change (MUX_STREAM_WND_SIZE -₃₂ 0) with big. destruct (ok_wnd s HO) as [Hw0 Hw1].
  rewrite Z.min_r by lia. assert (HP : 0 < zlen (contents (wb s))) by (by apply zlen_pos).
  assert (HU : is_u32 (wb_wnd s)) by (unfold big in *; range_lia).
  destruct (ring_read (wb s) (wb_wnd s) false (ok_wb s HO) HU) as (r' & Ep & _ & _). unfold peek. rewrite Ep.
  set (n := Z.min (wb_wnd s) (zlen (contents (wb s)))). set (bytes := take (Z.to_nat (wb_wnd s)) (contents (wb s))).
  assert (Hz : zlen bytes = n) by (unfold bytes, n; rewrite zlen_take by lia; done).
  assert (Hn' : 0 < n <= wb_wnd s /\ n <= zlen (contents (wb s))) by lia.
  destruct (fill_packet (wb_wnd s) bytes) as (p0 & p & -> & Ef & Hp); [unfold big, packet.MAX_RIGHT_CAPACITY in *; lia | lia|].
  rewrite wp_bind, wp_lift, wp_bind, wp_lift, wp_bind, wp_assert.
  split; [apply andb_true_iff; split; [apply Z.ltb_lt | apply Z.leb_le]; lia|].
  rewrite <- Hz, Ef, wp_bind, wp_lift, wp_bind.
  eapply wp_mono; [apply (stream_send_spec T_DATA (Some p) s e Hr); [done|]|].
  { intros d [= <-]. exists bytes. split; [done | lia]. }
  intros w' rc (E1 & HS & [[-> HT]|[-> HT]]).
  2: { change (E_SOCKET_SEND_BLOCK =? OK) with false. cbn [negb]. rewrite wp_ret. cbn [fst snd].
       split; [split; [by apply flushed_refused | by right] | done]. }
  change (OK =? OK) with true. cbn [negb]. destruct (ring_skip (wb s) (zlen bytes) (ok_wb s HO)) as (wb' & Es & Ow & Dw); [lia|].
  rewrite Es, wp_bind, wp_lift, wp_bind, wp_assert. split; [apply Z.leb_le; lia|].
  rewrite wp_bind, wp_st_upd, wp_ret, E1. cbn [fst snd]. rewrite (u32_small (wb_wnd s - zlen bytes)) by (unfold big in *; range_lia).
  assert (HD : contents (wb s) = bytes ++ contents wb').
  { rewrite Dw. unfold bytes at 1. rewrite <- (take_drop (Z.to_nat (wb_wnd s)) (contents (wb s))) at 1. f_equal.
    rewrite Hz. unfold n. destruct (Z.le_ge_cases (wb_wnd s) (zlen (contents (wb s)))).
    - by rewrite Z.min_l by lia.
    - rewrite Z.min_r by lia. rewrite !drop_ge by (unfold zlen in *; lia). done. }
  split; [split; [|by left]|].
  - assert (Hd : payload (Some p) = bytes) by apply Hp. rewrite Hd in HT.
    eapply (flushed_emit s e w' (mk_msg (id s) T_DATA bytes)); [| exact HS | | exact HT | done].
    + destruct HO. constructor; cbn; try done. lia.
    + apply emit_data; [done | | lia | done]. intros ->. unfold zlen in Hz. simpl in Hz. lia.
  - split; [intros _ | rewrite Z.add_0_l, u32_small by (unfold big in *; range_lia); lia]. rewrite Z.add_0_l, u32_small by (unfold big in *; range_lia).
    destruct (Z.le_ge_cases (wb_wnd s) (zlen (contents (wb s)))); [right; left; cbn; lia | left].
    cbn. rewrite Dw. apply drop_ge. unfold zlen in *. lia.
Qed.

(** One message empties the ring or the window. *)
Lemma stream_flush_loop_spec fuel s e : (2 <= fuel)%nat -> stream_ok s -> room e -> has STREAM_PLAN_SYN s = false ->
  wp (flush_loop fuel 0 OK) (s, e) (fun w' r => sends s e w' r.2 /\ 0 <= r.1).
Proof.
  intros Hfu HO Hr Hn. destruct fuel as [|[|fuel]]; [lia | lia|]. cbn [flush_loop]. rewrite wp_bind, wp_st_get. cbn [fst].
  rewrite count_zero by apply HO. destruct (bool_decide (contents (wb s) = [])) eqn:Hw; cbn [negb andb].
  { rewrite wp_ret. split; [split; [by apply flushed_refl | by left] | done]. }
  apply bool_decide_eq_false in Hw. change (0 <? MUX_STREAM_WND_SIZE) with true. cbn [andb].
  destruct (Z.ltb_spec 0 (wb_wnd s)) as [Hwnd|]; [|rewrite wp_ret; split; [split; [by apply flushed_refl | by left] | done]].
  rewrite wp_bind. eapply wp_mono; [by apply flush_data_spec|]. intros [s' e'] [fl rc] ([HF Hrc] & Hend & Hfl). cbn [fst snd] in *.
  destruct Hrc as [->| ->].
  2: { change (E_SOCKET_SEND_BLOCK =? OK) with false. cbn [negb]. rewrite wp_ret. split; [split; [done | by right] | done]. }
  change (OK =? OK) with true. cbn [negb flush_loop]. rewrite wp_bind, wp_st_get. cbn [fst].
  assert (HO' : stream_ok s') by apply HF.
  assert (negb (count (wb s') =? 0) && (fl <? MUX_STREAM_WND_SIZE) && (0 <? wb_wnd s') = false) as ->.
  { rewrite count_zero by apply HO'. destruct (Hend eq_refl) as [-> | [-> | ->]]; [done | by rewrite andb_false_r | by rewrite andb_false_r]. }
  rewrite wp_ret. split; [split; [done | by left] | done].
Qed.
Lemma set_state_quiet v s : quiet s (set_state v s).
Proof. by constructor. Qed.

Lemma flush_bytes_spec fuel s e : (2 <= fuel)%nat -> stream_ok s -> room e ->
  wp (flush_bytes fuel) (s, e) (fun w' r => sends s e w' r.1).
Proof.
  intros Hfu HO Hr. unfold flush_bytes. rewrite wp_bind. eapply wp_mono; [by apply determine_buffer_spec|].
  intros [s1 e1] [] (HF1 & He1 & _). cbn [fst snd] in *. subst e1. assert (HO1 : stream_ok s1) by apply HF1.
  rewrite wp_bind. eapply wp_mono; [by apply flush_syn_spec|]. intros [s2 e2] rc ([HF2 Hrc] & Hsyn & _). cbn [fst snd] in *.
  assert (HF : flushed (s, e) (s2, e2)) by (by eapply stream_flushed_trans).
  assert (HO2 : stream_ok s2) by apply HF2. assert (Hr2 : room e2) by (eapply room_same; [apply HF2 | done]).
  destruct Hrc as [->| ->].
  2: { change (E_SOCKET_SEND_BLOCK =? OK) with false. cbn [negb]. rewrite wp_ret. split; [done | by right]. }
  change (OK =? OK) with true. cbn [negb]. rewrite wp_bind. eapply wp_mono; [apply stream_flush_loop_spec; [done..|by apply Hsyn]|].
  intros [s3 e3] [fl rc] ([HF3 Hrc] & Hfl). cbn [fst snd] in *. rewrite wp_bind, wp_st_get. cbn [fst].
  assert (HFF : flushed (s, e) (s3, e3)) by (by eapply stream_flushed_trans).
  destruct (_ && _); [|by rewrite wp_ret]. rewrite wp_bind, wp_st_upd, wp_ret. split; [|done].
  eapply stream_flushed_trans; [exact HFF|]. apply flushed_quiet; [|by constructor | done].
  assert (HO3 : stream_ok s3) by apply HF3. apply (flags_ok s3); done.
Qed.

Lemma stream_flush_spec fuel s e : (2 <= fuel)%nat -> stream_ok s -> room e ->
  wp (_flush fuel) (s, e) (fun w' r => sends s e w' r.1).
Proof.
  intros Hfu HO Hr. unfold _flush. rewrite wp_bind. eapply wp_mono; [by apply flush_credit_spec|].
  intros [s1 e1] rc ([HF1 Hrc] & Hinc). cbn [fst snd] in *. assert (HO1 : stream_ok s1) by apply HF1.
  assert (Hr1 : room e1) by (eapply room_same; [apply HF1 | done]).
  destruct Hrc as [->| ->].
  2: { change (E_SOCKET_SEND_BLOCK =? OK) with false. cbn [negb]. rewrite wp_ret. split; [done | by right]. }
  change (OK =? OK) with true. cbn [negb]. rewrite wp_bind, wp_st_get. cbn [fst].
  destruct ((rb_incre s1 =? 0) && _) eqn:Hboth.
  { rewrite wp_bind, wp_st_upd, wp_ret. split; [|by left]. eapply stream_flushed_trans; [exact HF1|]. cbn [fst snd].
    apply andb_true_iff in Hboth as [_ Hboth]. apply andb_true_iff in Hboth as [HWS HRS].
    apply flushed_quiet; [|apply set_state_quiet | done]. destruct HO1. constructor; try done.
    intros HC. destruct (ok_write0 HC) as (_ & _ & Hx). rewrite Hx in HWS. discriminate HWS. }
  destruct (has STREAM_WRITE_SHUTDOWN s1); [rewrite wp_ret; split; [done | by left]|].
  rewrite count_zero by apply HO1. destruct (bool_decide_reflect (contents (wb s1) = [])) as [Hw|Hw].
  - rewrite wp_bind. eapply wp_mono; [by apply flush_fin_spec|]. intros w' rc [HF2 Hrc]. rewrite wp_ret.
    split; [by eapply stream_flushed_trans | done].
  - eapply wp_mono; [by apply flush_bytes_spec|]. intros w' r [HF2 Hrc]. split; [by eapply stream_flushed_trans | done].
Qed.

(** One call of [update]. *)
Lemma update_emits fuel s e : (2 <= fuel)%nat -> stream_ok s -> room e ->
  wp (update fuel) (s, e) (fun w' r => flushed (s, e) w' /\ r.1 = state w'.1).
Proof.
  intros Hfu HO Hr. unfold update. rewrite wp_bind, wp_st_get, wp_bind. cbn [fst].
  assert (HE : forall w' wflag, flushed (s, e) w' ->
    wp (s ← st_get (fun s => s); mret (state s, wflag)) w' (fun w' (r : stream_state * Z) => flushed (s, e) w' /\ r.1 = state w'.1)).
  { intros w' wflag HF. by rewrite wp_bind, wp_st_get, wp_ret. }
  destruct (state s) eqn:Es.
  - destruct (_ && _) eqn:Hb; cbn [when]; rewrite wp_bind; [rewrite wp_st_upd|]; rewrite wp_ret; apply HE; [|by apply flushed_refl].
    apply andb_true_iff in Hb as [HRS HWS]. apply flushed_quiet; [|apply set_state_quiet | done]. destruct HO. constructor; try done.
    intros HC. destruct (ok_write0 HC) as (_ & _ & Hx). rewrite Hx in HWS. discriminate HWS.
  - rewrite wp_bind. eapply wp_mono; [by apply stream_flush_spec|]. intros w' [rc wflag] [HF Hrc]. cbn [fst] in Hrc.
    destruct Hrc as [->| ->].
    + change (OK =? OK) with true. rewrite wp_ret. by apply HE.
    + change (E_SOCKET_SEND_BLOCK =? OK) with false. change (E_SOCKET_SEND_BLOCK =? E_SOCKET_SEND_BLOCK) with true.
      rewrite wp_ret. by apply HE.
  - rewrite wp_ret. apply HE. by apply flushed_refl.
Qed.
End flush.

(** ** The methods of the user

    [w] is what the user wrote, [r] what the user read. *)
Record user_step (s s' : stream) (w r : list Z) : Prop := {
  u_id : id s' = id s;
  u_ctx : ctx s' = ctx s;
  u_wb : contents (wb s') = contents (wb s) ++ w;
  u_wnd : wb_wnd s' = wb_wnd s;
  u_syn : has STREAM_PLAN_SYN s' = has STREAM_PLAN_SYN s;
  u_read : has STREAM_READ_SHUTDOWN s = true -> has STREAM_READ_SHUTDOWN s' = true;
  u_write : has STREAM_WRITE_SHUTDOWN s = true -> has STREAM_WRITE_SHUTDOWN s' = true;
  u_rb : contents (rb s) = r ++ contents (rb s');
  u_incre : has STREAM_READ_SHUTDOWN s' = false \/ contents (rb s) = [] -> rb_incre s' = rb_incre s +₃₂ zlen r
}.

Lemma quiet_user s s' : stream_ok s -> quiet s s' -> user_step s s' [] [].
Proof.
  intros HO []. constructor; rewrite ?app_nil_r; try done. intros Hd. change (zlen []) with 0.
  rewrite Z.add_0_r, u32_small by apply HO. auto.
Qed.

Section user.
Context `{memory}.
Import stream.

Lemma write_user opack s : stream_ok s -> packet.wf opack -> 0 < zlen (packet.data opack) ->
  exists s' rc, write opack s = Ok (s', rc) /\ stream_ok s'
    /\ user_step s s' (if rc =? OK then packet.data opack else []) [].
Proof.
  intros HO W Hp. unfold write. set (lock := has _ s). destruct lock.
  { exists s, E_MUX_STREAM_CARGO_STREAM_WRITE_SHUTDOWNED_ALREADY. split; [done|]. split; [done|].
    by apply quiet_user, stream_quiet_refl. }
  rewrite packet.len_val by done. res_simpl. destruct (Z.ltb_spec (left_capacity (wb s)) (zlen (packet.data opack))).
  - eexists _, _. split; [done|]. split; [by apply (flags_ok s)|]. apply quiet_user; [done | by constructor].
  - destruct (ring_write (wb s) (packet.data opack) (ok_wb s HO)) as (wb' & -> & Ow & Dw); [done | done|]. res_simpl.
    rewrite Z.eqb_refl. res_simpl. eexists _, _. split; [done|]. change (OK =? OK) with true. cbn iota.
    split; [destruct HO; by constructor|]. constructor; try done. intros _. change (zlen []) with 0.
    rewrite Z.add_0_r, u32_small by apply HO. done.
Qed.

(** What was read: nothing, or a packet. *)
Lemma read_user max s : stream_ok s -> is_u32 max ->
  exists s' o n, read max s = Ok (s', o, n) /\ stream_ok s' /\ user_step s s' [] (payload o) /\ n = zlen (payload o)
    /\ (o = None <-> contents (rb s) = []).
Proof.
  intros HO Hm. unfold read. rewrite count_zero by apply HO.
  destruct (bool_decide_reflect (contents (rb s) = [])) as [He|He].
  { exists s, None, 0. split; [done|]. split; [done|]. split; [by apply quiet_user, stream_quiet_refl | done]. }
  destruct (ring_ok_len _ (ok_rb s HO)) as (HL & HB & _).
  set (t := if negb (max =? 0) && (max <? count (rb s)) then max else count (rb s)). assert (Ht : 0 <= t <= count (rb s)).
  { unfold t. destruct (negb _ && _) eqn:Hb; [|lia]. apply andb_true_iff in Hb as [_ Hb]. apply Z.ltb_lt in Hb. range_lia. }
  destruct (ring_read (rb s) t true (ok_rb s HO)) as (rb' & Er & Or & Dr); [unfold big in *; range_lia|].
  set (bytes := take (Z.to_nat t) (contents (rb s))) in *.
  assert (Hz : zlen bytes = t) by (unfold bytes; rewrite zlen_take; lia).
  destruct (fill_packet t bytes) as (p0 & p & -> & Ef & (Wp & Dp & _)); [unfold big, packet.MAX_RIGHT_CAPACITY in *; lia | lia|].
  res_simpl. rewrite Er. res_simpl. assert (Z.min t (zlen (contents (rb s))) = zlen bytes) as -> by lia. rewrite Ef. res_simpl.
  eexists _, (Some p), _. split; [done|]. cbn [payload from_option]. rewrite Dp.
  split; [destruct HO; constructor; cbn; try done; apply u32_range|].
  split; [|done]. constructor; try done; cbn; [by rewrite app_nil_r|]. rewrite Dr. unfold bytes. by rewrite take_drop.
Qed.

Lemma shut_read_ok s : stream_ok s -> stream_ok (shut_read s) /\ quiet s (shut_read s)
  /\ has STREAM_WRITE_SHUTDOWN_CALLED (shut_read s) = has STREAM_WRITE_SHUTDOWN_CALLED s
  /\ (forall f, f = STREAM_PLAN_FIN \/ f = STREAM_WRITE_SHUTDOWN -> has f (shut_read s) = has f s) /\ state (shut_read s) = state s.
Proof.
  intros HO. unfold shut_read. rewrite count_zero by apply HO. set (s1 := add_flag _ s).
  assert (HF : forall f, flag_on (Z.lor STREAM_READ_SHUTDOWN_CALLED STREAM_READ_SHUTDOWN) f = false -> has f s1 = has f s).
  { intros f Ef. unfold s1. by rewrite has_add, Ef, orb_false_r. }
  assert (HR1 : has STREAM_READ_SHUTDOWN s1 = true) by (unfold s1; rewrite has_add; flag_eval; apply orb_true_r).
  assert (HR2 : has STREAM_READ_SHUTDOWN_CALLED s1 = true) by (unfold s1; rewrite has_add; flag_eval; apply orb_true_r).
  assert (O1 : stream_ok s1). { destruct HO. constructor; rewrite ?HR1, ?HR2, ?HF by done; done. }
  assert (Q1 : quiet s s1) by (constructor; rewrite ?HF, ?HR1 by done; done).
  assert (HFs : forall f, f = STREAM_PLAN_FIN \/ f = STREAM_WRITE_SHUTDOWN -> has f s1 = has f s) by (intros f [->| ->]; by apply HF).
  destruct (bool_decide_reflect (contents (rb s) = [])) as [He|He].
  - rewrite bool_decide_true by done. cbn [negb]. split; [done|]. split; [done|]. split; [by apply HF | done].
  - rewrite bool_decide_false by done. cbn [negb].
    split; [apply set_rb_incre_ok; [done | apply u32_range]|]. split; [|split; [by apply HF | done]].
    destruct Q1. constructor; try done. intros [Hx|Hx]; [|done]. change (has STREAM_READ_SHUTDOWN s1 = false) in Hx. congruence.
Qed.

Lemma shut_write_ok s : stream_ok s -> has STREAM_WRITE_SHUTDOWN_CALLED s = false ->
  exists s', shut_write s = Ok s' /\ stream_ok s' /\ quiet s s'.
Proof.
  intros HO HC. destruct (ok_write s HO HC) as (Es & HF & HW). unfold shut_write, _snd_fin.
  rewrite (bool_decide_true (state s = _)), HC, HF by done. rewrite (proj2 (Z.eqb_neq _ _)) by apply (ok_id s HO). res_simpl.
  eexists. split; [done|]. set (s' := add_flag _ _).
  assert (HFl : forall f, flag_on STREAM_PLAN_FIN f = false -> flag_on STREAM_WRITE_SHUTDOWN_CALLED f = false -> has f s' = has f s).
  { intros f E1 E2. unfold s'. by rewrite !has_add, E1, E2, !orb_false_r. }
  assert (HC' : has STREAM_WRITE_SHUTDOWN_CALLED s' = true) by (unfold s'; rewrite has_add; flag_eval; apply orb_true_r).
  split; [|by constructor; rewrite ?HFl by done].
  destruct HO. constructor; rewrite ?HC', ?HFl by done; done.
Qed.

Lemma close_read_user s : stream_ok s ->
  exists s' rc, close_read s = Ok (s', rc) /\ stream_ok s' /\ user_step s s' [] [].
Proof.
  intros HO. unfold close_read. destruct (has STREAM_READ_SHUTDOWN_CALLED s).
  - eexists _, _. split; [done|]. split; [done | by apply quiet_user, stream_quiet_refl].
  - destruct (shut_read_ok s HO) as (O1 & Q1 & _). eexists _, _. split; [done|]. split; [done | by apply quiet_user].
Qed.

Lemma close_write_user s : stream_ok s ->
  exists s' rc, close_write s = Ok (s', rc) /\ stream_ok s' /\ user_step s s' [] [].
Proof.
  intros HO. unfold close_write. destruct (has STREAM_WRITE_SHUTDOWN_CALLED s) eqn:HC.
  - eexists _, _. split; [done|]. split; [done | by apply quiet_user, stream_quiet_refl].
  - destruct (shut_write_ok s HO HC) as (s' & -> & O1 & Q1). res_simpl. eexists _, _. split; [done|]. split; [done | by apply quiet_user].
Qed.

Lemma quiet_trans s1 s2 s3 : quiet s1 s2 -> quiet s2 s3 -> quiet s1 s3.
Proof.
  intros [] []. constructor; try congruence; [auto..|]. intros [Hd|Hd].
  - rewrite q_incre1 by auto. apply q_incre0. left. destruct (has STREAM_READ_SHUTDOWN s2) eqn:Hr; [|done]. by rewrite q_read1 in Hd.
  - rewrite q_incre1 by (right; congruence). auto.
Qed.

Lemma close_user s : stream_ok s ->
  exists s' rc, close s = Ok (s', rc) /\ stream_ok s' /\ user_step s s' [] [].
Proof.
  intros HO. unfold close. destruct (_ && _); [eexists _, _; split; [done|]; split; [done | by apply quiet_user, stream_quiet_refl]|].
  set (s1 := if has STREAM_READ_SHUTDOWN_CALLED s then s else shut_read s).
  assert (H1 : stream_ok s1 /\ quiet s s1).
  { unfold s1. destruct (has STREAM_READ_SHUTDOWN_CALLED s); [split; [done | apply stream_quiet_refl]|].
    by destruct (shut_read_ok s HO) as (O1 & Q1 & _). }
  destruct H1 as [O1 Q1]. destruct (has STREAM_WRITE_SHUTDOWN_CALLED s1) eqn:HC; res_simpl.
  - eexists _, _. split; [done|]. split; [done | by apply quiet_user].
  - destruct (shut_write_ok s1 O1 HC) as (s' & -> & O2 & Q2). res_simpl. eexists _, _. split; [done|]. split; [done|].
    apply quiet_user; [done | by eapply quiet_trans].
Qed.

Lemma force_close_ok s : stream_ok s -> stream_ok (_force_close s) /\ quiet s (_force_close s).
Proof.
  intros HO. unfold _force_close. set (g1 := Z.lor _ _). set (g2 := Z.lor _ _). set (s' := set_state _ _).
  assert (HF : forall f, flag_on g1 f = false -> flag_on g2 f = false -> has f s' = has f s).
  { intros f E1 E2. unfold s'. by rewrite has_state, !has_add, E1, E2, !orb_false_r. }
  assert (HT : forall f, flag_on g1 f = true \/ flag_on g2 f = true -> has f s' = true).
  { intros f Ef. unfold s'. rewrite has_state, !has_add. destruct Ef as [->| ->]; by rewrite ?orb_true_r. }
  assert (T1 : has STREAM_READ_SHUTDOWN s' = true) by (apply HT; right; reflexivity).
  assert (T2 : has STREAM_READ_SHUTDOWN_CALLED s' = true) by (apply HT; right; reflexivity).
  assert (T3 : has STREAM_WRITE_SHUTDOWN_CALLED s' = true) by (apply HT; left; reflexivity).
  assert (T4 : has STREAM_WRITE_SHUTDOWN s' = true) by (apply HT; left; reflexivity).
  split; [|by constructor; rewrite ?HF, ?T1, ?T4 by reflexivity]. destruct HO. constructor; rewrite ?T1, ?T2, ?T3, ?T4; done.
Qed.

(** A new stream: nothing in its rings, the whole window. *)
Record fresh (s : stream) : Prop := {
  f_rb : contents (rb s) = [];
  f_wb : contents (wb s) = [];
  f_incre : rb_incre s = 0;
  f_wnd : wb_wnd s = big;
  f_open : has STREAM_READ_SHUTDOWN s = false
}.

Lemma init_fresh sctx sid f : is_u32 sid -> sid <> 0 -> f = 0 \/ f = STREAM_PLAN_SYN ->
  exists s, init (mk_new sctx SS_ESTABLISHED f sid) = Ok s /\ stream_ok s /\ fresh s /\ id s = sid /\ ctx s = sctx
    /\ has STREAM_PLAN_SYN s = bool_decide (f = STREAM_PLAN_SYN).
Proof.
  intros Hu Hn Hf. unfold init. destruct ring_make as (r & -> & Or & Dr). res_simpl. eexists. split; [done|].
  assert (HF : forall g, g = STREAM_READ_SHUTDOWN \/ g = STREAM_READ_SHUTDOWN_CALLED \/ g = STREAM_WRITE_SHUTDOWN
     \/ g = STREAM_WRITE_SHUTDOWN_CALLED \/ g = STREAM_PLAN_FIN -> flag_on f g = false).
  { intros g Hg. destruct Hf as [->| ->]; by destruct Hg as [->|[->|[->|[->| ->]]]]. }
  split; [|split; [constructor; try done; unfold has; cbn; by rewrite HF by tauto|]].
  - constructor; try done; unfold has; cbn; by rewrite ?HF by tauto.
  - split; [done|]. split; [done|]. unfold has. cbn. by destruct Hf as [->| ->].
Qed.
End user.
