(* ===== verification/MuxCargo.v ===== *)
(** * MuxCargo: many streams over one socket ([include/wawo/net/peer/mux_cargo.hpp])

    [class mux_cargo] keeps the streams of a connection in a map from their numbers, sends what
    they have to send at each tick and gives what arrives to the stream it is for.  The streams
    are objects the user holds too: the map holds references into a [heap].

    - [mux]: the state of a peer, with the socket below it and the events above it;
    - [mux_cargo]: its methods. *)

From S2P Require Import Prelude Effects Bytes Ring Packet SocketData MuxStream.

Inductive _mux_state : Type := SOCKET_ATTACHED | SOCKET_DEATTACHED | SOCKET_CLOSED.
#[export] Instance _mux_state_eq_dec : EqDecision _mux_state.
Proof. solve_decision. Defined.

(** A [peer_event]: a message about a stream, or an event of the socket passed on. *)
Inductive peer_event : Type :=
| PE_message (s : nat) (type : Z) (mctx : option Z)
| PE_info (eid : event_id) (info : Z).

(** [std::map<stream_id_t, WWRP<stream>>]: sorted by the number. *)
Module stream_map.
Definition t : Type := list (Z * nat).
Fixpoint find (k : Z) (m : t) : option nat :=
  match m with
  | [] => None
  | (k', r) :: m' => if k =? k' then Some r else find k m'
  end.
(** [insert] leaves an entry that is there alone. *)
Fixpoint insert (k : Z) (r : nat) (m : t) : t :=
  match m with
  | [] => [(k, r)]
  | (k', r') :: m' => if k =? k' then m else if k <? k' then (k, r) :: m else (k', r') :: insert k r m'
  end.
Fixpoint erase (k : Z) (m : t) : t :=
  match m with
  | [] => []
  | (k', r') :: m' => if k =? k' then m' else (k', r') :: erase k m'
  end.
End stream_map.

Section mux.
Context {E : Type}.

Record mux : Type := mk_mux {
  m_stream_map : stream_map.t;
  m_mux_state : _mux_state;
  m_outps : list packet.t;
  m_so : bool;                  (* a socket is attached *)
  heap : list stream;
  sock : E;                     (* that socket *)
  events : list peer_event;     (* triggered, in order *)
  scheduled : list peer_event   (* given to the scheduler *)
}.
Definition set_m_stream_map v w := mk_mux v (m_mux_state w) (m_outps w) (m_so w) (heap w) (sock w) (events w) (scheduled w).
Definition set_m_mux_state v w := mk_mux (m_stream_map w) v (m_outps w) (m_so w) (heap w) (sock w) (events w) (scheduled w).
Definition set_m_outps v w := mk_mux (m_stream_map w) (m_mux_state w) v (m_so w) (heap w) (sock w) (events w) (scheduled w).
Definition set_m_so v w := mk_mux (m_stream_map w) (m_mux_state w) (m_outps w) v (heap w) (sock w) (events w) (scheduled w).
Definition set_heap v w := mk_mux (m_stream_map w) (m_mux_state w) (m_outps w) (m_so w) v (sock w) (events w) (scheduled w).
Definition set_sock v w := mk_mux (m_stream_map w) (m_mux_state w) (m_outps w) (m_so w) (heap w) v (events w) (scheduled w).
Definition set_events v w := mk_mux (m_stream_map w) (m_mux_state w) (m_outps w) (m_so w) (heap w) (sock w) v (scheduled w).
Definition set_scheduled v w := mk_mux (m_stream_map w) (m_mux_state w) (m_outps w) (m_so w) (heap w) (sock w) (events w) v.

Definition new_mux (e : E) : mux := mk_mux [] SOCKET_DEATTACHED [] false [] e [] [].
End mux.
Arguments mux : clear implicits.

Module mux_cargo.
Section mux_cargo.
Context `{memory} {E : Type} `{peer_socket E}.
Local Abbreviation MM := (M (mux E)).

(** What the user's listener of [T_ACCEPTED] stores in the context of the stream, by the
    stream's number. *)
Context (accept_ctx : Z -> option Z).

Definition get : MM (mux E) := gets (fun w => w).

(** A method of a stream, and one that uses the socket. *)
Definition on_stream {A} (r : nat) (f : stream -> res (stream * A)) : MM A :=
  fun w => match heap w !! r with
           | None => Fault Undefined
           | Some s => '(s, a) ← f s; Ok (set_heap (<[r := s]> (heap w)) w, a)
           end.
Definition on_stream_so {A} (r : nat) (m : M (stream * E) A) : MM A :=
  fun w => match heap w !! r with
           | None => Fault Undefined
           | Some s => '((s, e), a) ← m (s, sock w); Ok (set_sock e (set_heap (<[r := s]> (heap w)) w), a)
           end.
Definition stream_of (r : nat) : MM stream := on_stream r (fun s => Ok (s, s)).

(** A call through [m_so]. *)
Definition on_m_so {A} (m : M E A) : MM A :=
  w ← get; if m_so w then zoom sock set_sock m else fail Undefined.

Definition trigger (e : peer_event) : MM unit := modify (fun w => set_events (events w ++ [e]) w).
Definition oschedule (e : peer_event) : MM unit := modify (fun w => set_scheduled (scheduled w ++ [e]) w).

(** [make_ref<stream>] and its entry in the map. *)
Definition add_stream (sid : Z) (s : stream) : MM nat :=
  w ← get;
  let r := length (heap w) in
  modify (set_heap (heap w ++ [s]));;
  modify (fun w => set_m_stream_map (stream_map.insert sid r (m_stream_map w)) w);;
  mret r.

Definition attach_socket : MM unit :=
  w ← get;
  assertM (negb (m_so w));;
  modify (set_m_so true);;
  modify (set_m_mux_state SOCKET_ATTACHED).

Definition detach_socket : MM unit :=
  modify (set_m_so false);;
  modify (set_m_mux_state SOCKET_DEATTACHED).

(** ** The tick *)

(** The resets that could not be sent; whether all of them could now. *)
Fixpoint outps_loop (l : list packet.t) : MM bool :=
  match l with
  | [] => mret true
  | outp :: l' =>
      sndrt ← on_m_so (so_send_packet outp);
      if sndrt =? E_SOCKET_SEND_BLOCK then mret false
      else modify (set_m_outps l');; outps_loop l'
  end.

Definition tick_stream (fuel : nat) (is_socket_disconnected : bool) (e : Z * nat) : MM unit :=
  let '(sid, r) := e in
  when is_socket_disconnected (on_stream r (fun s => Ok (stream._force_close s, tt)));;
  '(state, wflag) ← on_stream_so r (stream.update fuel);
  s ← stream_of r;
  if bool_decide (state = SS_RECYCLE) then
    modify (fun w => set_m_stream_map (stream_map.erase sid (m_stream_map w)) w);;
    oschedule (PE_message r T_CLOSED (ctx s))
  else
    when (flag_on wflag STREAM_WRITE_BLOCKED) (oschedule (PE_message r T_WRITE_BLOCK (ctx s)));;
    when (flag_on wflag STREAM_WRITE_UNBLOCKED) (oschedule (PE_message r T_WRITE_UNBLOCK (ctx s))).

Definition _do_tick (fuel : nat) : MM unit :=
  w ← get;
  go_on ← outps_loop (m_outps w);
  if negb go_on then mret tt
  else
    w ← get;
    let is_socket_disconnected := negb (m_so w) || negb (so_is_connected (sock w)) in
    iterM (tick_stream fuel is_socket_disconnected) (m_stream_map w).

Definition tick (fuel : nat) : MM unit := _do_tick fuel.

(** ** The end *)
Definition close_streams : MM unit :=
  modify (set_m_mux_state SOCKET_CLOSED);;
  w ← get;
  iterM (fun e => on_stream e.2 stream.close;; mret tt) (m_stream_map w).

(** Tick until no stream is left. *)
Fixpoint drain_loop (rounds fuel : nat) : MM unit :=
  match rounds with
  | O => fail Diverged
  | S rounds' =>
      w ← get;
      if zlen (m_stream_map w) =? 0 then mret tt
      else _do_tick fuel;; drain_loop rounds' fuel
  end.

Definition close (rounds fuel : nat) (code : Z) : MM Z :=
  close_streams;;
  drain_loop rounds fuel;;
  w ← get;
  if m_so w then on_m_so (so_close code) else mret OK.

(** ** Streams *)
Definition stream_open (sid : Z) (sctx : option Z) : MM (option nat * Z) :=
  w ← get;
  if negb (bool_decide (m_mux_state w = SOCKET_ATTACHED)) then mret (None, E_INVALID_STATE)
  else
    match stream_map.find sid (m_stream_map w) with
    | Some _ => mret (None, E_MUX_STREAM_CARGO_STREAM_EXISTS)
    | None =>
        '(n, openrt) ← lift (stream.open sid sctx stream.make);
        if negb (openrt =? OK) then mret (None, openrt)
        else
          s ← lift (stream.init n);
          r ← add_stream sid s;
          mret (Some r, OK)
    end.

Definition stream_close (sid : Z) : MM Z :=
  w ← get;
  match stream_map.find sid (m_stream_map w) with
  | None => mret E_MUX_STREAM_CARGO_STREAM_NOT_FOUND
  | Some r => on_stream r stream.close
  end.

Definition _stream_snd_rst (sid : Z) : MM unit :=
  w ← get;
  assertM (bool_decide (m_mux_state w = SOCKET_ATTACHED));;
  assertM (m_so w);;
  outp ← lift (packet.make_right packet.INIT_RIGHT_CAPACITY);
  outp ← lift (packet.write_left_T 2 outp (Z.land T_RST 65535));
  outp ← lift (packet.write_left_T 4 outp sid);
  sndrt ← on_m_so (so_send_packet outp);
  when (sndrt =? E_SOCKET_SEND_BLOCK) (modify (fun w => set_m_outps (m_outps w ++ [outp]) w)).

Definition do_send_message : MM Z := assertM false;; mret OK.

(** ** What arrives *)
Definition on_syn (sid : Z) (inpack : packet.t) : MM unit :=
  len ← lift (packet.len inpack);
  assertM (len =? 0);;
  w ← get;
  match stream_map.find sid (m_stream_map w) with
  | Some _ => _stream_snd_rst sid
  | None =>
      s ← lift (stream.init (mk_new None SS_ESTABLISHED 0 sid));
      r ← add_stream sid s;
      trigger (PE_message r T_ACCEPTED None);;
      on_stream r (fun s => Ok (set_ctx (accept_ctx sid) s, tt))
  end.

Definition on_data (sid : Z) (r : nat) (inpack : packet.t) : MM unit :=
  s ← stream_of r;
  if has STREAM_READ_SHUTDOWN s then _stream_snd_rst sid
  else
    len ← lift (packet.len inpack);
    assertM (len <=? bytes_ringbuffer.left_capacity (rb s));;
    on_stream r (fun s =>
      '(rb, _) ← bytes_ringbuffer.write (rb s) (packet.data inpack) len; Ok (set_rb rb s, tt));;
    trigger (PE_message r T_DATA (ctx s)).

Definition on_fin (r : nat) : MM unit :=
  s ← stream_of r;
  assertM (bool_decide (ctx s <> None));;
  trigger (PE_message r T_FIN (ctx s)).

Definition on_uwnd (r : nat) (inpack : packet.t) : MM unit :=
  len ← lift (packet.len inpack);
  assertM (len =? 4);;
  '(_, wnd_incre) ← lift (packet.read_T 4 inpack);
  on_stream r (fun s =>
    let wnd := wb_wnd s +₃₂ wnd_incre in Ok (set_wb_wnd (Z.min MUX_STREAM_WND_SIZE wnd) s, tt)).

Definition on_message (sid t : Z) (inpack : packet.t) : MM unit :=
  if t =? T_SYN then on_syn sid inpack
  else
    w ← get;
    match stream_map.find sid (m_stream_map w) with
    | None => if t =? T_RST then mret tt else _stream_snd_rst sid
    | Some r =>
        if t =? T_DATA then on_data sid r inpack
        else if t =? T_FIN then on_fin r
        else if t =? T_RST then on_stream r (fun s => Ok (stream._force_close s, tt))
        else if t =? T_UWND then on_uwnd r inpack
        else mret tt
    end.

Definition on_packet (data : option packet.t) : MM unit :=
  zoom sock set_sock so_begin_async_read;;
  w ← get;
  if negb (bool_decide (m_mux_state w = SOCKET_ATTACHED)) then mret tt
  else
    match data with
    | None => assertM false
    | Some inpack =>
        len ← lift (packet.len inpack);
        assertM (6 <=? len);;
        '(inpack, sid) ← lift (packet.read_T 4 inpack);
        assertM (negb (sid =? 0));;
        '(inpack, t) ← lift (packet.read_T 2 inpack);
        if T_MUX_STREAM_MESSAGE_TYPE_MAX <=? t then mret tt else on_message sid t inpack
    end.

Definition on_event (rounds fuel : nat) (evt : socket_event) : MM unit :=
  match e_id evt with
  | E_PACKET_ARRIVE => on_packet (e_data evt)
  | E_CLOSE =>
      w ← get;
      assertM (m_so w);;
      close_streams;;
      drain_loop rounds fuel;;
      trigger (PE_info E_CLOSE (e_info evt))
  | E_RD_SHUTDOWN | E_WR_SHUTDOWN | E_WR_BLOCK | E_WR_UNBLOCK | E_ERROR =>
      trigger (PE_info (e_id evt) (e_info evt))
  | E_MESSAGE => fail Thrown
  end.
End mux_cargo.
End mux_cargo.
