(* ===== verification/MuxLink.v ===== *)
(** * MuxLink: the two ends of a stream

    What holds between the stream of one peer, the stream of the same number of the other peer
    and the messages about it that travel between them:

    - [conn]: the invariant of the pair; the window of a sender, the bytes that travel, the bytes
      that wait, and the credit not yet back are together the size of the window, and what was
      read, what waits, what travels and what is not yet sent are together what was written;
    - it is kept by what the user does ([conn_user]), by what a tick sends ([conn_emits]), and by
      the arrival of a message ([conn_arrive_data] and its like). *)

From S2P Require Import Prelude Effects Bytes Ring Packet SocketData MuxStream MuxStreamProofs.
Import bytes_ringbuffer.

(** ** The messages about a stream *)
Inductive well : msg -> Prop :=
| well_empty sid t : t = T_SYN \/ t = T_FIN \/ t = T_RST -> well (mk_msg sid t [])
| well_data sid d : d <> [] -> well (mk_msg sid T_DATA d)
| well_uwnd sid n : is_u32 n -> well (mk_msg sid T_UWND (bytes_helper.write_impl 4 n)).

Definition msg_data (m : msg) : list Z := if g_type m =? T_DATA then g_data m else [].
Definition msg_credit (m : msg) : Z := if g_type m =? T_UWND then bytes_helper.read_impl 4 (g_data m) else 0.
Definition dat (ms : list msg) : list Z := concat (map msg_data ms).
Definition credit (ms : list msg) : Z := foldr (fun m n => msg_credit m + n) 0 ms.
Definition no (t : Z) (ms : list msg) : Prop := Forall (fun m => g_type m <> t) ms.
Definition only_ends (ms : list msg) : Prop := Forall (fun m => g_type m = T_FIN \/ g_type m = T_RST) ms.
Definition only_rst (ms : list msg) : Prop := Forall (fun m => g_type m = T_RST) ms.

Lemma dat_app l l' : dat (l ++ l') = dat l ++ dat l'.
Proof. unfold dat. by rewrite map_app, concat_app. Qed.
Lemma credit_app l l' : credit (l ++ l') = credit l + credit l'.
Proof. unfold credit. induction l as [|m l IH]; simpl; [done | lia]. Qed.
Lemma uwnd_credit sid n : is_u32 n -> msg_credit (mk_msg sid T_UWND (bytes_helper.write_impl 4 n)) = n.
Proof.
  intros Hn. unfold msg_credit. cbn [g_type g_data]. change (T_UWND =? T_UWND) with true. cbn iota.
  rewrite <- (app_nil_r (bytes_helper.write_impl 4 n)), bytes_helper.read_write. by apply Z.mod_small.
Qed.
Lemma well_credit m : well m -> 0 <= msg_credit m.
Proof. intros [sid t [->|[->| ->]]|sid d _|sid n Hn]; try done. rewrite uwnd_credit by done. range_lia. Qed.
Lemma credit_nonneg l : Forall well l -> 0 <= credit l.
Proof. induction 1 as [|m l Hm _ IH]; simpl; [lia|]. apply well_credit in Hm. lia. Qed.

Lemma credit_one m : credit [m] = msg_credit m.
Proof. simpl. lia. Qed.
Lemma dat_one m : dat [m] = msg_data m.
Proof. unfold dat. simpl. apply app_nil_r. Qed.
Lemma dat_cons m l : dat (m :: l) = msg_data m ++ dat l.
Proof. done. Qed.
Lemma credit_cons m l : credit (m :: l) = msg_credit m + credit l.
Proof. done. Qed.

(** Messages without bytes and credit. *)
Lemma end_msg m : g_type m = T_FIN \/ g_type m = T_RST \/ g_type m = T_SYN -> msg_data m = [] /\ msg_credit m = 0.
Proof. unfold msg_data, msg_credit. by intros [->|[->| ->]]. Qed.
Lemma ends_dat l : only_ends l -> dat l = [] /\ credit l = 0.
Proof.
  induction 1 as [|m l Hm _ [IH1 IH2]]; [done|]. destruct (end_msg m) as [E1 E2]; [tauto|].
  rewrite dat_cons, credit_cons, E1, E2, IH1, IH2. done.
Qed.
Lemma rst_ends l : only_rst l -> only_ends l.
Proof. intros Hl. eapply Forall_impl; [exact Hl|]. intros m Hm. by right. Qed.
Lemma no_uwnd_credit l : no T_UWND l -> credit l = 0.
Proof.
  induction 1 as [|m l Hm _ IH]; [done|]. rewrite credit_cons, IH. unfold msg_credit. by rewrite (proj2 (Z.eqb_neq _ _)).
Qed.
Lemma ends_no t l : only_ends l -> t <> T_FIN -> t <> T_RST -> no t l.
Proof. intros Hl H1 H2. eapply Forall_impl; [exact Hl|]. intros m Hm E. cbn in *. destruct Hm; congruence. Qed.

(** ** The invariant *)

(** One side: the stream if there is one, what it has sent that did not arrive, what its user
    wrote and read. *)
Record half : Type := mk_half { h_st : option stream; h_fl : list msg; h_w : list Z; h_r : list Z }.

(** Only one side has the stream: the other has not heard of it. *)
Record lone (s : stream) (A B : half) : Prop := {
  l_other : only_rst (h_fl B) /\ h_w B = [] /\ h_r B = [];
  l_nothing : contents (rb s) = [] /\ rb_incre s = 0 /\ h_r A = [];
  l_sent :
    (has STREAM_PLAN_SYN s = true /\ only_ends (h_fl A) /\ wb_wnd s = big /\ contents (wb s) = h_w A)
    \/ (has STREAM_PLAN_SYN s = false /\ exists pre m rest, h_fl A = pre ++ m :: rest /\ g_type m = T_SYN
        /\ only_ends pre /\ no T_SYN rest /\ no T_UWND rest
        /\ wb_wnd s + zlen (dat rest) = big /\ dat rest ++ contents (wb s) = h_w A)
}.

(** The window is all accounted for; once the sender is done credit may be lost. *)
Definition at_most (done_ : bool) (total : Z) : Prop := total <= big /\ (done_ = false -> total = big).
Lemma at_most_mono d d' n n' : at_most d n -> n' = n -> (d = true -> d' = true) -> at_most d' n'.
Proof.
  intros [HL HE] -> Hd. split; [done|]. intros ->. apply HE. destruct d; [|done]. by rewrite Hd.
Qed.

(** From [s], which has sent [f], to [t], whose credit comes back in [g]. *)
Definition dir (s t : stream) (f g : list msg) (w r : list Z) : Prop :=
  (exists more, w = r ++ contents (rb t) ++ more)
  /\ (has STREAM_READ_SHUTDOWN t = false ->
      at_most (has STREAM_WRITE_SHUTDOWN s)
        (wb_wnd s + zlen (dat f) + zlen (contents (rb t)) + rb_incre t + credit g)
      /\ w = r ++ contents (rb t) ++ dat f ++ contents (wb s)).

Record both (s t : stream) (A B : half) : Prop := {
  b_syn : has STREAM_PLAN_SYN s = false /\ has STREAM_PLAN_SYN t = false /\ no T_SYN (h_fl A) /\ no T_SYN (h_fl B);
  b_there : dir s t (h_fl A) (h_fl B) (h_w A) (h_r B);
  b_back : dir t s (h_fl B) (h_fl A) (h_w B) (h_r A)
}.

Definition conn (A B : half) : Prop :=
  match h_st A, h_st B with
  | None, None => h_fl A = [] /\ h_fl B = [] /\ h_w A = [] /\ h_r A = [] /\ h_w B = [] /\ h_r B = []
  | Some s, None => lone s A B
  | None, Some t => lone t B A
  | Some s, Some t => both s t A B
  end.

Lemma conn_sym A B : conn A B -> conn B A.
Proof.
  unfold conn. destruct (h_st A) as [s|], (h_st B) as [t|]; try done.
  - intros [(? & ? & ? & ?) ? ?]. by constructor.
  - by intros (? & ? & ? & ? & ? & ?).
Qed.

(** ** What the user does *)
Lemma conn_user s s' f w r B bw br : conn (mk_half (Some s) f w r) B -> stream_ok s ->
  (forall t, h_st B = Some t -> stream_ok t) -> Forall well f -> user_step s s' bw br ->
  conn (mk_half (Some s') f (w ++ bw) (r ++ br)) B.
Proof.
  unfold conn. cbn [h_st h_fl h_w h_r]. intros HC HO HOt Hf [u_id0 u_ctx0 u_wb0 u_wnd0 u_syn0 u_read0 u_write0 u_rb0 u_incre0]. destruct (h_st B) as [t|].
  - specialize (HOt t eq_refl). destruct HC as [(S1 & S2 & S3 & S4) [(more & HP) HD] [(more' & HP') HD']].
    cbn [h_fl h_w h_r] in *. constructor; cbn [h_fl h_w h_r]; [by rewrite u_syn0|split|split].
    + exists (more ++ bw). by rewrite HP, <- !app_assoc.
    + intros Hr. destruct (HD Hr) as [E1 ->]. rewrite u_wnd0, u_wb0. split; [by eapply at_most_mono|]. by rewrite <- !app_assoc.
    + exists more'. rewrite HP', u_rb0. by rewrite <- !app_assoc.
    + intros Hr. assert (Hr0 : has STREAM_READ_SHUTDOWN s = false).
      { destruct (has STREAM_READ_SHUTDOWN s) eqn:E; [|done]. by rewrite u_read0 in Hr. }
      destruct (HD' Hr0) as [E1 E2]. split; [|by rewrite E2, u_rb0, <- !app_assoc].
      rewrite u_rb0, zlen_app in E1. eapply at_most_mono; [exact E1| |done]. destruct E1 as [E1 _]. rewrite u_incre0 by auto. pose proof (ok_wnd t HOt). pose proof (ok_incre s HO).
      pose proof (credit_nonneg f Hf). pose proof (zlen_nonneg (dat (h_fl B))). pose proof (zlen_nonneg (contents (rb s'))).
      pose proof (zlen_nonneg br). rewrite u32_small by (unfold big in *; range_lia). lia.
  - destruct HC as [HB (N1 & N2 & N3) HS]. cbn [h_fl h_w h_r] in *. rewrite N1 in u_rb0.
    symmetry in u_rb0. apply app_eq_nil in u_rb0 as [Eb Er]. subst br. rewrite app_nil_r.
    constructor; cbn [h_fl h_w h_r]; [done | |].
    + split; [done|]. split; [|done]. rewrite u_incre0 by auto. rewrite N2. done.
    + rewrite u_syn0, u_wnd0, u_wb0. destruct HS as [(P1 & P2 & P3 & P4)|(P1 & pre & m & rest & P2 & P3 & P4 & P5 & P6 & P7 & P8)].
      * left. by rewrite P4.
      * right. split; [done|]. exists pre, m, rest. repeat (split; [done|]). by rewrite <- P8, <- app_assoc.
Qed.

(** What nobody notices. *)
Lemma conn_quiet s s' f w r B : conn (mk_half (Some s) f w r) B -> quiet s s' -> conn (mk_half (Some s') f w r) B.
Proof.
  unfold conn. cbn [h_st h_fl h_w h_r]. intros HC [q_id0 q_ctx0 q_wb0 q_wnd0 q_syn0 q_read0 q_write0 q_rb0 q_incre0]. destruct (h_st B) as [t|].
  - destruct HC as [(S1 & S2 & S3 & S4) HD HD']. cbn [h_fl h_w h_r] in *. unfold dir in *.
    constructor; cbn [h_fl h_w h_r]; unfold dir; rewrite ?q_syn0, ?q_wnd0, ?q_wb0, ?q_rb0; [done | |].
    { destruct HD as [HP HD]. split; [done|]. intros Hr. destruct (HD Hr) as [E1 E2]. split; [by eapply at_most_mono | done]. }
    destruct HD' as [HP HD']. split; [done|]. intros Hr. rewrite q_incre0 by auto. apply HD'.
    destruct (has STREAM_READ_SHUTDOWN s) eqn:E; [|done]. by rewrite q_read0 in Hr.
  - destruct HC as [HB (N1 & N2 & N3) HS]. cbn [h_fl h_w h_r] in *.
    constructor; cbn [h_fl h_w h_r]; rewrite ?q_syn0, ?q_wnd0, ?q_wb0, ?q_rb0; try done.
    by rewrite q_incre0 by auto.
Qed.

(** ** What a tick sends *)
Lemma no_snoc t l m : no t l -> g_type m <> t -> no t (l ++ [m]).
Proof. intros Hl Hm. apply Forall_app. split; [done | by apply Forall_singleton]. Qed.
Lemma ends_snoc l m : only_ends l -> g_type m = T_FIN \/ g_type m = T_RST -> only_ends (l ++ [m]).
Proof. intros Hl Hm. apply Forall_app. split; [done | by apply Forall_singleton]. Qed.

(** A message that carries nothing. *)
Lemma conn_end s f w r B m : conn (mk_half (Some s) f w r) B -> g_type m = T_FIN \/ g_type m = T_RST ->
  conn (mk_half (Some s) (f ++ [m]) w r) B.
Proof.
  unfold conn. cbn [h_st h_fl h_w h_r]. intros HC Hm. destruct (end_msg m) as [E1 E2]; [tauto|].
  assert (Hs : g_type m <> T_SYN /\ g_type m <> T_UWND) by (destruct Hm as [->| ->]; done). destruct Hs as [Hs Hu].
  destruct (h_st B) as [t|].
  - destruct HC as [(S1 & S2 & S3 & S4) HD HD']. cbn [h_fl h_w h_r] in *. unfold dir in *.
    constructor; cbn [h_fl h_w h_r]; unfold dir; rewrite ?dat_app, ?credit_app, ?dat_one, ?credit_one, ?E1, ?E2, ?app_nil_r, ?Z.add_0_r; try done.
    repeat (split; [done|]). split; [by apply no_snoc | done].
  - destruct HC as [HB HN HS]. cbn [h_fl h_w h_r] in *. constructor; cbn [h_fl h_w h_r]; [done..|].
    destruct HS as [(P1 & P2 & P3 & P4)|(P1 & pre & m0 & rest & -> & P3 & P4 & P5 & P6 & P7 & P8)].
    + left. split; [done|]. split; [by apply ends_snoc | done].
    + right. split; [done|]. exists pre, m0, (rest ++ [m]). rewrite <- app_assoc. split; [done|]. do 2 (split; [done|]).
      split; [by apply no_snoc|]. split; [by apply no_snoc|]. by rewrite dat_app, dat_one, E1, app_nil_r.
Qed.

Lemma conn_emit s m s' f w r B : conn (mk_half (Some s) f w r) B -> emit s m s' ->
  conn (mk_half (Some s') (f ++ [m]) w r) B.
Proof.
  intros HC [Hi Hu|s1 Hq|Hsyn|d w0 Hsyn Hd Hz Hw].
  - (* T_UWND *)
    unfold conn in *. cbn [h_st h_fl h_w h_r] in *. destruct (h_st B) as [t|]; [|destruct HC as [_ (_ & Hx & _) _]; lia].
    destruct HC as [(S1 & S2 & S3 & S4) HD [HP HD']]. cbn [h_fl h_w h_r] in *. unfold dir in *.
    constructor; cbn [h_fl h_w h_r]; unfold dir; rewrite ?dat_app, ?credit_app, ?dat_one, ?credit_one, ?uwnd_credit by done.
    + do 2 (split; [done|]). split; [by apply no_snoc | done].
    + change (msg_data _) with (@nil Z). by rewrite app_nil_r.
    + split; [done|]. intros Hr. destruct (HD' Hr) as [E1 E2]. split; [|done]. eapply at_most_mono; [exact E1| |done]. change (rb_incre (set_rb_incre 0 s)) with 0. change (contents (rb (set_rb_incre 0 s))) with (contents (rb s)). lia.
  - (* T_FIN *) apply conn_end; [by eapply conn_quiet | by left].
  - (* T_SYN *)
    assert (Hno : has STREAM_PLAN_SYN (sub_flag STREAM_PLAN_SYN s) = false) by (rewrite has_sub; apply flag_on_none).
    unfold conn in *. cbn [h_st h_fl h_w h_r] in *. destruct (h_st B) as [t|]; [destruct HC as [(Hx & _) _ _]; congruence|].
    destruct HC as [HB HN HS]. cbn [h_fl h_w h_r] in *. constructor; cbn [h_fl h_w h_r]; [done..|]. right. split; [done|].
    destruct HS as [(P1 & P2 & P3 & P4)|(P1 & _)]; [|congruence]. exists f, (mk_msg (id s) T_SYN []), [].
    split; [done|]. split; [done|]. split; [done|]. do 2 (split; [by constructor|]). split; [|done].
    change (wb_wnd s + 0 = big). lia.
  - (* T_DATA *)
    unfold conn in *. cbn [h_st h_fl h_w h_r] in *. destruct (h_st B) as [t|].
    + destruct HC as [(S1 & S2 & S3 & S4) [HP HD] HD']. cbn [h_fl h_w h_r] in *. unfold dir in *.
      constructor; cbn [h_fl h_w h_r]; unfold dir; rewrite ?dat_app, ?credit_app, ?dat_one, ?credit_one.
      * do 2 (split; [done|]). split; [by apply no_snoc | done].
      * split; [done|]. intros Hr. destruct (HD Hr) as [E1 E2]. change (msg_data _) with d. cbn [wb_wnd set_wb_wnd set_wb wb]. rewrite zlen_app.
        split; [eapply at_most_mono; [exact E1 | lia | done]|]. rewrite E2, Hw. by rewrite <- app_assoc.
      * change (msg_credit _) with 0. by rewrite Z.add_0_r.
    + destruct HC as [HB HN HS]. cbn [h_fl h_w h_r] in *. constructor; cbn [h_fl h_w h_r]; [done..|]. right.
      destruct HS as [(P1 & _)|(P1 & pre & m0 & rest & -> & P3 & P4 & P5 & P6 & P7 & P8)]; [congruence|]. split; [done|].
      exists pre, m0, (rest ++ [mk_msg (id s) T_DATA d]). rewrite <- app_assoc. split; [done|]. do 2 (split; [done|]).
      split; [by apply no_snoc|]. split; [by apply no_snoc|]. rewrite dat_app, dat_one, zlen_app. change (msg_data _) with d.
      cbn [wb_wnd set_wb_wnd set_wb wb]. split; [lia|]. by rewrite <- P8, Hw, <- app_assoc.
Qed.

Lemma conn_emits s ms s' f w r B : emits s ms s' -> conn (mk_half (Some s) f w r) B ->
  conn (mk_half (Some s') (f ++ ms) w r) B.
Proof.
  intros HE. revert f. induction HE as [s|s s1 ms s2 Hq _ IH|s m s1 ms s2 He _ IH]; intros f HC.
  - by rewrite app_nil_r.
  - apply IH. by eapply conn_quiet.
  - replace (f ++ m :: ms) with ((f ++ [m]) ++ ms) by (by rewrite <- app_assoc). apply IH. by eapply conn_emit.
Qed.

(** ** What arrives *)

(** A reset in answer to the other side, which has the stream. *)
Lemma conn_rst A B m : conn A B -> h_st B <> None -> g_type m = T_RST ->
  conn (mk_half (h_st A) (h_fl A ++ [m]) (h_w A) (h_r A)) B.
Proof.
  intros HC HB Hm. destruct A as [[s|] f w r]; cbn [h_st h_fl h_w h_r]; [apply conn_end; [done | by right]|].
  unfold conn in *. cbn [h_st] in *. destruct (h_st B) as [t|]; [|done].
  destruct HC as [(H1 & H2 & H3) HN HS]. cbn [h_fl h_w h_r] in *. constructor; cbn [h_fl h_w h_r]; [|done..].
  split; [|done]. apply Forall_app. split; [done | by apply Forall_singleton].
Qed.

(** The first message of [B], to a side that does not have the stream. *)
Lemma conn_arrive_none f w r t m g w' r' : conn (mk_half None f w r) (mk_half t (m :: g) w' r') ->
  t <> None
  /\ (g_type m = T_SYN /\ (forall s, fresh s -> has STREAM_PLAN_SYN s = false ->
        conn (mk_half (Some s) f w r) (mk_half t g w' r'))
      \/ (g_type m = T_FIN \/ g_type m = T_RST) /\ conn (mk_half None f w r) (mk_half t g w' r')).
Proof.
  unfold conn. cbn [h_st h_fl h_w h_r]. destruct t as [t|]; [|by intros (_ & ? & _)].
  intros [(R1 & R2 & R3) HN HS]. cbn [h_fl h_w h_r] in *. split; [done|].
  destruct HS as [(P1 & P2 & P3 & P4)|(P1 & pre & m0 & rest & P2 & P3 & P4 & P5 & P6 & P7 & P8)].
  - right. apply Forall_cons in P2 as [Hm P2]. split; [done|]. constructor; cbn [h_fl h_w h_r]; [done..|]. by left.
  - destruct pre as [|m1 pre]; simpl in P2; injection P2 as -> ->.
    + left. split; [done|]. intros s [F1 F2 F3 F4 F5] Hs. destruct HN as (N1 & N2 & N3). subst.
      destruct (ends_dat f (rst_ends f R1)) as [D1 C1]. constructor; cbn [h_fl h_w h_r].
      * split; [done|]. split; [done|]. split; [apply ends_no; [by apply rst_ends | done..] | done].
      * unfold dir. rewrite D1, F2, F4, N1, N2, (no_uwnd_credit rest) by done. split; [by exists []|].
        intros _. split; [|done]. change (zlen []) with 0. split; lia.
      * unfold dir. rewrite F1, F3, C1. split; [by exists (dat rest ++ contents (wb t))|]. intros _. change (zlen []) with 0.
        split; [split; lia | done].
    + right. apply Forall_cons in P4 as [Hm P4]. split; [done|]. constructor; cbn [h_fl h_w h_r]; [done..|].
      right. split; [done|]. by exists pre, m0, rest.
Qed.

(** ... and to a side that has it. *)
Lemma conn_arrive_end s f w r t m g w' r' :
  conn (mk_half (Some s) f w r) (mk_half t (m :: g) w' r') -> g_type m = T_FIN \/ g_type m = T_RST ->
  conn (mk_half (Some s) f w r) (mk_half t g w' r').
Proof.
  unfold conn. cbn [h_st h_fl h_w h_r]. intros HC Hm. destruct (end_msg m) as [E1 E2]; [tauto|]. destruct t as [t|].
  - destruct HC as [(S1 & S2 & S3 & S4) HD HD']. cbn [h_fl h_w h_r] in *. unfold dir in *.
    rewrite dat_cons, credit_cons, E1, E2 in *. rewrite Z.add_0_l in *. apply Forall_cons in S4 as [_ S4]. by constructor.
  - destruct HC as [(R1 & R2 & R3) HN HS]. cbn [h_fl h_w h_r] in *. apply Forall_cons in R1 as [_ R1]. by constructor.
Qed.

Lemma conn_arrive_syn s f w r t m g w' r' :
  conn (mk_half (Some s) f w r) (mk_half t (m :: g) w' r') -> g_type m <> T_SYN.
Proof.
  unfold conn. cbn [h_st h_fl h_w h_r]. intros HC Hm. destruct t as [t|].
  - destruct HC as [(S1 & S2 & S3 & S4) _ _]. cbn [h_fl] in *. by apply Forall_cons in S4 as [S4 _].
  - destruct HC as [(R1 & R2 & R3) _ _]. cbn [h_fl] in *. apply Forall_cons in R1 as [R1 _]. by rewrite Hm in R1.
Qed.

Lemma conn_arrive_there s f w r t m g w' r' :
  conn (mk_half (Some s) f w r) (mk_half t (m :: g) w' r') -> g_type m <> T_RST -> t <> None.
Proof.
  unfold conn. cbn [h_st h_fl h_w h_r]. intros HC Hm ->. destruct HC as [(R1 & _) _ _]. cbn [h_fl] in *.
  by apply Forall_cons in R1 as [R1 _].
Qed.

(** Bytes fit the ring, and are the next of what was written. *)
Lemma conn_arrive_data s f w r t sid d g w' r' :
  conn (mk_half (Some s) f w r) (mk_half t (mk_msg sid T_DATA d :: g) w' r') ->
  stream_ok s -> (forall t', t = Some t' -> stream_ok t') -> Forall well f -> Forall well g ->
  t <> None
  /\ (has STREAM_READ_SHUTDOWN s = true -> conn (mk_half (Some s) f w r) (mk_half t g w' r'))
  /\ (has STREAM_READ_SHUTDOWN s = false -> zlen d <= left_capacity (rb s)
      /\ forall rb', contents rb' = contents (rb s) ++ d -> conn (mk_half (Some (set_rb rb' s)) f w r) (mk_half t g w' r')).
Proof.
  unfold conn. cbn [h_st h_fl h_w h_r]. intros HC HO HOt Hf Hg.
  destruct t as [t|]; [|destruct HC as [(R1 & _) _ _]; cbn [h_fl] in *; by apply Forall_cons in R1 as [R1 _]].
  specialize (HOt t eq_refl). destruct HC as [(S1 & S2 & S3 & S4) HD HD']. cbn [h_fl h_w h_r] in *. unfold dir in *.
  rewrite dat_cons, credit_cons in *. change (msg_data (mk_msg sid T_DATA d)) with d in *.
  change (msg_credit (mk_msg sid T_DATA d)) with 0 in *. apply Forall_cons in S4 as [_ S4]. destruct HD' as [(more & HP) HD'].
  split; [done|]. split; intros Hr.
  - constructor; cbn [h_fl h_w h_r]; unfold dir; [done | done | split; [by exists more|]]. intros Hr'. congruence.
  - destruct (HD' Hr) as [E1 E2]. rewrite zlen_app in E1. assert (E0 := E1). destruct E0 as [E0 _]. destruct (ring_ok_len _ (ok_rb s HO)) as (_ & _ & -> & _).
    pose proof (ok_wnd t HOt). pose proof (ok_incre s HO). pose proof (credit_nonneg f Hf). pose proof (zlen_nonneg (dat g)).
    split; [unfold is_u32 in *; lia|]. intros rb' Hrb'. constructor; cbn [h_fl h_w h_r]; unfold dir; [done | done|].
    cbn [rb set_rb rb_incre]. rewrite Hrb', zlen_app. split; [|intros _; split; [eapply at_most_mono; [exact E1 | lia | done] | by rewrite E2, <- !app_assoc]].
    exists (dat g ++ contents (wb t)). by rewrite E2, <- !app_assoc.
Qed.

(** Credit opens the window by as much as was granted. *)
Lemma conn_arrive_uwnd s f w r t sid n g w' r' :
  conn (mk_half (Some s) f w r) (mk_half t (mk_msg sid T_UWND (bytes_helper.write_impl 4 n) :: g) w' r') ->
  stream_ok s -> (forall t', t = Some t' -> stream_ok t') -> Forall well f -> Forall well g -> is_u32 n ->
  conn (mk_half (Some (set_wb_wnd (Z.min big (wb_wnd s +₃₂ n)) s)) f w r) (mk_half t g w' r').
Proof.
  unfold conn. cbn [h_st h_fl h_w h_r]. intros HC HO HOt Hf Hg Hn.
  destruct t as [t|]; [|destruct HC as [(R1 & _) _ _]; cbn [h_fl] in *; by apply Forall_cons in R1 as [R1 _]].
  specialize (HOt t eq_refl). destruct HC as [(S1 & S2 & S3 & S4) [HP HD] HD']. cbn [h_fl h_w h_r] in *. unfold dir in *.
  rewrite dat_cons, credit_cons, uwnd_credit in * by done. apply Forall_cons in S4 as [_ S4].
  constructor; cbn [h_fl h_w h_r]; unfold dir; [done | | done]. split; [done|]. intros Hr. destruct (HD Hr) as [E1 E2].
  split; [|done]. eapply at_most_mono; [exact E1| |done]. destruct E1 as [E1 _]. cbn [wb_wnd set_wb_wnd]. pose proof (ok_wnd s HO). pose proof (ok_incre t HOt). pose proof (credit_nonneg g Hg).
  pose proof (zlen_nonneg (dat f)). pose proof (zlen_nonneg (contents (rb t))).
  rewrite u32_small by (unfold big in *; range_lia). unfold is_u32 in *. lia.
Qed.

(** Credit for a stream that is not there any more is lost. *)
Lemma conn_arrive_lost s f w r t sid n g w' r' :
  conn (mk_half (Some s) f w r) (mk_half t (mk_msg sid T_UWND (bytes_helper.write_impl 4 n) :: g) w' r') ->
  is_u32 n -> has STREAM_WRITE_SHUTDOWN s = true -> conn (mk_half (Some s) f w r) (mk_half t g w' r').
Proof.
  unfold conn. cbn [h_st h_fl h_w h_r]. intros HC Hn Hs.
  destruct t as [t|]; [|destruct HC as [(R1 & _) _ _]; cbn [h_fl] in *; by apply Forall_cons in R1 as [R1 _]].
  destruct HC as [(S1 & S2 & S3 & S4) [HP HD] HD']. cbn [h_fl h_w h_r] in *. unfold dir in *.
  rewrite dat_cons, credit_cons, uwnd_credit in * by done. apply Forall_cons in S4 as [_ S4].
  constructor; cbn [h_fl h_w h_r]; unfold dir; [done | | done]. split; [done|]. intros Hr. destruct (HD Hr) as [[E1 _] E2].
  split; [|done]. rewrite Hs. split; [range_lia | done].
Qed.

(** What is shut stays shut. *)
Definition ends (s s' : stream) : Prop :=
  forall f, f = STREAM_READ_SHUTDOWN \/ f = STREAM_WRITE_SHUTDOWN -> has f s = true -> has f s' = true.

(** A new stream, opened by one side. *)
Lemma conn_open f w r g w' r' s : conn (mk_half None f w r) (mk_half None g w' r') -> fresh s -> has STREAM_PLAN_SYN s = true ->
  conn (mk_half (Some s) f w r) (mk_half None g w' r').
Proof.
  unfold conn. cbn [h_st h_fl h_w h_r]. intros (-> & -> & -> & -> & -> & ->) [F1 F2 F3 F4 F5] Hs.
  constructor; cbn [h_fl h_w h_r]; [by split; [constructor|] | done|]. left. split; [done|]. split; [constructor | done].
Qed.

(** The messages of a tick are about the stream. *)
Lemma emits_facts s ms s' : emits s ms s' -> id s' = id s /\ ctx s' = ctx s /\ ends s s'
  /\ Forall (fun m => g_id m = id s /\ well m) ms.
Proof.
  induction 1 as [s|s s1 ms s2 Hq _ (I1 & I2 & I3 & I4)|s m s1 ms s2 He _ (I1 & I2 & I3 & I4)].
  - split; [done|]. split; [done|]. split; [by intros f | constructor].
  - destruct Hq as [Q1 Q2 _ _ _ Q3 Q4 _ _]. rewrite Q1 in I4. split; [congruence|]. split; [congruence|].
    split; [intros f [->| ->] Hf; apply I3; auto | done].
  - assert (HE : id s1 = id s /\ ctx s1 = ctx s /\ ends s s1 /\ g_id m = id s /\ well m).
    { destruct He as [? ?|s1 [Q1 Q2 _ _ _ Q3 Q4 _ _]|?|d w0 ? ? ? ?]; (split; [done|]); (split; [done|]).
      - split; [by intros f|]. split; [done|]. by constructor.
      - split; [intros f [->| ->]; auto|]. split; [done|]. constructor. by right; left.
      - split; [intros f [->| ->]; by rewrite has_sub_other|]. split; [done|]. constructor. by left.
      - split; [by intros f|]. split; [done|]. by constructor. }
    destruct HE as (E1 & E2 & E3 & E4 & E5). rewrite E1 in I4. split; [congruence|]. split; [congruence|].
    split; [intros f Hf Hs; apply I3; [done | by apply E3]|]. by constructor.
Qed.
