(* ===== verification/MuxProofs.v ===== *)
(** * MuxProofs: what the peers of a connection keep

    - [good]: the invariant of one peer against the other: its streams are well formed, its map
      and its heap agree, and [conn] holds for every number;
    - every method keeps it and fails no assertion ([good_tick], [good_open], [on_packet_spec], ...). *)

From S2P Require Import Prelude Effects Bytes Ring Packet SocketData MuxStream MuxStreamProofs MuxCargo MuxLink.
Import bytes_ringbuffer.

(** ** The streams of a peer, by number *)
Fixpoint heap_st (x : Z) (h : list stream) : option stream :=
  match h with
  | [] => None
  | s :: h => if id s =? x then Some s else heap_st x h
  end.
Definition fl (x : Z) (ms : list msg) : list msg := filter (fun m => g_id m = x) ms.

Lemma heap_st_id x h s : heap_st x h = Some s -> id s = x /\ exists r, h !! r = Some s.
Proof.
  induction h as [|s0 h IH]; simpl; [done|]. destruct (Z.eqb_spec (id s0) x).
  - intros [= <-]. split; [done | by exists O].
  - intros Hs. destruct (IH Hs) as (E & r & Er). split; [done | by exists (S r)].
Qed.
Lemma heap_st_none x h : heap_st x h = None <-> Forall (fun s => id s <> x) h.
Proof.
  induction h as [|s h IH]; simpl; [split; [constructor | done]|]. rewrite Forall_cons.
  destruct (Z.eqb_spec (id s) x); [|tauto]. split; [done | intros [Hx _]; by destruct Hx].
Qed.
Lemma heap_st_lookup h r s : NoDup (map id h) -> h !! r = Some s -> heap_st (id s) h = Some s.
Proof.
  revert r. induction h as [|s0 h IH]; intros [|r] HN E; simpl in *; try discriminate.
  - injection E as ->. by rewrite Z.eqb_refl.
  - apply NoDup_cons in HN as [Hx HN]. destruct (Z.eqb_spec (id s0) (id s)) as [Ei|_]; [|by eapply IH].
    exfalso. apply Hx. rewrite Ei. apply list_elem_of_fmap. exists s. split; [done|]. by eapply list_elem_of_lookup_2.
Qed.
Lemma heap_st_insert x h r s s' : NoDup (map id h) -> h !! r = Some s -> id s' = id s ->
  heap_st x (<[r := s']> h) = if id s =? x then Some s' else heap_st x h.
Proof.
  revert r. induction h as [|s0 h IH]; intros [|r] HN E Ei; simpl in *; try discriminate.
  - injection E as ->. rewrite Ei. by destruct (id s =? x).
  - apply NoDup_cons in HN as [Hx HN]. rewrite (IH r HN E Ei). destruct (Z.eqb_spec (id s0) x) as [<-|]; [|done].
    destruct (Z.eqb_spec (id s) (id s0)) as [Ee|]; [|done]. exfalso. apply Hx. rewrite <- Ee.
    apply list_elem_of_fmap. exists s. split; [done|]. by eapply list_elem_of_lookup_2.
Qed.
Lemma heap_st_app x h s : heap_st x h = None -> heap_st x (h ++ [s]) = if id s =? x then Some s else None.
Proof. induction h as [|s0 h IH]; simpl; [done|]. by destruct (id s0 =? x). Qed.
Lemma heap_st_app_ne x h s : id s <> x -> heap_st x (h ++ [s]) = heap_st x h.
Proof.
  intros Hx. induction h as [|s0 h IH]; simpl; [by rewrite (proj2 (Z.eqb_neq _ _))|]. by destruct (id s0 =? x).
Qed.
Lemma map_id_insert h r s s' : h !! r = Some s -> id s' = id s -> map id (<[r := s']> h) = map id h.
Proof.
  revert r. induction h as [|s0 h IH]; intros [|r] E Ei; simpl in *; try discriminate.
  - injection E as ->. by rewrite Ei.
  - f_equal. by apply IH.
Qed.

Lemma fl_app x l l' : fl x (l ++ l') = fl x l ++ fl x l'.
Proof. apply filter_app. Qed.
Lemma fl_all x l : Forall (fun m => g_id m = x) l -> fl x l = l.
Proof. apply filter_all. Qed.
Lemma fl_other x y l : Forall (fun m => g_id m = x) l -> x <> y -> fl y l = [].
Proof.
  intros Hl Hne. unfold fl. induction Hl as [|m l Hm _ IH]; [done|]. rewrite filter_cons_False by congruence. done.
Qed.

(** ** The map *)
Lemma find_insert k r m : stream_map.find k m = None -> forall k',
  stream_map.find k' (stream_map.insert k r m) = if k' =? k then Some r else stream_map.find k' m.
Proof.
  induction m as [|[k0 r0] m IH]; intros Hn k'; simpl in *; [done|].
  destruct (Z.eqb_spec k k0) as [|Hne]; [done|]. destruct (k <? k0); [done|]. simpl. rewrite (IH Hn k').
  destruct (Z.eqb_spec k' k0), (Z.eqb_spec k' k); congruence.
Qed.
Definition keys (m : stream_map.t) : list Z := m.*1.
Lemma find_none k m : stream_map.find k m = None <-> k ∉ keys m.
Proof.
  induction m as [|[k0 r0] m IH]; simpl; [split; [intros _ Hx; by apply not_elem_of_nil in Hx | done]|].
  rewrite not_elem_of_cons. destruct (Z.eqb_spec k k0); [split; [done | by intros [? _]]|]. rewrite IH. tauto.
Qed.
Lemma find_in k r m : NoDup (keys m) -> (k, r) ∈ m -> stream_map.find k m = Some r.
Proof.
  induction m as [|[k0 r0] m IH]; intros HN Hin; simpl in *; [by apply not_elem_of_nil in Hin|].
  apply NoDup_cons in HN as [Hk HN]. apply elem_of_cons in Hin as [[= <- <-]|Hin]; [by rewrite Z.eqb_refl|].
  destruct (Z.eqb_spec k k0) as [->|]; [|by apply IH]. exfalso. apply Hk. apply list_elem_of_fmap. by exists (k0, r).
Qed.
Lemma find_erase k m : NoDup (keys m) -> forall k',
  stream_map.find k' (stream_map.erase k m) = if k' =? k then None else stream_map.find k' m.
Proof.
  induction m as [|[k0 r0] m IH]; intros HN k'; simpl in *; [by destruct (k' =? k)|].
  apply NoDup_cons in HN as [Hk HN]. destruct (Z.eqb_spec k k0) as [->|Hne].
  - destruct (Z.eqb_spec k' k0) as [->|]; [by apply find_none | done].
  - simpl. rewrite (IH HN k'). destruct (Z.eqb_spec k' k0), (Z.eqb_spec k' k); congruence.
Qed.
Lemma keys_insert k r m : stream_map.find k m = None -> NoDup (keys m) -> NoDup (keys (stream_map.insert k r m)).
Proof.
  intros Hn. induction m as [|[k0 r0] m IH]; simpl in *; intros HN.
  - apply NoDup_singleton.
  - apply NoDup_cons in HN as [Hk HN]. destruct (Z.eqb_spec k k0) as [|Hne]; [done|].
    destruct (k <? k0); simpl.
    + apply NoDup_cons. split; [|by apply NoDup_cons]. apply not_elem_of_cons. split; [done|]. by apply find_none.
    + apply NoDup_cons. split; [|by apply IH]. apply find_none. rewrite find_insert by done.
      rewrite (proj2 (Z.eqb_neq _ _)) by congruence. by apply find_none.
Qed.
Lemma keys_erase k m : NoDup (keys m) -> NoDup (keys (stream_map.erase k m)).
Proof.
  induction m as [|[k0 r0] m IH]; simpl; intros HN; [done|]. apply NoDup_cons in HN as [Hk HN].
  destruct (k =? k0) eqn:E; [done|]. simpl. apply NoDup_cons. split; [|by apply IH].
  apply find_none. rewrite find_erase by done. apply find_none in Hk. rewrite Hk. by destruct (k0 =? k).
Qed.

(** ** The invariant of one peer against the other *)
Definition msg_ok (m : msg) : Prop := well m /\ is_u32 (g_id m) /\ g_id m <> 0.
Definition rst (x : Z) : msg := mk_msg x T_RST [].
Lemma rst_ok x : is_u32 x -> x <> 0 -> msg_ok (rst x).
Proof. intros. split; [|done]. constructor. tauto. Qed.

Section good.
Context `{memory} {E : Type} `{peer_socket_laws E}.
Context (accept_ctx : Z -> option Z) (accept_some : forall x, accept_ctx x <> None).
(** The other peer: its streams, what its users wrote and read. *)
Context (ost : Z -> option stream) (ow or : Z -> list Z).
Context (ost_ok : forall x t, ost x = Some t -> stream_ok t).
(** The numbers of the streams this side had before. *)
Context (known : Z -> Prop).
Import mux_cargo.
Local Abbreviation mux := (mux E).
Local Abbreviation wpm := (wp (W := mux)).

Definition other (g : list msg) (x : Z) : half := mk_half (ost x) (fl x g) (ow x) (or x).
Definition mine (w : mux) (f : list msg) (W R : Z -> list Z) (x : Z) : half :=
  mk_half (heap_st x (heap w)) (fl x f) (W x) (R x).

(** A reset that waits to be sent answers a stream of the other side. *)
Definition outp_ok (p : packet.t) : Prop :=
  packet.wf p /\ exists x, packet.data p = msg_bytes (rst x) /\ is_u32 x /\ x <> 0 /\ ost x <> None.

Record good (f g : list msg) (W R : Z -> list Z) (w : mux) : Prop := {
  g_att : m_mux_state w = SOCKET_ATTACHED /\ m_so w = true;
  g_sock : so_is_connected (sock w) = true /\ room (sock w);
  g_heap : Forall stream_ok (heap w) /\ NoDup (map id (heap w)) /\ Forall (fun s => ctx s <> None) (heap w);
  g_map : NoDup (keys (m_stream_map w))
    /\ (forall k r, stream_map.find k (m_stream_map w) = Some r -> exists s, heap w !! r = Some s /\ id s = k)
    /\ (forall r s, heap w !! r = Some s ->
          stream_map.find (id s) (m_stream_map w) = Some r
          \/ has STREAM_READ_SHUTDOWN s = true /\ has STREAM_WRITE_SHUTDOWN s = true);
  g_known : forall x, known x -> heap_st x (heap w) <> None;
  g_outps : Forall outp_ok (m_outps w);
  g_fl : Forall msg_ok f /\ Forall msg_ok g;
  g_conn : forall x, conn (mine w f W R x) (other g x)
}.

(** [w] has sent [new] since the socket had sent [base]. *)
Definition at_ (base : list (list Z)) (f g : list msg) (W R : Z -> list Z) (w : mux) : Prop :=
  exists new, sent (sock w) = base ++ map msg_bytes new /\ good (f ++ new) g W R w.

Lemma msg_ok_well l : Forall msg_ok l -> Forall well l.
Proof. intros Hl. eapply Forall_impl; [exact Hl|]. by intros m [? _]. Qed.
Lemma fl_well x l : Forall msg_ok l -> Forall well (fl x l).
Proof.
  intros Hl. apply Forall_forall. intros m Hm. apply list_elem_of_filter in Hm as [_ Hm].
  eapply Forall_forall in Hl as [Hw _]; done.
Qed.

(** A stream changes, and messages of the stream are sent. *)
Lemma good_upd f g g2 W R w r s s' ms W' R' m' : good f g W R w -> heap w !! r = Some s ->
  stream_ok s' -> id s' = id s -> ctx s' <> None ->
  ends s s' -> Forall (fun m => g_id m = id s /\ well m) ms ->
  conn (mk_half (Some s') (fl (id s) f ++ ms) (W' (id s)) (R' (id s))) (other g2 (id s)) ->
  (forall x, x <> id s -> W' x = W x /\ R' x = R x) -> Forall msg_ok g2 -> (forall x, x <> id s -> fl x g2 = fl x g) ->
  m_mux_state w = m_mux_state m' -> m_so w = m_so m' -> same_socket (sock w) (sock m') ->
  m_stream_map w = m_stream_map m' -> m_outps w = m_outps m' -> heap m' = <[r := s']> (heap w) ->
  good (f ++ ms) g2 W' R' m'.
Proof.
  intros [G1 G2 (G3 & G3n & G3c) (G4 & G4f & G4h) GK G5 [G6 G6'] G7] Er Ok Ei Ec Hrs Hms HC HW Hg2 Hfl2 E1 E2 E3 E4 E5 E6.
  assert (Hid : is_u32 (id s) /\ id s <> 0) by (eapply Forall_lookup in G3; [|exact Er]; apply G3).
  assert (Hr : (r < length (heap w))%nat) by (by eapply lookup_lt_Some).
  constructor; rewrite <- ?E1, <- ?E2, <- ?E4, <- ?E5, ?E6; try done.
  - split; [destruct E3 as [-> _]; apply G2 | by eapply room_same; [exact E3 | apply G2]].
  - split; [by apply Forall_insert|]. split; [by rewrite (map_id_insert _ _ s) | by apply Forall_insert].
  - split; [done|]. split.
    + intros k r' Ek. destruct (G4f k r' Ek) as (s0 & E0 & I0). destruct (decide (r = r')) as [<-|Hne].
      * rewrite Er in E0. injection E0 as <-. exists s'. split; [by apply list_lookup_insert_eq | congruence].
      * exists s0. split; [by rewrite list_lookup_insert_ne | done].
    + intros r' s0 E0. destruct (decide (r = r')) as [<-|Hne].
      * rewrite list_lookup_insert_eq in E0 by done. injection E0 as <-. rewrite Ei.
        destruct (G4h r s Er) as [?|[? ?]]; [by left | right]. split; (apply Hrs; [tauto | done]).
      * rewrite list_lookup_insert_ne in E0 by done. by apply G4h.
  - intros x Hx. rewrite (heap_st_insert x _ _ s s') by done. destruct (id s =? x); [done | by apply GK].
  - split; [|done]. apply Forall_app. split; [done|]. eapply Forall_impl; [exact Hms|]. intros m [Hm Hw].
    split; [done|]. by rewrite Hm.
  - intros x. unfold mine. rewrite E6, (heap_st_insert x _ _ s s') by done. rewrite fl_app.
    assert (Hms' : Forall (fun m => g_id m = id s) ms) by (eapply Forall_impl; [exact Hms | by intros m [? _]]).
    destruct (Z.eqb_spec (id s) x) as [<-|Hne].
    + by rewrite (fl_all (id s) ms).
    + rewrite (fl_other (id s) x ms) by done. rewrite app_nil_r. destruct (HW x) as [-> ->]; [done|]. unfold other. rewrite Hfl2 by done. apply G7.
Qed.

(** The connection of a stream of the heap. *)
Lemma good_conn_of f g W R w r s : good f g W R w -> heap w !! r = Some s ->
  conn (mk_half (Some s) (fl (id s) f) (W (id s)) (R (id s))) (other g (id s)) /\ stream_ok s /\ ctx s <> None.
Proof.
  intros [_ _ (G3 & G3n & G3c) _ _ _ _ G7] Er. specialize (G7 (id s)). unfold mine in G7.
  rewrite (heap_st_lookup _ r s) in G7 by done. split; [done|].
  split; [by eapply Forall_lookup in G3 | by eapply (Forall_lookup_1 _ _ _ _ G3c)].
Qed.
Lemma other_ok g x t : h_st (other g x) = Some t -> stream_ok t.
Proof. apply ost_ok. Qed.

Lemma on_stream_wp {A} r (fn : stream -> res (stream * A)) w Q s s' a : heap w !! r = Some s ->
  fn s = Ok (s', a) -> Q (set_heap (<[r := s']> (heap w)) w) a -> wpm (on_stream r fn) w Q.
Proof. intros Er Ef HQ. unfold wp, on_stream. rewrite Er, Ef. done. Qed.
Lemma stream_of_wp r w Q s : heap w !! r = Some s -> Q w s -> wpm (stream_of r) w Q.
Proof.
  intros Er HQ. unfold stream_of. eapply on_stream_wp; [exact Er | done|]. rewrite list_insert_id by done. by destruct w.
Qed.
Lemma on_m_so_wp {A} (m : M E A) w Q : m_so w = true ->
  wp m (sock w) (fun e a => Q (set_sock e w) a) -> wpm (on_m_so m) w Q.
Proof. intros Hs Hm. unfold on_m_so, get. rewrite wp_bind, wp_gets, Hs, wp_zoom. done. Qed.

(** *** What the user does with a stream *)
Lemma good_user {A} f g W R w r s (fn : stream -> res (stream * A)) s' a bw br : good f g W R w -> heap w !! r = Some s ->
  fn s = Ok (s', a) -> stream_ok s' -> user_step s s' bw br ->
  wpm (on_stream r fn) w (fun w' a' => a' = a /\ sock w' = sock w
    /\ good f g (fun x => if x =? id s then W x ++ bw else W x) (fun x => if x =? id s then R x ++ br else R x) w').
Proof.
  intros HG Er Ef Ok Hu. destruct (good_conn_of _ _ _ _ _ _ _ HG Er) as (HC & HO & Hc).
  eapply on_stream_wp; [exact Er | exact Ef|]. split; [done|]. split; [done|].
  rewrite <- (app_nil_r f). eapply (good_upd f g g W R w r s s' []); try done.
  - apply Hu.
  - rewrite (u_ctx _ _ _ _ Hu). done.
  - intros f0 [->| ->]; apply Hu.
  - rewrite app_nil_r, Z.eqb_refl. eapply conn_user; try done; [apply other_ok | apply fl_well, HG].
  - intros x Hx. by rewrite (proj2 (Z.eqb_neq _ _)).
  - apply HG.
Qed.

(** *** The tick *)

(** Nothing changes but the socket's business, the resets that wait and the events. *)
Lemma good_frame f g W R w m' : good f g W R w -> m_mux_state m' = m_mux_state w -> m_so m' = m_so w ->
  same_socket (sock w) (sock m') -> m_stream_map m' = m_stream_map w -> heap m' = heap w -> Forall outp_ok (m_outps m') ->
  good f g W R m'.
Proof.
  intros [G1 G2 G3 G4 GK G5 G6 G7] E1 E2 E3 E4 E5 E6. constructor; unfold mine; rewrite ?E1, ?E2, ?E4, ?E5; try done.
  split; [destruct E3 as [-> _]; apply G2 | by eapply room_same; [exact E3 | apply G2]].
Qed.
Lemma good_rst f g W R w x : good f g W R w -> is_u32 x -> x <> 0 -> ost x <> None -> good (f ++ [rst x]) g W R w.
Proof.
  intros [G1 G2 G3 G4 GK G5 [G6 G6'] G7] Hu Hn Ho. constructor; try done.
  - split; [|done]. apply Forall_app. split; [done | by apply Forall_singleton, rst_ok].
  - intros y. unfold mine. rewrite fl_app. destruct (Z.eqb_spec x y) as [<-|Hne].
    + rewrite (fl_all x [rst x]) by (by apply Forall_singleton). by apply (conn_rst (mine w f W R x)).
    + rewrite (fl_other x y [rst x]) by (done || by apply Forall_singleton). rewrite app_nil_r. apply G7.
Qed.

Lemma at_frame base f g W R w m' : at_ base f g W R w -> m_mux_state m' = m_mux_state w -> m_so m' = m_so w ->
  sock m' = sock w -> m_stream_map m' = m_stream_map w -> heap m' = heap w -> m_outps m' = m_outps w ->
  at_ base f g W R m'.
Proof.
  intros (new & Es & HG) E1 E2 E3 E4 E5 E6. exists new. rewrite E3. split; [done|]. eapply good_frame; try done.
  - by rewrite E3.
  - rewrite E6. apply HG.
Qed.

(** Sending the reset of a stream the other side has. *)
Lemma send_rst_spec base f g W R w p x (l : list packet.t) : at_ base f g W R w -> packet.wf p -> packet.data p = msg_bytes (rst x) ->
  is_u32 x -> x <> 0 -> ost x <> None ->
  wpm (on_m_so (so_send_packet p)) w (fun w' rc => (rc = OK \/ rc = E_SOCKET_SEND_BLOCK)
    /\ w' = set_sock (sock w') w /\ at_ base f g W R w').
Proof.
  intros (new & Es & HG) Wp Dp Hu Hn Ho. apply on_m_so_wp; [apply HG|]. destruct (g_sock _ _ _ _ _ HG) as [HK HR].
  destruct (send_law p (sock w) Wp) as (e' & rc & Ep & Hrc & Hs & HS).
  { rewrite Dp, zlen_msg_bytes. change (zlen (g_data (rst x))) with 0. unfold room, big in HR. lia. }
  unfold wp. rewrite Ep. split; [done|]. split; [done|].
  assert (HF : forall f, good f g W R w -> good f g W R (set_sock e' w)) by (intros f' HG'; eapply good_frame; try done; apply HG').
  destruct Hrc as [->| ->].
  - exists (new ++ [rst x]). split; [cbn; by rewrite Hs, Es, Dp, map_app, app_assoc|].
    rewrite app_assoc. by apply HF, good_rst.
  - exists new. split; [cbn; by rewrite Hs, Es|]. by apply HF.
Qed.

Lemma outps_loop_spec base f g W R l : forall w, at_ base f g W R w -> m_outps w = l ->
  wpm (outps_loop l) w (fun w' _ => at_ base f g W R w').
Proof.
  induction l as [|p l IH]; intros w HA El; cbn [outps_loop]; [by rewrite wp_ret|].
  assert (HP : outp_ok p /\ Forall outp_ok l).
  { destruct HA as (new & _ & HG). pose proof (g_outps _ _ _ _ _ HG) as Ho. rewrite El in Ho. by apply Forall_cons in Ho. }
  destruct HP as [(Wp & x & Dp & Hu & Hn & Ho) Hl]. rewrite wp_bind.
  eapply wp_mono; [by eapply (send_rst_spec base f g W R w p x l)|]. intros w' rc (Hrc & Ew & HA').
  destruct (rc =? E_SOCKET_SEND_BLOCK); [by rewrite wp_ret|]. rewrite wp_bind, wp_modify. apply IH; [|done].
  destruct HA' as (new & Es & HG). exists new. split; [done|]. by eapply good_frame.
Qed.

Lemma good_update fuel base f g W R w r s : (2 <= fuel)%nat -> at_ base f g W R w -> heap w !! r = Some s ->
  wpm (on_stream_so r (stream.update fuel)) w (fun w' p => at_ base f g W R w'
    /\ m_stream_map w' = m_stream_map w /\ exists s', heap w' !! r = Some s' /\ p.1 = state s' /\ id s' = id s).
Proof.
  intros Hfu (new & Es & HG) Er. destruct (good_conn_of _ _ _ _ _ _ _ HG Er) as (HC & HO & Hc).
  destruct (g_sock _ _ _ _ _ HG) as [HK HR]. pose proof (update_emits fuel s (sock w) Hfu HO HR) as HU.
  unfold wp, on_stream_so in *. rewrite Er. destruct (stream.update fuel (s, sock w)) as [[[s' e'] p]|fl0]; [|done].
  destruct HU as [(HO' & HS & _ & ms & HE & HT) Hp]. cbn [fst snd] in *. cbn [mbind res_bind].
  destruct (emits_facts s ms s' HE) as (Ei & Ec & Hrs & Hms). split; [|split; [done|]].
  - exists (new ++ ms). split; [cbn; by rewrite HT, Es, map_app, app_assoc|]. rewrite app_assoc.
    eapply (good_upd (f ++ new) g g W R w r s s' ms); try done; [congruence | by eapply conn_emits | apply HG].
  - exists s'. split; [|done]. cbn. apply list_lookup_insert_eq. by eapply lookup_lt_Some.
Qed.

Lemma good_erase f g W R w r s : good f g W R w -> heap w !! r = Some s -> has STREAM_READ_SHUTDOWN s = true ->
  has STREAM_WRITE_SHUTDOWN s = true -> good f g W R (set_m_stream_map (stream_map.erase (id s) (m_stream_map w)) w).
Proof.
  intros [G1 G2 G3 (G4 & G4f & G4h) GK G5 G6 G7] Er Hrs Hws. constructor; try done. cbn. split; [by apply keys_erase|]. split.
  - intros k r' Ek. rewrite find_erase in Ek by done. destruct (k =? id s); [done | by apply G4f].
  - intros r' s' E'. rewrite find_erase by done. destruct (Z.eqb_spec (id s') (id s)) as [Ei|]; [|by apply G4h].
    right. destruct G3 as (_ & HN & _). pose proof (heap_st_lookup _ _ _ HN Er) as H1'. pose proof (heap_st_lookup _ _ _ HN E') as H2'.
    rewrite Ei in H2'. rewrite H1' in H2'. injection H2' as <-. done.
Qed.

Lemma tick_stream_spec fuel base f g W R k r l w : (2 <= fuel)%nat -> at_ base f g W R w ->
  NoDup (keys ((k, r) :: l)) -> (forall k' r', (k', r') ∈ (k, r) :: l -> stream_map.find k' (m_stream_map w) = Some r') ->
  wpm (tick_stream fuel false (k, r)) w (fun w' _ => at_ base f g W R w'
    /\ forall k' r', (k', r') ∈ l -> stream_map.find k' (m_stream_map w') = Some r').
Proof.
  intros Hfu HA HN Hl. assert (HF := Hl k r ltac:(by left)).
  assert (exists s, heap w !! r = Some s /\ id s = k) as (s & Er & Ei).
  { destruct HA as (new & _ & HG). by apply (g_map _ _ _ _ _ HG). }
  unfold tick_stream. cbn [when]. rewrite wp_bind, wp_ret, wp_bind. eapply wp_mono; [by apply good_update|].
  intros w' [st wflag] (HA' & Em & s' & Er' & Hst & Ei'). cbn [fst] in Hst. rewrite wp_bind.
  apply (stream_of_wp r w' _ s' Er'). rewrite <- Em in Hl, HF.
  assert (HD : forall e, at_ base f g W R (set_scheduled (scheduled w' ++ e) w')) by (intros e; by eapply at_frame).
  destruct (bool_decide_reflect (st = SS_RECYCLE)) as [Hrec|_].
  - assert (HNk : NoDup (keys (m_stream_map w'))) by (destruct HA' as (new & _ & HG); apply (g_map _ _ _ _ _ HG)).
    rewrite wp_bind, wp_modify. unfold oschedule. rewrite wp_modify. cbn [m_stream_map set_scheduled set_m_stream_map].
    split.
    + destruct HA' as (new & Es & HG). exists new. split; [done|]. rewrite <- Ei, <- Ei'.
      destruct (good_conn_of _ _ _ _ _ _ _ HG Er') as (_ & HO & _). eapply good_frame; [eapply good_erase; [exact HG | exact Er'| |]|..]; try done; [| |apply HG].
      * apply (ok_closed s' HO). congruence.
      * apply (ok_recycle s' HO). congruence.
    + intros k' r' Hin. rewrite find_erase by done. apply NoDup_cons in HN as [Hk _].
      destruct (Z.eqb_spec k' k) as [->|_]; [|apply Hl; by right]. exfalso. apply Hk. apply list_elem_of_fmap. by exists (k, r').
  - unfold oschedule. rewrite wp_bind, wp_when. destruct (flag_on wflag STREAM_WRITE_BLOCKED); rewrite ?wp_modify, wp_when;
      (destruct (flag_on wflag STREAM_WRITE_UNBLOCKED); rewrite ?wp_modify);
      (split; [by eapply at_frame; [exact HA'|..] | intros k' r' Hin; apply Hl; by right]).
Qed.

Lemma good_tick fuel base f g W R w : (2 <= fuel)%nat -> at_ base f g W R w ->
  wpm (_do_tick fuel) w (fun w' _ => at_ base f g W R w').
Proof.
  intros Hfu HA. unfold _do_tick, get. rewrite wp_bind, wp_gets, wp_bind.
  eapply wp_mono; [by apply (outps_loop_spec base f g W R (m_outps w))|]. intros w' go_on HA'.
  destruct go_on; cbn [negb]; [|by rewrite wp_ret]. rewrite wp_bind, wp_gets.
  assert (negb (m_so w') || negb (so_is_connected (sock w')) = false) as ->.
  { destruct HA' as (new & _ & HG). destruct (g_att _ _ _ _ _ HG) as [_ ->]. by destruct (g_sock _ _ _ _ _ HG) as [-> _]. }
  eapply wp_mono; [apply (wp_iter _ (fun l w => at_ base f g W R w /\ NoDup (keys l)
    /\ forall k r, (k, r) ∈ l -> stream_map.find k (m_stream_map w) = Some r))|].
  - split; [done|]. destruct HA' as (new & _ & HG). destruct (g_map _ _ _ _ _ HG) as (HN & _ & _).
    split; [done|]. intros k r Hin. by apply find_in.
  - intros [k r] l w2 (HA2 & HN & Hl). eapply wp_mono; [by apply (tick_stream_spec fuel base f g W R k r l)|].
    intros w3 [] [HA3 Hl3]. split; [done|]. split; [by apply NoDup_cons in HN as [_ HN]|]. done.
  - intros w2 [] (HA2 & _). done.
Qed.

(** *** What arrives *)
Lemma fl_here m g : fl (g_id m) (m :: g) = m :: fl (g_id m) g.
Proof. unfold fl. by rewrite filter_cons_True. Qed.
Lemma fl_there x m g : x <> g_id m -> fl x (m :: g) = fl x g.
Proof. intros Hx. unfold fl. by rewrite filter_cons_False by congruence. Qed.

(** A message that changes no stream of this side. *)
Lemma good_drop f m g W R w : good f (m :: g) W R w -> conn (mine w f W R (g_id m)) (other g (g_id m)) -> good f g W R w.
Proof.
  intros [G1 G2 G3 G4 GK G5 [G6 G6'] G7] HC. apply Forall_cons in G6' as [_ G6']. constructor; try done.
  intros x. destruct (decide (x = g_id m)) as [->|Hne]; [done|]. specialize (G7 x). unfold other in *. by rewrite fl_there in G7.
Qed.
Lemma at_drop base f m g W R w : at_ base f (m :: g) W R w ->
  (forall new, good (f ++ new) (m :: g) W R w -> conn (mine w (f ++ new) W R (g_id m)) (other g (g_id m))) -> at_ base f g W R w.
Proof. intros (new & Es & HG) HC. exists new. split; [done|]. eapply good_drop; [exact HG | by apply HC]. Qed.

Lemma snd_rst_spec base f g W R w x : at_ base f g W R w -> is_u32 x -> x <> 0 -> ost x <> None ->
  wpm (_stream_snd_rst x) w (fun w' _ => at_ base f g W R w').
Proof.
  intros HA Hu Hn Ho. assert (HG := HA). destruct HG as (new & _ & HG). destruct (g_att _ _ _ _ _ HG) as [Ha Hs].
  unfold _stream_snd_rst, get. rewrite wp_bind, wp_gets, wp_bind, wp_assert. split; [by apply bool_decide_eq_true|].
  rewrite wp_bind, wp_assert. split; [done|].
  destruct (packet.make_holds packet.INIT_RIGHT_CAPACITY) as (p & -> & Hp & _); [done|]. rewrite wp_bind, wp_lift, wp_bind.
  destruct (packet.write_left_T_holds 2 p (Z.land T_RST 65535) _ _ Hp) as (p1 & -> & Hp1); [lia | done..|]. rewrite wp_lift, wp_bind.
  destruct (packet.write_left_T_holds 4 p1 x _ _ Hp1) as (p2 & -> & (W2 & D2 & _)); [lia | done..|]. rewrite wp_lift, wp_bind.
  assert (Hd : packet.data p2 = msg_bytes (rst x)) by (rewrite D2; done).
  eapply wp_mono; [by eapply (send_rst_spec base f g W R w p2 x [])|]. intros w' rc (Hrc & Ew & HA').
  destruct (rc =? E_SOCKET_SEND_BLOCK); cbn [when]; [|by rewrite wp_ret]. rewrite wp_modify.
  destruct HA' as (new' & Es & HG'). exists new'. split; [done|]. eapply good_frame; try done. cbn.
  apply Forall_app. split; [apply HG' | apply Forall_singleton]. split; [done|]. by exists x.
Qed.

(** The stream a message is for. *)
Lemma mine_at f g W R w r s : good f g W R w -> heap w !! r = Some s ->
  mine w f W R (id s) = mk_half (Some s) (fl (id s) f) (W (id s)) (R (id s)).
Proof. intros HG Er. unfold mine. by rewrite (heap_st_lookup _ r s) by (done || apply HG). Qed.

(** A message that changes the stream it is for. *)
Lemma at_arrive base f m g W R w r s s' : at_ base f (m :: g) W R w -> heap w !! r = Some s -> id s = g_id m ->
  stream_ok s' -> id s' = id s -> ctx s' = ctx s -> ends s s' ->
  (forall h, Forall well (h_fl h) -> (exists f' w' r', h = mk_half (Some s) f' w' r') ->
     conn h (mk_half (ost (id s)) (m :: fl (id s) g) (ow (id s)) (or (id s))) ->
     conn (mk_half (Some s') (h_fl h) (h_w h) (h_r h)) (other g (id s))) ->
  at_ base f g W R (set_heap (<[r := s']> (heap w)) w).
Proof.
  intros (new & Es & HG) Er Em Ok Ei Ec He HC. exists new. split; [done|].
  destruct (good_conn_of _ _ _ _ _ _ _ HG Er) as (HC0 & HO & Hc). rewrite <- (app_nil_r (f ++ new)).
  eapply (good_upd (f ++ new) (m :: g) g W R w r s s' []); try done; [congruence | | |].
  - rewrite app_nil_r. apply (HC (mk_half (Some s) (fl (id s) (f ++ new)) (W (id s)) (R (id s)))).
    + apply fl_well, HG.
    + by eexists _, _, _.
    + rewrite Em. unfold other in HC0. rewrite Em, fl_here in HC0. by rewrite Em in HC0 || done.
  - destruct (g_fl _ _ _ _ _ HG) as [_ Hg]. by apply Forall_cons in Hg as [_ Hg].
  - intros x Hx. rewrite fl_there by congruence. done.
Qed.

(** What is known when a message arrives for a stream of the heap. *)
Lemma at_conn base f m g W R w r s : at_ base f (m :: g) W R w -> heap w !! r = Some s -> id s = g_id m ->
  exists new, let f' := fl (id s) (f ++ new) in
    conn (mk_half (Some s) f' (W (id s)) (R (id s))) (mk_half (ost (id s)) (m :: fl (id s) g) (ow (id s)) (or (id s)))
    /\ Forall well f' /\ Forall well (fl (id s) g) /\ stream_ok s /\ ctx s <> None /\ msg_ok m
    /\ good (f ++ new) (m :: g) W R w.
Proof.
  intros (new & Es & HG) Er Em. exists new. destruct (good_conn_of _ _ _ _ _ _ _ HG Er) as (HC & HO & Hc).
  unfold other in HC. rewrite Em, fl_here in HC. rewrite Em. destruct (g_fl _ _ _ _ _ HG) as [Hf Hg].
  apply Forall_cons in Hg as [Hm Hg]. split; [done|]. split; [by apply fl_well|]. split; [by apply fl_well | done].
Qed.

(** An answer that does not touch the stream. *)
Lemma at_drop_st base f m g W R w r s : at_ base f (m :: g) W R w -> heap w !! r = Some s -> id s = g_id m ->
  (forall f', conn (mk_half (Some s) f' (W (id s)) (R (id s))) (mk_half (ost (id s)) (m :: fl (id s) g) (ow (id s)) (or (id s))) ->
     Forall well f' ->
     conn (mk_half (Some s) f' (W (id s)) (R (id s))) (other g (id s))) -> at_ base f g W R w.
Proof.
  intros HA Er Em HC. apply (at_drop base f m); [done|]. intros new HG. rewrite <- Em, (mine_at _ _ _ _ w r) by done.
  apply HC; [|apply fl_well, HG]. destruct (good_conn_of _ _ _ _ _ _ _ HG Er) as (HC0 & _).
  unfold other in HC0. rewrite Em, fl_here in HC0. by rewrite Em.
Qed.

Lemma at_trigger base f g W R w e : at_ base f g W R w -> at_ base f g W R (set_events e w).
Proof. intros HA. by eapply at_frame. Qed.

Lemma on_data_spec base f g W R w r s d p : at_ base f (mk_msg (id s) T_DATA d :: g) W R w -> heap w !! r = Some s ->
  d <> [] -> packet.wf p -> packet.data p = d ->
  wpm (on_data (id s) r p) w (fun w' _ => at_ base f g W R w').
Proof.
  intros HA Er Hd Wp Dp. destruct (at_conn _ _ _ _ _ _ _ _ _ HA Er eq_refl) as (new & HC & Hf & Hg & HO & Hc & (_ & Hu & Hn) & HG).
  destruct (conn_arrive_data _ _ _ _ _ _ _ _ _ _ HC HO (ost_ok _) Hf Hg) as (Ho & Hshut & Hopen).
  unfold on_data. rewrite wp_bind. apply (stream_of_wp r w _ s Er). destruct (has STREAM_READ_SHUTDOWN s) eqn:Hr.
  - apply snd_rst_spec; [|done..]. eapply at_drop_st; [exact HA | exact Er | done|]. intros f' HC' Hf'.
    destruct (conn_arrive_data _ _ _ _ _ _ _ _ _ _ HC' HO (ost_ok _) Hf' Hg) as (_ & Hx & _). by apply Hx.
  - destruct (Hopen eq_refl) as [Hfit _]. rewrite packet.len_val, Dp by done. rewrite wp_bind, wp_lift, wp_bind, wp_assert.
    split; [by apply Z.leb_le|]. assert (Hp : 0 < zlen d) by (by apply zlen_pos).
    destruct (ring_write (rb s) d (ok_rb s HO) Hp Hfit) as (rb' & Ew & Ok' & Dw). rewrite wp_bind.
    eapply on_stream_wp; [exact Er | by rewrite Ew|]. unfold trigger. rewrite wp_modify. apply at_trigger.
    eapply (at_arrive base f (mk_msg (id s) T_DATA d)); [exact HA | exact Er | done | | done | done | by intros ? | ].
    + destruct HO. by constructor.
    + intros h Hh (f' & w' & r' & ->) HC'. cbn [h_fl h_w h_r] in *.
      destruct (conn_arrive_data _ _ _ _ _ _ _ _ _ _ HC' HO (ost_ok _) Hh Hg) as (_ & _ & Hx). by apply Hx.
Qed.

Lemma on_fin_spec base f g W R w r s : at_ base f (mk_msg (id s) T_FIN [] :: g) W R w -> heap w !! r = Some s ->
  wpm (on_fin r) w (fun w' _ => at_ base f g W R w').
Proof.
  intros HA Er. destruct (at_conn _ _ _ _ _ _ _ _ _ HA Er eq_refl) as (new & HC & _ & _ & _ & Hc & _).
  unfold on_fin. rewrite wp_bind. apply (stream_of_wp r w _ s Er). rewrite wp_bind, wp_assert.
  split; [by apply bool_decide_eq_true|]. unfold trigger. rewrite wp_modify. apply at_trigger.
  eapply at_drop_st; [exact HA | exact Er | done|]. intros f' HC' _. eapply conn_arrive_end; [exact HC' | by left].
Qed.

Lemma on_rst_spec base f g W R w r s : at_ base f (rst (id s) :: g) W R w -> heap w !! r = Some s ->
  wpm (on_stream r (fun s => Ok (stream._force_close s, tt))) w (fun w' _ => at_ base f g W R w').
Proof.
  intros HA Er. destruct (at_conn _ _ _ _ _ _ _ _ _ HA Er eq_refl) as (new & HC & _ & _ & HO & Hc & _).
  destruct (force_close_ok s HO) as [Ok' HQ]. eapply on_stream_wp; [exact Er | done|].
  eapply (at_arrive base f (rst (id s))); [exact HA | exact Er | done | done | apply HQ | apply HQ | |].
  - intros f0 [->| ->]; apply HQ.
  - intros h Hh (f' & w' & r' & ->) HC'. eapply conn_quiet; [|exact HQ]. eapply conn_arrive_end; [exact HC' | by right].
Qed.

Lemma on_uwnd_spec base f g W R w r s n p :
  at_ base f (mk_msg (id s) T_UWND (bytes_helper.write_impl 4 n) :: g) W R w -> heap w !! r = Some s ->
  is_u32 n -> packet.wf p -> packet.data p = bytes_helper.write_impl 4 n ->
  wpm (on_uwnd r p) w (fun w' _ => at_ base f g W R w').
Proof.
  intros HA Er Hn Wp Dp. destruct (at_conn _ _ _ _ _ _ _ _ _ HA Er eq_refl) as (new & HC & Hf & Hg & HO & Hc & _).
  unfold on_uwnd. rewrite packet.len_val, Dp, bytes_helper.zlen_write_impl by done. rewrite wp_bind, wp_lift, wp_bind, wp_assert.
  split; [done|]. destruct (read_T_head 4 n [] p Wp) as (p' & -> & _); [by rewrite app_nil_r|].
  rewrite wp_bind, wp_lift, (Z.mod_small n) by done. eapply on_stream_wp; [exact Er | done|].
  eapply (at_arrive base f (mk_msg (id s) T_UWND (bytes_helper.write_impl 4 n))); [exact HA | exact Er | done | | done | done | by intros ? |].
  - pose proof (u32_range (wb_wnd s + n)). destruct HO. constructor; try done. cbn. change MUX_STREAM_WND_SIZE with big. unfold is_u32 in *. split; lia.
  - intros h Hh (f' & w' & r' & ->) HC'. cbn [h_fl h_w h_r] in *. by apply (conn_arrive_uwnd _ _ _ _ _ _ _ _ _ _ HC' HO (ost_ok _) Hh Hg).
Qed.

(** *** A new stream *)
Definition with_stream (s : stream) (w : mux) : mux :=
  set_m_stream_map (stream_map.insert (id s) (length (heap w)) (m_stream_map w)) (set_heap (heap w ++ [s]) w).

Lemma good_add f g g2 W R w s m' : good f g W R w -> heap_st (id s) (heap w) = None ->
  stream_ok s -> ctx s <> None -> Forall msg_ok g2 -> (forall x, x <> id s -> fl x g2 = fl x g) ->
  conn (mk_half (Some s) (fl (id s) f) (W (id s)) (R (id s))) (other g2 (id s)) ->
  m_mux_state m' = m_mux_state w -> m_so m' = m_so w -> sock m' = sock w -> m_outps m' = m_outps w ->
  heap m' = heap w ++ [s] -> m_stream_map m' = stream_map.insert (id s) (length (heap w)) (m_stream_map w) ->
  good f g2 W R m'.
Proof.
  intros [G1 G2 (G3 & G3n & G3c) (G4 & G4f & G4h) GK G5 [G6 G6'] G7] Hh Ok Hc Hg2 Hfl HC E1 E2 E3 E4 E5 E6.
  assert (Hf : stream_map.find (id s) (m_stream_map w) = None).
  { destruct (stream_map.find (id s) (m_stream_map w)) as [r|] eqn:Ef; [|done]. destruct (G4f _ _ Ef) as (s0 & E0 & I0).
    rewrite <- I0, (heap_st_lookup _ r s0) in Hh by done. done. }
  constructor; rewrite ?E1, ?E2, ?E3, ?E4, ?E5, ?E6; try done.
  - split; [by apply Forall_app; split; [|apply Forall_singleton]|].
    split; [|by apply Forall_app; split; [|apply Forall_singleton]]. rewrite map_app. apply NoDup_app.
    split; [done|]. split; [|apply NoDup_singleton]. intros x Hx Hx'. apply list_elem_of_singleton in Hx'. simpl in Hx'. subst x.
    apply list_elem_of_fmap in Hx as (s0 & E0 & Hin). apply heap_st_none in Hh. eapply Forall_forall in Hh; [|exact Hin]. by destruct Hh.
  - split; [by apply keys_insert|]. split.
    + intros k r Ek. rewrite find_insert in Ek by done. destruct (Z.eqb_spec k (id s)) as [->|Hne].
      * injection Ek as <-. exists s. split; [|done]. by rewrite lookup_app_r, Nat.sub_diag by lia.
      * destruct (G4f _ _ Ek) as (s0 & E0 & I0). exists s0. split; [by apply lookup_app_l_Some | done].
    + intros r s0 E0. rewrite find_insert by done. apply lookup_app_Some in E0 as [E0|[Hr E0]].
      * destruct (Z.eqb_spec (id s0) (id s)) as [Ei|]; [|by apply G4h].
        rewrite <- Ei, (heap_st_lookup _ r s0) in Hh by done. done.
      * assert (r = length (heap w) /\ s0 = s) as [-> ->].
        { destruct (r - length (heap w))%nat as [|k] eqn:Er; simpl in E0; [|done]. injection E0 as <-. split; [lia | done]. }
        left. by rewrite Z.eqb_refl.
  - intros x Hx. destruct (decide (id s = x)) as [<-|Hne]; [by destruct (GK (id s) Hx)|].
    rewrite heap_st_app_ne by done. by apply GK.
  - intros x. unfold mine. rewrite E5. destruct (decide (id s = x)) as [<-|Hne].
    + rewrite heap_st_app by done. by rewrite Z.eqb_refl.
    + rewrite heap_st_app_ne by done. unfold other. rewrite Hfl by done. apply G7.
Qed.

Lemma heap_none f m g W R w : good f (m :: g) W R w -> g_type m = T_SYN -> heap_st (g_id m) (heap w) = None.
Proof.
  intros HG Hm. destruct (heap_st (g_id m) (heap w)) as [s|] eqn:Es; [|done]. exfalso.
  pose proof (g_conn _ _ _ _ _ HG (g_id m)) as HC. unfold mine, other in HC. rewrite Es, fl_here in HC.
  by apply conn_arrive_syn in HC.
Qed.
Lemma find_heap_none f g W R w x : good f g W R w -> heap_st x (heap w) = None -> stream_map.find x (m_stream_map w) = None.
Proof.
  intros HG Hh. destruct (stream_map.find x (m_stream_map w)) as [r|] eqn:Ef; [|done].
  destruct (g_map _ _ _ _ _ HG) as (_ & Hf & _). destruct (Hf _ _ Ef) as (s & Er & Ei).
  rewrite <- Ei, (heap_st_lookup _ r s) in Hh by (done || apply HG). done.
Qed.

Lemma on_syn_spec base f g W R w x p : at_ base f (mk_msg x T_SYN [] :: g) W R w -> packet.wf p -> packet.data p = [] ->
  wpm (on_syn accept_ctx x p) w (fun w' _ => at_ base f g W R w').
Proof.
  intros (new & Es & HG) Wp Dp. set (m := mk_msg x T_SYN []) in *. assert (Hh := heap_none _ _ _ _ _ _ HG eq_refl).
  change (g_id m) with x in Hh. destruct (g_fl _ _ _ _ _ HG) as [_ Hg]. apply Forall_cons in Hg as [(_ & Hu & Hn) Hg].
  unfold on_syn. rewrite packet.len_val, Dp by done. rewrite wp_bind, wp_lift, wp_bind, wp_assert. split; [done|].
  unfold get. rewrite wp_bind, wp_gets, (find_heap_none _ _ _ _ _ x HG Hh), wp_bind.
  destruct (init_fresh None x 0 Hu Hn ltac:(by left)) as (s & -> & Ok & Hf & Ei & Ec & Hsyn). rewrite wp_lift. cbn beta.
  unfold add_stream, get, trigger. rewrite !wp_bind, wp_gets, !wp_bind, wp_modify, !wp_bind, wp_modify, wp_ret, wp_bind, wp_modify.
  cbn beta.
  set (s' := set_ctx (accept_ctx x) s).
  assert (Hlast : (heap w ++ [s]) !! length (heap w) = Some s) by (by rewrite lookup_app_r, Nat.sub_diag by lia).
  eapply (on_stream_wp _ _ _ _ s s'); [exact Hlast | done|]. cbn beta.
  exists new. split; [done|]. eapply (good_add (f ++ new) (m :: g) g W R w s'); try done.
  - cbn. by rewrite Ei.
  - destruct Ok. by constructor.
  - apply accept_some.
  - intros y Hy. rewrite fl_there; [done|]. change (g_id m) with x. change (id s') with (id s) in Hy. congruence.
  - pose proof (g_conn _ _ _ _ _ HG (g_id m)) as HC. unfold mine, other in HC. rewrite fl_here in HC.
    change (g_id m) with x in HC. rewrite Hh in HC. change (id s') with (id s). rewrite Ei.
    destruct (conn_arrive_none _ _ _ _ _ _ _ _ HC) as (_ & [(_ & Hx)|([Hx|Hx] & _)]); [|discriminate Hx..].
    apply Hx; [by destruct Hf|]. exact Hsyn.
  - cbn. rewrite insert_app_r_alt by lia. by rewrite Nat.sub_diag.
  - cbn. by rewrite Ei.
Qed.

(** The user opens a stream that neither side knows. *)
Lemma good_open base f g W R w x c : at_ base f g W R w -> is_u32 x -> x <> 0 ->
  heap_st x (heap w) = None -> ost x = None ->
  wpm (stream_open x (Some c)) w (fun w' o => o = (Some (length (heap w)), OK) /\ at_ base f g W R w').
Proof.
  intros (new & Es & HG) Hu Hn Hh Ho. destruct (g_att _ _ _ _ _ HG) as [Ha _].
  unfold stream_open, get. rewrite wp_bind, wp_gets, bool_decide_true by done. cbn [negb].
  rewrite (find_heap_none _ _ _ _ _ x HG Hh). unfold stream.open, stream.make. cbn [n_id n_state n_flag].
  change (0 =? 0) with true. rewrite bool_decide_true by done. res_simpl. change (flag_on 0 STREAM_PLAN_SYN) with false. cbn [negb check].
  res_simpl. rewrite wp_bind, wp_lift. cbn beta iota. change (negb (OK =? OK)) with false. cbn iota. rewrite wp_bind.
  destruct (init_fresh (Some c) x STREAM_PLAN_SYN Hu Hn ltac:(by right)) as (s & Ei0 & Ok & Hf & Ei & Ec & Hsyn).
  change (flag_set 0 STREAM_PLAN_SYN) with STREAM_PLAN_SYN. rewrite Ei0, wp_lift. cbn beta.
  unfold add_stream, get. rewrite !wp_bind, wp_gets, !wp_bind, wp_modify, !wp_bind, wp_modify, wp_ret, wp_ret. cbn beta.
  split; [done|]. exists new. split; [done|]. eapply (good_add (f ++ new) g g W R w s); try done.
  - by rewrite Ei.
  - by rewrite Ec.
  - apply HG.
  - pose proof (g_conn _ _ _ _ _ HG x) as HC. unfold mine, other in *. rewrite Hh, Ho in HC. rewrite Ei, Ho.
    by apply conn_open.
  - cbn. by rewrite Ei.
Qed.

(** *** Any message *)

(** A message for a stream that is not there, or not any more. *)
Lemma missing_drop base f m g W R w : at_ base f (m :: g) W R w -> stream_map.find (g_id m) (m_stream_map w) = None ->
  g_type m <> T_SYN -> at_ base f g W R w /\ (g_type m <> T_RST -> ost (g_id m) <> None).
Proof.
  intros HA Hf Hm. assert (HG := HA). destruct HG as (new & _ & HG). destruct (g_fl _ _ _ _ _ HG) as [_ Hg].
  apply Forall_cons in Hg as [(Hw & _) Hg]. destruct (heap_st (g_id m) (heap w)) as [s|] eqn:Hh.
  - destruct (heap_st_id _ _ _ Hh) as (Ei & r & Er). destruct (g_map _ _ _ _ _ HG) as (_ & _ & Hin).
    destruct (Hin r s Er) as [Hx|[HR HWr]]; [congruence|].
    destruct (good_conn_of _ _ _ _ _ _ _ HG Er) as (HC & HO & _). split.
    + eapply at_drop_st; [exact HA | exact Er | done|]. intros f' HC' Hf'.
      destruct Hw as [sid t Ht|sid d Hd|sid n Hn]; cbn [g_id g_type] in *.
      * eapply conn_arrive_end; [exact HC'|]. cbn. destruct Ht as [->|[->| ->]]; tauto.
      * destruct (conn_arrive_data _ _ _ _ _ _ _ _ _ _ HC' HO (ost_ok _) Hf' (fl_well _ _ Hg)) as (_ & Hx & _). by apply Hx.
      * by eapply conn_arrive_lost.
    + intros Ht. rewrite <- Ei in Hh. unfold other in HC. rewrite Ei, fl_here in HC. by eapply conn_arrive_there.
  - pose proof (g_conn _ _ _ _ _ HG (g_id m)) as HC. unfold mine, other in HC. rewrite Hh, fl_here in HC.
    destruct (conn_arrive_none _ _ _ _ _ _ _ _ HC) as (Ho & _). split; [|done].
    apply (at_drop base f m); [done|]. intros new' HG'. pose proof (g_conn _ _ _ _ _ HG' (g_id m)) as HC'.
    unfold mine, other in *. rewrite Hh, fl_here in HC'. rewrite Hh.
    by destruct (conn_arrive_none _ _ _ _ _ _ _ _ HC') as (_ & [(? & _)|(_ & ?)]).
Qed.

Lemma on_message_spec base f m g W R w p : at_ base f (m :: g) W R w -> packet.wf p -> packet.data p = g_data m ->
  wpm (on_message accept_ctx (g_id m) (g_type m) p) w (fun w' _ => at_ base f g W R w').
Proof.
  intros HA Wp Dp. assert (HG := HA). destruct HG as (new & _ & HG). destruct (g_fl _ _ _ _ _ HG) as [_ Hg].
  apply Forall_cons in Hg as [(Hw & Hu & Hn) Hg]. unfold on_message. destruct (Z.eqb_spec (g_type m) T_SYN) as [Hs|Hs].
  { destruct Hw as [x t Ht|x d Hd|x n Hx]; cbn [g_type] in Hs; [|discriminate Hs..]. subst t. by apply on_syn_spec. }
  unfold get. rewrite wp_bind, wp_gets. destruct (stream_map.find (g_id m) (m_stream_map w)) as [r|] eqn:Hf.
  - destruct (g_map _ _ _ _ _ HG) as (_ & Hin & _). destruct (Hin _ _ Hf) as (s & Er & Ei).
    destruct Hw as [x t Ht|x d Hd|x n Hx]; cbn [g_id g_type g_data] in *; subst x.
    + destruct Ht as [->|[->| ->]]; [done| |].
      * change (wpm (on_fin r) w (fun w' _ => at_ base f g W R w')). by eapply on_fin_spec.
      * by eapply on_rst_spec.
    + change (wpm (on_data (id s) r p) w (fun w' _ => at_ base f g W R w')). by apply on_data_spec with (d := d).
    + change (wpm (on_uwnd r p) w (fun w' _ => at_ base f g W R w')). by apply on_uwnd_spec with (s := s) (n := n).
  - destruct (missing_drop base f m g W R w HA Hf Hs) as [HA' Ho].
    destruct (Z.eqb_spec (g_type m) T_RST) as [_|Ht]; [by rewrite wp_ret|]. apply snd_rst_spec; auto.
Qed.

Lemma on_packet_spec base f m g W R w p : at_ base f (m :: g) W R w -> packet.wf p -> packet.data p = msg_bytes m ->
  wpm (on_packet accept_ctx (Some p)) w (fun w' _ => at_ base f g W R w').
Proof.
  intros HA Wp Dp. unfold on_packet. rewrite wp_bind, wp_zoom. destruct (begin_read_law (sock w)) as (e' & Eb & Hs & HS).
  unfold wp at 1. rewrite Eb. set (w1 := set_sock e' w). assert (HA1 : at_ base f (m :: g) W R w1).
  { destruct HA as (new & Es & HG). exists new. split; [cbn; by rewrite Hs|]. eapply good_frame; try done; apply HG. }
  assert (HG := HA1). destruct HG as (new & _ & HG). destruct (g_att _ _ _ _ _ HG) as [Ha _].
  destruct (g_fl _ _ _ _ _ HG) as [_ Hg]. apply Forall_cons in Hg as [(Hw & Hu & Hn) Hg].
  unfold get. rewrite wp_bind, wp_gets, bool_decide_true by done. cbn [negb].
  rewrite packet.len_val, Dp, zlen_msg_bytes, wp_bind, wp_lift, wp_bind, wp_assert by done.
  pose proof (zlen_nonneg (g_data m)). split; [apply Z.leb_le; lia|].
  destruct (read_T_head 4 (g_id m) (bytes_helper.write_impl 2 (g_type m) ++ g_data m) p Wp Dp) as (p1 & -> & W1 & D1).
  rewrite wp_bind, wp_lift, (Z.mod_small (g_id m)) by done. cbn beta iota. rewrite wp_bind, wp_assert.
  split; [apply negb_true_iff; by apply Z.eqb_neq|].
  destruct (read_T_head 2 (g_type m) (g_data m) p1 W1 D1) as (p2 & -> & W2 & D2). rewrite wp_bind, wp_lift. cbn beta iota.
  assert (Ht : 0 <= g_type m < 257) by (destruct Hw as [? t [->|[->| ->]]|? ?|? ?]; done).
  rewrite Z.mod_small by (change (256 ^ Z.of_nat 2) with 65536; lia). unfold T_MUX_STREAM_MESSAGE_TYPE_MAX.
  rewrite (proj2 (Z.leb_gt _ _)) by lia. by apply on_message_spec.
Qed.
End good.
