(* ===== verification/Ros.v ===== *)
(** * Ros: requests and responses over a socket
    ([include/wawo/net/peer/ros.hpp], [include/wawo/net/peer/message/ros.hpp],
    [include/wawo/net/peer_abstract.hpp])

    A peer sends messages with a number; a request waits in [m_requested] for the response with
    its number, for its timeout or for the end of the socket, and its callback hears of it.

    - [ros_message], [ros_encode]: the messages and their bytes;
    - [ros]: the state of a peer, with the messages as shared objects;
    - [ros_peer]: its methods, over a [peer_socket]. *)

From S2P Require Import Prelude Effects Bytes Ring Packet SocketData MuxStream.

Definition E_PEER_NO_SOCKET_ATTACHED : Z := -42001.
Definition E_PEER_MESSAGE_EXCEED_LENGTH : Z := -42003.
Definition E_PEER_MESSAGE_REQUEST_TIMEOUT : Z := -42007.

(** ** Messages *)
Definition T_NONE : Z := 0.
Definition T_RESPONSE : Z := 1.
Definition T_REQUEST : Z := 2.
Definition T_SEND : Z := 3.
Definition T_KEEP_ALIVE : Z := 4.
Definition T_MAX : Z := 5.

Record ros_message : Type := mk_ros { net_id : Z; m_type : Z; m_data : option packet.t }.
Definition set_type v m := mk_ros (net_id m) v (m_data m).
Definition set_net_id v m := mk_ros v (m_type m) (m_data m).

(** The constructor for a message that arrived. *)
Definition received (id type : Z) (pack : packet.t) : res ros_message :=
  wawo_assert (negb (type =? T_NONE));; Ok (mk_ros id type (Some pack)).
(** The copy constructor copies the packet too. *)
Definition ros_copy (m : ros_message) : ros_message := mk_ros (net_id m) (m_type m) (packet.copy <$> m_data m).

Definition ros_encode `{memory} (m : ros_message) : res (Z * option packet.t) :=
  wawo_assert (negb (m_type m =? T_NONE));;
  wawo_assert (m_type m <? T_MAX);;
  match m_data m with
  | None => Fault AssertFailed
  | Some d =>
      l ← packet.len d;
      wawo_assert (0 <? l);;
      ooo ← packet.make_right l;
      ooo ← packet.write_left_T 1 ooo (Z.land (m_type m) 255);
      ooo ← packet.write_left_T 4 ooo (net_id m);
      ooo ← packet.write ooo (packet.data d);
      l ← packet.len ooo;
      wawo_assert (l <=? 4294967295);;
      if 4294967295 <? l then Ok (E_PEER_MESSAGE_EXCEED_LENGTH, None)
      else ooo ← packet.write_left_T 4 ooo l; Ok (OK, Some ooo)
  end.

(** ** The state of a peer

    A request holds a reference to the user's message and to the callback.  [begun] and
    [refused]: the requests whose caller has not yet heard, and those whose caller was told of a
    failure. *)
Record requested_message : Type := mk_requested { rq_message : nat; rq_cb : option nat; ts_request : Z; rq_timeout : Z }.
Inductive answer : Type :=
| A_respond (cb : nat) (id : Z) (data : option packet.t)
| A_error (cb : nat) (id : Z) (ec : Z).
Inductive ros_event : Type := RE_message (m : nat) | RE_info (eid : event_id) (info : Z).

Section ros.
Context {E : Type}.
Record ros : Type := mk_peer {
  heap : list ros_message;
  m_requested : list requested_message;
  m_requested_mutex : bool;
  m_mutex_excl : bool;          (* [m_mutex] is held by [attach_socket] or [detach_socket] *)
  m_so : bool;
  sock : E;
  s_ai_ros_nid : Z;
  events : list ros_event;
  answers : list answer;
  begun : list nat;
  refused : list nat
}.
Definition set_heap v w := mk_peer v (m_requested w) (m_requested_mutex w) (m_mutex_excl w) (m_so w) (sock w) (s_ai_ros_nid w) (events w) (answers w) (begun w) (refused w).
Definition set_m_requested v w := mk_peer (heap w) v (m_requested_mutex w) (m_mutex_excl w) (m_so w) (sock w) (s_ai_ros_nid w) (events w) (answers w) (begun w) (refused w).
Definition set_requested_mutex v w := mk_peer (heap w) (m_requested w) v (m_mutex_excl w) (m_so w) (sock w) (s_ai_ros_nid w) (events w) (answers w) (begun w) (refused w).
Definition set_mutex_excl v w := mk_peer (heap w) (m_requested w) (m_requested_mutex w) v (m_so w) (sock w) (s_ai_ros_nid w) (events w) (answers w) (begun w) (refused w).
Definition set_m_so v w := mk_peer (heap w) (m_requested w) (m_requested_mutex w) (m_mutex_excl w) v (sock w) (s_ai_ros_nid w) (events w) (answers w) (begun w) (refused w).
Definition set_sock v w := mk_peer (heap w) (m_requested w) (m_requested_mutex w) (m_mutex_excl w) (m_so w) v (s_ai_ros_nid w) (events w) (answers w) (begun w) (refused w).
Definition set_nid v w := mk_peer (heap w) (m_requested w) (m_requested_mutex w) (m_mutex_excl w) (m_so w) (sock w) v (events w) (answers w) (begun w) (refused w).
Definition log_event v w := mk_peer (heap w) (m_requested w) (m_requested_mutex w) (m_mutex_excl w) (m_so w) (sock w) (s_ai_ros_nid w) (events w ++ [v]) (answers w) (begun w) (refused w).
Definition log_answer v w := mk_peer (heap w) (m_requested w) (m_requested_mutex w) (m_mutex_excl w) (m_so w) (sock w) (s_ai_ros_nid w) (events w) (answers w ++ [v]) (begun w) (refused w).
Definition log_begun v w := mk_peer (heap w) (m_requested w) (m_requested_mutex w) (m_mutex_excl w) (m_so w) (sock w) (s_ai_ros_nid w) (events w) (answers w) (begun w ++ [v]) (refused w).
Definition log_refused v w := mk_peer (heap w) (m_requested w) (m_requested_mutex w) (m_mutex_excl w) (m_so w) (sock w) (s_ai_ros_nid w) (events w) (answers w) (begun w) (refused w ++ [v]).
Definition new_ros (e : E) : ros := mk_peer [] [] false false false e 1 [] [] [] [].
End ros.
Arguments ros : clear implicits.

(** What the blocking receiver asks of the socket. *)
Class receiving_socket (E : Type) := { so_receive_packets : Z -> M E (list packet.t * Z) }.

Module ros_peer.
Section ros_peer.
Context `{memory} {E : Type} `{peer_socket E} `{receiving_socket E}.
Local Abbreviation MR := (M (ros E)).
(** What a callback does to this peer, and the [errno] an exception is made of. *)
Context (callback : answer -> MR unit) (errno : Z).

Definition get : MR (ros E) := gets (fun w => w).
Definition message (m : nat) : MR ros_message :=
  w ← get; match heap w !! m with Some x => mret x | None => fail Undefined end.
Definition update (m : nat) (f : ros_message -> ros_message) : MR unit := modify (fun w => set_heap (alter f m (heap w)) w).
Definition trigger (e : ros_event) : MR unit := modify (log_event e).
Definition tell (a : answer) : MR unit := modify (log_answer a);; callback a.

(** [make_shared<message_t>]. *)
Definition allocate (x : ros_message) : MR nat :=
  w ← get; modify (set_heap (heap w ++ [x]));; mret (length (heap w)).
Definition make_message (data : option packet.t) : MR nat :=
  w ← get; modify (set_nid (u32 (s_ai_ros_nid w + 1)));; allocate (mk_ros (s_ai_ros_nid w) T_NONE data).

Definition with_requested {A} (m : MR A) : MR A :=
  w ← get;
  if m_requested_mutex w then fail Waits
  else modify (set_requested_mutex true);; a ← m; modify (set_requested_mutex false);; mret a.
Definition with_exclusive {A} (m : MR A) : MR A :=
  w ← get;
  if m_mutex_excl w then fail Waits
  else modify (set_mutex_excl true);; a ← m; modify (set_mutex_excl false);; mret a.
Definition with_shared {A} (m : MR A) : MR A := w ← get; if m_mutex_excl w then fail Waits else m.

Definition cb_of (q : requested_message) : list nat := match rq_cb q with Some cb => [cb] | None => [] end.
Definition tell_error (ec : Z) (q : requested_message) : MR unit :=
  match rq_cb q with
  | None => mret tt
  | Some cb => m ← message (rq_message q); tell (A_error cb (net_id m) ec)
  end.

Definition _cancel_all_request (ec : Z) : MR unit :=
  with_requested (
    w ← get;
    iterM (tell_error ec) (m_requested w);;
    modify (set_m_requested [])).

(** The loop over [m_requested]: [kept] are the entries passed. *)
Fixpoint check_loop (now : Z) (kept l : list requested_message) : MR unit :=
  match l with
  | [] => mret tt
  | q :: l' =>
      if u64 (ts_request q + rq_timeout q) <=? now then
        tell_error E_PEER_MESSAGE_REQUEST_TIMEOUT q;;
        modify (set_m_requested (kept ++ l'));;
        check_loop now kept l'
      else check_loop now (kept ++ [q]) l'
  end.
Definition _check_requested_message (now : Z) : MR unit :=
  with_requested (w ← get; check_loop now [] (m_requested w)).
Definition tick (now : Z) : MR unit := _check_requested_message (now / 1000).

Definition attach_socket : MR unit :=
  with_exclusive (w ← get; assertM (negb (m_so w));; modify (set_m_so true)).
Definition detach_socket : MR unit :=
  with_exclusive (modify (set_m_so false);; _cancel_all_request E_PEER_NO_SOCKET_ATTACHED).

(** ** Sending *)
Definition do_send_message (m : nat) : MR Z :=
  with_shared (
    w ← get;
    if negb (m_so w) then mret E_PEER_NO_SOCKET_ATTACHED
    else
      x ← message m;
      '(encode_ec, packet_mo) ← lift (ros_encode x);
      if negb (encode_ec =? OK) then mret encode_ec
      else match packet_mo with
           | None => fail AssertFailed
           | Some p => zoom sock set_sock (so_send_packet p)
           end).

Definition send (m : nat) : MR Z :=
  x ← message m;
  assertM (m_type x =? T_NONE);;
  update m (set_type T_SEND);;
  do_send_message m.

(** [request] up to the answer of the socket; then, maybe after calls of other threads, the
    end. *)
Definition request_begin (m : nat) (cb : option nat) (timeout now : Z) : MR Z :=
  assertM (bool_decide (is_Some cb));;
  x ← message m;
  assertM (m_type x =? T_NONE);;
  update m (set_type T_REQUEST);;
  with_requested (
    w ← get;
    modify (set_m_requested (m_requested w ++ [mk_requested m cb now timeout]));;
    iterM (fun c => modify (log_begun c)) (option_list cb));;
  do_send_message m.
Fixpoint find_message (m : nat) (l : list requested_message) : option (list requested_message * requested_message * list requested_message) :=
  match l with
  | [] => None
  | q :: l' =>
      if decide (rq_message q = m) then Some ([], q, l')
      else '(a, x, b) ← find_message m l'; Some (q :: a, x, b)
  end.
Definition request_end (m : nat) (msndrt : Z) : MR Z :=
  if msndrt =? OK then mret msndrt
  else
    with_requested (
      w ← get;
      match find_message m (m_requested w) with
      | None => fail Thrown
      | Some (a, q, b) =>
          modify (set_m_requested (a ++ b));;
          iterM (fun c => modify (log_refused c)) (cb_of q);;
          mret msndrt
      end).
Definition request (m : nat) (cb : option nat) (timeout now : Z) : MR Z :=
  msndrt ← request_begin m cb timeout now; request_end m msndrt.

Definition respond (response incoming : nat) : MR Z :=
  x ← message response;
  i ← message incoming;
  assertM (m_type x =? T_NONE);;
  assertM (m_type i =? T_REQUEST);;
  update response (set_type T_RESPONSE);;
  update response (set_net_id (net_id i));;
  do_send_message response.

(** ** Receiving *)

(** The numbers of the messages of a packet: one, or, after a length that is less than the
    packet's, whatever follows is read again as a length. *)
Fixpoint _decode_message_from_packet (fuel : nat) (inpack : packet.t) : res (option ros_message) :=
  match fuel with
  | O => Fault Diverged
  | S fuel' =>
      '(inpack, mlength) ← packet.read_T 4 inpack;
      l ← packet.len inpack;
      condition_check (mlength <=? l);;
      if mlength =? l then
        '(inpack, id) ← packet.read_T 4 inpack;
        '(inpack, type) ← packet.read_T 1 inpack;
        m ← received id type inpack;
        Ok (Some m)
      else if negb (l =? 0) then _decode_message_from_packet fuel' inpack
      else Ok None
  end.

Fixpoint find_net_id (hp : list ros_message) (id : Z) (l : list requested_message)
    : option (list requested_message * requested_message * list requested_message) :=
  match l with
  | [] => None
  | q :: l' =>
      if decide (net_id <$> hp !! rq_message q = Some id) then Some ([], q, l')
      else '(a, x, b) ← find_net_id hp id l'; Some (q :: a, x, b)
  end.
Definition _handle_resp_message (resp : nat) : MR unit :=
  r ← message resp;
  assertM (m_type r =? T_RESPONSE);;
  rm ← with_requested (
    w ← get;
    match find_net_id (heap w) (net_id r) (m_requested w) with
    | None => mret None
    | Some (a, q, b) => modify (set_m_requested (a ++ b));; mret (Some q)
    end);
  match rm with
  | None => mret tt
  | Some q =>
      match rq_cb q with
      | None => mret tt
      | Some cb =>
          x ← message (rq_message q);
          assertM (net_id x =? net_id r);;
          assertM (m_type x =? T_REQUEST);;
          tell (A_respond cb (net_id x) (m_data r))
      end
  end.

Definition handle_incoming_message (m : nat) : MR unit :=
  x ← message m;
  if (m_type x =? T_SEND) || (m_type x =? T_REQUEST) then trigger (RE_message m)
  else if m_type x =? T_RESPONSE then _handle_resp_message m
  else fail Thrown.

(** The exceptions of the decoder and of what handles the messages close the socket; nothing is
    changed before they are thrown, as callbacks do not throw. *)
Definition catching (m : MR unit) : MR unit := fun w =>
  match m w with
  | Fault Thrown => (zoom sock set_sock (so_close errno) ≫= fun _ => mret tt) w
  | r => r
  end.
Definition on_packet (fuel : nat) (inpack : packet.t) : MR unit :=
  zoom sock set_sock so_begin_async_read;;
  catching (
    m ← lift (_decode_message_from_packet fuel inpack);
    match m with
    | None => mret tt
    | Some x => r ← allocate x; handle_incoming_message r
    end).
Definition on_event (fuel : nat) (evt : socket_event) : MR unit :=
  w ← get;
  assertM (m_so w);;
  match e_id evt with
  | E_PACKET_ARRIVE => match e_data evt with Some p => on_packet fuel p | None => fail Undefined end
  | E_MESSAGE => fail Thrown
  | e => trigger (RE_info e (e_info evt))
  end.

(** The blocking receiver: the messages and the number it returns, which on an error is the code
    as a [u32_t]. *)
Fixpoint receive_loop (fuel : nat) : MR (list packet.t * Z) :=
  match fuel with
  | O => fail Diverged
  | S fuel' =>
      '(arrives, ec) ← zoom sock set_sock (so_receive_packets 1);
      if ((ec =? OK) || (ec =? E_SOCKET_RECV_BLOCK)) && (zlen arrives =? 0) then receive_loop fuel' else mret (arrives, ec)
  end.
Definition do_receive_messasges (fuel : nat) (size : Z) : MR (list nat * Z * Z) :=
  ms ← with_shared (
    w ← get;
    if negb (m_so w) then mret (inr (E_PEER_NO_SOCKET_ATTACHED, 0))
    else
      '(arrives, ec) ← receive_loop fuel;
      if negb (ec =? OK) then mret (inr (ec, u32 ec))
      else match arrives with
           | [p] =>
               l ← lift (packet.len p);
               assertM (0 <? l);;
               m ← lift (_decode_message_from_packet fuel p);
               assertM (zlen (option_list m) <=? size);;
               mret (inl m)
           | _ => fail AssertFailed
           end);
  match ms with
  | inr (ec, n) => mret ([], ec, n)
  | inl None => mret ([], OK, 0)
  | inl (Some x) =>
      r ← allocate x;
      if m_type x =? T_RESPONSE then _handle_resp_message r;; mret ([], OK, 0) else mret ([r], OK, 1)
  end.
End ros_peer.
End ros_peer.
