(* ===== verification/MuxSocket.v ===== *)
(** * MuxSocket: [class socket] below a peer

    The operations a peer uses, as [class socket] has them, and what the proofs about peers
    assume of them: a packet is taken whole or, when the socket is full, not at all. *)

From S2P Require Import Prelude Effects Bytes Ring Packet Tlp Address Wcp SocketData SockFns SocketBase Socket SocketLaws SocketTlp SocketSim SocketSendProofs SocketRecvProofs SocketComm MuxStream Ros.

Section peer.
Context `{memory} `{WcpData.wcp_env} `{wcp_sockets} `{system K} `{tlp_abstract T}.
(** What the uninitialised code of [send_packet] holds, and the rounds [close] may flush. *)
Context (junk : Z) (fuel : nat).

#[local] Instance socket_peer : peer_socket (st T (senv K)) := {|
  so_send_packet p := socket.send_packet junk p F_SEND_USE_SND_BUFFER;
  so_get_buffer_cfg w := m_sbc (so w);
  so_is_connected w := socket_base.is_connected (so w);
  so_close code := socket.close fuel code;
  so_begin_async_read := socket_base.begin_async_read 0 None fn_async_read fn_async_error
|}.
(** [receive_packets] with its default flag. *)
#[local] Instance socket_receiver : receiving_socket (st T (senv K)) := {|
  so_receive_packets size := socket.receive_packets fuel junk size F_RCV_BLOCK_UNTIL_PACKET_ARRIVE
|}.

End peer.

(** ** A packet is taken whole or not at all *)
Section blocked.
Context `{memory} `{WcpData.wcp_env} `{wcp_sockets} `{system K} `{tlp_abstract T}.
Local Abbreviation ST := (st T (senv K)).

Lemma wlp_any {A} (m : M ST A) w : wlp True m w (fun _ _ => True).
Proof. unfold wlp. by destruct (m w) as [[? ?]|]. Qed.
Lemma wlp_skip {A B} (m : M ST A) (k : A -> M ST B) w Q : (forall w' a, wlp True (k a) w' Q) -> wlp True (m ≫= k) w Q.
Proof. intros Hk. apply wlp_bind. eapply wlp_mono; [apply wlp_any|]. intros w' a _. apply Hk. Qed.
Lemma wlp_lock_result {A} l (m : M ST A) w (P : A -> Prop) : (forall w, wlp True m w (fun _ => P)) ->
  wlp True (with_lock l m) w (fun _ => P).
Proof.
  intros Hm. unfold with_lock. apply wlp_skip. intros w1 _. apply wlp_bind. eapply wlp_mono; [apply Hm|].
  intros w2 a Ha. apply wlp_skip. intros w3 _. by apply wlp_ret.
Qed.

(** When [send] answers that the socket is full it has taken nothing. *)
Lemma send_blocked bytes ec_o flag (w : ST) : is_u32 (zlen bytes) ->
  wlp True (socket.send bytes ec_o flag) w (fun _ r => r.2 = E_SOCKET_SEND_BLOCK -> r.1 < zlen bytes -> r.1 = 0).
Proof.
  intros Hu. unfold socket.send. cbv zeta. apply wlp_skip. intros w1 _. apply wlp_skip. intros w2 s. apply wlp_skip. intros w3 _.
  destruct (flag_on _ _); [by apply wlp_ret|]. destruct (_ <? _); [by apply wlp_ret|].
  apply (wlp_lock_result L_WRITE _ _ (fun r => r.2 = E_SOCKET_SEND_BLOCK -> r.1 < zlen bytes -> r.1 = 0)). intros w4.
  apply wlp_skip. intros w5 s5. destruct (_ && _).
  - destruct (_ && _); [|by apply wlp_ret]. apply wlp_skip. intros w6 [sb wcount]. apply wlp_bind, wlp_assert. intros Hc%Z.eqb_eq.
    apply wlp_skip. intros w7 _. apply wlp_ret. cbn. lia.
  - apply wlp_skip. intros w6 [n ec]. destruct (_ && _) eqn:Hb.
    + apply wlp_bind. unfold socket.buffer_rest. cbv zeta. apply wlp_skip. intros w7 s7. apply wlp_skip. intros w8 _.
      apply wlp_skip. intros w9 _. apply wlp_skip. intros w10 [sb write_c]. apply wlp_bind, wlp_assert. intros Hc%Z.eqb_eq.
      do 4 (apply wlp_skip; intros ? ?). apply wlp_skip. intros w11 _. apply wlp_ret. apply wlp_ret. cbn. intros _ Hlt. exfalso.
      rewrite <- Hc, u32_add_r, Z.add_comm, Z.sub_add, u32_small in Hlt by done. lia.
    + apply wlp_ret. cbn. intros -> Hlt. rewrite Z.eqb_refl, andb_true_r in Hb. apply Z.ltb_ge in Hb. lia.
Qed.
End blocked.

Section whole.
Context `{memory} `{WcpData.wcp_env} `{wcp_sockets} {K} `{system_laws K}.
Import frames.
Local Abbreviation ST := (st hlen_packet.t (senv K)).

(** What a peer relies on: a packet that fits the send buffer and is answered [OK] is queued whole
    after what was queued before; one that is answered [E_SOCKET_SEND_BLOCK] leaves nothing of
    itself behind, so it can be sent again later. *)
Theorem send_packet_whole (w w' : ST) junk p rc : send_inv w -> m_tlp (so w) <> None -> packet.wf p ->
  0 < zlen (packet.data p) -> 4 + zlen (packet.data p) <= snd_size (m_sbc (so w)) ->
  socket.send_packet junk p F_SEND_USE_SND_BUFFER w = Ok (w', rc) ->
  send_inv w' /\ m_tlp (so w') <> None /\ m_sbc (so w') = m_sbc (so w)
  /\ (rc = OK -> sent w' ++ queued w' = (sent w ++ queued w) ++ frame (packet.data p))
  /\ (rc = E_SOCKET_SEND_BLOCK -> sent w' ++ queued w' = sent w ++ queued w).
Proof.
  intros Hi Hd Wp Hz Hs E. destruct (Z.eq_dec rc OK) as [->|Hrc].
  { destruct (send_packet_ok w w' junk p _ Hi Hd Wp Hz Hs E) as (I & D & C & S). rewrite S, app_assoc. done. }
  destruct (m_tlp (so w)) as [d|] eqn:Ed; [|done].
  pose proof (queued_bound w (si_flush w Hi)) as HB.
  assert (HU : snd_size (m_sbc (so w)) < 4294967296).
  { destruct (si_flush w Hi) as (_ & [HC _ _ _] & C). unfold bytes_ringbuffer.MAX_RING_BUFFER_SIZE in HC. lia. }
  unfold socket.send_packet, mbind, M_bind, so_get, gets in E. unfold Datatypes.id in E. rewrite Ed in E. cbn [tlp_encode hlen_tlp] in E.
  destruct (encode_frame p Wp Hz ltac:(range_lia)) as [(o & Eo & Wo & Do)|Eo]; rewrite Eo in E; cbn [mbind res_bind lift] in E; [|done].
  unfold so_upd, modify in E. cbn beta iota in E. change (negb (Tlp.OK =? OK)) with false in E. cbn iota in E.
  set (w1 := set_so _ w) in E. assert (I1 : send_inv w1) by (by apply set_tlp_inv).
  assert (Hfr : 0 < zlen (packet.data o) <= snd_size (m_sbc (so w1))) by (rewrite Do, zlen_frame; simpl; lia).
  pose proof (send_spec w1 (packet.data o) junk F_SEND_USE_SND_BUFFER I1 ltac:(lia) ltac:(lia)) as HS.
  pose proof (send_blocked (packet.data o) junk F_SEND_USE_SND_BUFFER w1 ltac:(rewrite Do, zlen_frame in *; range_lia)) as HN.
  unfold wp, wlp in HS, HN. destruct (socket.send _ _ _ w1) as [[w2 [n ec]]|] eqn:ES; [|done]. cbn [fst snd] in HN.
  cbn beta in E.
  rewrite ES in E. cbn beta iota in E.
  destruct HS as ((F & I2 & E2) & Hn). rewrite (packet.len_val o Wo) in E. cbn [lift mret M_ret] in E.
  destruct (n =? zlen (packet.data o)) eqn:En; unfold mret, M_ret in E; injection E as <- <-; [done|]. apply Z.eqb_neq in En.
  destruct F as (? & ? & ? & ? & ? & ? & ? & ->). split; [done|]. split; [done|]. split; [done|]. split; [done|].
  intros ->. destruct Hn as [Hn|[Hlt _]]; [done|]. rewrite HN in E2 by (done || lia).
  rewrite E2. by rewrite app_nil_r.
Qed.
End whole.
