(* ===== verification/MuxErrors.v ===== *)
(** * MuxErrors: what a peer with streams does not survive, or loses

    - [mux_small_buffer_loses_bytes]: with a socket buffer smaller than the ring of a stream the
      first flush cuts the ring, and with it the bytes that do not fit;
    - [fin_before_syn]: a stream that is closed before anything was written ends unannounced;
    - [mux_short_packet_asserts], [mux_data_beyond_window_asserts]: packets from the network that
      end in failed assertions. *)

From S2P Require Import Prelude Effects Bytes Ring Packet SocketData MuxStream MuxStreamProofs MuxCargo MuxSystem.
Import bytes_ringbuffer.

(** ** The ring is cut *)

(** The loop copies what the new ring has room for and drops the rest. *)
Lemma move_loop_take fuel : forall from to, wf from -> wf to -> zlen (contents from) + 8192 <= 8192 * Z.of_nat fuel ->
  exists from' to', stream.move_loop fuel from to = Ok (from', to') /\ count from' = 0
    /\ wf to' /\ m_capacity to' = m_capacity to
    /\ contents to' = take (Z.to_nat (m_capacity to - 1)) (contents to ++ contents from).
Proof.
  induction fuel as [|fuel IH]; intros from to Wf Wt Hl; [pose proof (zlen_nonneg (contents from)); lia|].
  pose proof (zlen_contents from Wf) as HF. pose proof (zlen_contents to Wt) as HT. pose proof (count_range to Wt) as HR.
  cbn [stream.move_loop]. destruct (Z.eqb_spec (count from) 0) as [E|E].
  { eexists _, _. repeat (split; [done|]). rewrite (nil_length_inv (contents from)) by (unfold zlen in HF; lia).
    rewrite app_nil_r, take_ge by (unfold zlen in HT; lia). done. }
  destruct (read_spec from 8192 true Wf) as (from' & -> & Wf' & _ & Df); [done|]. cbn [mbind res_bind].
  pose proof (count_range from Wf) as HRf.
  set (n := Z.min 8192 (zlen (contents from))). set (tmp := take _ (contents from)).
  assert (Hn : zlen tmp = n) by (unfold tmp, n, zlen; rewrite length_take; lia).
  assert (Hn0 : 0 < n <= 8192) by (unfold n; lia).
  destruct (write_spec to tmp n Wt) as (to' & -> & Wt' & Ct & Dt); [lia | range_lia | lia|]. cbn [mbind res_bind].
  destruct (IH from' to' Wf' Wt') as (f2 & t2 & -> & Z2 & W2 & C2 & D2).
  { rewrite Df. rewrite zlen_drop by lia. pose proof (zlen_nonneg (contents from)). lia. }
  eexists _, _. split; [done|]. split; [done|]. split; [done|]. split; [congruence|]. rewrite D2, Ct, Dt, Df.
  rewrite <- (take_drop (Z.to_nat 8192) (contents from)) at 2. fold tmp. rewrite (app_assoc (contents to) tmp).
  unfold zlen in HT, Hn. destruct (Z.le_gt_cases n (m_capacity to - 1 - count to)).
  - rewrite Z.min_l, (take_ge tmp) by lia. done.
  - rewrite Z.min_r by lia. rewrite (take_app_le (contents to ++ tmp)), (take_app_ge (contents to) tmp) by (rewrite ?length_app; lia).
    rewrite take_app_le by (rewrite length_app, length_take; lia). rewrite take_ge by (rewrite length_app, length_take; lia).
    do 2 f_equal. lia.
Qed.

Section cut.
Context `{memory} {E : Type} `{peer_socket E}.
Import stream.

(** On a socket whose send buffer is smaller than the ring of a stream and a kilobyte, the
    first flush of bytes cuts the ring to the size of that buffer: bytes that [write] took and
    that do not fit the new ring are lost, and no error is reported. *)
Theorem mux_small_buffer_loses_bytes fuel s e : (33 <= fuel)%nat -> stream_ok s ->
  has STREAM_BUFFER_DETERMINED s = false -> 3072 <= snd_size (so_get_buffer_cfg e) < big + 1024 ->
  wp (determine_buffer fuel) (s, e) (fun w' _ => w'.2 = e
    /\ contents (wb w'.1) = take (Z.to_nat (snd_size (so_get_buffer_cfg e) - 1024)) (contents (wb s))).
Proof.
  intros Hf HO Hd Hs. unfold determine_buffer. rewrite wp_bind, wp_st_get. cbn [fst]. rewrite Hd.
  rewrite wp_bind, wp_st_upd, wp_bind, wp_gets. cbn [fst snd]. change (wb (add_flag _ s)) with (wb s) || idtac.
  destruct (ring_ok_len _ (ok_wb s HO)) as (HL & HB & _ & ->). destruct (ok_wb s HO) as [Wb Cb].
  rewrite u32_small by (unfold big in *; range_lia). set (c := snd_size _ - 1024). rewrite Z.min_l by lia.
  rewrite (proj2 (Z.eqb_neq c big)) by (subst c; lia). cbn [negb]. rewrite wp_bind.
  assert (Hc : 2048 <= c < big) by (subst c; lia). clearbody c.
  assert (exists r, bytes_ringbuffer.make c = Ok r) as [r Em].
  { unfold bytes_ringbuffer.make. rewrite (u32_small (c + 1)), u32_small by (unfold big in *; range_lia).
    unfold MIN_RING_BUFFER_SIZE, MAX_RING_BUFFER_SIZE. rewrite !(proj2 (Z.leb_le _ _)) by (unfold big in *; lia). by eexists. }
  rewrite Em. destruct (make_wf c r ltac:(unfold big in *; range_lia) Em) as (Wr & Dr & Cr). rewrite wp_lift, wp_bind.
  destruct (move_loop_take fuel (wb s) r Wb Wr) as (f' & t' & -> & Hz & Wt & Ct & Dt); [unfold big in *; lia|].
  rewrite wp_lift, wp_bind, wp_assert, Hz. split; [done|]. rewrite wp_st_upd. split; [done|].
  cbn [fst wb set_wb]. rewrite Dt, Dr, Cr. f_equal. lia.
Qed.
End cut.

(** 100000 bytes are written, and 97280 are kept on a socket with medium buffers. *)
#[local] Instance medium_socket : peer_socket link := {|
  so_send_packet := link_send;
  so_get_buffer_cfg _ := socket_buffer_cfgs BT_MEDIUM;
  so_is_connected _ := true;
  so_close _ := mret OK;
  so_begin_async_read := mret tt
|}.

(** A stream that can be had by writing. *)
Lemma written_stream `{memory} bs : 0 < zlen bs <= big ->
  exists s : stream, stream_ok s /\ has STREAM_BUFFER_DETERMINED s = false /\ contents (wb s) = bs.
Proof.
  intros Hb. destruct (init_fresh None 5 STREAM_PLAN_SYN) as (s & Ei & HO & HF & _); [done | done | by right|].
  destruct (ring_ok_len _ (ok_wb s HO)) as (_ & _ & HL & _). rewrite (f_wb s HF) in HL. unfold zlen at 1 in HL. cbn [length] in HL.
  destruct (ring_write (wb s) bs (ok_wb s HO)) as (r & _ & Hr & Dr); [lia | lia|].
  exists (set_wb r s). split; [destruct HO; by constructor|]. split.
  - unfold stream.init in Ei. destruct ring_make as (r1 & Em & _). rewrite Em in Ei. cbn in Ei. by injection Ei as <-.
  - cbn [wb set_wb]. by rewrite Dr, (f_wb s HF).
Qed.

Lemma mux_small_buffer_loses_bytes_witness : exists s : stream, zlen (contents (wb s)) = 100000
  /\ wp (stream.determine_buffer 33) (s, mk_link [] []) (fun w' _ => zlen (contents (wb w'.1)) = 97280).
Proof.
  destruct (written_stream (replicate (Z.to_nat 100000) 7)) as (s & HO & Hd & Hw).
  { unfold zlen, big. rewrite length_replicate. lia. }
  exists s. split; [unfold zlen; rewrite Hw, length_replicate; lia|].
  eapply wp_mono; [by apply (mux_small_buffer_loses_bytes 33 s (mk_link [] []))|].
  intros w' _ [_ ->]. rewrite Hw, zlen_take by done. unfold zlen. rewrite length_replicate. cbn. lia.
Defined.

(** ** Packets from the network *)
Section hostile.
Context `{memory} {E : Type} `{peer_socket_laws E}.
Context (accept_ctx : Z -> option Z).
Import mux_cargo.

Lemma mux_short_packet_asserts p (w : mux E) : m_mux_state w = SOCKET_ATTACHED -> packet.wf p -> zlen (packet.data p) < 6 ->
  on_packet accept_ctx (Some p) w = Fault AssertFailed.
Proof.
  intros Ha Wp Hl. unfold on_packet, zoom, mbind, M_bind. destruct (begin_read_law (sock w)) as (e' & -> & _).
  unfold get, gets. cbn [m_mux_state set_sock]. rewrite bool_decide_true by done. cbn [negb].
  rewrite packet.len_val by done. unfold lift, assertM. by rewrite (proj2 (Z.leb_gt _ _)).
Qed.

Lemma mux_data_beyond_window_asserts p x d r s (w : mux E) : m_mux_state w = SOCKET_ATTACHED -> packet.wf p ->
  packet.data p = msg_bytes (mk_msg x T_DATA d) -> is_u32 x -> x <> 0 -> stream_map.find x (m_stream_map w) = Some r ->
  heap w !! r = Some s -> stream_ok s -> has STREAM_READ_SHUTDOWN s = false -> left_capacity (rb s) < zlen d ->
  on_packet accept_ctx (Some p) w = Fault AssertFailed.
Proof.
  intros Ha Wp Dp Hu Hn Hf Hr HO Hs Hd. unfold on_packet, zoom, mbind, M_bind. destruct (begin_read_law (sock w)) as (e' & -> & _).
  unfold get, gets. cbn [m_mux_state set_sock]. rewrite bool_decide_true by done. cbn [negb].
  pose proof (zlen_nonneg d).
  rewrite packet.len_val, Dp, zlen_msg_bytes by done. unfold lift, assertM. cbn [g_data]. rewrite (proj2 (Z.leb_le _ _)) by lia.
  destruct (read_T_head 4 x (bytes_helper.write_impl 2 T_DATA ++ d) p Wp Dp) as (p1 & -> & W1 & D1).
  rewrite (Z.mod_small x) by done. cbn beta iota. rewrite (proj2 (Z.eqb_neq x 0)) by done. cbn [negb].
  destruct (read_T_head 2 T_DATA d p1 W1 D1) as (p2 & -> & W2 & D2). change (T_DATA mod 256 ^ Z.of_nat 2) with 2.
  cbn beta iota. change (T_MUX_STREAM_MESSAGE_TYPE_MAX <=? 2) with false. cbn iota.
  unfold on_message. change (2 =? T_SYN) with false. cbn iota. unfold mbind, M_bind, get, gets. cbn [m_stream_map set_sock].
  unfold lift, wawo_assert. cbn iota. cbn [m_stream_map set_sock]. rewrite Hf. change (2 =? T_DATA) with true. cbn iota. unfold on_data, mbind, M_bind, stream_of, on_stream. cbn [heap set_sock].
  rewrite Hr. cbn. rewrite Hs, packet.len_val, D2 by done. cbn. unfold assertM. by rewrite (proj2 (Z.leb_gt _ _)).
Qed.
End hostile.

(** ** A stream that ends before it began

    It is opened and closed and nothing is written: the only message says that the stream ends,
    and the other peer, who never heard of it, answers with a reset. *)
Lemma fin_before_syn :
  match (s ← perform sample_ctx 1 2 true (A_open 5 77) (start (fun _ => mk_link [] []));
         s ← perform sample_ctx 1 2 true (A_close 0) s;
         s ← perform sample_ctx 1 2 true A_tick s;
         perform sample_ctx 1 2 false (A_arrive (sample_packet (msg_bytes (mk_msg 5 T_FIN [])))) s) with
  | Ok s => sent (sock (mx (s true))) = [msg_bytes (mk_msg 5 T_FIN [])] /\ sent (sock (mx (s false))) = [msg_bytes (mk_msg 5 T_RST [])]
  | Fault _ => False
  end.
Proof. vm_compute. split; reflexivity. Qed.
