(* ===== verification/SmartPtr.v ===== *)
(** * SmartPtr: shared, weak and intrusive pointers ([include/wawo/smart_ptr.hpp])

    A [shared_ptr] points to a control block that holds the address of the object and two
    counters; a [ref_ptr] points to an object that holds its own counter.  The memory says of
    every object and block whether it is still there: to touch one that is not is [Undefined].

    - [sp_counter_base], [sp_counter], [sp_weak_counter], [shared_ptr], [weak_ptr]: the methods,
      one after another;
    - [ref_base], [ref_ptr]: the same for the intrusive pointer;
    - [sp_sys], [rf_sys]: many threads, each step one atomic instruction of a method. *)

From S2P Require Import Prelude Effects.

(** ** The memory of shared pointers *)

(** [sp_counter_base]: the object, or null after [dispose]. *)
Record block : Type := mk_block { __p : option nat; sp_c : Z; sp_weak_c : Z }.
Definition set_p v b := mk_block v (sp_c b) (sp_weak_c b).
Definition set_sp_c v b := mk_block (__p b) v (sp_weak_c b).
Definition set_sp_weak_c v b := mk_block (__p b) (sp_c b) v.

(** Objects that live, and blocks that were not freed. *)
Record mem : Type := mk_mem { objects : list bool; blocks : list (option block) }.
Definition set_objects v m := mk_mem v (blocks m).
Definition set_blocks v m := mk_mem (objects m) v.

Definition read_block (c : nat) : M mem block := fun m =>
  match blocks m !! c with Some (Some b) => Ok (m, b) | _ => Fault Undefined end.
Definition upd_block (c : nat) (f : block -> block) : M mem unit :=
  b ← read_block c; modify (fun m => set_blocks (<[c := Some (f b)]> (blocks m)) m).

(** [checked_delete]. *)
Definition checked_delete (p : option nat) : M mem unit := fun m =>
  match p with
  | None => Ok (m, tt)
  | Some o => match objects m !! o with
              | Some true => Ok (set_objects (<[o := false]> (objects m)) m, tt)
              | _ => Fault Undefined
              end
  end.

(** Access to the object itself. *)
Definition deref (p : option nat) : M mem nat := fun m =>
  match p with
  | Some o => match objects m !! o with Some true => Ok (m, o) | _ => Fault Undefined end
  | None => Fault Undefined
  end.

Module sp_counter_base.
Definition make (o : option nat) : M mem nat :=
  c ← gets (fun m => length (blocks m));
  modify (fun m => set_blocks (blocks m ++ [Some (mk_block o 1 1)]) m);;
  mret c.

Definition sp_count (c : nat) : M mem Z := b ← read_block c; mret (sp_c b).
Definition weak_count (c : nat) : M mem Z := b ← read_block c; mret (sp_weak_c b).

(** The atomic instructions, which give the value before. *)
Definition fetch_add_sp (d : Z) (c : nat) : M mem Z :=
  b ← read_block c; upd_block c (set_sp_c (sp_c b + d));; mret (sp_c b).
Definition fetch_add_weak (d : Z) (c : nat) : M mem Z :=
  b ← read_block c; upd_block c (set_sp_weak_c (sp_weak_c b + d));; mret (sp_weak_c b).

Definition dispose (c : nat) : M mem unit :=
  b ← read_block c; checked_delete (__p b);; upd_block c (set_p None).
Definition destroy (c : nat) : M mem unit :=
  read_block c;; modify (fun m => set_blocks (<[c := None]> (blocks m)) m).

Definition require (c : nat) : M mem unit := fetch_add_sp 1 c;; mret tt.
Definition weak_require (c : nat) : M mem unit := fetch_add_weak 1 c;; mret tt.
Definition weak_release (c : nat) : M mem unit :=
  v ← fetch_add_weak (-1) c; when (v =? 1) (destroy c).
Definition release (c : nat) : M mem unit :=
  v ← fetch_add_sp (-1) c; when (v =? 1) (dispose c;; weak_release c).

(** The first look of [atomic_increment_if_not_equal]. *)
Definition load_checked (val : Z) (c : nat) : M mem Z :=
  tv ← sp_count c; assertM (val <=? tv);; mret tv.
(** [require_lock], when no other thread comes between. *)
Definition require_lock (val : Z) (c : nat) : M mem Z :=
  tv ← load_checked val c;
  if tv =? val then mret tv else fetch_add_sp 1 c.
End sp_counter_base.
Import sp_counter_base.

(** ** The handles *)
Definition on_base (m : nat -> M mem unit) (base : option nat) : M mem unit :=
  match base with Some c => m c | None => mret tt end.

Module sp_counter.
Definition t : Type := option nat.

Definition make (o : option nat) : M mem t := c ← sp_counter_base.make o; mret (Some c).
Definition destruct (this : t) : M mem unit := on_base release this.
Definition copy (r : t) : M mem t := on_base require r;; mret r.
(** The new handle and what is left in the old one. *)
Definition move (r : t) : M mem (t * t) := mret (r, None).

(** What a successful [require_lock] promises. *)
Definition locked (c : nat) : M mem unit :=
  b ← read_block c;
  assertM (bool_decide (__p b <> None));;
  assertM (0 <? sp_c b).
(** [sp_counter(sp_weak_counter const&)]. *)
Definition of_weak (weak : option nat) : M mem t :=
  on_base (fun c => v ← require_lock 0 c; if v =? 0 then mret tt else locked c) weak;;
  mret weak.

Definition assign (this r : t) : M mem t :=
  assertM (if bool_decide (this = r) then bool_decide (this = None) else true);;
  tmp ← copy r;
  destruct this;;
  mret tmp.
Definition move_assign (this r : t) : M mem (t * t) :=
  assertM (if bool_decide (this = r) then bool_decide (this = None) else true);;
  on_base release this;;
  mret (r, None).

Definition sp_count (this : t) : M mem Z :=
  match this with Some c => sp_counter_base.sp_count c | None => mret 0 end.
Definition weak_count (this : t) : M mem Z :=
  match this with Some c => sp_counter_base.sp_count c | None => mret 0 end.
End sp_counter.

Module sp_weak_counter.
Definition t : Type := option nat.
Definition copy (r : t) : M mem t := on_base weak_require r;; mret r.
Definition of_counter (r : sp_counter.t) : M mem t := on_base weak_require r;; mret r.
Definition destruct (this : t) : M mem unit := on_base weak_release this.
Definition assign (this r : t) : M mem t :=
  assertM (negb (bool_decide (this = r)));;
  tmp ← copy r;
  destruct this;;
  mret tmp.
Definition assign_counter (this : t) (r : sp_counter.t) : M mem t :=
  assertM (negb (bool_decide (this = r)));;
  tmp ← of_counter r;
  destruct this;;
  mret tmp.
End sp_weak_counter.

(** [std::swap] moves three times where a class can be moved, and copies otherwise. *)
Module shared_ptr.
Definition t : Type := sp_counter.t.

Definition swap (this r : t) : M mem (t * t) :=
  '(tmp, this) ← sp_counter.move this;
  '(this, r) ← sp_counter.move_assign this r;
  '(r, tmp) ← sp_counter.move_assign r tmp;
  sp_counter.destruct tmp;;
  mret (this, r).

(** [make_shared]: a new object and its first pointer. *)
Definition make_shared : M mem t :=
  o ← gets (fun m => length (objects m));
  modify (fun m => set_objects (objects m ++ [true]) m);;
  sp_counter.make (Some o).
Definition copy (r : t) : M mem t := sp_counter.copy r.
Definition destruct (this : t) : M mem unit := sp_counter.destruct this.
Definition assign (this r : t) : M mem t :=
  tmp ← copy r;
  '(tmp, this) ← swap tmp this;
  destruct tmp;;
  mret this.
Definition move_assign (this r : t) : M mem (t * t) := sp_counter.move_assign this r.
Definition use_count (this : t) : M mem Z := sp_counter.sp_count this.
Definition of_weak (weak : option nat) : M mem t := sp_counter.of_weak weak.

Definition arrow (this : t) : M mem nat :=
  assertM (bool_decide (this <> None));;
  match this with
  | None => fail Undefined
  | Some c => b ← read_block c; assertM (bool_decide (__p b <> None));; deref (__p b)
  end.
Definition get (this : t) : M mem (option nat) :=
  match this with None => mret None | Some c => b ← read_block c; mret (__p b) end.

Definition static_pointer_cast (r : t) : M mem t := get r;; copy r.
(** [p]: whether the object has the type asked for. *)
Definition dynamic_pointer_cast (p : nat -> bool) (r : t) : M mem t :=
  o ← get r;
  if match o with Some o => p o | None => false end then copy r else mret None.
End shared_ptr.

Module weak_ptr.
Definition t : Type := sp_weak_counter.t.
Definition of_shared (r : shared_ptr.t) : M mem t := sp_weak_counter.of_counter r.
Definition copy (r : t) : M mem t := sp_weak_counter.copy r.
Definition destruct (this : t) : M mem unit := sp_weak_counter.destruct this.
Definition swap (this r : t) : M mem (t * t) :=
  tmp ← sp_weak_counter.copy r;
  r ← sp_weak_counter.assign r this;
  this ← sp_weak_counter.assign this tmp;
  sp_weak_counter.destruct tmp;;
  mret (this, r).
Definition assign (this r : t) : M mem t :=
  tmp ← copy r;
  '(tmp, this) ← swap tmp this;
  destruct tmp;;
  mret this.
Definition assign_shared (this : t) (r : shared_ptr.t) : M mem t :=
  tmp ← of_shared r;
  '(tmp, this) ← swap tmp this;
  destruct tmp;;
  mret this.
Definition lock (this : t) : M mem shared_ptr.t := shared_ptr.of_weak this.
End weak_ptr.

(** ** Threads that share objects

    The handles are the pointers that exist, whoever holds them; an operation in flight is a
    method that has begun.  A copy, a move and an assignment are made of the steps below. *)
Inductive sp_op : Type :=
| B_cas (c : nat) (tv : Z)      (* [require_lock]: about to compare and exchange *)
| B_locked (c : nat)            (* [require_lock] succeeded *)
| B_dispose (c : nat)           (* [release]: the count was 1 *)
| B_weak_release (c : nat)
| B_destroy (c : nat).          (* [weak_release]: the count was 1 *)

Record sp_sys : Type := mk_sys { memory_ : mem; strong : list nat; weak : list nat; flight : list sp_op }.

Inductive sp_act : Type :=
| A_make
| A_copy (i : nat)
| A_use (i : nat)
| A_drop (i : nat)
| A_weaken (i : nat)
| A_weak_copy (i : nat)
| A_weak_drop (i : nat)
| A_lock (i : nat)
| A_run (j : nat) (ok : bool).

(** [compare_exchange_weak]: [ok] says that it does not fail without a reason. *)
Definition compare_exchange (c : nat) (tv : Z) (ok : bool) : M mem (option Z) :=
  v ← sp_count c;
  if ok && (v =? tv) then fetch_add_sp 1 c;; mret None else mret (Some v).

(** The next instruction of an operation: the operations that are left, and the pointers that
    are there afterwards. *)
Definition run_op (p : sp_op) (ok : bool) : M mem (list sp_op * list nat * list nat) :=
  match p with
  | B_cas c tv =>
      if tv =? 0 then mret ([], [c], [c])
      else
        r ← compare_exchange c tv ok;
        mret (match r with None => [B_locked c] | Some v => [B_cas c v] end, [], [])
  | B_locked c => sp_counter.locked c;; mret ([], [c], [c])
  | B_dispose c => dispose c;; mret ([B_weak_release c], [], [])
  | B_weak_release c => v ← fetch_add_weak (-1) c; mret (if v =? 1 then [B_destroy c] else [], [], [])
  | B_destroy c => destroy c;; mret ([], [], [])
  end.

Definition with_mem {A} (m : M mem A) (s : sp_sys) (k : A -> sp_sys -> sp_sys) : res sp_sys :=
  '(m', a) ← m (memory_ s); Ok (k a (mk_sys m' (strong s) (weak s) (flight s))).
Definition set_strong v s := mk_sys (memory_ s) v (weak s) (flight s).
Definition set_weak v s := mk_sys (memory_ s) (strong s) v (flight s).
Definition set_flight v s := mk_sys (memory_ s) (strong s) (weak s) v.

(** [None]: there is no such pointer or operation. *)
Definition sp_step (a : sp_act) (s : sp_sys) : option (res sp_sys) :=
  match a with
  | A_make => Some (with_mem shared_ptr.make_shared s (fun h s => match h with Some c => set_strong (c :: strong s) s | None => s end))
  | A_copy i => c ← strong s !! i;
      Some (with_mem (require c) s (fun _ s => set_strong (c :: strong s) s))
  | A_use i => c ← strong s !! i;
      Some (with_mem (shared_ptr.arrow (Some c)) s (fun _ s => s))
  | A_drop i => c ← strong s !! i;
      Some (with_mem (fetch_add_sp (-1) c) s (fun v s =>
        set_flight ((if v =? 1 then [B_dispose c] else []) ++ flight s) (set_strong (delete i (strong s)) s)))
  | A_weaken i => c ← strong s !! i;
      Some (with_mem (weak_require c) s (fun _ s => set_weak (c :: weak s) s))
  | A_weak_copy i => c ← weak s !! i;
      Some (with_mem (weak_require c) s (fun _ s => set_weak (c :: weak s) s))
  | A_weak_drop i => c ← weak s !! i;
      Some (with_mem (fetch_add_weak (-1) c) s (fun v s =>
        set_flight ((if v =? 1 then [B_destroy c] else []) ++ flight s) (set_weak (delete i (weak s)) s)))
  | A_lock i => c ← weak s !! i;
      Some (with_mem (load_checked 0 c) s (fun tv s =>
        set_flight (B_cas c tv :: flight s) (set_weak (delete i (weak s)) s)))
  | A_run j ok => p ← flight s !! j;
      Some (with_mem (run_op p ok) s (fun r s =>
        set_strong (r.1.2 ++ strong s) (set_weak (r.2 ++ weak s) (set_flight (r.1.1 ++ delete j (flight s)) s))))
  end.

(** A lock that finds the count at zero. *)
Definition lock_fails (a : sp_act) (s : sp_sys) : Prop :=
  match a with A_run j _ => exists c, flight s !! j = Some (B_cas c 0) | _ => False end.

Definition sp_start : sp_sys := mk_sys (mk_mem [] []) [] [] [].
Inductive sp_reach : sp_sys -> Prop :=
| sp_reach_start : sp_reach sp_start
| sp_reach_step s a s' : sp_reach s -> ~ lock_fails a s -> sp_step a s = Some (Ok s') -> sp_reach s'.

(** ** Intrusive pointers *)

(** The counters of the objects that live. *)
Abbreviation ref_mem := (list (option Z)).

Module ref_base.
Definition make : M ref_mem nat :=
  o ← gets (fun m => length m); modify (fun m => m ++ [Some 0]);; mret o.
Definition _ref_count (o : nat) : M ref_mem Z := fun m =>
  match m !! o with Some (Some n) => Ok (m, n) | _ => Fault Undefined end.
Definition fetch_add (d : Z) (o : nat) : M ref_mem Z :=
  n ← _ref_count o; modify (<[o := Some (n + d)]>);; mret n.
Definition delete_this (o : nat) : M ref_mem unit :=
  _ref_count o;; modify (<[o := None]>).
Definition grab_check (o : nat) : M ref_mem unit := n ← _ref_count o; assertM (0 <=? n).
Definition drop_check (o : nat) : M ref_mem unit := n ← _ref_count o; assertM (1 <=? n).
Definition _ref_grab (o : nat) : M ref_mem unit :=
  grab_check o;; fetch_add 1 o;; mret tt.
Definition _ref_drop (o : nat) : M ref_mem unit :=
  drop_check o;; n ← fetch_add (-1) o; when (n =? 1) (delete_this o).
End ref_base.

Module ref_ptr.
Definition t : Type := option nat.
Definition on_p (m : nat -> M ref_mem unit) (_p : t) : M ref_mem unit :=
  match _p with Some o => m o | None => mret tt end.
Definition of_pointer (p : t) : M ref_mem t := on_p ref_base._ref_grab p;; mret p.
Definition destruct (this : t) : M ref_mem unit := on_p ref_base._ref_drop this.
Definition copy (r : t) : M ref_mem t := on_p ref_base._ref_grab r;; mret r.
Definition move (r : t) : M ref_mem (t * t) := mret (r, None).
Definition assign (this r : t) : M ref_mem t := tmp ← copy r; destruct this;; mret tmp.
Definition assign_pointer (this : t) (p : t) : M ref_mem t := tmp ← of_pointer p; destruct this;; mret tmp.
Definition move_assign (this r : t) : M ref_mem (t * t) := on_p ref_base._ref_drop this;; mret (r, None).
Definition ref_count (this : t) : M ref_mem Z := match this with Some o => ref_base._ref_count o | None => mret 0 end.
Definition arrow (this : t) : M ref_mem nat :=
  assertM (bool_decide (this <> None));;
  match this with None => fail Undefined | Some o => ref_base._ref_count o;; mret o end.
Definition make_ref : M ref_mem t := o ← ref_base.make; of_pointer (Some o).
Definition static_pointer_cast (r : t) : M ref_mem t := copy r.
Definition dynamic_pointer_cast (p : nat -> bool) (r : t) : M ref_mem t :=
  if match r with Some o => p o | None => false end then copy r else mret None.
End ref_ptr.

(** *** Threads that share them *)
Inductive rf_op : Type :=
| R_new (o : nat)               (* [make_ref]: the object is there, the pointer not yet *)
| R_grabbing (o : nat)          (* a copy, after its assertion *)
| R_dropping (o : nat)          (* a destructor, after its assertion *)
| R_deleting (o : nat).         (* the count was 1 *)
Record rf_sys : Type := mk_rf { rf_mem : ref_mem; refs : list nat; rf_flight : list rf_op }.
Inductive rf_act : Type := F_make | F_copy (i : nat) | F_drop (i : nat) | F_use (i : nat) | F_run (j : nat).

Definition rf_run (p : rf_op) : M ref_mem (list rf_op * list nat) :=
  match p with
  | R_new o => ref_base.grab_check o;; ref_base.fetch_add 1 o;; mret ([], [o])
  | R_grabbing o => ref_base.fetch_add 1 o;; mret ([], [o; o])
  | R_dropping o => n ← ref_base.fetch_add (-1) o; mret (if n =? 1 then [R_deleting o] else [], [])
  | R_deleting o => ref_base.delete_this o;; mret ([], [])
  end.
Definition with_rf {A} (m : M ref_mem A) (s : rf_sys) (k : A -> rf_sys -> rf_sys) : res rf_sys :=
  '(m', a) ← m (rf_mem s); Ok (k a (mk_rf m' (refs s) (rf_flight s))).
(** The pointer that is copied is not touched by others meanwhile. *)
Definition rf_step (a : rf_act) (s : rf_sys) : option (res rf_sys) :=
  match a with
  | F_make => Some (with_rf ref_base.make s (fun o s => mk_rf (rf_mem s) (refs s) (R_new o :: rf_flight s)))
  | F_copy i => o ← refs s !! i;
      Some (with_rf (ref_base.grab_check o) s (fun _ s => mk_rf (rf_mem s) (delete i (refs s)) (R_grabbing o :: rf_flight s)))
  | F_drop i => o ← refs s !! i;
      Some (with_rf (ref_base.drop_check o) s (fun _ s => mk_rf (rf_mem s) (delete i (refs s)) (R_dropping o :: rf_flight s)))
  | F_use i => o ← refs s !! i; Some (with_rf (ref_ptr.arrow (Some o)) s (fun _ s => s))
  | F_run j => p ← rf_flight s !! j;
      Some (with_rf (rf_run p) s (fun r s => mk_rf (rf_mem s) (r.2 ++ refs s) (r.1 ++ delete j (rf_flight s))))
  end.
Definition rf_start : rf_sys := mk_rf [] [] [].
Inductive rf_reach : rf_sys -> Prop :=
| rf_reach_start : rf_reach rf_start
| rf_reach_step s a s' : rf_reach s -> rf_step a s = Some (Ok s') -> rf_reach s'.
