(* ===== verification/SmartPtrProofs.v ===== *)
(** * SmartPtrProofs: pointers keep their objects alive

    Every pointer and every operation in flight is a share in a block.  [acct] says what the
    counters of the block are in terms of the shares; each atomic instruction is a triple that
    exchanges shares, so that the shares of the others do not matter.

    - [shared_ptr_safe]: threads that share objects never touch what is gone, and nothing is left
      behind; the condition is that no lock fails;
    - [failed_lock_breaks]: what a lock that fails leads to;
    - [ref_ptr_safe]: the same safety for intrusive pointers, without a condition;
    - [move_same_asserts], [weak_assign_same_asserts]: assignments that end in failed assertions. *)

From S2P Require Import Prelude Effects SmartPtr.
Import sp_counter_base.

(** ** Shares *)
Inductive kind : Type := K_strong | K_weak | K_cas | K_locked | K_dispose | K_release | K_destroy.
Definition kind_eqb (a b : kind) : bool :=
  match a, b with
  | K_strong, K_strong | K_weak, K_weak | K_cas, K_cas | K_locked, K_locked
  | K_dispose, K_dispose | K_release, K_release | K_destroy, K_destroy => true
  | _, _ => false
  end.
Definition share : Type := kind * nat.

Fixpoint num {A} (p : A -> bool) (l : list A) : Z :=
  match l with [] => 0 | x :: l' => (if p x then 1 else 0) + num p l' end.
Lemma num_nonneg {A} (p : A -> bool) l : 0 <= num p l.
Proof. induction l as [|x l IH]; simpl; [done | destruct (p x); lia]. Qed.
Lemma num_app {A} (p : A -> bool) l1 l2 : num p (l1 ++ l2) = num p l1 + num p l2.
Proof. induction l1 as [|x l IH]; simpl; [done | lia]. Qed.
#[export] Instance num_perm {A} (p : A -> bool) : Proper ((≡ₚ) ==> (=)) (num p).
Proof. induction 1; simpl; lia. Qed.

Definition is_share (k : kind) (c : nat) (x : share) : bool := kind_eqb k x.1 && (c =? x.2)%nat.
Definition cnt (k : kind) (c : nat) (T : list share) : Z := num (is_share k c) T.

(** The counters of a block, and whether its object lives. *)
Definition acct (c : nat) (e : option (option block)) (alive : option bool) (n : kind -> Z) : Prop :=
  match e with
  | Some (Some b) =>
      sp_c b = n K_strong + n K_locked
      /\ sp_weak_c b = n K_weak + n K_cas + n K_locked + n K_dispose + n K_release + (if 0 <? sp_c b then 1 else 0)
      /\ n K_dispose + n K_release <= (if 0 <? sp_c b then 0 else 1)
      /\ n K_destroy = (if sp_weak_c b =? 0 then 1 else 0)
      /\ __p b = (if (0 <? sp_c b) || (0 <? n K_dispose) then Some c else None)
      /\ alive = Some (bool_decide (__p b <> None))
  | Some None => alive = Some false /\ forall k, n k = 0
  | None => alive = None /\ forall k, n k = 0
  end.
Definition inv (m : mem) (T : list share) : Prop :=
  forall c, acct c (blocks m !! c) (objects m !! c) (fun k => cnt k c T).

Lemma inv_perm m T T' : T ≡ₚ T' -> inv m T -> inv m T'.
Proof.
  intros Hp HI c. specialize (HI c). unfold acct in *. assert (HC : forall k, cnt k c T = cnt k c T').
  { intros k. unfold cnt. by rewrite Hp. }
  destruct (blocks m !! c) as [[b|]|]; rewrite ?HC in HI; [done|..]; (split; [apply HI|]); intros k; rewrite <- HC; apply HI.
Qed.

Lemma cnt_cons_ne k c x T : x.2 <> c -> cnt k c (x :: T) = cnt k c T.
Proof. intros Hn. unfold cnt. simpl. unfold is_share. rewrite (proj2 (Nat.eqb_neq c x.2)) by congruence. by rewrite andb_false_r. Qed.

(** A share is in a block that is there. *)
Lemma inv_share m T k c : inv m ((k, c) :: T) -> exists b, blocks m !! c = Some (Some b).
Proof.
  intros HI. specialize (HI c). unfold acct in HI. destruct (blocks m !! c) as [[b|]|]; [by eexists|..];
    destruct HI as [_ HI]; specialize (HI k); unfold cnt in HI; simpl in HI; unfold is_share in HI at 1;
    simpl in HI; rewrite Nat.eqb_refl in HI; pose proof (num_nonneg (is_share k c) T); destruct k; simpl in HI; lia.
Qed.

(** An instruction on one block. *)
Lemma inv_block m T T' c b b' objs : inv m T -> blocks m !! c = Some (Some b) ->
  (forall c' k, c' <> c -> cnt k c' T' = cnt k c' T) -> (forall c', c' <> c -> objs !! c' = objects m !! c') ->
  acct c (Some b') (objs !! c) (fun k => cnt k c T') ->
  inv (mk_mem objs (<[c := b']> (blocks m))) T'.
Proof.
  intros HI Hb Ho Hobj Hc c'. cbn [blocks objects]. destruct (decide (c' = c)) as [->|Hn].
  - rewrite list_lookup_insert_eq by (by eapply lookup_lt_Some). done.
  - rewrite list_lookup_insert_ne, Hobj by done. specialize (HI c'). unfold acct in *.
    destruct (blocks m !! c') as [[b1|]|]; rewrite ?(Ho _ _ Hn); [done|..]; (split; [apply HI|]); intros k; rewrite Ho by done; apply HI.
Qed.

Lemma fetch_add_sp_run d c m b : blocks m !! c = Some (Some b) ->
  fetch_add_sp d c m = Ok (mk_mem (objects m) (<[c := Some (set_sp_c (sp_c b + d) b)]> (blocks m)), sp_c b).
Proof. intros E. unfold fetch_add_sp, upd_block, read_block, mbind, M_bind. by rewrite E, E. Qed.
Lemma fetch_add_weak_run d c m b : blocks m !! c = Some (Some b) ->
  fetch_add_weak d c m = Ok (mk_mem (objects m) (<[c := Some (set_sp_weak_c (sp_weak_c b + d) b)]> (blocks m)), sp_weak_c b).
Proof. intros E. unfold fetch_add_weak, upd_block, read_block, mbind, M_bind. by rewrite E, E. Qed.

(** Count the shares of the block in question. *)
Ltac shares c := unfold cnt in *; cbn [num is_share kind_eqb fst snd andb app] in *; rewrite ?(Nat.eqb_refl c) in *.
Ltac counted c T := let H := fresh in assert (H : forall k, 0 <= num (is_share k c) T) by (intros; apply num_nonneg);
  pose proof (H K_strong); pose proof (H K_weak); pose proof (H K_cas); pose proof (H K_locked);
  pose proof (H K_dispose); pose proof (H K_release); pose proof (H K_destroy); clear H.

(** The obligation for the block itself: arithmetic on its counters. *)
Ltac account HI Hb c T :=
  cbn [app];
  eapply inv_block; [exact HI | exact Hb | intros c' k' Hn; by rewrite ?cnt_cons_ne by (cbn; congruence) | done |];
  specialize (HI c); rewrite Hb in HI; unfold acct in *; cbn [sp_c sp_weak_c __p set_sp_c set_sp_weak_c set_p objects] in *;
  shares c; counted c T;
  destruct HI as (A1 & A2 & A3 & A4 & A5 & A6);
  repeat match goal with |- context [0 <? ?x] => destruct (Z.ltb_spec 0 x) | H : context [0 <? ?x] |- _ => destruct (Z.ltb_spec 0 x) end;
  repeat match goal with |- context [?x =? ?y] => destruct (Z.eqb_spec x y) | H : context [?x =? ?y] |- _ => destruct (Z.eqb_spec x y) end;
  cbn [orb] in *; try lia; repeat (split; [first [lia | congruence]|]); first [congruence | lia | idtac].

Lemma require_triple m T c : inv m ((K_strong, c) :: T) ->
  wp (require c) m (fun m' _ => inv m' ((K_strong, c) :: (K_strong, c) :: T)).
Proof.
  intros HI. destruct (inv_share m T _ c HI) as [b Hb]. unfold require. rewrite wp_bind. unfold wp at 1.
  rewrite (fetch_add_sp_run _ _ _ _ Hb), wp_ret. account HI Hb c T.
Qed.
Lemma weak_require_triple m T k c : k = K_strong \/ k = K_weak -> inv m ((k, c) :: T) ->
  wp (weak_require c) m (fun m' _ => inv m' ((K_weak, c) :: (k, c) :: T)).
Proof.
  intros Hk HI. destruct (inv_share m T _ c HI) as [b Hb]. unfold weak_require. rewrite wp_bind. unfold wp at 1.
  rewrite (fetch_add_weak_run _ _ _ _ Hb), wp_ret. destruct Hk as [->| ->]; account HI Hb c T.
Qed.
Lemma drop_triple m T c : inv m ((K_strong, c) :: T) ->
  wp (fetch_add_sp (-1) c) m (fun m' v => inv m' ((if v =? 1 then [(K_dispose, c)] else []) ++ T)).
Proof.
  intros HI. destruct (inv_share m T _ c HI) as [b Hb]. unfold wp. rewrite (fetch_add_sp_run _ _ _ _ Hb).
  destruct (Z.eqb_spec (sp_c b) 1) as [Ev|Ev]; account HI Hb c T.
Qed.
Lemma weak_drop_triple m T k c : k = K_weak \/ k = K_release -> inv m ((k, c) :: T) ->
  wp (fetch_add_weak (-1) c) m (fun m' v => inv m' ((if v =? 1 then [(K_destroy, c)] else []) ++ T)).
Proof.
  intros Hk HI. destruct (inv_share m T _ c HI) as [b Hb]. unfold wp. rewrite (fetch_add_weak_run _ _ _ _ Hb).
  destruct (Z.eqb_spec (sp_weak_c b) 1) as [Ev|Ev]; destruct Hk as [->| ->]; account HI Hb c T.
Qed.
Lemma sp_count_run c m b : blocks m !! c = Some (Some b) -> sp_count c m = Ok (m, sp_c b).
Proof. intros E. unfold sp_count, read_block, mbind, M_bind. by rewrite E. Qed.

(** A share that becomes another one where nothing is written. *)
Lemma shares_same m T T' c b : inv m T -> blocks m !! c = Some (Some b) ->
  (forall c' k, c' <> c -> cnt k c' T' = cnt k c' T) ->
  acct c (Some (Some b)) (objects m !! c) (fun k => cnt k c T') -> inv m T'.
Proof.
  intros HI Hb Ho Hc. replace m with (mk_mem (objects m) (<[c := Some b]> (blocks m))).
  - by eapply inv_block.
  - destruct m as [o bs]. cbn in *. by rewrite list_insert_id.
Qed.
Ltac account_same HI Hb c T :=
  cbn [app];
  eapply shares_same; [exact HI | exact Hb | intros c' k' Hn; by rewrite ?cnt_cons_ne by (cbn; congruence) |];
  specialize (HI c); rewrite Hb in HI; unfold acct in *; shares c; counted c T;
  destruct HI as (A1 & A2 & A3 & A4 & A5 & A6);
  repeat match goal with |- context [0 <? ?x] => destruct (Z.ltb_spec 0 x) | H : context [0 <? ?x] |- _ => destruct (Z.ltb_spec 0 x) end;
  repeat match goal with |- context [?x =? ?y] => destruct (Z.eqb_spec x y) | H : context [?x =? ?y] |- _ => destruct (Z.eqb_spec x y) end;
  cbn [orb] in *; try lia; repeat (split; [first [lia | congruence]|]); first [congruence | lia | idtac].

(** The count of a block in terms of its shares. *)
Lemma inv_counts m T c b : inv m T -> blocks m !! c = Some (Some b) ->
  sp_c b = cnt K_strong c T + cnt K_locked c T
  /\ __p b = (if (0 <? sp_c b) || (0 <? cnt K_dispose c T) then Some c else None)
  /\ objects m !! c = Some (bool_decide (__p b <> None)).
Proof. intros HI Hb. specialize (HI c). rewrite Hb in HI. by destruct HI as (A1 & _ & _ & _ & A5 & A6). Qed.

Lemma load_triple m T c : inv m ((K_weak, c) :: T) ->
  wp (load_checked 0 c) m (fun m' _ => inv m' ((K_cas, c) :: T)).
Proof.
  intros HI. destruct (inv_share m T _ c HI) as [b Hb]. unfold load_checked. rewrite wp_bind. unfold wp at 1.
  rewrite (sp_count_run _ _ _ Hb), wp_bind, wp_assert, wp_ret.
  split; [|account_same HI Hb c T].
  destruct (inv_counts _ _ _ _ HI Hb) as (E & _). pose proof (num_nonneg (is_share K_strong c) ((K_weak, c) :: T)).
  pose proof (num_nonneg (is_share K_locked c) ((K_weak, c) :: T)). unfold cnt in E. apply Z.leb_le. lia.
Qed.
Lemma cas_triple m T c tv ok : tv <> 0 -> inv m ((K_cas, c) :: T) ->
  wp (compare_exchange c tv ok) m (fun m' r => inv m' ((if r is Some _ then K_cas else K_locked, c) :: T)).
Proof.
  intros Ht HI. destruct (inv_share m T _ c HI) as [b Hb]. unfold compare_exchange. rewrite wp_bind. unfold wp at 1.
  rewrite (sp_count_run _ _ _ Hb). destruct (ok && (sp_c b =? tv)) eqn:E; [|by rewrite wp_ret].
  apply andb_true_iff in E as [_ E%Z.eqb_eq]. rewrite wp_bind. unfold wp at 1. rewrite (fetch_add_sp_run _ _ _ _ Hb), wp_ret.
  account HI Hb c T.
Qed.
Lemma locked_triple m T c : inv m ((K_locked, c) :: T) ->
  wp (sp_counter.locked c) m (fun m' _ => inv m' ((K_strong, c) :: (K_weak, c) :: T)).
Proof.
  intros HI. destruct (inv_share m T _ c HI) as [b Hb]. unfold sp_counter.locked. rewrite wp_bind. unfold wp at 1, read_block. rewrite Hb.
  assert (0 < sp_c b /\ __p b = Some c) as [Hc Hp].
  { destruct (inv_counts _ _ _ _ HI Hb) as (E & Ep & _). shares c. counted c T.
    assert (0 < sp_c b) by lia. split; [done|]. rewrite Ep. by rewrite (proj2 (Z.ltb_lt _ _)). }
  rewrite Hp. rewrite wp_bind, wp_assert. split; [done|]. rewrite wp_assert. split; [by apply Z.ltb_lt|].
  account_same HI Hb c T.
Qed.
Lemma use_triple m T c : inv m ((K_strong, c) :: T) ->
  wp (shared_ptr.arrow (Some c)) m (fun m' _ => m' = m).
Proof.
  intros HI. destruct (inv_share m T _ c HI) as [b Hb]. unfold shared_ptr.arrow. rewrite wp_bind, wp_assert. split; [done|].
  rewrite wp_bind. unfold wp at 1, read_block. rewrite Hb.
  destruct (inv_counts _ _ _ _ HI Hb) as (E & Ep & Eo). shares c. counted c T.
  rewrite (proj2 (Z.ltb_lt _ _)) in Ep by lia. cbn in Ep. rewrite Ep in *. rewrite wp_bind, wp_assert. split; [done|].
  unfold wp, deref. by rewrite Eo.
Qed.
Lemma destroy_triple m T c : inv m ((K_destroy, c) :: T) -> wp (destroy c) m (fun m' _ => inv m' T).
Proof.
  intros HI. destruct (inv_share m T _ c HI) as [b Hb]. unfold destroy. rewrite wp_bind. unfold wp at 1, read_block.
  rewrite Hb, wp_modify. eapply inv_block; [exact HI | exact Hb | intros c' k Hn; by rewrite cnt_cons_ne by (cbn; congruence) | done|].
  specialize (HI c). rewrite Hb in HI. unfold acct in *. shares c. counted c T. destruct HI as (A1 & A2 & A3 & A4 & A5 & A6).
  destruct (Z.eqb_spec (sp_weak_c b) 0) as [E|E]; [|lia].
  assert (sp_c b = 0) as E0 by (destruct (Z.ltb_spec 0 (sp_c b)); lia). rewrite E0 in *. cbn in A2, A3, A5. rewrite ?Z.add_0_l in *.
  destruct (Z.ltb_spec 0 (num (is_share K_dispose c) T)); [lia|]. rewrite A5 in A6. split; [done|].
  intros []; lia.
Qed.
Lemma dispose_triple m T c : inv m ((K_dispose, c) :: T) ->
  wp (dispose c) m (fun m' _ => inv m' ((K_release, c) :: T)).
Proof.
  intros HI. destruct (inv_share m T _ c HI) as [b Hb]. unfold dispose, upd_block. rewrite wp_bind. unfold wp at 1, read_block at 1.
  rewrite Hb. destruct (inv_counts _ _ _ _ HI Hb) as (_ & Ep & Eo).
  assert (HD : 0 < cnt K_dispose c ((K_dispose, c) :: T)) by (shares c; counted c T; lia).
  apply Z.ltb_lt in HD. rewrite HD, orb_true_r in Ep. rewrite Ep in Eo |- *. rewrite wp_bind. unfold wp at 1, checked_delete.
  change (bool_decide (Some c <> None)) with true in Eo. rewrite Eo.
  rewrite wp_bind. unfold wp at 1, read_block. cbn [blocks set_objects]. rewrite Hb, wp_modify. unfold set_blocks, set_objects. cbn [objects blocks].
  eapply inv_block; [exact HI | exact Hb | intros c' k Hn; by rewrite !cnt_cons_ne by (cbn; congruence)
    | intros c' Hn; by rewrite list_lookup_insert_ne |].
  rewrite list_lookup_insert_eq by (by eapply lookup_lt_Some).
  specialize (HI c). rewrite Hb in HI. unfold acct in *. cbn [sp_c sp_weak_c __p set_p]. shares c. counted c T.
  destruct HI as (A1 & A2 & A3 & A4 & _). destruct (Z.ltb_spec 0 (sp_c b)); [lia|].
  rewrite ?Z.add_0_l in *. repeat (split; [lia|]). split; [|done]. cbn [orb]. destruct (Z.ltb_spec 0 (num (is_share K_dispose c) T)); [lia | done].
Qed.

(** A block and an object that were not there. *)
Lemma make_triple m T : inv m T -> length (objects m) = length (blocks m) ->
  wp shared_ptr.make_shared m (fun m' h => exists c, h = Some c /\ inv m' ((K_strong, c) :: T)).
Proof.
  intros HI HL. unfold shared_ptr.make_shared. rewrite wp_bind, wp_gets, wp_bind, wp_modify.
  unfold sp_counter.make, make. rewrite !wp_bind, wp_gets, wp_bind, wp_modify, wp_ret, wp_ret. rewrite HL.
  cbn [blocks set_objects]. eexists. split; [done|].
  intros c. unfold set_blocks, set_objects. cbn [blocks objects]. destruct (decide (c = length (blocks m))) as [->|Hn].
  - rewrite !list_lookup_middle by done. specialize (HI (length (blocks m))).
    rewrite lookup_ge_None_2 in HI by lia. destruct HI as [_ HN]. unfold acct. cbn [sp_c sp_weak_c __p].
    unfold cnt in *. cbn [num is_share kind_eqb fst snd andb]. rewrite Nat.eqb_refl, !HN. done.
  - assert (HC : forall k, cnt k c ((K_strong, length (blocks m)) :: T) = cnt k c T) by (intros k; apply cnt_cons_ne; cbn; congruence).
    assert (E : forall A (l : list A) x, length l = length (blocks m) -> (l ++ [x]) !! c = l !! c).
    { intros A l x Hl. destruct (decide (c < length l)%nat); [by rewrite lookup_app_l|].
      rewrite !lookup_ge_None_2; [done | rewrite ?length_app; simpl; lia..]. }
    rewrite !E by done. specialize (HI c). unfold acct in *.
    destruct (blocks m !! c) as [[b|]|]; rewrite ?HC; [done|..]; (split; [apply HI|]); intros k; rewrite HC; apply HI.
Qed.

(** ** The system *)
Definition op_share (p : sp_op) : share :=
  match p with
  | B_cas c _ => (K_cas, c)
  | B_locked c => (K_locked, c)
  | B_dispose c => (K_dispose, c)
  | B_weak_release c => (K_release, c)
  | B_destroy c => (K_destroy, c)
  end.
Definition shares_of (st wk : list nat) (fl : list sp_op) : list share :=
  map (pair K_strong) st ++ map (pair K_weak) wk ++ map op_share fl.
Definition sys_ok (s : sp_sys) : Prop := inv (memory_ s) (shares_of (strong s) (weak s) (flight s)).

Lemma inv_length m T : inv m T -> length (objects m) = length (blocks m).
Proof.
  intros HI. assert (HN : forall c, objects m !! c = None <-> blocks m !! c = None).
  { intros c. specialize (HI c). unfold acct in HI. destruct (blocks m !! c) as [[b|]|];
      [destruct HI as (_ & _ & _ & _ & _ & ->) | destruct HI as [-> _]..]; done. }
  apply Nat.le_antisymm; apply lookup_ge_None; apply HN; by apply lookup_ge_None.
Qed.

(** Adding and taking away. *)
Lemma shares_app st' wk' fl' st wk fl : shares_of (st' ++ st) (wk' ++ wk) (fl' ++ fl)
  ≡ₚ map (pair K_strong) st' ++ map (pair K_weak) wk' ++ map op_share fl' ++ shares_of st wk fl.
Proof.
  unfold shares_of. rewrite !map_app.
  generalize (map (pair K_strong) st') (map (pair K_weak) wk') (map op_share fl') (map (pair K_strong) st) (map (pair K_weak) wk) (map op_share fl).
  intros s1 w1 f1 s2 w2 f2. rewrite <- !app_assoc. apply Permutation_app_head.
  rewrite (Permutation_app_swap_app s2 w1). apply Permutation_app_head.
  rewrite (app_assoc s2 w2), (Permutation_app_swap_app (s2 ++ w2) f1 f2). by rewrite <- app_assoc.
Qed.
Lemma shares_strong st wk fl i c : st !! i = Some c -> shares_of st wk fl ≡ₚ (K_strong, c) :: shares_of (delete i st) wk fl.
Proof.
  intros E. etrans; [|exact (shares_app [c] [] [] (delete i st) wk fl)]. unfold shares_of.
  apply Permutation_app_tail, Permutation_map. by apply delete_Permutation.
Qed.
Lemma shares_weak st wk fl i c : wk !! i = Some c -> shares_of st wk fl ≡ₚ (K_weak, c) :: shares_of st (delete i wk) fl.
Proof.
  intros E. etrans; [|exact (shares_app [] [c] [] st (delete i wk) fl)]. unfold shares_of.
  apply Permutation_app_head, Permutation_app_tail, Permutation_map. by apply delete_Permutation.
Qed.
Lemma shares_flight st wk fl j p : fl !! j = Some p -> shares_of st wk fl ≡ₚ op_share p :: shares_of st wk (delete j fl).
Proof.
  intros E. etrans; [|exact (shares_app [] [] [p] st wk (delete j fl))]. unfold shares_of.
  apply Permutation_app_head, Permutation_app_head, Permutation_map. by apply delete_Permutation.
Qed.

(** An action whose instruction exchanges [old] for [new]. *)
Lemma with_mem_ok {A} (m : M mem A) s k old rest (new : A -> list share) : sys_ok s ->
  shares_of (strong s) (weak s) (flight s) ≡ₚ old ++ rest ->
  (forall m' a, let s' := k a (mk_sys m' (strong s) (weak s) (flight s)) in
     memory_ s' = m' /\ shares_of (strong s') (weak s') (flight s') ≡ₚ new a ++ rest) ->
  (forall T, inv (memory_ s) (old ++ T) -> wp m (memory_ s) (fun m' a => inv m' (new a ++ T))) ->
  exists s', with_mem m s k = Ok s' /\ sys_ok s'.
Proof.
  intros HI HP Hk Hm. specialize (Hm rest (inv_perm _ _ _ HP HI)). unfold wp, with_mem in *.
  destruct (m (memory_ s)) as [[m' a]|]; [|done]. res_simpl. eexists. split; [done|]. destruct (Hk m' a) as [Em Es].
  unfold sys_ok. rewrite Em. eapply inv_perm; [|exact Hm]. done.
Qed.

Lemma run_op_triple m T p ok : (forall c, p <> B_cas c 0) -> inv m (op_share p :: T) ->
  wp (run_op p ok) m (fun m' r => inv m' (map (pair K_strong) r.1.2 ++ map (pair K_weak) r.2 ++ map op_share r.1.1 ++ T)).
Proof.
  intros Hp HI. destruct p as [c tv|c|c|c|c]; cbn [run_op op_share] in *.
  - destruct (Z.eqb_spec tv 0) as [->|Ht]; [by destruct (Hp c)|]. rewrite wp_bind.
    eapply wp_mono; [by apply (cas_triple _ T)|]. intros m' [v|] HI'; by rewrite wp_ret.
  - rewrite wp_bind. eapply wp_mono; [by apply locked_triple|]. intros m' u HI'. by rewrite wp_ret.
  - rewrite wp_bind. eapply wp_mono; [by apply dispose_triple|]. intros m' u HI'. by rewrite wp_ret.
  - rewrite wp_bind. eapply wp_mono; [apply (weak_drop_triple _ T K_release c); [by right | done]|]. intros m' v HI'.
    rewrite wp_ret. cbn beta in HI'. destruct (v =? 1); exact HI'.
  - rewrite wp_bind. eapply wp_mono; [by apply destroy_triple|]. intros m' u HI'. by rewrite wp_ret.
Qed.

Lemma sp_step_ok a s r : sys_ok s -> ~ lock_fails a s -> sp_step a s = Some r -> exists s', r = Ok s' /\ sys_ok s'.
Proof.
  intros HI Hf Hs. destruct a as [|i|i|i|i|i|i|i|j ok]; cbn [sp_step] in Hs;
    [injection Hs as <- | apply bind_Some in Hs as (c & E & [= <-])..].
  - eapply (with_mem_ok _ s _ [] (shares_of (strong s) (weak s) (flight s)) (fun h => from_option (fun c => [(K_strong, c)]) [] h) HI); [done | by intros m' [c|] | intros T HT].
    eapply wp_mono; [apply make_triple; [exact HT | by eapply inv_length]|]. intros m' h (c & -> & HI'). done.
  - pose proof (shares_strong _ (weak s) (flight s) _ _ E) as HP.
    eapply (with_mem_ok _ s _ [_] _ (fun _ => [(K_strong, c); (K_strong, c)]) HI HP); [|intros T; apply require_triple].
    intros m' u. split; [done|]. cbn. by rewrite <- HP.
  - pose proof (shares_strong _ (weak s) (flight s) _ _ E) as HP.
    eapply (with_mem_ok _ s _ [_] _ (fun _ => [(K_strong, c)]) HI HP); [done|]. intros T HT.
    eapply wp_mono; [by eapply use_triple|]. by intros m' u ->.
  - eapply (with_mem_ok _ s _ [_] _ (fun v => if v =? 1 then [(K_dispose, c)] else []) HI (shares_strong _ _ _ _ _ E)); [|intros T; apply drop_triple].
    intros m' v. split; [done|]. cbn. destruct (v =? 1); [|done]. apply (shares_app [] [] [B_dispose c]).
  - pose proof (shares_strong _ (weak s) (flight s) _ _ E) as HP.
    eapply (with_mem_ok _ s _ [_] _ (fun _ => [(K_weak, c); (K_strong, c)]) HI HP); [|intros T; apply weak_require_triple; by left].
    intros m' u. split; [done|]. etrans; [apply (shares_app [] [c] [])|]. cbn. by rewrite <- HP.
  - pose proof (shares_weak (strong s) _ (flight s) _ _ E) as HP.
    eapply (with_mem_ok _ s _ [_] _ (fun _ => [(K_weak, c); (K_weak, c)]) HI HP); [|intros T; apply weak_require_triple; by right].
    intros m' u. split; [done|]. etrans; [apply (shares_app [] [c] [])|]. cbn. by rewrite <- HP.
  - eapply (with_mem_ok _ s _ [_] _ (fun v => if v =? 1 then [(K_destroy, c)] else []) HI (shares_weak _ _ _ _ _ E));
      [|intros T; apply weak_drop_triple; by left].
    intros m' v. split; [done|]. cbn. destruct (v =? 1); [|done]. apply (shares_app [] [] [B_destroy c]).
  - eapply (with_mem_ok _ s _ [_] _ (fun _ => [(K_cas, c)]) HI (shares_weak _ _ _ _ _ E)); [|intros T; apply load_triple].
    intros m' tv. split; [done|]. apply (shares_app [] [] [B_cas c tv]).
  - eapply (with_mem_ok _ s _ [_] _ (fun r => map (pair K_strong) r.1.2 ++ map (pair K_weak) r.2 ++ map op_share r.1.1) HI (shares_flight _ _ _ _ _ E)).
    + intros m' r. split; [done|]. rewrite <- !app_assoc. apply shares_app.
    + intros T HT. eapply wp_mono; [apply run_op_triple; [|exact HT]|].
      * intros x ->. apply Hf. by exists x.
      * intros m' r HI'. by rewrite <- !app_assoc.
Qed.

Lemma sp_reach_ok s : sp_reach s -> sys_ok s.
Proof.
  induction 1 as [|s a s' _ IH Hf Hs]; [by intros c; split|].
  destruct (sp_step_ok a s _ IH Hf Hs) as (s2 & [= <-] & HI). done.
Qed.

Lemma num_pos {A} (p : A -> bool) l : 0 < num p l <-> exists x, x ∈ l /\ p x = true.
Proof.
  induction l as [|x l IH]; simpl; [split; [lia | by intros (x & Hx%not_elem_of_nil & _)]|]. split.
  - destruct (p x) eqn:E; [intros _; exists x; split; [by left | done]|]. intros Hl. destruct IH as [IH _].
    destruct IH as (y & Hy & Ey); [lia|]. exists y. split; [by right | done].
  - intros (y & [->|Hy]%elem_of_cons & Ey); [rewrite Ey; pose proof (num_nonneg p l); lia|].
    assert (0 < num p l) by (apply IH; by exists y). destruct (p x); lia.
Qed.
Lemma cnt_quiet st wk k c : cnt k c (shares_of st wk []) = (if kind_eqb k K_strong then num (Nat.eqb c) st else if kind_eqb k K_weak then num (Nat.eqb c) wk else 0).
Proof.
  unfold cnt, shares_of. rewrite !num_app. cbn [map num].
  assert (HM : forall k' l, num (is_share k c) (map (pair k') l) = if kind_eqb k k' then num (Nat.eqb c) l else 0).
  { intros k' l. induction l as [|x l IH]; cbn [map num]; [by destruct (kind_eqb k k')|]. rewrite IH. unfold is_share. cbn.
    by destruct (kind_eqb k k'). }
  rewrite !HM. by destruct k; cbn; lia.
Qed.
Lemma num_eqb_pos c l : 0 < num (Nat.eqb c) l <-> c ∈ l.
Proof. rewrite num_pos. split; [by intros (x & Hx & ->%Nat.eqb_eq) | intros Hc; exists c; by rewrite Nat.eqb_refl]. Qed.

(** An object with a shared pointer lives. *)
Lemma held_alive m T c : inv m ((K_strong, c) :: T) -> objects m !! c = Some true.
Proof.
  intros HI. destruct (inv_share m T _ c HI) as [b Hb]. destruct (inv_counts _ _ _ _ HI Hb) as (E & Ep & Eo).
  shares c. counted c T. rewrite (proj2 (Z.ltb_lt _ _)) in Ep by lia. rewrite Eo, Ep. done.
Qed.

(** C20: Threads that make, copy, use, hand over and drop shared and weak pointers in any
    interleaving of their atomic instructions, as long as no lock of a weak pointer finds the
    object gone: no assertion fails and nothing that is gone is touched or deleted again; an
    object lives while a shared pointer to it exists; and when no operation is in flight, exactly
    the objects with a shared pointer live, and exactly the blocks with a pointer are there, with
    the number of shared pointers as their count. *)
Theorem shared_ptr_safe s : sp_reach s ->
  (forall a r, ~ lock_fails a s -> sp_step a s = Some r -> exists s', r = Ok s')
  /\ (forall c, c ∈ strong s -> objects (memory_ s) !! c = Some true)
  /\ (flight s = [] -> forall c,
        (objects (memory_ s) !! c = Some true <-> c ∈ strong s)
        /\ ((exists b, blocks (memory_ s) !! c = Some (Some b)) <-> c ∈ strong s \/ c ∈ weak s)
        /\ (forall b, blocks (memory_ s) !! c = Some (Some b) -> sp_c b = num (Nat.eqb c) (strong s))).
Proof.
  intros Hr. pose proof (sp_reach_ok s Hr) as HI. split.
  { intros a r Hf Hs. destruct (sp_step_ok a s r HI Hf Hs) as (s' & -> & _). by exists s'. }
  split.
  - intros c [i Hi]%list_elem_of_lookup. eapply held_alive, inv_perm; [by apply shares_strong | exact HI].
  - intros Hq c. unfold sys_ok in HI. rewrite Hq in HI. specialize (HI c). unfold acct in HI.
    rewrite !cnt_quiet in HI. cbn [kind_eqb] in HI. pose proof (num_nonneg (Nat.eqb c) (strong s)). pose proof (num_nonneg (Nat.eqb c) (weak s)).
    rewrite <- !num_eqb_pos.
    destruct (blocks (memory_ s) !! c) as [[b|]|] eqn:Eb.
    + destruct HI as (A1 & A2 & A3 & A4 & A5 & ->). rewrite A5. cbn [orb] in *. rewrite orb_false_r in *.
      split; [|split].
      * destruct (Z.ltb_spec 0 (sp_c b)); (split; [intros E|intros ?]); [lia | done | done | lia].
      * destruct (Z.eqb_spec (sp_weak_c b) 0); [done|]. split; [intros _ | by eexists]. destruct (Z.ltb_spec 0 (sp_c b)); lia.
      * intros b' [= <-]. lia.
    + destruct HI as [-> HN]. pose proof (HN K_strong) as N1. pose proof (HN K_weak) as N2. rewrite !cnt_quiet in N1, N2. cbn in N1, N2.
      split; [split; [done | lia]|]. split; [|done]. split; [by intros [? ?] | lia].
    + destruct HI as [-> HN]. pose proof (HN K_strong) as N1. pose proof (HN K_weak) as N2. rewrite !cnt_quiet in N1, N2. cbn in N1, N2.
      split; [split; [done | lia]|]. split; [|done]. split; [by intros [? ?] | lia].
Qed.

(** ** A lock that fails *)

Lemma dispose_null m c b : blocks m !! c = Some (Some b) -> __p b = None ->
  dispose c m = Ok (mk_mem (objects m) (<[c := Some b]> (blocks m)), tt).
Proof.
  intros Hb Hp. unfold dispose, upd_block, read_block, mbind, M_bind. rewrite Hb, Hp. cbn. rewrite Hb. unfold modify, set_p, set_blocks.
  destruct b as [q n w]. cbn in *. by rewrite Hp.
Qed.
Lemma weak_release_last m c b : blocks m !! c = Some (Some b) -> sp_weak_c b = 1 ->
  exists m', weak_release c m = Ok (m', tt) /\ blocks m' !! c = Some None.
Proof.
  intros Hb Hw. unfold weak_release, mbind, M_bind. rewrite (fetch_add_weak_run _ _ _ _ Hb), Hw. cbn -[destroy].
  assert (Hl : (c < length (blocks m))%nat) by (by eapply lookup_lt_Some).
  unfold destroy, read_block, mbind, M_bind. cbn. rewrite list_lookup_insert_eq by done. eexists. split; [done|]. cbn.
  by rewrite list_lookup_insert_eq by (by rewrite length_insert).
Qed.

(** A lock that finds the object gone leaves the block in the new pointer.  When that pointer
    is dropped the count becomes -1, and the next lock fails an assertion; when it is copied, the
    copy's end frees the block while the pointer still has it, and the pointer's own end touches
    what is gone. *)
Theorem failed_lock_breaks m c b : blocks m !! c = Some (Some b) -> sp_c b = 0 -> __p b = None ->
  (exists m', weak_ptr.lock (Some c) m = Ok (m', Some c) /\ shared_ptr.get (Some c) m' = Ok (m', None))
  /\ (q ← weak_ptr.lock (Some c); shared_ptr.destruct q;; weak_ptr.lock (Some c)) m = Fault AssertFailed
  /\ (sp_weak_c b = 1 ->
      (q ← weak_ptr.lock (Some c); r ← shared_ptr.copy q; shared_ptr.destruct r;; shared_ptr.destruct q) m = Fault Undefined).
Proof.
  intros Hb Hc Hp.
  assert (HL : weak_ptr.lock (Some c) m = Ok (m, Some c)).
  { unfold weak_ptr.lock, shared_ptr.of_weak, sp_counter.of_weak, on_base, require_lock, load_checked, mbind, M_bind.
    rewrite (sp_count_run _ _ _ Hb), Hc. done. }
  split.
  { exists m. split; [done|]. unfold shared_ptr.get, read_block, mbind, M_bind. by rewrite Hb, Hp. }
  assert (Hlt : (c < length (blocks m))%nat) by (by eapply lookup_lt_Some).
  assert (HB : forall A (k : option nat -> M mem A), (weak_ptr.lock (Some c) ≫= k) m = k (Some c) m).
  { intros A k. unfold mbind, M_bind. by rewrite HL. }
  split; [|intros Hw]; rewrite HB.
  - unfold shared_ptr.destruct, sp_counter.destruct, on_base, release, mbind, M_bind.
    rewrite (fetch_add_sp_run _ _ _ _ Hb), Hc. cbn.
    unfold weak_ptr.lock, shared_ptr.of_weak, sp_counter.of_weak, on_base, require_lock, load_checked, mbind, M_bind.
    erewrite sp_count_run; [|cbn; by rewrite list_lookup_insert_eq]. done.
  - unfold shared_ptr.destruct, shared_ptr.copy, sp_counter.destruct, sp_counter.copy, on_base, require, release, mbind, M_bind.
    rewrite (fetch_add_sp_run _ _ _ _ Hb), Hc. cbn -[fetch_add_sp].
    erewrite fetch_add_sp_run; [|cbn; by rewrite list_lookup_insert_eq]. cbn -[dispose weak_release fetch_add_sp].
    rewrite list_insert_insert_eq. change (0 + 1 =? 1) with true. cbn [when].
    erewrite dispose_null; [|cbn; by rewrite list_lookup_insert_eq | done]. cbn -[weak_release fetch_add_sp].
    edestruct weak_release_last as (m' & -> & Hf); [cbn; by rewrite list_insert_insert_eq, list_lookup_insert_eq | done|].
    unfold fetch_add_sp, read_block, mbind, M_bind. by rewrite Hf.
Qed.

(** The memory after the last shared pointer went while a weak one is left. *)
Definition gone : mem := mk_mem [false] [Some (mk_block None 0 1)].
Lemma gone_run :
  (p ← shared_ptr.make_shared; w ← weak_ptr.of_shared p; shared_ptr.destruct p;; mret w) (mk_mem [] []) = Ok (gone, Some 0%nat).
Proof. vm_compute. reflexivity. Qed.
Lemma failed_lock_breaks_witness :
  (q ← weak_ptr.lock (Some 0%nat); shared_ptr.destruct q;; weak_ptr.lock (Some 0%nat)) gone = Fault AssertFailed
  /\ (q ← weak_ptr.lock (Some 0%nat); r ← shared_ptr.copy q; shared_ptr.destruct r;; shared_ptr.destruct q) gone = Fault Undefined.
Proof.
  destruct (failed_lock_breaks gone 0 (mk_block None 0 1)) as (_ & H1 & H2); [reflexivity..|].
  split; [exact H1 | apply H2; reflexivity].
Defined.

(** Assignments between pointers to one object: moving fails an assertion, and so does assigning
    a weak pointer, even null to null; copying a shared pointer works. *)
Lemma move_same_asserts c m : shared_ptr.move_assign (Some c) (Some c) m = Fault AssertFailed.
Proof. unfold shared_ptr.move_assign, sp_counter.move_assign, mbind, M_bind. by rewrite bool_decide_true. Qed.
Lemma weak_assign_same_asserts m c b : blocks m !! c = Some (Some b) ->
  weak_ptr.assign (Some c) (Some c) m = Fault AssertFailed /\ weak_ptr.assign None None m = Fault AssertFailed.
Proof.
  intros Hb. split; [|reflexivity].
  unfold weak_ptr.assign, weak_ptr.copy, weak_ptr.swap, sp_weak_counter.copy, sp_weak_counter.assign, on_base, weak_require, mbind, M_bind.
  rewrite (fetch_add_weak_run _ _ _ _ Hb). cbn. erewrite fetch_add_weak_run; [|cbn; rewrite list_lookup_insert_eq; [done | by eapply lookup_lt_Some]].
  cbn. by rewrite bool_decide_true.
Qed.
(** [weak_count] answers the other counter. *)
Lemma weak_count_is_sp_count this : sp_counter.weak_count this = sp_counter.sp_count this.
Proof. done. Qed.

(** Run a list of actions. *)
Fixpoint sp_run (l : list sp_act) (s : sp_sys) : option sp_sys :=
  match l with
  | [] => Some s
  | a :: l' => match sp_step a s with Some (Ok s') => sp_run l' s' | _ => None end
  end.
Definition fails_b (a : sp_act) (s : sp_sys) : bool :=
  match a with A_run j _ => match flight s !! j with Some (B_cas _ tv) => tv =? 0 | _ => false end | _ => false end.
Fixpoint sp_clean (l : list sp_act) (s : sp_sys) : bool :=
  match l with
  | [] => true
  | a :: l' => negb (fails_b a s) && match sp_step a s with Some (Ok s') => sp_clean l' s' | _ => false end
  end.
Lemma fails_b_spec a s : fails_b a s = false -> ~ lock_fails a s.
Proof. destruct a as [| | | | | | | |j ok]; [by intros _ []..|]. cbn. intros Hf (c & E). by rewrite E in Hf. Qed.
Lemma sp_run_reach l : forall s s', sp_reach s -> sp_clean l s = true -> sp_run l s = Some s' -> sp_reach s'.
Proof.
  induction l as [|a l IH]; intros s s' Hr Hc Hs; cbn [sp_run sp_clean] in *; [by injection Hs as <-|].
  apply andb_true_iff in Hc as [Hf%negb_true_iff Hc]. destruct (sp_step a s) as [[s1|]|] eqn:E; [|done..].
  apply (IH s1); [|done..]. eapply sp_reach_step; [exact Hr | by apply fails_b_spec | exact E].
Qed.

(** Two objects; one is copied, locked and dropped while another thread drops it too. *)
Definition sp_sample : list sp_act :=
  [A_make; A_make; A_copy 0; A_weaken 0; A_lock 0; A_run 0 false; A_run 0 true; A_drop 0; A_run 0 true; A_drop 0; A_drop 0; A_run 0 true].
Definition sp_end : sp_sys := default sp_start (sp_run sp_sample sp_start).
Lemma shared_ptr_safe_witness : exists s', sp_step (A_run 0 true) sp_end = Some (Ok s').
Proof.
  assert (Hr : sp_reach sp_end) by (apply (sp_run_reach sp_sample sp_start); [constructor | vm_compute; reflexivity..]).
  destruct (shared_ptr_safe sp_end Hr) as (Hs & _).
  destruct (sp_step (A_run 0 true) sp_end) as [r|] eqn:E; [|vm_compute in E; discriminate E].
  destruct (Hs (A_run 0 true) r) as (s' & ->); [apply fails_b_spec; vm_compute; reflexivity | exact E | by exists s'].
Defined.

(** ** Intrusive pointers *)
Definition rf_new (o : nat) (p : rf_op) : bool := match p with R_new o' | R_deleting o' => (o =? o')%nat | _ => false end.
Definition rf_held (o : nat) (p : rf_op) : bool := match p with R_grabbing o' | R_dropping o' => (o =? o')%nat | _ => false end.
(** The count of an object is the number of its pointers, those in use by a method included;
    at zero exactly one thread has it: the one that makes it or the one that deletes it. *)
Definition rf_acct (e : option (option Z)) (held new : Z) : Prop :=
  match e with
  | Some (Some n) => n = held /\ new = (if n =? 0 then 1 else 0)
  | _ => held = 0 /\ new = 0
  end.
Definition rf_ok (s : rf_sys) : Prop := forall o,
  rf_acct (rf_mem s !! o) (num (Nat.eqb o) (refs s) + num (rf_held o) (rf_flight s)) (num (rf_new o) (rf_flight s)).

Lemma num_delete {A} (p : A -> bool) l i x : l !! i = Some x -> num p l = (if p x then 1 else 0) + num p (delete i l).
Proof. intros E. by rewrite (num_perm p _ _ (delete_Permutation l i x E)). Qed.
Lemma rf_live s o : rf_ok s -> 0 < num (Nat.eqb o) (refs s) + num (rf_held o) (rf_flight s) + num (rf_new o) (rf_flight s) ->
  exists n, rf_mem s !! o = Some (Some n) /\ n = num (Nat.eqb o) (refs s) + num (rf_held o) (rf_flight s)
    /\ num (rf_new o) (rf_flight s) = (if n =? 0 then 1 else 0).
Proof. intros HI Hp. specialize (HI o). unfold rf_acct in HI. destruct (rf_mem s !! o) as [[n|]|]; [by exists n | lia..]. Qed.
Lemma rf_nonneg s o : 0 <= num (Nat.eqb o) (refs s) /\ 0 <= num (rf_held o) (rf_flight s) /\ 0 <= num (rf_new o) (rf_flight s).
Proof. repeat split; apply num_nonneg. Qed.

(** One object is written. *)
Lemma rf_write s s' o e' : rf_ok s -> (o < length (rf_mem s))%nat -> rf_mem s' = <[o := e']> (rf_mem s) ->
  (forall o', o' <> o -> num (Nat.eqb o') (refs s') + num (rf_held o') (rf_flight s') = num (Nat.eqb o') (refs s) + num (rf_held o') (rf_flight s)
     /\ num (rf_new o') (rf_flight s') = num (rf_new o') (rf_flight s)) ->
  rf_acct (Some e') (num (Nat.eqb o) (refs s') + num (rf_held o) (rf_flight s')) (num (rf_new o) (rf_flight s')) -> rf_ok s'.
Proof.
  intros HI Hl Em Ho Hc o'. rewrite Em. destruct (decide (o' = o)) as [->|Hn]; [by rewrite list_lookup_insert_eq|].
  rewrite list_lookup_insert_ne by done. destruct (Ho o' Hn) as [-> ->]. apply HI.
Qed.

Lemma ref_count_run m o n : m !! o = Some (Some n) -> ref_base._ref_count o m = Ok (m, n).
Proof. intros E. unfold ref_base._ref_count. by rewrite E. Qed.
Lemma fetch_add_run d m o n : m !! o = Some (Some n) -> ref_base.fetch_add d o m = Ok (<[o := Some (n + d)]> m, n).
Proof. intros E. unfold ref_base.fetch_add, mbind, M_bind. by rewrite (ref_count_run _ _ _ E). Qed.

(** A pointer that a method takes. *)
Lemma rf_take s i o : rf_ok s -> refs s !! i = Some o -> exists n, rf_mem s !! o = Some (Some n) /\ 1 <= n.
Proof.
  intros HI Hi. pose proof (num_delete (Nat.eqb o) _ _ _ Hi) as HD. rewrite Nat.eqb_refl in HD.
  pose proof (num_nonneg (Nat.eqb o) (delete i (refs s))). destruct (rf_nonneg s o) as (? & ? & ?).
  destruct (rf_live s o HI) as (n & E & En & _); [lia|]. exists n. split; [done | lia].
Qed.
Lemma rf_taken s i o p : rf_ok s -> refs s !! i = Some o -> p = R_grabbing o \/ p = R_dropping o ->
  rf_ok (mk_rf (rf_mem s) (delete i (refs s)) (p :: rf_flight s)).
Proof.
  intros HI Hi Hp o'. specialize (HI o'). pose proof (num_delete (Nat.eqb o') _ _ _ Hi) as HD.
  assert (rf_held o' p = (o' =? o)%nat /\ rf_new o' p = false) as [Hh Hnw] by (destruct Hp as [->| ->]; done).
  cbn [refs rf_flight rf_mem num]. rewrite Hh, Hnw. rewrite HD in HI. clear HD.
  unfold rf_acct in *. destruct (rf_mem s !! o') as [[n|]|]; lia.
Qed.

Ltac rf_finish s o HI Hl Hd HO :=
  eapply (rf_write s _ o); [exact HI | exact Hl | reflexivity | |]; cbn [refs rf_flight fst snd app num];
  [ intros o' Hn'; rewrite !Hd; cbn [rf_held rf_new]; rewrite ?(HO o' Hn'); lia
  | unfold rf_acct; cbn [rf_held rf_new]; rewrite ?Nat.eqb_refl;
    repeat match goal with |- context [?x =? ?y] => destruct (Z.eqb_spec x y) | H : context [?x =? ?y] |- _ => destruct (Z.eqb_spec x y) end; lia ].

Lemma rf_run_ok s j p : rf_ok s -> rf_flight s !! j = Some p ->
  wp (rf_run p) (rf_mem s) (fun m' r => rf_ok (mk_rf m' (r.2 ++ refs s) (r.1 ++ delete j (rf_flight s)))).
Proof.
  intros HI Hj. assert (Hd : forall q, num q (rf_flight s) = (if q p then 1 else 0) + num q (delete j (rf_flight s))) by (intros q; by apply num_delete).
  assert (HL : exists o, (rf_held o p || rf_new o p) = true /\ (forall o', o' <> o -> rf_held o' p = false /\ rf_new o' p = false)).
  { destruct p as [o|o|o|o]; exists o; cbn; rewrite Nat.eqb_refl; (split; [done|]); intros o' Hn; by rewrite (proj2 (Nat.eqb_neq o' o)). }
  destruct HL as (o & Ho & Hother). destruct (rf_nonneg s o) as (N1 & N2 & N3).
  assert (NN : forall q, 0 <= num q (delete j (rf_flight s))) by (intros q; apply num_nonneg).
  destruct (rf_live s o HI) as (n & En & Hn & Hnew).
  { pose proof (Hd (rf_held o)) as H1. pose proof (Hd (rf_new o)) as H2. pose proof (NN (rf_held o)). pose proof (NN (rf_new o)).
    destruct (rf_held o p), (rf_new o p); done || lia. }
  assert (Hl : (o < length (rf_mem s))%nat) by (by eapply lookup_lt_Some).
  destruct p as [o1|o1|o1|o1]; cbn [rf_held rf_new] in Ho; rewrite ?orb_false_r in Ho; cbn [orb] in Ho; apply Nat.eqb_eq in Ho as ->; cbn [rf_run].
  all: rewrite !Hd in Hn, Hnew; cbn [rf_held rf_new] in Hn, Hnew; rewrite ?Nat.eqb_refl in Hn; rewrite ?Nat.eqb_refl in Hnew.
  all: pose proof (NN (rf_held o1)); pose proof (NN (rf_new o1)).
  all: assert (HO : forall o', o' <> o1 -> (o' =? o1)%nat = false) by (intros; by apply Nat.eqb_neq).
  - unfold ref_base.grab_check. rewrite !wp_bind. unfold wp at 1. rewrite (ref_count_run _ _ _ En), wp_assert.
    split; [apply Z.leb_le; lia|]. rewrite wp_bind. unfold wp at 1. rewrite (fetch_add_run _ _ _ _ En), wp_ret.
    rf_finish s o1 HI Hl Hd HO.
  - rewrite wp_bind. unfold wp at 1. rewrite (fetch_add_run _ _ _ _ En), wp_ret. rf_finish s o1 HI Hl Hd HO.
  - rewrite wp_bind. unfold wp at 1. rewrite (fetch_add_run _ _ _ _ En), wp_ret. destruct (Z.eqb_spec n 1); rf_finish s o1 HI Hl Hd HO.
  - unfold ref_base.delete_this. rewrite !wp_bind. unfold wp at 1. rewrite (ref_count_run _ _ _ En), wp_modify, wp_ret.
    rf_finish s o1 HI Hl Hd HO.
Qed.

Lemma with_rf_ok {A} (m : M ref_mem A) s k : wp m (rf_mem s) (fun m' a => rf_ok (k a (mk_rf m' (refs s) (rf_flight s)))) ->
  exists s', with_rf m s k = Ok s' /\ rf_ok s'.
Proof. unfold wp, with_rf. destruct (m (rf_mem s)) as [[m' a]|]; [|done]. intros HQ. res_simpl. by eexists. Qed.

Lemma rf_make_ok s : rf_ok s -> wp ref_base.make (rf_mem s) (fun m' o => rf_ok (mk_rf m' (refs s) (R_new o :: rf_flight s))).
Proof.
  intros HI. unfold ref_base.make. rewrite wp_bind, wp_gets, wp_bind, wp_modify, wp_ret. intros o.
  cbn [rf_mem refs rf_flight num rf_held rf_new]. specialize (HI o). destruct (Nat.eqb_spec o (length (rf_mem s))) as [->|Hn].
  - rewrite list_lookup_middle by done. rewrite lookup_ge_None_2 in HI by lia. unfold rf_acct in *. cbn. lia.
  - assert ((rf_mem s ++ [Some 0]) !! o = rf_mem s !! o) as ->.
    { destruct (decide (o < length (rf_mem s))%nat); [by rewrite lookup_app_l|].
      rewrite !lookup_ge_None_2; [done | rewrite ?length_app; simpl; lia..]. }
    unfold rf_acct in *. destruct (rf_mem s !! o) as [[n|]|]; lia.
Qed.

Lemma rf_step_ok a s r : rf_ok s -> rf_step a s = Some r -> exists s', r = Ok s' /\ rf_ok s'.
Proof.
  intros HI Hs. destruct a as [|i|i|i|j]; cbn [rf_step] in Hs; [injection Hs as <- | apply bind_Some in Hs as (o & E & [= <-])..].
  - apply with_rf_ok. by apply rf_make_ok.
  - destruct (rf_take s i o HI E) as (n & En & Hn). apply with_rf_ok. unfold ref_base.grab_check. rewrite wp_bind. unfold wp at 1.
    rewrite (ref_count_run _ _ _ En), wp_assert. split; [apply Z.leb_le; lia|]. apply (rf_taken s i o); [done | done | by left].
  - destruct (rf_take s i o HI E) as (n & En & Hn). apply with_rf_ok. unfold ref_base.drop_check. rewrite wp_bind. unfold wp at 1.
    rewrite (ref_count_run _ _ _ En), wp_assert. split; [apply Z.leb_le; lia|]. apply (rf_taken s i o); [done | done | by right].
  - destruct (rf_take s i o HI E) as (n & En & Hn). apply with_rf_ok. unfold ref_ptr.arrow. rewrite wp_bind, wp_assert. split; [done|].
    rewrite wp_bind. unfold wp at 1. rewrite (ref_count_run _ _ _ En), wp_ret. by destruct s.
  - apply with_rf_ok. by apply rf_run_ok.
Qed.

(** C21: Threads that make, copy, use, hand over and drop intrusive pointers in any interleaving of
    their atomic instructions: no assertion fails and nothing that is deleted is touched or
    deleted again; an object lives while a pointer to it exists, and when no operation is in
    flight exactly the objects with a pointer live, with the number of their pointers as their
    count. *)
Theorem ref_ptr_safe s : rf_reach s ->
  (forall a r, rf_step a s = Some r -> exists s', r = Ok s')
  /\ (forall o, o ∈ refs s -> exists n, rf_mem s !! o = Some (Some n) /\ 1 <= n)
  /\ (rf_flight s = [] -> forall o, rf_mem s !! o = Some (Some (num (Nat.eqb o) (refs s)))
        \/ ((o ∉ refs s) /\ forall n, rf_mem s !! o <> Some (Some n))).
Proof.
  intros Hr. assert (HI : rf_ok s).
  { induction Hr as [|s a s' _ IH Hs]; [by intros o; split|]. destruct (rf_step_ok a s _ IH Hs) as (s2 & [= <-] & HI). done. }
  split; [|split].
  - intros a r Hs. destruct (rf_step_ok a s r HI Hs) as (s' & -> & _). by exists s'.
  - intros o [i Hi]%list_elem_of_lookup. by eapply rf_take.
  - intros Hq o. specialize (HI o). rewrite Hq in HI. cbn [num] in HI. pose proof (num_nonneg (Nat.eqb o) (refs s)).
    unfold rf_acct in HI. destruct (rf_mem s !! o) as [[n|]|].
    + left. do 2 f_equal. lia.
    + right. split; [|done]. intros Ho%num_eqb_pos. lia.
    + right. split; [|done]. intros Ho%num_eqb_pos. lia.
Qed.

Fixpoint rf_runs (l : list rf_act) (s : rf_sys) : option rf_sys :=
  match l with
  | [] => Some s
  | a :: l' => match rf_step a s with Some (Ok s') => rf_runs l' s' | _ => None end
  end.
Lemma rf_runs_reach l : forall s s', rf_reach s -> rf_runs l s = Some s' -> rf_reach s'.
Proof.
  induction l as [|a l IH]; intros s s' Hr Hs; cbn [rf_runs] in *; [by injection Hs as <-|].
  destruct (rf_step a s) as [[s1|]|] eqn:E; [|done..]. apply (IH s1); [by eapply rf_reach_step | done].
Qed.
(** An object is made and copied, and both pointers are dropped at the same time. *)
Definition rf_sample : list rf_act := [F_make; F_run 0; F_copy 0; F_run 0; F_drop 0; F_drop 0; F_run 1; F_run 0].
Definition rf_end : rf_sys := default rf_start (rf_runs rf_sample rf_start).
Lemma ref_ptr_safe_witness : rf_mem rf_end !! 0%nat = Some (Some 0) /\ exists s', rf_step (F_run 0) rf_end = Some (Ok s').
Proof.
  split; [vm_compute; reflexivity|].
  assert (Hr : rf_reach rf_end) by (apply (rf_runs_reach rf_sample rf_start); [constructor | vm_compute; reflexivity]).
  destruct (ref_ptr_safe rf_end Hr) as (Hs & _).
  destruct (rf_step (F_run 0) rf_end) as [r|] eqn:E; [|vm_compute in E; discriminate E].
  destruct (Hs (F_run 0) r E) as (s' & ->). by exists s'.
Defined.
