(* ===== verification/Scheduler.v ===== *)
(** * Scheduler: tasks and the threads that run them
    ([include/wawo/task], [src/src/task])

    A pool of runners takes tasks from two queues; they sleep on the condition of the scheduler
    when both are empty.  Sequential runners have a list of tasks each and run them in order.
    Each step is what a thread does between two points where others can see it: a section under
    a mutex is one step unless another thread reads or writes its variables without the mutex,
    as [stop] does with the state of a runner.

    - [priority_task_queue]: the two queues;
    - [runner], [sched]: the pool, [scheduler::schedule] and [scheduler::stop];
    - [seq_runner]: a sequential runner and the assignment of tasks to runners by their tags. *)

From S2P Require Import Prelude.

Section tasks.
Context {T : Type}.

(** ** The queues *)
Definition P_HIGH : Z := 0.
Definition P_NORMAL : Z := 1.
Definition P_MAX : Z := 2.

Record priority_task_queue : Type := mk_queue { high : list T; normal : list T }.
Definition queue_push (t : T) (p : Z) (q : priority_task_queue) : res priority_task_queue :=
  if p =? P_HIGH then Ok (mk_queue (high q ++ [t]) (normal q))
  else if p =? P_NORMAL then Ok (mk_queue (high q) (normal q ++ [t]))
  else Fault Undefined.
Definition front_and_pop (q : priority_task_queue) : option (T * Z) * priority_task_queue :=
  match high q, normal q with
  | t :: h, n => (Some (t, P_HIGH), mk_queue h n)
  | [], t :: n => (Some (t, P_NORMAL), mk_queue [] n)
  | [], [] => (None, q)
  end.
Definition queue_empty (q : priority_task_queue) : bool :=
  match normal q, high q with [], [] => true | _, _ => false end.

(** ** The pool *)
Inductive task_runner_state : Type := TR_S_IDLE | TR_S_WAITING | TR_S_ASSIGNED | TR_S_RUNNING | TR_S_ENDING.
#[export] Instance task_runner_state_eq_dec : EqDecision task_runner_state.
Proof. solve_decision. Defined.
(** [thread_run_object_state]: what the thread below a runner is told. *)
Inductive thread_state : Type := TR_IDLE | TR_START | TR_RUNNING | TR_STOP.
#[export] Instance thread_state_eq_dec : EqDecision thread_state.
Proof. solve_decision. Defined.

(** Where the thread of a runner is in [run]. *)
Inductive runner_pc : Type :=
| P_top                 (* before the lock *)
| P_pop                 (* under the lock, the state was not [TR_S_ENDING] *)
| P_wait                (* under the lock, no task: about to wait *)
| P_asleep
| P_woken               (* notified, before the lock *)
| P_got (t : T)         (* a task, after the lock *)
| P_flag (t : T)        (* the state is [TR_S_RUNNING] *)
| P_run (t : T)
| P_left                (* [run] has returned *)
| P_done.               (* the thread has ended *)

Record runner : Type := mk_runner { m_wait_flag : Z; m_state : task_runner_state; r_thread : thread_state; r_pc : runner_pc }.
Definition set_wait_flag v r := mk_runner v (m_state r) (r_thread r) (r_pc r).
Definition set_state v r := mk_runner (m_wait_flag r) v (r_thread r) (r_pc r).
Definition set_thread v r := mk_runner (m_wait_flag r) (m_state r) v (r_pc r).
Definition set_pc v r := mk_runner (m_wait_flag r) (m_state r) (r_thread r) v.

(** [start] waits until [on_start] is over. *)
Definition new_runner : runner := mk_runner 0 TR_S_IDLE TR_RUNNING P_top.

Definition test_waiting_step1 (r : runner) : runner * bool :=
  if decide (m_state r = TR_S_WAITING) then (set_wait_flag 1 r, true) else (r, false).
Definition test_waiting_step2 (r : runner) : bool :=
  (m_wait_flag r =? 1) && bool_decide (m_state r = TR_S_WAITING).

Inductive task_manager_state : Type := S_IDLE | S_RUN | S_EXIT.
#[export] Instance task_manager_state_eq_dec : EqDecision task_manager_state.
Proof. solve_decision. Defined.

(** Where [scheduler::stop] is: [W_self], [W_test1] and [W_test2] are
    [__block_until_no_new_task] with its two flags; the others follow [runner_pool::deinit] over
    the runners that are left. *)
Inductive stopper : Type :=
| W_none
| W_begin
| W_self (self_flag runner_flag : Z)
| W_test1 (self_flag : Z) (i : nat)
| W_test2 (self_flag : Z) (i : nat)
| W_exit
| W_on_stop
| W_ending (i : nat)      (* [runner::stop]: the loop until the runner waits *)
| W_set (i : nat)         (* the runner was seen waiting *)
| W_notify (i : nat)
| W_thread (i : nat)      (* [thread_run_object_abstract::stop] *)
| W_join (i : nat)
| W_done.

(** Who holds the mutex of the scheduler between steps. *)
Record sched : Type := mk_sched {
  s_state : task_manager_state;
  wait_count : Z;
  tasks : priority_task_queue;
  runners : list runner;
  owner : option nat;
  stop_at : stopper;
  scheduled : list (T * Z);      (* given to [schedule], in order *)
  taken : list (T * Z);          (* taken by a runner, in order *)
  ran : list T                   (* begun, in order *)
}.
Definition set_s_state v s := mk_sched v (wait_count s) (tasks s) (runners s) (owner s) (stop_at s) (scheduled s) (taken s) (ran s).
Definition set_wait_count v s := mk_sched (s_state s) v (tasks s) (runners s) (owner s) (stop_at s) (scheduled s) (taken s) (ran s).
Definition set_tasks v s := mk_sched (s_state s) (wait_count s) v (runners s) (owner s) (stop_at s) (scheduled s) (taken s) (ran s).
Definition set_runners v s := mk_sched (s_state s) (wait_count s) (tasks s) v (owner s) (stop_at s) (scheduled s) (taken s) (ran s).
Definition set_owner v s := mk_sched (s_state s) (wait_count s) (tasks s) (runners s) v (stop_at s) (scheduled s) (taken s) (ran s).
Definition set_stop_at v s := mk_sched (s_state s) (wait_count s) (tasks s) (runners s) (owner s) v (scheduled s) (taken s) (ran s).
Definition log_scheduled v s := mk_sched (s_state s) (wait_count s) (tasks s) (runners s) (owner s) (stop_at s) (scheduled s ++ [v]) (taken s) (ran s).
Definition log_taken v s := mk_sched (s_state s) (wait_count s) (tasks s) (runners s) (owner s) (stop_at s) (scheduled s) (taken s ++ [v]) (ran s).
Definition log_ran v s := mk_sched (s_state s) (wait_count s) (tasks s) (runners s) (owner s) (stop_at s) (scheduled s) (taken s) (ran s ++ [v]).

Definition upd_runner (i : nat) (f : runner -> runner) (s : sched) : sched := set_runners (alter f i (runners s)) s.

(** [notify_one] wakes the runner [pick], if it sleeps. *)
Definition wake (r : runner) : runner := match r_pc r with P_asleep => set_pc P_woken r | _ => r end.
Definition notify_one (pick : nat) (s : sched) : sched := upd_runner pick wake s.
Definition notify_all (s : sched) : sched := set_runners (wake <$> runners s) s.

(** [scheduler::schedule]. *)
Definition schedule (t : T) (p : Z) (pick : nat) (s : sched) : res sched :=
  wawo_assert (bool_decide (s_state s = S_RUN));;
  q ← queue_push t p (tasks s);
  let s := log_scheduled (t, p) (set_tasks q s) in
  Ok (if 0 <? wait_count s then notify_one pick s else s).

(** [__on_start]: the runners have been started. *)
Definition start (n : nat) : sched :=
  mk_sched S_RUN 0 (mk_queue [] []) (replicate n new_runner) None W_none [] [] [].

(** *** A step of [runner::run] and of the loop around it

    [None]: the thread cannot go on now. *)
Definition lock_free (s : sched) : bool := bool_decide (owner s = None).
Definition check_begin (i : nat) (r : runner) (s : sched) : sched :=
  if decide (m_state r = TR_S_ENDING) then upd_runner i (set_pc P_left) (set_owner None s)
  else upd_runner i (set_pc P_pop) (set_owner (Some i) s).

(** [operator()]: whether [run] is called again. *)
Definition again (r : runner) : runner_pc := if decide (r_thread r = TR_RUNNING) then P_top else P_done.

Definition runner_step (i : nat) (s : sched) : option (res sched) :=
  r ← runners s !! i;
  match r_pc r with
  | P_top => if lock_free s then Some (Ok (check_begin i r s)) else None
  | P_pop =>
      match front_and_pop (tasks s) with
      | (Some (t, p), q) => Some (Ok (upd_runner i (set_pc (P_got t)) (set_owner None (log_taken (t, p) (set_tasks q s)))))
      | (None, _) => Some (Ok (upd_runner i (fun r => set_pc P_wait (set_state TR_S_WAITING r)) s))
      end
  | P_wait => Some (Ok (upd_runner i (set_pc P_asleep) (set_owner None (set_wait_count (u8 (wait_count s + 1)) s))))
  | P_asleep => None
  | P_woken => if lock_free s then Some (Ok (check_begin i r (set_wait_count (u8 (wait_count s - 1)) s))) else None
  | P_got t => Some (Ok (upd_runner i (fun r => set_pc (P_flag t) (set_state TR_S_RUNNING r)) s))
  | P_flag t => Some (Ok (upd_runner i (fun r => set_pc (P_run t) (set_wait_flag 0 r)) s))
  | P_run t => Some (Ok (upd_runner i (set_pc P_top) (log_ran t s)))
  | P_left => Some (Ok (upd_runner i (set_pc (again r)) s))
  | P_done => None
  end.

(** *** A step of [scheduler::stop]

    [seq1], [seq2]: what the tests of the sequential runners answer; [pick]: whom
    [notify_one] wakes. *)
Definition next_runner (i : nat) : stopper := match i with O => W_done | S i' => W_ending i' end.

Definition goes_to (w : stopper) (s : sched) : option (res sched) := Some (Ok (set_stop_at w s)).

(** [runner_pool::test_waiting_step1] at the runner [i], and what follows it. *)
Definition test1_step (seq1 : bool) (sf : Z) (i : nat) (s : sched) : option (res sched) :=
  match runners s !! i with
  | Some r =>
      let '(r', ok) := test_waiting_step1 r in
      if ok then goes_to (W_test1 sf (S i)) (set_runners (<[i := r']> (runners s)) s) else goes_to (W_self 0 0) s
  | None => if seq1 then goes_to (W_self sf 1) s else goes_to (W_self 0 0) s
  end.
(** [runner_pool::test_waiting_step2]. *)
Definition test2_step (seq2 : bool) (sf : Z) (i : nat) (s : sched) : option (res sched) :=
  match runners s !! i with
  | Some r => if test_waiting_step2 r then goes_to (W_test2 sf (S i)) s else goes_to (W_self 0 0) s
  | None => if seq2 then (if sf =? 2 then goes_to W_exit s else goes_to (W_self sf 2) s) else goes_to (W_self 0 0) s
  end.
Definition __block_until_no_new_task_step (seq1 seq2 : bool) (s : sched) : option (res sched) :=
  let empty := queue_empty (tasks s) in
  match stop_at s with
  | W_self sf rf =>
      if sf =? 0 then
        if negb empty then goes_to (W_self 0 0) s
        else if rf =? 0 then goes_to (W_test1 1 0) s else if rf =? 1 then goes_to (W_test2 1 0) s else goes_to (W_self 1 rf) s
      else if sf =? 1 then
        if negb empty then goes_to (W_self 0 0) s
        else if rf =? 0 then goes_to (W_test1 2 0) s else if rf =? 1 then goes_to (W_test2 2 0) s else goes_to W_exit s
      else if rf =? 0 then goes_to (W_test1 sf 0) s else if rf =? 1 then goes_to (W_test2 sf 0) s else goes_to W_exit s
  | W_test1 sf i => test1_step seq1 sf i s
  | W_test2 sf i => test2_step seq2 sf i s
  | _ => None
  end.

(** [runner::stop], up to the call of [thread_run_object_abstract::stop]. *)
Definition runner_stop_step (s : sched) : option (res sched) :=
  match stop_at s with
  | W_ending i =>
      match runners s !! i with
      | Some r => if decide (m_state r = TR_S_WAITING) then goes_to (W_set i) s else None
      | None => None
      end
  | W_set i => goes_to (W_notify i) (upd_runner i (set_state TR_S_ENDING) s)
  | W_notify i => if lock_free s then goes_to (W_thread i) (notify_all s) else None
  | _ => None
  end.
(** [thread_run_object_abstract::stop] of a thread that runs.  The interruption does not reach a
    thread in [no_interrupt_wait]. *)
Definition thread_stop_step (s : sched) : option (res sched) :=
  match stop_at s with
  | W_thread i => goes_to (W_join i) (upd_runner i (set_thread TR_STOP) s)
  | W_join i =>
      match runners s !! i with
      | Some r => match r_pc r with P_done => goes_to (next_runner i) s | _ => None end
      | None => None
      end
  | _ => None
  end.
Definition __on_stop_step (s : sched) : option (res sched) :=
  Some (wawo_assert (bool_decide (s_state s = S_EXIT));;
        wawo_assert (queue_empty (tasks s));;
        Ok (set_stop_at (next_runner (length (runners s))) s)).

Definition stop_step (seq1 seq2 : bool) (pick : nat) (s : sched) : option (res sched) :=
  match stop_at s with
  | W_none | W_done => None
  | W_begin => if lock_free s then goes_to (if decide (s_state s = S_RUN) then W_self 0 0 else W_done) s else None
  | W_self _ _ | W_test1 _ _ | W_test2 _ _ => __block_until_no_new_task_step seq1 seq2 s
  | W_exit =>
      if lock_free s then
        if decide (s_state s = S_RUN) then goes_to W_on_stop (notify_one pick (set_s_state S_EXIT s)) else goes_to W_done s
      else None
  | W_on_stop => __on_stop_step s
  | W_ending _ | W_set _ | W_notify _ => runner_stop_step s
  | W_thread _ | W_join _ => thread_stop_step s
  end.

(** *** The system *)
Inductive act : Type :=
| A_schedule (t : T) (p : Z) (pick : nat)
| A_runner (i : nat)
| A_spurious (i : nat)
| A_stop_call
| A_stop (seq1 seq2 : bool) (pick : nat).

(** Whom [notify_one] may wake: a runner that sleeps, if there is one. *)
Definition asleep (r : runner) : bool := match r_pc r with P_asleep => true | _ => false end.
Definition picks (l : list runner) (pick : nat) : bool :=
  negb (existsb asleep l) || match l !! pick with Some r => asleep r | None => false end.

Definition perform (a : act) (s : sched) : option (res sched) :=
  match a with
  | A_schedule t p pick => if lock_free s && picks (runners s) pick then Some (schedule t p pick s) else None
  | A_runner i => runner_step i s
  | A_spurious i => if match runners s !! i with Some r => asleep r | None => false end then Some (Ok (upd_runner i wake s)) else None
  | A_stop_call => match stop_at s with W_none => Some (Ok (set_stop_at W_begin s)) | _ => None end
  | A_stop seq1 seq2 pick => if picks (runners s) pick then stop_step seq1 seq2 pick s else None
  end.
(** The actions before anyone stops the scheduler; the priorities are those there are. *)
Definition running (a : act) : bool :=
  match a with A_stop_call | A_stop _ _ _ => false | A_schedule _ p _ => (p =? P_HIGH) || (p =? P_NORMAL) | _ => true end.

Inductive steps (allowed : act -> bool) (s0 : sched) : sched -> Prop :=
| steps_none : steps allowed s0 s0
| steps_one s a s' : steps allowed s0 s -> allowed a = true -> perform a s = Some (Ok s') -> steps allowed s0 s'.

(** ** Sequential runners *)
Inductive seq_state : Type := Q_IDLE | Q_RUN | Q_WAITING | Q_EXIT.
#[export] Instance seq_state_eq_dec : EqDecision seq_state.
Proof. solve_decision. Defined.
Inductive seq_pc : Type :=
| E_top                 (* at the beginning of [run] *)
| E_asleep
| E_woken
| E_exec (i : nat)      (* about to run the task at this place *)
| E_left
| E_done.
(** Where [sequencial_runner::stop] is. *)
Inductive seq_stopper : Type := V_none | V_standby | V_assigning | V_lock | V_thread | V_join | V_done.

Record seq_runner : Type := mk_seq {
  q_wait_flag : Z;
  q_state : seq_state;
  standby : list T;
  assigning : list T;
  q_thread : thread_state;
  q_pc : seq_pc;
  q_stop : seq_stopper;
  assigned : list T;             (* given to [assign_task], in order *)
  q_ran : list T                 (* begun, in order *)
}.
Definition q_set_pc v q := mk_seq (q_wait_flag q) (q_state q) (standby q) (assigning q) (q_thread q) v (q_stop q) (assigned q) (q_ran q).
Definition q_set_state v q := mk_seq (q_wait_flag q) v (standby q) (assigning q) (q_thread q) (q_pc q) (q_stop q) (assigned q) (q_ran q).
Definition q_set_flag v q := mk_seq v (q_state q) (standby q) (assigning q) (q_thread q) (q_pc q) (q_stop q) (assigned q) (q_ran q).
Definition q_set_lists a b q := mk_seq (q_wait_flag q) (q_state q) a b (q_thread q) (q_pc q) (q_stop q) (assigned q) (q_ran q).
Definition q_set_thread v q := mk_seq (q_wait_flag q) (q_state q) (standby q) (assigning q) v (q_pc q) (q_stop q) (assigned q) (q_ran q).
Definition q_set_stop v q := mk_seq (q_wait_flag q) (q_state q) (standby q) (assigning q) (q_thread q) (q_pc q) v (assigned q) (q_ran q).
Definition q_log_assigned t q := mk_seq (q_wait_flag q) (q_state q) (standby q) (assigning q) (q_thread q) (q_pc q) (q_stop q) (assigned q ++ [t]) (q_ran q).
Definition q_log_ran t q := mk_seq (q_wait_flag q) (q_state q) (standby q) (assigning q) (q_thread q) (q_pc q) (q_stop q) (assigned q) (q_ran q ++ [t]).

(** After [on_start]. *)
Definition seq_started : seq_runner := mk_seq 0 Q_RUN [] [] TR_RUNNING E_top V_none [] [].
Definition seq_wake (q : seq_runner) : seq_runner := match q_pc q with E_asleep => q_set_pc E_woken q | _ => q end.

Definition seq_assign_task (t : T) (q : seq_runner) : res seq_runner :=
  wawo_assert (bool_decide (q_state q = Q_RUN) || bool_decide (q_state q = Q_WAITING));;
  let q := q_log_assigned t (q_set_lists (standby q ++ [t]) (assigning q) q) in
  Ok (if decide (q_state q = Q_WAITING) then seq_wake q else q).

Definition seq_test_waiting_step1 (q : seq_runner) : seq_runner * bool :=
  if decide (q_state q = Q_WAITING) then (q_set_flag 1 q, true) else (q, false).
Definition seq_test_waiting_step2 (q : seq_runner) : bool :=
  (q_wait_flag q =? 1) && bool_decide (q_state q = Q_WAITING).

(** The loop [while (m_standby->empty())] and the exchange of the lists, under the mutex. *)
Definition seq_wait_loop (q : seq_runner) : res seq_runner :=
  match standby q with
  | [] => Ok (q_set_pc E_asleep (q_set_state Q_WAITING q))
  | _ =>
      wawo_assert (bool_decide (length (assigning q) = 0%nat));;
      Ok (q_set_pc (E_exec 0) (q_set_flag 0 (q_set_state Q_RUN (q_set_lists [] (standby q) q))))
  end.

Definition seq_step (q : seq_runner) : option (res seq_runner) :=
  match q_pc q with
  | E_top => Some (wawo_assert (bool_decide (length (assigning q) = 0%nat));;
      if decide (q_state q = Q_EXIT) then Ok (q_set_pc E_left q) else seq_wait_loop q)
  | E_asleep => None
  | E_woken => Some (
      if decide (q_state q = Q_EXIT) then Ok (q_set_pc E_left q)
      else wawo_assert (bool_decide (q_state q = Q_WAITING));; seq_wait_loop q)
  | E_exec i => Some (
      match assigning q !! i with
      | Some t => if decide (q_state q = Q_RUN) then Ok (q_set_pc (E_exec (S i)) (q_log_ran t q)) else Fault AssertFailed
      | None =>
          wawo_assert (bool_decide (i = length (assigning q)));;
          Ok (q_set_pc E_left (q_set_lists (standby q) [] q))
      end)
  | E_left => Some (
      if decide (q_thread q = TR_RUNNING) then Ok (q_set_pc E_top q)
      else
        wawo_assert (bool_decide (q_state q = Q_EXIT));;
        wawo_assert (bool_decide (length (standby q) = 0%nat));;
        wawo_assert (bool_decide (length (assigning q) = 0%nat));;
        Ok (q_set_pc E_done q))
  | E_done => None
  end.

(** [stop] looks at the two lists without the mutex, one after the other. *)
Definition seq_stop_step (q : seq_runner) : option (res seq_runner) :=
  match q_stop q with
  | V_none | V_done => None
  | V_standby => match standby q with [] => Some (Ok (q_set_stop V_assigning q)) | _ => Some (Ok q) end
  | V_assigning => match assigning q with [] => Some (Ok (q_set_stop V_lock q)) | _ => Some (Ok (q_set_stop V_standby q)) end
  | V_lock =>
      if decide (q_state q = Q_EXIT) then Some (Ok (q_set_stop V_done q))
      else Some (Ok (q_set_stop V_thread (seq_wake (q_set_state Q_EXIT q))))
  | V_thread => Some (Ok (q_set_stop V_join (q_set_thread TR_STOP q)))
  | V_join => match q_pc q with E_done => Some (Ok (q_set_stop V_done q)) | _ => None end
  end.

Inductive seq_act : Type := B_assign (t : T) | B_run | B_spurious | B_stop_call | B_stop.
(** Nobody gives tasks to a runner that is being stopped. *)
Definition seq_perform (a : seq_act) (q : seq_runner) : option (res seq_runner) :=
  match a with
  | B_assign t => match q_stop q with V_none => Some (seq_assign_task t q) | _ => None end
  | B_run => seq_step q
  | B_spurious => match q_pc q with E_asleep => Some (Ok (seq_wake q)) | _ => None end
  | B_stop_call => match q_stop q with V_none => Some (Ok (q_set_stop V_standby q)) | _ => None end
  | B_stop => seq_stop_step q
  end.
Inductive seq_reach : seq_runner -> Prop :=
| seq_reach_start : seq_reach seq_started
| seq_reach_step q a q' : seq_reach q -> seq_perform a q = Some (Ok q') -> seq_reach q'.

(** [sequencial_runner_pool::assign_task]: the runner of a tag. *)
Definition runner_of (tag : Z) (pool : list seq_runner) : nat := Z.to_nat (tag mod Z.of_nat (length pool)).
Definition pool_assign_task (tag : Z) (t : T) (pool : list seq_runner) : res (list seq_runner) :=
  match pool !! runner_of tag pool with
  | None => Fault Undefined
  | Some q => q ← seq_assign_task t q; Ok (<[runner_of tag pool := q]> pool)
  end.
(** [sequencial_runner_pool::test_waiting_step1] stops at the first runner that does not wait. *)
Fixpoint pool_test_waiting_step1 (pool : list seq_runner) : list seq_runner * bool :=
  match pool with
  | [] => ([], true)
  | q :: pool =>
      let '(q', ok) := seq_test_waiting_step1 q in
      if ok then let '(pool', all) := pool_test_waiting_step1 pool in (q' :: pool', all) else (q :: pool, false)
  end.
Definition pool_test_waiting_step2 (pool : list seq_runner) : bool := forallb seq_test_waiting_step2 pool.
End tasks.
Arguments runner_pc : clear implicits. Arguments runner : clear implicits. Arguments sched : clear implicits.
Arguments priority_task_queue : clear implicits. Arguments act : clear implicits. Arguments seq_runner : clear implicits. Arguments seq_act : clear implicits.
