(* ===== verification/SchedulerProofs.v ===== *)
(** * SchedulerProofs: every task is run, once and in order; and stopping may never end

    - [seq_tasks_in_order], [seq_stop_ends]: a sequential runner runs what it is given in order,
      comes to rest only when all is done, and can always be stopped;
    - [scheduler_runs_all]: no wake-up of the pool is lost: the runners come to rest after
      finitely many steps and then every task has been run once, first come first served;
    - [scheduler_stop_hangs]: [scheduler::stop] may wait for ever for a runner that overwrote the
      order to end. *)

From S2P Require Import Prelude Scheduler.

(** ** Sequential runners *)
Section seq.
Context {T : Type}.
Local Abbreviation SQ := (seq_runner T).

(** What was assigned and did not begin. *)
Definition pending (q : SQ) : list T :=
  match q_pc q with E_exec i => drop i (assigning q) | _ => [] end ++ standby q.
Definition stopping (v : seq_stopper) : bool := match v with V_thread | V_join | V_done => true | _ => false end.
Definition joined (v : seq_stopper) : bool := match v with V_join | V_done => true | _ => false end.
(** [stop] has seen the lists empty. *)
Definition seen_empty (v : seq_stopper) : bool := match v with V_none | V_standby => false | _ => true end.

Record seq_inv (q : SQ) : Prop := {
  qi_order : assigned q = q_ran q ++ pending q;
  qi_state : q_state q <> Q_IDLE;
  qi_exit : q_state q = Q_EXIT <-> stopping (q_stop q) = true;
  qi_thread : q_thread q = (if joined (q_stop q) then TR_STOP else TR_RUNNING);
  qi_standby : seen_empty (q_stop q) = true -> standby q = [];
  qi_assigning : seen_empty (q_stop q) = true -> q_stop q <> V_assigning -> assigning q = [];
  qi_pc : match q_pc q with
          | E_top => assigning q = [] /\ q_state q <> Q_WAITING
          | E_asleep => assigning q = [] /\ standby q = [] /\ q_state q = Q_WAITING
          | E_woken => assigning q = [] /\ q_state q <> Q_RUN
          | E_exec i => assigning q <> [] /\ (i <= length (assigning q))%nat /\ q_state q = Q_RUN
          | E_left => assigning q = [] /\ q_state q <> Q_WAITING
          | E_done => assigning q = [] /\ standby q = [] /\ q_state q = Q_EXIT /\ joined (q_stop q) = true
          end;
  qi_done : q_stop q = V_done -> q_pc q = E_done
}.

Lemma seq_wait_loop_inv q : seq_inv q -> assigning q = [] -> q_pc q = E_top \/ q_pc q = E_woken -> q_state q <> Q_EXIT ->
  exists q', seq_wait_loop q = Ok q' /\ seq_inv q'.
Proof.
  intros [O S X Th Sb As P D] Ea Hp Hs. unfold seq_wait_loop.
  assert (Hst : stopping (q_stop q) = false) by (destruct (stopping (q_stop q)); [by destruct Hs; apply X | done]).
  assert (HD : q_stop q <> V_done) by (intros E; by rewrite E in Hst).
  assert (HO : assigned q = q_ran q ++ standby q) by (rewrite O; unfold pending; by destruct Hp as [->| ->]).
  destruct (standby q) as [|t l] eqn:El.
  - eexists. split; [done|]. constructor; cbn; try done; rewrite ?El, ?Ea; try done. rewrite Hst. done.
  - rewrite Ea, bool_decide_true by done. res_simpl. eexists. split; [done|].
    assert (Hse : seen_empty (q_stop q) = false) by (destruct (seen_empty (q_stop q)); [by specialize (Sb eq_refl) | done]).
    constructor; cbn; rewrite ?Hst, ?Hse, ?Ea; try done; [by rewrite app_nil_r | split; [done|]; split; [lia | done]].
Qed.

Lemma seq_step_inv q r : seq_inv q -> seq_step q = Some r -> exists q', r = Ok q' /\ seq_inv q'.
Proof.
  intros HI Hs. assert (HI' := HI). destruct HI' as [O S X Th Sb As P D]. unfold seq_step in Hs. unfold pending in O.
  assert (HD : q_pc q <> E_done -> q_stop q <> V_done) by (intros Hn E; by apply Hn, D).
  destruct (q_pc q) as [| | |i| |] eqn:Ep; try done; injection Hs as <-.
  - destruct P as [Ea Hw]. rewrite Ea, bool_decide_true by done. res_simpl. destruct (decide (q_state q = Q_EXIT)).
    + eexists. split; [done|]. constructor; cbn; try done. by intros E%HD.
    + apply seq_wait_loop_inv; auto.
  - destruct P as [Ea Hw]. destruct (decide (q_state q = Q_EXIT)).
    + eexists. split; [done|]. constructor; cbn; try done. { split; [done | congruence]. } by intros E%HD.
    + rewrite bool_decide_true by (destruct (q_state q); done). res_simpl. apply seq_wait_loop_inv; auto.
  - destruct P as (Hn & Hl & Hr). destruct (assigning q !! i) as [t|] eqn:Et.
    + rewrite decide_True by done. eexists. split; [done|]. constructor; cbn; try done.
      * rewrite O. rewrite (drop_S _ t i Et). by rewrite <- !app_assoc.
      * split; [done|]. split; [|done]. by apply lookup_lt_Some in Et.
      * by intros E%HD.
    + apply lookup_ge_None in Et. rewrite bool_decide_true by lia. res_simpl. eexists. split; [done|].
      constructor; cbn; try done; [by rewrite O, drop_ge by lia | by rewrite Hr | by intros E%HD].
  - destruct P as [Ea Hw]. destruct (decide (q_thread q = TR_RUNNING)) as [Er|Er].
    + eexists. split; [done|]. constructor; cbn; try done. by intros E%HD.
    + rewrite Th in Er. destruct (joined (q_stop q)) eqn:Ej; [|done].
      assert (He : q_state q = Q_EXIT) by (apply X; by destruct (q_stop q)).
      assert (Hse : seen_empty (q_stop q) = true) by (by destruct (q_stop q)).
      rewrite He, Ea, (Sb Hse), !bool_decide_true by done. res_simpl. eexists. split; [done|].
      constructor; cbn; rewrite ?Ea, ?Ej, ?(Sb Hse); try done. by rewrite O, (Sb Hse).
Qed.

Lemma seq_wake_inv q : seq_inv q -> seq_inv (seq_wake q).
Proof.
  intros HI. unfold seq_wake. destruct (q_pc q) eqn:Ep; try done. destruct HI as [O S X Th Sb As P D]. unfold pending in O.
  rewrite Ep in *. destruct P as (Ea & Es & Ew). constructor; cbn; try done; [by rewrite Ew | by intros E%D].
Qed.
Lemma seq_assign_inv t q : seq_inv q -> q_stop q = V_none -> exists q', seq_assign_task t q = Ok q' /\ seq_inv q'.
Proof.
  intros HI Hv. unfold seq_assign_task. set (q1 := q_log_assigned t _). assert (HX : q_state q <> Q_EXIT).
  { intros E. apply HI in E. by rewrite Hv in E. }
  assert (bool_decide (q_state q = Q_RUN) || bool_decide (q_state q = Q_WAITING) = true) as ->.
  { pose proof (qi_state q HI). by destruct (q_state q). }
  res_simpl. change (q_state q1) with (q_state q).
  assert (HI1 : q_pc q <> E_asleep -> seq_inv q1).
  { intros Hp. destruct HI as [O S X Th Sb As P D]. constructor; cbn; try done; [|by rewrite Hv|].
    - unfold pending in O. by rewrite O, <- !app_assoc.
    - destruct (q_pc q); try done. rewrite Hv in P. by destruct P as (_ & _ & _ & ?). }
  destruct (decide (q_state q = Q_WAITING)) as [Ew|Ew].
  - eexists. split; [done|]. assert (q_pc q = E_asleep \/ q_pc q <> E_asleep) as [Ep|Ep] by (destruct (q_pc q); auto); [|by apply seq_wake_inv, HI1].
    unfold seq_wake. cbn. rewrite Ep. destruct HI as [O S X Th Sb As P D]. unfold pending in O. rewrite Ep in *.
    destruct P as (Ea & Es & _). constructor; cbn; try done; rewrite ?Hv, ?Ew; try done. by rewrite O, <- app_assoc.
  - eexists. split; [done|]. apply HI1. intros Ep. pose proof (qi_pc q HI) as P. rewrite Ep in P. by destruct P as (_ & _ & ?).
Qed.
(** A step of [stop] that only moves on. *)
Lemma seq_set_stop_inv v q : seq_inv q -> stopping v = stopping (q_stop q) -> joined v = joined (q_stop q) ->
  (seen_empty v = true -> standby q = []) -> (seen_empty v = true -> v <> V_assigning -> assigning q = []) ->
  (v = V_done -> q_pc q = E_done) -> seq_inv (q_set_stop v q).
Proof.
  intros [O S X Th Sb As P D] H1 H2 H3 H4 H5. constructor; cbn; rewrite ?H1, ?H2; try done.
Qed.
Lemma seq_stop_inv q r : seq_inv q -> seq_stop_step q = Some r -> exists q', r = Ok q' /\ seq_inv q'.
Proof.
  intros HI Hs. assert (HI' := HI). destruct HI' as [O S X Th Sb As P D]. unfold seq_stop_step in Hs.
  destruct (q_stop q) eqn:Ev; try done.
  - destruct (standby q) eqn:Es; injection Hs as <-; (eexists; split; [done|]); [|done]. apply seq_set_stop_inv; rewrite ?Ev; done.
  - destruct (assigning q) eqn:Ea; injection Hs as <-; (eexists; split; [done|]); apply seq_set_stop_inv; rewrite ?Ev; try done.
  - rewrite decide_False in Hs by (intros E; by apply X in E). injection Hs as <-. eexists. split; [done|].
    pose proof (Sb eq_refl) as Es. pose proof (As eq_refl ltac:(done)) as Ea. unfold pending in O.
    unfold seq_wake. cbn. destruct (q_pc q) eqn:Ep; (constructor; cbn; rewrite ?Ep; try done); 
      first [by destruct P as (? & _) | by destruct P as (_ & _ & _ & ?)].
  - injection Hs as <-. eexists. split; [done|]. constructor; cbn; try done; [by intros; apply As|].
    destruct (q_pc q); try done. by destruct P as (? & ? & ? & ?).
  - destruct (q_pc q) eqn:Ep; try done. injection Hs as <-. eexists. split; [done|]. apply seq_set_stop_inv; rewrite ?Ev; try done.
    intros _ _. by apply As.
Qed.

Lemma seq_perform_inv a q r : seq_inv q -> seq_perform a q = Some r -> exists q', r = Ok q' /\ seq_inv q'.
Proof.
  intros HI Hs. destruct a as [t| | | |]; cbn [seq_perform] in Hs.
  - destruct (q_stop q) eqn:Ev; try done. injection Hs as <-. by apply seq_assign_inv.
  - by eapply seq_step_inv.
  - destruct (q_pc q) eqn:Ep; try done. injection Hs as <-. eexists. split; [done | by apply seq_wake_inv].
  - destruct (q_stop q) eqn:Ev; try done. injection Hs as <-. eexists. split; [done|]. by apply seq_set_stop_inv; rewrite ?Ev.
  - by eapply seq_stop_inv.
Qed.
Lemma seq_reach_inv q : seq_reach q -> seq_inv q.
Proof.
  induction 1 as [|q a q' _ IH Hs]; [by constructor|]. destruct (seq_perform_inv a q _ IH Hs) as (q2 & [= <-] & ?). done.
Qed.

(** What the thread has still to do before it sleeps. *)
Definition seq_work (q : SQ) : nat :=
  match q_pc q with E_exec i => 3 + length (drop i (assigning q)) | E_left => 2 | E_top | E_woken => 1 | _ => 0 end
  + 5 * length (standby q).
Lemma seq_wait_loop_work q q' : q_pc q = E_top \/ q_pc q = E_woken -> seq_wait_loop q = Ok q' -> (seq_work q' < seq_work q)%nat.
Proof.
  unfold seq_wait_loop, seq_work. intros Hp. destruct (standby q) as [|t l] eqn:Es.
  - intros [= <-]. cbn. rewrite Es. destruct Hp as [->| ->]; cbn; lia.
  - destruct (bool_decide (length (assigning q) = 0%nat)); cbn [mbind res_bind check]; [|done]. intros [= <-]. cbn.
    destruct Hp as [->| ->]; cbn; lia.
Qed.
Lemma seq_step_work q q' : seq_inv q -> q_state q <> Q_EXIT -> seq_step q = Some (Ok q') ->
  (seq_work q' < seq_work q)%nat /\ q_stop q' = q_stop q /\ q_state q' <> Q_EXIT.
Proof.
  intros HI HX Hs. destruct HI as [O S X Th Sb As P D]. unfold seq_step in Hs.
  assert (HW : forall q1, seq_wait_loop q = Ok q1 -> q_stop q1 = q_stop q /\ q_state q1 <> Q_EXIT).
  { unfold seq_wait_loop. intros q1. destruct (standby q); [by intros [= <-]|].
    destruct (bool_decide (length (assigning q) = 0%nat)); cbn [mbind res_bind check]; [|done]. by intros [= <-]. }
  destruct (q_pc q) as [| | |i| |] eqn:Ep; try done; injection Hs as Hs.
  - destruct P as [Ea _]. rewrite Ea, bool_decide_true, decide_False in Hs by done. cbn [mbind res_bind check] in Hs.
    split; [by apply seq_wait_loop_work; auto | by apply HW].
  - rewrite decide_False in Hs by done. rewrite bool_decide_true in Hs by (destruct P; by destruct (q_state q)). cbn [mbind res_bind check] in Hs.
    split; [by apply seq_wait_loop_work; auto | by apply HW].
  - unfold seq_work. rewrite Ep. destruct (assigning q !! i) as [t|] eqn:Et.
    + rewrite decide_True in Hs by apply P. injection Hs as <-. cbn. rewrite (drop_S _ _ _ Et). cbn. split; [lia | done].
    + apply lookup_ge_None in Et. rewrite bool_decide_true in Hs by lia. injection Hs as <-. cbn. split; [lia | done].
  - unfold seq_work. rewrite Ep. rewrite decide_True in Hs.
    + injection Hs as <-. cbn. split; [lia | done].
    + rewrite Th. destruct (joined (q_stop q)) eqn:Ej; [|done]. destruct HX. apply X. by destruct (q_stop q).
Qed.
Lemma seq_rest q : seq_inv q -> seq_step q = None -> q_ran q = assigned q.
Proof.
  intros [O S X Th Sb As P D] Hs. rewrite O. unfold pending. unfold seq_step in Hs.
  destruct (q_pc q); try done; destruct P as (_ & -> & _); by rewrite app_nil_r.
Qed.


(** The threads of the runner and of [stop] go on. *)
Inductive seq_goes : SQ -> SQ -> Prop :=
| goes_here q : seq_goes q q
| goes_run q q1 q2 : seq_step q = Some (Ok q1) -> seq_goes q1 q2 -> seq_goes q q2
| goes_stop q q1 q2 : seq_stop_step q = Some (Ok q1) -> seq_goes q1 q2 -> seq_goes q q2.
Lemma seq_goes_trans a b c : seq_goes a b -> seq_goes b c -> seq_goes a c.
Proof. induction 1; [done | econstructor 2 | econstructor 3]; eauto. Qed.
Lemma seq_goes_inv a b : seq_goes a b -> seq_inv a -> seq_inv b.
Proof.
  induction 1 as [|q q1 q2 Hs _ IH|q q1 q2 Hs _ IH]; [done | intros HI; apply IH ..].
  - destruct (seq_step_inv q _ HI Hs) as (? & [= <-] & ?). done.
  - destruct (seq_stop_inv q _ HI Hs) as (? & [= <-] & ?). done.
Qed.

(** Until the state is [S_EXIT] the thread gets to sleep. *)
Lemma seq_sleeps q : seq_inv q -> q_state q <> Q_EXIT -> exists q', seq_goes q q' /\ q_pc q' = E_asleep /\ q_stop q' = q_stop q.
Proof.
  remember (seq_work q) as n eqn:En. revert q En. induction (lt_wf n) as [n _ IH]. intros q -> HI HX.
  destruct (seq_step q) as [r|] eqn:Es.
  - destruct (seq_step_inv q r HI Es) as (q1 & -> & HI1). destruct (seq_step_work q q1 HI HX Es) as (Hw & Hv & HX1).
    destruct (IH _ Hw q1 eq_refl HI1 HX1) as (q2 & Hg & Hp & Hv2). exists q2. split; [by econstructor 2|]. split; congruence.
  - exists q. split; [constructor|]. split; [|done]. pose proof (qi_pc q HI) as P. unfold seq_step in Es.
    destruct (q_pc q); try done. by destruct P as (_ & _ & ? & _).
Qed.
(** When the thread has been told to stop, it ends. *)
Lemma seq_joins q : seq_inv q -> q_stop q = V_join -> exists q', seq_goes q q' /\ q_stop q' = V_done.
Proof.
  intros HI Hv. assert (HX : q_state q = Q_EXIT) by (apply HI; by rewrite Hv).
  assert (Ht : q_thread q = TR_STOP) by (rewrite (qi_thread q HI), Hv; done).
  pose proof (qi_standby q HI ltac:(by rewrite Hv)) as Es. pose proof (qi_assigning q HI ltac:(by rewrite Hv) ltac:(by rewrite Hv)) as Ea.
  assert (HD : forall q1, q_pc q1 = E_done -> q_stop q1 = V_join -> exists q', seq_goes q1 q' /\ q_stop q' = V_done).
  { intros q1 H1 H2. eexists. split; [econstructor 3; [|constructor]; unfold seq_stop_step; by rewrite H2, H1 | done]. }
  assert (HL : forall q1, q_pc q1 = E_left -> q_stop q1 = V_join -> q_state q1 = Q_EXIT -> q_thread q1 = TR_STOP -> standby q1 = [] ->
    assigning q1 = [] -> exists q', seq_goes q1 q' /\ q_stop q' = V_done).
  { intros q1 H1 H2 H3 H4 H5 H6. destruct (HD (q_set_pc E_done q1)) as (q' & Hg & Hq); [done..|]. exists q'. split; [|done].
    econstructor 2; [|done]. unfold seq_step. by rewrite H1, H3, H4, H5, H6. }
  pose proof (qi_pc q HI) as P. destruct (q_pc q) eqn:Ep.
  1, 3: destruct (HL (q_set_pc E_left q)) as (q' & Hg & Hq); try done; exists q'; (split; [|done]); econstructor 2; [|done];
    unfold seq_step; rewrite Ep, ?Ea, HX; done.
  - destruct P as (_ & _ & ?). congruence.
  - by destruct P as (? & _).
  - by apply HL.
  - by apply HD.
Qed.
Lemma seq_told q : seq_inv q -> q_stop q = V_thread -> exists q', seq_goes q q' /\ q_stop q' = V_done.
Proof.
  intros HI Hv. assert (Hs : seq_stop_step q = Some (Ok (q_set_stop V_join (q_set_thread TR_STOP q)))) by (unfold seq_stop_step; by rewrite Hv).
  destruct (seq_stop_inv q _ HI Hs) as (q1 & [= <-] & HI1). destruct (seq_joins _ HI1) as (q' & Hg & Hq); [done|].
  exists q'. split; [by econstructor 3 | done].
Qed.

(** A sequential runner can always be stopped: once [stop] has been called, whatever was
    assigned before and wherever the runner is, the two threads can go on until [stop] returns,
    and when it does everything that was assigned has been run. *)
Theorem seq_stop_ends (q : SQ) : seq_reach q -> q_stop q <> V_none ->
  exists q', seq_goes q q' /\ q_stop q' = V_done /\ q_ran q' = assigned q'.
Proof.
  intros HI%seq_reach_inv Hv. enough (exists q', seq_goes q q' /\ q_stop q' = V_done) as (q' & Hg & Hq).
  { exists q'. split; [done|]. split; [done|]. pose proof (seq_goes_inv q q' Hg HI) as HI'.
    apply seq_rest; [done|]. unfold seq_step. by rewrite (qi_done q' HI' Hq). }
  destruct (stopping (q_stop q)) eqn:Est.
  { destruct (q_stop q) eqn:Eq; try done; [by apply seq_told | by apply seq_joins | exists q; split; [constructor | done]]. }
  assert (HX : q_state q <> Q_EXIT) by (intros E; apply HI in E; congruence).
  destruct (seq_sleeps q HI HX) as (q1 & Hg & Hp & Hv1). pose proof (seq_goes_inv q q1 Hg HI) as HI1.
  enough (exists q', seq_goes q1 q' /\ q_stop q' = V_done) as (q' & Hg' & ?) by (exists q'; split; [by eapply seq_goes_trans | done]).
  pose proof (qi_pc q1 HI1) as P. rewrite Hp in P. destruct P as (Ea & Es & Ew). rewrite <- Hv1 in Hv, Est.
  assert (HL : forall q2, seq_inv q2 -> q_stop q2 = V_lock -> q_state q2 = Q_WAITING -> exists q', seq_goes q2 q' /\ q_stop q' = V_done).
  { intros q2 HI2 H1 H2. assert (Hs : seq_stop_step q2 = Some (Ok (q_set_stop V_thread (seq_wake (q_set_state Q_EXIT q2)))))
      by (unfold seq_stop_step; by rewrite H1, H2).
    destruct (seq_stop_inv q2 _ HI2 Hs) as (q3 & [= <-] & HI3). destruct (seq_told _ HI3) as (q' & ? & ?); [done|].
    exists q'. split; [by econstructor 3 | done]. }
  assert (HA : forall q2, seq_inv q2 -> q_stop q2 = V_assigning -> q_state q2 = Q_WAITING -> assigning q2 = [] ->
    exists q', seq_goes q2 q' /\ q_stop q' = V_done).
  { intros q2 HI2 H1 H2 H3. assert (Hs : seq_stop_step q2 = Some (Ok (q_set_stop V_lock q2))) by (unfold seq_stop_step; by rewrite H1, H3).
    destruct (seq_stop_inv q2 _ HI2 Hs) as (q3 & [= <-] & HI3). destruct (HL _ HI3) as (q' & ? & ?); [done..|].
    exists q'. split; [by econstructor 3 | done]. }
  destruct (q_stop q1) eqn:Eq; try done; [|by apply HA | by apply HL].
  assert (Hs : seq_stop_step q1 = Some (Ok (q_set_stop V_assigning q1))) by (unfold seq_stop_step; by rewrite Eq, Es).
  destruct (seq_stop_inv q1 _ HI1 Hs) as (q3 & [= <-] & HI3). destruct (HA _ HI3) as (q' & ? & ?); [done..|].
  exists q'. split; [by econstructor 3 | done].
Qed.

(** *** The pool of sequential runners *)
(** The two tests agree, when no runner moves between them: all of them wait. *)
Lemma pool_tests_agree (pool pool' : list SQ) : pool_test_waiting_step1 pool = (pool', true) ->
  pool_test_waiting_step2 pool' = true /\ Forall (fun q => q_state q = Q_WAITING) pool'.
Proof.
  revert pool'. induction pool as [|q pool IH]; intros pool' Hp; cbn in Hp; [by injection Hp as <-|].
  unfold seq_test_waiting_step1 in Hp. destruct (decide (q_state q = Q_WAITING)) as [Hw|]; [|done].
  destruct (pool_test_waiting_step1 pool) as [l b]. injection Hp as <- ->. destruct (IH l eq_refl) as [H1 H2]. split; [|by constructor].
  cbn. unfold seq_test_waiting_step2 at 1. cbn. rewrite Hw, bool_decide_true by done. exact H1.
Qed.
(** A task goes to the runner of its tag and to no other, so tasks of one tag run in order. *)
Lemma pool_assign_runner tag t (pool : list SQ) : pool <> [] -> Forall (fun q => seq_inv q /\ q_stop q = V_none) pool ->
  exists q q', pool !! runner_of tag pool = Some q /\ seq_assign_task t q = Ok q' /\ assigned q' = assigned q ++ [t]
  /\ pool_assign_task tag t pool = Ok (<[runner_of tag pool := q']> pool).
Proof.
  intros Hn HF. assert (Hl : (runner_of tag pool < length pool)%nat).
  { unfold runner_of. assert (length pool <> 0%nat) by (by destruct pool). pose proof (Z.mod_pos_bound tag (Z.of_nat (length pool))). lia. }
  destruct (lookup_lt_is_Some_2 _ _ Hl) as [q Hq]. destruct (proj1 (Forall_lookup _ _) HF _ _ Hq) as [HI Hv].
  destruct (seq_assign_inv t q HI Hv) as (q' & Ha & _). exists q, q'. split; [done|]. split; [done|]. split.
  - unfold seq_assign_task in Ha. res_inv. destruct (decide _); subst; [|done]. unfold seq_wake. by destruct (q_pc _).
  - unfold pool_assign_task. rewrite Hq, Ha. done.
Qed.
End seq.

(** ** The pool *)
Section pool.
Context {T : Type}.
Local Abbreviation PS := (sched T).
Implicit Types s : PS.

Definition of_prio (p : Z) (l : list (T * Z)) : list T := fst <$> filter (fun x => x.2 = p) l.
Definition in_hand (r : runner T) : list T := match r_pc r with P_got t | P_flag t | P_run t => [t] | _ => [] end.
Definition waiting (r : runner T) : nat := match r_pc r with P_asleep | P_woken => 1 | _ => 0 end.
Definition weight (r : runner T) : nat :=
  match r_pc r with P_asleep => 0 | P_wait => 1 | P_pop => 2 | P_top | P_woken => 3 | P_run _ => 4 | P_flag _ => 5 | P_got _ => 6 | _ => 0 end.
Definition pool_work (s : PS) : nat := sum_list_with weight (runners s) + 8 * (length (high (tasks s)) + length (normal (tasks s))).

Lemma list_alter_as_insert {A} (f : A -> A) i (l : list A) x : l !! i = Some x -> alter f i l = <[i := f x]> l.
Proof.
  intros E. apply list_eq. intros j. destruct (decide (i = j)) as [<-|Hne].
  - by rewrite list_lookup_alter_eq, list_lookup_insert_eq, E by (by eapply lookup_lt_Some).
  - by rewrite list_lookup_alter_ne, list_lookup_insert_ne.
Qed.
Lemma sum_replace {A} (f : A -> nat) i l x y : l !! i = Some x -> (sum_list_with f (<[i := y]> l) + f x = sum_list_with f l + f y)%nat.
Proof.
  revert i. induction l as [|z l IH]; intros [|i] E; try done; simpl in *; [injection E as <-; lia|]. specialize (IH i E). lia.
Qed.
Lemma flat_replace {A B} (f : A -> list B) i l x y : l !! i = Some x -> f x ++ (<[i := y]> l ≫= f) ≡ₚ f y ++ (l ≫= f).
Proof.
  revert i. induction l as [|z l IH]; intros [|i] E; try done; simpl in *; [injection E as <-; solve_Permutation|].
  specialize (IH i E). rewrite (app_assoc (f x)), (Permutation_app_comm (f x)), <- app_assoc. rewrite IH. solve_Permutation.
Qed.

Definition place_ok (i : nat) (r : runner T) (s : PS) : Prop :=
  m_state r <> TR_S_ENDING /\ r_thread r = TR_RUNNING /\
  match r_pc r with
  | P_pop => owner s = Some i
  | P_wait => owner s = Some i /\ queue_empty (tasks s) = true
  | P_left | P_done => False
  | _ => owner s <> Some i
  end.
Record pool_inv (n : nat) (s : PS) : Prop := {
  pi_state : s_state s = S_RUN /\ stop_at s = W_none;
  pi_len : length (runners s) = n;
  pi_place i r : runners s !! i = Some r -> place_ok i r s;
  pi_owner i : owner s = Some i -> is_Some (runners s !! i);
  pi_awake : queue_empty (tasks s) = false -> exists r, r ∈ runners s /\ asleep r = false;
  pi_count : wait_count s = Z.of_nat (sum_list_with waiting (runners s));
  pi_taken : (taken s).*1 ≡ₚ ran s ++ (runners s ≫= in_hand);
  pi_high : of_prio P_HIGH (scheduled s) = of_prio P_HIGH (taken s) ++ high (tasks s);
  pi_normal : of_prio P_NORMAL (scheduled s) = of_prio P_NORMAL (taken s) ++ normal (tasks s);
  pi_all : (scheduled s).*1 ≡ₚ (taken s).*1 ++ high (tasks s) ++ normal (tasks s)
}.

Lemma start_pool_inv n : (0 < n)%nat -> pool_inv n (start n).
Proof.
  intros Hn. constructor; cbn; try done.
  - by rewrite length_replicate.
  - intros i r [-> _]%lookup_replicate. done.
  - clear. by induction n.
  - clear. by induction n.
Qed.
Lemma waiting_le l : (sum_list_with waiting l <= length l)%nat.
Proof. induction l as [|r l IH]; cbn; [done|]. unfold waiting at 1. destruct (r_pc r); lia. Qed.

(** A step of one runner leaves the others where they may be, if it touches the lock and the
    queues only while no other has the lock. *)
Definition minds_lock (i : nat) s s' : Prop :=
  owner s' = owner s /\ tasks s' = tasks s \/
  (owner s = None \/ owner s = Some i) /\ (owner s' = None \/ owner s' = Some i).
Lemma place_others n s s' i r' : pool_inv n s -> minds_lock i s s' -> runners s' = <[i := r']> (runners s) -> place_ok i r' s' ->
  forall j r, runners s' !! j = Some r -> place_ok j r s'.
Proof.
  intros HI HM Hl Hr j r Hj. rewrite Hl in Hj. destruct (decide (i = j)) as [<-|Hne].
  - assert (Hi : (i < length (runners s))%nat) by (apply lookup_lt_Some in Hj; by rewrite length_insert in Hj).
    rewrite list_lookup_insert_eq in Hj by done. by injection Hj as <-.
  - rewrite list_lookup_insert_ne in Hj by done. destruct (pi_place n s HI j r Hj) as (Hs & Ht & Hp).
    destruct HM as [[E1 E2]|[H1 H2]]; [unfold place_ok; by rewrite E1, E2|].
    split; [done|]. split; [done|]. destruct (r_pc r); try done; try (destruct H2 as [->| ->]; congruence).
    + destruct H1; congruence.
    + destruct Hp, H1; congruence.
Qed.

(** The step of a runner that adds [xs] to what began and takes [ts] from the queues. *)
Lemma runner_moves n i r r' s s' ts xs : pool_inv n s -> runners s !! i = Some r -> minds_lock i s s' ->
  runners s' = <[i := r']> (runners s) -> place_ok i r' s' ->
  s_state s' = s_state s -> stop_at s' = stop_at s -> scheduled s' = scheduled s ->
  (asleep r' = false \/ queue_empty (tasks s') = true) ->
  wait_count s' = wait_count s - Z.of_nat (waiting r) + Z.of_nat (waiting r') ->
  taken s' = taken s ++ ts -> ran s' = ran s ++ xs -> ts.*1 ++ in_hand r ≡ₚ xs ++ in_hand r' ->
  high (tasks s) = of_prio P_HIGH ts ++ high (tasks s') -> normal (tasks s) = of_prio P_NORMAL ts ++ normal (tasks s') ->
  ts.*1 = of_prio P_HIGH ts ++ of_prio P_NORMAL ts ->
  pool_inv n s'.
Proof.
  intros HI Hi HM Hl Hp H1 H2 H3 Ha Hc Ht Hr Hx Hh Hn Hts. assert (Hlt := lookup_lt_Some _ _ _ Hi).
  assert (Hof : forall p l1 l2, of_prio p (l1 ++ l2) = of_prio p l1 ++ of_prio p l2) by (intros; unfold of_prio; by rewrite filter_app, fmap_app).
  destruct HI as [[Ss St] L P O A C Tk Hg No Al] eqn:EI. constructor.
  - by rewrite H1, H2.
  - by rewrite Hl, length_insert.
  - by eapply place_others.
  - intros j Hj. rewrite Hl. apply lookup_lt_is_Some. rewrite length_insert. destruct HM as [[E _]|[_ [E|E]]].
    + apply lookup_lt_is_Some, O. congruence.
    + congruence.
    + congruence.
  - intros He. destruct Ha as [Ha|Ha]; [|congruence]. exists r'. split; [|done]. rewrite Hl. apply list_elem_of_lookup. exists i.
    by apply list_lookup_insert_eq.
  - rewrite Hc, Hl, C. pose proof (sum_replace waiting i _ r r' Hi). lia.
  - rewrite Ht, Hr, fmap_app, Tk, Hl. apply (Permutation_app_inv_l (in_hand r)).
    pose proof (flat_replace in_hand i _ r r' Hi) as E. rewrite <- app_assoc.
    transitivity (ran s ++ xs ++ (in_hand r' ++ (runners s ≫= in_hand))).
    + rewrite (app_assoc xs), <- Hx. solve_Permutation.
    + rewrite <- E. solve_Permutation.
  - by rewrite H3, Hg, Ht, Hof, Hh, app_assoc.
  - by rewrite H3, No, Ht, Hof, Hn, app_assoc.
  - rewrite H3, Al, Ht, Hh, Hn, fmap_app, Hts. solve_Permutation.
Qed.

Lemma work_moves i r r' s s' : runners s !! i = Some r -> runners s' = <[i := r']> (runners s) ->
  (weight r' + 8 * (length (high (tasks s')) + length (normal (tasks s'))) < weight r + 8 * (length (high (tasks s)) + length (normal (tasks s))))%nat ->
  (pool_work s' < pool_work s)%nat.
Proof. intros Hi Hl Hw. unfold pool_work. rewrite Hl. pose proof (sum_replace weight i _ r r' Hi). lia. Qed.
Lemma owner_locked n i s : pool_inv n s -> owner s = Some i -> exists r, runners s !! i = Some r /\ (r_pc r = P_pop \/ r_pc r = P_wait).
Proof.
  intros HI Ho. destruct (pi_owner n s HI i Ho) as [r Hr]. exists r. split; [done|].
  destruct (pi_place n s HI i r Hr) as (_ & _ & Hp). destruct (r_pc r); auto; done.
Qed.
Lemma front_and_pop_none (q : priority_task_queue T) q' : front_and_pop q = (None, q') -> high q = [] /\ normal q = [].
Proof. unfold front_and_pop. by destruct (high q), (normal q). Qed.
Lemma front_and_pop_some (q q' : priority_task_queue T) t p : front_and_pop q = (Some (t, p), q') ->
  high q = of_prio P_HIGH [(t, p)] ++ high q' /\ normal q = of_prio P_NORMAL [(t, p)] ++ normal q'
  /\ [t] = of_prio P_HIGH [(t, p)] ++ of_prio P_NORMAL [(t, p)]
  /\ S (length (high q') + length (normal q')) = (length (high q) + length (normal q))%nat.
Proof. unfold front_and_pop. destruct (high q), (normal q); intros [= <- <- <-]; cbn; repeat split; lia. Qed.

(** At [check_begin], with the lock. *)
Lemma begin_moves n i r s s1 : pool_inv n s -> runners s !! i = Some r -> owner s = None -> r_pc r = P_top \/ r_pc r = P_woken ->
  s1 = set_wait_count (wait_count s - Z.of_nat (waiting r)) s ->
  pool_inv n (check_begin i r s1) /\ (pool_work (check_begin i r s1) < pool_work s)%nat.
Proof.
  intros HI Hi Ho Hp ->. destruct (pi_place n s HI i r Hi) as (Hs & Ht & _). unfold check_begin. rewrite decide_False by done.
  assert (Hl : alter (set_pc P_pop) i (runners s) = <[i := set_pc P_pop r]> (runners s)) by (by apply list_alter_as_insert).
  split.
  - eapply (runner_moves n i r (set_pc P_pop r) s _ [] []); try done; cbn; try (by left); try lia; try (by rewrite app_nil_r).
    + right. split; auto.
    + unfold in_hand. by destruct Hp as [->| ->].
  - eapply work_moves; [exact Hi | exact Hl |]. cbn. unfold weight. destruct Hp as [->| ->]; cbn; lia.
Qed.
(** A step of one runner, as [runner_moves] and [work_moves] want it. *)
Local Ltac moves HI Hi r' ts xs Hl :=
  split; [eapply (runner_moves _ _ _ r' _ _ ts xs HI Hi); try exact Hl; try done; cbn; try (by left); try (by right; auto); try lia; try (by rewrite app_nil_r)
         | eapply work_moves; [exact Hi | exact Hl |]; cbn; unfold weight; cbn].

Lemma waiting_asleep i (l : list (runner T)) r : l !! i = Some r -> (waiting r <= sum_list_with waiting l)%nat.
Proof. revert i. induction l as [|x l IH]; intros [|i] E; try done; simpl in *; [injection E as ->; lia | specialize (IH i E); lia]. Qed.

Lemma runner_step_inv n i s r : (n <= 255)%nat -> pool_inv n s -> runner_step i s = Some r ->
  exists s', r = Ok s' /\ pool_inv n s' /\ (pool_work s' < pool_work s)%nat.
Proof.
  intros Hn HI Hs. unfold runner_step in Hs. destruct (runners s !! i) as [r0|] eqn:Hi; [|done]. cbn [mbind option_bind] in Hs.
  destruct (pi_place n s HI i r0 Hi) as (Hst & Hth & Hp). pose proof (pi_count n s HI) as C.
  pose proof (waiting_le (runners s)) as Hwl. rewrite (pi_len n s HI) in Hwl.
  assert (HL : forall f s1, runners s1 = runners s -> runners (upd_runner i f s1) = <[i := f r0]> (runners s)).
  { intros f s1 E. cbn. rewrite E. by apply list_alter_as_insert. }
  destruct (r_pc r0) as [| | | | |t|t|t| |] eqn:Ep; try done.
  - unfold lock_free in Hs. case_bool_decide as Ho; [|done]. injection Hs as <-. eexists. split; [done|].
    eapply begin_moves; try done; [auto|]. unfold waiting. rewrite Ep. by destruct s; cbn; rewrite Z.sub_0_r.
  - destruct (front_and_pop (tasks s)) as [[[t p]|] q] eqn:Eq; injection Hs as <-; (eexists; split; [done|]).
    + destruct (front_and_pop_some _ _ _ _ Eq) as (E1 & E2 & E3 & E4).
      moves HI Hi (set_pc (P_got t) r0) [(t, p)] (@nil T) (HL (set_pc (P_got t)) (set_owner None (log_taken (t, p) (set_tasks q s))) eq_refl).
      * unfold waiting. rewrite Ep. cbn. lia.
      * unfold in_hand. by rewrite Ep.
      * rewrite Ep. lia.
    + destruct (front_and_pop_none _ _ Eq) as [E1 E2]. set (f := fun r => set_pc P_wait (set_state TR_S_WAITING r)).
      moves HI Hi (f r0) (@nil (T * Z)) (@nil T) (HL f s eq_refl).
      * unfold place_ok, queue_empty. cbn. by rewrite E1, E2.
      * unfold waiting. rewrite Ep. cbn. lia.
      * unfold in_hand. by rewrite Ep.
      * rewrite Ep. lia.
  - injection Hs as <-. eexists. split; [done|]. destruct Hp as [Ho He].
    moves HI Hi (set_pc P_asleep r0) (@nil (T * Z)) (@nil T) (HL (set_pc P_asleep) (set_owner None (set_wait_count (u8 (wait_count s + 1)) s)) eq_refl).
    + pose proof (sum_replace waiting i _ r0 (set_pc P_asleep r0) Hi) as E. pose proof (waiting_le (<[i := set_pc P_asleep r0]> (runners s))) as E'.
      rewrite length_insert, (pi_len n s HI) in E'. unfold waiting in E at 2 4. rewrite Ep in E. cbn in E. unfold waiting at 1. rewrite Ep. cbn.
      rewrite u8_small; [lia | unfold is_u8; lia].
    + unfold in_hand. by rewrite Ep.
    + rewrite Ep. lia.
  - unfold lock_free in Hs. case_bool_decide as Ho; [|done]. injection Hs as <-. eexists. split; [done|].
    eapply begin_moves; try done; [auto|]. pose proof (waiting_asleep i _ r0 Hi) as E. unfold waiting in E at 1. unfold waiting at 1. rewrite Ep in *.
    rewrite u8_small; [done | unfold is_u8; lia].
  - injection Hs as <-. eexists. split; [done|]. set (f := fun r => set_pc (P_flag t) (set_state TR_S_RUNNING r)).
    moves HI Hi (f r0) (@nil (T * Z)) (@nil T) (HL f s eq_refl); [unfold waiting; rewrite Ep; cbn; lia | unfold in_hand; by rewrite Ep | rewrite Ep; lia].
  - injection Hs as <-. eexists. split; [done|]. set (f := fun r => set_pc (P_run t) (set_wait_flag 0 r)).
    moves HI Hi (f r0) (@nil (T * Z)) (@nil T) (HL f s eq_refl); [unfold waiting; rewrite Ep; cbn; lia | unfold in_hand; by rewrite Ep | rewrite Ep; lia].
  - injection Hs as <-. eexists. split; [done|].
    moves HI Hi (set_pc P_top r0) (@nil (T * Z)) [t] (HL (set_pc P_top) (log_ran t s) eq_refl);
      [unfold waiting; rewrite Ep; cbn; lia | unfold in_hand; by rewrite Ep | rewrite Ep; lia].
Qed.

Lemma upd_none i f s : runners s !! i = None -> upd_runner i f s = s.
Proof.
  intros E. destruct s. unfold upd_runner, set_runners. cbn in *. f_equal. apply list_eq. intros j.
  destruct (decide (i = j)) as [<-|Hne]; [by rewrite list_lookup_alter_eq, E | by rewrite list_lookup_alter_ne].
Qed.
Lemma wake_inv n i s : pool_inv n s -> pool_inv n (upd_runner i wake s).
Proof.
  intros HI. destruct (runners s !! i) as [r|] eqn:Hi; [|by rewrite upd_none].
  destruct (pi_place n s HI i r Hi) as (Hs & Ht & Hp).
  eapply (runner_moves n i r (wake r) s _ [] []); try done; cbn; try (by rewrite app_nil_r).
  - by left.
  - by apply list_alter_as_insert.
  - unfold place_ok, wake. destruct (r_pc r) eqn:Ep; cbn; rewrite ?Ep; done.
  - left. unfold wake, asleep. destruct (r_pc r) eqn:Ep; cbn; by rewrite ?Ep.
  - unfold wake, waiting. destruct (r_pc r) eqn:Ep; cbn; rewrite ?Ep; lia.
  - unfold wake, in_hand. destruct (r_pc r) eqn:Ep; cbn; by rewrite ?Ep.
Qed.

(** A new task, while some runner is awake. *)
Lemma add_task_inv n t p q s : pool_inv n s -> owner s = None -> (exists r, r ∈ runners s /\ asleep r = false) ->
  queue_push t p (tasks s) = Ok q -> pool_inv n (log_scheduled (t, p) (set_tasks q s)).
Proof.
  intros [St L P O A C Tk Hg No Al] Ho Hr Hq. unfold queue_push in Hq.
  assert (HP : forall i r, runners s !! i = Some r -> place_ok i r (log_scheduled (t, p) (set_tasks q s))).
  { intros i r Hi. destruct (P i r Hi) as (H1 & H2 & H3). split; [done|]. split; [done|]. destruct (r_pc r); try done. destruct H3. cbn. congruence. }
  assert (Hof : forall p' l x, of_prio p' (l ++ [x]) = of_prio p' l ++ of_prio p' [x]) by (intros; unfold of_prio; by rewrite filter_app, fmap_app).
  destruct (Z.eqb_spec p P_HIGH) as [->|_]; [|destruct (Z.eqb_spec p P_NORMAL) as [->|_]; [|done]]; injection Hq as <-;
    constructor; try done; cbn -[of_prio]; rewrite ?Hof, ?Hg, ?No, ?fmap_app, ?Al.
  1, 5: by rewrite <- app_assoc.
  1, 3: by rewrite app_nil_r.
  all: cbn; solve_Permutation.
Qed.
Lemma none_waiting (l : list (runner T)) r : sum_list_with waiting l = 0%nat -> r ∈ l -> asleep r = false.
Proof.
  intros E (i & Hi)%list_elem_of_lookup. pose proof (waiting_asleep i l r Hi) as H. rewrite E in H. unfold waiting in H. unfold asleep.
  destruct (r_pc r); lia || done.
Qed.
Lemma schedule_inv n t p pick s r : (0 < n)%nat -> pool_inv n s -> owner s = None -> picks (runners s) pick = true ->
  (p =? P_HIGH) || (p =? P_NORMAL) = true -> schedule t p pick s = r -> exists s', r = Ok s' /\ pool_inv n s'.
Proof.
  intros Hn HI Ho Hk Hp <-. unfold schedule. destruct (pi_state n s HI) as [-> _]. rewrite bool_decide_true by done. res_simpl.
  assert (exists q, queue_push t p (tasks s) = Ok q) as [q Hq].
  { unfold queue_push. destruct (p =? P_HIGH); [eauto|]. cbn in Hp. rewrite Hp. eauto. }
  rewrite Hq. res_simpl. eexists. split; [done|]. change (wait_count (log_scheduled _ _)) with (wait_count s).
  assert (H0 : exists r0, runners s !! 0%nat = Some r0) by (apply lookup_lt_is_Some; by rewrite (pi_len n s HI)). destruct H0 as [r0 H0].
  destruct (Z.ltb_spec 0 (wait_count s)) as [Hw|Hw].
  - change (notify_one pick (log_scheduled (t, p) (set_tasks q s))) with (log_scheduled (t, p) (set_tasks q (notify_one pick s))).
    apply add_task_inv; [by apply wake_inv | done | | done]. unfold picks in Hk. apply orb_true_iff in Hk as [Hk|Hk].
    + assert (Hall : forall r, r ∈ runners s -> asleep r = false).
      { intros r Hr. destruct (asleep r) eqn:Ea; [|done]. apply negb_true_iff in Hk. rewrite <- Hk. symmetry. apply existsb_exists. exists r.
        by rewrite <- list_elem_of_In. }
      exists (if decide (pick = 0%nat) then wake r0 else r0). split.
      * apply list_elem_of_lookup. exists 0%nat. cbn. destruct (decide (pick = 0%nat)) as [->|Hne];
          [by rewrite list_lookup_alter_eq, H0 | by rewrite list_lookup_alter_ne].
      * pose proof (Hall r0 (list_elem_of_lookup_2 _ _ _ H0)) as Ea. unfold wake, asleep in *. destruct (decide _), (r_pc r0) eqn:E; cbn; by rewrite ?E.
    + destruct (runners s !! pick) as [r|] eqn:Hi; [|done]. exists (wake r). split.
      * apply list_elem_of_lookup. exists pick. cbn. by rewrite list_lookup_alter_eq, Hi.
      * unfold wake, asleep in *. by destruct (r_pc r) eqn:E.
  - apply add_task_inv; try done. exists r0. assert (Hr : r0 ∈ runners s) by (by eapply list_elem_of_lookup_2). split; [done|].
    eapply none_waiting; [|done]. pose proof (pi_count n s HI). lia.
Qed.

Lemma pool_perform_inv n a s r : (0 < n <= 255)%nat -> pool_inv n s -> running a = true -> perform a s = Some r -> exists s', r = Ok s' /\ pool_inv n s'.
Proof.
  intros Hn HI Hr Hs. destruct a as [t p pick|i|i| |]; try done; cbn [perform] in Hs.
  - destruct (lock_free s && picks (runners s) pick) eqn:E; [|done]. injection Hs as <-. apply andb_true_iff in E as [El Ek].
    unfold lock_free in El. apply bool_decide_eq_true in El. eapply schedule_inv; try done; lia.
  - destruct (runner_step_inv n i s r) as (s' & ? & ? & _); [lia | done | done | eauto].
  - destruct (match runners s !! i with Some r => asleep r | None => false end); [|done]. injection Hs as <-. eexists. split; [done|]. by apply wake_inv.
Qed.
Lemma steps_inv n s : (0 < n <= 255)%nat -> steps running (start n) s -> pool_inv n s.
Proof.
  intros Hn. induction 1 as [|s a s' _ IH Ha Hs]; [apply start_pool_inv; lia|].
  destruct (pool_perform_inv n a s _ Hn IH Ha Hs) as (? & [= <-] & ?). done.
Qed.

(** At rest every runner sleeps and there is no task. *)
Lemma pool_at_rest n s : (0 < n)%nat -> pool_inv n s -> (forall i, runner_step i s = None) ->
  high (tasks s) = [] /\ normal (tasks s) = [] /\ runners s ≫= in_hand = [].
Proof.
  intros Hn HI Hs. assert (Ho : owner s = None).
  { destruct (owner s) as [i|] eqn:Ho; [|done]. destruct (owner_locked n i s HI Ho) as (r & Hi & Hp). specialize (Hs i). unfold runner_step in Hs.
    rewrite Hi in Hs. cbn in Hs. destruct Hp as [E|E]; rewrite E in Hs; [|done]. by destruct (front_and_pop (tasks s)) as [[[]|] ?]. }
  assert (Hall : forall r, r ∈ runners s -> r_pc r = P_asleep).
  { intros r (i & Hi)%list_elem_of_lookup. specialize (Hs i). unfold runner_step, lock_free in Hs. rewrite Hi, Ho in Hs. cbn in Hs.
    destruct (pi_place n s HI i r Hi) as (_ & _ & Hp). destruct (r_pc r); try done. destruct (front_and_pop (tasks s)) as [[[]|] ?]; done. }
  assert (He : queue_empty (tasks s) = true).
  { destruct (queue_empty (tasks s)) eqn:He; [done|]. destruct (pi_awake n s HI He) as (r & Hr & Ha). unfold asleep in Ha. by rewrite (Hall r Hr) in Ha. }
  unfold queue_empty in He. split; [by destruct (high (tasks s)), (normal (tasks s))|]. split; [by destruct (high (tasks s)), (normal (tasks s))|].
  revert Hall. generalize (runners s). induction l as [|r l IH]; intros Hl; [done|]. cbn [mbind list_bind].
  change (in_hand r ++ (l ≫= in_hand) = []). rewrite IH by (intros r' Hr'; apply Hl; by right).
  unfold in_hand. by rewrite (Hl r) by left.
Qed.

(** C17: The pool of runners runs every task once: whatever the interleaving of the threads that
    schedule, of the runners and of spurious wake-ups, no assertion fails and what has begun was
    scheduled, once; within a priority the tasks are taken in the order they were scheduled; each
    step of a runner lessens a measure, so that the runners come to rest; and when they are at
    rest every task has been run. *)
Theorem scheduler_runs_all n s : (0 < n <= 255)%nat -> steps running (start n) s ->
  (forall a r, running a = true -> perform a s = Some r -> exists s', r = Ok s')
  /\ (forall i s', runner_step i s = Some (Ok s') -> (pool_work s' < pool_work s)%nat)
  /\ (exists rest, (scheduled s).*1 ≡ₚ ran s ++ rest)
  /\ (exists h l, of_prio P_HIGH (scheduled s) = of_prio P_HIGH (taken s) ++ h /\ of_prio P_NORMAL (scheduled s) = of_prio P_NORMAL (taken s) ++ l)
  /\ ((forall i, runner_step i s = None) -> ran s ≡ₚ (scheduled s).*1).
Proof.
  intros Hn HI%steps_inv; [|done]. repeat split.
  - intros a r Ha Hs. destruct (pool_perform_inv n a s r Hn HI Ha Hs) as (s' & ? & _). eauto.
  - intros i s' Hs. by destruct (runner_step_inv n i s _ ltac:(lia) HI Hs) as (? & [= <-] & _ & ?).
  - exists ((runners s ≫= in_hand) ++ high (tasks s) ++ normal (tasks s)). rewrite (pi_all n s HI), (pi_taken n s HI). by rewrite <- app_assoc.
  - exists (high (tasks s)), (normal (tasks s)). split; apply HI.
  - intros Hr. destruct (pool_at_rest n s ltac:(lia) HI Hr) as (E1 & E2 & E3).
    by rewrite (pi_all n s HI), (pi_taken n s HI), E1, E2, E3, !app_nil_r.
Qed.
End pool.

(** ** [scheduler::stop] may hang *)
Section hang.
Context {T : Type}.
Local Abbreviation all := (fun _ : act T => true).

Fixpoint run_acts (l : list (act T)) (s : sched T) : option (sched T) :=
  match l with
  | [] => Some s
  | a :: l => match perform a s with Some (Ok s') => run_acts l s' | _ => None end
  end.
Lemma run_acts_steps l : forall s0 s s', steps all s0 s -> run_acts l s = Some s' -> steps all s0 s'.
Proof.
  induction l as [|a l IH]; intros s0 s s' Hs Hr; cbn in Hr; [by injection Hr as <-|].
  destruct (perform a s) as [[s1|]|] eqn:E; try done. eapply IH; [|done]. by econstructor.
Qed.

(** The one runner goes to sleep, [stop] finds it so and wakes it; in [runner::stop] it is seen
    waiting; it takes the lock before its state is [TR_S_ENDING] and, finding no task, writes
    [TR_S_WAITING] after. *)
Definition unlucky : list (act T) :=
  [A_runner 0; A_runner 0; A_runner 0; A_stop_call; A_stop true true 0] ++ replicate 6 (A_stop true true 0)
  ++ [A_stop true true 0; A_stop true true 0; A_stop true true 0; A_runner 0; A_stop true true 0; A_runner 0].

Record hung (s : sched T) : Prop := {
  hu_state : s_state s = S_EXIT;
  hu_tasks : tasks s = mk_queue [] [];
  hu_stop : match stop_at s with W_notify i | W_thread i | W_join i => i = 0%nat | _ => False end;
  hu_runner : exists r, runners s = [r] /\ m_state r = TR_S_WAITING /\ match r_pc r with P_pop | P_wait | P_asleep | P_woken => True | _ => False end
}.
Lemma hung_perform a s s' : hung s -> perform a s = Some (Ok s') -> hung s'.
Proof.
  intros [Hx Ht Hv (r & Hr & Hw & Hp)] Hs. destruct s as [st wc tk rs ow v sc ta ra]. cbn in *. subst st tk rs.
  destruct a as [t p pick|i|i| |q1 q2 pick]; cbn in Hs.
  - destruct (lock_free _ && _); [|done]. done.
  - unfold runner_step, check_begin, lock_free in Hs. destruct i as [|i]; [|done]. cbn in Hs.
    destruct (r_pc r) eqn:Ep; try done; cbn in Hs.
    + injection Hs as <-. constructor; cbn; try done. eexists. by split.
    + injection Hs as <-. constructor; cbn; try done. eexists. by split.
    + destruct (bool_decide _); [|done]. rewrite decide_False in Hs by congruence. injection Hs as <-. constructor; cbn; try done. eexists. by split.
  - destruct i as [|i]; [|done]. cbn in Hs. unfold asleep in Hs. destruct (r_pc r) eqn:Ep; try done. injection Hs as <-.
    constructor; cbn; try done. unfold wake. rewrite Ep. eexists. by split.
  - by destruct v.
  - destruct (picks _ _); [|done]. unfold stop_step, runner_stop_step, thread_stop_step, goes_to, lock_free in Hs. cbn in Hs. destruct v; try done; subst.
    + destruct (bool_decide _); [|done]. injection Hs as <-. constructor; cbn; try done. exists (wake r). split; [done|].
      unfold wake. destruct (r_pc r) eqn:Ep; cbn; rewrite ?Ep; done.
    + injection Hs as <-. constructor; cbn; try done. eexists. split; [done|]. cbn. by destruct (r_pc r).
    + cbn in Hs. by destruct (r_pc r).
Qed.

(** C19: [scheduler::stop] may never return: [runner::stop] writes [TR_S_ENDING] without the mutex
    of the scheduler, and a runner that was woken, found no task and goes back to sleep writes
    [TR_S_WAITING] over it.  From a scheduler with one runner and no task there is a run after
    which, whatever the threads do, [stop] has not returned. *)
Theorem scheduler_stop_hangs : exists s : sched T,
  steps all (start 1) s /\ stop_at s = W_notify 0 /\ forall s', steps all s s' -> stop_at s' <> W_done.
Proof.
  destruct (run_acts unlucky (start 1)) as [s|] eqn:Es; [|by vm_compute in Es]. exists s.
  assert (Hs : steps all (start 1) s) by (by apply (run_acts_steps unlucky (start 1) (start 1)); [constructor|]).
  vm_compute in Es. injection Es as Es. split; [done|]. split; [by subst s|].
  assert (Hh : hung s) by (subst s; constructor; try done; eexists; by split).
  intros s' Hs'. enough (Hh' : hung s') by (intros E; pose proof (hu_stop s' Hh') as Hv; by rewrite E in Hv).
  induction Hs' as [|s1 a s2 _ IH _ Ha]; [done|]. by eapply hung_perform.
Qed.
End hang.

(** A runner that has taken a task says [TR_S_WAITING] until it comes to [TR_S_RUNNING], so
    [__block_until_no_new_task] can pass it: the state is [S_EXIT] before the task begins, and
    if the task schedules another the assertion of [schedule] fails. *)
Definition overtaken : list (act nat) :=
  [A_runner 0; A_runner 0; A_runner 0; A_schedule 7%nat P_NORMAL 0; A_runner 0; A_runner 0; A_stop_call; A_stop true true 0]
  ++ replicate 7 (A_stop true true 0).
Lemma stop_passes_taken_task : exists s, run_acts overtaken (start 1) = Some s /\ stop_at s = W_on_stop /\ s_state s = S_EXIT
  /\ r_pc <$> runners s = [P_got 7%nat] /\ ran s = [] /\ schedule 8%nat P_NORMAL 0 s = Fault AssertFailed.
Proof. destruct (run_acts overtaken (start 1)) as [s|] eqn:Es; [|by vm_compute in Es]. exists s. vm_compute in Es. by injection Es as <-. Qed.

(** ** Witnesses *)
(** Two tasks are assigned, the first is run, [stop] is called and the rest follows. *)
Fixpoint seq_acts (l : list (seq_act nat)) (q : seq_runner nat) : option (seq_runner nat) :=
  match l with
  | [] => Some q
  | a :: l => match seq_perform a q with Some (Ok q') => seq_acts l q' | _ => None end
  end.
Lemma seq_acts_reach l : forall q q', seq_reach q -> seq_acts l q = Some q' -> seq_reach q'.
Proof.
  induction l as [|a l IH]; intros q q' Hq Hr; cbn in Hr; [by injection Hr as <-|].
  destruct (seq_perform a q) as [[q1|]|] eqn:E; try done. eapply IH; [|done]. by econstructor.
Qed.
Definition seq_history : list (seq_act nat) := [B_run; B_assign 7%nat; B_run; B_assign 8%nat; B_run; B_spurious].
Definition seq_example : seq_runner nat := mk_seq 0 Q_RUN [8%nat] [7%nat] TR_RUNNING (E_exec 1) V_none [7; 8]%nat [7%nat].

Lemma seq_stop_ends_witness : exists q', seq_goes (q_set_stop V_standby seq_example) q' /\ q_stop q' = V_done /\ q_ran q' = assigned q'.
Proof.
  apply (seq_stop_ends (q_set_stop V_standby seq_example)); [|discriminate].
  apply (seq_acts_reach [B_run; B_assign 7%nat; B_run; B_assign 8%nat; B_run; B_stop_call] seq_started); [constructor | by vm_compute].
Defined.

(** Three tasks for two runners, one of them urgent; the first has begun. *)
Definition pool_history : list (act nat) :=
  [A_schedule 1%nat P_NORMAL 0; A_schedule 2%nat P_HIGH 0; A_runner 0; A_runner 0; A_runner 0; A_schedule 3%nat P_NORMAL 0; A_runner 0; A_runner 1; A_runner 0].
Lemma run_acts_running l : forallb running l = true -> forall s s' : sched nat, steps running (start 2) s -> run_acts l s = Some s' -> steps running (start 2) s'.
Proof.
  induction l as [|a l IH]; intros Ha s s' Hs Hr; cbn in Hr; [by injection Hr as <-|]. cbn in Ha. apply andb_true_iff in Ha as [Ha Hl].
  destruct (perform a s) as [[s1|]|] eqn:E; try done. eapply (IH Hl); [|done]. by econstructor.
Qed.
Lemma scheduler_runs_all_witness : exists s : sched nat, run_acts pool_history (start 2) = Some s /\ ran s = [2%nat]
  /\ (forall a r, running a = true -> perform a s = Some r -> exists s', r = Ok s').
Proof.
  destruct (run_acts pool_history (start 2)) as [s|] eqn:Es; [|by vm_compute in Es]. exists s. split; [done|].
  assert (HS : steps running (start 2) s) by (eapply (run_acts_running pool_history); [by vm_compute | constructor | done]).
  split; [vm_compute in Es; by injection Es as <-|]. exact (proj1 (scheduler_runs_all 2 s ltac:(lia) HS)).
Defined.
