(* ===== verification/Dispatcher.v ===== *)
(** * Dispatcher: events and their listeners ([include/wawo/net/dispatcher_abstract.hpp])

    Sockets and peers are dispatchers.  A registration is queued as an operation, and the queue
    is worked off at the next [trigger], which then calls the listeners of the event one after
    another while it holds [m_id_listener_vector_mutex].

    - [dispatcher]: the vectors, the queue and the mutex; [dispatcher_abstract]: the methods, over
      what the listeners do when they are called;
    - [subscribed]: the specification, in which a registration takes effect at once;
    - [dispatcher_delivers]: the queue cannot be told from it;
    - [trigger_in_listener_waits], [oschedule_keeps_order]: a listener that triggers the same
      dispatcher waits for its own thread; what is scheduled in order is run in order. *)

From S2P Require Import Prelude Effects Scheduler SchedulerProofs.

Section dispatcher.
Context {L E : Type} `{!EqDecision L}.
(** [evt->id]. *)
Context (event_id : E -> Z).

Definition NE_MAX : Z := 8.

Inductive ListenerOpCode : Type :=
| OP_ADD_ID_LISTENER | OP_REMOVE_ID_LISTENER | OP_REMOVE_LISTENER_ALL_ID | OP_REMOVE_ID_ALL_LISTENER.
Record listener_op : Type := mk_op { o_listener : option L; o_op : ListenerOpCode; o_id : Z }.

(** [calls]: what the listeners were told, in order. *)
Record dispatcher : Type := mk_dispatcher {
  m_id_listener_vector : list (list L);
  m_listener_ops : list listener_op;
  vector_locked : bool;
  m_dp_id : Z;
  calls : list (L * E)
}.
Definition set_vectors v d := mk_dispatcher v (m_listener_ops d) (vector_locked d) (m_dp_id d) (calls d).
Definition set_ops v d := mk_dispatcher (m_id_listener_vector d) v (vector_locked d) (m_dp_id d) (calls d).
Definition set_locked v d := mk_dispatcher (m_id_listener_vector d) (m_listener_ops d) v (m_dp_id d) (calls d).
Definition log_call c d := mk_dispatcher (m_id_listener_vector d) (m_listener_ops d) (vector_locked d) (m_dp_id d) (calls d ++ [c]).

Definition new_dispatcher (dp_id : Z) : dispatcher := mk_dispatcher (replicate (Z.to_nat NE_MAX) []) [] false dp_id [].

(** [vector::erase] of the first element equal to [l]. *)
Fixpoint erase_first (l : L) (v : list L) : list L :=
  match v with
  | [] => []
  | x :: v' => if decide (x = l) then v' else x :: erase_first l v'
  end.
Definition erase_all (l : L) (v : list L) : list L := filter (fun x => x <> l) v.
End dispatcher.
Arguments dispatcher : clear implicits. Arguments listener_op : clear implicits.

Module dispatcher_abstract.
Section dispatcher_abstract.
Context {L E : Type} `{!EqDecision L}.
Context (event_id : E -> Z).
Local Abbreviation MD := (M (dispatcher L E)).

Definition _add_listener_op (listener : option L) (code : ListenerOpCode) (id : Z) : MD unit :=
  modify (fun d => set_ops (m_listener_ops d ++ [mk_op listener code id]) d).

Definition process_one (o : listener_op L) (v : list (list L)) : res (list (list L)) :=
  wawo_assert ((0 <=? o_id o) && (o_id o <? NE_MAX));;
  let i := Z.to_nat (o_id o) in
  match o_op o, o_listener o with
  | OP_ADD_ID_LISTENER, None | OP_REMOVE_ID_LISTENER, None => Fault AssertFailed
  | OP_ADD_ID_LISTENER, Some l => Ok (alter (fun ls => ls ++ [l]) i v)
  | OP_REMOVE_ID_LISTENER, Some l => Ok (alter (erase_first l) i v)
  | OP_REMOVE_LISTENER_ALL_ID, Some l => Ok (erase_all l <$> v)
  | OP_REMOVE_LISTENER_ALL_ID, None => Ok v
  | OP_REMOVE_ID_ALL_LISTENER, _ => Ok (alter (fun _ => []) i v)
  end.
Fixpoint process_all (ops : list (listener_op L)) (v : list (list L)) : res (list (list L)) :=
  match ops with [] => Ok v | o :: ops => v ← process_one o v; process_all ops v end.
Definition _process_listener_op : MD unit :=
  v ← gets m_id_listener_vector; ops ← gets m_listener_ops;
  v' ← lift (process_all ops v);
  modify (set_vectors v');; modify (set_ops []).

(** [lock_guard<spin_mutex> _lg(m_id_listener_vector_mutex)]: a spin mutex is not recursive. *)
Definition with_vector {A} (m : MD A) : MD A :=
  locked ← gets vector_locked;
  if (locked : bool) then fail Waits
  else modify (set_locked true);; a ← m; modify (set_locked false);; mret a.

Definition register_listener (id : Z) (listener : option L) (force_update : bool) : MD unit :=
  _add_listener_op listener OP_ADD_ID_LISTENER id;; when force_update (with_vector _process_listener_op).
Definition unregister_id_listener (id : Z) (listener : option L) (force_update : bool) : MD unit :=
  _add_listener_op listener OP_REMOVE_ID_LISTENER id;; when force_update (with_vector _process_listener_op).
Definition unregister_listener (listener : option L) (force_update : bool) : MD unit :=
  _add_listener_op listener OP_REMOVE_LISTENER_ALL_ID 0;; when force_update (with_vector _process_listener_op).

(** The calls of [on_event]; [on_event] is what a listener does to this dispatcher. *)
Section trigger.
Context (on_event : L -> E -> MD unit).
Fixpoint call_loop (n i : nat) (evt : E) : MD unit :=
  match n with
  | O => mret tt
  | S n' =>
      v ← gets m_id_listener_vector;
      match v !! Z.to_nat (event_id evt) ≫= lookup i with
      | None => fail Undefined
      | Some l => modify (log_call (l, evt));; on_event l evt;; call_loop n' (S i) evt
      end
  end.
Definition trigger (evt : E) : MD unit :=
  assertM ((0 <=? event_id evt) && (event_id evt <? NE_MAX));;
  with_vector (
    ops ← gets m_listener_ops;
    when (negb (bool_decide (length ops = 0%nat))) _process_listener_op;;
    v ← gets m_id_listener_vector;
    call_loop (length (default [] (v !! Z.to_nat (event_id evt)))) 0 evt).
End trigger.

(** [oschedule]: the task that triggers, for the runner of the tag. *)
Definition oschedule (evt : E) (tag : Z) (d : dispatcher L E) (pool : list (seq_runner (Z * E))) : res (list (seq_runner (Z * E))) :=
  pool_assign_task (if tag =? 0 then m_dp_id d else tag) (m_dp_id d, evt) pool.
End dispatcher_abstract.
End dispatcher_abstract.
Import dispatcher_abstract.

(** ** The specification *)
Section spec.
Context {L E : Type} `{!EqDecision L}.
Context (event_id : E -> Z).
(** What a listener asks the dispatcher for when it is called: operations, without force. *)
Context (reacts : L -> E -> list (listener_op L)).

Definition subscribed : Type := Z -> list L.
Definition op_spec (o : listener_op L) (f : subscribed) : subscribed := fun id =>
  match o_op o, o_listener o with
  | OP_ADD_ID_LISTENER, Some l => if id =? o_id o then f id ++ [l] else f id
  | OP_REMOVE_ID_LISTENER, Some l => if id =? o_id o then erase_first l (f id) else f id
  | OP_REMOVE_LISTENER_ALL_ID, Some l => erase_all l (f id)
  | OP_REMOVE_ID_ALL_LISTENER, _ => if id =? o_id o then [] else f id
  | _, _ => f id
  end.
Definition ops_spec (ops : list (listener_op L)) (f : subscribed) : subscribed := foldl (fun f o => op_spec o f) f ops.
Definition op_ok (o : listener_op L) : bool :=
  (0 <=? o_id o) && (o_id o <? NE_MAX) &&
  match o_op o, o_listener o with OP_ADD_ID_LISTENER, None | OP_REMOVE_ID_LISTENER, None => false | _, _ => true end.

(** What users do. *)
Inductive dp_act : Type := D_op (o : listener_op L) (force_update : bool) | D_trigger (evt : E).
Definition act_ok (a : dp_act) : bool :=
  match a with D_op o _ => op_ok o | D_trigger evt => (0 <=? event_id evt) && (event_id evt <? NE_MAX) end.
Definition act_spec (a : dp_act) (s : subscribed * list (L * E)) : subscribed * list (L * E) :=
  match a with
  | D_op o _ => (op_spec o s.1, s.2)
  | D_trigger evt => let ls := s.1 (event_id evt) in (ops_spec (ls ≫= fun l => reacts l evt) s.1, s.2 ++ ((fun l => (l, evt)) <$> ls))
  end.
Definition acts_spec (l : list dp_act) : subscribed * list (L * E) := foldl (fun s a => act_spec a s) (fun _ => [], []) l.

Definition queue_op (o : listener_op L) : M (dispatcher L E) unit := _add_listener_op (o_listener o) (o_op o) (o_id o).
Definition react (l : L) (evt : E) : M (dispatcher L E) unit := iterM queue_op (reacts l evt).
Definition run_act (a : dp_act) : M (dispatcher L E) unit :=
  match a with
  | D_op o force => queue_op o;; when force (with_vector _process_listener_op)
  | D_trigger evt => trigger event_id react evt
  end.

(** ** The refinement *)
Definition vec_spec (v : list (list L)) : subscribed := fun id => if (0 <=? id) && (id <? NE_MAX) then default [] (v !! Z.to_nat id) else [].
Record dp_inv (d : dispatcher L E) (s : subscribed * list (L * E)) : Prop := {
  di_len : length (m_id_listener_vector d) = Z.to_nat NE_MAX;
  di_ops : forallb op_ok (m_listener_ops d) = true;
  di_subs id : ops_spec (m_listener_ops d) (vec_spec (m_id_listener_vector d)) id = s.1 id;
  di_calls : calls d = s.2
}.
Lemma op_spec_ext o f g : (forall id, f id = g id) -> forall id, op_spec o f id = op_spec o g id.
Proof. intros Hf id. unfold op_spec. by destruct (o_op o), (o_listener o); rewrite ?Hf. Qed.
Lemma ops_spec_ext ops : forall f g, (forall id, f id = g id) -> forall id, ops_spec ops f id = ops_spec ops g id.
Proof. unfold ops_spec. induction ops as [|o ops IH]; intros f g Hf; simpl; [done|]. by apply IH, op_spec_ext. Qed.
Lemma ops_spec_app a b f : ops_spec (a ++ b) f = ops_spec b (ops_spec a f).
Proof. apply foldl_app. Qed.

Lemma vec_alter f i v : 0 <= i < NE_MAX -> length v = Z.to_nat NE_MAX ->
  forall id, vec_spec (alter f (Z.to_nat i) v) id = (if id =? i then f (vec_spec v id) else vec_spec v id).
Proof.
  intros Hi Hl id. unfold vec_spec. destruct (Z.eqb_spec id i) as [->|Hne].
  - replace ((0 <=? i) && (i <? NE_MAX)) with true by lia. rewrite list_lookup_alter_eq.
    by destruct (lookup_lt_is_Some_2 v (Z.to_nat i)) as [x ->]; [lia|].
  - destruct ((0 <=? id) && (id <? NE_MAX)) eqn:Hid; [|done]. by rewrite list_lookup_alter_ne by lia.
Qed.
Lemma process_one_spec o v : op_ok o = true -> length v = Z.to_nat NE_MAX ->
  exists v', process_one o v = Ok v' /\ length v' = Z.to_nat NE_MAX /\ forall id, vec_spec v' id = op_spec o (vec_spec v) id.
Proof.
  intros Ho Hl. unfold op_ok in Ho. apply andb_true_iff in Ho as [Hi Ho]. unfold process_one. rewrite Hi. res_simpl.
  assert (Hr : 0 <= o_id o < NE_MAX) by lia. unfold op_spec.
  destruct (o_op o), (o_listener o) as [l|]; try done; (eexists; split; [done|]; split; [rewrite ?length_alter, ?length_fmap; try done|]; intros id);
    try done; try (by rewrite vec_alter by done).
  unfold vec_spec. destruct ((0 <=? id) && (id <? NE_MAX)); [|done]. rewrite list_lookup_fmap. by destruct (v !! Z.to_nat id).
Qed.
Lemma process_all_spec ops : forall v, forallb op_ok ops = true -> length v = Z.to_nat NE_MAX ->
  exists v', process_all ops v = Ok v' /\ length v' = Z.to_nat NE_MAX /\ forall id, vec_spec v' id = ops_spec ops (vec_spec v) id.
Proof.
  induction ops as [|o ops IH]; intros v Ho Hl; [by exists v|]. cbn in Ho. apply andb_true_iff in Ho as [H1 H2].
  destruct (process_one_spec o v H1 Hl) as (v1 & E1 & L1 & S1). destruct (IH v1 H2 L1) as (v2 & E2 & L2 & S2).
  exists v2. cbn [process_all]. rewrite E1. res_simpl. split; [done|]. split; [done|]. intros id. rewrite S2. apply (ops_spec_ext ops), S1.
Qed.

Lemma queue_op_run o d : queue_op o d = Ok (set_ops (m_listener_ops d ++ [o]) d, tt).
Proof. by destruct o. Qed.
Lemma react_run l : forall d, iterM queue_op l d = Ok (set_ops (m_listener_ops d ++ l) d, tt).
Proof.
  induction l as [|o l IH]; intros d; cbn [iterM]; [rewrite app_nil_r; by destruct d|].
  unfold mbind, M_bind. rewrite queue_op_run, IH. cbn. by rewrite <- app_assoc.
Qed.
Lemma process_run d s : dp_inv d s -> exists v,
  when (negb (bool_decide (length (m_listener_ops d) = 0%nat))) _process_listener_op d = Ok (set_ops [] (set_vectors v d), tt)
  /\ _process_listener_op d = Ok (set_ops [] (set_vectors v d), tt) /\ dp_inv (set_ops [] (set_vectors v d)) s.
Proof.
  intros [Hl Ho Hs Hc]. destruct (process_all_spec _ _ Ho Hl) as (v & Ev & Lv & Sv). exists v.
  assert (EP : _process_listener_op d = Ok (set_ops [] (set_vectors v d), tt))
    by (unfold _process_listener_op, mbind, M_bind, gets, lift; by rewrite Ev).
  split; [|split; [done|]].
  - case_bool_decide as En; [|done]. cbn. apply nil_length_inv in En. rewrite En in Ev. injection Ev as <-. destruct d; cbn in *. by subst.
  - constructor; try done. intros id. cbn. by rewrite Sv.
Qed.
Lemma with_vector_run {A} (m : M (dispatcher L E) A) d d1 a : vector_locked d = false -> m (set_locked true d) = Ok (d1, a) ->
  with_vector m d = Ok (set_locked false d1, a).
Proof. intros Hf Hm. unfold with_vector, mbind, M_bind, gets, modify, mret, M_ret. rewrite Hf. cbn. by rewrite Hm. Qed.
Lemma dp_inv_locked b d s : dp_inv d s -> dp_inv (set_locked b d) s.
Proof. by intros [? ? ? ?]. Qed.
(** The loop calls the listeners from the place [i] on and queues what they ask for. *)
Lemma call_loop_run evt ls : forall n i d, length ls = (i + n)%nat ->
  m_id_listener_vector d !! Z.to_nat (event_id evt) = Some ls ->
  call_loop event_id react n i evt d
  = Ok (mk_dispatcher (m_id_listener_vector d) (m_listener_ops d ++ (drop i ls ≫= fun l => reacts l evt)) (vector_locked d) (m_dp_id d)
          (calls d ++ ((fun l => (l, evt)) <$> drop i ls)), tt).
Proof.
  induction n as [|n IH]; intros i d Hl Hv; cbn [call_loop].
  - rewrite drop_ge by lia. cbn. rewrite !app_nil_r. by destruct d.
  - unfold mbind, M_bind, gets, modify. rewrite Hv. cbn [mbind option_bind].
    destruct (lookup_lt_is_Some_2 ls i) as [l Hi]; [lia|]. change (lookup i ls) with (ls !! i). rewrite Hi. unfold react. rewrite react_run.
    rewrite IH by (cbn; done || lia). rewrite (drop_S _ _ _ Hi). cbn. by rewrite <- !app_assoc.
Qed.

Lemma queue_op_inv o d s : op_ok o = true -> dp_inv d s -> dp_inv (set_ops (m_listener_ops d ++ [o]) d) (op_spec o s.1, s.2).
Proof.
  intros Ho' [Hl Ho Hs Hc]. constructor; try done.
  - cbn. rewrite forallb_app, Ho. cbn. by rewrite Ho'.
  - intros id. cbn -[ops_spec]. rewrite ops_spec_app. by apply (op_spec_ext o).
Qed.
Lemma run_act_spec a d s : act_ok a = true -> (forall l evt, forallb op_ok (reacts l evt) = true) -> vector_locked d = false -> dp_inv d s ->
  exists d', run_act a d = Ok (d', tt) /\ vector_locked d' = false /\ dp_inv d' (act_spec a s).
Proof.
  intros Ha Hr Hf HI. destruct a as [o force|evt]; cbn [run_act act_ok act_spec] in *.
  - unfold mbind, M_bind. rewrite queue_op_run. set (d1 := set_ops _ d). pose proof (queue_op_inv o d s Ha HI : dp_inv d1 _) as HI1.
    destruct force; [|by exists d1]. cbn [when]. destruct (process_run _ _ (dp_inv_locked true d1 _ HI1)) as (v & _ & Ev & HI2).
    eexists. split; [by apply with_vector_run|]. split; [done|]. by apply dp_inv_locked.
  - destruct (process_run _ _ (dp_inv_locked true d s HI)) as (v & Ev & _ & HI2). set (d2 := set_ops [] _) in *.
    destruct (lookup_lt_is_Some_2 v (Z.to_nat (event_id evt))) as [ls Hls]; [rewrite (di_len _ _ HI2 : length v = _); lia|].
    assert (Hsub : s.1 (event_id evt) = ls).
    { rewrite <- (di_subs _ _ HI2). cbn. unfold vec_spec. by rewrite Ha, Hls. }
    eexists. split; [|split; [|apply (dp_inv_locked false)]].
    + unfold trigger. unfold mbind at 1, M_bind at 1, assertM, lift. rewrite Ha. cbn [check]. apply with_vector_run; [done|].
      unfold mbind, M_bind, gets. change (m_listener_ops (set_locked true d)) with (m_listener_ops d) in *. rewrite Ev. fold d2.
      change (m_id_listener_vector d2) with v. rewrite Hls. cbn [default]. by rewrite (call_loop_run evt ls).
    + done.
    + destruct HI2 as [Hl Ho Hs Hc]. constructor; cbn [m_id_listener_vector m_listener_ops calls m_dp_id]; [done | | |].
      * change (forallb op_ok (ls ≫= fun l => reacts l evt) = true). clear -Hr. induction ls as [|l ls IH]; [done|]. cbn. rewrite forallb_app, Hr. exact IH.
      * intros id. cbn [fst]. rewrite Hsub. apply (ops_spec_ext _ _ _ Hs).
      * rewrite Hsub. cbn. by rewrite <- Hc.
Qed.

Fixpoint run_acts (l : list dp_act) : M (dispatcher L E) unit :=
  match l with [] => mret tt | a :: l => run_act a;; run_acts l end.

Lemma run_acts_spec l : forall d s, forallb act_ok l = true -> (forall l evt, forallb op_ok (reacts l evt) = true) ->
  vector_locked d = false -> dp_inv d s ->
  exists d', run_acts l d = Ok (d', tt) /\ dp_inv d' (foldl (fun s a => act_spec a s) s l).
Proof.
  induction l as [|a l IH]; intros d s Hl Hr Hf HI; [by exists d|]. cbn in Hl. apply andb_true_iff in Hl as [Ha Hl].
  destruct (run_act_spec a d s Ha Hr Hf HI) as (d1 & E1 & Hf1 & HI1). destruct (IH d1 _ Hl Hr Hf1 HI1) as (d2 & E2 & HI2).
  exists d2. cbn [run_acts]. unfold mbind, M_bind. by rewrite E1, E2.
Qed.

(** C14: A dispatcher delivers: over any session of registrations, with force or without, and
    triggers, with listeners that ask for registrations while they are called, no assertion
    fails, no call waits, and each event reaches the listeners that are registered when it is
    triggered, once for each registration, in the order they registered. *)
Theorem dispatcher_delivers (l : list dp_act) dp_id : forallb act_ok l = true -> (forall l evt, forallb op_ok (reacts l evt) = true) ->
  exists d, run_acts l (new_dispatcher dp_id) = Ok (d, tt) /\ calls d = (acts_spec l).2.
Proof.
  intros Hl Hr. destruct (run_acts_spec l (new_dispatcher dp_id) (fun _ => [], []) Hl Hr) as (d & E1 & HI).
  - done.
  - constructor; try done. intros id. cbn [new_dispatcher m_listener_ops m_id_listener_vector ops_spec foldl fst]. unfold vec_spec.
    destruct ((0 <=? id) && (id <? NE_MAX)) eqn:Hid; [|done]. by rewrite lookup_replicate_2 by (unfold NE_MAX in *; lia).
  - exists d. split; [done|]. apply HI.
Qed.
End spec.
Arguments dp_act : clear implicits.

(** ** What the mutex costs *)
Section locks.
Context {L E : Type} `{!EqDecision L}.
Context (event_id : E -> Z).

(** A [trigger] of a dispatcher that is calling its listeners waits, and so does a forced
    registration. *)
Lemma trigger_locked (h : L -> E -> M (dispatcher L E) unit) evt d : vector_locked d = true -> 0 <= event_id evt < NE_MAX -> trigger event_id h evt d = Fault Waits.
Proof.
  intros Hd He. unfold trigger, mbind, M_bind, assertM, lift. replace (_ && _) with true by lia. cbn. unfold with_vector, mbind, M_bind, gets. by rewrite Hd.
Qed.
Lemma register_force_locked id (l : option L) (d : dispatcher L E) : vector_locked d = true -> register_listener id l true d = Fault Waits.
Proof. intros Hd. unfold register_listener, mbind, M_bind, _add_listener_op, modify, when, with_vector, gets. cbn. unfold mbind, M_bind. cbn. by rewrite Hd. Qed.

(** A listener that triggers an event of the dispatcher that calls it waits for ever: the
    spin mutex is held by its own thread. *)
Theorem trigger_in_listener_waits (h h' : L -> E -> M (dispatcher L E) unit) (l : L) ls evt evt2 d :
  0 <= event_id evt < NE_MAX -> 0 <= event_id evt2 < NE_MAX -> vector_locked d = false -> m_listener_ops d = [] ->
  m_id_listener_vector d !! Z.to_nat (event_id evt) = Some (l :: ls) ->
  (forall d, h l evt d = trigger event_id h' evt2 d) -> trigger event_id h evt d = Fault Waits.
Proof.
  intros He He2 Hf Ho Hv Hh. unfold trigger. unfold mbind at 1, M_bind at 1, assertM at 1, lift at 1. replace (_ && _) with true by lia.
  cbn [check]. unfold with_vector. unfold mbind at 1, M_bind at 1, gets at 1. rewrite Hf. unfold mbind, M_bind, modify, gets.
  change (m_listener_ops (set_locked true d)) with (m_listener_ops d). rewrite Ho. cbn [length when].
  change (when _ _ (set_locked true d)) with (Ok (set_locked true d, tt) : res (dispatcher L E * unit)). cbv beta iota.
  change (m_id_listener_vector (set_locked true d)) with (m_id_listener_vector d). rewrite Hv.
  change (length (default [] (Some (l :: ls)))) with (S (length ls)). cbn [call_loop].
  unfold mbind, M_bind, modify, gets. change (m_id_listener_vector (set_locked true d)) with (m_id_listener_vector d). rewrite Hv.
  cbn [option_bind lookup list_lookup]. rewrite Hh. by rewrite trigger_locked.
Qed.

(** What one dispatcher schedules goes to one sequential runner, in order. *)
Lemma oschedule_keeps_order e1 e2 tag (d : dispatcher L E) pool pool1 pool2 :
  oschedule e1 tag d pool = Ok pool1 -> oschedule e2 tag d pool1 = Ok pool2 ->
  exists i q q2, pool !! i = Some q /\ pool2 !! i = Some q2 /\ assigned q2 = assigned q ++ [(m_dp_id d, e1); (m_dp_id d, e2)].
Proof.
  unfold oschedule. set (t := if tag =? 0 then _ else _). intros E1 E2.
  assert (HA : forall (q q' : seq_runner (Z * E)) x, seq_assign_task x q = Ok q' -> assigned q' = assigned q ++ [x]).
  { intros q q' x Ha. unfold seq_assign_task in Ha. res_inv. destruct (decide _); subst; [|done]. unfold seq_wake. by destruct (q_pc _). }
  unfold pool_assign_task in *. destruct (pool !! runner_of t pool) as [q|] eqn:Eq; [|done]. res_inv. rename r into q1.
  assert (Hlt := lookup_lt_Some _ _ _ Eq). assert (Hro : runner_of t (<[runner_of t pool := q1]> pool) = runner_of t pool) by (unfold runner_of; by rewrite length_insert).
  rewrite Hro, list_lookup_insert_eq in E2 by done. res_inv. exists (runner_of t pool), q, r. split; [done|]. split.
  - rewrite list_lookup_insert_eq; [done | by rewrite length_insert].
  - rewrite (HA _ _ _ Hr0), (HA _ _ _ Hr). by rewrite <- app_assoc.
Qed.
End locks.

(** ** Witnesses *)
(** Two listeners of one event; the first takes itself off when it is called. *)
Definition dp_history : list (dp_act nat Z) :=
  [D_op (mk_op (Some 1%nat) OP_ADD_ID_LISTENER 3) false; D_op (mk_op (Some 2%nat) OP_ADD_ID_LISTENER 3) true; D_trigger 3; D_trigger 3].
Definition dp_reacts (l : nat) (evt : Z) : list (listener_op nat) := if decide (l = 1%nat) then [mk_op (Some l) OP_REMOVE_LISTENER_ALL_ID 0] else [].
Lemma dispatcher_delivers_witness : exists d, run_acts (fun e => e) dp_reacts dp_history (new_dispatcher 5) = Ok (d, tt)
  /\ calls d = [(1%nat, 3); (2%nat, 3); (2%nat, 3)].
Proof.
  destruct (dispatcher_delivers (fun e => e) dp_reacts dp_history 5) as (d & E1 & E2).
  - reflexivity.
  - intros l evt. unfold dp_reacts. by destruct (decide _).
  - exists d. split; [exact E1|]. rewrite E2. reflexivity.
Defined.
Definition echo (l : nat) (evt : Z) : M (dispatcher nat Z) unit := trigger (fun e => e) (fun _ _ => mret tt) 4.
Lemma trigger_in_listener_waits_witness :
  trigger (fun e => e) echo 3 (mk_dispatcher (replicate 8 [1%nat]) [] false 5 []) = Fault Waits.
Proof. apply (trigger_in_listener_waits (fun e => e) echo (fun _ _ => mret tt) 1%nat [] 3 4); unfold NE_MAX; try lia; reflexivity. Defined.
