(* ===== verification/RosProofs.v ===== *)
(** * RosProofs: what a caller of a peer may rely on

    - [ros_message_roundtrip]: a message is read as it was sent;
    - [ros_answers_once]: a request is answered once, by a response, its timeout or the end of the
      socket, or it is refused;
    - [ros_response_answers]: a response answers the request of its number;
    - [request_detach_throws], [receive_drops_message]: where the peer fails. *)

From S2P Require Import Prelude Effects Bytes Ring Packet SocketData MuxStream MuxStreamProofs MuxSystem Ros.

(** ** The bytes of a message *)
Definition ros_bytes (id type : Z) (d : list Z) : list Z :=
  bytes_helper.write_impl 4 (zlen d + 5) ++ bytes_helper.write_impl 4 id ++ bytes_helper.write_impl 1 type ++ d.
Definition MAX_ROS : Z := 16 * 1024 * 1024 - 16 * 1024.
(** A message that can be sent. *)
Definition sendable `{memory} (m : ros_message) (d : list Z) : Prop :=
  exists p, m_data m = Some p /\ packet.wf p /\ packet.data p = d /\ 0 < zlen d <= MAX_ROS.
Definition sent_type (t : Z) : Prop := 0 < t < T_MAX.

Section message.
Context `{memory}.

Lemma zlen_ros_bytes id type d : zlen (ros_bytes id type d) = zlen d + 9.
Proof. unfold ros_bytes. rewrite !zlen_app, !bytes_helper.zlen_write_impl. lia. Qed.

(** Steps of a computation whose first part is known, by rewriting: the kernel is not asked to
    compare the parts. *)
Lemma ok_bind {A B} (a : A) (k : A -> res B) : (Ok a ≫= k) = k a.
Proof. done. Qed.
Local Ltac bind_step := repeat first [rewrite ok_bind | change (check true AssertFailed) with (Ok tt)]; cbv beta.

Lemma ros_encode_spec m d : sendable m d -> sent_type (m_type m) ->
  exists p, ros_encode m = Ok (OK, Some p) /\ packet.wf p /\ packet.data p = ros_bytes (net_id m) (m_type m) d.
Proof.
  intros (pk & Em & W & D & Hz) Ht. unfold sent_type, T_MAX, MAX_ROS in *. unfold ros_encode, T_NONE, T_MAX. rewrite Em.
  assert (HT : Z.land (m_type m) 255 = m_type m) by (change 255 with (Z.ones 8); rewrite Z.land_ones by lia; apply Z.mod_small; lia).
  rewrite HT. rewrite (proj2 (Z.eqb_neq _ _)), (proj2 (Z.ltb_lt _ _)) by lia. bind_step.
  rewrite (packet.len_val pk W), D. bind_step. rewrite (proj2 (Z.ltb_lt 0 (zlen d))) by lia. bind_step.
  destruct (packet.make_holds (zlen d)) as (p0 & -> & H0 & _); [unfold packet.MAX_RIGHT_CAPACITY; lia|]. bind_step.
  destruct (packet.write_left_T_holds 1 p0 (m_type m) _ _ H0) as (p1 & -> & H1); [unfold packet.INIT_LEFT_CAPACITY; lia..|]. bind_step.
  destruct (packet.write_left_T_holds 4 p1 (net_id m) _ _ H1) as (p2 & -> & H2); [unfold packet.INIT_LEFT_CAPACITY; lia..|]. bind_step.
  destruct (packet.write_holds p2 d _ _ H2) as (p3 & -> & H3); [unfold packet.INIT_LEFT_CAPACITY; lia | |].
  { rewrite !zlen_app, !bytes_helper.zlen_write_impl. unfold packet.INIT_LEFT_CAPACITY, packet.INCREMENT_RIGHT_SIZE, packet.MAX_RIGHT_CAPACITY. change (zlen (@nil Z)) with 0. lia. }
  bind_step. assert (W3 := proj1 H3). assert (D3 := proj1 (proj2 H3)). rewrite (packet.len_val p3 W3), D3.
  assert (HL : zlen ((bytes_helper.write_impl 4 (net_id m) ++ bytes_helper.write_impl 1 (m_type m) ++ []) ++ d) = zlen d + 5).
  { rewrite !zlen_app, !bytes_helper.zlen_write_impl. change (zlen (@nil Z)) with 0. lia. }
  bind_step. rewrite HL, (proj2 (Z.leb_le _ _)), (proj2 (Z.ltb_ge _ _)) by lia. bind_step.
  destruct (packet.write_left_T_holds 4 p3 (zlen d + 5) _ _ H3) as (p4 & -> & H4); [unfold packet.INIT_LEFT_CAPACITY; lia..|].
  exists p4. split; [done|]. split; [apply H4|]. rewrite (proj1 (proj2 H4)). unfold ros_bytes. by rewrite app_nil_r, <- app_assoc.
Qed.

Lemma ros_decode_spec fuel id type d p : packet.wf p -> packet.data p = ros_bytes id type d -> is_u32 id -> sent_type type -> zlen d <= MAX_ROS ->
  exists p', ros_peer._decode_message_from_packet (S fuel) p = Ok (Some (mk_ros id type (Some p'))) /\ packet.wf p' /\ packet.data p' = d.
Proof.
  intros W D Hid Ht Hz. unfold sent_type, T_MAX, MAX_ROS in *. pose proof (zlen_nonneg d). cbn [ros_peer._decode_message_from_packet].
  destruct (read_T_head 4 _ _ p W D) as (p1 & -> & W1 & D1). bind_step.
  rewrite (packet.len_val p1 W1), D1. bind_step. rewrite !zlen_app, !bytes_helper.zlen_write_impl, Z.mod_small by lia.
  change (Z.of_nat 4 + (Z.of_nat 1 + zlen d)) with (4 + (1 + zlen d)). rewrite (proj2 (Z.leb_le _ _)), (proj2 (Z.eqb_eq _ _)) by lia.
  change (check true Thrown) with (Ok tt). bind_step.
  destruct (read_T_head 4 _ _ p1 W1 D1) as (p2 & -> & W2 & D2). bind_step.
  destruct (read_T_head 1 _ _ p2 W2 D2) as (p3 & -> & W3 & D3). bind_step.
  unfold is_u32 in Hid. change (256 ^ Z.of_nat 4) with 4294967296. change (256 ^ Z.of_nat 1) with 256.
  rewrite (Z.mod_small id), (Z.mod_small type) by lia. unfold received, T_NONE. rewrite (proj2 (Z.eqb_neq _ _)) by lia.
  change (negb false) with true. bind_step. by exists p3.
Qed.

(** C16: A message round-trips: the packet [message::ros::encode] makes is read by
    [_decode_message_from_packet] as one message, with its number, its type and its bytes. *)
Theorem ros_message_roundtrip fuel m d : sendable m d -> sent_type (m_type m) -> is_u32 (net_id m) ->
  exists p p', ros_encode m = Ok (OK, Some p) /\ ros_peer._decode_message_from_packet (S fuel) p = Ok (Some (mk_ros (net_id m) (m_type m) (Some p')))
  /\ packet.wf p' /\ packet.data p' = d.
Proof.
  intros Hs Ht Hid. destruct (ros_encode_spec m d Hs Ht) as (p & Ep & W & D).
  destruct (ros_decode_spec fuel _ _ _ p W D Hid Ht) as (p' & E' & W' & D'); [by destruct Hs as (? & _ & _ & _ & _ & ?)|]. by exists p, p'.
Qed.

(** A length that is less than what follows: the next bytes are read as a length. *)
Lemma short_length_rereads fuel p n rest : packet.wf p -> packet.data p = bytes_helper.write_impl 4 n ++ rest -> is_u32 n -> n < zlen rest ->
  exists p', packet.wf p' /\ packet.data p' = rest
  /\ ros_peer._decode_message_from_packet (S fuel) p = ros_peer._decode_message_from_packet fuel p'.
Proof.
  intros W D Hn Hl. destruct (read_T_head 4 _ _ p W D) as (p1 & E1 & W1 & D1). exists p1. split; [done|]. split; [done|].
  cbn [ros_peer._decode_message_from_packet]. rewrite E1. bind_step. rewrite (packet.len_val p1 W1), D1. bind_step.
  unfold is_u32 in Hn. change (256 ^ Z.of_nat 4) with 4294967296. rewrite Z.mod_small by done. rewrite (proj2 (Z.leb_le _ _)) by lia. change (check true Thrown) with (Ok tt). bind_step.
  rewrite (proj2 (Z.eqb_neq n _)), (proj2 (Z.eqb_neq (zlen rest) _)) by lia. done.
Qed.
End message.

Lemma list_alter_twice {A} (f g : A -> A) m (l : list A) : alter f m (alter g m l) = alter (f ∘ g) m l.
Proof. revert m. induction l as [|x l IH]; intros [|m]; try done. cbn. f_equal. apply IH. Qed.

(** ** A session of a peer

    The socket works as [peer_socket_laws] says, whatever else it does on a close, and callbacks
    leave the peer alone. *)
Class closing_socket_laws (E : Type) `{peer_socket_laws E} := {
  close_law ec e : exists e' rc, so_close ec e = Ok (e', rc)
}.

Definition quiet {E} (a : answer) : M (ros E) unit := mret tt.
Definition answer_cb (a : answer) : nat := match a with A_respond cb _ _ | A_error cb _ _ => cb end.

Section session.
Context `{memory} {E : Type} `{closing_socket_laws E} `{receiving_socket E} (errno : Z).
Import ros_peer.
Local Abbreviation R := (ros E).
Implicit Types w : R.

(** Every entry of [m_requested] is a request that was made. *)
Definition entry_ok w (q : requested_message) : Prop :=
  is_Some (rq_cb q) /\ exists x, heap w !! rq_message q = Some x /\ m_type x = T_REQUEST.
Record ros_inv w : Prop := {
  ri_free : m_requested_mutex w = false;
  ri_shared : m_mutex_excl w = false;
  ri_entries : Forall (entry_ok w) (m_requested w);
  ri_once : begun w ≡ₚ (m_requested w ≫= cb_of) ++ (answer_cb <$> answers w) ++ refused w;
  ri_nid : is_u32 (s_ai_ros_nid w)
}.
(** The parts of the state that the callers see change. *)
Definition same_heap w w' : Prop := forall m x, heap w !! m = Some x -> m_type x = T_REQUEST -> heap w' !! m = Some x.

Lemma entries_mono w w' l : same_heap w w' -> Forall (entry_ok w) l -> Forall (entry_ok w') l.
Proof.
  intros Hh Hl. eapply Forall_impl; [exact Hl|]. intros q [Hc (x & Hx & Ht)]. split; [done|]. exists x. split; [by apply Hh|done].
Qed.
Lemma update_same m f w x : heap w !! m = Some x -> m_type x <> T_REQUEST -> same_heap w (set_heap (alter f m (heap w)) w).
Proof. intros Hm Ht i y Hi Hy. cbn. rewrite list_lookup_alter_ne; [done|]. intros <-. congruence. Qed.

(** *** Messages and locks *)
Lemma wp_message m w x Q : heap w !! m = Some x -> Q w x -> wp (message m) w Q.
Proof. intros Hm HQ. unfold message, get. rewrite wp_bind, wp_gets. rewrite Hm. done. Qed.
Lemma wp_with_requested {A} (m : M R A) w Q : m_requested_mutex w = false ->
  wp m (set_requested_mutex true w) (fun w' a => Q (set_requested_mutex false w') a) -> wp (with_requested m) w Q.
Proof.
  intros Hf Hm. unfold with_requested, get. rewrite wp_bind, wp_gets, Hf, !wp_bind, wp_modify, wp_bind.
  eapply wp_mono; [exact Hm|]. intros w' a HQ. by rewrite wp_bind, wp_modify, wp_ret.
Qed.
Lemma wp_with_exclusive {A} (m : M R A) w Q : m_mutex_excl w = false ->
  wp m (set_mutex_excl true w) (fun w' a => Q (set_mutex_excl false w') a) -> wp (with_exclusive m) w Q.
Proof.
  intros Hf Hm. unfold with_exclusive, get. rewrite wp_bind, wp_gets, Hf, !wp_bind, wp_modify, wp_bind.
  eapply wp_mono; [exact Hm|]. intros w' a HQ. by rewrite wp_bind, wp_modify, wp_ret.
Qed.
Lemma wp_with_shared {A} (m : M R A) w Q : m_mutex_excl w = false -> wp m w Q -> wp (with_shared m) w Q.
Proof. intros Hf Hm. unfold with_shared, get. by rewrite wp_bind, wp_gets, Hf. Qed.

Lemma sock_inv e w : ros_inv w -> ros_inv (set_sock e w).
Proof. by intros [? ? ? ? ?]. Qed.

(** *** Sending *)
Definition fits w (d : list Z) : Prop := zlen d + 13 <= snd_size (so_get_buffer_cfg (sock w)).
Definition outcome w e' (rc : Z) (bytes : list Z) : Prop :=
  if m_so w then same_socket (sock w) e' /\ (rc = OK /\ sent e' = sent (sock w) ++ [bytes] \/ rc = E_SOCKET_SEND_BLOCK /\ sent e' = sent (sock w))
  else rc = E_PEER_NO_SOCKET_ATTACHED /\ e' = sock w.
Lemma do_send_spec m w x d : m_mutex_excl w = false -> heap w !! m = Some x -> sendable x d -> sent_type (m_type x) -> fits w d ->
  wp (do_send_message m) w (fun w' rc => exists e', w' = set_sock e' w /\ outcome w e' rc (ros_bytes (net_id x) (m_type x) d)).
Proof.
  intros Hf Hm Hs Ht Hr. unfold do_send_message. apply wp_with_shared; [done|]. unfold get. rewrite wp_bind, wp_gets. unfold outcome.
  destruct (m_so w) eqn:Hso; cbn [negb].
  - rewrite wp_bind. eapply wp_message; [done|]. destruct (ros_encode_spec x d Hs Ht) as (p & Ep & W & D).
    rewrite wp_bind, Ep, wp_lift. change (OK =? OK) with true. cbn [negb]. rewrite wp_zoom.
    destruct (send_law p (sock w) W) as (e' & rc & Es & Hrc & Hse & HS).
    { rewrite D, zlen_ros_bytes. unfold fits in Hr. lia. }
    unfold wp. rewrite Es. exists e'. split; [done|]. split; [done|]. rewrite Hse, D. destruct Hrc as [->| ->]; [by left | by right].
  - rewrite wp_ret. exists (sock w). split; [by destruct w | done].
Qed.

(** A message of the user, not yet sent. *)
Definition fresh w m d : Prop := exists x, heap w !! m = Some x /\ m_type x = T_NONE /\ sendable x d /\ fits w d.
Lemma typed_inv m f w d : fresh w m d -> ros_inv w -> ros_inv (set_heap (alter f m (heap w)) w).
Proof.
  intros (x & Hm & Ht & _) [H1' H2' H3' H4' H5']. constructor; try done. cbn.
  eapply entries_mono; [|done]. by eapply update_same; [|rewrite Ht].
Qed.
Lemma update_lookup m f w x : heap w !! m = Some x -> heap (set_heap (alter f m (heap w)) w) !! m = Some (f x).
Proof. intros Hm. cbn. by rewrite list_lookup_alter_eq, Hm. Qed.

Lemma ros_send_spec m w d : ros_inv w -> fresh w m d -> wp (send m) w (fun w' _ => ros_inv w' /\ m_so w' = m_so w /\ m_requested w' = m_requested w).
Proof.
  intros HI Hfr. assert (HT := typed_inv m (set_type T_SEND) w d Hfr HI). destruct Hfr as (x & Hm & Ht & Hs & Hr).
  unfold send. rewrite wp_bind. eapply wp_message; [done|]. rewrite wp_bind, wp_assert. split; [by rewrite Ht|].
  unfold update. rewrite wp_bind, wp_modify. eapply wp_mono.
  - eapply (do_send_spec m _ (set_type T_SEND x) d); [by destruct HI | by apply update_lookup | done | done | done].
  - intros w' rc (e' & -> & _). split; [by apply sock_inv | done].
Qed.
Lemma respond_spec m inc w d i : ros_inv w -> fresh w m d -> heap w !! inc = Some i -> m_type i = T_REQUEST ->
  wp (respond m inc) w (fun w' rc => ros_inv w' /\ m_so w' = m_so w /\ m_requested w' = m_requested w /\ outcome w (sock w') rc (ros_bytes (net_id i) T_RESPONSE d)).
Proof.
  intros HI Hfr Hi Hti. pose proof Hfr as (x & Hm & Ht & Hs & Hr).
  assert (HT := typed_inv m (set_net_id (net_id i) ∘ set_type T_RESPONSE) w d Hfr HI).
  unfold respond. rewrite wp_bind. eapply wp_message; [done|]. rewrite wp_bind. eapply wp_message; [done|].
  rewrite wp_bind, wp_assert. split; [by rewrite Ht|]. rewrite wp_bind, wp_assert. split; [by rewrite Hti|].
  unfold update. rewrite wp_bind, wp_modify, wp_bind, wp_modify.
  assert (HE : set_heap (alter (set_net_id (net_id i)) m (heap (set_heap (alter (set_type T_RESPONSE) m (heap w)) w))) (set_heap (alter (set_type T_RESPONSE) m (heap w)) w)
    = set_heap (alter (set_net_id (net_id i) ∘ set_type T_RESPONSE) m (heap w)) w) by (cbn; by rewrite list_alter_twice).
  rewrite HE. eapply wp_mono.
  - eapply (do_send_spec m _ ((set_net_id (net_id i) ∘ set_type T_RESPONSE) x) d); [by destruct HI | by apply update_lookup | done | done | done].
  - intros w' rc (e' & -> & Ho). split; [by apply sock_inv|]. split; [done|]. split; done.
Qed.

(** *** Answers *)
Definition told (l : list answer) w : R :=
  mk_peer (heap w) (m_requested w) (m_requested_mutex w) (m_mutex_excl w) (m_so w) (sock w) (s_ai_ros_nid w) (events w) (answers w ++ l) (begun w) (refused w).
Lemma told_nil w : told [] w = w.
Proof. destruct w. unfold told. cbn. by rewrite app_nil_r. Qed.
Lemma told_app a b w : told b (told a w) = told (a ++ b) w.
Proof. unfold told. cbn. by rewrite <- app_assoc. Qed.

Definition err_of w (ec : Z) (q : requested_message) : list answer :=
  match rq_cb q, heap w !! rq_message q with Some cb, Some x => [A_error cb (net_id x) ec] | _, _ => [] end.
Lemma tell_error_spec ec q w : entry_ok w q -> tell_error quiet ec q w = Ok (told (err_of w ec q) w, tt).
Proof.
  intros [[cb Hc] (x & Hx & _)]. unfold tell_error, message, get, tell, quiet, err_of, mbind, M_bind, gets, modify, mret, M_ret. rewrite Hc.
  cbv beta iota. by rewrite Hx.
Qed.
Lemma err_of_cbs w ec l : Forall (entry_ok w) l -> answer_cb <$> (l ≫= err_of w ec) = l ≫= cb_of.
Proof.
  induction 1 as [|q l [[cb Hc] (x & Hx & _)] _ IH]; [done|]. cbn [mbind list_bind]. rewrite fmap_app. f_equal; [|exact IH].
  unfold err_of, cb_of. by rewrite Hc, Hx.
Qed.
Lemma cancel_loop ec l w : Forall (entry_ok w) l -> iterM (tell_error quiet ec) l w = Ok (told (l ≫= err_of w ec) w, tt).
Proof.
  revert w. induction l as [|q l IH]; intros w HF; [by rewrite told_nil|]. apply Forall_cons in HF as [Hq HF]. cbn [iterM].
  unfold mbind, M_bind. rewrite tell_error_spec by done. rewrite IH by exact HF. by rewrite told_app.
Qed.
(** The requests that are late are answered, in order; the others stay. *)
Definition late (now : Z) (q : requested_message) : bool := u64 (ts_request q + rq_timeout q) <=? now.
Lemma check_loop_spec now l : forall kept w, Forall (entry_ok w) l -> m_requested w = kept ++ l ->
  check_loop quiet now kept l w = Ok (set_m_requested (kept ++ filter (fun q => late now q = false) l)
    (told (filter (fun q => late now q = true) l ≫= err_of w E_PEER_MESSAGE_REQUEST_TIMEOUT) w), tt).
Proof.
  induction l as [|q l IH]; intros kept w HF Hr; cbn [check_loop].
  - cbn. rewrite told_nil. rewrite <- Hr. by destruct w.
  - apply Forall_cons in HF as [Hq HF]. change (u64 (ts_request q + rq_timeout q) <=? now) with (late now q). destruct (late now q) eqn:El.
    + unfold mbind, M_bind. rewrite tell_error_spec by done. unfold modify. rewrite IH by done.
      rewrite filter_cons_False by congruence. rewrite (filter_cons_True _ q) by done. cbn [mbind list_bind]. f_equal. f_equal.
      unfold set_m_requested, told. cbn. by rewrite <- app_assoc.
    + rewrite IH; [| done | by rewrite <- app_assoc]. rewrite filter_cons_True by done. rewrite (filter_cons_False _ q) by congruence.
      by rewrite <- app_assoc.
Qed.

Lemma answered_inv l r w w' : ros_inv w -> heap w' = heap w -> m_requested_mutex w' = false -> m_mutex_excl w' = false -> s_ai_ros_nid w' = s_ai_ros_nid w ->
  begun w' = begun w -> refused w' = refused w -> m_requested w' = r -> answers w' = answers w ++ l ->
  m_requested w ≫= cb_of ≡ₚ (answer_cb <$> l) ++ (r ≫= cb_of) -> (forall q, q ∈ r -> q ∈ m_requested w) -> ros_inv w'.
Proof.
  intros [F S0 N O I] Hh H1' H2' H3' H4' H5' Hr Ha Hp Hin. constructor; [done | done | | | by rewrite H3'].
  - rewrite Hr. apply Forall_forall. intros q Hq. pose proof (proj1 (Forall_forall _ _) N q (Hin q Hq)) as [Hc (x & Hx & Ht)].
    split; [done|]. exists x. by rewrite Hh.
  - rewrite H4', H5', Hr, Ha, O, Hp, fmap_app. solve_Permutation.
Qed.

Lemma cancel_spec ec w : m_requested_mutex w = false -> Forall (entry_ok w) (m_requested w) -> _cancel_all_request quiet ec w = Ok (set_m_requested [] (told (m_requested w ≫= err_of w ec) w), tt).
Proof.
  intros Hf HF. unfold _cancel_all_request, with_requested, get, mbind, M_bind, gets, modify. rewrite Hf.
  change (m_requested (set_requested_mutex true w)) with (m_requested w).
  rewrite (cancel_loop ec (m_requested w) (set_requested_mutex true w)) by exact HF. unfold mret, M_ret. f_equal. f_equal.
  unfold set_requested_mutex, set_m_requested, told. cbn. by rewrite Hf.
Qed.
Lemma tick_spec now w : ros_inv w -> let w' := set_m_requested (filter (fun q => late (now / 1000) q = false) (m_requested w))
    (told (filter (fun q => late (now / 1000) q = true) (m_requested w) ≫= err_of w E_PEER_MESSAGE_REQUEST_TIMEOUT) w) in
  tick quiet now w = Ok (w', tt) /\ ros_inv w'.
Proof.
  intros HI w'. split.
  - unfold tick, _check_requested_message, with_requested, get, mbind, M_bind, gets, modify. rewrite (ri_free w HI).
    change (m_requested (set_requested_mutex true w)) with (m_requested w).
    rewrite (check_loop_spec (now / 1000) (m_requested w) [] (set_requested_mutex true w)) by (done || apply HI). unfold mret, M_ret. f_equal. f_equal.
    unfold w', set_requested_mutex, set_m_requested, told. cbn. by rewrite (ri_free w HI).
  - eapply answered_inv; try done; try apply HI.
    + cbn. rewrite err_of_cbs by (apply Forall_forall; intros q [_ Hq]%list_elem_of_filter; by apply (proj1 (Forall_forall _ _) (ri_entries w HI))).
      clear. generalize (m_requested w). induction l as [|q l IH]; [done|]. destruct (late (now / 1000) q) eqn:El.
      * rewrite filter_cons_True, filter_cons_False by congruence. cbn [mbind list_bind]. rewrite <- app_assoc. by f_equiv.
      * rewrite filter_cons_False, filter_cons_True by congruence. cbn [mbind list_bind]. rewrite IH. solve_Permutation.
    + by intros q [_ Hq]%list_elem_of_filter.
Qed.
Lemma detach_spec w : ros_inv w -> let w' := set_m_so false (set_m_requested [] (told (m_requested w ≫= err_of w E_PEER_NO_SOCKET_ATTACHED) w)) in
  detach_socket quiet w = Ok (w', tt) /\ ros_inv w'.
Proof.
  intros HI w'. split.
  - unfold detach_socket, with_exclusive, get, mbind, M_bind, gets, modify. rewrite (ri_shared w HI).
    rewrite cancel_spec by apply HI. unfold mret, M_ret. f_equal. f_equal.
    unfold w', set_mutex_excl, set_m_requested, told, set_m_so. cbn. by rewrite (ri_shared w HI).
  - eapply answered_inv; try done; try apply HI.
    + cbn. rewrite err_of_cbs by apply HI. by rewrite app_nil_r.
    + intros q Hq. by apply not_elem_of_nil in Hq.
Qed.

(** *** Requests *)
Lemma find_message_last m l q : rq_message q = m -> Forall (fun q' => rq_message q' <> m) l -> find_message m (l ++ [q]) = Some (l, q, []).
Proof. intros Hq. induction 1 as [|q' l Hn _ IH]; cbn; [by rewrite decide_True|]. by rewrite decide_False, IH. Qed.

(** The state in which [request] has sent its message. *)
Definition asked w m (cb : nat) timeout now : R :=
  log_begun cb (set_m_requested (m_requested w ++ [mk_requested m (Some cb) now timeout]) (set_heap (alter (set_type T_REQUEST) m (heap w)) w)).
Lemma asked_inv w m cb timeout now d : ros_inv w -> fresh w m d -> ros_inv (asked w m cb timeout now).
Proof.
  intros HI Hfr. destruct (typed_inv m (set_type T_REQUEST) w d Hfr HI) as [F S0 N O I]. destruct Hfr as (x & Hm & Ht & _).
  constructor; try done; cbn.
  - apply Forall_app. split; [exact N|]. constructor; [|done]. split; [by eexists|]. exists (set_type T_REQUEST x).
    split; [|done]. cbn. by rewrite list_lookup_alter_eq, Hm.
  - cbn in O. rewrite O, bind_app. cbn. solve_Permutation.
Qed.
Lemma request_begin_spec m cb timeout now w d : ros_inv w -> fresh w m d ->
  wp (request_begin m (Some cb) timeout now) w (fun w' rc => exists e' x, w' = set_sock e' (asked w m cb timeout now)
    /\ heap w !! m = Some x /\ outcome w e' rc (ros_bytes (net_id x) T_REQUEST d)).
Proof.
  intros HI Hfr. pose proof (asked_inv w m cb timeout now d HI Hfr) as HA. destruct Hfr as (x & Hm & Ht & Hs & Hr).
  unfold request_begin. rewrite wp_bind, wp_assert. split; [by apply bool_decide_eq_true; eexists|].
  rewrite wp_bind. eapply wp_message; [done|]. rewrite wp_bind, wp_assert. split; [by rewrite Ht|].
  unfold update. rewrite wp_bind, wp_modify, wp_bind. apply wp_with_requested; [apply HI|].
  unfold get. rewrite wp_bind, wp_gets, wp_bind, wp_modify. change (option_list (Some cb)) with [cb]. cbn [iterM]. rewrite wp_bind, wp_modify, wp_ret.
  assert (HE : set_requested_mutex false (log_begun cb (set_m_requested (m_requested (set_requested_mutex true (set_heap (alter (set_type T_REQUEST) m (heap w)) w)) ++ [mk_requested m (Some cb) now timeout])
    (set_requested_mutex true (set_heap (alter (set_type T_REQUEST) m (heap w)) w)))) = asked w m cb timeout now).
  { unfold asked, set_requested_mutex, log_begun, set_m_requested, set_heap. cbn. by rewrite (ri_free w HI). }
  rewrite HE. eapply wp_mono.
  - eapply (do_send_spec m _ (set_type T_REQUEST x) d); [apply HI | by apply update_lookup | done | done | done].
  - intros w' rc (e' & -> & Ho). by exists e', x.
Qed.
Definition pending_cb w (cb : nat) : Prop := exists q, q ∈ m_requested w /\ rq_cb q = Some cb.
Lemma request_spec m cb timeout now w d : ros_inv w -> fresh w m d ->
  wp (request m (Some cb) timeout now) w (fun w' rc => ros_inv w' /\ begun w' = begun w ++ [cb] /\ answers w' = answers w /\ m_so w' = m_so w
    /\ (exists x, heap w !! m = Some x /\ outcome w (sock w') rc (ros_bytes (net_id x) T_REQUEST d))
    /\ if rc =? OK then m_requested w' = m_requested w ++ [mk_requested m (Some cb) now timeout] /\ refused w' = refused w
       else m_requested w' = m_requested w /\ refused w' = refused w ++ [cb]).
Proof.
  intros HI Hfr. pose proof (asked_inv w m cb timeout now d HI Hfr) as HA. unfold request. rewrite wp_bind.
  eapply wp_mono; [by eapply request_begin_spec|]. intros w' rc (e' & x & -> & Hm & Ho). unfold request_end. destruct (rc =? OK) eqn:Erc.
  - rewrite wp_ret, Erc. split; [by apply sock_inv|]. split; [done|]. split; [done|]. split; [done|]. split; [by exists x|done].
  - apply wp_with_requested; [apply HA|]. unfold get. rewrite wp_bind, wp_gets.
    change (m_requested (set_requested_mutex true (set_sock e' (asked w m cb timeout now)))) with (m_requested w ++ [mk_requested m (Some cb) now timeout]).
    rewrite find_message_last; [| done |].
    2:{ destruct Hfr as (x' & Hm' & Ht & _). eapply Forall_impl; [apply (ri_entries w HI)|]. intros q [_ (y & Hy & Hty)] <-. rewrite Hy in Hm'. injection Hm' as ->. by rewrite Ht in Hty. }
    rewrite wp_bind, wp_modify. cbn [cb_of rq_cb iterM]. rewrite wp_bind, wp_bind, wp_modify, !wp_ret. rewrite app_nil_r.
    destruct (typed_inv m (set_type T_REQUEST) w d Hfr HI) as [F S0 N O I]. rewrite Erc. split; [|split; [done|split; [done|split; [done|split; [by exists x|done]]]]].
    constructor; try done. cbn in O |- *. rewrite O. solve_Permutation.
Qed.

(** *** Arrivals *)
Lemma find_net_id_spec (hp : list ros_message) id l : match find_net_id hp id l with
  | Some (a, q, b) => l = a ++ q :: b /\ net_id <$> hp !! rq_message q = Some id /\ Forall (fun q' => net_id <$> hp !! rq_message q' <> Some id) a
  | None => Forall (fun q' => net_id <$> hp !! rq_message q' <> Some id) l
  end.
Proof.
  induction l as [|q l IH]; [constructor|]. cbn [find_net_id]. case_decide as Hq; [split; [done|]; split; [done | constructor]|]. destruct (find_net_id hp id l) as [[[a x] b]|]; cbn.
  - destruct IH as (-> & Hx & Ha). split; [done|]. split; [done|]. by constructor.
  - by constructor.
Qed.

(** What a response does to a peer: the first request with its number is answered with its data;
    a response nobody waits for is dropped. *)
Definition answered w w' (id : Z) (data : option packet.t) : Prop :=
  (exists a q b cb, m_requested w = a ++ q :: b /\ rq_cb q = Some cb /\ net_id <$> heap w !! rq_message q = Some id
    /\ Forall (fun q' => net_id <$> heap w !! rq_message q' <> Some id) a
    /\ m_requested w' = a ++ b /\ answers w' = answers w ++ [A_respond cb id data])
  \/ Forall (fun q' => net_id <$> heap w !! rq_message q' <> Some id) (m_requested w) /\ m_requested w' = m_requested w /\ answers w' = answers w.
Lemma response_spec r w x : ros_inv w -> heap w !! r = Some x -> m_type x = T_RESPONSE ->
  wp (_handle_resp_message quiet r) w (fun w' _ => ros_inv w' /\ heap w' = heap w /\ events w' = events w /\ sock w' = sock w /\ m_so w' = m_so w /\ answered w w' (net_id x) (m_data x)).
Proof.
  intros HI Hx Ht. unfold _handle_resp_message. rewrite wp_bind. eapply wp_message; [done|]. rewrite wp_bind, wp_assert. split; [by rewrite Ht|].
  rewrite wp_bind. apply wp_with_requested; [apply HI|]. unfold get. rewrite wp_bind, wp_gets.
  change (heap (set_requested_mutex true w)) with (heap w). change (m_requested (set_requested_mutex true w)) with (m_requested w).
  pose proof (find_net_id_spec (heap w) (net_id x) (m_requested w)) as HF. destruct (find_net_id _ _ _) as [[[a q] b]|].
  - destruct HF as (Hl & Hq & Ha). rewrite wp_bind, wp_modify, wp_ret.
    assert (Hok : entry_ok w q) by (apply (proj1 (Forall_forall _ _) (ri_entries w HI)); rewrite Hl; apply elem_of_app; right; by left).
    destruct Hok as [[cb Hcb] (y & Hy & Hty)]. rewrite Hcb, wp_bind. eapply wp_message; [exact Hy|]. rewrite Hy in Hq. injection Hq as Hq.
    rewrite wp_bind, wp_assert. split; [by rewrite Hq, Z.eqb_refl|]. rewrite wp_bind, wp_assert. split; [by rewrite Hty|].
    unfold tell, quiet. rewrite wp_bind, wp_modify, wp_ret. split; [|split; [done|split; [done|split; [done|split; [done|]]]]].
    + eapply (answered_inv [A_respond cb (net_id x) (m_data x)] (a ++ b) w); try done; try apply HI.
      * cbn. by rewrite Hq.
      * rewrite Hl, !bind_app. cbn [mbind list_bind]. unfold cb_of at 2. rewrite Hcb. cbn. solve_Permutation.
      * intros q' Hq'. rewrite Hl. apply elem_of_app in Hq' as [?|?]; apply elem_of_app; [by left | right; by right].
    + left. exists a, q, b, cb. rewrite Hy. cbn. rewrite Hq. done.
  - rewrite !wp_ret. assert (HE : set_requested_mutex false (set_requested_mutex true w) = w).
    { pose proof (ri_free w HI) as F. destruct w. cbn in F. by subst. }
    rewrite HE. split; [done|]. split; [done|]. split; [done|]. split; [done|]. split; [done|]. by right.
Qed.

(** A packet with one message of a kind the peer takes. *)
Definition incoming p (id type : Z) (d : list Z) : Prop :=
  packet.wf p /\ packet.data p = ros_bytes id type d /\ is_u32 id /\ (type = T_RESPONSE \/ type = T_REQUEST \/ type = T_SEND) /\ zlen d <= MAX_ROS.
Lemma allocate_inv x w : ros_inv w -> ros_inv (set_heap (heap w ++ [x]) w).
Proof.
  intros [F S0 N O I]. constructor; try done. eapply entries_mono; [|done]. intros m y Hy _. cbn. by apply lookup_app_l_Some.
Qed.
Lemma arrive_spec fuel p id type d w : ros_inv w -> m_so w = true -> incoming p id type d ->
  wp (on_event quiet errno (S fuel) (packet_event p)) w (fun w' _ => ros_inv w' /\ m_so w' = m_so w
    /\ exists e' p', sent e' = sent (sock w) /\ packet.wf p' /\ packet.data p' = d
    /\ let w1 := set_heap (heap w ++ [mk_ros id type (Some p')]) (set_sock e' w) in
       heap w' = heap w1 /\ sock w' = e'
    /\ if type =? T_RESPONSE then answered w1 w' id (Some p') /\ events w' = events w
       else m_requested w' = m_requested w /\ answers w' = answers w /\ events w' = events w ++ [RE_message (length (heap w))]).
Proof.
  intros HI Hso (W & D & Hid & Ht & Hz). unfold on_event, get. rewrite wp_bind, wp_gets, wp_bind, wp_assert. split; [done|].
  cbn [packet_event e_id e_data]. unfold on_packet. rewrite wp_bind, wp_zoom.
  destruct (begin_read_law (sock w)) as (e' & Eb & Hse & _). unfold wp at 1. rewrite Eb.
  destruct (ros_decode_spec fuel id type d p W D Hid) as (p' & Ed & W' & D'); [by destruct Ht as [->|[->| ->]] | done |].
  set (w1 := set_heap (heap w ++ [mk_ros id type (Some p')]) (set_sock e' w)).
  assert (HI1 : ros_inv w1) by (apply (allocate_inv _ (set_sock e' w)), sock_inv, HI).
  assert (Hl : heap w1 !! length (heap w) = Some (mk_ros id type (Some p'))) by (cbn; by apply list_lookup_middle).
  enough (HH : wp (handle_incoming_message quiet (length (heap w))) w1 (fun w' _ => ros_inv w' /\ m_so w' = m_so w /\ heap w' = heap w1 /\ sock w' = e'
    /\ if type =? T_RESPONSE then answered w1 w' id (Some p') /\ events w' = events w
       else m_requested w' = m_requested w /\ answers w' = answers w /\ events w' = events w ++ [RE_message (length (heap w))])).
  { unfold wp, catching.
    unfold mbind, M_bind, lift. rewrite Ed. unfold allocate, get, mbind, M_bind, gets, modify, mret, M_ret.
    change (set_heap (heap (set_sock e' w) ++ [mk_ros id type (Some p')]) (set_sock e' w)) with w1. change (length (heap (set_sock e' w))) with (length (heap w)).
    unfold wp in HH. destruct (handle_incoming_message quiet (length (heap w)) w1) as [[w' []]|]; [|done].
    destruct HH as (A1 & A2 & A3 & A4 & A5). split; [done|]. split; [done|]. by exists e', p'. }
  unfold handle_incoming_message. rewrite wp_bind. eapply wp_message; [done|]. cbn [m_type].
  destruct Ht as [->|Ht].
  - cbn. eapply wp_mono; [by eapply response_spec|]. intros w' _ (A1 & A2 & A3 & A4 & A5 & A6).
    split; [done|]. split; [exact A5|]. split; [exact A2|]. split; [exact A4|]. split; [exact A6 | exact A3].
  - assert (((type =? T_SEND) || (type =? T_REQUEST)) = true) as -> by (by destruct Ht as [->| ->]).
    assert ((type =? T_RESPONSE) = false) as -> by (by destruct Ht as [->| ->]). unfold trigger. rewrite wp_modify. split; [by destruct HI1 | done].
Qed.

(** *** The session *)
Inductive ros_act : Type :=
| R_new (data : option packet.t)
| R_send (m : nat)
| R_request (m cb : nat) (timeout now : Z)
| R_respond (m inc : nat)
| R_tick (now : Z)
| R_attach
| R_detach
| R_event (fuel : nat) (evt : socket_event).
(** What users and the network keep to: a message is sent once and fits, a response is for a
    request, a socket is attached when there is none, events come from the attached socket and
    packets hold one message. *)
Definition enabled w (a : ros_act) : Prop :=
  match a with
  | R_new _ | R_tick _ | R_detach => True
  | R_send m | R_request m _ _ _ => exists d, fresh w m d
  | R_respond m inc => exists d i, fresh w m d /\ heap w !! inc = Some i /\ m_type i = T_REQUEST
  | R_attach => m_so w = false
  | R_event fuel evt => m_so w = true /\ fuel <> 0%nat /\
      match e_id evt, e_data evt with
      | E_PACKET_ARRIVE, Some p => exists id type d, incoming p id type d
      | E_PACKET_ARRIVE, None | E_MESSAGE, _ => False
      | _, _ => True
      end
  end.
Definition do_act (a : ros_act) : M R unit :=
  match a with
  | R_new data => make_message data;; mret tt
  | R_send m => send m;; mret tt
  | R_request m cb timeout now => request m (Some cb) timeout now;; mret tt
  | R_respond m inc => respond m inc;; mret tt
  | R_tick now => tick quiet now
  | R_attach => attach_socket
  | R_detach => detach_socket quiet
  | R_event fuel evt => on_event quiet errno fuel evt
  end.
Inductive ros_session (e : E) : R -> Prop :=
| ros_session_start : ros_session e (new_ros e)
| ros_session_act w a w' : ros_session e w -> enabled w a -> do_act a w = Ok (w', tt) -> ros_session e w'.

Definition idle_detached w : Prop := m_so w = false -> m_requested w = [].
Lemma wp_done {A} (m : M R A) w Q : wp m w (fun w' _ => Q w') -> wp (m ≫= fun _ => mret tt) w (fun w' _ => Q w').
Proof. intros Hm. rewrite wp_bind. eapply wp_mono; [exact Hm|]. intros w' a HQ. by rewrite wp_ret. Qed.
Lemma do_act_spec a w : ros_inv w -> idle_detached w -> enabled w a -> wp (do_act a) w (fun w' _ => ros_inv w' /\ idle_detached w').
Proof.
  intros HI HD Ha. destruct a as [data|m|m cb timeout now|m inc|now| | |fuel evt]; cbn [do_act enabled] in *.
  - apply wp_done. unfold make_message, get, allocate. rewrite wp_bind, wp_gets, wp_bind, wp_modify.
    unfold get. rewrite wp_bind, wp_gets, wp_bind, wp_modify, wp_ret. split; [|done].
    apply (allocate_inv _ (set_nid _ w)). destruct HI. constructor; try done. apply u32_range.
  - apply wp_done. destruct Ha as [d Hd]. eapply wp_mono; [by eapply ros_send_spec|]. intros w' _ (? & Hs & Hr). split; [done|].
    unfold idle_detached. by rewrite Hs, Hr.
  - apply wp_done. destruct Ha as [d Hd]. eapply wp_mono; [by eapply request_spec|]. intros w' rc (HI' & _ & _ & Hs & (x & _ & Ho) & Hr).
    split; [done|]. unfold idle_detached. rewrite Hs. intros Hso. unfold outcome in Ho. rewrite Hso in Ho. destruct Ho as [-> _].
    destruct Hr as [-> _]. by apply HD.
  - apply wp_done. destruct Ha as (d & i & Hd & Hi & Hti). eapply wp_mono; [by apply (respond_spec m inc w d i)|]. intros w' _ (? & Hs & Hr & _).
    split; [done|]. unfold idle_detached. by rewrite Hs, Hr.
  - destruct (tick_spec now w HI) as [Et HI']. unfold wp. rewrite Et. split; [done|]. intros Hso. cbn. by rewrite (HD Hso).
  - unfold attach_socket. apply wp_with_exclusive; [apply HI|]. unfold get. rewrite wp_bind, wp_gets, wp_bind, wp_assert.
    split; [cbn; by rewrite Ha|]. rewrite wp_modify. split; [|done]. by destruct HI.
  - destruct (detach_spec w HI) as [Ed HI']. unfold wp. rewrite Ed. by split.
  - destruct Ha as (Hso & Hf & He). destruct fuel as [|fuel]; [done|].
    assert (HT : forall eid info, wp (trigger (RE_info eid info)) w (fun w' _ => ros_inv w' /\ idle_detached w'))
      by (intros eid info; unfold trigger; rewrite wp_modify; split; [by destruct HI | by intros E0; cbn in E0; rewrite Hso in E0]).
    destruct evt as [eid data info]. cbn [e_id e_data] in He. destruct eid; try done;
      try (unfold on_event, get; rewrite wp_bind, wp_gets, wp_bind, wp_assert; split; [done | apply HT]).
    destruct data as [p|]; [|done]. destruct He as (id & type & d & Hp).
    pose proof (arrive_spec fuel p id type d w HI Hso Hp) as HA. eapply wp_mono; [exact HA|].
    intros w' _ (HI' & Hs & _). split; [done|]. intros E0. congruence.
Qed.
Lemma ros_session_inv e w : ros_session e w -> ros_inv w /\ idle_detached w.
Proof.
  induction 1 as [|w a w' _ [HI HD] Ha Hs]; [by split|].
  pose proof (do_act_spec a w HI HD Ha) as HW. unfold wp in HW. by rewrite Hs in HW.
Qed.


(** C15: A response is for the request of its number: when the packet of a response arrives, the
    first pending request with that number leaves the list and its callback gets the bytes, once;
    a response nobody waits for changes no request and answers none. *)
Theorem ros_response_answers e w fuel p id d : ros_session e w -> m_so w = true -> incoming p id T_RESPONSE d ->
  exists w' p', on_event quiet errno (S fuel) (packet_event p) w = Ok (w', tt) /\ packet.data p' = d /\
    ((exists a q b cb, m_requested w = a ++ q :: b /\ rq_cb q = Some cb /\ net_id <$> heap w' !! rq_message q = Some id
        /\ Forall (fun q' => net_id <$> heap w' !! rq_message q' <> Some id) a
        /\ m_requested w' = a ++ b /\ answers w' = answers w ++ [A_respond cb id (Some p')])
     \/ Forall (fun q' => net_id <$> heap w' !! rq_message q' <> Some id) (m_requested w) /\ m_requested w' = m_requested w /\ answers w' = answers w).
Proof.
  intros [HI _]%ros_session_inv Hso Hp. pose proof (arrive_spec fuel p id T_RESPONSE d w HI Hso Hp) as HA. unfold wp in HA.
  destruct (on_event quiet errno (S fuel) (packet_event p) w) as [[w' []]|]; [|done].
  destruct HA as (_ & _ & e' & p' & _ & _ & D & Hh & _ & Hr & _). exists w', p'. split; [done|]. split; [done|]. rewrite Hh. exact Hr.
Qed.

(** ** Where the peer fails *)

(** [request] puts its entry in the list, sends, and takes the entry out when the socket
    refused; when the socket is detached between, the callback is told, the entry is gone, and
    the caller gets an exception. *)
Theorem request_detach_throws m cb timeout now rc d w w1 w2 : ros_inv w -> fresh w m d ->
  request_begin m (Some cb) timeout now w = Ok (w1, rc) -> rc <> OK -> detach_socket quiet w1 = Ok (w2, tt) ->
  request_end m rc w2 = Fault Thrown /\ cb ∈ answer_cb <$> answers w2.
Proof.
  intros HI Hfr Eb Hrc Ed. pose proof (request_begin_spec m cb timeout now w d HI Hfr) as HB. unfold wp in HB. rewrite Eb in HB.
  destruct HB as (e' & x & -> & Hm & Ho). pose proof (sock_inv e' _ (asked_inv w m cb timeout now d HI Hfr)) as HI1.
  destruct (detach_spec _ HI1) as [Ed' HI2]. rewrite Ed' in Ed. injection Ed as <-. split.
  - unfold request_end. rewrite (proj2 (Z.eqb_neq rc OK)) by done.
    unfold with_requested, get, mbind, M_bind, gets, modify. cbn. by rewrite (ri_free w HI).
  - cbn. rewrite fmap_app. apply elem_of_app. right. rewrite err_of_cbs by apply HI1. cbn. rewrite bind_app. apply elem_of_app. right. by left.
Qed.

(** The blocking receiver of [ros] takes only [OK] for a packet: when more bytes wait behind
    the packet the socket answers [E_TLP_TRY_AGAIN] with it, and the packet is lost; the number
    of messages returned is the code as an unsigned number. *)
Theorem receive_drops_message fuel size p e' w : ros_inv w -> m_so w = true -> so_receive_packets 1 (sock w) = Ok (e', ([p], E_TLP_TRY_AGAIN)) ->
  do_receive_messasges quiet (S fuel) size w = Ok (set_sock e' w, ([], E_TLP_TRY_AGAIN, 4294937274)).
Proof.
  intros HI Hso Hr. unfold do_receive_messasges, with_shared, get, mbind, M_bind, gets. rewrite (ri_shared w HI), Hso. cbn [negb].
  cbn [receive_loop]. unfold mbind, M_bind, zoom. rewrite Hr. reflexivity.
Qed.
End session.

(** A callback that makes a request when it is told of a timeout or of the end of the socket
    waits for the mutex of the list, which its own thread holds. *)
Lemma request_in_callback_waits `{memory} {E : Type} `{peer_socket E} m cb timeout now (w : ros E) x :
  m_requested_mutex w = true -> heap w !! m = Some x -> m_type x = T_NONE -> ros_peer.request_begin m (Some cb) timeout now w = Fault Waits.
Proof.
  intros Hf Hx Ht. unfold ros_peer.request_begin, ros_peer.message, ros_peer.update, ros_peer.with_requested, ros_peer.get, mbind, M_bind, gets, modify.
  cbn. rewrite Hx. cbn. rewrite Ht. cbn. by rewrite Hf.
Qed.

(** ** Witnesses *)
#[export] Program Instance link_closes : closing_socket_laws link.
Next Obligation. intros ec e. by exists e, OK. Qed.
Definition sample_incoming : packet.t := sample_packet (ros_bytes 1 T_RESPONSE [4; 5]).
(** A socket that hands out one packet and says that more is there. *)
#[export] Instance link_receives : receiving_socket link := {| so_receive_packets size := mret ([sample_packet [1]], E_TLP_TRY_AGAIN) |}.
Definition ask : packet.t := sample_packet [1; 2; 3].

Definition ask_message : ros_message := mk_ros 1 T_NONE (Some ask).
Lemma ask_sendable t : sendable (mk_ros 1 t (Some ask)) [1; 2; 3].
Proof. exists ask. split; [done|]. split; [constructor; vm_compute; intuition discriminate|]. split; [done | vm_compute; intuition discriminate]. Qed.
Lemma ros_message_roundtrip_witness : exists p p', ros_encode (mk_ros 1 T_REQUEST (Some ask)) = Ok (OK, Some p)
  /\ ros_peer._decode_message_from_packet 1 p = Ok (Some (mk_ros 1 T_REQUEST (Some p'))) /\ packet.wf p' /\ packet.data p' = [1; 2; 3].
Proof. apply (ros_message_roundtrip 0 (mk_ros 1 T_REQUEST (Some ask)) [1; 2; 3]); [apply ask_sendable | done | done]. Defined.

(** A socket is attached, a message made and sent as a request, and the response comes. *)
Definition after (a : ros_act) (w : ros link) : ros link := match do_act 0 a w with Ok (w', _) => w' | Fault _ => w end.
Definition peer0 : ros link := new_ros (mk_link [] []).
Definition peer2 : ros link := after (R_new (Some ask)) (after R_attach peer0).
Definition peer3 : ros link := after (R_request 0 9 30 100) peer2.
Definition peer4 : ros link := after (R_event 1 (packet_event sample_incoming)) peer3.
Lemma ask_fresh : fresh peer2 0 [1; 2; 3].
Proof. exists ask_message. split; [by vm_compute|]. split; [done|]. split; [apply ask_sendable | vm_compute; intuition discriminate]. Qed.
Lemma sample_is_incoming : incoming sample_incoming 1 T_RESPONSE [4; 5].
Proof.
  split; [constructor; vm_compute; intuition discriminate|]. split; [by vm_compute|]. split; [by vm_compute|]. split; [by left | by vm_compute].
Qed.
Lemma peer2_session : ros_session 0 (mk_link [] []) peer2.
Proof.
  apply (ros_session_act 0 _ (after R_attach peer0) (R_new (Some ask))); [| done | by vm_compute].
  apply (ros_session_act 0 _ peer0 R_attach); [constructor | done | by vm_compute].
Qed.
Lemma peer3_session : ros_session 0 (mk_link [] []) peer3.
Proof. apply (ros_session_act 0 _ peer2 (R_request 0 9 30 100)); [apply peer2_session | exists [1; 2; 3]; apply ask_fresh | by vm_compute]. Qed.
Lemma peer4_session : ros_session 0 (mk_link [] []) peer4.
Proof.
  apply (ros_session_act 0 _ peer3 (R_event 1 (packet_event sample_incoming))); [apply peer3_session | | by vm_compute].
  split; [done|]. split; [done|]. exists 1, T_RESPONSE, [4; 5]. apply sample_is_incoming.
Qed.

Lemma ros_response_answers_witness : exists w' p', ros_peer.on_event quiet 0 1 (packet_event sample_incoming) peer3 = Ok (w', tt) /\ packet.data p' = [4; 5].
Proof.
  destruct (ros_response_answers 0 _ peer3 0 sample_incoming 1 [4; 5] peer3_session ltac:(reflexivity) sample_is_incoming) as (w' & p' & E1 & E2 & _).
  exists w', p'. split; [exact E1 | exact E2].
Defined.

(** The socket is full, so the request is refused; before the caller takes its entry out the
    socket is detached. *)
Definition full2 : ros link := set_sock (mk_link [] [true]) peer2.
Definition full3 : ros link := match ros_peer.request_begin 0 (Some 9%nat) 30 100 full2 with Ok (w, _) => w | Fault _ => full2 end.
Definition full4 : ros link := match ros_peer.detach_socket quiet full3 with Ok (w, _) => w | Fault _ => full3 end.
Lemma request_detach_throws_witness : ros_peer.request_end 0 E_SOCKET_SEND_BLOCK full4 = Fault Thrown /\ 9%nat ∈ answer_cb <$> answers full4.
Proof.
  apply (request_detach_throws 0 9 30 100 E_SOCKET_SEND_BLOCK [1; 2; 3] full2 full3 full4).
  - exact (sock_inv _ _ (proj1 (ros_session_inv 0 _ _ peer2_session))).
  - exact ask_fresh.
  - vm_compute; reflexivity.
  - discriminate.
  - vm_compute; reflexivity.
Defined.
Lemma receive_drops_message_witness :
  ros_peer.do_receive_messasges quiet 1 5 peer3 = Ok (set_sock (sock peer3) peer3, ([], E_TLP_TRY_AGAIN, 4294937274)).
Proof.
  apply (receive_drops_message 0 5 (sample_packet [1]) (sock peer3) peer3); [exact (proj1 (ros_session_inv 0 _ _ peer3_session)) | reflexivity | reflexivity].
Defined.
