(* ===== verification/Cargo.v ===== *)
(** * Cargo: packets as messages ([include/wawo/net/peer/cargo.hpp],
    [include/wawo/net/peer/message/cargo.hpp])

    The plain peer: a message is a packet, sent as a copy and passed on when it arrives.

    - [cargo], [cargo_peer]: the state and the methods, over a [peer_socket];
    - [cargo_send_spec]: what is sent; [cargo_receive_spins], [cargo_receive_code]: the receiver asks
      again while the socket has nothing, and returns an error as a number of messages. *)

From S2P Require Import Prelude Effects Bytes Ring Packet SocketData MuxStream MuxStreamProofs Ros.

Inductive cargo_event : Type := CE_message (data : option packet.t) | CE_info (eid : event_id) (info : Z).

Section cargo.
Context {E : Type}.
Record cargo : Type := mk_cargo { c_so : bool; c_excl : bool; c_sock : E; c_events : list cargo_event }.
Definition set_c_so v w := mk_cargo v (c_excl w) (c_sock w) (c_events w).
Definition set_c_excl v w := mk_cargo (c_so w) v (c_sock w) (c_events w).
Definition set_c_sock v w := mk_cargo (c_so w) (c_excl w) v (c_events w).
Definition log_c_event v w := mk_cargo (c_so w) (c_excl w) (c_sock w) (c_events w ++ [v]).
End cargo.
Arguments cargo : clear implicits.

Module cargo_peer.
Section cargo_peer.
Context `{memory} {E : Type} `{peer_socket E} `{receiving_socket E}.
Local Abbreviation MC := (M (cargo E)).

(** [message::cargo]: a packet; [encode] copies it. *)
Definition encode (data : option packet.t) : res (Z * packet.t) :=
  match data with None => Fault AssertFailed | Some d => Ok (OK, packet.copy d) end.
Definition cargo_copy (data : option packet.t) : option packet.t := packet.copy <$> data.

Definition get : MC (cargo E) := gets (fun w => w).
Definition with_shared {A} (m : MC A) : MC A := w ← get; if c_excl w then fail Waits else m.
Definition with_exclusive {A} (m : MC A) : MC A :=
  w ← get;
  if c_excl w then fail Waits else modify (set_c_excl true);; a ← m; modify (set_c_excl false);; mret a.

Definition attach_socket : MC unit := with_exclusive (w ← get; assertM (negb (c_so w));; modify (set_c_so true)).
Definition detach_socket : MC unit := with_exclusive (modify (set_c_so false)).
Definition close (code : Z) : MC Z :=
  with_shared (w ← get; if c_so w then zoom c_sock set_c_sock (so_close code) else mret OK).

Definition do_send_message (data : option packet.t) : MC Z :=
  with_shared (
    w ← get;
    if negb (c_so w) then mret E_PEER_NO_SOCKET_ATTACHED
    else
      '(encode_ec, packet_mo) ← lift (encode data);
      if negb (encode_ec =? OK) then mret encode_ec
      else zoom c_sock set_c_sock (so_send_packet packet_mo)).

Fixpoint receive_loop (fuel : nat) : MC (list packet.t * Z) :=
  match fuel with
  | O => fail Diverged
  | S fuel' =>
      '(arrives, ec) ← zoom c_sock set_c_sock (so_receive_packets 1);
      if ((ec =? OK) || (ec =? E_SOCKET_RECV_BLOCK)) && (zlen arrives =? 0) then receive_loop fuel' else mret (arrives, ec)
  end.
(** The message, the code and the number that is returned. *)
Definition do_receive_messasges (fuel : nat) : MC (option packet.t * Z * Z) :=
  with_shared (
    w ← get;
    if negb (c_so w) then mret (None, E_PEER_NO_SOCKET_ATTACHED, 0)
    else
      '(arrives, ec) ← receive_loop fuel;
      if negb ((ec =? OK) || (ec =? E_TLP_TRY_AGAIN)) then mret (None, ec, u32 ec)
      else match arrives with
           | [p] => l ← lift (packet.len p); assertM (0 <? l);; mret (Some p, ec, 1)
           | _ => fail AssertFailed
           end).

Definition on_event (evt : socket_event) : MC unit :=
  match e_id evt with
  | E_PACKET_ARRIVE => modify (log_c_event (CE_message (e_data evt)))
  | E_MESSAGE => fail Thrown
  | e => modify (log_c_event (CE_info e (e_info evt)))
  end.

(** *** What they do *)
Lemma cargo_send_spec `{!peer_socket_laws E} p w : c_so w = true -> c_excl w = false -> packet.wf p -> zlen (packet.data p) + 4 <= snd_size (so_get_buffer_cfg (c_sock w)) ->
  exists e' rc, do_send_message (Some p) w = Ok (set_c_sock e' w, rc) /\ same_socket (c_sock w) e'
  /\ (rc = OK /\ sent e' = sent (c_sock w) ++ [packet.data p] \/ rc = E_SOCKET_SEND_BLOCK /\ sent e' = sent (c_sock w)).
Proof.
  intros Hso Hex W Hz. destruct (packet.copy_spec p W) as (W' & D' & _).
  destruct (send_law (packet.copy p) (c_sock w) W') as (e' & rc & Es & Hrc & Hse & HS); [by rewrite D'|]. exists e', rc.
  split.
  - unfold do_send_message, with_shared, get, mbind, M_bind, gets. rewrite Hex, Hso. cbn. unfold mbind, M_bind, zoom. cbn. unfold zoom. by rewrite Es.
  - split; [done|]. rewrite Hse, D'. destruct Hrc as [->| ->]; [by left | by right].
Qed.
(** While the socket has nothing and says so without an error the receiver asks again. *)
Lemma cargo_receive_spins fuel w : c_so w = true -> c_excl w = false ->
  so_receive_packets 1 (c_sock w) = Ok (c_sock w, ([], E_SOCKET_RECV_BLOCK)) -> do_receive_messasges fuel w = Fault Diverged.
Proof.
  intros Hso Hex Hr. unfold do_receive_messasges, with_shared, get, mbind, M_bind, gets. rewrite Hex, Hso. cbn [negb].
  assert (HL : receive_loop fuel w = Fault Diverged); [|by rewrite HL].
  induction fuel as [|fuel IH]; [done|]. cbn [receive_loop]. unfold mbind, M_bind, zoom. rewrite Hr. cbn.
  replace (set_c_sock (c_sock w) w) with w by (by destruct w). exact IH.
Qed.
(** An error is returned as a number of messages. *)
Lemma cargo_receive_code fuel ec e' w : c_so w = true -> c_excl w = false -> ec <> OK -> ec <> E_TLP_TRY_AGAIN -> ec <> E_SOCKET_RECV_BLOCK ->
  so_receive_packets 1 (c_sock w) = Ok (e', ([], ec)) -> do_receive_messasges (S fuel) w = Ok (set_c_sock e' w, (None, ec, u32 ec)).
Proof.
  intros Hso Hex H1' H2' H3' Hr. unfold do_receive_messasges, with_shared, get, mbind, M_bind, gets. rewrite Hex, Hso. cbn [negb receive_loop].
  unfold mbind, M_bind, zoom. rewrite Hr. rewrite (proj2 (Z.eqb_neq ec OK)), (proj2 (Z.eqb_neq ec E_SOCKET_RECV_BLOCK)) by done. cbn.
  rewrite (proj2 (Z.eqb_neq ec OK)), (proj2 (Z.eqb_neq ec E_TLP_TRY_AGAIN)) by done. done.
Qed.
End cargo_peer.
End cargo_peer.
