(* ===== verification/Strings.v ===== *)
(** * Strings: C strings with their length ([include/wawo/string.hpp])

    A pointer to characters is the list of the bytes from there to the end of their block; a
    string ends at its first zero byte, and a read or a write past the block is undefined.

    - the copying functions [strcpy], [strncpy], [strcat], [strncat] and the searches;
    - [len_cstr]: an owned string with its length, and its operators;
    - [rtrim], [ltrim], [replace], [split], [join]. *)

From S2P Require Import Prelude.

(** ** C strings *)

(** [std::strlen]. *)
Fixpoint c_strlen (m : list Z) : res Z :=
  match m with
  | [] => Fault Undefined
  | c :: m' => if c =? 0 then Ok 0 else n ← c_strlen m'; Ok (n + 1)
  end.
(** The characters before the zero byte. *)
Fixpoint chars (m : list Z) : list Z :=
  match m with [] => [] | c :: m' => if c =? 0 then [] else c :: chars m' end.
Definition strlen (str : list Z) : res Z := n ← c_strlen str; Ok (u32 n).

(** [memcpy] and a store of one byte. *)
Definition memcpy (dst src : list Z) (n : Z) : res (list Z) :=
  if (n <=? zlen dst) && (n <=? zlen src) then Ok (splice dst 0 (take (Z.to_nat n) src)) else Fault Undefined.
Definition store (dst : list Z) (i v : Z) : res (list Z) :=
  if i <? zlen dst then Ok (<[Z.to_nat i := v]> dst) else Fault Undefined.

Definition strcpy (dst src : list Z) : res (list Z) :=
  src_len ← strlen src;
  dst ← memcpy dst src src_len;
  store dst src_len 0.
Definition strncpy (dst src : list Z) (length : Z) : res (list Z) :=
  src_len ← strlen src;
  let copy_length := if length <? src_len then length else src_len in
  dst ← memcpy dst src copy_length;
  store dst length 0.
Definition strcat (dst src : list Z) : res (list Z) :=
  dst_length ← strlen dst;
  src_len ← strlen src;
  tail ← strncpy (drop (Z.to_nat dst_length) dst) src src_len;
  Ok (take (Z.to_nat dst_length) dst ++ tail).
Definition strncat (dst src : list Z) (length : Z) : res (list Z) :=
  dst_length ← strlen dst;
  src_len ← strlen src;
  let copy_length := if length <? src_len then length else src_len in
  tail ← strncpy (drop (Z.to_nat dst_length) dst) src copy_length;
  Ok (take (Z.to_nat dst_length) dst ++ tail).

(** [std::strstr]: where the first occurrence begins. *)
Fixpoint is_prefix (p s : list Z) : bool :=
  match p, s with
  | [], _ => true
  | _, [] => false
  | a :: p', b :: s' => (a =? b) && is_prefix p' s'
  end.
Fixpoint strstr (s check : list Z) : option nat :=
  if is_prefix check s then Some 0%nat
  else match s with [] => None | _ :: s' => S <$> strstr s' check end.
Definition strpos (dst check : list Z) : Z :=
  match strstr (chars dst) (chars check) with None => -1 | Some i => i32 (Z.of_nat i) end.

(** [std::strncmp] and [std::strcmp], up to the sign. *)
Fixpoint c_compare (a b : list Z) : comparison :=
  match a, b with
  | [], [] => Eq
  | [], _ => Lt
  | _, [] => Gt
  | x :: a', y :: b' => match x ?= y with Eq => c_compare a' b' | c => c end
  end.
Definition strcmp (l r : list Z) : comparison := c_compare (chars l) (chars r).
Definition strncmp (l r : list Z) (length : Z) : comparison :=
  c_compare (take (Z.to_nat length) (chars l)) (take (Z.to_nat length) (chars r)).

(** [::tolower] and [::toupper] of the C locale; the loops write no zero byte. *)
Definition c_tolower (c : Z) : Z := if (65 <=? c) && (c <=? 90) then c + 32 else c.
Definition c_toupper (c : Z) : Z := if (97 <=? c) && (c <=? 122) then c - 32 else c.
Definition case_loop (f : Z -> Z) (buffer : list Z) (size : Z) (src : list Z) : res (list Z) :=
  c ← strlen src;
  wawo_assert (c <=? size);;
  memcpy buffer (f <$> take (Z.to_nat c) src) c.
Definition strtolower (buffer : list Z) (size : Z) (src : list Z) : res (list Z) := case_loop c_tolower buffer size src.
Definition strtoupper (buffer : list Z) (size : Z) (src : list Z) : res (list Z) := case_loop c_toupper buffer size src.

(** ** [len_cstr] *)
Record len_cstr : Type := mk_cstr { cstr : list Z; len : Z }.
Definition empty_cstr : len_cstr := mk_cstr [0] 0.

Section cstr.
Context `{memory}.

Definition of_cstr (str : list Z) : res len_cstr :=
  l ← strlen str;
  if 0 <? l then b ← strcpy (malloc (u32 (l + 1))) str; Ok (mk_cstr b l) else Ok (mk_cstr [0] l).
Definition of_cstr_len (str : list Z) (slen : Z) : res len_cstr :=
  l ← strlen str;
  wawo_assert (slen <=? l);;
  if 0 <? slen then b ← strncpy (malloc (u32 (slen + 1))) str slen; Ok (mk_cstr b slen) else Ok empty_cstr.
Definition substr (s : len_cstr) (begin _len : Z) : res len_cstr :=
  wawo_assert (u32 (begin + _len) <=? len s);;
  of_cstr_len (drop (Z.to_nat begin) (cstr s)) _len.
Definition cstr_copy (other : len_cstr) : res len_cstr :=
  if 0 <? len other then b ← memcpy (malloc (u32 (len other + 1))) (cstr other) (u32 (len other + 1)); Ok (mk_cstr b (len other))
  else Ok empty_cstr.
Definition cstr_eq (a b : len_cstr) : bool :=
  (len a =? len b) && match strncmp (cstr a) (cstr b) (len a) with Eq => true | _ => false end.
Definition cstr_ne (a b : len_cstr) : bool :=
  negb (len a =? len b) || match strncmp (cstr a) (cstr b) (len a) with Eq => false | _ => true end.
Definition cstr_lt (a b : len_cstr) : bool := match strcmp (cstr a) (cstr b) with Lt => true | _ => false end.
Definition cstr_gt (a b : len_cstr) : bool := match strcmp (cstr a) (cstr b) with Gt => true | _ => false end.

(** [operator +]: a zeroed buffer takes the one and then the other. *)
Definition cstr_plus (a b : len_cstr) : res len_cstr :=
  let buffer_length := u32 (len a + len b + 1) in
  let _buffer := replicate (Z.to_nat buffer_length) 0 in
  _buffer ← (if negb (len a =? 0) then strncpy _buffer (cstr a) (len a) else Ok _buffer);
  _buffer ← (if negb (len b =? 0) then strncat _buffer (cstr b) (len b) else Ok _buffer);
  of_cstr_len _buffer (u32 (len a + len b)).

(** ** Trimming *)
Fixpoint rtrim_loop (fuel : nat) (s : list Z) (e : Z) : res Z :=
  match fuel with
  | O => Fault Diverged
  | S fuel' =>
      if 0 <? e then
        match s !! Z.to_nat e with
        | None => Fault Undefined
        | Some c => if c =? 32 then rtrim_loop fuel' s (e - 1) else Ok e
        end
      else Ok e
  end.
Definition rtrim (source : len_cstr) : res len_cstr :=
  if len source =? 0 then Ok empty_cstr
  else e ← rtrim_loop (Z.to_nat (len source)) (cstr source) (len source - 1); of_cstr_len (cstr source) (u32 (e + 1)).
Fixpoint ltrim_loop (fuel : nat) (s : list Z) (l start : Z) : res Z :=
  match fuel with
  | O => Fault Diverged
  | S fuel' =>
      if start <? l then
        match s !! Z.to_nat start with
        | None => Fault Undefined
        | Some c => if c =? 32 then ltrim_loop fuel' s l (start + 1) else Ok start
        end
      else Ok start
  end.
Definition ltrim (source : len_cstr) : res len_cstr :=
  if len source =? 0 then Ok empty_cstr
  else
    start ← ltrim_loop (S (Z.to_nat (len source))) (cstr source) (len source) 0;
    of_cstr_len (drop (Z.to_nat start) (cstr source)) (len source - start).
Definition trim (source : len_cstr) : res len_cstr := s ← ltrim source; rtrim s.

(** ** Replacing, splitting and joining *)

(** The result is what was last stored, the caller's own string when nothing was replaced. *)
Fixpoint replace_loop (fuel : nat) (source search replace_ result : len_cstr) (replace_count : Z) : res (len_cstr * Z) :=
  match fuel with
  | O => Fault Diverged
  | S fuel' =>
      let pos := strpos (cstr source) (cstr search) in
      if pos =? -1 then Ok (result, replace_count)
      else
        a ← substr source 0 pos;
        b ← cstr_plus a replace_;
        c ← substr source (u32 (pos + len search)) (u32 (len source - u32 (pos + len search)));
        new_str ← cstr_plus b c;
        replace_loop fuel' new_str search replace_ new_str (replace_count + 1)
  end.
Definition replace (fuel : nat) (source search replace_ result : len_cstr) : res (len_cstr * Z) :=
  source ← cstr_copy source; replace_loop fuel source search replace_ result 0.

Fixpoint split_loop (fuel : nat) (check_cstr : list Z) (check_length next_check_idx : Z) (delimiter : len_cstr) (result : list len_cstr)
    : res (list len_cstr * Z) :=
  match fuel with
  | O => Fault Diverged
  | S fuel' =>
      if next_check_idx <? check_length then
        let from := drop (Z.to_nat next_check_idx) check_cstr in
        let hit_pos := strpos from (cstr delimiter) in
        if hit_pos =? -1 then Ok (result, next_check_idx)
        else
          tmp ← of_cstr_len from hit_pos;
          split_loop fuel' check_cstr check_length (u32 (next_check_idx + u32 (hit_pos + len delimiter))) delimiter
            (if 0 <? len tmp then result ++ [tmp] else result)
      else Ok (result, next_check_idx)
  end.
Definition split (fuel : nat) (string delimiter : len_cstr) : res (list len_cstr) :=
  '(result, next_check_idx) ← split_loop fuel (cstr string) (len string) 0 delimiter [];
  if 0 <? u32 (len string - next_check_idx) then
    left_string ← of_cstr_len (drop (Z.to_nat next_check_idx) (cstr string)) (u32 (len string - next_check_idx));
    Ok (result ++ [left_string])
  else Ok result.

Fixpoint join_loop (strings : list len_cstr) (delimiter result : len_cstr) : res len_cstr :=
  match strings with
  | [] => Ok result
  | s :: strings' =>
      result ← cstr_plus result delimiter;
      result ← cstr_plus result s;
      join_loop strings' delimiter result
  end.
Definition join (strings : list len_cstr) (delimiter result : len_cstr) : res len_cstr :=
  match strings with
  | [] => Ok result
  | s :: strings' => result ← cstr_plus result s; join_loop strings' delimiter result
  end.

(** The same over [std::string], whose bytes have a zero byte behind them ([c_str]). *)
Definition of_std (s : list Z) : res len_cstr := of_cstr_len (s ++ [0]) (u32 (zlen s)).
Fixpoint of_stds (l : list (list Z)) : res (list len_cstr) :=
  match l with [] => Ok [] | s :: l' => c ← of_std s; cs ← of_stds l'; Ok (c :: cs) end.
Definition to_std (s : len_cstr) : list Z := take (Z.to_nat (len s)) (cstr s).
Definition split_std (fuel : nat) (string delimiter_string : list Z) : res (list (list Z)) :=
  s ← of_std string;
  d ← of_std delimiter_string;
  r ← split fuel s d;
  Ok (map to_std r).
Definition join_std (strings : list (list Z)) (delimiter : list Z) : res (list Z) :=
  v ← of_stds strings;
  d ← of_std delimiter;
  t ← join v d empty_cstr;
  Ok (to_std t).
End cstr.
