(* ===== verification/StringsProofs.v ===== *)
(** * StringsProofs: what the string functions compute

    - [repr]: a [len_cstr] that stands for a list of bytes; the constructors, [substr], [+] and the
      copies keep it;
    - [trim_spec]: trimming; [rtrim_blank]: of blanks it leaves one;
    - [cut], the reference: the pieces of a string; [split_cuts], [split_join]: [split] gives the
      pieces and undoes [join];
    - [replace_ends], [replace_by_itself]: when [replace] ends and what it leaves. *)

From S2P Require Import Prelude Strings.

Definition MAXS : Z := 2147483647.
Definition str_ok (bs : list Z) : Prop := Forall (fun c => c <> 0) bs /\ zlen bs < MAXS.
Definition repr (s : len_cstr) (bs : list Z) : Prop := cstr s = bs ++ [0] /\ len s = zlen bs /\ str_ok bs.

Lemma str_ok_app x y : str_ok (x ++ y) -> str_ok x /\ str_ok y.
Proof. unfold str_ok. rewrite Forall_app, zlen_app. pose proof (zlen_nonneg x). pose proof (zlen_nonneg y). intros [[? ?] ?]. repeat split; try done; lia. Qed.
Lemma str_ok_take n x : str_ok x -> str_ok (take n x).
Proof. intros Hx. rewrite <- (take_drop n x) in Hx. by apply str_ok_app in Hx as [? _]. Qed.
Lemma str_ok_drop n x : str_ok x -> str_ok (drop n x).
Proof. intros Hx. rewrite <- (take_drop n x) in Hx. by apply str_ok_app in Hx as [_ ?]. Qed.
Lemma str_ok_u32 bs k : str_ok bs -> 0 <= k <= zlen bs + 1 -> u32 k = k.
Proof. intros [_ Hz] Hk. apply u32_small. unfold MAXS in *. range_lia. Qed.

(** ** C strings *)
Lemma c_strlen_spec bs r : Forall (fun c => c <> 0) bs -> c_strlen (bs ++ 0 :: r) = Ok (zlen bs).
Proof.
  induction 1 as [|c bs Hc _ IH]; [done|]. cbn. rewrite (proj2 (Z.eqb_neq c 0)) by done. rewrite IH. res_simpl. unfold zlen. cbn [length]. f_equal. lia.
Qed.
Lemma chars_spec bs r : Forall (fun c => c <> 0) bs -> chars (bs ++ 0 :: r) = bs.
Proof. induction 1 as [|c bs Hc _ IH]; [done|]. cbn. rewrite (proj2 (Z.eqb_neq c 0)) by done. by rewrite IH. Qed.
Lemma strlen_spec bs r : str_ok bs -> strlen (bs ++ 0 :: r) = Ok (zlen bs).
Proof. intros Hb. pose proof (zlen_nonneg bs). unfold strlen. rewrite c_strlen_spec by apply Hb. res_simpl. by rewrite (str_ok_u32 bs) by (done || lia). Qed.

(** The copy of the first [n] characters with a zero byte behind them. *)
Lemma strncpy_spec dst bs r n : str_ok bs -> 0 <= n <= zlen bs -> n < zlen dst ->
  strncpy dst (bs ++ 0 :: r) n = Ok (take (Z.to_nat n) bs ++ 0 :: drop (Z.to_nat n + 1) dst).
Proof.
  intros Hb Hn Hd. unfold strncpy. rewrite strlen_spec by done. res_simpl.
  assert ((if n <? zlen bs then n else zlen bs) = n) as -> by (destruct (Z.ltb_spec n (zlen bs)); lia).
  unfold memcpy. rewrite (proj2 (Z.leb_le n (zlen dst))) by lia.
  rewrite (proj2 (Z.leb_le n _)) by (rewrite zlen_app; pose proof (zlen_nonneg (0 :: r)); lia). cbn [andb]. res_simpl.
  assert (Ht : take (Z.to_nat n) (bs ++ 0 :: r) = take (Z.to_nat n) bs) by (apply take_app_le; unfold zlen in Hn; lia).
  assert (HL : length (take (Z.to_nat n) bs) = Z.to_nat n) by (rewrite length_take; unfold zlen in Hn; lia).
  unfold splice, store. change (Z.to_nat 0) with 0%nat. rewrite take_0, app_nil_l. rewrite Nat.add_0_l, Ht, HL.
  rewrite (proj2 (Z.ltb_lt n _)) by (unfold zlen in *; rewrite length_app, HL, length_drop; lia). f_equal.
  rewrite insert_app_r_alt by lia. rewrite HL, Nat.sub_diag. f_equal.
  destruct (drop (Z.to_nat n) dst) as [|x l] eqn:Ed.
  - exfalso. apply (f_equal length) in Ed. rewrite length_drop in Ed. cbn in Ed. unfold zlen in Hd. lia.
  - cbn. f_equal. rewrite <- drop_drop, Ed. done.
Qed.

(** A length beyond the source's end: the zero byte goes there, the bytes between keep their values. *)
Lemma strncpy_long dst bs r n : str_ok bs -> zlen bs <= n < zlen dst ->
  strncpy dst (bs ++ 0 :: r) n = Ok (<[Z.to_nat n := 0]> (bs ++ drop (length bs) dst)).
Proof.
  intros Hb Hn. pose proof (zlen_nonneg bs). unfold strncpy. rewrite strlen_spec by done. res_simpl. rewrite (proj2 (Z.ltb_ge n (zlen bs))) by lia.
  unfold memcpy. rewrite (proj2 (Z.leb_le _ _)) by lia. rewrite (proj2 (Z.leb_le _ _)) by (rewrite zlen_app; pose proof (zlen_nonneg (0 :: r)); lia). cbn [andb]. res_simpl.
  unfold splice, store. change (Z.to_nat 0) with 0%nat. rewrite take_0, app_nil_l, take_app_length' by (unfold zlen; lia). cbn [Nat.add].
  rewrite (proj2 (Z.ltb_lt n _)); [done|]. unfold zlen in *. rewrite length_app, length_drop. lia.
Qed.
(** The changed characters come without a zero byte. *)
Lemma case_loop_spec f buffer size bs r : str_ok bs -> zlen bs <= size -> zlen bs <= zlen buffer ->
  case_loop f buffer size (bs ++ 0 :: r) = Ok ((f <$> bs) ++ drop (length bs) buffer).
Proof.
  intros Hb Hs Hd. unfold case_loop. rewrite strlen_spec by done. res_simpl. rewrite (proj2 (Z.leb_le _ _)) by lia. res_simpl. rewrite take_app_length' by (unfold zlen; lia).
  assert (HL : zlen (f <$> bs) = zlen bs) by (unfold zlen; by rewrite length_fmap).
  unfold memcpy. rewrite (proj2 (Z.leb_le _ _)) by lia. rewrite (proj2 (Z.leb_le _ _)) by lia. cbn [andb]. unfold splice. change (Z.to_nat 0) with 0%nat.
  rewrite take_0, app_nil_l, take_ge by (rewrite length_fmap; unfold zlen; lia). by rewrite length_fmap.
Qed.
Lemma c_compare_eq a b : c_compare a b = Eq <-> a = b.
Proof.
  revert b. induction a as [|x a IH]; intros [|y b]; cbn; try done. destruct (Z.compare_spec x y) as [->|Hxy|Hxy]; [|split; [done | intros [=]; lia]..].
  rewrite IH. split; [by intros -> | by intros [=]].
Qed.
Lemma cstr_eq_spec a b x y : repr a x -> repr b y -> cstr_eq a b = true <-> x = y.
Proof.
  intros (Ea & La & Hx) (Eb & Lb & Hy). unfold cstr_eq, strncmp. rewrite La, Lb, Ea, Eb, !chars_spec, andb_true_iff, Z.eqb_eq by (apply Hx || apply Hy).
  split; [intros [HL Hc] | intros ->].
  - rewrite (take_ge x), (take_ge y) in Hc by (unfold zlen in *; lia). apply c_compare_eq. by destruct (c_compare x y).
  - split; [done|]. by rewrite (proj2 (c_compare_eq _ _) eq_refl).
Qed.
Lemma cstr_ne_negb a b : cstr_ne a b = negb (cstr_eq a b).
Proof. unfold cstr_ne, cstr_eq. destruct (len a =? len b); [|done]. cbn. by destruct (strncmp _ _ _). Qed.
Lemma c_compare_flip a b : c_compare b a = CompOpp (c_compare a b).
Proof. revert b. induction a as [|x a IH]; intros [|y b]; cbn; try done. rewrite (Z.compare_antisym x y). destruct (x ?= y); cbn; [apply IH | done..]. Qed.
(** The order is total: two strings are in it one way or the other, or stand for the same bytes. *)
Lemma cstr_lt_total a b x y : repr a x -> repr b y -> cstr_gt a b = cstr_lt b a /\ (cstr_lt a b = false -> cstr_lt b a = false -> x = y).
Proof.
  intros (Ea & _ & Hx) (Eb & _ & Hy). unfold cstr_lt, cstr_gt, strcmp. rewrite Ea, Eb, !chars_spec by (apply Hx || apply Hy). rewrite (c_compare_flip x y).
  pose proof (c_compare_eq x y) as He. destruct (c_compare x y); cbn; split; try done. intros _ _. by apply He.
Qed.

Section cstr.
Context `{memory}.

(** A fresh block of the size of the copy. *)
Lemma strncpy_fresh bs r n : str_ok bs -> 0 <= n <= zlen bs -> strncpy (malloc (u32 (n + 1))) (bs ++ 0 :: r) n = Ok (take (Z.to_nat n) bs ++ [0]).
Proof.
  intros Hb Hn. rewrite (str_ok_u32 bs) by (done || lia). assert (Hs := malloc_size (n + 1) ltac:(lia)). rewrite strncpy_spec; [|done | done | lia].
  do 3 f_equal. apply drop_ge. unfold zlen in Hs. lia.
Qed.
Lemma strcpy_eq dst src : strcpy dst src = l ← strlen src; strncpy dst src l.
Proof. unfold strcpy, strncpy. destruct (strlen src) as [l|] eqn:E; [|done]. res_simpl. by rewrite Z.ltb_irrefl. Qed.

Lemma of_cstr_len_spec bs r n : str_ok bs -> 0 <= n <= zlen bs ->
  exists s, of_cstr_len (bs ++ 0 :: r) n = Ok s /\ repr s (take (Z.to_nat n) bs).
Proof.
  intros Hb Hn. unfold of_cstr_len. rewrite strlen_spec by done. res_simpl. rewrite (proj2 (Z.leb_le _ _)) by lia. res_simpl.
  assert (Hz : zlen (take (Z.to_nat n) bs) = n) by (rewrite zlen_take by lia; lia).
  destruct (Z.ltb_spec 0 n).
  - rewrite strncpy_fresh by done. eexists. split; [done|]. split; [done|]. split; [done | by apply str_ok_take].
  - assert (n = 0) as -> by lia. exists empty_cstr. split; [done|]. split; [done|]. split; [done | by apply str_ok_take].
Qed.
Lemma of_cstr_spec bs r : str_ok bs -> exists s, of_cstr (bs ++ 0 :: r) = Ok s /\ repr s bs.
Proof.
  intros Hb. pose proof (zlen_nonneg bs). unfold of_cstr. rewrite strlen_spec by done. res_simpl. destruct (Z.ltb_spec 0 (zlen bs)).
  - rewrite strcpy_eq, strlen_spec by done. res_simpl. rewrite strncpy_fresh by (done || lia). eexists. split; [done|].
    rewrite take_ge by (unfold zlen; lia). done.
  - assert (bs = []) as -> by (destruct bs; [done | unfold zlen in *; cbn in *; lia]). by eexists.
Qed.
Lemma substr_spec s bs b n : repr s bs -> 0 <= b -> 0 <= n -> b + n <= zlen bs ->
  exists t, substr s b n = Ok t /\ repr t (take (Z.to_nat n) (drop (Z.to_nat b) bs)).
Proof.
  intros (Ec & El & Hb) H1 H2 H3. unfold substr. rewrite (str_ok_u32 bs) by (done || lia). rewrite El, (proj2 (Z.leb_le _ _)) by lia. res_simpl.
  rewrite Ec, drop_app_le by (unfold zlen in H3; lia). apply of_cstr_len_spec; [by apply str_ok_drop|]. rewrite zlen_drop by lia. lia.
Qed.
Lemma cstr_copy_spec s bs : repr s bs -> exists t, cstr_copy s = Ok t /\ repr t bs.
Proof.
  intros (Ec & El & Hb). pose proof (zlen_nonneg bs). unfold cstr_copy. rewrite El. destruct (Z.ltb_spec 0 (zlen bs)).
  - rewrite (str_ok_u32 bs) by (done || lia). assert (Hs := malloc_size (zlen bs + 1) ltac:(lia)). unfold memcpy. rewrite Hs, Z.leb_refl, Ec.
    assert (HL : zlen (bs ++ [0]) = zlen bs + 1) by (by rewrite zlen_app). rewrite HL, Z.leb_refl. cbn [andb]. res_simpl. eexists. split; [done|].
    split; [|done]. cbn [cstr]. unfold splice. change (Z.to_nat 0) with 0%nat. rewrite take_0, app_nil_l. rewrite take_ge by (unfold zlen in *; lia).
    rewrite drop_ge; [by rewrite app_nil_r|]. unfold zlen in *. lia.
  - assert (bs = []) as -> by (destruct bs; [done | unfold zlen in *; cbn in *; lia]). by eexists.
Qed.
Lemma cstr_plus_spec a b x y : repr a x -> repr b y -> zlen x + zlen y < MAXS -> exists t, cstr_plus a b = Ok t /\ repr t (x ++ y).
Proof.
  intros (Ea & La & Hx) (Eb & Lb & Hy) Hz. pose proof (zlen_nonneg x). pose proof (zlen_nonneg y).
  assert (Hxy : str_ok (x ++ y)) by (split; [apply Forall_app; split; [apply Hx | apply Hy] | by rewrite zlen_app]).
  unfold cstr_plus. cbv zeta. rewrite La, Lb. rewrite !(str_ok_u32 (x ++ y)) by (done || (rewrite zlen_app; lia)).
  set (buf := replicate _ 0). assert (HB : buf = replicate (length x) 0 ++ replicate (S (length y)) 0).
  { unfold buf. rewrite <- replicate_add. f_equal. unfold zlen. lia. }
  assert (E1 : (if negb (zlen x =? 0) then strncpy buf (cstr a) (zlen x) else Ok buf) = Ok (x ++ 0 :: replicate (length y) 0)).
  { destruct (Z.eqb_spec (zlen x) 0) as [E0|_]; cbn [negb].
    - assert (x = []) as -> by (destruct x; [done | unfold zlen in E0; cbn in E0; lia]). by rewrite HB.
    - rewrite Ea, strncpy_spec; [|done | lia |].
      + do 2 f_equal; [apply take_ge; unfold zlen; lia|]. f_equal. rewrite HB, drop_app_ge by (rewrite length_replicate; unfold zlen; lia).
        rewrite length_replicate. replace (Z.to_nat (zlen x) + 1 - length x)%nat with 1%nat by (unfold zlen; lia). done.
      + rewrite HB. unfold zlen in *. rewrite length_app, !length_replicate. lia. }
  rewrite E1. res_simpl.
  assert (E2 : (if negb (zlen y =? 0) then strncat (x ++ 0 :: replicate (length y) 0) (cstr b) (zlen y) else Ok (x ++ 0 :: replicate (length y) 0)) = Ok (x ++ y ++ [0])).
  { destruct (Z.eqb_spec (zlen y) 0) as [E0|_]; cbn [negb].
    - assert (y = []) as -> by (destruct y; [done | unfold zlen in E0; cbn in E0; lia]). done.
    - unfold strncat. rewrite strlen_spec by done. res_simpl. rewrite Eb, strlen_spec by done. res_simpl. rewrite Z.ltb_irrefl.
      rewrite drop_app_length', take_app_length' by (unfold zlen; lia). rewrite strncpy_spec; [|done | lia |].
      + res_simpl. rewrite take_ge by (unfold zlen; lia). do 4 f_equal. apply drop_ge. cbn. rewrite length_replicate. unfold zlen. lia.
      + unfold zlen. cbn. rewrite length_replicate. lia. }
  rewrite E2. res_simpl. rewrite app_assoc. destruct (of_cstr_len_spec (x ++ y) [] (zlen x + zlen y) Hxy) as (t & Et & Rt); [rewrite zlen_app; lia|].
  exists t. split; [done|]. rewrite take_ge in Rt; [done|]. rewrite length_app. unfold zlen. lia.
Qed.

(** ** Trimming *)
Lemma repr_lookup s bs i : repr s bs -> 0 <= i < zlen bs -> cstr s !! Z.to_nat i = bs !! Z.to_nat i.
Proof. intros (-> & _) Hi. apply lookup_app_l. unfold zlen in Hi. lia. Qed.
Lemma rtrim_loop_spec s bs x c k fuel : repr s bs -> bs = x ++ c :: replicate k 32 -> (c <> 32 \/ x = []) -> (k < fuel)%nat ->
  rtrim_loop fuel (cstr s) (zlen x + Z.of_nat k) = Ok (zlen x).
Proof.
  intros Hs E Hc. pose proof (zlen_nonneg x). assert (HL : zlen bs = zlen x + Z.of_nat k + 1) by (subst; rewrite zlen_app; unfold zlen; cbn; rewrite length_replicate; lia).
  assert (Hd : forall j, (0 < j <= k)%nat -> bs !! (length x + j)%nat = Some 32).
  { intros j Hj. rewrite E, lookup_app_r by lia. replace (length x + j - length x)%nat with (S (j - 1)) by lia. cbn. apply lookup_replicate_2. lia. }
  assert (Hx0 : bs !! length x = Some c) by (rewrite E, lookup_app_r, Nat.sub_diag by lia; done).
  assert (Hk : exists j, j = k) by eauto. destruct Hk as [j Ej]. rewrite <- Ej. assert (Hj : (j <= k)%nat) by lia. clear Ej.
  revert fuel. induction j as [|j IH]; intros [|fuel] Hf; try lia; cbn [rtrim_loop].
  - rewrite Z.add_0_r. destruct (Z.ltb_spec 0 (zlen x)) as [Hx|]; [|done]. rewrite (repr_lookup s bs) by (done || lia).
    replace (Z.to_nat (zlen x)) with (length x) by (unfold zlen; lia). rewrite Hx0. destruct Hc as [Hc| ->]; [|done]. by rewrite (proj2 (Z.eqb_neq c 32)).
  - rewrite (proj2 (Z.ltb_lt _ _)) by lia. rewrite (repr_lookup s bs) by (done || lia).
    replace (Z.to_nat (zlen x + Z.of_nat (S j))) with (length x + S j)%nat by (unfold zlen; lia). rewrite Hd by lia. cbn [Z.eqb].
    replace (zlen x + Z.of_nat (S j) - 1) with (zlen x + Z.of_nat j) by lia. apply IH; lia.
Qed.
Lemma rtrim_spec s x c k : repr s (x ++ c :: replicate k 32) -> c <> 32 \/ x = [] -> exists t, rtrim s = Ok t /\ repr t (x ++ [c]).
Proof.
  intros Hs Hc. pose proof Hs as (Ec & El & Hb). pose proof (zlen_nonneg x).
  assert (HL : zlen (x ++ c :: replicate k 32) = zlen x + Z.of_nat k + 1) by (rewrite zlen_app; unfold zlen; cbn; rewrite length_replicate; lia).
  unfold rtrim. rewrite El, HL, (proj2 (Z.eqb_neq _ _)) by lia. replace (zlen x + Z.of_nat k + 1 - 1) with (zlen x + Z.of_nat k) by lia.
  erewrite rtrim_loop_spec; [|done..|lia]. res_simpl. rewrite (str_ok_u32 _ _ Hb) by lia. rewrite Ec.
  destruct (of_cstr_len_spec _ [] (zlen x + 1) Hb) as (t & Et & Rt); [lia|]. exists t. split; [done|].
  replace (x ++ c :: replicate k 32) with ((x ++ [c]) ++ replicate k 32) in Rt by (by rewrite <- app_assoc).
  rewrite take_app_length' in Rt; [done|]. rewrite length_app. cbn. unfold zlen. lia.
Qed.
Lemma ltrim_loop_spec s j y fuel : repr s (replicate j 32 ++ y) -> head y <> Some 32 -> (j < fuel)%nat ->
  forall i, (i <= j)%nat -> (j - i < fuel)%nat -> ltrim_loop fuel (cstr s) (len s) (Z.of_nat i) = Ok (Z.of_nat j).
Proof.
  intros Hs Hy _. pose proof Hs as (Ec & El & Hb). rewrite El. assert (HL : zlen (replicate j 32 ++ y) = Z.of_nat j + zlen y) by (rewrite zlen_app; unfold zlen; rewrite length_replicate; lia).
  pose proof (zlen_nonneg y). induction fuel as [|fuel IH]; [lia|]. intros i Hi Hf. cbn [ltrim_loop]. rewrite HL. destruct (Z.ltb_spec (Z.of_nat i) (Z.of_nat j + zlen y)).
  - rewrite (repr_lookup s _ _ Hs) by lia. rewrite Nat2Z.id. destruct (decide (i = j)) as [->|].
    + rewrite lookup_app_r, length_replicate, Nat.sub_diag by (rewrite length_replicate; lia). destruct y as [|c y]; [unfold zlen in *; cbn in *; lia|].
      cbn. destruct (Z.eqb_spec c 32); [by subst | done].
    + rewrite lookup_app_l by (rewrite length_replicate; lia). rewrite lookup_replicate_2 by lia. cbn [Z.eqb]. rewrite <- HL. replace (Z.of_nat i + 1) with (Z.of_nat (S i)) by lia. apply IH; lia.
  - f_equal. lia.
Qed.
Lemma ltrim_spec s j y : repr s (replicate j 32 ++ y) -> head y <> Some 32 -> exists t, ltrim s = Ok t /\ repr t y.
Proof.
  intros Hs Hy. pose proof Hs as (Ec & El & Hb). assert (HL : zlen (replicate j 32 ++ y) = Z.of_nat j + zlen y) by (rewrite zlen_app; unfold zlen; rewrite length_replicate; lia).
  pose proof (zlen_nonneg y). unfold ltrim. rewrite El, HL. destruct (Z.eqb_spec (Z.of_nat j + zlen y) 0).
  - assert (y = []) as -> by (destruct y; [done | unfold zlen in *; cbn in *; lia]). by exists empty_cstr.
  - pose proof (ltrim_loop_spec s j y (S (Z.to_nat (Z.of_nat j + zlen y))) Hs Hy ltac:(lia) 0 ltac:(lia) ltac:(lia)) as E. rewrite El, HL in E. change (Z.of_nat 0) with 0 in E. rewrite E. res_simpl.
    rewrite Ec, Nat2Z.id, <- app_assoc, drop_app_length' by (by rewrite length_replicate). destruct (of_cstr_len_spec y [] (zlen y)) as (t & Et & Rt); [by apply str_ok_app in Hb as [_ ?] | lia|].
    exists t. replace (Z.of_nat j + zlen y - Z.of_nat j) with (zlen y) by lia. split; [done|]. rewrite take_ge in Rt; [done | unfold zlen; lia].
Qed.
Lemma trim_spec s j k x c : repr s (replicate j 32 ++ (x ++ c :: replicate k 32)) -> head (x ++ [c]) <> Some 32 -> c <> 32 ->
  exists t, trim s = Ok t /\ repr t (x ++ [c]).
Proof.
  intros Hs Hy Hc. unfold trim. destruct (ltrim_spec _ _ _ Hs) as (t & -> & Rt); [by destruct x|]. res_simpl. apply (rtrim_spec t x c k Rt). by left.
Qed.
(** Of a string of blanks the loop keeps the first. *)
Lemma rtrim_blank s k : repr s (replicate (S k) 32) -> exists t, rtrim s = Ok t /\ repr t [32].
Proof. intros Hs. apply (rtrim_spec s [] 32 k Hs). by right. Qed.

(** ** Searching *)
Lemma is_prefix_spec p s : is_prefix p s = true <-> p `prefix_of` s.
Proof.
  revert s. induction p as [|a p IH]; intros [|b s]; cbn.
  - split; [intros _; by exists [] | done].
  - split; [intros _; by exists (b :: s) | done].
  - split; [done | by intros [k Hk]].
  - rewrite andb_true_iff, IH, Z.eqb_eq. split; [intros [-> [k ->]]; by exists k | intros [k Hk]; cbn in Hk; simplify_eq; split; [done | by exists k]].
Qed.
Lemma strstr_hit d x s : (forall j, (j < length x)%nat -> ~ d `prefix_of` drop j (x ++ d ++ s)) -> strstr (x ++ d ++ s) d = Some (length x).
Proof.
  induction x as [|a x IH]; intros Hx.
  - destruct (d ++ s) eqn:E; cbn; rewrite <- ?E; by rewrite (proj2 (is_prefix_spec _ _)) by (exists s; done).
  - cbn [app strstr]. destruct (is_prefix d (a :: x ++ d ++ s)) eqn:Ep.
    + apply is_prefix_spec in Ep. destruct (Hx 0%nat); [cbn; lia | done].
    + rewrite IH; [done|]. intros j Hj. apply (Hx (S j)). cbn. lia.
Qed.
Lemma strstr_miss d s : (forall j, ~ d `prefix_of` drop j s) -> strstr s d = None.
Proof.
  induction s as [|a s IH]; intros Hs; cbn [strstr]; destruct (is_prefix d _) eqn:Ep; try (apply is_prefix_spec in Ep; by destruct (Hs 0%nat)); [done|].
  rewrite IH; [done|]. intros j. apply (Hs (S j)).
Qed.
Lemma strstr_first d s : match strstr s d with
  | Some i => exists x r, s = x ++ d ++ r /\ i = length x /\ forall j, (j < length x)%nat -> ~ d `prefix_of` drop j s
  | None => d <> [] -> forall j, ~ d `prefix_of` drop j s
  end.
Proof.
  induction s as [|a s IH]; cbn [strstr]; destruct (is_prefix d _) eqn:Ep.
  - apply is_prefix_spec in Ep as [r Er]. exists [], r. cbn. split; [done|]. split; [done | lia].
  - intros Hd j. rewrite drop_nil. intros [r Er]. symmetry in Er. by apply app_nil in Er as [? _].
  - apply is_prefix_spec in Ep as [r Er]. exists [], r. cbn. split; [done|]. split; [done | lia].
  - assert (Hp : ~ d `prefix_of` a :: s) by (intros H1; apply is_prefix_spec in H1; congruence).
    destruct (strstr s d) as [i|]; cbn.
    + destruct IH as (x & r & E & -> & Hx). exists (a :: x), r. split; [by rewrite E|]. split; [done|]. intros [|j] Hj; [done | apply Hx; cbn in Hj; lia].
    + intros Hd [|j]; [done | by apply IH].
Qed.
Lemma strpos_eq xs ys : str_ok xs -> Forall (fun c => c <> 0) ys ->
  strpos (xs ++ [0]) (ys ++ [0]) = match strstr xs ys with Some i => Z.of_nat i | None => -1 end.
Proof.
  intros Hx Hy. unfold strpos. rewrite !chars_spec by (done || apply Hx). pose proof (strstr_first ys xs) as Hf. destruct (strstr xs ys) as [i|]; [|done].
  destruct Hf as (x & r & E & -> & _). unfold i32. rewrite Z.mod_small; [lia|]. destruct Hx as [_ Hx]. rewrite E, zlen_app in Hx. pose proof (zlen_nonneg (ys ++ r)). unfold MAXS, zlen in *. lia.
Qed.

(** ** The reference: a string in pieces *)

(** [cut d s ps]: the pieces [ps] of [s] between the occurrences of [d], from the left. *)
Inductive cut (d : list Z) : list Z -> list (list Z) -> Prop :=
| cut_last s : (forall j, ~ d `prefix_of` drop j s) -> cut d s [s]
| cut_hit x s ps : (forall j, (j < length x)%nat -> ~ d `prefix_of` drop j (x ++ d ++ s)) -> cut d s ps -> cut d (x ++ d ++ s) (x :: ps).
(** The pieces with [r] between them. *)
Fixpoint glue (r : list Z) (ps : list (list Z)) : list Z :=
  match ps with [] => [] | [p] => p | p :: ps' => p ++ r ++ glue r ps' end.

Lemma cut_exists d s : d <> [] -> exists ps, cut d s ps.
Proof.
  intros Hd. remember (length s) as n eqn:En. revert s En. induction n as [n IH] using (well_founded_induction lt_wf). intros s ->.
  pose proof (strstr_first d s) as Hf. destruct (strstr s d) as [i|].
  - destruct Hf as (x & r & E & _ & Hx). destruct (IH (length r)) with (s := r) as [ps Hp]; [|done|].
    + rewrite E, !length_app. destruct d; [done | cbn; lia].
    + exists (x :: ps). rewrite E in *. by constructor.
  - exists [s]. constructor. by apply Hf.
Qed.
Lemma cut_glue d s ps : cut d s ps -> glue d ps = s.
Proof. induction 1 as [|x s ps Hx Hc IH]; [done|]. cbn. rewrite IH. by destruct Hc. Qed.
Lemma cut_pieces d s ps : cut d s ps -> (0 < length ps)%nat /\ (d <> [] -> (length ps <= S (length s))%nat).
Proof.
  induction 1 as [|x s ps Hx Hc [IH1 IH2]]; cbn; [split; lia|]. split; [lia|]. intros Hd. specialize (IH2 Hd). rewrite !length_app. destruct d; [done | cbn; lia].
Qed.
(** Pieces that lack the first character of the delimiter are the pieces of what they make. *)
Lemma cut_of_glue c d ps : ps <> [] -> Forall (fun p => c ∉ p) ps -> cut (c :: d) (glue (c :: d) ps) ps.
Proof.
  intros Hne Hp. assert (Hin : forall p y j, c ∉ p -> (j < length p)%nat -> ~ (c :: d) `prefix_of` drop j (p ++ y)).
  { intros p y j Hc Hj [k Hk]. rewrite drop_app_le in Hk by lia. destruct (drop j p) as [|b q] eqn:Eq.
    - apply (f_equal length) in Eq. rewrite length_drop in Eq. cbn in Eq. lia.
    - cbn in Hk. simplify_eq. apply Hc. rewrite <- (take_drop j p), Eq. set_solver. }
  induction Hp as [|p ps Hc Hps IH]; [done|]. destruct ps as [|q ps].
  - cbn. constructor. intros j. destruct (decide (j < length p)%nat) as [Hj|Hj]; [rewrite <- (app_nil_r p); by apply Hin|].
    rewrite drop_ge by lia. by intros [k Hk].
  - change (glue (c :: d) (p :: q :: ps)) with (p ++ (c :: d) ++ glue (c :: d) (q :: ps)). constructor; [intros j Hj; by apply Hin | by apply IH].
Qed.

(** ** Splitting and joining *)
Lemma repr_unique s t bs : repr s bs -> repr t bs -> s = t.
Proof. destruct s, t. unfold repr. cbn. intros (-> & -> & _) (-> & -> & _). done. Qed.
Definition full (p : list Z) : bool := match p with [] => false | _ => true end.

Lemma from_cstr s x y : repr s (x ++ y) -> drop (length x) (cstr s) = y ++ [0].
Proof. intros (-> & _). rewrite <- app_assoc. by rewrite drop_app_length. Qed.

Lemma split_loop_spec s bs dl db y ps : repr s bs -> repr dl db -> db <> [] -> cut db y ps ->
  forall z fuel result, bs = z ++ y -> (length ps <= fuel)%nat ->
  exists out z' y' qs, split_loop fuel (cstr s) (len s) (zlen z) dl result = Ok (result ++ out, zlen z') /\
    bs = z' ++ y' /\ ps = qs ++ [y'] /\ Forall2 repr out (List.filter full qs).
Proof.
  intros Hs Hdl Hne Hc. pose proof Hdl as (Ed & Ld & Hdb). pose proof Hs as (_ & Ls & Hb). induction Hc as [y Hm|x y ps Hx Hc IH]; intros z [|fuel] result E Hf; cbn in Hf; try lia; cbn [split_loop].
  - exists [], z, y, []. rewrite app_nil_r. split; [|done]. destruct (zlen z <? len s); [|done].
    replace (Z.to_nat (zlen z)) with (length z) by (unfold zlen; lia). subst bs. rewrite (from_cstr s z y Hs), Ed, strpos_eq by (apply Hdb || by apply str_ok_app in Hb as [_ ?]).
    by rewrite (strstr_miss _ _ Hm).
  - assert (Hdl0 : 0 < zlen db) by (destruct db; [done | unfold zlen; cbn; lia]). pose proof (zlen_nonneg x). pose proof (zlen_nonneg y). pose proof (zlen_nonneg z).
    assert (HL : zlen bs = zlen z + (zlen x + (zlen db + zlen y))) by (by rewrite E, !zlen_app).
    rewrite Ls, (proj2 (Z.ltb_lt _ _)) by lia. replace (Z.to_nat (zlen z)) with (length z) by (unfold zlen; lia).
    assert (Hs' := Hs). rewrite E in Hs'. rewrite (from_cstr s z _ Hs'). assert (Hxy : str_ok (x ++ db ++ y)) by (rewrite E in Hb; by apply str_ok_app in Hb as [_ ?]).
    rewrite Ed, strpos_eq by (done || apply Hdb). rewrite (strstr_hit _ _ _ Hx). rewrite (proj2 (Z.eqb_neq _ _)) by lia.
    destruct (of_cstr_len_spec (x ++ db ++ y) [] (zlen x) Hxy) as (t & Et & Rt); [rewrite zlen_app, zlen_app; lia|].
    change (Z.of_nat (length x)) with (zlen x). rewrite Et. res_simpl. rewrite take_app_length' in Rt by (unfold zlen; lia). rewrite Ld.
    rewrite (str_ok_u32 bs (zlen x + zlen db)) by (done || lia). rewrite (str_ok_u32 bs (zlen z + (zlen x + zlen db))) by (done || lia). replace (zlen z + (zlen x + zlen db)) with (zlen (z ++ x ++ db)) by (rewrite !zlen_app; lia).
    destruct (IH (z ++ x ++ db) fuel (if 0 <? len t then result ++ [t] else result)) as (out & z' & y' & qs & Eo & Eb & Ep & Ho); [by rewrite E, <- !app_assoc | lia|].
    rewrite <- Ls, Eo. pose proof Rt as (_ & Lt & _). exists (if 0 <? len t then t :: out else out), z', y', (x :: qs). rewrite Lt.
    split; [destruct (0 <? zlen x); [by rewrite <- app_assoc | done]|]. split; [done|]. split; [by rewrite Ep|].
    destruct x; [done|]. rewrite (proj2 (Z.ltb_lt _ _)) by (unfold zlen; cbn; lia). cbn. by constructor.
Qed.
Lemma split_spec s bs dl db ps : repr s bs -> repr dl db -> db <> [] -> cut db bs ps ->
  exists out, split (S (length bs)) s dl = Ok out /\ Forall2 repr out (List.filter full ps).
Proof.
  intros Hs Hdl Hne Hc. pose proof (proj2 (cut_pieces _ _ _ Hc) Hne) as Hf. destruct (split_loop_spec s bs dl db bs ps Hs Hdl Hne Hc [] (S (length bs)) [] eq_refl Hf) as (out & z & y & qs & E & Eb & -> & Ho).
  unfold split. change 0 with (@zlen Z []). rewrite E. res_simpl. pose proof Hs as (Ec & Ls & Hb). pose proof (zlen_nonneg z). pose proof (zlen_nonneg y).
  assert (HL : zlen bs = zlen z + zlen y) by (by rewrite Eb, zlen_app). change (@zlen Z []) with 0.
  rewrite Ls, !(str_ok_u32 bs) by (done || lia). replace (zlen bs - zlen z) with (zlen y) by lia. rewrite List.filter_app. destruct y as [|c y].
  - exists out. cbn. by rewrite app_nil_r.
  - rewrite (proj2 (Z.ltb_lt _ _)) by (unfold zlen; cbn; lia). replace (Z.to_nat (zlen z)) with (length z) by (unfold zlen; lia).
    subst bs. rewrite (from_cstr s z _ Hs). destruct (of_cstr_len_spec (c :: y) [] (zlen (c :: y))) as (t & Et & Rt); [by apply str_ok_app in Hb as [_ ?] | lia|].
    rewrite Et. res_simpl. exists (out ++ [t]). split; [done|]. apply Forall2_app; [done|]. cbn. constructor; [|constructor]. rewrite take_ge in Rt; [done | unfold zlen; lia].
Qed.

Lemma join_loop_spec dl db r ss ps : repr dl db -> Forall2 repr ss ps -> forall t, repr t r ->
  zlen r + zlen (concat (map (fun p => db ++ p) ps)) < MAXS -> exists u, join_loop ss dl t = Ok u /\ repr u (r ++ concat (map (fun p => db ++ p) ps)).
Proof.
  intros Hdl Hp. revert r. induction Hp as [|s p ss ps Hs Hps IH]; intros r t Ht HL; cbn [join_loop map concat].
  - rewrite app_nil_r. by exists t.
  - cbn [map concat] in HL. rewrite !zlen_app in HL. pose proof (zlen_nonneg p). pose proof (zlen_nonneg (concat (map (fun p => db ++ p) ps))).
    destruct (cstr_plus_spec t dl r db Ht Hdl) as (t1 & -> & R1); [lia|]. res_simpl.
    destruct (cstr_plus_spec t1 s _ p R1 Hs) as (t2 & -> & R2); [rewrite zlen_app; lia|]. res_simpl.
    destruct (IH _ t2 R2) as (u & -> & Ru); [rewrite !zlen_app; lia|]. exists u. split; [done|]. by rewrite <- !app_assoc in *.
Qed.
Lemma glue_cons d p ps : glue d (p :: ps) = p ++ concat (map (fun q => d ++ q) ps).
Proof. revert p. induction ps as [|q ps IH]; intros p; [by rewrite app_nil_r|]. change (glue d (p :: q :: ps)) with (p ++ d ++ glue d (q :: ps)). rewrite IH. cbn. by rewrite <- !app_assoc. Qed.
Lemma join_spec dl db ss ps t r : repr dl db -> Forall2 repr ss ps -> repr t r -> zlen r + zlen (glue db ps) < MAXS ->
  exists u, join ss dl t = Ok u /\ repr u (r ++ glue db ps).
Proof.
  intros Hdl Hp Ht HL. destruct Hp as [|s p ss ps Hs Hps]; [exists t; cbn; by rewrite app_nil_r|].
  rewrite glue_cons in *. rewrite zlen_app in HL. pose proof (zlen_nonneg (concat (map (fun p => db ++ p) ps))).
  cbn [join]. destruct (cstr_plus_spec t s r p Ht Hs) as (t1 & -> & R1); [lia|]. res_simpl.
  destruct (join_loop_spec dl db _ ss ps Hdl Hps t1 R1) as (u & -> & Ru); [rewrite zlen_app; lia|]. exists u. by rewrite <- app_assoc in Ru.
Qed.

(** ** Replacing *)

(** One round: the first occurrence gives way. *)
Lemma replace_round s dl rl db r x y fuel result count : repr s (x ++ db ++ y) -> repr dl db -> repr rl r ->
  (forall j, (j < length x)%nat -> ~ db `prefix_of` drop j (x ++ db ++ y)) -> zlen x + zlen r + zlen y < MAXS ->
  exists t, repr t (x ++ r ++ y) /\ replace_loop (S fuel) s dl rl result count = replace_loop fuel t dl rl t (count + 1).
Proof.
  intros Hs Hdl Hrl Hx HL. pose proof Hs as (Ec & Ls & Hb). pose proof Hdl as (Ed & Ld & Hdb).
  pose proof (zlen_nonneg x). pose proof (zlen_nonneg y). pose proof (zlen_nonneg db). pose proof (zlen_nonneg r).
  assert (Hz : zlen (x ++ db ++ y) = zlen x + (zlen db + zlen y)) by (by rewrite !zlen_app).
  cbn [replace_loop]. rewrite Ec, Ed, strpos_eq by (done || apply Hdb). rewrite (strstr_hit _ _ _ Hx). change (Z.of_nat (length x)) with (zlen x). rewrite (proj2 (Z.eqb_neq (zlen x) (-1))) by lia.
  destruct (substr_spec s _ 0 (zlen x) Hs) as (a & -> & Ra); [lia..|]. res_simpl. change (Z.to_nat 0) with 0%nat in Ra. rewrite drop_0, take_app_length' in Ra by (unfold zlen; lia).
  destruct (cstr_plus_spec a rl x r Ra Hrl) as (b & -> & Rb); [lia|]. res_simpl. rewrite Ld, Ls.
  rewrite !(str_ok_u32 (x ++ db ++ y) (zlen x + zlen db)) by (done || lia). rewrite (str_ok_u32 (x ++ db ++ y)) by (done || lia).
  destruct (substr_spec s _ (zlen x + zlen db) (zlen (x ++ db ++ y) - (zlen x + zlen db)) Hs) as (c & -> & Rc); [lia..|]. res_simpl.
  rewrite app_assoc, drop_app_length' in Rc by (rewrite length_app; unfold zlen; lia). rewrite take_ge in Rc by (rewrite zlen_app, zlen_app; unfold zlen; lia).
  destruct (cstr_plus_spec b c _ y Rb Rc) as (t & -> & Rt); [rewrite zlen_app; lia|]. res_simpl. rewrite <- app_assoc in Rt. by exists t.
Qed.

(** A beginning in which no occurrence starts, whatever follows. *)
Definition clean (d w : list Z) : Prop := forall y j, (j < length w)%nat -> ~ d `prefix_of` drop j (w ++ y).
Lemma clean_grows d w x r y : clean d w -> d <> [] -> r <> [] -> (forall c, c ∈ d -> c ∉ r) ->
  (forall j, (j < length x)%nat -> ~ d `prefix_of` drop j (x ++ d ++ y)) -> clean d (w ++ x ++ r).
Proof.
  intros Hw Hd Hr Hdr Hx z j Hj Hp. rewrite <- !app_assoc in Hp. destruct (decide (j < length w)%nat) as [|Hjw]; [by eapply Hw|].
  rewrite drop_app_ge in Hp by lia. set (i := (j - length w)%nat) in *. rewrite !length_app in Hj. destruct (decide (i < length x)%nat) as [Hi|Hi].
  - rewrite drop_app_le in Hp by lia. destruct r as [|c r]; [done|]. destruct Hp as [k Hk]. apply app_eq_inv in Hk as [(q & E & _)|(q & E & Hq)].
    + apply (Hx i Hi). rewrite drop_app_le by lia. rewrite E. exists (q ++ d ++ y). by rewrite <- app_assoc.
    + destruct q as [|b q]; [|cbn in Hq; simplify_eq; apply (Hdr b); rewrite ?E; set_solver].
      apply (Hx i Hi). rewrite drop_app_le by lia. exists (d ++ y). by rewrite E at 2; rewrite app_nil_r.
  - rewrite drop_app_ge in Hp by lia. rewrite drop_app_le in Hp by (unfold i in *; lia). destruct (drop (i - length x) r) as [|c q] eqn:Eq.
    + apply (f_equal length) in Eq. rewrite length_drop in Eq. cbn in Eq. unfold i in *. lia.
    + destruct d as [|b d]; [done|]. destruct Hp as [k Hk]. cbn in Hk. simplify_eq. apply (Hdr b); [set_solver|]. rewrite <- (take_drop (i - length x) r), Eq. set_solver.
Qed.
Lemma clean_first d w x y : clean d w -> (forall j, (j < length x)%nat -> ~ d `prefix_of` drop j (x ++ d ++ y)) ->
  forall j, (j < length (w ++ x))%nat -> ~ d `prefix_of` drop j ((w ++ x) ++ d ++ y).
Proof.
  intros Hw Hx j Hj. rewrite <- app_assoc. rewrite length_app in Hj. destruct (decide (j < length w)%nat); [by apply Hw|]. rewrite drop_app_ge by lia. apply Hx. lia.
Qed.

Lemma replace_loop_spec dl rl db r y ps : repr dl db -> repr rl r -> db <> [] -> r <> [] -> (forall c, c ∈ db -> c ∉ r) -> cut db y ps ->
  forall w s fuel result count, repr s (w ++ y) -> clean db w -> (length ps <= fuel)%nat -> zlen w + zlen y + zlen y * zlen r < MAXS ->
  exists t, replace_loop fuel s dl rl result count = Ok (t, count + Z.of_nat (length ps) - 1) /\
    match ps with [_] => t = result | _ => repr t (w ++ glue r ps) end.
Proof.
  intros Hdl Hrl Hd Hr Hdr Hc. pose proof Hdl as (Ed & Ld & Hdb). induction Hc as [y Hm|x y ps Hx Hc IH]; intros w s [|fuel] result count Hs Hw Hf HL; cbn in Hf; try lia.
  - exists result. split; [|done]. cbn [replace_loop]. pose proof Hs as (Ec & Ls & Hb). rewrite Ec, Ed, strpos_eq by (done || apply Hdb).
    rewrite strstr_miss; [cbn; do 2 f_equal; lia|]. intros j. destruct (decide (j < length w)%nat); [by apply Hw|]. rewrite drop_app_ge by lia. apply Hm.
  - rewrite !zlen_app in HL. pose proof (zlen_nonneg x). pose proof (zlen_nonneg y). pose proof (zlen_nonneg w). pose proof (zlen_nonneg r).
    assert (0 < zlen db) by (destruct db; [done | unfold zlen; cbn; lia]). assert (0 < zlen r) by (destruct r; [done | unfold zlen; cbn; lia]).
    assert (HL' : zlen w + zlen x + zlen r + zlen y + zlen y * zlen r < MAXS) by nia. clear HL. rewrite app_assoc in Hs.
    destruct (replace_round s dl rl db r (w ++ x) y fuel result count Hs Hdl Hrl) as (t & Rt & ->); [by apply clean_first | rewrite zlen_app; nia|].
    rewrite <- app_assoc in Rt. assert (Rt' : repr t ((w ++ x ++ r) ++ y)) by (by rewrite <- !app_assoc).
    destruct (IH (w ++ x ++ r) t fuel t (count + 1) Rt') as (u & Eu & Hu); [by eapply clean_grows | lia | rewrite !zlen_app; lia|].
    exists u. rewrite Eu. split; [do 2 f_equal; cbn [length]; lia|]. destruct ps as [|p [|q ps]].
    + destruct (cut_pieces _ _ _ Hc) as [Hl _]. cbn in Hl. lia.
    + apply cut_glue in Hc. cbn in Hc. subst p. cbn. by rewrite Hu.
    + change (glue r (x :: p :: q :: ps)) with (x ++ r ++ glue r (p :: q :: ps)). by rewrite <- !app_assoc in Hu.
Qed.

(** ** The properties *)

(** Splitting a string at a delimiter that is not empty ends within one round for every
    character and one more, in a list of the string's pieces between the occurrences of the
    delimiter, without the empty ones; the pieces with the delimiter between them are the string. *)
Lemma split_cuts s bs dl db : repr s bs -> repr dl db -> db <> [] ->
  exists ps out, cut db bs ps /\ glue db ps = bs /\ split (S (length bs)) s dl = Ok out /\ Forall2 repr out (List.filter full ps).
Proof.
  intros Hs Hdl Hd. destruct (cut_exists db bs Hd) as [ps Hc]. destruct (split_spec s bs dl db ps Hs Hdl Hd Hc) as (out & Eo & Ho).
  exists ps, out. split; [done|]. split; [by apply cut_glue in Hc|]. done.
Qed.

(** Splitting undoes joining: strings that are not empty and lack the delimiter's first
    character, joined into an empty string and split again, are the strings. *)
Lemma split_join_cstr ss ps dl c db : Forall2 repr ss ps -> repr dl (c :: db) -> Forall (fun p => p <> [] /\ c ∉ p) ps -> zlen (glue (c :: db) ps) < MAXS ->
  exists u, join ss dl empty_cstr = Ok u /\ repr u (glue (c :: db) ps) /\ split (S (length (glue (c :: db) ps))) u dl = Ok ss.
Proof.
  intros Hss Hdl Hps HL. destruct (join_spec dl (c :: db) ss ps empty_cstr [] Hdl Hss) as (u & Eu & Ru); [split; [done|]; by split; [done | split; [constructor | done]] | done|].
  exists u. split; [done|]. split; [done|]. cbn [app] in Ru. assert (Hout : exists out, split (S (length (glue (c :: db) ps))) u dl = Ok out /\ Forall2 repr out ps).
  { destruct ps as [|p ps'] eqn:Ep.
    - apply (split_spec u [] dl (c :: db) [[]] Ru Hdl); [done|]. constructor. intros j. rewrite drop_nil. by intros [k Hk].
    - destruct (split_spec u _ dl (c :: db) ps Ru Hdl) as (out & Eo & Ho); [done | |].
      + rewrite <- Ep. apply cut_of_glue; [by rewrite Ep|]. eapply Forall_impl; [rewrite Ep; exact Hps | by intros q [_ ?]].
      + exists out. split; [done|]. rewrite <- Ep. replace ps with (List.filter full ps); [done|]. rewrite Ep. apply forallb_filter_id.
        apply forallb_forall. intros q Hq. rewrite Forall_forall in Hps. destruct (Hps q) as [Hq' _]; [by apply list_elem_of_In | by destruct q]. }
  destruct Hout as (out & -> & Ho). f_equal. clear -Hss Ho. revert out Ho. induction Hss as [|s p ss ps Hs _ IH]; intros out Ho; inversion Ho; subst; [done|].
  f_equal; [by eapply repr_unique | by apply IH].
Qed.

Lemma of_std_spec bs : str_ok bs -> exists s, of_std bs = Ok s /\ repr s bs.
Proof.
  intros Hb. pose proof (zlen_nonneg bs). unfold of_std. rewrite (str_ok_u32 bs) by (done || lia). destruct (of_cstr_len_spec bs [] (zlen bs) Hb) as (s & -> & Rs); [lia|].
  exists s. split; [done|]. by rewrite take_ge in Rs by (unfold zlen; lia).
Qed.
Lemma of_stds_spec ps : Forall str_ok ps -> exists ss, of_stds ps = Ok ss /\ Forall2 repr ss ps.
Proof.
  induction 1 as [|p ps Hp _ (ss & Es & Hs)]; [by exists []|]. destruct (of_std_spec p Hp) as (s & E & Rs). exists (s :: ss). cbn. rewrite E. res_simpl. rewrite Es. by split; [|constructor].
Qed.
Lemma to_std_spec s bs : repr s bs -> to_std s = bs.
Proof. intros (Ec & El & _). unfold to_std. rewrite Ec, El. apply take_app_length'. unfold zlen. lia. Qed.
Lemma to_stds_spec ss ps : Forall2 repr ss ps -> map to_std ss = ps.
Proof. induction 1 as [|s p ss ps Hs _ IH]; [done|]. cbn. by rewrite (to_std_spec s p Hs), IH. Qed.
Lemma glue_ok d ps : str_ok (glue d ps) -> Forall str_ok ps.
Proof.
  induction ps as [|p [|q ps] IH]; intros Hg; [constructor | by constructor|]. change (glue d (p :: q :: ps)) with (p ++ d ++ glue d (q :: ps)) in Hg.
  apply str_ok_app in Hg as [Hp Hg]. apply str_ok_app in Hg as [_ Hg]. constructor; [done | by apply IH].
Qed.

(** A zero byte inside a standard string fails the assertion of the constructor. *)
Lemma split_std_zero_byte fuel bs rest dl : str_ok bs -> zlen (bs ++ 0 :: rest) < MAXS -> split_std fuel (bs ++ 0 :: rest) dl = Fault AssertFailed.
Proof.
  intros Hb HL. rewrite zlen_app in HL. assert (HR : zlen (0 :: rest) = zlen rest + 1) by (unfold zlen; cbn [length]; lia). pose proof (zlen_nonneg rest). pose proof (zlen_nonneg bs).
  unfold split_std, of_std, of_cstr_len. rewrite <- app_assoc. cbn [app]. rewrite (strlen_spec bs (rest ++ [0])) by done. res_simpl.
  rewrite (u32_small (zlen (bs ++ 0 :: rest))) by (rewrite zlen_app; unfold MAXS in *; range_lia). rewrite zlen_app, (proj2 (Z.leb_gt _ _)) by lia. done.
Qed.

(** Replacing ends, within one round for every character of the source and one more, when the
    replacement is not empty and shares no character with a search string that is not empty: the
    result is the source's pieces with the replacement between them and the count the number of
    occurrences; with no occurrence the caller's result stays what it was. *)
Theorem replace_ends s bs dl db rl r result : repr s bs -> repr dl db -> repr rl r -> db <> [] -> r <> [] -> (forall c, c ∈ db -> c ∉ r) ->
  zlen bs + zlen bs * zlen r < MAXS ->
  exists ps t, cut db bs ps /\ replace (S (length bs)) s dl rl result = Ok (t, Z.of_nat (length ps) - 1) /\
    match ps with [_] => t = result | _ => repr t (glue r ps) end.
Proof.
  intros Hs Hdl Hrl Hd Hr Hdr HL. destruct (cut_exists db bs Hd) as [ps Hc]. destruct (cstr_copy_spec s bs Hs) as (s' & Es & Rs).
  destruct (replace_loop_spec dl rl db r bs ps Hdl Hrl Hd Hr Hdr Hc [] s' (S (length bs)) result 0 Rs) as (t & Et & Ht);
    [intros y j Hj; cbn in Hj; lia | by apply cut_pieces in Hc as [_ Hc]; auto | done |].
  exists ps, t. unfold replace. rewrite Es. res_simpl. done.
Qed.

(** Replacing a string that occurs in the source by itself never ends, whatever the fuel. *)
Lemma replace_by_itself s dl db x y result fuel : repr s (x ++ db ++ y) -> repr dl db -> replace fuel s dl dl result = Fault Diverged.
Proof.
  intros Hs Hdl. destruct (cstr_copy_spec s _ Hs) as (s' & Es & Rs). unfold replace. rewrite Es. res_simpl. clear Es Hs s.
  pose proof (strstr_first db (x ++ db ++ y)) as Hf. destruct (strstr (x ++ db ++ y) db) as [i|] eqn:Ei.
  - destruct Hf as (x' & r & E & -> & Hx). rewrite E in Rs, Hx. clear Ei E x y. generalize 0 as count. revert s' Rs result.
    induction fuel as [|fuel IH]; intros s' Rs result count; [done|]. pose proof Rs as (_ & _ & [_ Hz]). rewrite !zlen_app in Hz.
    destruct (replace_round s' dl dl db db x' r fuel result count Rs Hdl Hdl Hx) as (t & Rt & ->); [lia | by apply IH].
  - exfalso. destruct db as [|c db]; [by destruct (x ++ [] ++ y)|]. apply (Hf ltac:(done) (length x)). rewrite drop_app_length. by exists y.
Qed.

(** An empty delimiter never moves the search on. *)
Lemma split_empty_delimiter s bs dl fuel : repr s bs -> bs <> [] -> repr dl [] -> split fuel s dl = Fault Diverged.
Proof.
  intros Hs Hne (Ed & Ld & _). pose proof Hs as (Ec & Ls & Hb). assert (0 < zlen bs) by (destruct bs; [done | unfold zlen; cbn; lia]).
  unfold split. assert (E : forall result, split_loop fuel (cstr s) (len s) 0 dl result = Fault Diverged).
  { induction fuel as [|fuel IH]; intros result; [done|]. cbn [split_loop]. rewrite Ls, (proj2 (Z.ltb_lt _ _)) by done. change (Z.to_nat 0) with 0%nat. rewrite drop_0, Ec, Ed, strpos_eq by (done || apply List.Forall_nil).
    destruct (of_cstr_len_spec bs [] 0 Hb) as (t & Et & Rt); [lia|]. assert (Ez : strstr bs [] = Some 0%nat) by (by destruct bs). rewrite Ez. change (Z.of_nat 0) with 0. change (0 =? -1) with false. rewrite Et. res_simpl.
    rewrite Ld. change (u32 (0 + u32 (0 + zlen []))) with 0. rewrite <- Ec, <- Ls. apply IH. }
  by rewrite E.
Qed.
End cstr.

(** ** Witnesses *)
Definition text (bs : list Z) : len_cstr := mk_cstr (bs ++ [0]) (zlen bs).
Lemma text_repr bs : forallb (fun c => negb (c =? 0)) bs = true -> (zlen bs <? MAXS) = true -> repr (text bs) bs.
Proof.
  intros Hb Hz. split; [done|]. split; [done|]. split; [|by apply Z.ltb_lt]. rewrite Forall_forall. rewrite forallb_forall in Hb. intros c Hc.
  apply list_elem_of_In, Hb in Hc. by destruct (Z.eqb_spec c 0).
Qed.

Lemma replace_ends_witness : exists ps t, cut [46] [97; 46; 98] ps /\
  replace 4 (text [97; 46; 98]) (text [46]) (text [45; 45]) empty_cstr = Ok (t, Z.of_nat (length ps) - 1) /\
  match ps with [_] => t = empty_cstr | _ => repr t (glue [45; 45] ps) end.
Proof. apply (replace_ends (text [97; 46; 98]) [97; 46; 98] (text [46]) [46] (text [45; 45]) [45; 45] empty_cstr); try (by apply text_repr); try done. set_solver. Defined.
Example replace_dashes : replace 4 (text [97; 46; 98]) (text [46]) (text [45; 45]) empty_cstr = Ok (text [97; 45; 45; 98], 1).
Proof. vm_compute. reflexivity. Qed.
