(* ===== verification/Ticker.v ===== *)
(** * Ticker: functions called at intervals ([include/wawo/thread/ticker.hpp])

    A ticker keeps functions in a fixed array of slots.  A thread calls those that are due, sleeps,
    and leaves when there is none; [schedule] starts the thread again.

    - [ticker]: the slots, the mutex, and the thread, of which [live] counts the loops that run;
      [tick]: the methods, over what the functions do when they are called;
    - [act_spec], [acts_spec]: the specification, a list of functions;
    - [ticker_refines]: any sequence of calls and passes follows it, with at most one loop and with
      one whenever there is a function;
    - [deschedule_unknown], [schedule_in_function_waits]: what goes wrong otherwise. *)

From S2P Require Import Prelude Effects.

(** Functions are known by their address; times are nanoseconds. *)
Record ticker_slot : Type := mk_slot { _fn : nat; _interval : Z; _last_tick : Z }.
Definition set_last_tick v s := mk_slot (_fn s) (_interval s) v.
Definition new_slot (fn : nat) (interval now : Z) : ticker_slot := mk_slot fn interval (now - interval).
Definition due (now : Z) (s : ticker_slot) : bool := _last_tick s + _interval s <=? now.

Record ticker : Type := mk_ticker {
  m_slots : list (option ticker_slot);
  m_mutex : bool;
  m_th : bool;
  m_total : Z;
  m_th_break : bool;
  live : nat;
  called : list nat
}.
Definition set_slots v w := mk_ticker v (m_mutex w) (m_th w) (m_total w) (m_th_break w) (live w) (called w).
Definition set_mutex v w := mk_ticker (m_slots w) v (m_th w) (m_total w) (m_th_break w) (live w) (called w).
Definition set_th v w := mk_ticker (m_slots w) (m_mutex w) v (m_total w) (m_th_break w) (live w) (called w).
Definition set_total v w := mk_ticker (m_slots w) (m_mutex w) (m_th w) v (m_th_break w) (live w) (called w).
Definition set_break v w := mk_ticker (m_slots w) (m_mutex w) (m_th w) (m_total w) v (live w) (called w).
Definition set_live v w := mk_ticker (m_slots w) (m_mutex w) (m_th w) (m_total w) (m_th_break w) v (called w).
Definition log_called v w := mk_ticker (m_slots w) (m_mutex w) (m_th w) (m_total w) (m_th_break w) (live w) (called w ++ [v]).

Module tick.
Section tick.
(** The template's arguments, and what a function does to this ticker. *)
Context (precision_interval : Z) (slot_max : nat) (call : nat -> M ticker unit).
Local Abbreviation MT := (M ticker).

Definition make : ticker := mk_ticker (replicate slot_max None) false false 0 false 0 [].

(** [lock_guard<spin_mutex>]: a spin mutex is not recursive. *)
Definition with_lock {A} (m : MT A) : MT A :=
  locked ← gets m_mutex;
  if (locked : bool) then fail Waits
  else modify (set_mutex true);; a ← m; modify (set_mutex false);; mret a.

Definition _check_start : MT unit :=
  th ← gets m_th; br ← gets m_th_break;
  if (th : bool) && negb br then mret tt
  else modify (set_th true);; n ← gets live; modify (set_live (S n));; modify (set_break false).

Definition schedule (fn : nat) (interval now : Z) : MT unit :=
  with_lock (
    assertM ((interval =? 0) || (precision_interval <=? interval));;
    total ← gets m_total; slots ← gets m_slots;
    assertM (total <? Z.of_nat slot_max);;
    assertM (match slots !! Z.to_nat total with Some None => true | _ => false end);;
    modify (set_slots (<[Z.to_nat total := Some (new_slot fn interval now)]> slots));;
    modify (set_total (total + 1));;
    _check_start).

(** The search reads a slot that may be empty. *)
Fixpoint find_fn (fn : nat) (n i : nat) (slots : list (option ticker_slot)) : res (option nat) :=
  match n with
  | O => Ok None
  | S n' =>
      match slots !! i with
      | Some (Some s) => if decide (_fn s = fn) then Ok (Some i) else find_fn fn n' (S i) slots
      | _ => Fault Undefined
      end
  end.
(** [m_slots[i] = m_slots[i+1]] up to the last. *)
Fixpoint shift (n i : nat) (slots : list (option ticker_slot)) : list (option ticker_slot) :=
  match n with O => slots | S n' => shift n' (S i) (<[i := default None (slots !! S i)]> slots) end.
Definition deschedule (fn : nat) : MT unit :=
  with_lock (
    total ← gets m_total; slots ← gets m_slots;
    assertM (0 <? total);;
    hit_idx ← lift (find_fn fn slot_max 0 slots);
    match hit_idx with
    | None => mret tt
    | Some i =>
        modify (set_slots (<[(slot_max - 1)%nat := None]> (shift (slot_max - 1 - i) i slots)));;
        modify (set_total (total - 1))
    end).

(** A turn of the loop of [_run]; a loop that is told to end is gone. *)
Fixpoint call_due (now : Z) (n i : nat) : MT unit :=
  match n with
  | O => mret tt
  | S n' =>
      slots ← gets m_slots;
      match slots !! i with
      | Some (Some s) =>
          when (due now s) (
            modify (log_called (_fn s));; call (_fn s);;
            modify (fun w => set_slots (<[i := Some (set_last_tick now s)]> (m_slots w)) w));;
          call_due now n' (S i)
      | _ => fail Undefined
      end
  end.
Definition _run (now : Z) : MT bool :=
  with_lock (
    total ← gets m_total;
    if total =? 0 then
      modify (set_break true);; n ← gets live; modify (set_live (pred n));; mret false
    else call_due now (Z.to_nat total) 0;; mret true).

(** The calls of the users and the turns of the thread, if there is one. *)
Inductive act : Type := A_schedule (fn : nat) (interval now : Z) | A_deschedule (fn : nat) | A_turn (now : Z).
Definition do_act (a : act) : MT unit :=
  match a with
  | A_schedule fn interval now => schedule fn interval now
  | A_deschedule fn => deschedule fn
  | A_turn now => n ← gets live; match n with O => mret tt | _ => _run now;; mret tt end
  end.
End tick.
End tick.
Import tick.

(** ** The specification: a list of functions with their last calls *)
Section spec.
Context (precision_interval : Z) (slot_max : nat).
Fixpoint remove_fn (fn : nat) (l : list ticker_slot) : list ticker_slot :=
  match l with [] => [] | s :: l' => if decide (_fn s = fn) then l' else s :: remove_fn fn l' end.
Definition after_turn (now : Z) (s : ticker_slot) : ticker_slot := if due now s then set_last_tick now s else s.

(** What is scheduled after an act, and what it calls; [None] for an act the ticker does not
    provide for. *)
Definition act_spec (a : act) (l : list ticker_slot) : option (list ticker_slot * list nat) :=
  match a with
  | A_schedule fn interval now =>
      if ((interval =? 0) || (precision_interval <=? interval)) && (length l <? slot_max)%nat then Some (l ++ [new_slot fn interval now], []) else None
  | A_deschedule fn => if existsb (fun s => Nat.eqb (_fn s) fn) l then Some (remove_fn fn l, []) else None
  | A_turn now => Some (after_turn now <$> l, _fn <$> filter (fun s => due now s = true) l)
  end.
Fixpoint acts_spec (acts : list act) (l : list ticker_slot) : option (list ticker_slot * list nat) :=
  match acts with
  | [] => Some (l, [])
  | a :: acts' => '(l, c) ← act_spec a l; '(l, c') ← acts_spec acts' l; Some (l, c ++ c')
  end.

(** The slots hold the list; a loop runs unless the last one was told to end. *)
Definition ticking (l : list ticker_slot) (w : ticker) : Prop :=
  (length l <= slot_max)%nat /\
  m_slots w = (Some <$> l) ++ replicate (slot_max - length l) None /\
  m_total w = Z.of_nat (length l) /\ m_mutex w = false /\
  live w = (if m_th w && negb (m_th_break w) then 1 else 0)%nat /\
  (l <> [] -> live w = 1%nat).
End spec.

(** ** The methods follow the specification *)
Section proofs.
Context (precision_interval : Z) (slot_max : nat) (call : nat -> M ticker unit).
Local Abbreviation ticking := (ticking slot_max).

Lemma wp_tick_lock {A} (m : M ticker A) w Q : m_mutex w = false ->
  wp m (set_mutex true w) (fun w' a => Q (set_mutex false w') a) -> wp (with_lock m) w Q.
Proof. intros Hm Hw. unfold with_lock. wp_simpl. rewrite Hm. wp_simpl. eapply wp_mono; [exact Hw|]. intros w' a HQ. by wp_simpl. Qed.

Lemma schedule_spec fn interval now l w : ticking l w -> (interval =? 0) || (precision_interval <=? interval) = true -> (length l < slot_max)%nat ->
  wp (schedule precision_interval slot_max fn interval now) w (fun w' _ => ticking (l ++ [new_slot fn interval now]) w' /\ called w' = called w).
Proof.
  intros (Hl & Hs & Ht & Hm & Hv & _) Hi Hn. unfold schedule. apply wp_tick_lock; [done|]. wp_simpl. split; [done|]. cbn [m_total m_slots set_mutex].
  rewrite Ht, Nat2Z.id. split; [apply Z.ltb_lt; lia|]. rewrite Hs. replace (slot_max - length l)%nat with (S (slot_max - S (length l))) by lia. cbn [replicate].
  rewrite lookup_app_r by (by rewrite length_fmap). rewrite length_fmap, Nat.sub_diag. split; [done|].
  assert (Hnew : <[length l := Some (new_slot fn interval now)]> ((Some <$> l) ++ None :: replicate (slot_max - S (length l)) None)
     = (Some <$> l ++ [new_slot fn interval now]) ++ replicate (slot_max - length (l ++ [new_slot fn interval now])) None).
  { rewrite insert_app_r_alt by (by rewrite length_fmap). rewrite length_fmap, Nat.sub_diag. cbn. rewrite fmap_app, <- app_assoc, length_app. cbn. by rewrite Nat.add_1_r. }
  assert (Hlen : length (l ++ [new_slot fn interval now]) = S (length l)) by (rewrite length_app; cbn; lia).
  unfold _check_start. wp_simpl. cbn [m_th m_th_break set_total set_slots set_mutex]. destruct (m_th w && negb (m_th_break w)) eqn:Eb; wp_simpl; (split; [|done]);
    (split; [rewrite Hlen; lia|]); (split; [exact Hnew|]); cbn; rewrite ?Eb, Hlen; repeat split; lia.
Qed.

Lemma find_fn_at fn a s rest : forall pre n, _fn s = fn -> Forall (fun x => _fn x <> fn) a -> (length a < n)%nat ->
  find_fn fn n (length pre) (pre ++ (Some <$> a) ++ Some s :: rest) = Ok (Some (length pre + length a)%nat).
Proof.
  intros pre n Hs Ha. revert pre n. induction Ha as [|x a Hx Ha IH]; intros pre [|n] Hn; cbn in Hn; try lia; cbn [find_fn fmap list_fmap app].
  - rewrite lookup_app_r, Nat.sub_diag by lia. cbn. rewrite decide_True by done. by rewrite Nat.add_0_r.
  - rewrite lookup_app_r, Nat.sub_diag by lia. cbn. rewrite decide_False by done.
    specialize (IH (pre ++ [Some x]) n ltac:(lia)). rewrite length_app, <- app_assoc in IH. cbn in IH. rewrite Nat.add_1_r in IH. rewrite IH. do 2 f_equal. lia.
Qed.
Lemma remove_fn_split fn l : existsb (fun s => Nat.eqb (_fn s) fn) l = true ->
  exists a s b, l = a ++ s :: b /\ _fn s = fn /\ Forall (fun x => _fn x <> fn) a /\ remove_fn fn l = a ++ b.
Proof.
  induction l as [|x l IH]; cbn; [done|]. destruct (Nat.eqb_spec (_fn x) fn) as [E|E]; cbn.
  - intros _. exists [], x, l. rewrite decide_True by done. by repeat split.
  - intros Hl. destruct (IH Hl) as (a & s & b & -> & Es & Ha & Er). exists (x :: a), s, b. rewrite decide_False by done. rewrite Er. repeat split; [done | by constructor].
Qed.
Lemma shift_spec r : forall p x, exists y, shift (length r) (length p) (p ++ x :: r) = p ++ r ++ [y].
Proof.
  induction r as [|z r IH]; intros p x; cbn [length shift]; [by exists x|].
  assert (E : (p ++ x :: z :: r) !! S (length p) = Some z) by (rewrite lookup_app_r by lia; by replace (S (length p) - length p)%nat with 1%nat by lia).
  rewrite E. cbn. rewrite insert_app_r_alt, Nat.sub_diag by lia. cbn. destruct (IH (p ++ [z]) z) as [y Ey]. exists y.
  rewrite length_app, Nat.add_1_r, <- !app_assoc in Ey. exact Ey.
Qed.

Lemma deschedule_spec fn l w : ticking l w -> existsb (fun s => Nat.eqb (_fn s) fn) l = true ->
  wp (deschedule slot_max fn) w (fun w' _ => ticking (remove_fn fn l) w' /\ called w' = called w).
Proof.
  intros (Hl & Hs & Ht & Hm & Hv & Hr) He. destruct (remove_fn_split fn l He) as (a & s & b & -> & Es & Ha & ->).
  rewrite length_app in *. cbn [length] in *. unfold deschedule. apply wp_tick_lock; [done|]. wp_simpl. cbn [m_total m_slots set_mutex].
  split; [rewrite Ht; apply Z.ltb_lt; lia|]. set (k := (slot_max - (length a + S (length b)))%nat) in *.
  assert (Eslots : m_slots w = (Some <$> a) ++ Some s :: (Some <$> b) ++ replicate k None) by (rewrite Hs, fmap_app; cbn; by rewrite <- app_assoc).
  rewrite Eslots.
  assert (Ef : find_fn fn slot_max 0 ((Some <$> a) ++ Some s :: (Some <$> b) ++ replicate k None) = Ok (Some (length a))) by (apply (find_fn_at fn a s _ []); [done.. | lia]).
  rewrite Ef. wp_simpl. cbn.
  destruct (shift_spec ((Some <$> b) ++ replicate k None) (Some <$> a) (Some s)) as [y Ey].
  rewrite length_app, !length_fmap, length_replicate in Ey. replace (slot_max - 1 - length a)%nat with (length b + k)%nat by lia. rewrite Ey.
  split; [|done]. split; [rewrite length_app; lia|]. split; [cbn; rewrite insert_app_r_alt by (rewrite length_fmap; lia); rewrite length_fmap; rewrite insert_app_r_alt by (rewrite length_app, length_fmap, length_replicate; lia);
    rewrite length_app, length_fmap, length_replicate; replace (slot_max - 1 - length a - (length b + k))%nat with 0%nat by lia; cbn; rewrite fmap_app, <- !app_assoc, length_app; do 2 f_equal;
    replace (slot_max - (length a + length b))%nat with (k + 1)%nat by lia; by rewrite replicate_add|].
  cbn. split; [rewrite Ht, length_app; lia|]. split; [done|]. split; [done|]. intros _. apply Hr. by destruct a.
Qed.

(** What a function does leaves the ticker alone. *)
Hypothesis call_quiet : forall fn w, call fn w = Ok (w, tt).
Definition same_thread (w w' : ticker) : Prop := m_total w' = m_total w /\ m_mutex w' = m_mutex w /\ m_th w' = m_th w /\ m_th_break w' = m_th_break w /\ live w' = live w.
Lemma call_due_spec now l rest : forall p w, m_slots w = (Some <$> p) ++ (Some <$> l) ++ rest ->
  wp (call_due call now (length l) (length p)) w (fun w' _ =>
    m_slots w' = (Some <$> p) ++ (Some <$> (after_turn now <$> l)) ++ rest /\
    called w' = called w ++ (_fn <$> filter (fun s => due now s = true) l) /\ same_thread w w').
Proof.
  induction l as [|s l IH]; intros p w Hs; cbn [length call_due].
  - wp_simpl. by rewrite app_nil_r.
  - wp_simpl. rewrite Hs. rewrite lookup_app_r, length_fmap, Nat.sub_diag by (by rewrite length_fmap). cbn [fmap list_fmap app lookup list_lookup].
    wp_simpl. rewrite filter_cons. unfold after_turn at 1.
    assert (Hlen : length (p ++ [after_turn now s]) = S (length p)) by (rewrite length_app; cbn; lia).
    destruct (due now s) eqn:Ed; wp_simpl.
    + unfold wp at 1. rewrite call_quiet. wp_simpl. rewrite <- Hlen. eapply wp_mono; [apply (IH (p ++ [after_turn now s]))|].
      * cbn. rewrite Hs. rewrite insert_app_r_alt, length_fmap, Nat.sub_diag by (by rewrite length_fmap). cbn. rewrite fmap_app, <- app_assoc. unfold after_turn. by rewrite Ed.
      * intros w' _ (E1 & E2 & E3). rewrite E1, E2. rewrite decide_True by done. cbn. rewrite fmap_app, <- !app_assoc. unfold after_turn at 1. rewrite Ed. by split.
    + rewrite <- Hlen. eapply wp_mono; [apply (IH (p ++ [after_turn now s]))|].
      * rewrite Hs, fmap_app, <- app_assoc. cbn. unfold after_turn. by rewrite Ed.
      * intros w' _ (E1 & E2 & E3). rewrite E1, E2. rewrite decide_False by done. rewrite fmap_app, <- !app_assoc. cbn. assert (after_turn now s = s) as -> by (unfold after_turn; by rewrite Ed). done.
Qed.

Lemma turn_spec now l w : ticking l w -> l <> [] ->
  wp (_run call now) w (fun w' _ => ticking (after_turn now <$> l) w' /\ called w' = called w ++ (_fn <$> filter (fun s => due now s = true) l)).
Proof.
  intros (Hl & Hs & Ht & Hm & Hv & Hr) Hne. unfold _run. apply wp_tick_lock; [done|]. wp_simpl. cbn [m_total set_mutex].
  rewrite Ht. destruct (Z.eqb_spec (Z.of_nat (length l)) 0) as [E|_]; [destruct l; [done | cbn in E; lia]|]. wp_simpl. rewrite Nat2Z.id.
  eapply wp_mono; [apply (call_due_spec now l (replicate (slot_max - length l) None) [])|]; [by cbn; rewrite Hs|].
  intros w' _ (E1 & E2 & (E3 & _ & E5 & E6 & E7)). wp_simpl. cbn. split; [|done].
  split; [by rewrite length_fmap|]. rewrite length_fmap. cbn. rewrite E1, E3, E5, E6, E7. cbn. repeat split; try done.
  intros _. apply Hr, Hne.
Qed.
(** A loop without functions ends; the next [schedule] starts another. *)
Lemma last_turn_spec now w : ticking [] w -> live w = 1%nat -> wp (_run call now) w (fun w' b => ticking [] w' /\ called w' = called w /\ b = false /\ live w' = 0%nat).
Proof.
  intros (Hl & Hs & Ht & Hm & Hv & _) Hv1. unfold _run. apply wp_tick_lock; [done|]. wp_simpl. cbn [m_total set_mutex]. rewrite Ht. change (Z.of_nat (length []) =? 0) with true. wp_simpl. cbn. rewrite Hv1. cbn.
  unfold Ticker.ticking. cbn. rewrite Hs, Ht. cbn. rewrite andb_false_r. repeat split; try done; lia.
Qed.
Local Abbreviation act_spec := (act_spec precision_interval slot_max).
Local Abbreviation acts_spec := (acts_spec precision_interval slot_max).
Local Abbreviation do_act := (do_act precision_interval slot_max call).
Lemma ticker_act_spec a l w l' c : ticking l w -> act_spec a l = Some (l', c) -> wp (do_act a) w (fun w' _ => ticking l' w' /\ called w' = called w ++ c).
Proof.
  intros Hw Ha. destruct a as [fn interval now|fn|now]; cbn [Ticker.act_spec tick.do_act] in *.
  - destruct ((interval =? 0) || (precision_interval <=? interval)) eqn:Ei; [|done]. destruct (Nat.ltb_spec (length l) slot_max); [|done]. cbn in Ha. simplify_eq.
    rewrite app_nil_r. by apply schedule_spec.
  - destruct (existsb _ l) eqn:Ee; [|done]. simplify_eq. rewrite app_nil_r. by apply deschedule_spec.
  - simplify_eq. wp_simpl. pose proof Hw as (_ & _ & _ & _ & Hv & Hr). destruct (decide (l = [])) as [->|Hne].
    + cbn. rewrite app_nil_r. destruct (live w) as [|n] eqn:En; [by wp_simpl|]. wp_simpl.
      assert (live w = 1%nat) by (destruct (m_th w && negb (m_th_break w)); lia). eapply wp_mono; [by apply last_turn_spec|]. intros w' b (H1 & H2 & _). by wp_simpl.
    + rewrite (Hr Hne). wp_simpl. eapply wp_mono; [by apply turn_spec|]. intros w' b HQ. by wp_simpl.
Qed.
Lemma ticking_make : ticking [] (make slot_max).
Proof. split; [cbn; lia|]. cbn. rewrite Nat.sub_0_r. repeat split; done. Qed.

(** A function that was just scheduled is called at the next turn. *)
Lemma first_turn_calls fn interval now now' l l' c : acts_spec [A_schedule fn interval now; A_turn now'] l = Some (l', c) -> now <= now' -> fn ∈ c.
Proof.
  intros Hs Hn. cbn in Hs. destruct (_ && _); [|done]. cbn in Hs. simplify_eq. rewrite app_nil_r, filter_app, fmap_app. apply elem_of_app. right.
  rewrite filter_cons. rewrite decide_True by (unfold due; cbn; apply Z.leb_le; lia). cbn. set_solver.
Qed.

(** Taking out a function that is not there reads an empty slot, unless all are taken. *)
Lemma deschedule_unknown fn l w : ticking l w -> l <> [] -> Forall (fun s => _fn s <> fn) l -> (length l < slot_max)%nat -> deschedule slot_max fn w = Fault Undefined.
Proof.
  intros (Hl & Hs & Ht & Hm & _) Hne Ha Hn. unfold deschedule, with_lock, assertM, lift, gets, modify, mbind, M_bind. rewrite Hm. cbn [m_total m_slots set_mutex].
  rewrite Ht. rewrite (proj2 (Z.ltb_lt 0 _)) by (destruct l; [done | cbn; lia]). cbn [wawo_assert]. rewrite Hs.
  assert (Hf : forall pre n, (length l < n)%nat -> find_fn fn n (length pre) (pre ++ (Some <$> l) ++ replicate (slot_max - length l) None) = Fault Undefined).
  { clear Hs Ht Hne. intros pre. destruct (slot_max - length l)%nat as [|k] eqn:Ek; [lia|]. clear Ek Hl Hn. revert pre. induction Ha as [|s l Hs Ha IH]; intros pre [|n] Hn; cbn in Hn; try lia; cbn [find_fn fmap list_fmap app replicate].
    - by rewrite lookup_app_r, Nat.sub_diag by lia.
    - rewrite lookup_app_r, Nat.sub_diag by lia. cbn. rewrite decide_False by done. specialize (IH (pre ++ [Some s]) n ltac:(lia)).
      rewrite length_app, Nat.add_1_r, <- app_assoc in IH. exact IH. }
  specialize (Hf [] slot_max Hn). cbn [length app] in Hf. by rewrite Hf.
Qed.
End proofs.

(** Functions are called while the mutex is held: one that schedules another waits for its own
    thread. *)
Lemma schedule_in_function_waits precision slot_max fn interval now w : m_mutex w = true -> schedule precision slot_max fn interval now w = Fault Waits.
Proof. intros Hm. unfold schedule, with_lock, gets, mbind, M_bind. by rewrite Hm. Qed.

