(* ===== verification/PeerProxy.v ===== *)
(** * PeerProxy: the peers of a node ([include/wawo/net/peer_proxy.hpp])

    A proxy keeps the peers it was given, listens to their events, and at each tick of its ticker
    works off what the events planned: peers to remove, sockets that wait for room to write.

    - [proxy]: the state, with the sockets of the peers and the record of what was asked of peers
      and sockets; [peer_proxy]: the methods, each one step (they take [m_mutex]);
    - [proxy_inv], [legal]: the invariant, and what the owner may ask when;
    - [proxy_keeps_peers]: the invariant holds in any session; [proxy_update_removes],
      [proxy_stop_closes]: what a tick and the end do; [removed_twice_throws]: what a peer that is
      removed after its end was seen does. *)

From S2P Require Import Prelude Effects SocketData.

Definition E_PEER_PROXY_EXIT : Z := -42005.
Definition E_PEER_PROXY_INVALID_STATE : Z := -42006.

Inductive _RunState : Type := S_IDLE | S_RUN | S_EXIT.
#[export] Instance RunState_eq_dec : EqDecision _RunState.
Proof. solve_decision. Defined.
Inductive peer_op_code : Type := OP_NONE | OP_PEER_ADD | OP_PEER_REMOVE | OP_ASYNC_WRITE_BEGIN | OP_ASYNC_WRITE_END.
#[export] Instance peer_op_code_eq_dec : EqDecision peer_op_code.
Proof. solve_decision. Defined.
Record peer_op : Type := mk_peer_op { code : peer_op_code; op_peer : nat; op_so : nat }.

(** What a proxy asks of peers, sockets and tickers. *)
Inductive proxy_call : Type :=
| C_listen (peer : nat) (id : event_id) | C_unlisten (peer : nat)
| C_detach (peer : nat) | C_close (so : nat) (ec : Z) | C_shutdown (so : nat) (ec : Z)
| C_close_event (peer so : nat) | C_task (peer task : nat) | C_tick (peer : nat) (now : Z)
| C_ticker (scheduled : bool) | C_peer_ticker (scheduled : bool).

(** [peer_so]: the socket attached to each peer. *)
Record proxy : Type := mk_proxy {
  m_state : _RunState;
  m_ops : list peer_op;
  m_peers : list nat;
  m_async_write_sockets : list nat;
  m_last_socket_async_send_check_timer : Z;
  m_ticker_fn : bool;
  m_peer_ticker_fn : bool;
  peer_so : gmap nat nat;
  asked : list proxy_call
}.
Definition set_state v w := mk_proxy v (m_ops w) (m_peers w) (m_async_write_sockets w) (m_last_socket_async_send_check_timer w) (m_ticker_fn w) (m_peer_ticker_fn w) (peer_so w) (asked w).
Definition set_ops v w := mk_proxy (m_state w) v (m_peers w) (m_async_write_sockets w) (m_last_socket_async_send_check_timer w) (m_ticker_fn w) (m_peer_ticker_fn w) (peer_so w) (asked w).
Definition set_peers v w := mk_proxy (m_state w) (m_ops w) v (m_async_write_sockets w) (m_last_socket_async_send_check_timer w) (m_ticker_fn w) (m_peer_ticker_fn w) (peer_so w) (asked w).
Definition set_write_sockets v w := mk_proxy (m_state w) (m_ops w) (m_peers w) v (m_last_socket_async_send_check_timer w) (m_ticker_fn w) (m_peer_ticker_fn w) (peer_so w) (asked w).
Definition set_tickers a b w := mk_proxy (m_state w) (m_ops w) (m_peers w) (m_async_write_sockets w) (m_last_socket_async_send_check_timer w) a b (peer_so w) (asked w).
Definition set_peer_so v w := mk_proxy (m_state w) (m_ops w) (m_peers w) (m_async_write_sockets w) (m_last_socket_async_send_check_timer w) (m_ticker_fn w) (m_peer_ticker_fn w) v (asked w).
Definition log_asked v w := mk_proxy (m_state w) (m_ops w) (m_peers w) (m_async_write_sockets w) (m_last_socket_async_send_check_timer w) (m_ticker_fn w) (m_peer_ticker_fn w) (peer_so w) (asked w ++ [v]).

(** [vector::erase] of the first element equal to [x]. *)
Fixpoint erase (x : nat) (l : list nat) : list nat :=
  match l with [] => [] | y :: l' => if decide (y = x) then l' else y :: erase x l' end.

Module peer_proxy.
Section peer_proxy.
(** [_peer_t::PEER_TICKER_FREQ], and what the sockets answer. *)
Context (PEER_TICKER_FREQ : Z) (is_data_socket is_nonblocking : nat -> bool).
Local Abbreviation MP := (M proxy).

Definition make : proxy := mk_proxy S_IDLE [] [] [] 0 false false ∅ [].
Definition get : MP proxy := gets (fun w => w).
Definition ask (c : proxy_call) : MP unit := modify (log_asked c).

(** [peer_abstract::attach_socket] and [detach_socket], as far as the proxy sees them. *)
Definition attach_socket (peer so : nat) : MP unit :=
  w ← get; assertM (bool_decide (peer_so w !! peer = None));; modify (set_peer_so (<[peer := so]> (peer_so w))).
Definition detach_socket (peer : nat) : MP unit :=
  ask (C_detach peer);; modify (fun w => set_peer_so (delete peer (peer_so w)) w).

Definition _plan_op (op : peer_op) : MP unit := modify (fun w => set_ops (m_ops w ++ [op]) w).

Definition _add_peer (peer : nat) : MP unit :=
  w ← get;
  assertM (bool_decide (m_state w = S_RUN));;
  assertM (bool_decide (is_Some (peer_so w !! peer)));;
  ask (C_listen peer E_CLOSE);; ask (C_listen peer E_WR_BLOCK);; ask (C_listen peer E_WR_UNBLOCK);;
  w ← get;
  assertM (bool_decide (peer ∉ m_peers w));;
  modify (set_peers (m_peers w ++ [peer])).
Definition _remove_peer (peer : nat) : MP unit :=
  ask (C_unlisten peer);;
  w ← get;
  assertM (bool_decide (peer ∈ m_peers w));;
  modify (set_peers (erase peer (m_peers w))).

Definition execute_op (op : peer_op) : MP unit :=
  match code op with
  | OP_PEER_ADD => _add_peer (op_peer op)
  | OP_PEER_REMOVE => detach_socket (op_peer op);; _remove_peer (op_peer op)
  | OP_ASYNC_WRITE_BEGIN =>
      w ← get;
      if decide (op_so op ∈ m_async_write_sockets w) then mret tt
      else modify (set_write_sockets (m_async_write_sockets w ++ [op_so op]))
  | OP_ASYNC_WRITE_END => modify (fun w => set_write_sockets (erase (op_so op) (m_async_write_sockets w)) w)
  | OP_NONE => mret tt
  end.
Fixpoint execute_loop (fuel : nat) : MP unit :=
  match fuel with
  | O => fail Diverged
  | S fuel' =>
      w ← get;
      match m_ops w with
      | [] => mret tt
      | op :: ops =>
          modify (set_ops ops);;
          if decide (code op = OP_NONE) then mret tt else execute_op op;; execute_loop fuel'
      end
  end.
(** No operation plans another, so one round for each is enough. *)
Definition _execute_ops : MP unit := w ← get; execute_loop (S (length (m_ops w))).

Fixpoint check_loop (is_write_shutdowned is_flush_timer_expired : nat -> bool) (l : list nat) : MP (list nat) :=
  match l with
  | [] => mret []
  | so :: l' =>
      if is_write_shutdowned so then check_loop is_write_shutdowned is_flush_timer_expired l'
      else if is_flush_timer_expired so then
        ask (C_shutdown so E_SOCKET_SEND_IO_BLOCK_EXPIRED);; check_loop is_write_shutdowned is_flush_timer_expired l'
      else rest ← check_loop is_write_shutdowned is_flush_timer_expired l'; mret (so :: rest)
  end.
Definition _check_async_write_sockets (is_write_shutdowned is_flush_timer_expired : nat -> bool) (now : Z) : MP unit :=
  w ← get;
  if now <? u64 (m_last_socket_async_send_check_timer w + 1000 * 10) then mret tt
  else l ← check_loop is_write_shutdowned is_flush_timer_expired (m_async_write_sockets w); modify (set_write_sockets l).

Definition start : MP Z :=
  w ← get;
  assertM (bool_decide (m_state w = S_IDLE));;
  modify (set_state S_RUN);;
  modify (set_tickers true (0 <? PEER_TICKER_FREQ));;
  ask (C_ticker true);;
  when (0 <? PEER_TICKER_FREQ) (ask (C_peer_ticker true));;
  mret OK.

Definition exit_peer (peer : nat) : MP unit :=
  w ← get;
  match peer_so w !! peer with
  | None => fail AssertFailed
  | Some so => ask (C_unlisten peer);; ask (C_close so E_PEER_PROXY_EXIT);; detach_socket peer;; ask (C_close_event peer so)
  end.
Definition _deinit : MP unit :=
  w ← get;
  assertM (bool_decide (m_state w = S_EXIT));;
  assertM (m_ticker_fn w);;
  _execute_ops;;
  w ← get;
  iterM exit_peer (m_peers w);;
  modify (set_peers []);;
  w ← get;
  assertM (bool_decide (m_ops w = []));;
  when (m_ticker_fn w) (ask (C_ticker false));;
  when (m_peer_ticker_fn w) (ask (C_peer_ticker false));;
  modify (set_tickers false false).
(** [stop] up to the end of the lock; [true] when [_deinit] is to follow. *)
Definition stop_begin : MP bool :=
  w ← get; if decide (m_state w = S_EXIT) then mret false else modify (set_state S_EXIT);; mret true.
Definition stop : MP unit := b ← stop_begin; when b _deinit.

Definition _peer_ticker (now : Z) : MP unit :=
  w ← get; when (bool_decide (m_state w = S_RUN)) (iterM (fun p => ask (C_tick p now)) (m_peers w)).
Definition update (is_write_shutdowned is_flush_timer_expired : nat -> bool) (now : Z) : MP unit :=
  w ← get;
  when (bool_decide (m_state w = S_RUN)) (_execute_ops;; _check_async_write_sockets is_write_shutdowned is_flush_timer_expired now).

Definition add_peer (peer so : nat) (schedule_if_add_ok : option nat) : MP Z :=
  w ← get;
  if decide (m_state w <> S_RUN) then mret E_PEER_PROXY_INVALID_STATE
  else
    attach_socket peer so;;
    _add_peer peer;;
    iterM (fun t => ask (C_task peer t)) (option_list schedule_if_add_ok);;
    mret OK.
Definition remove_peer (peer : nat) : MP Z :=
  w ← get;
  if decide (m_state w <> S_RUN) then mret E_PEER_PROXY_INVALID_STATE
  else detach_socket peer;; _remove_peer peer;; mret OK.

Definition on_event (id : event_id) (peer so : nat) (info : Z) : MP unit :=
  w ← get;
  if decide (m_state w <> S_RUN) then ask (C_close so 0);; ask (C_unlisten peer)
  else match id with
  | E_CLOSE => _plan_op (mk_peer_op OP_PEER_REMOVE peer so)
  | E_WR_BLOCK =>
      assertM (is_data_socket so);; assertM (is_nonblocking so);;
      _plan_op (mk_peer_op OP_ASYNC_WRITE_BEGIN peer so)
  | E_WR_UNBLOCK =>
      assertM (is_data_socket so);; assertM (is_nonblocking so);; assertM (info =? 0);;
      _plan_op (mk_peer_op OP_ASYNC_WRITE_END peer so)
  | _ => fail Thrown
  end.

(** The calls of the owner, the events of the peers and the ticks. *)
Inductive act : Type :=
| A_start | A_stop
| A_add (peer so : nat) (task : option nat) | A_remove (peer : nat)
| A_event (id : event_id) (peer so : nat) (info : Z)
| A_update (shut expired : nat -> bool) (now : Z) | A_tick (now : Z).
Definition do_act (a : act) : MP unit :=
  match a with
  | A_start => start;; mret tt
  | A_stop => stop
  | A_add p so t => add_peer p so t;; mret tt
  | A_remove p => remove_peer p;; mret tt
  | A_event id p so info => on_event id p so info
  | A_update shut expired now => update shut expired now
  | A_tick now => _peer_ticker now
  end.
End peer_proxy.
End peer_proxy.
Import peer_proxy.

(** ** The invariant *)
Definition removes (ops : list peer_op) : list nat := op_peer <$> filter (fun o => code o = OP_PEER_REMOVE) ops.
(** The peers attached are the peers of the list; a removal is planned once, for one of them. *)
Definition peers_ok (w : proxy) : Prop :=
  NoDup (m_peers w) /\ (forall p, is_Some (peer_so w !! p) <-> p ∈ m_peers w) /\
  NoDup (removes (m_ops w)) /\ (forall p, p ∈ removes (m_ops w) -> p ∈ m_peers w) /\
  Forall (fun o => code o <> OP_NONE /\ code o <> OP_PEER_ADD) (m_ops w) /\
  NoDup (m_async_write_sockets w).
Definition proxy_inv (w : proxy) : Prop :=
  peers_ok w /\ (m_state w = S_RUN -> m_ticker_fn w = true) /\
  (m_state w <> S_RUN -> m_peers w = [] /\ m_ops w = []).

(** What the owner may ask when, and what the peers may tell. *)
Definition legal (is_data_socket is_nonblocking : nat -> bool) (w : proxy) (a : act) : Prop :=
  match a with
  | A_start => m_state w = S_IDLE
  | A_stop => m_state w <> S_IDLE
  | A_add p so t => m_state w = S_RUN -> p ∉ m_peers w
  | A_remove p => m_state w = S_RUN -> p ∈ m_peers w /\ p ∉ removes (m_ops w)
  | A_event id p so info => m_state w = S_RUN ->
      match id with
      | E_CLOSE => p ∈ m_peers w /\ p ∉ removes (m_ops w)
      | E_WR_BLOCK => is_data_socket so && is_nonblocking so = true
      | E_WR_UNBLOCK => is_data_socket so && is_nonblocking so && (info =? 0) = true
      | _ => False
      end
  | A_update _ _ _ | A_tick _ => True
  end.

Lemma filter_keeps (P : nat -> Prop) `{!forall x, Decision (P x)} (l : list nat) : (forall x, x ∈ l -> P x) -> filter P l = l.
Proof. induction l as [|x l IH]; intros Hl; [done|]. rewrite filter_cons_True by (apply Hl; set_solver). rewrite IH; [done|]. intros y Hy. apply Hl. set_solver. Qed.
Lemma erase_filter x l : NoDup l -> erase x l = filter (fun y => y <> x) l.
Proof.
  induction 1 as [|y l Hy Hl IH]; [done|]. cbn [erase]. rewrite filter_cons. destruct (decide (y = x)) as [->|E].
  - rewrite decide_False by (intros H1; done). symmetry. apply filter_keeps. intros z Hz ->. done.
  - rewrite decide_True by done. by rewrite IH.
Qed.
Lemma erase_nodup x l : NoDup l -> NoDup (erase x l).
Proof. intros Hl. rewrite erase_filter by done. by apply NoDup_filter. Qed.
Lemma elem_of_erase x y l : NoDup l -> y ∈ erase x l <-> y ∈ l /\ y <> x.
Proof. intros Hl. rewrite erase_filter by done. rewrite list_elem_of_filter. tauto. Qed.

(** The members that working off operations leaves alone. *)
Definition same_run (w w' : proxy) : Prop :=
  m_state w' = m_state w /\ m_ticker_fn w' = m_ticker_fn w /\ m_peer_ticker_fn w' = m_peer_ticker_fn w /\
  m_last_socket_async_send_check_timer w' = m_last_socket_async_send_check_timer w.
Lemma same_run_trans a b c : same_run a b -> same_run b c -> same_run a c.
Proof. intros (E1 & E2 & E3 & E4) (F1 & F2 & F3 & F4). unfold same_run. by rewrite F1, F2, F3, F4. Qed.

(** Projections of updated states. *)
Ltac proxy_cbn := cbn [m_state m_ops m_peers m_async_write_sockets m_last_socket_async_send_check_timer m_ticker_fn m_peer_ticker_fn peer_so asked
  set_state set_ops set_peers set_write_sockets set_tickers set_peer_so log_asked].
Lemma removes_cons op ops : removes (op :: ops) = removes [op] ++ removes ops.
Proof. unfold removes. rewrite !filter_cons. by destruct (decide _). Qed.
Lemma removes_remove op : code op = OP_PEER_REMOVE -> removes [op] = [op_peer op].
Proof. intros E. unfold removes. by rewrite filter_cons, decide_True. Qed.
Lemma removes_other op : code op <> OP_PEER_REMOVE -> removes [op] = [].
Proof. intros E. unfold removes. by rewrite filter_cons, decide_False. Qed.

Lemma execute_op_spec op ops w : peers_ok w -> m_ops w = op :: ops ->
  wp (execute_op op) (set_ops ops w) (fun w' _ => peers_ok w' /\ m_ops w' = ops /\ same_run w w' /\
    m_peers w' = filter (fun p => p ∉ removes [op]) (m_peers w) /\ (forall p, p ∈ m_peers w' -> peer_so w' !! p = peer_so w !! p)).
Proof.
  intros (Hn & Hs & Hr & Hin & Hf & Ha) Eo. rewrite Eo in *. apply Forall_cons in Hf as [[Hc1 Hc2] Hf]. rewrite removes_cons in Hr, Hin. apply NoDup_app in Hr as (_ & Hp & Hr).
  unfold execute_op, _remove_peer, detach_socket, ask, get. destruct (code op) eqn:Ec; try done.
  - rewrite removes_remove in * by done. assert (Hpm : op_peer op ∈ m_peers w) by (apply Hin; set_solver).
    wp_simpl. proxy_cbn. split; [by apply bool_decide_eq_true|].
    assert (Hm : forall p, p ∈ erase (op_peer op) (m_peers w) <-> p ∈ m_peers w /\ p <> op_peer op) by (intros p; by apply elem_of_erase).
    split; [|split; [done|split; [done|split]]].
    + split; [by apply erase_nodup|]. split; [|split; [done|split; [|done]]]; proxy_cbn.
      * intros p. rewrite Hm. destruct (decide (p = op_peer op)) as [->|E]; [rewrite lookup_delete_eq; split; [by intros [? ?] | tauto]|]. rewrite lookup_delete_ne by done. rewrite Hs. tauto.
      * intros p Hp'. apply Hm. split; [apply Hin; set_solver | intros ->; by apply (Hp (op_peer op)); [set_solver|]].
    + rewrite erase_filter by done. apply list_filter_iff. intros p. set_solver.
    + intros p Hp'. apply Hm in Hp' as [_ E]. by rewrite lookup_delete_ne.
  - rewrite removes_other in * by congruence. wp_simpl. proxy_cbn. rewrite (filter_keeps _ (m_peers w)) by (intros; apply not_elem_of_nil).
    destruct (decide _) as [Hd|Hd]; wp_simpl; (split; [|done]); (split; [done|]); (split; [done|]); (split; [done|]); (split; [done|]); (split; [done|]); proxy_cbn; [done|].
    apply NoDup_app. split; [done|]. split; [set_solver | apply NoDup_singleton].
  - rewrite removes_other in * by congruence. wp_simpl. proxy_cbn. rewrite (filter_keeps _ (m_peers w)) by (intros; apply not_elem_of_nil).
    split; [|done]. do 5 (split; [done|]). by apply erase_nodup.
Qed.

Lemma execute_loop_spec ops : forall w, peers_ok w -> m_ops w = ops ->
  wp (execute_loop (S (length ops))) w (fun w' _ => peers_ok w' /\ m_ops w' = [] /\ same_run w w' /\
    m_peers w' = filter (fun p => p ∉ removes ops) (m_peers w) /\ (forall p, p ∈ m_peers w' -> peer_so w' !! p = peer_so w !! p)).
Proof.
  induction ops as [|op ops IH]; intros w Hw Eo; cbn [length execute_loop]; unfold get; wp_simpl; rewrite Eo.
  - wp_simpl. split; [done|]. split; [done|]. split; [done|]. split; [|done]. symmetry. apply filter_keeps. intros; apply not_elem_of_nil.
  - wp_simpl. assert (Hc : code op <> OP_NONE) by (destruct Hw as (_ & _ & _ & _ & Hf & _); rewrite Eo in Hf; by apply Forall_cons in Hf as [[? _] _]). rewrite decide_False by done.
    wp_simpl. eapply wp_mono; [by apply execute_op_spec|]. intros w1 [] (H1 & E1 & S1 & P1 & Q1).
    eapply wp_mono; [by apply IH|]. intros w2 _ (H2 & E2 & S2 & P2 & Q2). split; [done|]. split; [done|]. split; [by eapply same_run_trans|]. split.
    + rewrite P2, P1, list_filter_filter, (removes_cons op ops). apply list_filter_iff. intros p. rewrite elem_of_app. tauto.
    + intros p Hp. rewrite (Q2 p Hp). apply Q1. rewrite P2 in Hp. by apply list_elem_of_filter in Hp as [_ ?].
Qed.

Lemma proxy_check_spec shut expired l : forall w, NoDup l ->
  wp (check_loop shut expired l) w (fun w' l' => NoDup l' /\ (forall so, so ∈ l' -> so ∈ l) /\ exists cs, w' = fold_left (fun w c => log_asked c w) cs w).
Proof.
  induction l as [|so l IH]; intros w Hl; cbn [check_loop]; [wp_simpl; split; [done|]; split; [done|]; by exists []|]. apply NoDup_cons in Hl as [Hs Hl]. unfold ask.
  destruct (shut so); [|destruct (expired so)]; wp_simpl.
  - eapply wp_mono; [by apply IH|]. intros w' l' (H1 & H2 & H3). split; [done|]. split; [set_solver | done].
  - eapply wp_mono; [by apply IH|]. intros w' l' (H1 & H2 & cs & ->). split; [done|]. split; [set_solver|]. by exists (C_shutdown so E_SOCKET_SEND_IO_BLOCK_EXPIRED :: cs).
  - eapply wp_mono; [by apply IH|]. intros w' l' (H1 & H2 & H3). wp_simpl. split; [apply NoDup_cons; split; [by intros H4; apply Hs, H2 | done]|]. split; [set_solver | done].
Qed.
Lemma logs_keep cs : forall w, let w' := fold_left (fun w c => log_asked c w) cs w in
  m_state w' = m_state w /\ m_ops w' = m_ops w /\ m_peers w' = m_peers w /\ m_ticker_fn w' = m_ticker_fn w /\ peer_so w' = peer_so w /\ m_async_write_sockets w' = m_async_write_sockets w.
Proof. induction cs as [|c cs IH]; intros w; [done|]. apply (IH (log_asked c w)). Qed.

Lemma exit_peer_eq p so w : peer_so w !! p = Some so ->
  exit_peer p w = Ok (log_asked (C_close_event p so) (set_peer_so (delete p (peer_so w)) (log_asked (C_detach p) (log_asked (C_close so E_PEER_PROXY_EXIT) (log_asked (C_unlisten p) w)))), tt).
Proof. intros Hso. unfold exit_peer, detach_socket, ask, get, gets, modify, mbind, M_bind. by rewrite Hso. Qed.
Lemma exit_loop_spec l : forall w, NoDup l -> (forall p, p ∈ l -> is_Some (peer_so w !! p)) ->
  wp (iterM exit_peer l) w (fun w' _ => same_run w w' /\ m_ops w' = m_ops w /\ m_peers w' = m_peers w /\ m_async_write_sockets w' = m_async_write_sockets w /\
    (forall p, peer_so w' !! p = if decide (p ∈ l) then None else peer_so w !! p) /\
    (forall c, c ∈ asked w -> c ∈ asked w') /\
    (forall p so, p ∈ l -> peer_so w !! p = Some so -> C_close so E_PEER_PROXY_EXIT ∈ asked w' /\ C_close_event p so ∈ asked w')).
Proof.
  induction l as [|p l IH]; intros w Hl Hp; cbn [iterM].
  - wp_simpl. do 4 (split; [done|]). split; [|split; [done|]]; intros q; [by rewrite decide_False by apply not_elem_of_nil|]. intros so Hq. by apply elem_of_nil in Hq.
  - apply NoDup_cons in Hl as [Hn Hl]. destruct (Hp p) as [so Hso]; [apply elem_of_cons; by left|]. apply wp_bind. unfold wp at 1. rewrite (exit_peer_eq p so w Hso).
    eapply wp_mono; [apply IH; [done|]|].
    + intros q Hq. proxy_cbn. rewrite lookup_delete_ne by (intros ->; done). apply Hp, elem_of_cons. by right.
    + intros w' _ (S1 & E1 & E2 & E3 & E4 & E5 & E6). do 4 (split; [done|]). cbn [m_ops m_peers m_async_write_sockets peer_so asked log_asked set_peer_so] in *. split; [|split].
      * intros q. rewrite E4. destruct (decide (q = p)) as [->|Hq].
        -- rewrite decide_False by done. rewrite decide_True by (apply elem_of_cons; by left). by rewrite lookup_delete_eq.
        -- rewrite lookup_delete_ne by done. apply decide_ext. rewrite elem_of_cons. tauto.
      * intros c Hc. apply E5. rewrite !elem_of_app. tauto.
      * intros q so' Hq Hs. apply elem_of_cons in Hq as [->|Hq].
        -- rewrite Hso in Hs. simplify_eq. split; apply E5; rewrite !elem_of_app, !list_elem_of_singleton; tauto.
        -- apply E6; [done|]. rewrite lookup_delete_ne by (intros ->; done). done.
Qed.

Lemma deinit_spec w : peers_ok w -> m_state w = S_EXIT -> m_ticker_fn w = true ->
  wp _deinit w (fun w' _ => proxy_inv w' /\ m_state w' = S_EXIT /\ m_peers w' = [] /\ peer_so w' = ∅ /\
    forall p so, p ∉ removes (m_ops w) -> peer_so w !! p = Some so -> C_close so E_PEER_PROXY_EXIT ∈ asked w' /\ C_close_event p so ∈ asked w').
Proof.
  intros Hw Hst Ht. unfold _deinit, _execute_ops, get, ask. wp_simpl. split; [by apply bool_decide_eq_true|]. split; [done|].
  eapply wp_mono; [by apply execute_loop_spec|]. intros w1 [] ((Hn & Hs & Hr & Hin & Hf & Ha) & E1 & (S1 & S2 & S3 & S4) & P1 & Q1). wp_simpl.
  eapply wp_mono; [apply exit_loop_spec; [done | intros p; apply Hs]|]. intros w2 [] ((T1 & T2 & T3 & T4) & E2 & P2 & A2 & Q2 & L2 & C2). wp_simpl. proxy_cbn.
  split; [apply bool_decide_eq_true; by rewrite E2|].
  assert (Hso : peer_so w2 = ∅).
  { apply map_empty. intros p. rewrite Q2. destruct (decide (p ∈ m_peers w1)) as [|Hp]; [done|]. apply eq_None_not_Some. by rewrite Hs. }
  assert (Hq : forall p so, p ∉ removes (m_ops w) -> peer_so w !! p = Some so -> C_close so E_PEER_PROXY_EXIT ∈ asked w2 /\ C_close_event p so ∈ asked w2).
  { intros p so Hp Hpso. assert (Hpm : p ∈ m_peers w1) by (rewrite P1; apply list_elem_of_filter; split; [done | apply (proj1 (proj2 Hw) p); by eexists]). apply C2; [done|]. by rewrite Q1. }
  assert (Hend : forall w', m_state w' = m_state w2 -> m_peers w' = [] -> m_ops w' = [] -> peer_so w' = ∅ -> m_async_write_sockets w' = m_async_write_sockets w2 -> proxy_inv w').
  { intros w' F1 F2 F3 F4 F5. split; [|split; [intros F; congruence | by rewrite F2, F3]]. unfold peers_ok. rewrite F2, F3, F4, F5, A2. split; [constructor|]. split; [|split; [constructor|split; [|split; [constructor | done]]]].
    - intros p. rewrite lookup_empty. split; [by intros [? ?] | by intros ?%elem_of_nil].
    - by intros p ?%elem_of_nil. }
  destruct (m_ticker_fn w2), (m_peer_ticker_fn w2); wp_simpl; proxy_cbn; (split; [apply Hend; proxy_cbn; congruence|]); (split; [congruence|]); (split; [done|]); (split; [done|]);
    intros p so Hp Hpso; destruct (Hq p so Hp Hpso); rewrite ?elem_of_app; tauto.
Qed.

(** Stopping a running proxy ends without an assertion: no peer is left and none has a socket;
    the socket of every peer whose end had not been seen before is closed, and the peer is told. *)
Lemma proxy_stop_closes w : proxy_inv w -> m_state w = S_RUN ->
  wp stop w (fun w' _ => proxy_inv w' /\ m_state w' = S_EXIT /\ m_peers w' = [] /\ peer_so w' = ∅ /\
    forall p so, p ∉ removes (m_ops w) -> peer_so w !! p = Some so -> C_close so E_PEER_PROXY_EXIT ∈ asked w' /\ C_close_event p so ∈ asked w').
Proof.
  intros (Hw & Ht & _) Hst. unfold stop, stop_begin, get. wp_simpl. rewrite decide_False by (by rewrite Hst). wp_simpl. apply (deinit_spec (set_state S_EXIT w)); [done | done | by apply Ht].
Qed.

(** An update of a running proxy removes, in the order of the list, exactly the peers whose end
    was seen; the others keep their sockets, and no operation is left. *)
Lemma proxy_update_removes w shut expired now : proxy_inv w -> m_state w = S_RUN ->
  wp (update shut expired now) w (fun w' _ => proxy_inv w' /\ m_ops w' = [] /\
    m_peers w' = filter (fun p => p ∉ removes (m_ops w)) (m_peers w) /\ (forall p, p ∈ m_peers w' -> peer_so w' !! p = peer_so w !! p)).
Proof.
  intros (Hw & Ht & _) Hst. unfold update, _execute_ops, _check_async_write_sockets, get. wp_simpl. rewrite bool_decide_eq_true_2 by done. wp_simpl.
  eapply wp_mono; [by apply execute_loop_spec|]. intros w1 [] (H1 & E1 & (S1 & S2 & _) & P1 & Q1). wp_simpl.
  assert (Hi : proxy_inv w1) by (split; [done|]; split; [intros _; rewrite S2; by apply Ht | intros F; congruence]).
  destruct (_ <? _); wp_simpl; [done|]. pose proof H1 as (Hn & Hs & Hr & Hin & Hf & Ha). eapply wp_mono; [by apply proxy_check_spec|].
  intros w2 l (Hl & _ & cs & ->). wp_simpl. destruct (logs_keep cs w1) as (F1 & F2 & F3 & F4 & F5 & F6). cbn zeta in *.
  split; [|proxy_cbn; rewrite F2, F3, F5; done]. split; [|proxy_cbn; rewrite F1, F4; split; [intros _; rewrite S2; by apply Ht | congruence]].
  unfold peers_ok. proxy_cbn. by rewrite F2, F3, F5.
Qed.

Lemma plan_inv op w : proxy_inv w -> m_state w = S_RUN -> code op <> OP_NONE -> code op <> OP_PEER_ADD ->
  (code op = OP_PEER_REMOVE -> op_peer op ∈ m_peers w /\ op_peer op ∉ removes (m_ops w)) -> proxy_inv (set_ops (m_ops w ++ [op]) w).
Proof.
  intros ((Hn & Hs & Hr & Hin & Hf & Ha) & Ht & Hx) Hst H1 H2 H3.
  assert (Er : removes (m_ops w ++ [op]) = removes (m_ops w) ++ removes [op]) by (unfold removes; by rewrite filter_app, fmap_app).
  split; [|split; proxy_cbn; [done | congruence]]. split; [done|]. split; [done|]. proxy_cbn. rewrite Er. split; [|split; [|split; [|done]]].
  - destruct (decide (code op = OP_PEER_REMOVE)) as [E|E]; [|rewrite removes_other, app_nil_r by done; done]. rewrite removes_remove by done. destruct (H3 E) as [_ Hp].
    apply NoDup_app. split; [done|]. split; [|apply NoDup_singleton]. intros x Hx1 ->%list_elem_of_singleton. done.
  - intros p. rewrite elem_of_app. intros [Hp|Hp]; [by apply Hin|]. destruct (decide (code op = OP_PEER_REMOVE)) as [E|E]; [|rewrite removes_other in Hp by done; by apply elem_of_nil in Hp].
    rewrite removes_remove in Hp by done. apply list_elem_of_singleton in Hp as ->. by apply H3.
  - apply Forall_app. split; [done|]. by constructor.
Qed.
Lemma ask_inv c w : proxy_inv w -> proxy_inv (log_asked c w).
Proof. done. Qed.

Lemma add_inv p so t w : proxy_inv w -> m_state w = S_RUN -> p ∉ m_peers w -> wp (add_peer p so t) w (fun w' _ => proxy_inv w').
Proof.
  intros ((Hn & Hs & Hr & Hin & Hf & Ha) & Ht & _) Hst Hp. unfold add_peer, attach_socket, _add_peer, ask, get. wp_simpl. rewrite decide_False by (by intros []). wp_simpl. proxy_cbn.
  assert (Ep : peer_so w !! p = None) by (apply eq_None_not_Some; by rewrite Hs).
  split; [by apply bool_decide_eq_true|]. split; [by apply bool_decide_eq_true|]. split; [apply bool_decide_eq_true; rewrite lookup_insert_eq; by eexists|]. split; [by apply bool_decide_eq_true|].
  eapply wp_mono; [apply (wp_iter _ (fun _ w' => proxy_inv w'))|intros w' [] Hi2; by wp_simpl].
  - split; [|split; proxy_cbn; [done | congruence]]. split; [|split; [|split; [done|split; [|done]]]]; proxy_cbn.
    + apply NoDup_app. split; [done|]. split; [|apply NoDup_singleton]. by intros x Hx1 ->%list_elem_of_singleton.
    + intros q. rewrite elem_of_app, list_elem_of_singleton. destruct (decide (q = p)) as [->|Hq]; [rewrite lookup_insert_eq; split; [by right | by eexists]|].
      rewrite lookup_insert_ne by done. rewrite Hs. tauto.
    + intros q Hq. rewrite elem_of_app. left. by apply Hin.
  - intros x l' w' Hi. wp_simpl. by apply ask_inv.
Qed.
Lemma remove_inv p w : proxy_inv w -> m_state w = S_RUN -> p ∈ m_peers w -> p ∉ removes (m_ops w) -> wp (remove_peer p) w (fun w' _ => proxy_inv w').
Proof.
  intros ((Hn & Hs & Hr & Hin & Hf & Ha) & Ht & _) Hst Hp Hq. unfold remove_peer, _remove_peer, detach_socket, ask, get. wp_simpl. rewrite decide_False by (by intros []). wp_simpl. proxy_cbn.
  split; [by apply bool_decide_eq_true|]. split; [|split; proxy_cbn; [done | congruence]]. split; [by apply erase_nodup|]. split; [|split; [done|split; [|done]]]; proxy_cbn.
  - intros q. rewrite elem_of_erase by done. destruct (decide (q = p)) as [->|E]; [rewrite lookup_delete_eq; split; [by intros [? ?] | tauto]|]. rewrite lookup_delete_ne by done. rewrite Hs. tauto.
  - intros q Hq'. apply elem_of_erase; [done|]. split; [by apply Hin | by intros ->].
Qed.
Section session.
Context (PEER_TICKER_FREQ : Z) (is_data_socket is_nonblocking : nat -> bool).
Local Abbreviation do_act := (do_act PEER_TICKER_FREQ is_data_socket is_nonblocking).
Local Abbreviation legal := (legal is_data_socket is_nonblocking).

Lemma event_inv id p so info w : proxy_inv w -> legal w (A_event id p so info) -> wp (on_event is_data_socket is_nonblocking id p so info) w (fun w' _ => proxy_inv w').
Proof.
  intros Hi Hl. unfold on_event, _plan_op, ask, get. wp_simpl. destruct (decide (m_state w <> S_RUN)) as [|Hst%dec_stable]; [wp_simpl; by do 2 apply ask_inv|].
  cbn in Hl. specialize (Hl Hst). destruct id; try done; wp_simpl.
  - by apply plan_inv.
  - apply andb_true_iff in Hl as [H1 H2]. split; [done|]. split; [done|]. by apply plan_inv.
  - apply andb_true_iff in Hl as [[H1 H2]%andb_true_iff H3]. do 3 (split; [done|]). by apply plan_inv.
Qed.
Lemma do_act_inv a w : proxy_inv w -> legal w a -> wp (do_act a) w (fun w' _ => proxy_inv w').
Proof.
  intros Hi Hl. pose proof Hi as (Hw & Ht & Hx). destruct a as [| |p so t|p|id p so info|shut expired now|now]; cbn [peer_proxy.do_act].
  - cbn in Hl. unfold start, ask, get. wp_simpl. split; [by apply bool_decide_eq_true|]. destruct Hx as [E1 E2]; [by rewrite Hl|].
    destruct (0 <? PEER_TICKER_FREQ); wp_simpl; (split; [done|]); proxy_cbn; split; done.
  - cbn in Hl. unfold stop, stop_begin, get. wp_simpl. destruct (decide (m_state w = S_EXIT)) as [|Hne]; wp_simpl; [done|].
    assert (Hst : m_state w = S_RUN) by (by destruct (m_state w)). eapply wp_mono; [apply (deinit_spec (set_state S_EXIT w)); [done | done | by apply Ht]|]. by intros w' _ (? & _).
  - cbn in Hl. wp_simpl. destruct (decide (m_state w = S_RUN)) as [Hst|Hst].
    + eapply wp_mono; [by apply add_inv; [| |apply Hl]|]. intros w' z Hi'. by wp_simpl.
    + unfold add_peer, get. wp_simpl. rewrite decide_True by done. by wp_simpl.
  - cbn in Hl. wp_simpl. destruct (decide (m_state w = S_RUN)) as [Hst|Hst].
    + destruct (Hl Hst). eapply wp_mono; [by apply remove_inv|]. intros w' z Hi'. by wp_simpl.
    + unfold remove_peer, get. wp_simpl. rewrite decide_True by done. by wp_simpl.
  - by apply event_inv.
  - destruct (decide (m_state w = S_RUN)) as [Hst|Hst]; [|unfold update, get; wp_simpl; by rewrite bool_decide_eq_false_2].
    eapply wp_mono; [by apply proxy_update_removes|]. by intros w' _ (? & _).
  - unfold _peer_ticker, ask, get. wp_simpl. destruct (bool_decide _); wp_simpl; [|done]. eapply wp_mono; [apply (wp_iter _ (fun _ w' => proxy_inv w')); [done|]|done]. intros x l' w' Hi'. by apply ask_inv.
Qed.

(** The acts are legal as they come. *)
Fixpoint legal_session (acts : list act) (w : proxy) : Prop :=
  match acts with
  | [] => True
  | a :: acts' => legal w a /\ match do_act a w with Ok (w', _) => legal_session acts' w' | Fault _ => True end
  end.
End session.

(** A peer that its owner removes after its end was seen and before the next tick makes that
    tick fail an assertion: the planned removal does not find the peer. *)
Lemma removed_twice_throws is_data is_nonblocking p so info w shut expired now : proxy_inv w -> m_state w = S_RUN -> m_ops w = [] -> p ∈ m_peers w ->
  (on_event is_data is_nonblocking E_CLOSE p so info;; remove_peer p;; update shut expired now) w = Fault AssertFailed.
Proof.
  intros ((Hn & _) & _) Hst Ho Hp. unfold on_event, _plan_op, remove_peer, detach_socket, _remove_peer, update, _execute_ops, ask, get, assertM, lift, gets, modify, when, mret, M_ret, mbind, M_bind.
  rewrite decide_False by (by intros []). proxy_cbn. rewrite decide_False by (by intros []). proxy_cbn. rewrite bool_decide_eq_true_2 by done. cbn [wawo_assert]. proxy_cbn.
  rewrite Hst, bool_decide_eq_true_2 by done. rewrite Ho. cbn [app length execute_loop]. unfold gets, mbind, M_bind. proxy_cbn. cbn. rewrite decide_False by done.
  unfold detach_socket, _remove_peer, ask, assertM, lift, get, gets, modify, mbind, M_bind. proxy_cbn. rewrite bool_decide_eq_false_2; [done|]. rewrite elem_of_erase by done. by intros [_ []].
Qed.

Definition data : nat -> bool := fun _ => true.
Definition session1 : list act := [A_start; A_add 1 11 None; A_add 2 12 (Some 5%nat); A_event E_CLOSE 1 11 0; A_update data data 20000; A_remove 2; A_add 3 13 None; A_stop].
