(* ===== verification/Node.v ===== *)
(** * Node: listening, accepting and connecting ([include/wawo/net/node_abstract.hpp])

    A node opens the sockets of a program: it listens and accepts, connects at once or later, and
    gives each connection a peer, which it hands to its proxy.

    - [node_call], [node_env]: what is asked of sockets, peers and the user's code, and the answers;
    - [node], [node_abstract]: the state, with the proxy of [PeerProxy], and the methods, each one
      step;
    - [start_listen_spec], [connect_spec], [async_connect_spec]: a socket that was opened is in the
      map, with the caller or on its way, or it was closed once;
    - [node_accepts_every_socket]: the same of every socket that is accepted;
    - [keep_alive_failure_closes_with_ok], [async_connect_needs_cookie]: two slips. *)

From S2P Require Import Prelude Effects SocketData PeerProxy.

(** Sockets, peers, addresses and the user's cookies are numbers. *)
Inductive node_call : Type :=
| N_open (so : nat) | N_reuse_addr (so : nat) | N_reuse_port (so : nat) | N_bind (so : nat) (addr : Z)
| N_nonblocking (so : nat) | N_listen (so : nat) | N_keep_alive (so : nat) | N_set_tlp (so : nat)
| N_connect (so : nat) (addr : Z) | N_handshake (so : nat) | N_async_connect (so : nat) (addr : Z) (cookie : nat)
| N_accept (so : nat) | N_begin_async_read (so : nat) (flags : Z) | N_close (so : nat) (ec : Z)
| N_watch (peer : nat) (id : event_id) | N_unwatch (peer : nat) (id : event_id) | N_unwatch_all (peer : nat)
| N_on_accepted (peer so : nat) | N_success (peer so cookie : nat) | N_err (ec : Z) (cookie : nat)
| N_on_event (id : event_id) (peer : nat).

(** The answers, each from all that was asked before: codes, and for [accept] the number of sockets
    and the code. *)
Class node_env := { answer : list node_call -> node_call -> Z; accepts : list node_call -> nat -> nat * Z }.

(** [async_connect_cookie], and the tasks a peer is added with. *)
Record connect_cookie : Type := mk_cookie { ck_so : option nat; ck_user : option nat }.
Inductive node_task : Type := TK_accepted (peer so : nat) | TK_connected (peer cookie : nat).

Record node : Type := mk_node {
  m_peer_proxy : option proxy;
  m_listen_sockets : gmap Z nat;
  next_so : nat;
  next_peer : nat;
  cookies : list connect_cookie;
  node_tasks : list node_task;
  trace : list node_call
}.
Definition set_proxy v w := mk_node v (m_listen_sockets w) (next_so w) (next_peer w) (cookies w) (node_tasks w) (trace w).
Definition set_listen v w := mk_node (m_peer_proxy w) v (next_so w) (next_peer w) (cookies w) (node_tasks w) (trace w).
Definition set_next_so v w := mk_node (m_peer_proxy w) (m_listen_sockets w) v (next_peer w) (cookies w) (node_tasks w) (trace w).
Definition set_next_peer v w := mk_node (m_peer_proxy w) (m_listen_sockets w) (next_so w) v (cookies w) (node_tasks w) (trace w).
Definition set_cookies v w := mk_node (m_peer_proxy w) (m_listen_sockets w) (next_so w) (next_peer w) v (node_tasks w) (trace w).
Definition set_node_tasks v w := mk_node (m_peer_proxy w) (m_listen_sockets w) (next_so w) (next_peer w) (cookies w) v (trace w).
Definition log_trace v w := mk_node (m_peer_proxy w) (m_listen_sockets w) (next_so w) (next_peer w) (cookies w) (node_tasks w) (trace w ++ [v]).

Module node_abstract.
Section node_abstract.
Context `{node_env} (PEER_TICKER_FREQ : Z).
Local Abbreviation MN := (M node).

Definition make : node := mk_node None ∅ 0 0 [] [] [].
Definition get : MN node := gets (fun w => w).
Definition ask (c : node_call) : MN Z := w ← get; modify (log_trace c);; mret (answer (trace w) c).
Definition tell (c : node_call) : MN unit := modify (log_trace c).
Definition make_socket : MN nat := w ← get; modify (set_next_so (S (next_so w)));; mret (next_so w).
Definition make_peer : MN nat := w ← get; modify (set_next_peer (S (next_peer w)));; mret (next_peer w).
Definition make_task (t : node_task) : MN nat := w ← get; modify (set_node_tasks (node_tasks w ++ [t]));; mret (length (node_tasks w)).
(** A method of the proxy; [WAWO_ASSERT(m_peer_proxy != NULL)]. *)
Definition with_proxy {A} (m : M proxy A) : MN A :=
  w ← get;
  match m_peer_proxy w with
  | None => fail AssertFailed
  | Some p => '(p', a) ← lift (m p); modify (set_proxy (Some p'));; mret a
  end.

(** A step after which the method returns when it fails: with the code, or without one. *)
Definition or_close (so : nat) (c : node_call) (k : MN Z) : MN Z :=
  rt ← ask c; if rt =? OK then k else tell (N_close so rt);; mret rt.
Definition or_close0 (so : nat) (c : node_call) (k : MN Z) : MN Z :=
  rt ← ask c; if rt =? OK then k else tell (N_close so 0);; mret rt.

Definition start_listen (addr : Z) (protocol : protocol_type) : MN Z :=
  w ← get;
  assertM (bool_decide (m_listen_sockets w !! addr = None));;
  lsocket ← make_socket;
  or_close lsocket (N_open lsocket) (
  (fun k => if decide (protocol = P_WCP) then or_close lsocket (N_reuse_addr lsocket) (or_close lsocket (N_reuse_port lsocket) k) else k) (
  or_close lsocket (N_bind lsocket addr) (
  or_close lsocket (N_nonblocking lsocket) (
  or_close lsocket (N_listen lsocket) (
  modify (fun w => set_listen (<[addr := lsocket]> (m_listen_sockets w)) w);;
  tell (N_begin_async_read lsocket WATCH_OPTION_INFINITE);;
  mret OK))))).
Definition stop_listen (addr : Z) : MN Z :=
  w ← get;
  match m_listen_sockets w !! addr with
  | None => fail AssertFailed
  | Some so => modify (set_listen (delete addr (m_listen_sockets w)));; ask (N_close so 0)
  end.

Definition watched : list event_id := [E_MESSAGE; E_RD_SHUTDOWN; E_WR_SHUTDOWN; E_CLOSE; E_WR_BLOCK; E_WR_UNBLOCK].
Definition add_peer (peer so : nat) (lambda : option nat) : MN Z :=
  w ← get;
  assertM (bool_decide (is_Some (m_peer_proxy w)));;
  iterM (fun id => tell (N_watch peer id)) watched;;
  watchrt ← with_proxy (peer_proxy.add_peer peer so lambda);
  when (negb (watchrt =? OK)) (iterM (fun id => tell (N_unwatch peer id)) watched);;
  mret watchrt.
Definition remove_peer (peer : nat) : MN Z := with_proxy (peer_proxy.remove_peer peer).

(** ** Accepting *)
Definition accept_one (so : nat) : MN unit :=
  nonblocking ← ask (N_nonblocking so);
  if negb (nonblocking =? OK) then tell (N_close so nonblocking)
  else
    setdefaultkal ← ask (N_keep_alive so);
    if negb (setdefaultkal =? OK) then tell (N_close so nonblocking)
    else
      peer ← make_peer;
      tell (N_set_tlp so);;
      t ← make_task (TK_accepted peer so);
      addrt ← add_peer peer so (Some t);
      when (negb (addrt =? OK)) (tell (N_close so addrt)).
Fixpoint accept_each (n : nat) : MN unit :=
  match n with O => mret tt | S n' => so ← make_socket; accept_one so;; accept_each n' end.
Fixpoint accept_loop (fuel : nat) (so_ : nat) : MN Z :=
  match fuel with
  | O => fail Diverged
  | S fuel' =>
      w ← get;
      tell (N_accept so_);;
      let '(count, ec) := accepts (trace w) so_ in
      accept_each count;;
      if ec =? E_TRY_AGAIN then accept_loop fuel' so_ else mret ec
  end.
Definition handle_async_accept (fuel : nat) (so_ : nat) : MN unit :=
  ec ← accept_loop fuel so_;
  when (negb (ec =? OK)) (tell (N_close so_ ec)).
Definition handle_async_accept_error (ec : Z) (so_ : nat) : MN unit :=
  assertM (negb (ec =? OK));; tell (N_close so_ ec).

Definition start : MN Z :=
  modify (set_proxy (Some peer_proxy.make));;
  rt ← with_proxy (peer_proxy.start PEER_TICKER_FREQ);
  conditionM (rt =? OK);;
  mret rt.
Definition _stop_all_listener : MN unit :=
  w ← get;
  iterM (fun pair => tell (N_close (snd pair) 0)) (map_to_list (m_listen_sockets w));;
  modify (set_listen ∅).
Definition stop : MN unit :=
  w ← get;
  when (bool_decide (is_Some (m_peer_proxy w))) (with_proxy peer_proxy.stop);;
  _stop_all_listener.

(** ** Connecting *)
Definition connect (addr : Z) : MN (Z * option nat) :=
  so ← make_socket;
  rt ← or_close0 so (N_open so) (
       or_close0 so (N_keep_alive so) (
       or_close0 so (N_connect so addr) (
       tell (N_set_tlp so);;
       or_close0 so (N_handshake so) (mret OK))));
  mret (rt, if rt =? OK then Some so else None).

Definition _async_connect (addr : Z) (cookie : nat) : MN Z :=
  so ← make_socket;
  or_close so (N_open so) (
  or_close so (N_keep_alive so) (
  tell (N_set_tlp so);;
  modify (fun w => set_cookies (alter (fun c => mk_cookie (Some so) (ck_user c)) cookie (cookies w)) w);;
  or_close so (N_async_connect so addr cookie) (mret OK))).
Definition async_connect (addr : Z) (user_cookie : option nat) : MN Z :=
  w ← get;
  modify (set_cookies (cookies w ++ [mk_cookie None user_cookie]));;
  _async_connect addr (length (cookies w)).

(** The cookie of a call back; all of it must be there. *)
Definition cookie_parts (cookie : nat) : MN (nat * nat) :=
  w ← get;
  match cookies w !! cookie with
  | Some (mk_cookie (Some so) (Some u)) => mret (so, u)
  | _ => fail AssertFailed
  end.
Definition cb_async_connected (cookie : nat) : MN unit :=
  '(so, user) ← cookie_parts cookie;
  peer ← make_peer;
  t ← make_task (TK_connected peer cookie);
  addrt ← add_peer peer so (Some t);
  when (negb (addrt =? OK)) (tell (N_close so addrt);; tell (N_err addrt user)).
Definition cb_async_connect_error (ec : Z) (cookie : nat) : MN unit :=
  assertM (negb (ec =? OK));;
  '(so, user) ← cookie_parts cookie;
  tell (N_close so ec);; tell (N_err ec user).
(** The tasks that run when a peer was added. *)
Definition run_task (t : node_task) : MN unit :=
  match t with
  | TK_accepted peer so => tell (N_on_accepted peer so);; tell (N_begin_async_read so 0)
  | TK_connected peer cookie =>
      '(so, user) ← cookie_parts cookie;
      tell (N_success peer so user);; tell (N_begin_async_read so WATCH_OPTION_POST_READ_EVENT_AFTER_WATCH)
  end.

(** ** Events of the peers, with the handlers a node has unless they are overridden *)
Definition on_event (id : event_id) (peer so : nat) (info : Z) : MN unit :=
  match id with
  | E_MESSAGE => tell (N_on_event E_MESSAGE peer)
  | E_RD_SHUTDOWN | E_WR_SHUTDOWN | E_ERROR => tell (N_close so info)
  | E_CLOSE => tell (N_unwatch_all peer);; tell (N_on_event E_CLOSE peer)
  | E_WR_BLOCK => tell (N_on_event E_WR_BLOCK peer)
  | E_WR_UNBLOCK => tell (N_on_event E_WR_UNBLOCK peer)
  | E_PACKET_ARRIVE => fail Thrown
  end.
End node_abstract.
End node_abstract.
Import node_abstract.

(** ** What becomes of a socket *)

(** The codes a socket was closed with. *)
Definition closes (so : nat) (cs : list node_call) : list Z :=
  omap (fun c => match c with N_close s ec => if decide (s = so) then Some ec else None | _ => None end) cs.
Lemma closes_app so a b : closes so (a ++ b) = closes so a ++ closes so b.
Proof. apply omap_app. Qed.
Lemma closes_own so ec : closes so [N_close so ec] = [ec].
Proof. unfold closes. cbn. by rewrite decide_True. Qed.
Lemma closes_other so s ec : s <> so -> closes so [N_close s ec] = [].
Proof. intros Hs. unfold closes. cbn. by rewrite decide_False. Qed.

Section proofs.
Context `{node_env} (PEER_TICKER_FREQ : Z).

Lemma wp_or_close so c k w (Q : node -> Z -> Prop) : wp k (log_trace c w) Q ->
  (forall rt, rt <> OK -> Q (log_trace (N_close so rt) (log_trace c w)) rt) -> wp (or_close so c k) w Q.
Proof. intros Hk Hc. unfold or_close, ask, tell, get. wp_simpl. destruct (Z.eqb_spec (answer (trace w) c) OK); [done|]. wp_simpl. by apply Hc. Qed.
Lemma wp_or_close0 so c k w (Q : node -> Z -> Prop) : wp k (log_trace c w) Q ->
  (forall rt, rt <> OK -> Q (log_trace (N_close so 0) (log_trace c w)) rt) -> wp (or_close0 so c k) w Q.
Proof. intros Hk Hc. unfold or_close0, ask, tell, get. wp_simpl. destruct (Z.eqb_spec (answer (trace w) c) OK); [done|]. wp_simpl. by apply Hc. Qed.

(** The trace of a method that closes [so] with [codes]. *)
Definition closed_with (so : nat) (codes : list Z) (w w' : node) : Prop := exists cs, trace w' = trace w ++ cs /\ closes so cs = codes.
Ltac settle := eexists; split; [cbn [trace log_trace set_listen set_cookies set_next_so]; rewrite <- !app_assoc; reflexivity | unfold closes; cbn; rewrite ?decide_True by done; done].
Lemma eqb_ok rt {A} (a b : A) : rt <> OK -> (if rt =? OK then a else b) = b.
Proof. intros Hr. by rewrite (proj2 (Z.eqb_neq rt OK)). Qed.

(** Listening: the socket is in the map, or it was closed once with the code returned. *)
Lemma start_listen_spec addr protocol w : m_listen_sockets w !! addr = None ->
  wp (start_listen addr protocol) w (fun w' rt =>
    m_peer_proxy w' = m_peer_proxy w /\ next_so w' = S (next_so w) /\
    m_listen_sockets w' = (if rt =? OK then <[addr := next_so w]> (m_listen_sockets w) else m_listen_sockets w) /\
    closed_with (next_so w) (if rt =? OK then [] else [rt]) w w').
Proof.
  intros Hn. unfold start_listen, make_socket, tell, get. wp_simpl. split; [by apply bool_decide_eq_true|]. cbn beta.
  destruct (decide (protocol = P_WCP)); repeat (apply wp_or_close; [|intros rt Hr; rewrite !eqb_ok by done; do 3 (split; [done|]); settle]);
    wp_simpl; do 3 (split; [done|]); settle.
Qed.

(** Connecting: the caller has the socket, or it was closed once. *)
Lemma connect_spec addr w : wp (connect addr) w (fun w' r =>
  m_peer_proxy w' = m_peer_proxy w /\ next_so w' = S (next_so w) /\
  snd r = (if fst r =? OK then Some (next_so w) else None) /\ closed_with (next_so w) (if fst r =? OK then [] else [0]) w w').
Proof.
  unfold connect, make_socket, tell, get. wp_simpl. set (so := next_so w).
  eapply (wp_mono _ _ (fun w' rt => m_peer_proxy w' = m_peer_proxy w /\ next_so w' = S (next_so w) /\ closed_with so (if rt =? OK then [] else [0]) w w'));
    [|intros w' rt (E1 & E2 & E3); wp_simpl; cbn [fst snd]; by destruct (rt =? OK)].
  do 3 (apply wp_or_close0; [|intros rt Hr; rewrite eqb_ok by done; do 2 (split; [done|]); settle]). wp_simpl.
  apply wp_or_close0; [|intros rt Hr; rewrite eqb_ok by done; do 2 (split; [done|]); settle]. wp_simpl. do 2 (split; [done|]). settle.
Qed.
Lemma async_connect_spec addr u w : wp (async_connect addr u) w (fun w' rt =>
  m_peer_proxy w' = m_peer_proxy w /\ next_so w' = S (next_so w) /\ closed_with (next_so w) (if rt =? OK then [] else [rt]) w w' /\
  (rt = OK -> cookies w' = cookies w ++ [mk_cookie (Some (next_so w)) u])).
Proof.
  unfold async_connect, _async_connect, make_socket, tell, get. wp_simpl.
  apply wp_or_close; [|intros rt Hr; rewrite eqb_ok by done; do 2 (split; [done|]); split; [settle | done]].
  apply wp_or_close; [|intros rt Hr; rewrite eqb_ok by done; do 2 (split; [done|]); split; [settle | done]]. wp_simpl.
  apply wp_or_close; [|intros rt Hr; rewrite eqb_ok by done; do 2 (split; [done|]); split; [settle | done]]. wp_simpl.
  do 2 (split; [done|]). split; [settle|]. intros _. cbn. rewrite alter_app_r_alt by lia. by rewrite Nat.sub_diag.
Qed.

(** ** Accepting *)
Definition owned (px : proxy) (so : nat) : Prop := exists p, peer_so px !! p = Some so.
(** The proxy is sound and the peers to come are new. *)
Definition node_ok (w : node) (px : proxy) : Prop := m_peer_proxy w = Some px /\ proxy_inv px /\ forall p, p ∈ m_peers px -> (p < next_peer w)%nat.
(** A socket with a peer, or closed once. *)
Definition settled (px : proxy) (so : nat) (cs : list node_call) : Prop := (owned px so /\ closes so cs = []) \/ exists ec, closes so cs = [ec].

Lemma proxy_add_spec p so t px : proxy_inv px -> p ∉ m_peers px ->
  wp (peer_proxy.add_peer p so t) px (fun px' rt => proxy_inv px' /\
    if rt =? OK then peer_so px' = <[p := so]> (peer_so px) /\ m_peers px' = m_peers px ++ [p] else px' = px).
Proof.
  intros Hi Hp. destruct (decide (m_state px = S_RUN)) as [Hst|Hst].
  - pose proof (add_inv p so t px Hi Hst Hp) as Ha. pose proof Hi as ((_ & Hs & _) & _).
    eapply wp_mono; [apply wp_and; [exact Ha|]|].
    2: { intros px' rt [H1 H2]. split; [exact H1 | exact H2]. }
    unfold peer_proxy.add_peer, peer_proxy.attach_socket, peer_proxy._add_peer, peer_proxy.ask, peer_proxy.get. wp_simpl. rewrite decide_False by (by intros []). wp_simpl. proxy_cbn.
    split; [apply bool_decide_eq_true, eq_None_not_Some; by rewrite Hs|]. split; [by apply bool_decide_eq_true|].
    split; [apply bool_decide_eq_true; rewrite lookup_insert_eq; by eexists|]. split; [by apply bool_decide_eq_true|].
    destruct t; cbn [option_list iterM]; wp_simpl; by split.
  - unfold peer_proxy.add_peer, peer_proxy.get. wp_simpl. rewrite decide_True by done. by wp_simpl.
Qed.

(** [w'] is [w] after [cs], in which the proxy became [px'] and lost no peer. *)
Definition went (w w' : node) (px px' : proxy) (cs : list node_call) : Prop :=
  trace w' = trace w ++ cs /\ node_ok w' px' /\ peer_so px ⊆ peer_so px' /\ m_listen_sockets w' = m_listen_sockets w.
Lemma went_trans a b c pa pb pc cs ds : went a b pa pb cs -> went b c pb pc ds -> went a c pa pc (cs ++ ds).
Proof. intros (T1 & _ & S1 & L1) (T2 & N2 & S2 & L2). split; [by rewrite T2, T1, app_assoc|]. split; [done|]. split; [by etrans | congruence]. Qed.

Lemma with_proxy_spec {A} (m : M proxy A) w px Q : m_peer_proxy w = Some px -> wp m px (fun px' a => Q (set_proxy (Some px') w) a) -> wp (with_proxy m) w Q.
Proof.
  intros Ep Hm. apply wp_run in Hm as (px' & a & Em & HQ). unfold with_proxy, get. wp_simpl. rewrite Ep. wp_simpl. rewrite Em. by wp_simpl.
Qed.

Lemma add_peer_spec p so t w px : node_ok w px -> p ∉ m_peers px -> (p < next_peer w)%nat ->
  wp (add_peer p so t) w (fun w' rt => exists px' cs, went w w' px px' cs /\ next_so w' = next_so w /\
    (forall s, closes s cs = []) /\ (rt = OK -> owned px' so)).
Proof.
  intros (Ep & Hi & Hf) Hp Hlt. unfold add_peer, get, tell. wp_simpl. split; [apply bool_decide_eq_true; rewrite Ep; by eexists|]. cbn [iterM watched]. wp_simpl.
  eapply with_proxy_spec; [exact Ep|]. eapply wp_mono; [by apply proxy_add_spec|]. intros px' rt (Hi' & Hr). wp_simpl. destruct (Z.eqb_spec rt OK) as [->|Hne]; cbn [negb]; wp_simpl.
  - destruct Hr as [Es Em]. exists px'. eexists. split; [split; [cbn; rewrite <- !app_assoc; reflexivity|]|]; [|split; [done|split; [done|]]].
    + split; [|split; [|done]].
      * split; [done|]. split; [done|]. intros q. rewrite Em, elem_of_app, list_elem_of_singleton. cbn. intros [Hq| ->]; [by apply Hf | done].
      * rewrite Es. apply insert_subseteq, eq_None_not_Some. destruct Hi as ((_ & Hs & _) & _). by rewrite Hs.
    + intros _. exists p. by rewrite Es, lookup_insert_eq.
  - subst px'. exists px. eexists. split; [split; [cbn; rewrite <- !app_assoc; reflexivity|]|]; [|split; [done|split; [done | done]]].
    split; [done|]. done.
Qed.

Lemma went_logs w px cs w' : node_ok w px -> trace w' = trace w ++ cs -> m_peer_proxy w' = m_peer_proxy w -> m_listen_sockets w' = m_listen_sockets w ->
  (next_peer w <= next_peer w')%nat -> went w w' px px cs.
Proof. intros (Ep & Hi & Hf) Et E1 E2 Hle. split; [done|]. split; [|by split]. split; [by rewrite E1|]. split; [done|]. intros p Hp. specialize (Hf p Hp). lia. Qed.

Lemma accept_one_spec so w px : node_ok w px ->
  wp (accept_one so) w (fun w' _ => exists px' cs, went w w' px px' cs /\ next_so w' = next_so w /\ settled px' so cs /\ forall s, s <> so -> closes s cs = []).
Proof.
  intros Hw. unfold accept_one, ask, tell, make_peer, make_task, get. wp_simpl.
  assert (Hclose : forall w' ec c cs, trace w' = trace w ++ cs ++ [N_close so ec] -> (forall s, closes s cs = []) -> m_peer_proxy w' = m_peer_proxy w ->
    m_listen_sockets w' = m_listen_sockets w -> next_peer w' = next_peer w -> next_so w' = next_so w -> c = tt ->
    exists px' cs, went w w' px px' cs /\ next_so w' = next_so w /\ settled px' so cs /\ forall s, s <> so -> closes s cs = []).
  { intros w' ec c cs Et Hcs E1 E2 E3 E4 _. exists px, (cs ++ [N_close so ec]). split; [apply went_logs; try done; lia|]. split; [done|]. split.
    - right. exists ec. by rewrite closes_app, Hcs, closes_own.
    - intros s Hs. by rewrite closes_app, Hcs, closes_other. }
  destruct (negb (answer (trace w) (N_nonblocking so) =? OK)); wp_simpl.
  - apply (Hclose _ (answer (trace w) (N_nonblocking so)) tt [N_nonblocking so]); try done. cbn. by rewrite <- app_assoc.
  - destruct (negb (_ =? OK)); wp_simpl.
    + apply (Hclose _ (answer (trace w) (N_nonblocking so)) tt [N_nonblocking so; N_keep_alive so]); try done. cbn. by rewrite <- !app_assoc.
    + set (w1 := set_node_tasks _ _). pose proof Hw as (Ep & Hi & Hf).
      assert (H1 : went w w1 px px [N_nonblocking so; N_keep_alive so; N_set_tlp so]) by (apply went_logs; [done | cbn; by rewrite <- !app_assoc | done | done | cbn; lia]).
      eapply wp_mono; [apply (add_peer_spec (next_peer w) so _ w1 px); [apply H1 | intros Hp; specialize (Hf _ Hp); lia | cbn; lia]|].
      intros w2 rt (px2 & cs & H2 & En & Hcs & Ho). wp_simpl. destruct (Z.eqb_spec rt OK) as [Hr|Hr]; cbn [negb]; wp_simpl.
      * exists px2. eexists. split; [by eapply went_trans|]. split; [done|]. split; [left; split; [by apply Ho|] | intros s _]; rewrite closes_app, Hcs; done.
      * exists px2, (([N_nonblocking so; N_keep_alive so; N_set_tlp so] ++ cs) ++ [N_close so rt]). split; [|split; [done|split]].
        -- eapply went_trans; [by eapply went_trans|]. apply went_logs; [apply H2 | done..].
        -- right. exists rt. by rewrite !closes_app, Hcs, closes_own.
        -- intros s Hs. by rewrite !closes_app, Hcs, closes_other.
Qed.

Lemma settled_grows px px' so cs ds : settled px so cs -> peer_so px ⊆ peer_so px' -> closes so ds = [] -> settled px' so (cs ++ ds).
Proof.
  intros Hs Hp Hd. unfold settled. rewrite closes_app, Hd, app_nil_r. destruct Hs as [[[p Ho] Hc]|Hc]; [left; split; [|done] | by right].
  exists p. by eapply lookup_weaken.
Qed.
(** All the sockets made between [w] and [w'] have a peer or were closed; no other was closed. *)
Definition all_settled (w w' : node) (px' : proxy) (cs : list node_call) : Prop :=
  (next_so w <= next_so w')%nat /\ (forall so, (next_so w <= so < next_so w')%nat -> settled px' so cs) /\ (forall so, (so < next_so w \/ next_so w' <= so)%nat -> closes so cs = []).
Lemma all_settled_trans a b c pb pc cs ds : all_settled a b pb cs -> all_settled b c pc ds -> peer_so pb ⊆ peer_so pc -> all_settled a c pc (cs ++ ds).
Proof.
  intros (L1 & S1 & C1) (L2 & S2 & C2) Hp. split; [lia|]. split; intros so Hso.
  - destruct (decide (so < next_so b)%nat) as [Hb|Hb].
    + apply (settled_grows pb); [apply S1; lia | done | apply C2; lia].
    + unfold settled. rewrite closes_app, C1 by lia. apply S2. lia.
  - by rewrite closes_app, C1, C2 by lia.
Qed.

Lemma accept_each_spec n : forall w px, node_ok w px ->
  wp (accept_each n) w (fun w' _ => exists px' cs, went w w' px px' cs /\ all_settled w w' px' cs).
Proof.
  induction n as [|n IH]; intros w px Hw; cbn [accept_each].
  - wp_simpl. exists px, []. split; [apply went_logs; [done | by rewrite app_nil_r | done..]|]. split; [done|]. split; [intros so; lia | done].
  - unfold make_socket, get. wp_simpl. set (w1 := set_next_so _ w). assert (H1 : went w w1 px px []) by (apply went_logs; [done | by rewrite app_nil_r | done..]).
    eapply wp_mono; [apply (accept_one_spec (next_so w) w1 px); apply H1|]. intros w2 [] (px2 & cs & H2 & En & Hs & Hc).
    assert (Hall : all_settled w w2 px2 cs).
    { cbn in En. split; [lia|]. split; intros so Hso; [by replace so with (next_so w) by lia | apply Hc; lia]. }
    eapply wp_mono; [apply IH, H2|]. intros w3 _ (px3 & ds & H3 & Ha). exists px3, (cs ++ ds). split; [|eapply all_settled_trans; [done..|apply H3]].
    change (cs ++ ds) with ([] ++ cs ++ ds). eapply went_trans; [done|]. by eapply went_trans.
Qed.

(** A round that says that more connections wait leaves fewer of them. *)
Class node_laws := { backlog : list node_call -> nat;
  accepts_backlog : forall tr so cs, snd (accepts tr so) = E_TRY_AGAIN -> (backlog (tr ++ N_accept so :: cs) < backlog tr)%nat }.
Context `{node_laws}.

Lemma accept_loop_spec so_ fuel : forall w px, node_ok w px -> (backlog (trace w) < fuel)%nat ->
  wp (accept_loop fuel so_) w (fun w' ec => exists px' cs, went w w' px px' cs /\ all_settled w w' px' cs /\ ec <> E_TRY_AGAIN).
Proof.
  induction fuel as [|fuel IH]; intros w px Hw Hb; [lia|]. cbn [accept_loop]. unfold tell, get. wp_simpl.
  pose proof (accepts_backlog (trace w) so_) as Hl. destruct (accepts (trace w) so_) as [count ec]. cbn [snd] in Hl.
  assert (H1 : went w (log_trace (N_accept so_) w) px px [N_accept so_]) by (by apply went_logs).
  assert (A1 : all_settled w (log_trace (N_accept so_) w) px [N_accept so_]) by (split; [done|]; split; [cbn; intros so; lia | done]).
  wp_simpl. eapply wp_mono; [apply accept_each_spec, H1|]. intros w2 [] (px2 & cs & H2 & A2).
  pose proof (went_trans _ _ _ _ _ _ _ _ H1 H2) as H12. assert (A12 : all_settled w w2 px2 ([N_accept so_] ++ cs)) by (eapply all_settled_trans; [done..|apply H2]).
  destruct (Z.eqb_spec ec E_TRY_AGAIN) as [He|He]; wp_simpl; [|by exists px2, ([N_accept so_] ++ cs)].
  eapply wp_mono; [apply IH; [apply H2|]|].
  - destruct H12 as (-> & _). cbn [app]. specialize (Hl cs He). lia.
  - intros w3 e (px3 & ds & H3 & A3 & He3). exists px3, (([N_accept so_] ++ cs) ++ ds). split; [by eapply went_trans|]. split; [|done]. eapply all_settled_trans; [done..|apply H3].
Qed.


(** A socket whose keep alive cannot be set is closed with the code of the step before, OK. *)
Lemma keep_alive_failure_closes_with_ok so w : answer (trace w) (N_nonblocking so) = OK -> answer (trace w ++ [N_nonblocking so]) (N_keep_alive so) <> OK ->
  wp (accept_one so) w (fun w' _ => trace w' = trace w ++ [N_nonblocking so; N_keep_alive so; N_close so OK]).
Proof.
  intros H1 H2. unfold accept_one, ask, tell, get. wp_simpl. cbn [trace log_trace]. rewrite H1, Z.eqb_refl. cbn [negb]. wp_simpl. cbn [trace log_trace].
  rewrite (proj2 (Z.eqb_neq _ _) H2). cbn [negb]. wp_simpl. cbn. by rewrite <- !app_assoc.
Qed.
(** The callbacks assert that there is a user's cookie, which [async_connect] does not ask for. *)
Lemma async_connect_needs_cookie c so w : cookies w !! c = Some (mk_cookie (Some so) None) -> cb_async_connected c w = Fault AssertFailed.
Proof. intros Hc. unfold cb_async_connected, cookie_parts, get, gets, mbind, M_bind. by rewrite Hc. Qed.
End proofs.

(** ** Witness: two connections, and one more in the second round *)
Definition accepted_before (tr : list node_call) : bool := existsb (fun c => match c with N_accept _ => true | _ => false end) tr.
#[export] Instance sample_env : node_env := {|
  answer _ c := match c with N_keep_alive 2 => -5 | _ => OK end;
  accepts tr so := if accepted_before tr then (1%nat, OK) else (2%nat, E_TRY_AGAIN) |}.
#[export] Program Instance sample_laws : node_laws := {|
  backlog tr := if accepted_before tr then 0%nat else 1%nat |}.
Next Obligation. intros tr so cs. cbn. destruct (accepted_before tr) eqn:E; [done|]. intros _. unfold accepted_before in *. rewrite existsb_app, E. cbn. lia. Qed.
Definition running : node := mk_node (Some (mk_proxy S_RUN [] [] [] 0 true false ∅ [])) {[ 80 := 0%nat ]} 1 0 [] [] [].
Lemma running_ok : node_ok running (mk_proxy S_RUN [] [] [] 0 true false ∅ []).
Proof.
  split; [done|]. split; [|by intros p ?%elem_of_nil]. split; [|split; done]. split; [constructor|]. split; [|split; [constructor|split; [|split; constructor]]].
  - intros p. cbn. rewrite lookup_empty. split; [by intros [? ?] | by intros ?%elem_of_nil].
  - by intros p ?%elem_of_nil.
Qed.
Example three_accepted : exists w, handle_async_accept 2 0 running = Ok (w, tt) /\ next_so w = 4%nat /\ closes 2 (trace w) = [0] /\ m_peers <$> m_peer_proxy w = Some [0; 1]%nat.
Proof. eexists. split; [vm_compute; reflexivity|]. done. Qed.
