(* ===== verification/Http.v ===== *)
(** * Http: headers, messages and the peer of HTTP
    ([include/wawo/net/protocol/http.hpp], [include/wawo/net/peer/message/http.hpp],
    [include/wawo/net/peer/http.hpp], [src/net/peer/http.cpp])

    Strings are the characters of [len_cstr]s (of [Strings]); the vendored parser is a parameter: it
    takes the bytes of a packet and calls back.

    - [header]: the map of the fields with the order in which they came; [http_header]: its methods;
    - [http_message], [http_encode]: messages and their bytes;
    - [http]: the peer; [http_peer]: its methods and what the parser calls. *)

From Stdlib Require Import Ascii String.
From S2P Require Import Prelude Effects Packet SocketData MuxStream Ros Strings.
Local Open Scope Z_scope.

Definition E_HTTP_REQUEST_MISSING_OPTION : Z := -44001.
Definition E_HTTP_MESSAGE_INVALID_TYPE : Z := -44002.
Definition E_HTTP_REQUEST_NOT_DONE : Z := -44003.

(** The characters of a literal; the digits of [%d]; [snprintf] into a buffer of [size] bytes. *)
Definition str (s : string) : list Z := map (fun a => Z.of_nat (nat_of_ascii a)) (list_ascii_of_string s).
Fixpoint digits (fuel : nat) (n : Z) : list Z :=
  match fuel with O => [] | S fuel' => (if n <? 10 then [] else digits fuel' (n / 10)) ++ [48 + n mod 10] end.
Definition print_d (n : Z) : list Z := if n <? 0 then 45 :: digits 20 (- n) else digits 20 n.
Definition snprintf (size : nat) (bytes : list Z) : list Z := take (size - 1) bytes.

Definition CRLF : list Z := [13; 10].
Definition COLON_SP : list Z := [58; 32].

(** ** Headers *)
Record header : Type := mk_header { hmap : gmap (list Z) (list Z); keys_order : list (list Z) }.
Definition empty_header : header := mk_header ∅ [].
Fixpoint erase_key (k : list Z) (l : list (list Z)) : option (list (list Z)) :=
  match l with [] => None | x :: l' => if decide (x = k) then Some l' else cons x <$> erase_key k l' end.

Module http_header.
Section http_header.
Context `{memory}.
Definition have (h : header) (field : list Z) : bool := bool_decide (is_Some (hmap h !! field)).
Definition remove (h : header) (field : list Z) : res header :=
  match hmap h !! field with
  | None => Ok h
  | Some _ => match erase_key field (keys_order h) with None => Fault AssertFailed | Some ks => Ok (mk_header (delete field (hmap h)) ks) end
  end.
Definition get (h : header) (field : list Z) : list Z := default [] (hmap h !! field).
Definition set (h : header) (field value : list Z) : header :=
  match hmap h !! field with
  | Some _ => mk_header (<[field := value]> (hmap h)) (keys_order h)
  | None => mk_header (<[field := value]> (hmap h)) (keys_order h ++ [field])
  end.
Definition replace (h : header) (field value : list Z) : header :=
  match hmap h !! field with Some _ => mk_header (<[field := value]> (hmap h)) (keys_order h) | None => h end.
Fixpoint encode_lines (h : header) (keys : list (list Z)) (p : packet.t) : res packet.t :=
  match keys with
  | [] => Ok p
  | key :: keys' =>
      let value := get h key in
      p ← packet.write p key;
      p ← packet.write p [58];
      p ← packet.write p [32];
      p ← packet.write p value;
      p ← packet.write p CRLF;
      encode_lines h keys' p
  end.
Definition encode (h : header) : res packet.t :=
  opacket ← packet.make_right packet.INIT_RIGHT_CAPACITY;
  opacket ← encode_lines h (keys_order h) opacket;
  packet.write opacket CRLF.
End http_header.
End http_header.

(** ** Messages *)
Inductive http_type : Type := HT_NONE | HT_REQUEST | HT_RESPONSE.
Definition O_NONE : Z := -1.
Definition O_GET : Z := 0.
Definition O_POST : Z := 2.
Definition O_MAX : Z := 8.
Definition option_name : list (list Z) :=
  [str "GET"; str "HEAD"; str "POST"; str "PUT"; str "DELETE"; str "CONNECT"; str "OPTIONS"; str "TRACE"].
Record http_message : Type := mk_http {
  type : http_type; http_option : Z; major : Z; minor : Z; url : list Z; fields : header; body : list Z; code : Z; status : list Z }.
Definition new_http : http_message := mk_http HT_NONE O_NONE 1 1 [] empty_header [] 0 [].
Definition set_ht v m := mk_http v (http_option m) (major m) (minor m) (url m) (fields m) (body m) (code m) (status m).
Definition set_option v m := mk_http (type m) v (major m) (minor m) (url m) (fields m) (body m) (code m) (status m).
Definition set_version a b m := mk_http (type m) (http_option m) a b (url m) (fields m) (body m) (code m) (status m).
Definition set_url v m := mk_http (type m) (http_option m) (major m) (minor m) v (fields m) (body m) (code m) (status m).
Definition set_fields v m := mk_http (type m) (http_option m) (major m) (minor m) (url m) v (body m) (code m) (status m).
Definition set_body v m := mk_http (type m) (http_option m) (major m) (minor m) (url m) (fields m) v (code m) (status m).
Definition set_code v m := mk_http (type m) (http_option m) (major m) (minor m) (url m) (fields m) (body m) v (status m).
Definition set_status v m := mk_http (type m) (http_option m) (major m) (minor m) (url m) (fields m) (body m) (code m) v.

Definition add_header_line (m : http_message) (field value : list Z) : http_message := set_fields (http_header.set (fields m) field value) m.
(** A field that is set when it is not there. *)
Definition set_default (m : http_message) (field value : list Z) : http_message :=
  if http_header.have (fields m) field then m else add_header_line m field value.

(** [encode] changes the message, puts its first line into a buffer of fixed size, and gives the
    packet. *)
Section encode.
Context `{memory}.
Definition request_line (m : http_message) : res (list Z) :=
  match option_name !! Z.to_nat (http_option m) with
  | None => Fault Undefined
  | Some name => Ok (snprintf 512 (name ++ [32] ++ url m ++ str " HTTP/" ++ print_d (major m) ++ [46] ++ print_d (minor m)))
  end.
Definition status_line (m : http_message) : list Z :=
  snprintf 128 (str "HTTP/" ++ print_d (major m) ++ [46] ++ print_d (minor m) ++ [32] ++ print_d (code m) ++ [32] ++ status m).
Definition encode_rest (m : http_message) (httppack : packet.t) : res (http_message * Z * option packet.t) :=
  let m := set_default m (str "Server") (str "wawo/1.1") in
  let m := if 0 <? zlen (body m) then add_header_line m (str "content-length") (snprintf 16 (print_d (i32 (zlen (body m))))) else m in
  hpacket ← http_header.encode (fields m);
  httppack ← packet.write httppack (packet.data hpacket);
  httppack ← (if 0 <? zlen (body m) then packet.write httppack (body m) else Ok httppack);
  Ok (m, OK, Some httppack).
Definition http_encode (m : http_message) : res (http_message * Z * option packet.t) :=
  httppack ← packet.make_right packet.INIT_RIGHT_CAPACITY;
  match type m with
  | HT_REQUEST =>
      if negb ((http_option m <? O_MAX) && (O_NONE <? http_option m)) then Ok (m, E_HTTP_REQUEST_MISSING_OPTION, None)
      else
        let m := if bool_decide (url m = []) then set_url [47] m else m in
        let m := set_default m (str "User-Agent") (str "wawo/1.1") in
        resp ← request_line m;
        httppack ← packet.write httppack resp;
        httppack ← packet.write httppack CRLF;
        encode_rest m httppack
  | HT_RESPONSE =>
      let m := if (code m =? 200) && bool_decide (status m = []) then set_status (str "OK") m else m in
      wawo_assert (0 <? zlen (status m));;
      httppack ← packet.write httppack (status_line m);
      httppack ← packet.write httppack CRLF;
      encode_rest m httppack
  | HT_NONE => Ok (m, E_HTTP_MESSAGE_INVALID_TYPE, None)
  end.
End encode.

(** ** The peer *)

(** What the parser calls; characters are given by where they begin in the packet's block and their
    number; the end of a message comes with what the parser found out about it. *)
Inductive parser_call : Type :=
| CB_message_begin | CB_url (off n : Z) | CB_status (off n : Z) | CB_header_field (off n : Z) | CB_header_value (off n : Z)
| CB_headers_complete | CB_body (off n : Z) | CB_message_complete (hp_type method status_code http_major http_minor : Z) | CB_chunk.
Definition HTTP_REQUEST : Z := 0.
Definition HTTP_RESPONSE : Z := 1.

Inductive http_answer : Type := HA_respond (cb : nat) (m : http_message).
Inductive http_event : Type := HE_message (m : http_message) | HE_info (eid : event_id) (info : Z).

Section http.
Context {P E : Type}.
(** [m_hparser]: the parser's state, [None] for the null pointer; [m_requested]: the callbacks. *)
Record http : Type := mk_http_peer {
  m_hparser : option P;
  m_requested : list nat;
  m_requested_mutex : bool;
  m_tmp : option http_message;
  m_tmp_field : list Z;
  m_tmp_body : list Z;
  m_so : bool;
  sock : E;
  events : list http_event;
  answers : list http_answer
}.
Definition set_hparser v w := mk_http_peer v (m_requested w) (m_requested_mutex w) (m_tmp w) (m_tmp_field w) (m_tmp_body w) (m_so w) (sock w) (events w) (answers w).
Definition set_requested v w := mk_http_peer (m_hparser w) v (m_requested_mutex w) (m_tmp w) (m_tmp_field w) (m_tmp_body w) (m_so w) (sock w) (events w) (answers w).
Definition set_mutex v w := mk_http_peer (m_hparser w) (m_requested w) v (m_tmp w) (m_tmp_field w) (m_tmp_body w) (m_so w) (sock w) (events w) (answers w).
Definition set_tmp v w := mk_http_peer (m_hparser w) (m_requested w) (m_requested_mutex w) v (m_tmp_field w) (m_tmp_body w) (m_so w) (sock w) (events w) (answers w).
Definition set_field v w := mk_http_peer (m_hparser w) (m_requested w) (m_requested_mutex w) (m_tmp w) v (m_tmp_body w) (m_so w) (sock w) (events w) (answers w).
Definition set_tmp_body v w := mk_http_peer (m_hparser w) (m_requested w) (m_requested_mutex w) (m_tmp w) (m_tmp_field w) v (m_so w) (sock w) (events w) (answers w).
Definition set_so v w := mk_http_peer (m_hparser w) (m_requested w) (m_requested_mutex w) (m_tmp w) (m_tmp_field w) (m_tmp_body w) v (sock w) (events w) (answers w).
Definition set_sock v w := mk_http_peer (m_hparser w) (m_requested w) (m_requested_mutex w) (m_tmp w) (m_tmp_field w) (m_tmp_body w) (m_so w) v (events w) (answers w).
Definition log_event v w := mk_http_peer (m_hparser w) (m_requested w) (m_requested_mutex w) (m_tmp w) (m_tmp_field w) (m_tmp_body w) (m_so w) (sock w) (events w ++ [v]) (answers w).
Definition log_answer v w := mk_http_peer (m_hparser w) (m_requested w) (m_requested_mutex w) (m_tmp w) (m_tmp_field w) (m_tmp_body w) (m_so w) (sock w) (events w) (answers w ++ [v]).
Definition new_http_peer (e : E) : http := mk_http_peer None [] false None [] [] false e [] [].
End http.
Arguments http : clear implicits.

Module http_peer.
Section http_peer.
Context `{memory} {P E : Type} `{peer_socket E}.
(** The vendored parser: [http_parser_init], [http_parser_execute] with the calls it makes, in
    order, and [http_errno]; and what a user's callback does to the peer. *)
Context (parser_init : P) (execute : P -> list Z -> list parser_call * P * Z) (on_respond : nat -> http_message -> M (http P E) unit).
Local Abbreviation MH := (M (http P E)).

Definition get_peer : MH (http P E) := gets (fun w => w).
Definition trigger (e : http_event) : MH unit := modify (log_event e).
Definition with_requested {A} (m : MH A) : MH A :=
  w ← get_peer; if m_requested_mutex w then fail Waits else modify (set_mutex true);; a ← m; modify (set_mutex false);; mret a.

(** The constructor of [len_cstr] at a place in the block of a packet. *)
Definition of_region (p : packet.t) (off n : Z) : res (list Z) :=
  s ← of_cstr_len (drop (Z.to_nat (packet.m_read_idx p + off)) (packet.m_buffer p)) n; Ok (to_std s).
Definition tmp : MH http_message := w ← get_peer; match m_tmp w with None => fail Undefined | Some m => mret m end.

Definition _alloc_http_parser : MH unit :=
  w ← get_peer; assertM (match m_hparser w with None => true | _ => false end);; modify (set_hparser (Some parser_init)).
Definition attach_socket : MH unit := w ← get_peer; assertM (negb (m_so w));; modify (set_so true);; _alloc_http_parser.
Definition detach_socket : MH unit := modify (set_so false).

Definition http_parser_on_message_begin : MH unit := modify (set_tmp (Some new_http));; modify (set_field []);; modify (set_tmp_body []).
Definition http_parser_on_header_field (p : packet.t) (off n : Z) : MH unit :=
  w ← get_peer; assertM (bool_decide (is_Some (m_tmp w)));; s ← lift (of_region p off n); modify (set_field s).
Definition http_parser_on_header_value (p : packet.t) (off n : Z) : MH unit :=
  w ← get_peer; assertM (0 <? zlen (m_tmp_field w));;
  m ← tmp; s ← lift (of_region p off n); modify (set_tmp (Some (add_header_line m (m_tmp_field w) s))).
Definition http_parser_on_body (p : packet.t) (off n : Z) : MH unit :=
  s ← lift (of_region p off n); modify (fun w => set_tmp_body (m_tmp_body w ++ s) w).
Definition http_parser_on_url (p : packet.t) (off n : Z) : MH unit := m ← tmp; s ← lift (of_region p off n); modify (set_tmp (Some (set_url s m))).
Definition http_parser_on_status (p : packet.t) (off n : Z) : MH unit := m ← tmp; s ← lift (of_region p off n); modify (set_tmp (Some (set_status s m))).

(** [option_map], in the order of the parser's numbers of the methods. *)
Definition option_map : list Z := [4; 0; 1; 2; 3; 5].
Definition http_parser_on_message_complete (hp_type method status_code http_major http_minor : Z) : MH unit :=
  m ← tmp; w ← get_peer;
  let m := set_body (m_tmp_body w) m in
  modify (set_tmp (Some m));;
  (if hp_type =? HTTP_REQUEST then
     match option_map !! Z.to_nat method with
     | None => fail Undefined
     | Some o => let m := set_option o (set_ht HT_REQUEST m) in modify (set_tmp (Some m));; trigger (HE_message m)
     end
   else if hp_type =? HTTP_RESPONSE then
     let m := set_code status_code (set_version http_major http_minor (set_ht HT_RESPONSE m)) in
     modify (set_tmp (Some m));;
     cb ← with_requested (
       w ← get_peer;
       match m_requested w with [] => fail AssertFailed | cb :: l => modify (set_requested l);; mret cb end);
     modify (log_answer (HA_respond cb m));; on_respond cb m
   else fail Thrown);;
  modify (set_tmp None).

Definition parser_callback (p : packet.t) (c : parser_call) : MH unit :=
  match c with
  | CB_message_begin => http_parser_on_message_begin
  | CB_url off n => http_parser_on_url p off n
  | CB_status off n => http_parser_on_status p off n
  | CB_header_field off n => http_parser_on_header_field p off n
  | CB_header_value off n => http_parser_on_header_value p off n
  | CB_body off n => http_parser_on_body p off n
  | CB_message_complete t m c a b => http_parser_on_message_complete t m c a b
  | CB_headers_complete | CB_chunk => mret tt
  end.
Definition on_packet (inpack : packet.t) : MH unit :=
  l ← lift (packet.len inpack);
  assertM (0 <? l);;
  w ← get_peer;
  match m_hparser w with
  | None => fail AssertFailed
  | Some st =>
      let '(cs, st', errno) := execute st (packet.data inpack) in
      iterM (parser_callback inpack) cs;;
      modify (set_hparser (Some st'));;
      when (negb (errno =? OK)) (zoom sock set_sock (so_close errno);; mret tt)
  end.
Definition on_event (evt : socket_event) : MH unit :=
  w ← get_peer;
  assertM (m_so w);;
  match e_id evt with
  | E_PACKET_ARRIVE => match e_data evt with Some p => on_packet p | None => fail AssertFailed end
  | E_MESSAGE => fail Thrown
  | e => trigger (HE_info e (e_info evt))
  end.

Definition do_send_message (m : http_message) : MH (http_message * Z) :=
  w ← get_peer;
  if negb (m_so w) then mret (m, E_PEER_NO_SOCKET_ATTACHED)
  else
    '(m, mencrt, httppack) ← lift (http_encode m);
    if negb (mencrt =? OK) then mret (m, mencrt)
    else match httppack with
         | None => fail Undefined
         | Some p => rt ← zoom sock set_sock (so_send_packet p); mret (m, rt)
         end.
Definition respond (resp req : http_message) : MH (http_message * Z) :=
  assertM (match type req with HT_REQUEST => true | _ => false end);;
  assertM (negb (http_option req =? O_NONE));;
  assertM (match type resp with HT_REQUEST => false | _ => true end);;
  assertM (http_option resp =? O_NONE);;
  do_send_message (set_ht HT_RESPONSE resp).
(** [get] and [post] differ in the option. *)
Definition ask_with (o : Z) (m : http_message) (cb : option nat) : MH (http_message * Z) :=
  assertM (match type m with HT_REQUEST => true | _ => false end);;
  assertM (http_option m =? O_NONE);;
  match cb with
  | None => fail AssertFailed
  | Some cb =>
      let m := set_option o m in
      with_requested (
        w ← get_peer;
        match m_requested w with
        | _ :: _ => mret (m, E_HTTP_REQUEST_NOT_DONE)
        | [] =>
            '(m, msndrt) ← do_send_message m;
            if negb (msndrt =? OK) then mret (m, msndrt)
            else modify (fun w => set_requested (m_requested w ++ [cb]) w);; mret (m, msndrt)
        end)
  end.
Definition get (m : http_message) (cb : option nat) : MH (http_message * Z) := ask_with O_GET m cb.
Definition post (m : http_message) (cb : option nat) : MH (http_message * Z) := ask_with O_POST m cb.
End http_peer.
End http_peer.
